(* ===== verification/_CoqProject ===== *)
-Q . S2P
Prelude.v
KeyTable.v
Hash.v
HashSpec.v
OpMem.v
OpMemSpec.v
OpMemRefill.v
OpMemSafety.v
HashMem.v
Bytes.v
OpRpc.v
OpRpcSpec.v
CString.v
Parser.v
ParserSpec.v
Timer.v
TimerSpec.v
TimerProps.v
Utils.v
Pdu.v
PduSpec.v
LinkList.v
U9300.v
U9300Spec.v
U9300Timers.v
U9300TimersSpec.v
OpLog.v
OpLogSpec.v
Vector.v
VtyTerm.v
VtyTermSpec.v
VtyWord.v
VtyWordSpec.v
VtyCmd.v
VtyCmdSpec.v
VtyExec.v
VtyExecSpec.v
VtyDispatch.v
VtyFormat.v
VtyFormatSpec.v
Vty.v
VtySpec.v
OpCli.v
OpCliSpec.v
OpFile.v
OpFileSpec.v
OpMemReport.v
OpMgr.v
OpMgrSpec.v
ULoop.v
ULoopSpec.v
ULoopSafety.v
Usock.v
OpSql.v
Op4g.v
Spider.v
SpiderSpec.v
LibTipc.v
LibTipcSpec.v
OpLogStart.v
OpLogStartSpec.v
Pbus.v
PbusSpec.v
OpMail.v
OpServer.v
UtilsSys.v
Starting.v
OpCliStart.v
OpCliStartSpec.v
Op4gStart.v
Op4gStartSpec.v
OpMgrStart.v
Launch.v
LinkIter.v
