(* ===== verification/Prelude.v ===== *)
(** * opserver: a verification development of the server's own code

    The program (src/src) is a server made of a base library, a box of data structures and a set
    of modules that run beside each other. This library models its own C code; the vendored web
    server and broker (src/src/module/webserver, src/src/module/mqtt) are not part of it.

    ** The parts, and where each is modelled

    - [KeyTable] the interface between the hash table and the components that keep their entries
      in one: operations and laws, as classes.
    - [Hash], [HashSpec] opbox/hash.c, linear hashing: the record [op_hash_st], every function
      of the file, the representation invariant, the refinement to a finite map, the instance of
      [KeyTable].
    - [HashMem] base/hash_mem.c, the copy of that table which takes its memory from the pool.
    - [OpMem], [OpMemSpec], [OpMemRefill], [OpMemSafety] base/opmem.c, the memory pool: element
      lists, father blocks, statistics, over any [KeyTable]. [OpMemReport] the two reports of
      the pool, as the bytes they write into a buffer.
    - [OpRpc], [OpRpcSpec] base/oprpc.c, remote and local procedure calls: the reading state
      machine of a connection, the connection table (a client of [KeyTable]), the caller's side.
      libevent's buffers are the class [EvBuffer] with the laws [EvBufferLaws].
    - [Parser], [ParserSpec] opbox/parser.c, the reader of configuration lines.
    - [Timer], [TimerSpec], [TimerProps] module/timer_service/timer_service.c, the cron service,
      which reads its tables with [Parser].
    - [LinkList] opbox/list.h, intrusive lists over a store of [next] and [prev] fields; [LinkIter]
      its loops, with a body that may take nodes off the list.
    - [Pdu], [PduSpec] module/op4g/_4g_pdu.c, the PDU of a short message; [U9300], [U9300Spec]
      module/op4g/u9300.c and op4g.c, the command queue of the modem on [LinkList], with the
      threads that use it interleaving; [U9300Timers], [U9300TimersSpec] the timer callbacks of
      u9300.c, which take no lock, access by access.
    - [OpLog], [OpLogSpec] base/oplog.c, the log pipeline; [OpLogStart], [OpLogStartSpec] its start
      and end, as code with [goto exit] over what it acquires, on the sockets of [Usock].
    - [ULoop], [ULoopSpec], [ULoopSafety] opbox/uloop.c, the event loop: timers, processes,
      descriptors and signals, with callbacks that call the loop again; [Usock] opbox/usock.c,
      the opening of sockets.
    - [OpSql] base/opsql.c, the database layer over the classes [Odbc] and [OdbcLaws]; [Op4g]
      the sending of messages of module/op4g/op4g.c and op4g_bus.c; [Spider], [SpiderSpec]
      module/spider/spider.c, the stock monitor, on both; [OpMail] module/outer/opmail.c.
    - [LibTipc], [LibTipcSpec] base/libtipc.c, the binding to TIPC sockets and to the topology
      server.
    - [OpFile], [OpFileSpec] module/opfile, the recognition of files; libxml and the matcher are
      parameters.
    - [OpMgr], [OpMgrSpec] module/opmgr, the usage of the processors, and its commands on the
      console; [Pbus], [PbusSpec] tools/pbus, the tool that asks it over the RPC server.
    - [Starting] start functions as sequences of calls that interleave with the threads they start:
      [OpCliStart], [OpCliStartSpec] [opcli_init] of base/opcli.c and clients that connect on the
      way; [Op4gStart], [Op4gStartSpec] [op4g_init] of module/op4g/op4g.c (with [u9300_init]) and
      bytes of the modem; [OpMgrStart] the starts of the manager, with the client of the broker, and
      of the spider.
    - [OpServer] opserver.c, the order of the start and the watch over the children; [Launch] the
      programs beside it, which start the broker and the web server, and tools/file_compile.
    - [Utils], [UtilsSys], [CString], [Bytes] opbox/utils.c (checks and copies; addresses, signals,
      the serial port) and the parts of the C library and of the machine's representation of data
      the components share.
    - [Vector] the growable arrays of opbox/vty.c. [VtyTerm], [VtyTermSpec] the session record and
      the terminal of vty.c: editing, history, escapes, telnet options, with the screen a
      terminal shows as the specification. [VtyWord], [VtyWordSpec] the matching of one word
      (ranges, addresses, literals); [VtyCmd], [VtyCmdSpec] the tokens of a command and the
      matching of a line with them; [VtyExec], [VtyExecSpec] the filtering of a node's commands,
      execution, completion and description; [VtyDispatch] the reference dispatch and the proof
      that execution is it; [VtyFormat], [VtyFormatSpec] the parser of command texts; [Vty],
      [VtySpec] the keys as they arrive ([vty_read]) on all of these.
    - [OpCli], [OpCliSpec] base/opcli.c, the console: nodes and their commands (kept in tables
      through [KeyTable]), clients, navigation, and the server as a transition system of
      connections, arrivals and installations. opbox/ptelnet.c is the bytes it sends.

    ** How C is modelled

    A w-bit integer is a [Z] with its wrap-around ([u32], [s32], ...) written where the code
    computes; a string is the list of its characters; an array is a list, and an access outside
    it makes the operation [None]. A structure is a [Record], an operation a function from the
    state to the state and the value returned; what an operation writes to a descriptor is part
    of its result. The answers of the system (allocations, clocks, sockets, processes) are
    arguments, so that a theorem quantifies over them. Locks are not values: a function that
    runs under its lock is one transition. Where code uses shared state without the lock it is
    split where others may come in between: the timer callbacks of the modem in [U9300Timers], a
    new connection of the console in [OpCli]. A string passed by reference is a value, but where
    the code may free it while it is in use ([Timer.delete_loop]).

    ** What the theorems show

    - The tables and the memory: C1, C30 (hash table: refinement to a finite map,
      load), C39 (the table on the pool never grows); C2, C16, 
      C38, C40 (the pool: refinement to its contract, exact statistics,
      the periodic check, the defect of [op_realloc]); C23, C24 (lists and arrays
      refine sequences).
    - Calls and sockets: C6, C15, C31 (a call from end to end, memory
      safety of the server on any bytes, the table of connections); C25 (a socket is opened
      as asked, and no other is left open), C27 (waiting for a service of the cluster).
    - The event loop: C5 (whatever clients and the system do, the loop reads no freed structure,
      under two restrictions on callbacks that counterexamples show to be needed), C14
      (timers run in order and not before their time), C28 (what the start takes the end gives
      back).
    - The console: C3 (execution equals the reference dispatch), C8, C37 (command texts are read
      back; which texts the parser ends on, crashes on and never ends on), C20 (completion), C10, C22
      (line editing, the screen), C9 (sessions stay well formed on any bytes), 
      C21, C4 (leaving, and that the server is never stuck), 
      C11 (when a client may connect during the start). These are stacked: C4 takes the promise of C9 about sessions and discharges its
      hypothesis about callbacks for the commands of the console itself; C29 discharges it for
      those of the manager.
    - The timer service: C36 (the entries of the file), C7 (the schedule of an
      entry), C32 (the job table).
    - The modem and the log: C12, C33 (the command queue under interleaving, with timers that
      take no lock; a message from the sender to the answer), C13 (when the modem may send during the start), C34 (the PDU), C35, C26 (a record
      from its sender to the file; the log from its start to its end).
    - The services: C19 (which type a file gets), C18 (which messages a check of the stocks
      sends), C17 (a question on the command line, over the RPC server to the manager, and
      what is printed).

    Theorems without a number beside these state further facts, most of them about what the code
    does not do: double release, refused and split requests, races, texts that are accepted
    though they should not be.

    ** Fuel

    Loops that are not structural take fuel. [Parser.read_loop] has one unit per line left;
    [Timer.parse_loop] and [Timer.fill] the length of the text and the failsafe counter of the
    code; [config_read_total] and [ParseField_total] show that this is enough, and say what happens where the code
    itself does not return. [Timer.delete_all] has one unit per file and one more and is
    [DeleteStuck] without ([delete_all_never_stuck]); [LibTipc.wait_loop] is [None] without fuel,
    and C27 shows that any fuel above the number of events of the server is enough;
    [U9300Timers.timer_run] ends within 85 steps (C12).
    The loops of the line editor ([VtyTerm.while_]) take one unit more than the buffer has
    bytes; their lemmas show they end by their condition. [VtyFormat.format_loop] takes one unit
    per character and one more, which C37 shows to be exact: a parser still running then never
    stops, and [cmd_parse_format] is [None] there. Of the loops whose fuel is
    the number of characters or words left, [VtyCmd.cmd_matcher_read_keywords] is [None] without
    fuel and [read_keywords_total] shows that this does not happen; [strvec_words_fuel],
    [fold_lines_fuel] and [vararg_loop_done] show the same of the others. C4 and C9 show that no
    byte a client sends leads to [None]. [ULoop.events_loop] has one unit per fetched event and
    [Usock.poll_loop] one per answer of [poll], which is what their loops use up at each turn.

    ** Not modelled

    The vendored modules, with opbox/oplist.h, the copy of list.h that only the broker uses; the
    kqueue variant of the event loop, which is not compiled on Linux; the thread functions that
    only call the loop of libevent; functions that only free or do nothing. Concurrency is at the
    granularity of the locks, in the start functions at that of their calls, and in the timer
    callbacks of the modem at that of their accesses; an access of these inside a locked section
    of another thread is not modelled. *)

From stdpp Require Import base tactics numbers list gmap strings.
From Stdlib Require Import ZArith Lia.
Open Scope Z_scope.

(** ** Notations of the development *)

Declare Scope opsv_scope.
Delimit Scope opsv_scope with opsv.
Open Scope opsv_scope.

(** [2 ^ w] values of a machine word. *)
Notation "'W8'" := 256 (only parsing) : opsv_scope.
Notation "'W16'" := 65536 (only parsing) : opsv_scope.
Notation "'W32'" := 4294967296 (only parsing) : opsv_scope.
Notation "'W64'" := 18446744073709551616 (only parsing) : opsv_scope.

(** ** Machine integers: a w-bit integer is a [Z] with its wrap-around written out *)

Definition u8 (x : Z) : Z := x mod W8.
Definition u16 (x : Z) : Z := x mod W16.
Definition u32 (x : Z) : Z := x mod W32.
Definition u64 (x : Z) : Z := x mod W64.

(** Two's-complement conversions to [char] (signed on the target), [int] and [long]. *)
Definition s8 (x : Z) : Z := (x + 128) mod W8 - 128.
Definition s32 (x : Z) : Z := (x + 2147483648) mod W32 - 2147483648.
Definition s64 (x : Z) : Z := (x + 9223372036854775808) mod W64 - 9223372036854775808.

Create HintDb opsv.

Lemma u8_id x : 0 <= x < W8 -> u8 x = x.
Proof. intros; unfold u8; by rewrite Z.mod_small. Qed.
Lemma u16_id x : 0 <= x < W16 -> u16 x = x.
Proof. intros; unfold u16; by rewrite Z.mod_small. Qed.
Lemma u32_id x : 0 <= x < W32 -> u32 x = x.
Proof. intros; unfold u32; by rewrite Z.mod_small. Qed.
Lemma u64_id x : 0 <= x < W64 -> u64 x = x.
Proof. intros; unfold u64; by rewrite Z.mod_small. Qed.
Lemma s8_id x : -128 <= x < 128 -> s8 x = x.
Proof. intros; unfold s8; rewrite Z.mod_small; lia. Qed.
Lemma s32_id x : -2147483648 <= x < 2147483648 -> s32 x = x.
Proof. intros; unfold s32; rewrite Z.mod_small; lia. Qed.
Lemma s64_id x : -9223372036854775808 <= x < 9223372036854775808 -> s64 x = x.
Proof. intros; unfold s64; rewrite Z.mod_small; lia. Qed.
Lemma u8_range x : 0 <= u8 x < W8.
Proof. unfold u8; apply Z.mod_pos_bound; lia. Qed.
Lemma u32_range x : 0 <= u32 x < W32.
Proof. unfold u32; apply Z.mod_pos_bound; lia. Qed.
Lemma u64_range x : 0 <= u64 x < W64.
Proof. unfold u64; apply Z.mod_pos_bound; lia. Qed.
Lemma s32_range x : -2147483648 <= s32 x < 2147483648.
Proof. unfold s32; pose proof (Z.mod_pos_bound (x + 2147483648) W32); lia. Qed.

(** Inner wrap-arounds are absorbed by outer ones. *)
Lemma u64_add_l a d : u64 (u64 a + d) = u64 (a + d).
Proof. unfold u64. by rewrite Zplus_mod_idemp_l. Qed.
Lemma u64_sub_l a d : u64 (u64 a - d) = u64 (a - d).
Proof. unfold u64. by rewrite Zminus_mod_idemp_l. Qed.
Lemma u32_add_l a d : u32 (u32 a + d) = u32 (a + d).
Proof. unfold u32. by rewrite Zplus_mod_idemp_l. Qed.
Lemma u32_sub_l a d : u32 (u32 a - d) = u32 (a - d).
Proof. unfold u32. by rewrite Zminus_mod_idemp_l. Qed.

#[export] Hint Resolve u8_range u32_range u64_range s32_range : opsv.
#[export] Hint Rewrite u64_add_l u64_sub_l u32_add_l u32_sub_l : opsv.

(** Remove every wrap-around whose operand [lia] shows in range. *)
Ltac unwrap :=
  repeat match goal with
  | |- context [u8 ?x] => rewrite (u8_id x) by lia
  | |- context [u16 ?x] => rewrite (u16_id x) by lia
  | |- context [u32 ?x] => rewrite (u32_id x) by lia
  | |- context [u64 ?x] => rewrite (u64_id x) by lia
  | |- context [s8 ?x] => rewrite (s8_id x) by lia
  | |- context [s32 ?x] => rewrite (s32_id x) by lia
  | |- context [s64 ?x] => rewrite (s64_id x) by lia
  end.
Ltac unwrap_in H :=
  repeat match type of H with
  | context [u8 ?x] => rewrite (u8_id x) in H by lia
  | context [u16 ?x] => rewrite (u16_id x) in H by lia
  | context [u32 ?x] => rewrite (u32_id x) in H by lia
  | context [u64 ?x] => rewrite (u64_id x) in H by lia
  | context [s8 ?x] => rewrite (s8_id x) in H by lia
  | context [s32 ?x] => rewrite (s32_id x) in H by lia
  | context [s64 ?x] => rewrite (s64_id x) in H by lia
  end.

(** Case analysis on the boolean tests of the code, turned into propositions. *)
Ltac btest :=
  repeat match goal with
  | H : (_ <? _) = true |- _ => apply Z.ltb_lt in H
  | H : (_ <? _) = false |- _ => apply Z.ltb_ge in H
  | H : (_ <=? _) = true |- _ => apply Z.leb_le in H
  | H : (_ <=? _) = false |- _ => apply Z.leb_gt in H
  | H : (_ =? _) = true |- _ => apply Z.eqb_eq in H
  | H : (_ =? _) = false |- _ => apply Z.eqb_neq in H
  | H : _ && _ = true |- _ => apply andb_true_iff in H; destruct H
  | H : _ || _ = false |- _ => apply orb_false_iff in H; destruct H
  | H : negb _ = true |- _ => apply negb_true_iff in H
  | H : negb _ = false |- _ => apply negb_false_iff in H
  | H : bool_decide _ = true |- _ => apply bool_decide_eq_true in H
  | H : bool_decide _ = false |- _ => apply bool_decide_eq_false in H
  end.
Ltac bcase :=
  match goal with
  | |- context [if ?c then _ else _] => destruct c eqn:?; btest
  end.

(** Running a computation of the error monad one step. *)
Lemma bind_some {A B} (x : A) (f : A -> option B) : Some x ≫= f = f x.
Proof. done. Qed.

(** ** Sums over lists *)

Definition sumZ {A} (f : A -> Z) (l : list A) : Z := foldr (fun x acc => f x + acc) 0 l.

Section sumZ.
Context {A : Type} (f : A -> Z).
Lemma sumZ_nil : sumZ f [] = 0.
Proof. done. Qed.
Lemma sumZ_cons x l : sumZ f (x :: l) = f x + sumZ f l.
Proof. done. Qed.
Lemma sumZ_app l k : sumZ f (l ++ k) = sumZ f l + sumZ f k.
Proof. induction l; simpl; rewrite ?IHl; lia. Qed.
#[global] Instance sumZ_perm : Proper (Permutation ==> eq) (sumZ f).
Proof. induction 1; simpl; lia. Qed.
Lemma sumZ_nonneg l : (forall x, x ∈ l -> 0 <= f x) -> 0 <= sumZ f l.
Proof.
  induction l as [|x l IH]; simpl; intros H; [lia|].
  pose proof (H x ltac:(set_solver)).
  assert (0 <= sumZ f l) by (apply IH; set_solver). lia.
Qed.
Lemma sumZ_elem_le l x :
  (forall y, y ∈ l -> 0 <= f y) -> x ∈ l -> f x <= sumZ f l.
Proof.
  intros H Hx. apply list_elem_of_split in Hx as (l1 & l2 & ->).
  rewrite sumZ_app, sumZ_cons.
  pose proof (sumZ_nonneg l1 ltac:(set_solver)).
  pose proof (sumZ_nonneg l2 ltac:(set_solver)). lia.
Qed.
Lemma sumZ_zero l : (forall x, x ∈ l -> f x = 0) -> sumZ f l = 0.
Proof. induction l; simpl; intros H; [done|]. rewrite IHl, H; set_solver. Qed.
Lemma sumZ_const c l : (forall x, x ∈ l -> f x = c) -> sumZ f l = c * Z.of_nat (length l).
Proof. induction l; simpl; intros H; [lia|]. rewrite IHl, H; set_solver by lia. Qed.
End sumZ.

Lemma sumZ_ext {A} (f g : A -> Z) l : (forall x, x ∈ l -> f x = g x) -> sumZ f l = sumZ g l.
Proof. induction l; simpl; intros H; [done|]. rewrite IHl, H; set_solver. Qed.

(** ** Filters that keep everything or nothing *)

Section filter.
Context {A : Type} (P : A -> Prop) `{forall x, Decision (P x)}.
Lemma filter_keeps_all (l : list A) : (forall x, x ∈ l -> P x) -> filter P l = l.
Proof.
  induction l as [|a l IH]; intros Hl; [done|]. rewrite filter_cons_True by (apply Hl; by left).
  f_equal. apply IH. intros x Hx. apply Hl. by right.
Qed.
Lemma filter_keeps_none (l : list A) : (forall x, x ∈ l -> ~ P x) -> filter P l = [].
Proof.
  intros Hl. apply elem_of_nil_inv. intros x [HP Hx]%list_elem_of_filter. by apply (Hl x).
Qed.
End filter.

(** ** Arrays of chains *)

Section concat.
Context {A : Type}.
Implicit Types (b : list (list A)) (c : list A).

Lemma elem_of_concat b x : x ∈ concat b <-> exists i c, b !! i = Some c /\ x ∈ c.
Proof.
  rewrite list_elem_of_In, in_concat. split.
  - intros (c & Hc & Hx). apply list_elem_of_In in Hc, Hx.
    apply list_elem_of_lookup in Hc as [i Hi]. eauto.
  - intros (i & c & Hi & Hx). exists c.
    split; apply list_elem_of_In; [by eapply list_elem_of_lookup_2|done].
Qed.

(** Replacing one chain replaces its elements, and no others. *)
Lemma concat_insert_perm b i c c0 :
  b !! i = Some c0 -> c0 ++ concat (<[i:=c]> b) ≡ₚ c ++ concat b.
Proof.
  intros Hi. rewrite <- (take_drop_middle b i c0 Hi) at 2.
  rewrite insert_take_drop by (by eapply lookup_lt_Some).
  rewrite !concat_app; simpl. solve_Permutation.
Qed.

Lemma concat_insert_cons b i c d e :
  (i < length b)%nat -> c ≡ₚ d :: e -> concat (<[i:=c]> b) ≡ₚ d :: concat (<[i:=e]> b).
Proof.
  intros Hi Hc. rewrite !insert_take_drop by done.
  rewrite !concat_app; simpl. rewrite Hc. solve_Permutation.
Qed.

(** Appending to, replacing in and deleting from one chain. *)
Lemma concat_snoc_perm b i c d :
  b !! i = Some c -> concat (<[i:=c ++ [d]]> b) ≡ₚ d :: concat b.
Proof.
  intros Hi. rewrite <- (list_insert_id b i c Hi) at 2.
  apply concat_insert_cons; [by eapply lookup_lt_Some|]. by rewrite Permutation_app_comm.
Qed.
Lemma concat_delete_perm b i c pos x :
  b !! i = Some c -> c !! pos = Some x -> concat b ≡ₚ x :: concat (<[i:=delete pos c]> b).
Proof.
  intros Hi Hp. rewrite <- (list_insert_id b i c Hi) at 1.
  apply concat_insert_cons; [by eapply lookup_lt_Some|]. by apply delete_Permutation.
Qed.
Lemma concat_replace_perm b i c pos x d :
  b !! i = Some c -> c !! pos = Some x ->
  concat (<[i:=<[pos:=d]> c]> b) ≡ₚ d :: concat (<[i:=delete pos c]> b).
Proof.
  intros Hi Hp. apply concat_insert_cons; [by eapply lookup_lt_Some|].
  rewrite (delete_Permutation (<[pos:=d]> c) pos d).
  2: { apply list_lookup_insert_eq. by eapply lookup_lt_Some. }
  f_equiv. replace (delete pos (<[pos:=d]> c)) with (delete pos c); [done|].
  apply list_eq. intros j.
  destruct (decide (j < pos)%nat).
  - by rewrite !list_lookup_delete_lt, list_lookup_insert_ne by lia.
  - by rewrite !list_lookup_delete_ge, list_lookup_insert_ne by lia.
Qed.

Lemma concat_replicate_nil n : concat (replicate n (@nil A)) = [].
Proof. induction n; done. Qed.

Lemma concat_all_nil b : (forall c, c ∈ b -> c = []) -> concat b = [].
Proof. induction b; simpl; intros H; [done|]. rewrite IHb, (H a); set_solver. Qed.
End concat.
