(* ===== verification/KeyTable.v ===== *)
(** * What a table of keyed entries promises to its clients

    The interface between the hash table of opbox/hash.c and the components that store their
    nodes in it (the memory pool of base/opmem.c, the RPC client table of base/oprpc.c): the
    operations, and the laws the clients' theorems rely on. *)

From S2P Require Import Prelude.
From stdpp Require Import base tactics numbers list.
From Stdlib Require Import ZArith Lia.
Open Scope Z_scope.

Class KeyTable (T : Type) {A K : Type} (key : A -> K) := {
  kt_items : T -> list A;
  kt_wf : T -> Prop;
  kt_insert : T -> A -> option A * T;
  kt_delete : T -> A -> option A * T;
  kt_retrieve : T -> A -> option A * T;
}.

(** The number of entries up to which an insertion is promised not to fail. *)
Definition kt_room : Z := 134217728.

Class KeyTableLaws (T : Type) {A K : Type} (key : A -> K) `{!KeyTable T key} : Prop := {
  kt_nodup t : kt_wf t -> NoDup (key <$> kt_items t);
  kt_retrieve_law t d :
    kt_wf t ->
    kt_wf (snd (kt_retrieve t d)) /\
    kt_items (snd (kt_retrieve t d)) = kt_items t /\
    match fst (kt_retrieve t d) with
    | Some x => x ∈ kt_items t /\ key x = key d
    | None => forall x, x ∈ kt_items t -> key x <> key d
    end;
  kt_insert_law t d :
    kt_wf t -> Z.of_nat (length (kt_items t)) < kt_room ->
    kt_wf (snd (kt_insert t d)) /\
    match fst (kt_insert t d) with
    | None => kt_items (snd (kt_insert t d)) ≡ₚ d :: kt_items t /\
              forall x, x ∈ kt_items t -> key x <> key d
    | Some x => key x = key d /\
                exists r, kt_items t ≡ₚ x :: r /\ kt_items (snd (kt_insert t d)) ≡ₚ d :: r
    end;
  kt_delete_law t d :
    kt_wf t ->
    kt_wf (snd (kt_delete t d)) /\
    match fst (kt_delete t d) with
    | None => kt_items (snd (kt_delete t d)) ≡ₚ kt_items t /\
              forall x, x ∈ kt_items t -> key x <> key d
    | Some x => key x = key d /\ kt_items t ≡ₚ x :: kt_items (snd (kt_delete t d))
    end;
}.

Section Derived.
Context {T A K : Type} {key : A -> K} `{!KeyTable T key, !KeyTableLaws T key}.

Lemma kt_key_inj t x y :
  kt_wf t -> x ∈ kt_items t -> y ∈ kt_items t -> key x = key y -> x = y.
Proof.
  intros Hwf [i Hi]%list_elem_of_lookup [j Hj]%list_elem_of_lookup Hk.
  pose proof (kt_nodup t Hwf) as Hnd.
  assert (i = j) as ->; [|congruence].
  apply (NoDup_lookup (key <$> kt_items t) i j (key x)); [done| |];
    rewrite list_lookup_fmap; [by rewrite Hi|by rewrite Hj, Hk].
Qed.

(** Inserting under a new key adds the entry. *)
Lemma kt_insert_fresh t d :
  kt_wf t -> Z.of_nat (length (kt_items t)) < kt_room ->
  (forall x, x ∈ kt_items t -> key x <> key d) ->
  kt_wf (snd (kt_insert t d)) /\ kt_items (snd (kt_insert t d)) ≡ₚ d :: kt_items t.
Proof.
  intros Hwf Hroom Hfr. destruct (kt_insert_law t d Hwf Hroom) as [Hw Hr].
  split; [done|]. destruct (fst (kt_insert t d)) as [x|]; [|by destruct Hr].
  destruct Hr as (Hk & r & Hp & _). exfalso. apply (Hfr x); [|done]. rewrite Hp. by left.
Qed.

(** Looking up and deleting an entry that is present. *)
Lemma kt_retrieve_present t d x :
  kt_wf t -> x ∈ kt_items t -> key x = key d -> fst (kt_retrieve t d) = Some x.
Proof.
  intros Hwf Hx Hk. destruct (kt_retrieve_law t d Hwf) as (_ & _ & Hr).
  destruct (fst (kt_retrieve t d)) as [y|]; [|by destruct (Hr x)].
  f_equal. apply (kt_key_inj t); naive_solver congruence.
Qed.

Lemma kt_delete_present t d x :
  kt_wf t -> x ∈ kt_items t -> key x = key d ->
  kt_wf (snd (kt_delete t d)) /\ kt_items t ≡ₚ x :: kt_items (snd (kt_delete t d)).
Proof.
  intros Hwf Hx Hk. destruct (kt_delete_law t d Hwf) as [Hw Hr]. split; [done|].
  destruct (fst (kt_delete t d)) as [y|]; [|by destruct Hr as [_ Hr]; destruct (Hr x)].
  destruct Hr as (Hky & Hp). enough (x = y) as -> by done.
  apply (kt_key_inj t); [done|done| |congruence]. rewrite Hp. by left.
Qed.
End Derived.
