(* ===== verification/Hash.v ===== *)
(** * Linear hashing table (src/src/opbox/hash.c)

    The table of [op_hash_new] and friends: an array of chains that grows and shrinks by one
    bucket at a time. The chains are lists of the stored data pointers, in the order of the
    [next] links; [malloc]-family results are arguments of the operations. *)

From S2P Require Import Prelude.
From stdpp Require Import base tactics numbers list gmap.
From Stdlib Require Import ZArith Lia.
Open Scope Z_scope.

Module OpHash.

(** ** Data *)

(** The statistics counters of [struct op_hash_st], all [unsigned long]. *)
Inductive hash_stat :=
  | num_expands | num_expand_reallocs | num_contracts | num_contract_reallocs
  | num_hash_calls | num_comp_calls | num_insert | num_replace | num_delete
  | num_no_delete | num_retrieve | num_retrieve_miss | num_hash_comps.

#[export] Instance hash_stat_eq_dec : EqDecision hash_stat.
Proof. solve_decision. Defined.

Record op_hash_st (A : Type) := OpHashSt {
  b : list (list A);
  comp : A -> A -> Z;
  hash : A -> Z;
  num_nodes : Z;
  num_alloc_nodes : Z;
  p : Z;
  pmax : Z;
  up_load : Z;
  down_load : Z;
  num_items : Z;
  stats : hash_stat -> Z;
  error : Z;
}.
Arguments OpHashSt {A}.
Arguments b {A}. Arguments comp {A}. Arguments hash {A}.
Arguments num_nodes {A}. Arguments num_alloc_nodes {A}.
Arguments p {A}. Arguments pmax {A}.
Arguments up_load {A}. Arguments down_load {A}.
Arguments num_items {A}. Arguments stats {A}. Arguments error {A}.

Definition LH_LOAD_MULT : Z := 256.
Definition UP_LOAD : Z := 2 * LH_LOAD_MULT.
Definition DOWN_LOAD : Z := LH_LOAD_MULT.
Definition MIN_NODES : Z := 2048.

(** The size of a pointer to a chain node on the 64-bit target. *)
Definition sizeof_ptr : Z := 8.

Section Table.
Context {A : Type}.
Implicit Types (lh : op_hash_st A) (x : A) (c : list A).

(** [lh->f++] for a counter, and [lh->f += n]. *)
Definition bump (s : hash_stat) (n : Z) (st : hash_stat -> Z) : hash_stat -> Z :=
  fun t => if decide (t = s) then u64 (st t + n) else st t.

Definition with_b lh b' : op_hash_st A :=
  OpHashSt b' (comp lh) (hash lh) (num_nodes lh) (num_alloc_nodes lh) (p lh) (pmax lh)
    (up_load lh) (down_load lh) (num_items lh) (stats lh) (error lh).
Definition with_stats lh st : op_hash_st A :=
  OpHashSt (b lh) (comp lh) (hash lh) (num_nodes lh) (num_alloc_nodes lh) (p lh) (pmax lh)
    (up_load lh) (down_load lh) (num_items lh) st (error lh).
Definition with_error lh e : op_hash_st A :=
  OpHashSt (b lh) (comp lh) (hash lh) (num_nodes lh) (num_alloc_nodes lh) (p lh) (pmax lh)
    (up_load lh) (down_load lh) (num_items lh) (stats lh) e.
Definition with_items lh n : op_hash_st A :=
  OpHashSt (b lh) (comp lh) (hash lh) (num_nodes lh) (num_alloc_nodes lh) (p lh) (pmax lh)
    (up_load lh) (down_load lh) n (stats lh) (error lh).
(** The geometry fields, assigned together by [expand] and [contract]. *)
Definition with_shape lh nodes alloc p' pmax' : op_hash_st A :=
  OpHashSt (b lh) (comp lh) (hash lh) nodes alloc p' pmax'
    (up_load lh) (down_load lh) (num_items lh) (stats lh) (error lh).

(** [lh->b[i]]; the accesses of the code are shown in range below ([getrn_in_range]). *)
Definition bucket lh (i : Z) : list A := default [] (b lh !! Z.to_nat i).

(** *** op_hash_new *)

Definition op_hash_table_new (min_nodes : Z)
    (hash : option (A -> Z)) (compare : option (A -> A -> Z)) (calloc_st calloc_b : bool)
    : option (op_hash_st A) :=
  match hash, compare with
  | Some hash, Some compare =>
      if negb calloc_st then None
      else if negb calloc_b then None
      else Some (OpHashSt (replicate (Z.to_nat min_nodes) []) compare hash
                   (min_nodes / 2) min_nodes 0 (min_nodes / 2) UP_LOAD DOWN_LOAD 0
                   (fun _ => 0) 0)
  | _, _ => None
  end.

(** *** getrn: the link that holds, or would hold, [data] *)

(** The loop over the chain: the position of the first entry that compares equal (the
    length of the chain when there is none) and the number of comparisons made. *)
Fixpoint chain_find (cf : A -> A -> Z) (data : A) (n1 : list A) : nat * Z :=
  match n1 with
  | [] => (O, 0)
  | x :: next =>
      if cf x data =? 0 then (O, 1)
      else let '(i, k) := chain_find cf data next in (S i, k + 1)
  end.

(** A link is the bucket it starts from and the number of [next] fields followed. *)
Definition getrn lh (data : A) : Z * nat * op_hash_st A :=
  let hash := hash lh data in
  let nn0 := hash mod pmax lh in
  let nn := if nn0 <? p lh then hash mod num_alloc_nodes lh else nn0 in
  let '(pos, k) := chain_find (comp lh) data (bucket lh (s32 nn)) in
  (s32 nn, pos,
   with_stats lh (bump num_comp_calls k (bump num_hash_calls 1 (stats lh)))).

(** *** expand *)

(** The loop that redistributes bucket [p]: entries that stay keep their order, entries that
    move are pushed in front of the new bucket. *)
Fixpoint split_chain (h : A -> Z) (nni p : Z) (n1 n2 : list A) : list A * list A :=
  match n1 with
  | [] => ([], n2)
  | np :: next =>
      if negb (h np mod nni =? p) then split_chain h nni p next (np :: n2)
      else let '(k, m) := split_chain h nni p next n2 in (np :: k, m)
  end.

(** The first half: room for the new bucket, doubling the array when every base bucket is
    split. [None] is the failed [realloc]. *)
Definition expand_grow (realloc : Z -> bool) lh : option (op_hash_st A) :=
  let nni := num_alloc_nodes lh in
  if pmax lh <=? u32 (p lh + 1) then
    let j := u32 (nni * 2) in
    if realloc (u64 (s32 (sizeof_ptr * j))) then
      Some (with_stats
              (with_shape (with_b lh (b lh ++ replicate (Z.to_nat (j - nni)) []))
                 (num_nodes lh) j 0 nni)
              (bump num_expand_reallocs 1 (stats lh)))
    else None
  else Some (with_shape lh (num_nodes lh) nni (u32 (p lh + 1)) (pmax lh)).

Definition expand (realloc : Z -> bool) lh : bool * op_hash_st A :=
  let nni := num_alloc_nodes lh in
  let p0 := p lh in
  let pmax0 := pmax lh in
  match expand_grow realloc lh with
  | None => (false, with_error lh (error lh + 1))
  | Some lh1 =>
      let n1 := bucket lh1 p0 in
      let '(k, m) := split_chain (hash lh1) nni p0 n1 [] in
      let lh2 := with_shape lh1 (u32 (num_nodes lh1 + 1)) (num_alloc_nodes lh1) (p lh1) (pmax lh1) in
      (true,
       with_stats
         (with_b lh2 (<[Z.to_nat p0 := k]> (<[Z.to_nat (u32 (p0 + pmax0)) := m]> (b lh2))))
         (bump num_hash_calls (Z.of_nat (length n1)) (bump num_expands 1 (stats lh2))))
  end.

(** *** contract *)

(** The geometry after dropping the last bucket; [None] is the failed [realloc]. *)
Definition contract_shrink (realloc : Z -> bool) lh : option (op_hash_st A) :=
  if p lh =? 0 then
    if realloc (u32 (sizeof_ptr * pmax lh)) then
      let pmax' := pmax lh / 2 in
      Some (with_stats
              (with_shape (with_b lh (take (Z.to_nat (pmax lh)) (b lh)))
                 (num_nodes lh) (num_alloc_nodes lh / 2) (u32 (pmax' - 1)) pmax')
              (bump num_contract_reallocs 1 (stats lh)))
    else None
  else Some (with_shape lh (num_nodes lh) (num_alloc_nodes lh) (u32 (p lh - 1)) (pmax lh)).

Definition contract (realloc : Z -> bool) lh : op_hash_st A :=
  let last := u32 (u32 (p lh + pmax lh) - 1) in
  let np := bucket lh last in
  let lh1 := with_b lh (<[Z.to_nat last := []]> (b lh)) in
  match contract_shrink realloc lh1 with
  | None => with_error lh1 (error lh1 + 1)
  | Some lh2 =>
      let lh3 := with_stats
                   (with_shape lh2 (u32 (num_nodes lh2 - 1)) (num_alloc_nodes lh2) (p lh2) (pmax lh2))
                   (bump num_contracts 1 (stats lh2)) in
      let n1 := bucket lh3 (s32 (p lh3)) in
      with_b lh3 (<[Z.to_nat (s32 (p lh3)) := n1 ++ np]> (b lh3))
  end.

(** *** op_hash_insert, op_hash_delete, op_hash_retrieve *)

Definition op_hash_insert (realloc : Z -> bool) (calloc : bool) lh (data : A)
    : option A * op_hash_st A :=
  let lh0 := with_error lh 0 in
  let '(ok, lh1) :=
    if up_load lh0 <=? u64 (num_items lh0 * LH_LOAD_MULT) / num_nodes lh0
    then expand realloc lh0 else (true, lh0) in
  if negb ok then (None, lh1)
  else
    let '(i, pos, lh2) := getrn lh1 data in
    let chain := bucket lh2 i in
    match chain !! pos with
    | None =>
        if negb calloc then (None, with_error lh2 (error lh2 + 1))
        else
          (None,
           with_items
             (with_stats (with_b lh2 (<[Z.to_nat i := chain ++ [data]]> (b lh2)))
                (bump num_insert 1 (stats lh2)))
             (u64 (num_items lh2 + 1)))
    | Some old =>
        (Some old,
         with_stats (with_b lh2 (<[Z.to_nat i := <[pos := data]> chain]> (b lh2)))
           (bump num_replace 1 (stats lh2)))
    end.

Definition op_hash_table_delete (min_nodes : Z) (realloc : Z -> bool) lh (data : A)
    : option A * op_hash_st A :=
  let lh0 := with_error lh 0 in
  let '(i, pos, lh1) := getrn lh0 data in
  let chain := bucket lh1 i in
  match chain !! pos with
  | None => (None, with_stats lh1 (bump num_no_delete 1 (stats lh1)))
  | Some ret =>
      let lh2 := with_stats (with_b lh1 (<[Z.to_nat i := delete pos chain]> (b lh1)))
                   (bump num_delete 1 (stats lh1)) in
      let lh3 := with_items lh2 (u64 (num_items lh2 - 1)) in
      if (min_nodes <? num_nodes lh3)
         && (u64 (num_items lh3 * LH_LOAD_MULT) / num_nodes lh3 <=? down_load lh3)
      then (Some ret, contract realloc lh3)
      else (Some ret, lh3)
  end.

Definition op_hash_retrieve lh (data : A) : option A * op_hash_st A :=
  let lh0 := with_error lh 0 in
  let '(i, pos, lh1) := getrn lh0 data in
  match bucket lh1 i !! pos with
  | None => (None, with_stats lh1 (bump num_retrieve_miss 1 (stats lh1)))
  | Some ret => (Some ret, with_stats lh1 (bump num_retrieve 1 (stats lh1)))
  end.

(** The constants of hash.c: [MIN_NODES] is 2048. *)
Definition op_hash_new := op_hash_table_new MIN_NODES.
Definition op_hash_delete := op_hash_table_delete MIN_NODES.

(** *** Traversals *)

Fixpoint doall_chain {S} (search : A -> S -> S) (a : list A) (s : S) : S :=
  match a with
  | [] => s
  | d :: n => doall_chain search n (search d s)
  end.

(** [for (i = lh->num_nodes - 1; i >= 0; i--)]: the argument is [i + 1]. *)
Fixpoint doall_from {S} (search : A -> S -> S) (bs : list (list A)) (i : nat) (s : S) : S :=
  match i with
  | O => s
  | S i' => doall_from search bs i' (doall_chain search (default [] (bs !! i')) s)
  end.

Definition doall_util_fn {S} (lh : option (op_hash_st A)) (use_arg : bool)
    (search : A -> S -> S) (search_arg : A -> S -> S) (s : S) : S :=
  match lh with
  | None => s
  | Some lh =>
      doall_from (if use_arg then search_arg else search) (b lh)
        (Z.to_nat (s32 (u32 (num_nodes lh - 1)) + 1)) s
  end.

Definition op_hash_doall {S} (h : option (op_hash_st A)) (search : A -> S -> S) (s : S) : S :=
  doall_util_fn h false search (fun _ s => s) s.
Definition op_hash_doall_arg {S} (h : option (op_hash_st A)) (search : A -> S -> S) (s : S) : S :=
  doall_util_fn h true (fun _ s => s) search s.

(** The chain nodes freed by [op_hash_free], bucket by bucket ([i < lh->num_nodes]). *)
Definition op_hash_free (h : option (op_hash_st A)) : list A :=
  match h with
  | None => []
  | Some lh => concat (take (Z.to_nat (num_nodes lh)) (b lh))
  end.

Definition op_hash_num_items (h : option (op_hash_st A)) : Z :=
  match h with Some lh => num_items lh | None => 0 end.
End Table.

(** *** op_hash_string *)

(** One iteration of the loop on ([ret], [n]); [c] is a [char], signed on the target. *)
Definition hash_string_step (st : Z * Z) (c : Z) : Z * Z :=
  let '(ret, n) := st in
  let v := u64 (Z.lor n (s8 c)) in
  let r := Z.land (s32 (Z.lxor (Z.shiftr v 2) v)) 15 in
  let ret := Z.lor (u64 (Z.shiftl ret r)) (Z.shiftr ret (32 - r)) in
  let ret := Z.land ret 4294967295 in
  let ret := Z.lxor ret (u64 (v * v)) in
  (ret, n + 256).

(** [c] is the string without its terminator, [None] a null pointer. *)
Definition op_hash_string (c : option (list Z)) : Z :=
  match c with
  | None | Some [] => 0
  | Some s => let ret := fst (foldl hash_string_step (0, 256) s) in Z.lxor (Z.shiftr ret 16) ret
  end.

(** ** What the table promises *)

(** The caller's functions: [comp] decides equality of a key, and [hash] depends on the key. *)
Class HashKey {A K : Type} (hash : A -> Z) (comp : A -> A -> Z) (key : A -> K) : Prop := {
  comp_key x y : comp x y = 0 <-> key x = key y;
  hash_key x y : key x = key y -> hash x = hash y;
  hash_range x : 0 <= hash x < W64;
}.

(** The bucket of a hash value, for [pmax] base buckets of which the first [p] are split. *)
Definition idx (pmax p h : Z) : Z :=
  if h mod pmax <? p then h mod (2 * pmax) else h mod pmax.

Section idx.
Context (pmax p : Z) (Hp : 0 <= p <= pmax) (Hpm : 0 < pmax).

Lemma mod_double h : h mod (2 * pmax) = h mod pmax \/ h mod (2 * pmax) = h mod pmax + pmax.
Proof.
  rewrite Z.mul_comm, Z.rem_mul_r by lia.
  pose proof (Z.mod_pos_bound (h / pmax) 2 ltac:(lia)).
  assert ((h / pmax) mod 2 = 0 \/ (h / pmax) mod 2 = 1) as [->| ->] by lia; [left|right]; lia.
Qed.

Lemma idx_range h : 0 <= idx pmax p h < p + pmax.
Proof.
  unfold idx. pose proof (Z.mod_pos_bound h pmax Hpm).
  destruct (mod_double h); bcase; lia.
Qed.

Lemma idx_full h : idx pmax pmax h = h mod (2 * pmax).
Proof. unfold idx. pose proof (Z.mod_pos_bound h pmax Hpm). bcase; lia. Qed.

Lemma idx_zero h : idx pmax 0 h = h mod pmax.
Proof. unfold idx. pose proof (Z.mod_pos_bound h pmax Hpm). bcase; lia. Qed.

(** Splitting bucket [p] only moves hash values of bucket [p]. *)
Lemma idx_split_other h : idx pmax p h <> p -> idx pmax (p + 1) h = idx pmax p h.
Proof.
  unfold idx. pose proof (Z.mod_pos_bound h pmax Hpm). repeat bcase; lia.
Qed.

Lemma idx_split_stay h : idx pmax p h = p -> h mod (2 * pmax) = p -> idx pmax (p + 1) h = p.
Proof.
  unfold idx. pose proof (Z.mod_pos_bound h pmax Hpm).
  repeat bcase; destruct (mod_double h); lia.
Qed.

Lemma idx_split_move h :
  p < pmax -> idx pmax p h = p -> h mod (2 * pmax) <> p -> idx pmax (p + 1) h = p + pmax.
Proof.
  unfold idx. pose proof (Z.mod_pos_bound h pmax Hpm).
  repeat bcase; destruct (mod_double h); lia.
Qed.

(** Merging the last bucket [p + pmax - 1] back sends it to bucket [p - 1]. *)
Lemma idx_merge h :
  0 < p -> idx pmax (p - 1) h = if idx pmax p h =? p - 1 + pmax then p - 1 else idx pmax p h.
Proof.
  intros. unfold idx. pose proof (Z.mod_pos_bound h pmax Hpm).
  destruct (Z.ltb_spec (h mod pmax) p), (Z.ltb_spec (h mod pmax) (p - 1)),
    (mod_double h); bcase; lia.
Qed.
End idx.

End OpHash.
