(* ===== verification/HashSpec.v ===== *)
(** * Correctness of the linear hashing table

    The representation invariant of [struct op_hash_st], its preservation by every operation of
    hash.c, and the refinement of the operations to a finite map. *)

From S2P Require Import Prelude KeyTable Hash.
From stdpp Require Import base tactics numbers list gmap.
From Stdlib Require Import ZArith Lia.
Open Scope Z_scope.
Import OpHash.

(** ** Array-level facts *)

Section Buckets.
Context {A : Type} (h : A -> Z).
Implicit Types (bs : list (list A)).

(** Every entry sits in the bucket its hash value selects. *)
Definition bucket_ok (pm q : Z) bs : Prop :=
  forall i c x, bs !! i = Some c -> x ∈ c -> idx pm q (h x) = Z.of_nat i.

Lemma bucket_ok_empty pm q bs i c :
  0 <= q <= pm -> 0 < pm -> bucket_ok pm q bs ->
  bs !! i = Some c -> q + pm <= Z.of_nat i -> c = [].
Proof.
  intros Hq Hpm Hok Hi Hge. destruct c as [|x c]; [done|].
  specialize (Hok i _ x Hi ltac:(set_solver)).
  pose proof (idx_range pm q Hq Hpm (h x)). lia.
Qed.

Lemma bucket_ok_take pm q bs n : bucket_ok pm q bs -> bucket_ok pm q (take n bs).
Proof. intros Hok i c x Hi. apply lookup_take_Some in Hi as [Hi _]. eauto. Qed.

Lemma bucket_ok_extend pm q bs n : bucket_ok pm q bs -> bucket_ok pm q (bs ++ replicate n []).
Proof.
  intros Hok i c x Hi Hx. apply lookup_app_Some in Hi as [Hi|[_ Hi]]; [eauto|].
  apply lookup_replicate in Hi as [-> _]. set_solver.
Qed.

(** All base buckets split is the same table as twice as many base buckets. *)
Lemma bucket_ok_double pm bs : 0 < pm -> bucket_ok pm pm bs <-> bucket_ok (2 * pm) 0 bs.
Proof.
  intros Hpm. unfold bucket_ok.
  by setoid_rewrite (idx_full pm Hpm); setoid_rewrite (idx_zero (2 * pm) ltac:(lia)).
Qed.

Lemma split_chain_spec nni q n1 n2 k m :
  split_chain h nni q n1 n2 = (k, m) ->
  k ++ m ≡ₚ n1 ++ n2 /\
  (forall x, x ∈ k -> x ∈ n1 /\ h x mod nni = q) /\
  (forall x, x ∈ m -> (x ∈ n1 /\ h x mod nni <> q) \/ x ∈ n2).
Proof.
  revert n2 k m. induction n1 as [|x n1 IH]; simpl; intros n2 k m Hs.
  - simplify_eq. set_solver.
  - destruct (negb _) eqn:E; btest.
    + apply IH in Hs as (Hp & Hk & Hm). split_and!.
      * rewrite Hp. solve_Permutation.
      * set_solver.
      * intros y [Hy|Hy]%Hm; set_solver.
    + destruct (split_chain h nni q n1 n2) as [k' m'] eqn:Es. simplify_eq.
      apply IH in Es as (Hp & Hk & Hm). split_and!.
      * simpl. by rewrite Hp.
      * set_solver.
      * intros y [Hy|Hy]%Hm; set_solver.
Qed.

Lemma split_bucket pm q bs k m :
  0 <= q < pm -> q + pm < Z.of_nat (length bs) -> bucket_ok pm q bs ->
  split_chain h (2 * pm) q (default [] (bs !! Z.to_nat q)) [] = (k, m) ->
  let bs' := <[Z.to_nat q := k]> (<[Z.to_nat (q + pm) := m]> bs) in
  bucket_ok pm (q + 1) bs' /\ concat bs' ≡ₚ concat bs.
Proof.
  intros Hq Hlen Hok Hs.
  destruct (lookup_lt_is_Some_2 bs (Z.to_nat q)) as [c Hc]; [lia|].
  destruct (lookup_lt_is_Some_2 bs (Z.to_nat (q + pm))) as [c' Hc']; [lia|].
  assert (c' = []) as -> by (eapply (bucket_ok_empty pm q); eauto; lia).
  rewrite Hc in Hs. simpl in Hs. apply split_chain_spec in Hs as (Hp & Hk & Hm).
  rewrite app_nil_r in Hp. split.
  - intros i d x Hi Hx.
    destruct (decide (i = Z.to_nat q)) as [->|Hne].
    { rewrite list_lookup_insert_eq in Hi by (rewrite length_insert; lia). simplify_eq.
      apply Hk in Hx as [Hx Hh]. specialize (Hok _ _ _ Hc Hx).
      rewrite idx_split_stay; lia. }
    rewrite list_lookup_insert_ne in Hi by done.
    destruct (decide (i = Z.to_nat (q + pm))) as [->|Hne'].
    { rewrite list_lookup_insert_eq in Hi by lia. simplify_eq.
      apply Hm in Hx as [[Hx Hh]|Hx]; [|set_solver]. specialize (Hok _ _ _ Hc Hx).
      rewrite idx_split_move; lia. }
    rewrite list_lookup_insert_ne in Hi by done. specialize (Hok _ _ _ Hi Hx).
    rewrite idx_split_other; lia.
  - apply (Permutation_app_inv_l c). rewrite concat_insert_perm.
    2: { rewrite list_lookup_insert_ne by lia. done. }
    rewrite <- Hp, <- app_assoc. apply Permutation_app_head.
    by rewrite <- (concat_insert_perm bs _ m [] Hc').
Qed.

Lemma merge_bucket pm q bs np :
  0 < q <= pm -> q + pm <= Z.of_nat (length bs) -> bucket_ok pm q bs ->
  bs !! Z.to_nat (q - 1 + pm) = Some np ->
  let bs1 := <[Z.to_nat (q - 1 + pm) := []]> bs in
  let bs' := <[Z.to_nat (q - 1) := default [] (bs1 !! Z.to_nat (q - 1)) ++ np]> bs1 in
  bucket_ok pm (q - 1) bs' /\ concat bs' ≡ₚ concat bs.
Proof.
  intros Hq Hlen Hok Hnp bs1 bs'.
  destruct (lookup_lt_is_Some_2 bs (Z.to_nat (q - 1))) as [c Hc]; [lia|].
  assert (bs1 !! Z.to_nat (q - 1) = Some c) as Hc1
    by (unfold bs1; by rewrite list_lookup_insert_ne by lia).
  unfold bs'. rewrite Hc1. simpl. split.
  - intros i d x Hi Hx.
    assert (idx pm q (h x) = Z.of_nat i \/
            (i = Z.to_nat (q - 1) /\ idx pm q (h x) = q - 1 + pm)) as Hidx.
    { destruct (decide (i = Z.to_nat (q - 1))) as [->|Hne].
      - rewrite list_lookup_insert_eq in Hi by (unfold bs1; rewrite length_insert; lia).
        simplify_eq. apply elem_of_app in Hx as [Hx|Hx].
        + left. eauto.
        + right. split; [done|]. rewrite (Hok _ _ _ Hnp Hx). lia.
      - rewrite list_lookup_insert_ne in Hi by done. left.
        unfold bs1 in Hi. apply list_lookup_insert_Some in Hi as [(<- & <- & _)|[_ Hi]]; [set_solver|eauto]. }
    rewrite idx_merge by lia. bcase.
    + destruct Hidx as [Hidx|[-> _]]; [|lia].
      exfalso. assert (i = Z.to_nat (q - 1 + pm)) as -> by lia.
      rewrite list_lookup_insert_ne in Hi by lia. unfold bs1 in Hi.
      rewrite list_lookup_insert_eq in Hi by lia. simplify_eq. set_solver.
    + destruct Hidx as [Hidx|[_ ?]]; [done|lia].
  - apply (Permutation_app_inv_l c). rewrite (concat_insert_perm bs1 _ (c ++ np) c Hc1).
    rewrite <- app_assoc. apply Permutation_app_head.
    unfold bs1. by rewrite (concat_insert_perm bs _ [] np Hnp).
Qed.

(** The same on an array cut after its last used bucket. *)
Lemma merge_bucket_take pm q bs np (n : nat) :
  0 <= q < pm -> q + 1 + pm <= Z.of_nat (length bs) -> q + pm <= Z.of_nat n ->
  bucket_ok pm (q + 1) bs -> bs !! Z.to_nat (q + pm) = Some np ->
  let bs2 := take n (<[Z.to_nat (q + pm) := []]> bs) in
  let bs' := <[Z.to_nat q := default [] (bs2 !! Z.to_nat q) ++ np]> bs2 in
  bucket_ok pm q bs' /\ concat bs' ≡ₚ concat bs.
Proof.
  intros Hq Hlen Hn Hok Hnp bs2 bs'.
  destruct (merge_bucket pm (q + 1) bs np) as [Hb Hc]; [lia|lia|done| |].
  { by replace (q + 1 - 1 + pm) with (q + pm) by lia. }
  replace (q + 1 - 1 + pm) with (q + pm) in * by lia.
  replace (q + 1 - 1) with q in * by lia.
  set (bs1 := <[Z.to_nat (q + pm) := []]> bs) in *.
  assert (bs' = take n (<[Z.to_nat q := default [] (bs1 !! Z.to_nat q) ++ np]> bs1)) as ->.
  { unfold bs', bs2. by rewrite take_insert_lt, lookup_take_lt by lia. }
  set (bm := <[Z.to_nat q := _]> bs1) in *.
  split; [by apply bucket_ok_take|].
  rewrite <- Hc. rewrite <- (take_drop n bm) at 2.
  rewrite concat_app, (concat_all_nil (drop _ _)), app_nil_r; [done|].
  intros c [j Hj]%list_elem_of_lookup. rewrite lookup_drop in Hj.
  eapply (bucket_ok_empty pm q); eauto; lia.
Qed.
End Buckets.

(** ** The representation invariant *)

Section Spec.
Context {A K : Type} `{Countable K} (min_nodes half : Z) (key : A -> K).
Implicit Types (lh : op_hash_st A) (x : A).

Definition items lh : list A := concat (b lh).

Record hash_wf lh : Prop := {
  wf_key : HashKey (hash lh) (comp lh) key;
  wf_alloc : num_alloc_nodes lh = 2 * pmax lh;
  wf_len : Z.of_nat (length (b lh)) = num_alloc_nodes lh;
  wf_nodes : num_nodes lh = p lh + pmax lh;
  wf_p : 0 <= p lh < pmax lh;
  wf_pow : exists k, 0 <= k /\ pmax lh = half * 2 ^ k;
  wf_small : num_alloc_nodes lh < 268435456;
  wf_bucket : bucket_ok (hash lh) (pmax lh) (p lh) (b lh);
  wf_nodup : NoDup (key <$> items lh);
  wf_items : num_items lh = Z.of_nat (length (items lh));
  wf_up : up_load lh = UP_LOAD;
  wf_down : down_load lh = DOWN_LOAD;
  wf_load : num_items lh <= 2 * num_nodes lh;
}.

(** The table as a finite map from keys to the stored data. *)
Definition abs lh : gmap K A := list_to_map ((fun x => (key x, x)) <$> items lh).

Lemma wf_with_stats lh st : hash_wf lh -> hash_wf (with_stats lh st).
Proof. by intros []; constructor. Qed.
Lemma wf_with_error lh e : hash_wf lh -> hash_wf (with_error lh e).
Proof. by intros []; constructor. Qed.

Lemma abs_lookup lh k x :
  NoDup (key <$> items lh) -> abs lh !! k = Some x <-> x ∈ items lh /\ key x = k.
Proof.
  intros Hnd. unfold abs. rewrite <- elem_of_list_to_map.
  2: { rewrite <- list_fmap_compose. exact Hnd. }
  rewrite list_elem_of_fmap. naive_solver.
Qed.

Lemma abs_lookup_None lh k : abs lh !! k = None <-> forall x, x ∈ items lh -> key x <> k.
Proof.
  unfold abs. rewrite <- not_elem_of_list_to_map, <- list_fmap_compose.
  rewrite list_elem_of_fmap. simpl. naive_solver.
Qed.

Lemma key_inj_in l x y : NoDup (key <$> l) -> x ∈ l -> y ∈ l -> key x = key y -> x = y.
Proof.
  intros Hnd Hx Hy Hk.
  apply list_elem_of_lookup in Hx as [i Hi], Hy as [j Hj].
  assert (i = j) as ->; [|congruence].
  apply (NoDup_lookup (key <$> l) i j (key x)); [done| |];
    rewrite list_lookup_fmap; [by rewrite Hi|by rewrite Hj, Hk].
Qed.

Section Ops.
Context (Hmin : min_nodes = 2 * half) (Hhalf : 8 <= half < 67108864).
Lemma wf_new (h : A -> Z) (cmp : A -> A -> Z) lh :
  HashKey h cmp key ->
  op_hash_table_new min_nodes (Some h) (Some cmp) true true = Some lh ->
  hash_wf lh /\ items lh = [] /\ hash lh = h /\ comp lh = cmp.
Proof.
  intros Hk Hn. simpl in Hn. simplify_eq.
  assert (2 * half / 2 = half) as Hdiv by (rewrite Z.mul_comm; apply Z.div_mul; lia).
  split_and!; [|unfold items; simpl; apply concat_replicate_nil|done|done].
  constructor; unfold items; simpl; rewrite ?Hdiv, ?concat_replicate_nil, ?length_replicate;
    try done; try (unfold UP_LOAD, DOWN_LOAD; lia).
  - exists 0. lia.
  - intros i c x [-> _]%lookup_replicate. set_solver.
  - constructor.
Qed.

(** *** Lookup in a chain *)

Lemma chain_find_spec (cf : A -> A -> Z) d c :
  let pos := fst (chain_find cf d c) in
  (c !! pos = None /\ pos = length c /\ forall x, x ∈ c -> cf x d <> 0) \/
  (exists x, c !! pos = Some x /\ cf x d = 0).
Proof.
  induction c as [|x c IH]; simpl.
  - left. set_solver.
  - destruct (cf x d =? 0) eqn:E; btest; simpl.
    + right. eauto.
    + destruct (chain_find cf d c) as [i k]. simpl in *.
      destruct IH as [(? & -> & ?)|(y & ? & ?)]; [left|right; eauto].
      split_and!; [done|done|]. intros y [->|?]%elem_of_cons; eauto.
Qed.

Lemma idx_s32 lh d :
  hash_wf lh ->
  let i := idx (pmax lh) (p lh) (hash lh d) in s32 i = i /\ 0 <= i < num_nodes lh.
Proof.
  intros Hwf i. destruct Hwf.
  pose proof (idx_range (pmax lh) (p lh) ltac:(lia) ltac:(lia) (hash lh d)).
  split; [unwrap|]; subst i; lia.
Qed.

(** [getrn] selects the bucket of the key and finds the entry of that key, wherever in the
    table it is: the chain of one bucket decides membership in the whole table. *)
Lemma getrn_spec lh d i pos lh' :
  hash_wf lh -> getrn lh d = (i, pos, lh') ->
  (exists st, lh' = with_stats lh st) /\
  i = idx (pmax lh) (p lh) (hash lh d) /\ 0 <= i < num_nodes lh /\
  (exists c, b lh !! Z.to_nat i = Some c /\ bucket lh i = c /\
    ((c !! pos = None /\ forall x, x ∈ items lh -> key x <> key d) \/
     (exists x, c !! pos = Some x /\ key x = key d /\ x ∈ items lh))).
Proof.
  intros Hwf Hg. pose proof (idx_s32 lh d Hwf) as [Hs Hr].
  unfold getrn in Hg.
  assert ((if hash lh d mod pmax lh <? p lh then hash lh d mod num_alloc_nodes lh
           else hash lh d mod pmax lh) = idx (pmax lh) (p lh) (hash lh d)) as Hi
    by (unfold idx; by rewrite (wf_alloc _ Hwf)).
  rewrite Hi, Hs in Hg. set (j := idx _ _ _) in *.
  destruct (chain_find _ _ _) as [pos' k] eqn:Ec.
  injection Hg as Hgi Hgp Hgl. subst i pos' lh'.
  split_and!; [eauto|done|lia|lia|].
  destruct (lookup_lt_is_Some_2 (b lh) (Z.to_nat j)) as [c Hc].
  { pose proof (wf_len _ Hwf). pose proof (wf_nodes _ Hwf). pose proof (wf_alloc _ Hwf).
    pose proof (wf_p _ Hwf). lia. }
  exists c. unfold bucket in *. rewrite Hc in *. simpl in *. split_and!; [done|done|].
  pose proof (wf_key _ Hwf) as Hk.
  pose proof (chain_find_spec (comp lh) d c) as Hcf. rewrite Ec in Hcf. simpl in Hcf.
  destruct Hcf as [(Hn & -> & Hall)|(x & Hx & Hxd)].
  - left. split; [done|]. intros x Hx Heq.
    apply elem_of_concat in Hx as (i' & c' & Hi' & Hx).
    pose proof (wf_bucket _ Hwf _ _ _ Hi' Hx) as Hb.
    rewrite (hash_key (hash := hash lh) (comp := comp lh) x d Heq) in Hb. fold j in Hb.
    assert (i' = Z.to_nat j) as -> by lia. simplify_eq.
    by apply (Hall x Hx), (comp_key x d).
  - right. exists x. split_and!; [done|by apply (comp_key x d)|].
    apply elem_of_concat. eauto using list_elem_of_lookup_2.
Qed.

Lemma retrieve_items lh d ret lh' :
  hash_wf lh -> op_hash_retrieve lh d = (ret, lh') ->
  hash_wf lh' /\ b lh' = b lh /\ hash lh' = hash lh /\ comp lh' = comp lh /\
  match ret with
  | Some x => x ∈ items lh /\ key x = key d
  | None => forall x, x ∈ items lh -> key x <> key d
  end.
Proof.
  intros Hwf Hr. unfold op_hash_retrieve in Hr.
  destruct (getrn _ _) as [[i pos] lh1] eqn:Eg.
  apply getrn_spec in Eg as ((st & ->) & -> & Hi & c & Hc & Hbk & Hres);
    [|by apply wf_with_error].
  unfold bucket in Hr, Hbk. simpl in *. rewrite Hbk in Hr.
  destruct (c !! pos) as [x|] eqn:Ex; simplify_eq; simpl;
    (split; [by apply wf_with_stats, wf_with_stats, wf_with_error|]);
    split_and!; try done; destruct Hres as [[? ?]|(y & ? & ? & ?)]; simplify_eq; eauto.
Qed.

Lemma abs_retrieve lh d ret lh' :
  hash_wf lh -> op_hash_retrieve lh d = (ret, lh') ->
  hash_wf lh' /\ abs lh' = abs lh /\ ret = abs lh !! key d.
Proof.
  intros Hwf (Hw & Hb & _ & _ & Hret)%retrieve_items; [|done].
  split_and!; [done|unfold abs, items; by rewrite Hb|].
  destruct ret as [x|]; symmetry; [apply abs_lookup|by apply abs_lookup_None].
  - apply Hwf.
  - done.
Qed.

(** The C allocator refuses requests above [PTRDIFF_MAX]. *)
Context (realloc : Z -> bool) (Hrealloc : forall n, realloc n = true -> n < 9223372036854775808).

(** *** Growing and shrinking *)

(** What [expand] and [contract] keep: the stored items and the caller's functions. *)
Definition same_items lh lh' : Prop :=
  items lh' ≡ₚ items lh /\ hash lh' = hash lh /\ comp lh' = comp lh /\
  num_items lh' = num_items lh.

Lemma pow_ge_half k : 0 <= k -> half <= half * 2 ^ k.
Proof. intros. pose proof (Z.pow_pos_nonneg 2 k). nia. Qed.

(** The fields that neither half of [expand] and [contract] assigns. *)
Definition same_functions lh lh' : Prop :=
  hash lh' = hash lh /\ comp lh' = comp lh /\ num_nodes lh' = num_nodes lh /\
  up_load lh' = up_load lh /\ down_load lh' = down_load lh /\
  num_items lh' = num_items lh /\ error lh' = error lh.

Lemma realloc_int_size n : 0 <= n < 4294967296 ->
  realloc (u64 (s32 n)) = true -> n < 2147483648.
Proof.
  intros Hn Hr. apply Hrealloc in Hr.
  destruct (Z.lt_ge_cases n 2147483648) as [|Hge]; [done|exfalso].
  revert Hr. unfold s32, u64.
  assert ((n + 2147483648) mod W32 = n - 2147483648) as ->
    by (symmetry; apply Z.mod_unique with 1; lia).
  assert ((n - 2147483648 - 2147483648) mod W64 = n - 4294967296 + W64) as ->
    by (symmetry; apply Z.mod_unique with (-1); lia). lia.
Qed.

(** The geometry after [expand_grow]: the same table seen with room for one more bucket. *)
Lemma expand_grow_ok lh lh1 :
  hash_wf lh -> expand_grow realloc lh = Some lh1 ->
  same_functions lh lh1 /\ concat (b lh1) = items lh /\
  bucket_ok (hash lh) (pmax lh) (p lh) (b lh1) /\
  num_alloc_nodes lh1 = 2 * pmax lh1 /\ Z.of_nat (length (b lh1)) = num_alloc_nodes lh1 /\
  num_alloc_nodes lh1 < 268435456 /\
  ((p lh + 1 = pmax lh /\ p lh1 = 0 /\ pmax lh1 = 2 * pmax lh) \/
   (p lh + 1 < pmax lh /\ p lh1 = p lh + 1 /\ pmax lh1 = pmax lh)).
Proof.
  intros [Hk Ha Hl Hn Hp Hpow Hs Hb Hnd Hi Hu Hd Hld] He.
  unfold expand_grow in He. rewrite (u32_id (p lh + 1)), Ha in He by lia.
  destruct (pmax lh <=? p lh + 1) eqn:E; btest.
  - rewrite (u32_id (2 * pmax lh * 2)) in He by lia.
    destruct (realloc _) eqn:Er; [|done].
    apply realloc_int_size in Er; [|unfold sizeof_ptr; lia]. unfold sizeof_ptr in Er.
    injection He as <-. unfold same_functions; simpl.
    rewrite concat_app, concat_replicate_nil, app_nil_r, length_app, length_replicate.
    split_and!; try done; try lia. by apply bucket_ok_extend.
  - injection He as <-. unfold same_functions; simpl. split_and!; try done; try lia.
Qed.

Lemma expand_fail lh lh' : expand realloc lh = (false, lh') -> lh' = with_error lh (error lh + 1).
Proof.
  unfold expand. destruct (expand_grow _ _); [|by intros [=]].
  destruct (split_chain _ _ _ _ _). by intros [=].
Qed.

Lemma expand_ok lh lh' :
  hash_wf lh -> expand realloc lh = (true, lh') ->
  hash_wf lh' /\ same_items lh lh' /\ num_nodes lh' = num_nodes lh + 1 /\ error lh' = error lh.
Proof.
  intros Hwf He. unfold expand in He.
  destruct (expand_grow realloc lh) as [lh1|] eqn:Eg; [|done].
  apply expand_grow_ok in Eg as ((Eh&Ec&En&Eu&Ed&Ei&Ee) & Hc1 & Hb1 & Ha1 & Hl1 & Hs1 & Hcase); [|done].
  destruct Hwf as [Hk Ha Hl Hn Hp Hpow Hs Hb Hnd Hi Hu Hd Hld].
  rewrite (u32_id (p lh + pmax lh)) in He by lia.
  destruct (split_chain _ _ _ _ _) as [k m] eqn:Hsp.
  rewrite Ha, Eh in Hsp. unfold bucket in Hsp.
  destruct (split_bucket (hash lh) (pmax lh) (p lh) (b lh1) k m) as [Hb2 Hc2];
    [lia|destruct Hcase; lia|done|done|].
  rewrite Hc1 in Hc2. injection He as <-. rewrite (u32_id (num_nodes lh1 + 1)) by lia.
  split_and!; simpl; [|split_and!; simpl; try congruence; exact Hc2|lia|done].
  destruct Hpow as (e & He0 & Hpm).
  constructor; simpl; rewrite ?length_insert, ?Eh, ?Ec, ?Eu, ?Ed, ?Ei;
    unfold items; simpl; rewrite ?Hc2; try done; try (destruct Hcase; lia).
  - destruct Hcase as [(_&_&->)|(_&_&->)]; [exists (e + 1); rewrite Z.pow_add_r; lia|eauto].
  - destruct Hcase as [(?&->&->)|(_&->&->)]; [|done].
    apply bucket_ok_double; [lia|]. by replace (pmax lh) with (p lh + 1) at 2 by lia.
Qed.

(** The base bucket count halves exactly when a table above the minimum drops its last
    split bucket. *)
Lemma pmax_even lh :
  hash_wf lh -> min_nodes < num_nodes lh -> p lh = 0 ->
  pmax lh = 2 * (pmax lh / 2) /\ exists k, 0 <= k /\ pmax lh / 2 = half * 2 ^ k.
Proof.
  intros Hwf Hgt Hp0. destruct (wf_pow _ Hwf) as (e & He & Hpm).
  pose proof (wf_nodes _ Hwf).
  destruct (decide (e = 0)) as [->|Hne]; [rewrite Z.pow_0_r in Hpm; lia|].
  assert (pmax lh = half * 2 ^ (e - 1) * 2) as Hpm2.
  { rewrite Hpm. replace e with (e - 1 + 1) at 1 by lia. rewrite Z.pow_add_r; lia. }
  rewrite Hpm2, Z.div_mul by lia. split; [lia|]. exists (e - 1). lia.
Qed.

(** With the last chain taken out, the table seen with one bucket less. *)
Lemma contract_shrink_ok lh lh1 lh2 :
  hash_wf lh -> min_nodes < num_nodes lh ->
  let last := p lh + pmax lh - 1 in
  lh1 = with_b lh (<[Z.to_nat last := []]> (b lh)) ->
  contract_shrink realloc lh1 = Some lh2 ->
  same_functions lh lh2 /\ num_alloc_nodes lh2 = 2 * pmax lh2 /\
  Z.of_nat (length (b lh2)) = num_alloc_nodes lh2 /\ num_alloc_nodes lh2 < 268435456 /\
  0 <= p lh2 < pmax lh2 /\ p lh2 + pmax lh2 = last /\
  (exists k, 0 <= k /\ pmax lh2 = half * 2 ^ k) /\
  bucket_ok (hash lh) (pmax lh2) (p lh2 + 1) (b lh) /\
  b lh2 = take (length (b lh2)) (b lh1).
Proof.
  intros Hwf Hgt last -> Hs. pose proof (pmax_even lh Hwf Hgt) as Hev.
  destruct Hwf as [Hk Ha Hl Hn Hp Hpow Hsm Hb Hnd Hi Hu Hd Hld].
  unfold contract_shrink in Hs. simpl in Hs. subst last.
  destruct (p lh =? 0) eqn:E; btest.
  - destruct (Hev E) as (Hev2 & Hpow2). destruct (realloc _); [|done]. injection Hs as <-.
    unfold same_functions; simpl. rewrite length_take, length_insert, Ha, u32_id by lia.
    replace (2 * pmax lh / 2) with (pmax lh) by (rewrite Z.mul_comm, Z.div_mul; lia).
    split_and!; try done; try lia.
    + replace (pmax lh / 2 - 1 + 1) with (pmax lh / 2) by lia.
      apply bucket_ok_double; [lia|]. by rewrite <- Hev2, <- E.
    + f_equal. lia.
  - injection Hs as <-. unfold same_functions; simpl. rewrite length_insert, u32_id by lia.
    split_and!; try done; try lia.
    + by replace (p lh - 1 + 1) with (p lh) by lia.
    + by rewrite firstn_all2 by (rewrite length_insert; lia).
Qed.

(** [contract] preserves the invariant and the stored items, when the shrinking [realloc]
    succeeds and the table is at most about half full, as in its only call. *)
Lemma contract_ok lh :
  hash_wf lh -> min_nodes < num_nodes lh ->
  num_items lh * 256 / num_nodes lh <= 256 ->
  (forall n, n < W32 -> realloc n = true) ->
  hash_wf (contract realloc lh) /\ same_items lh (contract realloc lh) /\
  error (contract realloc lh) = error lh.
Proof.
  intros Hwf Hgt Hload Hr. pose proof (contract_shrink_ok lh) as Hsh.
  unfold contract.
  pose proof (wf_nodes _ Hwf). pose proof (wf_p _ Hwf). pose proof (wf_small _ Hwf).
  pose proof (wf_alloc _ Hwf). pose proof (wf_len _ Hwf).
  rewrite (u32_id (p lh + pmax lh)), (u32_id (p lh + pmax lh - 1)) by lia.
  set (last := p lh + pmax lh - 1) in *.
  destruct (contract_shrink _ _) as [lh2|] eqn:Es.
  2: { exfalso. revert Es. unfold contract_shrink. simpl.
       rewrite Hr by apply u32_range. by destruct (p lh =? 0). }
  specialize (Hsh _ lh2 Hwf Hgt eq_refl Es) as
    ((Eh&Ec&En&Eu&Ed&Ei&Ee) & Ha2 & Hl2 & Hsm2 & Hp2 & Hlast & Hpow2 & Hb2 & Htake).
  simpl. rewrite (s32_id (p lh2)), (u32_id (num_nodes lh2 - 1)) by lia.
  destruct (lookup_lt_is_Some_2 (b lh) (Z.to_nat last)) as [np Hnp]; [lia|].
  destruct (merge_bucket_take (hash lh) (pmax lh2) (p lh2) (b lh) np (length (b lh2)))
    as [Hb3 Hc3]; [lia|lia|lia|done|by rewrite Hlast|].
  rewrite Hlast in Hb3, Hc3. simpl in Htake. rewrite <- Htake in Hb3, Hc3.
  unfold bucket; simpl; rewrite Hnp; simpl.
  split_and!; simpl; [|split_and!; simpl; try congruence; exact Hc3|done].
  assert (num_items lh <= 2 * (num_nodes lh - 1)).
  { assert (num_items lh * 256 < num_nodes lh * (256 + 1)); [|lia].
    pose proof (Z.mul_succ_div_gt (num_items lh * 256) (num_nodes lh)). nia. }
  destruct Hwf. unfold items in *.
  constructor; simpl; rewrite ?length_insert, ?Eh, ?Ec, ?Eu, ?Ed, ?Ei;
    unfold items; simpl; rewrite ?Hc3; try done; lia.
Qed.

(** *** The operations on the stored items *)

(** Replacing the chain of one bucket by a chain of entries of that bucket. *)
Lemma bucket_ok_update (h : A -> Z) pm q bs i c c' :
  bucket_ok h pm q bs -> bs !! i = Some c ->
  (forall x, x ∈ c' -> x ∈ c \/ idx pm q (h x) = Z.of_nat i) ->
  bucket_ok h pm q (<[i := c']> bs).
Proof.
  intros Hok Hi Hc j d x Hj Hx.
  apply list_lookup_insert_Some in Hj as [(<- & <- & _)|[_ Hj]]; [|eauto].
  apply Hc in Hx as [Hx|Hx]; eauto.
Qed.

(** The load test of [op_hash_insert]: after it, either the table has room for one more item
    below twice the number of buckets, or growing failed. *)
Lemma insert_room lh ok lh1 :
  hash_wf lh -> error lh = 0 ->
  (if up_load lh <=? u64 (num_items lh * LH_LOAD_MULT) / num_nodes lh
   then expand realloc lh else (true, lh)) = (ok, lh1) ->
  if ok then hash_wf lh1 /\ same_items lh lh1 /\ error lh1 = 0 /\
             num_items lh1 < 2 * num_nodes lh1
  else lh1 = with_error lh 1.
Proof.
  intros Hwf He0 Eexp. pose proof Hwf as []. 
  rewrite u64_id in Eexp by (unfold LH_LOAD_MULT; lia).
  destruct (up_load lh <=? _) eqn:Eup; btest.
  - destruct ok; [|apply expand_fail in Eexp; by rewrite He0 in Eexp].
    apply expand_ok in Eexp as (Hw & Hsi & Hnn & He); [|done].
    split; [done|]. split; [done|]. split; [lia|].
    destruct Hsi as (_&_&_&->). lia.
  - simplify_eq. split; [done|]. split; [done|]. split; [done|].
    rewrite wf_up0 in Eup. unfold UP_LOAD, LH_LOAD_MULT in Eup.
    pose proof (Z.mul_succ_div_gt (num_items lh1 * 256) (num_nodes lh1)). nia.
Qed.

Lemma wf_update_bucket lh i c c' n st :
  hash_wf lh -> b lh !! i = Some c ->
  (forall x, x ∈ c' -> x ∈ c \/ idx (pmax lh) (p lh) (hash lh x) = Z.of_nat i) ->
  NoDup (key <$> concat (<[i := c']> (b lh))) ->
  n = Z.of_nat (length (concat (<[i := c']> (b lh)))) -> n <= 2 * num_nodes lh ->
  hash_wf (with_items (with_stats (with_b lh (<[i := c']> (b lh))) st) n).
Proof.
  intros [] Hi Hc Hnd Hn Hload.
  constructor; simpl; rewrite ?length_insert; try done. by eapply bucket_ok_update.
Qed.

(** [op_hash_insert] on every branch: a failed allocation leaves the items alone and sets
    [error]; otherwise the entry of the key is [data], and the previous entry is returned. *)
Lemma insert_items calloc lh d ret lh' :
  hash_wf lh -> op_hash_insert realloc calloc lh d = (ret, lh') ->
  hash_wf lh' /\ hash lh' = hash lh /\ comp lh' = comp lh /\
  ((error lh' = 1 /\ ret = None /\ items lh' ≡ₚ items lh) \/
   (error lh' = 0 /\
    match ret with
    | None => items lh' ≡ₚ d :: items lh /\ forall x, x ∈ items lh -> key x <> key d
    | Some x => key x = key d /\ exists r, items lh ≡ₚ x :: r /\ items lh' ≡ₚ d :: r
    end)).
Proof.
  intros Hwf Hins. unfold op_hash_insert in Hins.
  set (lh0 := with_error lh 0) in *.
  assert (hash_wf lh0) as Hwf0 by by apply wf_with_error.
  destruct (if up_load lh0 <=? _ then _ else _) as [ok lh1] eqn:Eexp.
  apply insert_room in Eexp; [|done|done]. destruct ok; simpl in Hins.
  2: { simplify_eq. split; [by apply wf_with_error|]. split_and!; [done..|]. by left. }
  destruct Eexp as (Hwf1 & (Hit1 & Hh1 & Hc1 & Hn1) & He1 & Hroom).
  destruct (getrn lh1 d) as [[i pos] lh2] eqn:Eg.
  apply getrn_spec in Eg as ((st & ->) & Hidx & Hi & c & Hc & Hbk & Hres); [|done].
  unfold bucket in Hins, Hbk. simpl in Hins. rewrite Hbk in Hins. clear Hbk.
  destruct Hres as [[Hnone Hfresh]|(x & Hx & Hkx & Hin)].
  - rewrite Hnone in Hins. destruct calloc; simpl in Hins.
    2: { simplify_eq. split; [by apply wf_with_error, wf_with_stats|]. simpl.
         split_and!; [done..|]. left. rewrite He1. done. }
    simplify_eq. simpl. pose proof (concat_snoc_perm (b lh1) _ c d Hc) as Hp.
    pose proof Hwf1 as []. rewrite u64_id by lia. unfold items in *.
    split; [|split_and!; try done; right; split; [done|]; split].
    + apply (wf_update_bucket (with_stats lh1 st) _ c); simpl;
        [by apply wf_with_stats|done| | | |].
      * intros x [?| ->%list_elem_of_singleton]%elem_of_app; [by left|right; lia].
      * rewrite Hp. simpl. constructor; [|done].
        intros (x & Hk & Hx)%list_elem_of_fmap. by apply (Hfresh x).
      * rewrite Hp. simpl. lia.
      * lia.
    + by rewrite Hp, Hit1.
    + intros x Hx. apply Hfresh. by rewrite Hit1.
  - rewrite Hx in Hins. simplify_eq. simpl.
    pose proof (concat_delete_perm (b lh1) _ c pos x Hc Hx) as Hp1.
    pose proof (concat_replace_perm (b lh1) _ c pos x d Hc Hx) as Hp2.
    pose proof Hwf1 as []. unfold items in *.
    split; [|split_and!; try done; right; split; [done|]; split; [done|]].
    + apply (wf_update_bucket (with_stats lh1 st) _ c _ (num_items lh1) (bump num_replace 1 st));
        simpl; [by apply wf_with_stats|done| | | |lia].
      * intros y Hy. apply list_elem_of_lookup in Hy as [j Hj].
        apply list_lookup_insert_Some in Hj as [(_ & <- & _)|[_ Hj]]; [right; lia|].
        left. by eapply list_elem_of_lookup_2.
      * rewrite Hp2. rewrite Hp1 in wf_nodup0. simpl in *. by rewrite <- Hkx.
      * rewrite wf_items0, Hp1, Hp2. done.
    + exists (concat (<[Z.to_nat (idx (pmax lh1) (p lh1) (hash lh1 d)) := delete pos c]> (b lh1))).
      split; [|done]. by rewrite <- Hp1, Hit1.
Qed.

(** [op_hash_delete], under shrinking [realloc]s that succeed. *)
Lemma delete_items lh d ret lh' :
  hash_wf lh -> (forall n, n < W32 -> realloc n = true) ->
  op_hash_table_delete min_nodes realloc lh d = (ret, lh') ->
  hash_wf lh' /\ hash lh' = hash lh /\ comp lh' = comp lh /\
  match ret with
  | None => items lh' ≡ₚ items lh /\ forall x, x ∈ items lh -> key x <> key d
  | Some x => key x = key d /\ items lh ≡ₚ x :: items lh'
  end.
Proof.
  intros Hwf Hr Hdel. unfold op_hash_table_delete in Hdel.
  set (lh0 := with_error lh 0) in *.
  assert (hash_wf lh0) as Hwf0 by by apply wf_with_error.
  destruct (getrn lh0 d) as [[i pos] lh2] eqn:Eg.
  apply getrn_spec in Eg as ((st & ->) & Hidx & Hi & c & Hc & Hbk & Hres); [|done].
  unfold bucket in Hdel, Hbk. simpl in Hdel, Hbk. rewrite Hbk in Hdel. clear Hbk.
  destruct Hres as [[Hnone Hfresh]|(x & Hx & Hkx & Hin)].
  { rewrite Hnone in Hdel. simplify_eq. simpl.
    split; [by apply wf_with_stats, wf_with_stats|done]. }
  rewrite Hx in Hdel. pose proof (concat_delete_perm _ _ c pos x Hc Hx) as Hp.
  change (b lh0) with (b lh) in *.
  set (bs := <[Z.to_nat i := delete pos c]> (b lh)) in *.
  assert (num_items lh = 1 + Z.of_nat (length (concat bs))) as Hn.
  { rewrite (wf_items _ Hwf). unfold items. rewrite Hp. simpl. lia. }
  pose proof Hwf as []. unfold items in *. simpl in Hdel.
  rewrite (u64_id (num_items lh - 1)) in Hdel by lia.
  set (lh3 := with_items _ _) in Hdel.
  assert (hash_wf lh3) as Hwf3.
  { apply (wf_update_bucket (with_stats lh0 st) _ c); simpl;
      [by apply wf_with_stats|done| | |fold bs; lia|lia].
    - intros y Hy. left. rewrite (delete_Permutation c pos x Hx). by right.
    - fold bs. rewrite Hp in wf_nodup0. by inversion wf_nodup0. }
  rewrite u64_id in Hdel by (unfold LH_LOAD_MULT; lia).
  destruct (_ && _) eqn:Et; btest; injection Hdel as <- <-.
  - destruct (contract_ok lh3) as (Hw4 & (Hs1 & Hs2 & Hs3 & Hs4) & He4); [done|done| |done|].
    { unfold lh3, LH_LOAD_MULT, DOWN_LOAD in *. simpl in *. by rewrite wf_down0 in *. }
    split_and!; [done|by rewrite Hs2|by rewrite Hs3|done|].
    unfold items in Hs1. rewrite Hs1. exact Hp.
  - split_and!; done.
Qed.

(** Below 2^27 items no request of [expand] reaches the [int] limit, so no insertion fails
    when the allocator serves every request below 4 GiB. *)
Lemma insert_no_error lh d ret lh' :
  hash_wf lh -> (forall n, n < W32 -> realloc n = true) -> num_items lh < 134217728 ->
  op_hash_insert realloc true lh d = (ret, lh') -> error lh' = 0.
Proof.
  intros Hwf Hr Hlt Hins. unfold op_hash_insert in Hins.
  set (lh0 := with_error lh 0) in *.
  assert (hash_wf lh0) as Hwf0 by by apply wf_with_error.
  destruct (if up_load lh0 <=? _ then _ else _) as [ok lh1] eqn:Eexp.
  assert (ok = true) as ->.
  { destruct ok; [done|]. exfalso. pose proof Hwf0 as [].
    rewrite u64_id in Eexp by (unfold LH_LOAD_MULT; lia).
    destruct (up_load lh0 <=? _) eqn:Eup; [|done]. btest.
    rewrite wf_up0 in Eup. unfold UP_LOAD, LH_LOAD_MULT in Eup.
    pose proof (Z.mul_div_le (num_items lh0 * 256) (num_nodes lh0)).
    change (num_items lh0) with (num_items lh) in *.
    revert Eexp. unfold expand, expand_grow. rewrite (u32_id (p lh0 + 1)) by lia.
    destruct (pmax lh0 <=? p lh0 + 1) eqn:Ep; btest.
    - assert (4 * pmax lh0 <= 134217730) by nia.
      rewrite wf_alloc0, u32_id by lia. unfold sizeof_ptr. unwrap.
      rewrite Hr by lia. by destruct (split_chain _ _ _ _ _).
    - by destruct (split_chain _ _ _ _ _). }
  apply insert_room in Eexp as (Hwf1 & _ & He1 & _); [|done|done]. simpl in Hins.
  destruct (getrn lh1 d) as [[i pos] lh2] eqn:Eg.
  apply getrn_spec in Eg as ((st & ->) & _); [|done].
  by destruct (_ !! pos); simplify_eq.
Qed.

(** *** The operations on the abstract map *)

Lemma abs_perm lh lh' :
  NoDup (key <$> items lh) -> items lh' ≡ₚ items lh -> abs lh' = abs lh.
Proof.
  intros Hnd Hp. unfold abs. apply list_to_map_proper.
  - rewrite <- list_fmap_compose. simpl. rewrite Hp. exact Hnd.
  - by rewrite Hp.
Qed.

Lemma abs_of_items lh d r :
  NoDup (key <$> items lh) -> items lh ≡ₚ d :: r ->
  abs lh = <[key d := d]> (list_to_map ((fun x => (key x, x)) <$> r)).
Proof.
  intros Hnd Hp. unfold abs.
  rewrite (list_to_map_proper _ ((fun x => (key x, x)) <$> (d :: r))); [done| |by rewrite Hp].
  rewrite <- list_fmap_compose. exact Hnd.
Qed.

Lemma abs_insert lh d ret lh' :
  hash_wf lh -> op_hash_insert realloc true lh d = (ret, lh') -> error lh' = 0 ->
  hash_wf lh' /\ abs lh' = <[key d := d]> (abs lh) /\ ret = abs lh !! key d.
Proof.
  intros Hwf Hins He. apply insert_items in Hins as (Hw & _ & _ & [[? _]|[_ Hret]]); [lia| |done].
  split; [done|]. pose proof (wf_nodup _ Hwf) as Hnd. pose proof (wf_nodup _ Hw) as Hnd'.
  destruct ret as [x|].
  - destruct Hret as (Hk & r & Hp & Hp').
    rewrite (abs_of_items lh' d r), (abs_of_items lh x r) by done.
    rewrite Hk, insert_insert_eq, lookup_insert_eq. done.
  - destruct Hret as (Hp & Hfr). rewrite (abs_of_items lh' d (items lh)) by done.
    split; [done|]. symmetry. by apply abs_lookup_None.
Qed.

Lemma abs_delete lh d ret lh' :
  hash_wf lh -> (forall n, n < W32 -> realloc n = true) ->
  op_hash_table_delete min_nodes realloc lh d = (ret, lh') ->
  hash_wf lh' /\ abs lh' = delete (key d) (abs lh) /\ ret = abs lh !! key d.
Proof.
  intros Hwf Hr Hdel. apply delete_items in Hdel as (Hw & _ & _ & Hret); [|done|done].
  split; [done|]. pose proof (wf_nodup _ Hwf) as Hnd.
  destruct ret as [x|].
  - destruct Hret as (Hk & Hp). rewrite (abs_of_items lh x (items lh')) by done.
    rewrite Hk, lookup_insert_eq, delete_insert_id; [done|].
    apply (abs_lookup_None lh'). intros y Hy Heq.
    rewrite Hp in Hnd. simpl in Hnd. apply NoDup_cons in Hnd as [Hni _].
    apply Hni. rewrite Hk, <- Heq. by apply list_elem_of_fmap_2.
  - destruct Hret as (Hp & Hfr).
    assert (abs lh !! key d = None) as Hn by by apply abs_lookup_None.
    split; [|done]. rewrite delete_id by done. by apply abs_perm.
Qed.
End Ops.
End Spec.

(** ** Sequences of operations *)

Section Runs.
Context {A K : Type} `{Countable K} (key : A -> K) (realloc : Z -> bool).

Inductive hash_op :=
  | OpInsert (d : A)
  | OpDelete (d : A)
  | OpRetrieve (d : A).

Definition hash_step (lh : op_hash_st A) (o : hash_op) : option A * op_hash_st A :=
  match o with
  | OpInsert d => op_hash_insert realloc true lh d
  | OpDelete d => op_hash_delete realloc lh d
  | OpRetrieve d => op_hash_retrieve lh d
  end.

(** The abstract table: a finite map from keys to data. *)
Definition map_step (m : gmap K A) (o : hash_op) : option A * gmap K A :=
  match o with
  | OpInsert d => (m !! key d, <[key d := d]> m)
  | OpDelete d => (m !! key d, delete (key d) m)
  | OpRetrieve d => (m !! key d, m)
  end.

Fixpoint run {S} (step : S -> hash_op -> option A * S) (s : S) (ops : list hash_op)
    : list (option A) * S :=
  match ops with
  | [] => ([], s)
  | o :: rest =>
      let '(r, s1) := step s o in
      let '(rs, s2) := run step s1 rest in (r :: rs, s2)
  end.

Context (Hptrdiff : forall n, realloc n = true -> n < 9223372036854775808)
        (Hserves : forall n, n < W32 -> realloc n = true).

Lemma size_abs lh half :
  hash_wf half key lh -> num_items lh = Z.of_nat (size (abs key lh)).
Proof.
  intros []. rewrite wf_items0. f_equal. unfold abs.
  rewrite <- length_map_to_list, map_to_list_to_map.
  - by rewrite length_fmap.
  - by rewrite <- list_fmap_compose.
Qed.

Lemma step_refines lh o :
  hash_wf 1024 key lh -> num_items lh < 134217728 ->
  let '(r, lh') := hash_step lh o in
  hash_wf 1024 key lh' /\ (r, abs key lh') = map_step (abs key lh) o /\
  num_items lh' <= num_items lh + 1.
Proof.
  intros Hwf Hlt. destruct o as [d|d|d]; simpl.
  - destruct (op_hash_insert realloc true lh d) as [r lh'] eqn:E.
    pose proof (insert_no_error 1024 key ltac:(lia) realloc Hptrdiff lh d r lh' Hwf Hserves Hlt E).
    apply (abs_insert 1024 key) in E as (Hw & Ha & ->); try done; try lia.
    split_and!; [done|by rewrite Ha|].
    rewrite (size_abs _ _ Hw), (size_abs _ _ Hwf), Ha, map_size_insert.
    destruct (_ !! _); simpl; lia.
  - destruct (op_hash_delete realloc lh d) as [r lh'] eqn:E.
    apply (abs_delete MIN_NODES 1024 key) in E as (Hw & Ha & ->); try done; try lia.
    split_and!; [done|by rewrite Ha|].
    rewrite (size_abs _ _ Hw), (size_abs _ _ Hwf), Ha, map_size_delete.
    destruct (_ !! _); simpl; lia.
  - destruct (op_hash_retrieve lh d) as [r lh'] eqn:E.
    apply (abs_retrieve 1024 key) in E as (Hw & Ha & ->); try done; try lia.
    split_and!; [done|by rewrite Ha|].
    rewrite (size_abs _ _ Hw), (size_abs _ _ Hwf), Ha. lia.
Qed.

Lemma run_refines lh ops :
  hash_wf 1024 key lh -> num_items lh + Z.of_nat (length ops) < 134217728 ->
  let '(rs, lh') := run hash_step lh ops in
  hash_wf 1024 key lh' /\ (rs, abs key lh') = run map_step (abs key lh) ops.
Proof.
  revert lh. induction ops as [|o ops IH]; intros lh Hwf Hlt; simpl; [done|].
  pose proof (step_refines lh o Hwf ltac:(simpl in Hlt; lia)) as Hs.
  destruct (hash_step lh o) as [r lh1]. destruct Hs as (Hw1 & Hm & Hn).
  specialize (IH lh1 Hw1 ltac:(simpl in Hlt; lia)).
  destruct (run hash_step lh1 ops) as [rs lh2]. destruct IH as [Hw2 Hrun].
  rewrite <- Hm. rewrite <- Hrun. done.
Qed.
End Runs.

(** *** Traversal *)

Section Traversal.
Context {A : Type}.

Lemma doall_chain_collect (c acc : list A) :
  doall_chain cons c acc ≡ₚ c ++ acc.
Proof.
  revert acc. induction c as [|x c IH]; intros acc; simpl; [done|].
  rewrite IH. solve_Permutation.
Qed.

Lemma doall_from_collect (bs : list (list A)) n acc :
  doall_from cons bs n acc ≡ₚ concat (take n bs) ++ acc.
Proof.
  revert acc. induction n as [|n IH]; intros acc; simpl; [done|].
  rewrite IH, doall_chain_collect. destruct (bs !! n) as [c|] eqn:E; simpl.
  - rewrite (take_S_r _ _ _ E), concat_app. simpl. solve_Permutation.
  - apply lookup_ge_None in E. by rewrite !firstn_all2 by lia.
Qed.

Lemma used_buckets_items {K} half (key : A -> K) lh :
  hash_wf half key lh -> 8 <= half ->
  concat (take (Z.to_nat (num_nodes lh)) (b lh)) = items lh.
Proof.
  intros [] Hhalf. unfold items.
  rewrite <- (take_drop (Z.to_nat (num_nodes lh)) (b lh)) at 2.
  rewrite concat_app, (concat_all_nil (drop _ _)), app_nil_r; [done|].
  intros c [j Hj]%list_elem_of_lookup. rewrite lookup_drop in Hj.
  eapply (bucket_ok_empty (hash lh) (pmax lh) (p lh)); eauto; lia.
Qed.
End Traversal.

(** ** The table implements the interface of KeyTable.v *)

Section Interface.
Context {A K : Type} `{Countable K} (key : A -> K) (realloc : Z -> bool).

#[global] Instance op_hash_key_table : KeyTable (op_hash_st A) key := {
  kt_items := items;
  kt_wf := hash_wf 1024 key;
  kt_insert := op_hash_insert realloc true;
  kt_delete := op_hash_delete realloc;
  kt_retrieve := op_hash_retrieve;
}.

Context (Hptrdiff : forall n, realloc n = true -> n < 9223372036854775808)
        (Hserves : forall n, n < W32 -> realloc n = true).

Lemma op_hash_key_table_laws : KeyTableLaws (op_hash_st A) key.
Proof using Hptrdiff Hserves.
  constructor; simpl.
  - by intros t [].
  - intros t d Hwf. destruct (op_hash_retrieve t d) as [r t'] eqn:E. simpl.
    apply (retrieve_items 1024 key) in E as (? & Hb & _ & _ & ?); try done; try lia.
    unfold items in *. by rewrite Hb.
  - intros t d Hwf Hroom. destruct (op_hash_insert realloc true t d) as [r t'] eqn:E. simpl.
    pose proof Hwf as []. unfold kt_room in Hroom.
    pose proof (insert_no_error 1024 key ltac:(lia) realloc Hptrdiff t d r t' Hwf Hserves
      ltac:(lia) E).
    apply (insert_items 1024 key) in E as (? & _ & _ & [[? _]|[_ ?]]); try done; try lia.
  - intros t d Hwf. destruct (op_hash_delete realloc t d) as [r t'] eqn:E. simpl.
    apply (delete_items MIN_NODES 1024 key) in E as (? & _ & _ & ?); try done; try lia.
Qed.
End Interface.

(** ** Properties *)

(** A concrete caller: pairs of a key and a value, hashed by the key. *)
Definition pair_hash (x : Z * Z) : Z := u64 (fst x).
Definition pair_comp (x y : Z * Z) : Z := if fst x =? fst y then 0 else 1.

#[export] Instance pair_key : HashKey pair_hash pair_comp (@fst Z Z).
Proof.
  constructor.
  - intros x y. unfold pair_comp. bcase; naive_solver.
  - intros x y E. unfold pair_hash. by rewrite E.
  - intros x. apply u64_range.
Qed.

(** An allocator that serves every request up to [PTRDIFF_MAX]. *)
Definition serving (n : Z) : bool := n <? 9223372036854775808.

Lemma serving_ptrdiff n : serving n = true -> n < 9223372036854775808.
Proof. apply Z.ltb_lt. Qed.
Lemma serving_small n : n < W32 -> serving n = true.
Proof. intros. apply Z.ltb_lt. lia. Qed.

(** C1. Any sequence of fewer than 2^27 insertions, deletions and lookups on a table made by
    [op_hash_new] returns exactly what the same sequence returns on a finite map from keys to
    data, whatever growing and shrinking happens on the way, and the table ends up holding
    that map. The allocator is assumed to refuse requests above [PTRDIFF_MAX] and to serve
    requests below 4 GiB. *)
Theorem op_hash_refines_map {A K : Type} `{Countable K}
    (key : A -> K) (h : A -> Z) (cmp : A -> A -> Z) (realloc : Z -> bool) lh ops :
  HashKey h cmp key ->
  (forall n, realloc n = true -> n < 9223372036854775808) ->
  (forall n, n < W32 -> realloc n = true) ->
  op_hash_new (Some h) (Some cmp) true true = Some lh ->
  Z.of_nat (length ops) < 134217728 ->
  let '(rs, lh') := run (hash_step realloc) lh ops in
  (rs, abs key lh') = run (map_step key) ∅ ops.
Proof.
  intros Hk H1 H2 Hn Hlen. pose proof (wf_new 2048 1024 key) as Hnew.
  destruct (Hnew ltac:(lia) ltac:(lia) h cmp lh Hk Hn) as (Hwf & Hnil & _).
  pose proof (run_refines key realloc H1 H2 lh ops Hwf) as Hr.
  assert (num_items lh = 0) as E0 by (rewrite (wf_items _ _ _ Hwf), Hnil; done).
  specialize (Hr ltac:(lia)). destruct (run _ lh ops) as [rs lh']. destruct Hr as [_ Hr].
  rewrite Hr. unfold abs. by rewrite Hnil.
Qed.

Lemma op_hash_refines_map_witness :
  let ops := [OpInsert (1, 10); OpInsert (2049, 20); OpInsert (1, 11); OpDelete (2049, 0);
              OpRetrieve (1, 0); OpRetrieve (2049, 0)] in
  exists lh, op_hash_new (Some pair_hash) (Some pair_comp) true true = Some lh /\
    fst (run (hash_step serving) lh ops)
    = [None; None; Some (1, 10); Some (2049, 20); Some (1, 11); None].
Proof.
  intros ops. eexists. split; [reflexivity|].
  pose proof (op_hash_refines_map fst pair_hash pair_comp serving _ ops pair_key
    serving_ptrdiff serving_small eq_refl eq_refl) as Hr.
  destruct (run (hash_step serving) _ ops) as [rs lh'].
  injection Hr as Hrs _. rewrite Hrs. reflexivity.
Defined.

(** C30. Every table reached from [op_hash_new] keeps its load bounded: at most twice as many
    items as buckets, so chains stay short on average; the item counter is the number of
    distinct keys present, and the arrays have the geometry the code assumes. *)
Theorem op_hash_load_bounded {A K : Type} `{Countable K}
    (key : A -> K) (h : A -> Z) (cmp : A -> A -> Z) (realloc : Z -> bool) lh ops :
  HashKey h cmp key ->
  (forall n, realloc n = true -> n < 9223372036854775808) ->
  (forall n, n < W32 -> realloc n = true) ->
  op_hash_new (Some h) (Some cmp) true true = Some lh ->
  Z.of_nat (length ops) < 134217728 ->
  let lh' := snd (run (hash_step realloc) lh ops) in
  op_hash_num_items (Some lh') = Z.of_nat (size (snd (run (map_step key) ∅ ops))) /\
  num_items lh' <= 2 * num_nodes lh' /\ num_nodes lh' <= Z.of_nat (length (b lh')).
Proof.
  intros Hk H1 H2 Hn Hlen. pose proof (wf_new 2048 1024 key) as Hnew.
  destruct (Hnew ltac:(lia) ltac:(lia) h cmp lh Hk Hn) as (Hwf & Hnil & _).
  pose proof (run_refines key realloc H1 H2 lh ops Hwf) as Hr.
  assert (num_items lh = 0) as E0 by (rewrite (wf_items _ _ _ Hwf), Hnil; done).
  specialize (Hr ltac:(lia)). destruct (run _ lh ops) as [rs lh'] eqn:Erun. destruct Hr as [Hw Hr].
  simpl. assert (abs key lh = ∅) as Ha by (unfold abs; by rewrite Hnil).
  rewrite Ha in Hr. rewrite <- Hr. simpl. rewrite <- (size_abs key lh' 1024 Hw).
  destruct Hw. split_and!; [done|done|lia].
Qed.

Lemma op_hash_load_bounded_witness :
  let ops := [OpInsert (1, 10); OpInsert (2049, 20); OpInsert (1, 11)] in
  exists lh, op_hash_new (Some pair_hash) (Some pair_comp) true true = Some lh /\
    op_hash_num_items (Some (snd (run (hash_step serving) lh ops))) = 2.
Proof.
  intros ops. eexists. split; [reflexivity|].
  pose proof (op_hash_load_bounded fst pair_hash pair_comp serving _ ops pair_key
    serving_ptrdiff serving_small eq_refl eq_refl) as [Hr _].
  rewrite Hr. reflexivity.
Defined.

(** [op_hash_doall], [op_hash_doall_arg] and [op_hash_free] visit every stored item exactly
    once, although they only walk the buckets below [num_nodes]. *)
Theorem op_hash_doall_visits_all {A K : Type} (key : A -> K) (lh : op_hash_st A) :
  hash_wf 1024 key lh ->
  op_hash_doall (Some lh) cons [] ≡ₚ items lh /\
  op_hash_doall_arg (Some lh) cons [] ≡ₚ items lh /\
  op_hash_free (Some lh) = items lh.
Proof.
  intros Hwf. pose proof (used_buckets_items 1024 key lh Hwf ltac:(lia)) as Hu.
  unfold op_hash_doall, op_hash_doall_arg, doall_util_fn. pose proof Hwf as [].
  rewrite u32_id, s32_id by lia. replace (num_nodes lh - 1 + 1) with (num_nodes lh) by lia.
  rewrite !doall_from_collect, app_nil_r, Hu. done.
Qed.

Lemma op_hash_doall_visits_all_witness :
  let lh := OpHashSt (replicate 2048 []) pair_comp pair_hash 1024 2048 0 1024 512 256 0 (fun _ => 0) 0 in
  op_hash_free (Some lh) = [].
Proof.
  intros lh. destruct (op_hash_doall_visits_all fst lh) as (_ & _ & ->); [|reflexivity].
  apply (wf_new 2048 1024 fst eq_refl ltac:(lia) pair_hash pair_comp lh pair_key). reflexivity.
Defined.

(** A failed [realloc] or [calloc] in [op_hash_insert] is reported by [error] = 1 and a null
    result, and changes neither the stored items nor the invariant; every other outcome stores
    [data] under its key and returns the entry it replaces. *)
Theorem op_hash_insert_total {A K : Type} (key : A -> K) (realloc : Z -> bool)
    (calloc : bool) (lh lh' : op_hash_st A) d ret :
  (forall n, realloc n = true -> n < 9223372036854775808) ->
  hash_wf 1024 key lh -> op_hash_insert realloc calloc lh d = (ret, lh') ->
  hash_wf 1024 key lh' /\
  ((error lh' = 1 /\ ret = None /\ items lh' ≡ₚ items lh) \/
   (error lh' = 0 /\
    match ret with
    | None => items lh' ≡ₚ d :: items lh /\ forall x, x ∈ items lh -> key x <> key d
    | Some x => key x = key d /\ exists r, items lh ≡ₚ x :: r /\ items lh' ≡ₚ d :: r
    end)).
Proof.
  intros Hp Hwf Hi.
  by destruct (insert_items 1024 key ltac:(lia) realloc Hp calloc lh d ret lh' Hwf Hi)
    as (? & _ & _ & ?).
Qed.

Lemma op_hash_insert_total_witness :
  let lh := OpHashSt (replicate 2048 []) pair_comp pair_hash 1024 2048 0 1024 512 256 0 (fun _ => 0) 0 in
  error (snd (op_hash_insert serving false lh (7, 7))) = 1.
Proof.
  intros lh. destruct (op_hash_insert serving false lh (7, 7)) as [ret lh'] eqn:E.
  destruct (op_hash_insert_total fst serving false lh lh' (7, 7) ret serving_ptrdiff) as
    (_ & [[He _]|[He _]]).
  - apply (wf_new 2048 1024 fst eq_refl ltac:(lia) pair_hash pair_comp lh pair_key). reflexivity.
  - exact E.
  - exact He.
  - exfalso. assert (lh' = snd (op_hash_insert serving false lh (7, 7))) as El by (by rewrite E).
    rewrite El in He. vm_compute in He. discriminate.
Defined.

(** [contract] is not safe against a failing [realloc]: the last chain has already been taken
    out of the array, so all its entries are lost, while [num_items] still counts them. *)
Theorem contract_realloc_failure_loses_chain {A : Type} (lh : op_hash_st A) c :
  p lh = 0 -> 0 < pmax lh < 2147483648 -> b lh !! Z.to_nat (pmax lh - 1) = Some c ->
  let lh' := contract (fun _ => false) lh in
  c ++ items lh' ≡ₚ items lh /\ num_items lh' = num_items lh /\ error lh' = error lh + 1.
Proof.
  intros Hp Hpm Hc. unfold contract, contract_shrink, items. simpl.
  rewrite Hp, Z.add_0_l, (u32_id (pmax lh)), (u32_id (pmax lh - 1)) by lia.
  split_and!; try done. by rewrite (concat_insert_perm _ _ [] c Hc).
Qed.

Lemma contract_realloc_failure_loses_chain_witness :
  let lh := OpHashSt [[(0, 5)]; [(1, 6)]; []; []] pair_comp pair_hash 2 4 0 2 512 256 2 (fun _ => 0) 0 in
  let lh' := contract (fun _ => false) lh in
  items lh' = [(0, 5)] /\ num_items lh' = 2.
Proof.
  intros lh lh'.
  pose proof (contract_realloc_failure_loses_chain lh [(1, 6)] eq_refl ltac:(simpl; lia) eq_refl)
    as (_ & Hn & _).
  split; [reflexivity|]. exact Hn.
Defined.
