(* ===== verification/OpMem.v ===== *)
(** * The memory pool (src/src/base/opmem.c)

    Fixed-size element lists refilled in blocks ("father nodes"), with the nodes handed out kept
    in a table keyed by their address. The table is any [KeyTable]; the one of the program is
    [op_hash_st] (HashSpec.v). A node's fields never change after its creation, so the model
    stores nodes by value and keeps what the code mutates: the element lists and counters, the
    [used_size] of the fathers, the statistics, the table and the bytes of memory. The results of
    [malloc] and [calloc] are an argument, consumed in call order; [None] is a null pointer. *)

From S2P Require Import Prelude KeyTable.
From stdpp Require Import base tactics numbers list gmap.
From Stdlib Require Import ZArith Lia.
Open Scope Z_scope.

Module OpMem.

(** ** Data *)

Definition OP_MEM_MAX_SIZE : Z := 1048576.

(** [enum OP_MEM]: only the bounds and the system entry are used by the code. *)
Definition OP_MEM_ELE_NO : nat := 0.
Definition op_MEM_ELE_SYS : nat := 15.
Definition OP_MEM_ELE_MAX : nat := 16.

Definition OPMEM_CAN_FREE : Z := 1.
Definition OPMEM_CANNOT_FREE : Z := 2.

Record op_mem_node := OpMemNode {
  ptr : Z;
  size : Z;
  index : Z;
  father : Z;
}.

#[export] Instance op_mem_node_eq_dec : EqDecision op_mem_node.
Proof. solve_decision. Defined.

Record mem_alloc_ele := MemAllocEle {
  ele_size : Z;
  ele_num : Z;
  list_ : list op_mem_node;
  can_used_num : Z;
  all_num : Z;
  op_malloc_num : Z;
  op_free_num : Z;
}.

Record mem_father_node := MemFather {
  father_size : Z;
  father_ptr : Z;
  used_size : Z;
  father_type : Z;
  father_ele : nat;
}.

Record op_mem_statistic := OpMemStatistic {
  pool_alloc : Z;
  pool_alloc_noused : Z;
  pool_alloc_used : Z;
  system_alloc : Z;
  system_alloc_noused : Z;
  system_alloc_used : Z;
}.

(** The static array [op_mem_ele]: element size and number of elements per block. *)
Definition ele_table : list (Z * Z) :=
  [(0, 0); (16, 80); (32, 160); (64, 160); (128, 160); (256, 320); (512, 320); (1024, 320);
   (2048, 320); (4096, 320); (8192, 8); (16384, 8); (65536, 8); (524288, 4); (1048576, 2);
   (0, 0)].

(** The key of a node in the table: [op_mem_hash] and [op_mem_compare] look at [ptr]. *)
Definition op_mem_hash (node : option op_mem_node) : Z :=
  match node with None => 0 | Some n => Z.land (u64 (ptr n)) 4294967295 end.

Definition op_mem_compare (src dest : option op_mem_node) : Z :=
  match src, dest with
  | Some s, Some d => if ptr s =? ptr d then 0 else 1
  | _, _ => 1
  end.

Section Pool.
Context {T : Type} `{!KeyTable T ptr}.

(** [struct op_mem_info] with the static array it works on, the father structures by address,
    the bytes of memory, and the data blocks taken from the C allocator and not yet freed. *)
Record op_mem_info := OpMemInfo {
  hash : T;
  statistic : op_mem_statistic;
  father_node_list : list Z;
  fathers : gmap Z mem_father_node;
  op_mem_ele : list mem_alloc_ele;
  bytes : Z -> Z;
  blocks : list Z;
}.

Definition with_hash m h :=
  OpMemInfo h (statistic m) (father_node_list m) (fathers m) (op_mem_ele m) (bytes m) (blocks m).
Definition with_statistic m s :=
  OpMemInfo (hash m) s (father_node_list m) (fathers m) (op_mem_ele m) (bytes m) (blocks m).
Definition with_fathers m fl f :=
  OpMemInfo (hash m) (statistic m) fl f (op_mem_ele m) (bytes m) (blocks m).
Definition with_eles m e :=
  OpMemInfo (hash m) (statistic m) (father_node_list m) (fathers m) e (bytes m) (blocks m).
Definition with_bytes m bs :=
  OpMemInfo (hash m) (statistic m) (father_node_list m) (fathers m) (op_mem_ele m) bs (blocks m).
Definition with_blocks m bl :=
  OpMemInfo (hash m) (statistic m) (father_node_list m) (fathers m) (op_mem_ele m) (bytes m) bl.

(** [self->statistic.f += d] on the four counters the code updates ([unsigned long long]). *)
Definition add_pool (d dno dused : Z) (s : op_mem_statistic) : op_mem_statistic :=
  OpMemStatistic (u64 (pool_alloc s + d)) (u64 (pool_alloc_noused s + dno))
    (u64 (pool_alloc_used s + dused)) (system_alloc s) (system_alloc_noused s)
    (system_alloc_used s).
Definition add_system (d dused : Z) (s : op_mem_statistic) : op_mem_statistic :=
  OpMemStatistic (pool_alloc s) (pool_alloc_noused s) (pool_alloc_used s)
    (u64 (system_alloc s + d)) (system_alloc_noused s) (u64 (system_alloc_used s + dused)).

Definition upd_ele (i : nat) (f : mem_alloc_ele -> mem_alloc_ele) m : op_mem_info :=
  with_eles m (alter f i (op_mem_ele m)).
Definition upd_used (fid : Z) (d : Z) m : op_mem_info :=
  with_fathers m (father_node_list m)
    (alter (fun f => MemFather (father_size f) (father_ptr f) (u64 (used_size f + d))
                       (father_type f) (father_ele f)) fid (fathers m)).

(** List operations of an element list together with its counters. *)
Definition ele_push (n : op_mem_node) (e : mem_alloc_ele) :=
  MemAllocEle (ele_size e) (ele_num e) (list_ e ++ [n]) (u32 (can_used_num e + 1)) (all_num e)
    (op_malloc_num e) (op_free_num e).
Definition ele_push_new (n : op_mem_node) (e : mem_alloc_ele) :=
  MemAllocEle (ele_size e) (ele_num e) (list_ e ++ [n]) (u32 (can_used_num e + 1))
    (u32 (all_num e + 1)) (op_malloc_num e) (op_free_num e).
Definition ele_pop (e : mem_alloc_ele) :=
  MemAllocEle (ele_size e) (ele_num e) (tail (list_ e)) (u32 (can_used_num e - 1)) (all_num e)
    (u64 (op_malloc_num e + 1)) (op_free_num e).
Definition ele_freed (n : op_mem_node) (e : mem_alloc_ele) :=
  let e' := ele_push n e in
  MemAllocEle (ele_size e') (ele_num e') (list_ e') (can_used_num e') (all_num e')
    (op_malloc_num e') (u64 (op_free_num e' + 1)).
Definition ele_with_list (e : mem_alloc_ele) l :=
  MemAllocEle (ele_size e) (ele_num e) l (can_used_num e) (all_num e)
    (op_malloc_num e) (op_free_num e).

(** [list_del_init] of one node. *)
Fixpoint list_del (n : op_mem_node) (l : list op_mem_node) : list op_mem_node :=
  match l with
  | [] => []
  | x :: r => if decide (x = n) then r else x :: list_del n r
  end.

(** *** op_mem_get_list: the first element size that fits *)

Fixpoint get_list_from (i : nat) (eles : list mem_alloc_ele) (sz : Z) : option nat :=
  match eles with
  | [] => None
  | e :: r => if sz <=? ele_size e then Some i else get_list_from (S i) r sz
  end.
Definition op_mem_get_list (eles : list mem_alloc_ele) (sz : Z) : option nat :=
  get_list_from (OP_MEM_ELE_NO + 1) (drop (OP_MEM_ELE_NO + 1) eles) sz.

(** The next result of [malloc]/[calloc]. *)
Definition next_alloc (allocs : list (option Z)) : option Z * list (option Z) :=
  match allocs with [] => (None, []) | a :: r => (a, r) end.

(** *** op_malloc *)

(** The loop that cuts a block into nodes. [false]: a node could not be allocated. *)
Fixpoint cut_block (ei : nat) (fid base esize : Z) (i n : nat) (allocs : list (option Z)) m
    : bool * list (option Z) * op_mem_info :=
  match n with
  | O => (true, allocs, m)
  | S n' =>
      let '(a, allocs) := next_alloc allocs in
      match a with
      | None => (false, allocs, m)
      | Some _ =>
          let node := OpMemNode (base + Z.of_nat i * esize) esize (Z.of_nat i) fid in
          let m1 := upd_ele ei (ele_push_new node) m in
          let m2 := with_statistic m1 (add_pool esize esize 0 (statistic m1)) in
          cut_block ei fid base esize (S i) n' allocs m2
      end
  end.

(** A new father block for an element list; [false] when an allocation failed, with whatever
    the code has already linked: the father is on the list before its block is allocated, and
    freeing it does not unlink it. *)
Definition new_father (ei : nat) (ftype : Z) (e : mem_alloc_ele) (allocs : list (option Z)) m
    : bool * list (option Z) * op_mem_info :=
  let '(a, allocs) := next_alloc allocs in
  match a with
  | None => (false, allocs, m)
  | Some fid =>
      let m1 := with_fathers m (father_node_list m ++ [fid])
                  (<[fid := MemFather 0 0 0 ftype ei]> (fathers m)) in
      let '(a, allocs) := next_alloc allocs in
      match a with
      | None => (false, allocs, with_fathers m1 (father_node_list m1) (delete fid (fathers m1)))
      | Some block =>
          let m2 := with_blocks
                      (with_fathers m1 (father_node_list m1)
                         (<[fid := MemFather (u64 (ele_size e * ele_num e)) block 0 ftype ei]> (fathers m1)))
                      (block :: blocks m1) in
          let '(ok, allocs, m3) :=
            cut_block ei fid block (ele_size e) 0 (Z.to_nat (ele_num e)) allocs m2 in
          if ok then (true, allocs, m3)
          else (false, allocs,
                with_blocks (with_fathers m3 (father_node_list m3) (delete fid (fathers m3)))
                  (tail (blocks m3)))
      end
  end.

Definition op_malloc_system (allocs : list (option Z)) (sz : Z) m : option Z * op_mem_info :=
  let '(a, allocs) := next_alloc allocs in
  match a with
  | None => (None, m)
  | Some p =>
      let '(a, _) := next_alloc allocs in
      match a with
      | None => (None, m)
      | Some _ =>
          let node := OpMemNode p sz 0 0 in
          let m1 := with_hash (with_blocks m (p :: blocks m)) (snd (kt_insert (hash m) node)) in
          let m2 := upd_ele op_MEM_ELE_SYS (fun e => ele_with_list e (list_ e ++ [node])) m1 in
          (Some p, with_statistic m2 (add_system sz sz (statistic m2)))
      end
  end.

(** Handing out the first node of an element list. *)
Definition take_node (ei : nat) (node : op_mem_node) m : op_mem_info :=
  let m1 := upd_ele ei ele_pop m in
  let m2 := with_hash m1 (snd (kt_insert (hash m1) node)) in
  let m3 := upd_used (father node) (size node) m2 in
  with_statistic m3 (add_pool 0 (- size node) (size node) (statistic m3)).

Definition op_malloc (allocs : list (option Z)) (sz : Z) (self : option op_mem_info)
    : option Z * option op_mem_info :=
  match self with
  | None => (None, None)
  | Some m =>
      if OP_MEM_MAX_SIZE <? sz then
        let '(r, m') := op_malloc_system allocs sz m in (r, Some m')
      else
        match op_mem_get_list (op_mem_ele m) sz with
        | None => (None, Some m)
        | Some ei =>
            match op_mem_ele m !! ei with
            | None => (None, Some m)
            | Some e =>
                let '(ok, _, m1) :=
                  match list_ e with
                  | [] => new_father ei OPMEM_CAN_FREE e allocs m
                  | _ => (true, allocs, m)
                  end in
                if negb ok then (None, Some m1)
                else
                  match op_mem_ele m1 !! ei ≫= fun e1 => head (list_ e1) with
                  | None => (None, Some m1)
                  | Some node => (Some (ptr node), Some (take_node ei node m1))
                  end
            end
        end
  end.

(** *** op_calloc *)

Definition memset (p c n : Z) (bs : Z -> Z) : Z -> Z :=
  fun a => if (p <=? a) && (a <? p + n) then c else bs a.

Definition op_calloc (allocs : list (option Z)) (nmemb sz : Z) (self : option op_mem_info)
    : option Z * option op_mem_info :=
  match op_malloc allocs (u64 (nmemb * sz)) self with
  | (Some p, Some m) => (Some p, Some (with_bytes m (memset p 0 (u64 (nmemb * sz)) (bytes m))))
  | (_, m) => (None, m)
  end.

(** *** op_free *)

(** The node built on the stack to look up an address: only [ptr] is read. *)
Definition key_node (p : Z) : op_mem_node := OpMemNode p 0 0 0.

Definition op_free (p : Z) (self : option op_mem_info) : option op_mem_info :=
  match self with
  | None => None
  | Some m =>
      let '(r, h) := kt_retrieve (hash m) (key_node p) in
      let m0 := with_hash m h in
      match r with
      | None => Some m0
      | Some node =>
          if OP_MEM_MAX_SIZE <? size node then
            let m1 := with_hash m0 (snd (kt_delete (hash m0) node)) in
            let m2 := upd_ele op_MEM_ELE_SYS (fun e => ele_with_list e (list_del node (list_ e))) m1 in
            let m3 := with_blocks m2 (filter (fun x => x <> p) (blocks m2)) in
            Some (with_statistic m3 (add_system (- size node) (- size node) (statistic m3)))
          else
            match op_mem_get_list (op_mem_ele m0) (size node) with
            | None => Some m0
            | Some ei =>
                let m1 := with_hash m0 (snd (kt_delete (hash m0) node)) in
                let m2 := upd_ele ei (ele_freed node) m1 in
                let m3 := upd_used (father node) (- size node) m2 in
                Some (with_statistic m3 (add_pool 0 (size node) (- size node) (statistic m3)))
            end
      end
  end.

(** *** op_realloc *)

(** [RFault] is the call of [memcpy] with a null destination. *)
Inductive realloc_result := RReturn (p : option Z) | RFault.

Definition op_realloc (allocs : list (option Z)) (p sz : Z) (self : option op_mem_info)
    : realloc_result * option op_mem_info :=
  match self with
  | None => (RReturn None, None)
  | Some m =>
      let '(r, h) := kt_retrieve (hash m) (key_node p) in
      let m0 := with_hash m h in
      match r with
      | None => (RReturn None, Some m0)
      | Some node =>
          match op_calloc allocs 1 (u64 (size node + sz)) (Some m0) with
          | (Some _, m1) => (RReturn None, m1)
          | (None, m1) => (RFault, m1)
          end
      end
  end.

(** *** op_mem_release_check *)

(** The inner loop: nodes of the element list that belong to the father are dropped. *)
Fixpoint drop_nodes (fid : Z) (l : list op_mem_node) (e : mem_alloc_ele) (s : op_mem_statistic)
    : list op_mem_node * mem_alloc_ele * op_mem_statistic :=
  match l with
  | [] => ([], e, s)
  | n :: r =>
      if negb (father n =? fid) then
        let '(k, e', s') := drop_nodes fid r e s in (n :: k, e', s')
      else
        drop_nodes fid r
          (MemAllocEle (ele_size e) (ele_num e) (list_ e) (u32 (can_used_num e - 1))
             (u32 (all_num e - 1)) (op_malloc_num e) (op_free_num e))
          (add_pool (- size n) (- size n) 0 s)
  end.

Definition release_father (fid : Z) m : op_mem_info :=
  match fathers m !! fid with
  | None => m
  | Some f =>
      if (father_type f =? OPMEM_CANNOT_FREE) || (0 <? used_size f) then m
      else
        match op_mem_ele m !! father_ele f with
        | None => m
        | Some e =>
            let '(l, e', s) := drop_nodes fid (list_ e) e (statistic m) in
            let m1 := with_statistic (upd_ele (father_ele f) (fun _ => ele_with_list e' l) m) s in
            with_fathers m1 (filter (fun x => x <> fid) (father_node_list m1))
              (delete fid (fathers m1))
        end
  end.

Definition op_mem_release_check m : op_mem_info :=
  foldl (fun m fid => release_father fid m) m (father_node_list m).

(** *** opmem_init *)

Definition empty_ele (t : Z * Z) : mem_alloc_ele := MemAllocEle (fst t) (snd t) [] 0 0 0 0.

(** The loop over the element sizes; entries without size or number are skipped. *)
Fixpoint init_eles (i : nat) (eles : list (Z * Z)) (allocs : list (option Z)) m
    : bool * list (option Z) * op_mem_info :=
  match eles with
  | [] => (true, allocs, m)
  | (s, n) :: r =>
      if (s =? 0) || (n =? 0) then init_eles (S i) r allocs m
      else
        let '(ok, allocs, m1) :=
          new_father i OPMEM_CANNOT_FREE (empty_ele (s, n)) allocs m in
        if ok then init_eles (S i) r allocs m1 else (false, allocs, m1)
  end.

(** [new_hash] is the result of [op_hash_new]; the first allocation is [op_mem_info] itself.
    Every failure returns a null pointer and leaves [self] null, so the state it leaves behind
    is not observable. *)
Definition opmem_init (allocs : list (option Z)) (new_hash : option T) (bs : Z -> Z)
    : option op_mem_info :=
  let '(a, allocs) := next_alloc allocs in
  match a, new_hash with
  | Some _, Some h =>
      let m0 := OpMemInfo h (OpMemStatistic 0 0 0 0 0 0) [] ∅ (empty_ele <$> ele_table) bs [] in
      let '(ok, _, m1) :=
        init_eles (OP_MEM_ELE_NO + 1) (drop (OP_MEM_ELE_NO + 1) ele_table) allocs m0 in
      if ok then Some m1 else None
  | _, _ => None
  end.
End Pool.

Arguments op_mem_info : clear implicits.
End OpMem.
