(* ===== verification/OpMemSpec.v ===== *)
(** * Correctness of the memory pool

    The invariant of the pool (disjoint blocks, counters, fathers that account for every node),
    its preservation by allocation, release and the periodic check, and what each operation
    returns. *)

From S2P Require Import Prelude KeyTable Hash HashSpec OpMem.
From stdpp Require Import base tactics numbers list gmap.
From Stdlib Require Import ZArith Lia.
Open Scope Z_scope.
Import OpMem.

(** ** Disjoint blocks *)

Definition disj (n n' : op_mem_node) : Prop :=
  ptr n + size n <= ptr n' \/ ptr n' + size n' <= ptr n.

Fixpoint pairwise {A} (R : A -> A -> Prop) (l : list A) : Prop :=
  match l with
  | [] => True
  | x :: r => (forall y, y ∈ r -> R x y) /\ pairwise R r
  end.

Section pairwise.
Context {A : Type} (R : A -> A -> Prop).

Lemma pairwise_app l l' :
  pairwise R (l ++ l') <-> pairwise R l /\ pairwise R l' /\ forall x y, x ∈ l -> y ∈ l' -> R x y.
Proof.
  induction l as [|a l IH]; simpl; [set_solver|]. rewrite IH. set_solver.
Qed.

Context `{!Symmetric R}.

#[global] Instance pairwise_perm : Proper (Permutation ==> iff) (pairwise R).
Proof.
  intros l l' Hp. induction Hp as [|x l l' Hp IH|x y l|l1 l2 l3 _ IH1 _ IH2]; simpl.
  - done.
  - rewrite IH. assert (forall y, y ∈ l <-> y ∈ l') by (intros; by rewrite Hp). naive_solver.
  - split; intros (H1 & H2 & H3); split_and!; try done; try set_solver.
    all: intros z [->|Hz]%elem_of_cons; [|by auto]; symmetry; apply H1; by left.
  - by rewrite IH1.
Qed.

Lemma pairwise_sublist l l' : l ⊆+ l' -> pairwise R l' -> pairwise R l.
Proof.
  intros Hs Hp. apply submseteq_Permutation in Hs as [k Hk]. rewrite Hk in Hp.
  by apply pairwise_app in Hp as [? _].
Qed.
End pairwise.

#[export] Instance disj_sym : Symmetric disj.
Proof. unfold disj. intros x y. tauto. Qed.

(** ** The invariant *)

Section Invariant.
Context {T : Type} `{!KeyTable T ptr, !KeyTableLaws T ptr}.
Implicit Types (m : op_mem_info T) (n : op_mem_node).

(** Nodes waiting in the element lists, and nodes handed out. *)
Definition free_nodes m : list op_mem_node :=
  concat (list_ <$> take op_MEM_ELE_SYS (op_mem_ele m)).
Definition live m : list op_mem_node := kt_items (hash m).
Definition is_sys n : Prop := OP_MEM_MAX_SIZE < size n.
Definition of_father (fid : Z) (l : list op_mem_node) : list op_mem_node :=
  filter (fun n => father n = fid) l.

(** A node of element list [i]: its size, and a father that belongs to that list. *)
Definition pooled m (i : nat) n : Prop :=
  exists e f, op_mem_ele m !! i = Some e /\ size n = ele_size e /\
    fathers m !! father n = Some f /\ father_ele f = i.

Record mem_wf m : Prop := {
  w_hash : kt_wf (hash m);
  w_table : (fun e => (ele_size e, ele_num e)) <$> op_mem_ele m = ele_table;
  w_free : forall i e n, (i < op_MEM_ELE_SYS)%nat -> op_mem_ele m !! i = Some e -> n ∈ list_ e ->
    pooled m i n;
  w_live : forall n, n ∈ live m -> (is_sys n /\ father n = 0) \/ exists i, (0 < i < op_MEM_ELE_SYS)%nat /\ pooled m i n;
  w_sys : forall e, op_mem_ele m !! op_MEM_ELE_SYS = Some e ->
    list_ e ≡ₚ filter is_sys (live m);
  w_range : forall n, n ∈ free_nodes m ++ live m ->
    0 < ptr n /\ 0 < size n /\ ptr n + size n <= W64;
  w_disj : pairwise disj (free_nodes m ++ live m);
  w_null : fathers m !! 0 = None;
  w_father : forall fid f, fathers m !! fid = Some f ->
    used_size f = sumZ size (of_father fid (live m)) /\
    sumZ size (of_father fid (free_nodes m ++ live m)) = father_size f /\ father_size f < W64;
  w_fele : forall fid f, fathers m !! fid = Some f -> (0 < father_ele f < op_MEM_ELE_SYS)%nat;
  w_fids : forall fid, fid ∈ father_node_list m <-> is_Some (fathers m !! fid);
  w_cnt : forall i e, (i < op_MEM_ELE_SYS)%nat -> op_mem_ele m !! i = Some e ->
    can_used_num e = u32 (Z.of_nat (length (list_ e)));
  w_noused : pool_alloc_noused (statistic m) = u64 (sumZ size (free_nodes m));
  w_used : pool_alloc_used (statistic m) = u64 (sumZ size (filter (fun n => ~ is_sys n) (live m)));
  w_pool : pool_alloc (statistic m) =
    u64 (sumZ size (free_nodes m) + sumZ size (filter (fun n => ~ is_sys n) (live m)));
  w_system : system_alloc (statistic m) = u64 (sumZ size (filter is_sys (live m)));
  w_sysused : system_alloc_used (statistic m) = system_alloc (statistic m);
}.

(** ** Element lists *)

Definition chains m : list (list op_mem_node) := list_ <$> take op_MEM_ELE_SYS (op_mem_ele m).

Lemma chains_lookup m i e :
  (i < op_MEM_ELE_SYS)%nat -> op_mem_ele m !! i = Some e -> chains m !! i = Some (list_ e).
Proof.
  intros Hi He. unfold chains. by rewrite list_lookup_fmap, lookup_take_lt, He.
Qed.

Lemma elem_of_free m n :
  n ∈ free_nodes m <->
  exists i e, (i < op_MEM_ELE_SYS)%nat /\ op_mem_ele m !! i = Some e /\ n ∈ list_ e.
Proof.
  unfold free_nodes. rewrite elem_of_concat. split.
  - intros (i & c & Hc & Hn). rewrite list_lookup_fmap in Hc.
    apply fmap_Some in Hc as (e & He & ->). apply lookup_take_Some in He as [He Hi]. eauto.
  - intros (i & e & Hi & He & Hn). exists i, (list_ e). split; [|done]. by apply chains_lookup.
Qed.

Lemma ele_lookup_alter m i e f :
  op_mem_ele m !! i = Some e -> op_mem_ele (upd_ele i f m) = <[i := f e]> (op_mem_ele m).
Proof.
  intros He. simpl. apply list_eq. intros j.
  destruct (decide (i = j)) as [<-|Hne].
  - rewrite list_lookup_alter_eq, list_lookup_insert_eq, He; [done|by eapply lookup_lt_Some].
  - by rewrite list_lookup_alter_ne, list_lookup_insert_ne.
Qed.

Lemma chains_upd m i e f :
  op_mem_ele m !! i = Some e ->
  chains (upd_ele i f m) =
    if decide (i < op_MEM_ELE_SYS)%nat then <[i := list_ (f e)]> (chains m) else chains m.
Proof.
  intros He. unfold chains. rewrite (ele_lookup_alter m i e f He), take_insert.
  case_decide; [|done]. by rewrite list_fmap_insert.
Qed.

(** The static sizes survive every update of an element. *)
Lemma table_upd m i f :
  (forall e, ele_size (f e) = ele_size e /\ ele_num (f e) = ele_num e) ->
  (fun e => (ele_size e, ele_num e)) <$> op_mem_ele (upd_ele i f m)
  = (fun e => (ele_size e, ele_num e)) <$> op_mem_ele m.
Proof.
  intros Hf. apply list_eq. intros j. rewrite !list_lookup_fmap. simpl.
  destruct (decide (i = j)) as [<-|Hne]; [|by rewrite list_lookup_alter_ne].
  rewrite list_lookup_alter_eq. destruct (op_mem_ele m !! i) as [e|]; simpl; [|done].
  by destruct (Hf e) as [-> ->].
Qed.

(** *** The choice of an element list *)

Fixpoint first_fit (i : nat) (tab : list (Z * Z)) (sz : Z) : option nat :=
  match tab with
  | [] => None
  | (s, _) :: r => if sz <=? s then Some i else first_fit (S i) r sz
  end.

Lemma get_list_first_fit i eles sz :
  get_list_from i eles sz = first_fit i ((fun e => (ele_size e, ele_num e)) <$> eles) sz.
Proof. revert i. induction eles as [|e r IH]; intros i; simpl; [done|]. by rewrite IH. Qed.

Lemma get_list_table m sz :
  mem_wf m -> op_mem_get_list (op_mem_ele m) sz = first_fit 1 (drop 1 ele_table) sz.
Proof.
  intros Hwf. unfold op_mem_get_list. rewrite get_list_first_fit, fmap_drop.
  by rewrite (w_table _ Hwf).
Qed.

Lemma table_lookup m i s k :
  mem_wf m -> ele_table !! i = Some (s, k) ->
  exists e, op_mem_ele m !! i = Some e /\ ele_size e = s /\ ele_num e = k.
Proof.
  intros Hwf Ht. rewrite <- (w_table _ Hwf), list_lookup_fmap in Ht.
  apply fmap_Some in Ht as (e & He & [= -> ->]). eauto.
Qed.

(** Every request up to [OP_MEM_MAX_SIZE] has a list of large enough elements. *)
Lemma first_fit_table sz :
  sz <= OP_MEM_MAX_SIZE ->
  exists i s k, first_fit 1 (drop 1 ele_table) sz = Some i /\ (0 < i < op_MEM_ELE_SYS)%nat /\
    ele_table !! i = Some (s, k) /\ sz <= s /\ 16 <= s /\ 0 < k /\ s * k < W32 /\ s <= OP_MEM_MAX_SIZE.
Proof.
  intros Hsz. unfold OP_MEM_MAX_SIZE in Hsz. simpl.
  repeat (bcase; [do 3 eexists; split_and!; try reflexivity; unfold op_MEM_ELE_SYS, OP_MEM_MAX_SIZE; lia|]).
  lia.
Qed.

Lemma get_list_ok m sz :
  mem_wf m -> sz <= OP_MEM_MAX_SIZE ->
  exists i e, op_mem_get_list (op_mem_ele m) sz = Some i /\ (0 < i < op_MEM_ELE_SYS)%nat /\
    op_mem_ele m !! i = Some e /\ sz <= ele_size e /\ 16 <= ele_size e /\ 0 < ele_num e /\
    ele_size e * ele_num e < W32 /\ ele_size e <= OP_MEM_MAX_SIZE.
Proof.
  intros Hwf Hsz. rewrite get_list_table by done.
  destruct (first_fit_table sz Hsz) as (i & s & k & Hf & Hi & Ht & ?).
  destruct (table_lookup m i s k Hwf Ht) as (e & He & <- & <-). eauto 10.
Qed.

(** The element sizes are increasing, so a node goes back to the list it came from. *)
Lemma get_list_own m i e :
  mem_wf m -> (0 < i < op_MEM_ELE_SYS)%nat -> op_mem_ele m !! i = Some e ->
  op_mem_get_list (op_mem_ele m) (ele_size e) = Some i /\ 16 <= ele_size e <= OP_MEM_MAX_SIZE.
Proof.
  intros Hwf Hi He. rewrite get_list_table by done.
  assert (ele_table !! i = Some (ele_size e, ele_num e)) as Ht
    by (rewrite <- (w_table _ Hwf), list_lookup_fmap, He; done).
  clear He. unfold op_MEM_ELE_SYS in Hi.
  do 15 (destruct i as [|i]; [try lia; simpl in Ht; injection Ht as <- _;
    (split; [reflexivity|unfold OP_MEM_MAX_SIZE; lia])|]). lia.
Qed.

(** ** Moving nodes between the element lists and the table *)

Definition same_table m m' : Prop :=
  (fun e => (ele_size e, ele_num e)) <$> op_mem_ele m'
  = (fun e => (ele_size e, ele_num e)) <$> op_mem_ele m.
(** Fathers keep their element list and size; only [used_size] differs. *)
Definition same_fathers m m' : Prop :=
  father_node_list m' = father_node_list m /\
  forall fid, (fun f => (father_size f, father_ele f)) <$> fathers m' !! fid
            = (fun f => (father_size f, father_ele f)) <$> fathers m !! fid.

Lemma pooled_transfer m m' i n :
  same_table m m' -> same_fathers m m' -> pooled m i n -> pooled m' i n.
Proof.
  intros Ht [_ Hf] (e & f & He & Hs & Hfa & Hi).
  assert (((fun e => (ele_size e, ele_num e)) <$> op_mem_ele m') !! i
          = Some (ele_size e, ele_num e)) as Ht' by (rewrite Ht, list_lookup_fmap, He; done).
  rewrite list_lookup_fmap in Ht'. apply fmap_Some in Ht' as (e' & He' & [= Hse _]).
  specialize (Hf (father n)). rewrite Hfa in Hf. simpl in Hf.
  destruct (fathers m' !! father n) as [f'|] eqn:Ef; [|done]. injection Hf as Hsz Hel.
  exists e', f'. split_and!; congruence.
Qed.

(** What a move must provide; everything else is carried over. *)
Lemma wf_move m m' :
  mem_wf m -> same_table m m' -> same_fathers m m' -> kt_wf (hash m') ->
  free_nodes m' ++ live m' ≡ₚ free_nodes m ++ live m ->
  (forall fid f, fathers m' !! fid = Some f ->
    used_size f = sumZ size (of_father fid (live m'))) ->
  (forall i e n, (i < op_MEM_ELE_SYS)%nat -> op_mem_ele m' !! i = Some e -> n ∈ list_ e ->
    pooled m i n) ->
  (forall n, n ∈ live m' ->
    (is_sys n /\ father n = 0) \/ exists i, (0 < i < op_MEM_ELE_SYS)%nat /\ pooled m i n) ->
  (forall e, op_mem_ele m' !! op_MEM_ELE_SYS = Some e -> list_ e ≡ₚ filter is_sys (live m')) ->
  (forall i e, (i < op_MEM_ELE_SYS)%nat -> op_mem_ele m' !! i = Some e ->
    can_used_num e = u32 (Z.of_nat (length (list_ e)))) ->
  pool_alloc_noused (statistic m') = u64 (sumZ size (free_nodes m')) ->
  pool_alloc_used (statistic m') = u64 (sumZ size (filter (fun n => ~ is_sys n) (live m'))) ->
  pool_alloc (statistic m') =
    u64 (sumZ size (free_nodes m') + sumZ size (filter (fun n => ~ is_sys n) (live m'))) ->
  system_alloc (statistic m') = u64 (sumZ size (filter is_sys (live m'))) ->
  system_alloc_used (statistic m') = system_alloc (statistic m') ->
  mem_wf m'.
Proof.
  intros Hwf Ht Hf Hh Hall Hu Hfree Hlive Hsys Hcnt H1 H2 H3 H4 H5.
  pose proof Hf as [Hfl Hfm]. destruct Hwf.
  constructor; try done.
  - by rewrite Ht.
  - intros i e n Hi He Hn. eauto using pooled_transfer.
  - intros n [?|(i & Hi & Hp)]%Hlive; [by left|right]. eauto using pooled_transfer.
  - intros n. rewrite Hall. apply w_range0.
  - by rewrite Hall.
  - specialize (Hfm 0). rewrite w_null0 in Hfm. by destruct (fathers m' !! 0).
  - intros fid f Hfid. split; [by apply Hu|]. unfold of_father. rewrite Hall.
    specialize (Hfm fid). rewrite Hfid in Hfm. simpl in Hfm.
    destruct (fathers m !! fid) as [f0|] eqn:E; [|done]. injection Hfm as -> _.
    by apply w_father0 in E as (_ & ? & ?).
  - intros fid f Hfid. specialize (Hfm fid). rewrite Hfid in Hfm. simpl in Hfm.
    destruct (fathers m !! fid) as [f0|] eqn:E; [|done]. injection Hfm as _ ->. by eapply w_fele0.
  - intros fid. rewrite Hfl, w_fids0. specialize (Hfm fid).
    destruct (fathers m !! fid), (fathers m' !! fid); try done; naive_solver.
Qed.

Lemma upd_used_same_fathers m fid d : same_fathers m (upd_used fid d m).
Proof.
  split; [done|]. intros k. simpl. destruct (decide (fid = k)) as [<-|Hne].
  - rewrite lookup_alter_eq. by destruct (fathers m !! fid).
  - by rewrite lookup_alter_ne.
Qed.

(** A node on an element list and a node handed out never share an address. *)
Lemma free_fresh m n :
  mem_wf m -> n ∈ free_nodes m -> forall x, x ∈ live m -> ptr x <> ptr n.
Proof.
  intros Hwf Hn x Hx. pose proof (w_disj _ Hwf) as Hd.
  apply pairwise_app in Hd as (_ & _ & Hd). specialize (Hd n x Hn Hx).
  destruct (w_range _ Hwf n) as (_ & ? & _); [set_solver|].
  destruct (w_range _ Hwf x) as (_ & ? & _); [set_solver|].
  unfold disj in Hd. lia.
Qed.

Lemma free_node_size m i e n :
  mem_wf m -> (i < op_MEM_ELE_SYS)%nat -> op_mem_ele m !! i = Some e -> n ∈ list_ e ->
  (0 < i)%nat /\ size n = ele_size e /\ ~ is_sys n.
Proof.
  intros Hwf Hi He Hn. destruct (w_free _ Hwf i e n Hi He Hn) as (e' & f & He' & Hs & _).
  simplify_eq. assert (0 < size n).
  { apply (w_range _ Hwf). apply elem_of_app. left. apply elem_of_free. eauto. }
  destruct (decide (i = 0%nat)) as [->|].
  - exfalso. assert (ele_table !! 0%nat = Some (ele_size e, ele_num e)) as Ht
      by (rewrite <- (w_table _ Hwf), list_lookup_fmap, He; done).
    simpl in Ht. injection Ht as ? ?. lia.
  - destruct (get_list_own m i e Hwf ltac:(lia) He) as [_ ?].
    unfold is_sys. split_and!; [lia|done|lia].
Qed.

(** *** Lookups after an update of one element *)

Lemma upd_ele_lookup m i e f j e' :
  op_mem_ele m !! i = Some e -> op_mem_ele (upd_ele i f m) !! j = Some e' ->
  (j = i /\ e' = f e) \/ (j <> i /\ op_mem_ele m !! j = Some e').
Proof.
  intros He. rewrite (ele_lookup_alter m i e f He).
  intros [(<- & <- & _)|[Hne ?]]%list_lookup_insert_Some; [by left|right; auto].
Qed.

Lemma free_nodes_pop m i e n r :
  (i < op_MEM_ELE_SYS)%nat -> op_mem_ele m !! i = Some e -> list_ e = n :: r ->
  free_nodes m ≡ₚ n :: free_nodes (upd_ele i ele_pop m).
Proof.
  intros Hi He Hl. unfold free_nodes. fold (chains m). fold (chains (upd_ele i ele_pop m)).
  rewrite (chains_upd m i e ele_pop He), decide_True by done. simpl. rewrite Hl. simpl.
  pose proof (chains_lookup m i e Hi He) as Hc. rewrite Hl in Hc.
  by rewrite (concat_delete_perm (chains m) i (n :: r) 0 n Hc eq_refl).
Qed.

Lemma free_nodes_push m i e n f :
  (i < op_MEM_ELE_SYS)%nat -> op_mem_ele m !! i = Some e -> list_ (f e) = list_ e ++ [n] ->
  free_nodes (upd_ele i f m) ≡ₚ n :: free_nodes m.
Proof.
  intros Hi He Hl. unfold free_nodes. fold (chains m). fold (chains (upd_ele i f m)).
  rewrite (chains_upd m i e f He), decide_True by done. rewrite Hl.
  apply concat_snoc_perm. by apply chains_lookup.
Qed.

(** [used_size] follows the node of a father that is handed out ([d] its size) or given back
    ([d] its negated size). *)
Lemma used_size_move m m' n d :
  mem_wf m -> fathers m' = fathers (upd_used (father n) d m) ->
  (forall fid, sumZ size (of_father fid (live m'))
     = sumZ size (of_father fid (live m)) + (if decide (father n = fid) then d else 0)) ->
  (forall fid, sumZ size (of_father fid (live m')) <= sumZ size (of_father fid (free_nodes m ++ live m))) ->
  (forall fid, 0 <= sumZ size (of_father fid (live m'))) ->
  forall fid f, fathers m' !! fid = Some f -> used_size f = sumZ size (of_father fid (live m')).
Proof.
  intros Hwf Hfa Hsum Hle Hge fid f Hf. rewrite Hfa in Hf. simpl in Hf.
  rewrite Hsum. specialize (Hsum fid). specialize (Hle fid). specialize (Hge fid).
  destruct (decide (father n = fid)) as [<-|Hne].
  - rewrite lookup_alter_eq in Hf. apply fmap_Some in Hf as (f0 & Hf0 & ->). simpl.
    destruct (w_father _ Hwf _ _ Hf0) as (-> & Hall & Hlt). rewrite u64_id; lia.
  - rewrite lookup_alter_ne in Hf by done.
    destruct (w_father _ Hwf _ _ Hf) as (-> & _ & _). lia.
Qed.

Lemma sum_of_father_nonneg m l fid :
  mem_wf m -> (forall n, n ∈ l -> n ∈ free_nodes m ++ live m) -> 0 <= sumZ size (of_father fid l).
Proof.
  intros Hwf Hin. apply sumZ_nonneg. intros n [_ Hn]%list_elem_of_filter.
  destruct (w_range _ Hwf n (Hin n Hn)). lia.
Qed.

(** A node [n] of list [i] moves to the table ([d] = size) or back ([d] = - size). *)
Definition moved m m' n d : Prop :=
  (d = size n /\ live m' ≡ₚ n :: live m /\ free_nodes m ≡ₚ n :: free_nodes m') \/
  (d = - size n /\ live m ≡ₚ n :: live m' /\ free_nodes m' ≡ₚ n :: free_nodes m).

Lemma moved_all m m' n d :
  moved m m' n d -> free_nodes m' ++ live m' ≡ₚ free_nodes m ++ live m.
Proof. intros [(_ & -> & ->)|(_ & -> & ->)]; solve_Permutation. Qed.

Lemma moved_sum m m' n d (P : op_mem_node -> Prop) `{forall x, Decision (P x)} :
  moved m m' n d ->
  sumZ size (filter P (live m')) = sumZ size (filter P (live m)) + (if decide (P n) then d else 0) /\
  sumZ size (free_nodes m') = sumZ size (free_nodes m) - d.
Proof.
  intros [(-> & Hl & Hf)|(-> & Hl & Hf)]; rewrite Hl, Hf, filter_cons; case_decide; simpl; lia.
Qed.

Lemma wf_relocate m m' i e e' n d :
  mem_wf m -> moved m m' n d -> ~ is_sys n -> pooled m i n ->
  (0 < i < op_MEM_ELE_SYS)%nat -> op_mem_ele m !! i = Some e ->
  op_mem_ele m' = <[i := e']> (op_mem_ele m) -> same_table m m' ->
  (forall x, x ∈ list_ e' -> pooled m i x) ->
  can_used_num e' = u32 (Z.of_nat (length (list_ e'))) -> kt_wf (hash m') ->
  fathers m' = fathers (upd_used (father n) d m) -> father_node_list m' = father_node_list m ->
  statistic m' = add_pool 0 (- d) d (statistic m) ->
  mem_wf m'.
Proof.
  intros Hwf Hmv Hns Hpn Hi He Hel Ht Hle Hc Hk Hfa Hfl Hst.
  pose proof (moved_all _ _ _ _ Hmv) as Hall.
  destruct (moved_sum m m' n d is_sys Hmv) as [Hsys Hsf]. rewrite decide_False in Hsys by done.
  destruct (moved_sum m m' n d (fun x => ~ is_sys x) Hmv) as [Hpool _].
  rewrite decide_True in Hpool by done.
  assert (forall j e1, op_mem_ele m' !! j = Some e1 ->
    (j = i /\ e1 = e') \/ (j <> i /\ op_mem_ele m !! j = Some e1)) as Hlook.
  { intros j e1. rewrite Hel.
    intros [(<- & <- & _)|[Hne ?]]%list_lookup_insert_Some; [by left|right; auto]. }
  assert (forall fid, 0 <= sumZ size (of_father fid (free_nodes m')) /\
                      0 <= sumZ size (of_father fid (live m'))) as Hnn.
  { intros fid. split; apply (sum_of_father_nonneg m); try done;
      intros x; rewrite <- Hall; set_solver. }
  apply (wf_move m m'); try done.
  - split; [done|]. rewrite Hfa. apply (upd_used_same_fathers m).
  - apply (used_size_move m m' n d Hwf Hfa); intros fid;
      [exact (proj1 (moved_sum m m' n d (fun x => father x = fid) Hmv))| |apply Hnn].
    unfold of_father at 2. rewrite <- Hall, filter_app, sumZ_app.
    specialize (Hnn fid). unfold of_father in *. lia.
  - intros j e1 x Hj [[-> ->]|[_ He1]]%Hlook Hx; [by apply Hle|by eapply (w_free _ Hwf)].
  - intros x Hx. destruct Hmv as [(_ & Hl & _)|(_ & Hl & _)].
    + rewrite Hl in Hx. apply elem_of_cons in Hx as [->|Hx]; [eauto|by apply (w_live _ Hwf)].
    + apply (w_live _ Hwf). rewrite Hl. by right.
  - intros e1 [[? _]|[_ He1]]%Hlook; [lia|]. rewrite (w_sys _ Hwf e1 He1).
    destruct Hmv as [(_ & Hl & _)|(_ & Hl & _)]; by rewrite Hl, filter_cons_False.
  - intros j e1 Hj [[-> ->]|[_ He1]]%Hlook; [done|by eapply (w_cnt _ Hwf)].
  - rewrite Hst, Hsf. simpl. rewrite (w_noused _ Hwf), u64_add_l. f_equal.
  - rewrite Hst, Hpool. simpl. rewrite (w_used _ Hwf), u64_add_l. f_equal.
  - rewrite Hst, Hsf, Hpool. simpl. rewrite (w_pool _ Hwf), u64_add_l. f_equal. lia.
  - rewrite Hst, Hsys. simpl. rewrite (w_system _ Hwf). f_equal. lia.
  - rewrite Hst. apply (w_sysused _ Hwf).
Qed.

Lemma take_node_wf m i e n r :
  mem_wf m -> Z.of_nat (length (live m)) < kt_room ->
  (0 < i < op_MEM_ELE_SYS)%nat -> op_mem_ele m !! i = Some e -> list_ e = n :: r ->
  mem_wf (take_node i n m) /\ live (take_node i n m) ≡ₚ n :: live m /\
  free_nodes m ≡ₚ n :: free_nodes (take_node i n m).
Proof.
  intros Hwf Hroom Hi He Hl. set (m' := take_node i n m).
  pose proof (free_nodes_pop m i e n r ltac:(lia) He Hl) as Hfr.
  change (free_nodes (upd_ele i ele_pop m)) with (free_nodes m') in Hfr.
  assert (n ∈ list_ e) as Hne by (rewrite Hl; by left).
  assert (n ∈ free_nodes m) as Hn by (rewrite Hfr; by left).
  destruct (free_node_size m i e n Hwf ltac:(lia) He Hne) as (_ & Hsz & Hns).
  destruct (kt_insert_fresh (hash m) n (w_hash _ Hwf) Hroom (free_fresh m n Hwf Hn)) as [Hw Hlv].
  change (live m' ≡ₚ n :: live m) in Hlv. split; [|done].
  apply (wf_relocate m m' i e (ele_pop e) n (size n)); try done.
  - left. done.
  - eapply (w_free _ Hwf); eauto; lia.
  - by apply (ele_lookup_alter m).
  - by apply table_upd.
  - intros x Hx. simpl in Hx. rewrite Hl in Hx. simpl in Hx.
    apply (w_free _ Hwf i e x); [lia|done|]. rewrite Hl. by right.
  - simpl. rewrite (w_cnt _ Hwf i e), Hl, u32_sub_l by (done || lia). simpl. f_equal. lia.
Qed.

(** ** Giving a node back *)

Lemma live_pooled_ele m n :
  mem_wf m -> n ∈ live m -> ~ is_sys n ->
  exists i e, (0 < i < op_MEM_ELE_SYS)%nat /\ op_mem_ele m !! i = Some e /\ size n = ele_size e /\
    pooled m i n /\ op_mem_get_list (op_mem_ele m) (size n) = Some i.
Proof.
  intros Hwf Hn Hns. destruct (w_live _ Hwf n Hn) as [[? _]|(i & Hi & Hp)]; [done|].
  pose proof Hp as (e & f & He & Hs & _). exists i, e. split_and!; try done; try lia.
  rewrite Hs. by apply get_list_own.
Qed.

(** The state after a pool node was given back. *)
Definition give_back (i : nat) n m : op_mem_info T :=
  let m1 := with_hash m (snd (kt_delete (hash m) n)) in
  let m2 := upd_ele i (ele_freed n) m1 in
  let m3 := upd_used (father n) (- size n) m2 in
  with_statistic m3 (add_pool 0 (size n) (- size n) (statistic m3)).

Lemma give_back_wf m i e n :
  mem_wf m -> n ∈ live m -> ~ is_sys n -> pooled m i n ->
  (0 < i < op_MEM_ELE_SYS)%nat -> op_mem_ele m !! i = Some e ->
  mem_wf (give_back i n m) /\ live m ≡ₚ n :: live (give_back i n m) /\
  free_nodes (give_back i n m) ≡ₚ n :: free_nodes m.
Proof.
  intros Hwf Hn Hns Hp Hi He. set (m' := give_back i n m).
  destruct (kt_delete_present (hash m) n n (w_hash _ Hwf) Hn eq_refl) as [Hw Hlv].
  change (live m ≡ₚ n :: live m') in Hlv.
  pose proof (free_nodes_push m i e n (ele_freed n) ltac:(lia) He eq_refl) as Hfr.
  change (free_nodes m' ≡ₚ n :: free_nodes m) in Hfr. split; [|done].
  apply (wf_relocate m m' i e (ele_freed n e) n (- size n)); try done.
  - right. done.
  - by apply (ele_lookup_alter m).
  - by apply (table_upd m i (ele_freed n)).
  - intros x Hx. simpl in Hx. apply elem_of_app in Hx as [Hx| ->%list_elem_of_singleton]; [|done].
    apply (w_free _ Hwf i e x); [lia|done|done].
  - simpl. rewrite (w_cnt _ Hwf i e), length_app, u32_add_l by (done || lia). simpl. f_equal. lia.
  - simpl. unfold add_pool. do 2 f_equal. lia.
Qed.

(** Replacing the table by one with the same entries. *)
Lemma wf_with_hash m h :
  mem_wf m -> kt_wf h -> kt_items h = kt_items (hash m) -> mem_wf (with_hash m h).
Proof.
  intros Hwf Hh Hi. assert (live (with_hash m h) = live m) as Hl by done.
  destruct Hwf. constructor; rewrite ?Hl; try done.
Qed.
End Invariant.
