(* ===== verification/OpMemRefill.v ===== *)
(** * The memory pool: blocks taken from and given back to the C allocator

    Preservation of the pool invariant of OpMemSpec.v by the refill of an element list, by system
    allocations (requests above [OP_MEM_MAX_SIZE]), by their release and by the periodic check
    that drops unused blocks. *)

From S2P Require Import Prelude KeyTable Hash HashSpec OpMem OpMemSpec.
From stdpp Require Import base tactics numbers list gmap.
From Stdlib Require Import ZArith Lia.
Open Scope Z_scope.
Import OpMem.

(** ** Cutting a block into nodes *)

Definition cut_nodes (fid base esize : Z) (i n : nat) : list op_mem_node :=
  (fun j => OpMemNode (base + Z.of_nat j * esize) esize (Z.of_nat j) fid) <$> seq i n.

Lemma elem_of_cut_nodes fid base esize i n x :
  x ∈ cut_nodes fid base esize i n ->
  size x = esize /\ father x = fid /\
  exists j, (i <= j < i + n)%nat /\ ptr x = base + Z.of_nat j * esize.
Proof.
  unfold cut_nodes. intros (j & -> & Hj)%list_elem_of_fmap. apply elem_of_seq in Hj. simpl. eauto.
Qed.

Lemma cut_nodes_disj fid base esize i n :
  0 < esize -> pairwise disj (cut_nodes fid base esize i n).
Proof.
  intros He. revert i. induction n as [|n IH]; intros i; [done|].
  unfold cut_nodes. simpl. split; [|apply IH].
  intros y (Hs & _ & j & Hj & Hp)%elem_of_cut_nodes. left. simpl. rewrite Hp. nia.
Qed.

Lemma cut_nodes_inside fid base esize n x :
  0 < esize -> x ∈ cut_nodes fid base esize 0 n ->
  base <= ptr x /\ ptr x + size x <= base + esize * Z.of_nat n.
Proof. intros He (Hs & _ & j & Hj & Hp)%elem_of_cut_nodes. rewrite Hs, Hp. nia. Qed.

Lemma cut_nodes_size fid base esize i n :
  sumZ size (cut_nodes fid base esize i n) = esize * Z.of_nat n.
Proof.
  rewrite (sumZ_const size esize).
  - unfold cut_nodes. by rewrite length_fmap, length_seq.
  - by intros x (Hs & _)%elem_of_cut_nodes.
Qed.

(** The next [n] allocations succeed. *)
Definition granted (n : nat) (allocs : list (option Z)) : Prop :=
  (n <= length allocs)%nat /\ forall a, a ∈ take n allocs -> is_Some a.

Lemma granted_cons n allocs :
  granted (S n) allocs -> exists a r, allocs = Some a :: r /\ granted n r.
Proof.
  intros [Hl Ha]. destruct allocs as [|o r]; [simpl in Hl; lia|].
  destruct (Ha o) as [a ->]; [simpl; by left|]. exists a, r. split; [done|].
  split; [simpl in Hl; lia|]. intros b Hb. apply Ha. simpl. by right.
Qed.

Section Refill.
Context {T : Type} `{!KeyTable T ptr, !KeyTableLaws T ptr}.
Implicit Types (m : op_mem_info T) (n : op_mem_node).

(** What the loop changes: one element list with its counter, and two statistics. *)
Lemma cut_block_run ei fid base esize (k : nat) : forall i allocs m e c p q r,
  granted k allocs -> op_mem_ele m !! ei = Some e -> can_used_num e = u32 c ->
  pool_alloc (statistic m) = u64 p -> pool_alloc_noused (statistic m) = u64 q ->
  pool_alloc_used (statistic m) = u64 r ->
  exists m' e', cut_block ei fid base esize i k allocs m = (true, drop k allocs, m') /\
    hash m' = hash m /\ fathers m' = fathers m /\ father_node_list m' = father_node_list m /\
    op_mem_ele m' = <[ei := e']> (op_mem_ele m) /\
    list_ e' = list_ e ++ cut_nodes fid base esize i k /\
    ele_size e' = ele_size e /\ ele_num e' = ele_num e /\
    can_used_num e' = u32 (c + Z.of_nat k) /\
    statistic m' = OpMemStatistic (u64 (p + esize * Z.of_nat k)) (u64 (q + esize * Z.of_nat k))
      (u64 r) (system_alloc (statistic m))
      (system_alloc_noused (statistic m)) (system_alloc_used (statistic m)).
Proof.
  induction k as [|k IH]; intros i allocs m e c p q r Hg He Hc Hp Hq Hr.
  - exists m, e. rewrite list_insert_id by done. rewrite app_nil_r, Hc.
    split_and!; try done; [f_equal; lia|].
    destruct (statistic m); simpl in *. f_equal; congruence || (rewrite Hp || rewrite Hq; f_equal; lia).
  - apply granted_cons in Hg as (a & allocs' & -> & Hg). simpl.
    set (node := OpMemNode _ _ _ _). set (m2 := with_statistic _ _).
    assert (op_mem_ele m2 = <[ei := ele_push_new node e]> (op_mem_ele m)) as Hm2
      by (by apply (ele_lookup_alter m)).
    assert (ei < length (op_mem_ele m))%nat as Hlt by (by eapply lookup_lt_Some).
    edestruct (IH (S i) allocs' m2 (ele_push_new node e) (c + 1) (p + esize) (q + esize) r)
      as (m' & e' & Hrun & Hh & Hf & Hfl & Hel & Hli & Hs & Hn & Hcu & Hst); try done.
    { rewrite Hm2. by apply list_lookup_insert_eq. }
    { simpl. rewrite Hc. by rewrite u32_add_l. }
    { simpl. rewrite Hp. by rewrite u64_add_l. }
    { simpl. rewrite Hq. by rewrite u64_add_l. }
    { simpl. rewrite Hr, u64_add_l. f_equal. lia. }
    exists m', e'. rewrite Hrun, Hel, Hm2, list_insert_insert_eq, Hli, Hcu, Hst. simpl.
    split_and!; try done.
    + by rewrite <- app_assoc.
    + f_equal. lia.
    + do 2 f_equal; lia.
Qed.

(** *** A block as the C allocator returns it *)

(** Addresses of the block lie in range and outside every block known to the pool. *)
Definition block_fresh m (base len : Z) : Prop :=
  0 < base /\ base + len <= W64 /\
  forall x, x ∈ free_nodes m ++ live m -> ptr x + size x <= base \/ base + len <= ptr x.

Lemma block_fresh_disj m base len x n :
  block_fresh m base len -> x ∈ free_nodes m ++ live m ->
  base <= ptr n -> ptr n + size n <= base + len -> disj n x.
Proof. intros (_ & _ & Hf) Hx. specialize (Hf x Hx). unfold disj. lia. Qed.

(** No node refers to a father that is not there. *)
Lemma of_father_fresh m fid :
  mem_wf m -> fid <> 0 -> fathers m !! fid = None ->
  of_father fid (free_nodes m ++ live m) = [].
Proof.
  intros Hwf H0 Hn. apply elem_of_nil_inv. intros x [Hf Hx]%list_elem_of_filter.
  assert (forall i, ~ pooled m i x) as Hnp by (intros i (? & ? & _ & _ & ? & _); congruence).
  apply elem_of_app in Hx as [Hx|Hx].
  - apply elem_of_free in Hx as (i & e & Hi & He & Hx). by eapply Hnp, (w_free _ Hwf).
  - apply (w_live _ Hwf) in Hx as [[_ ?]|(i & _ & Hp)]; [congruence|by eapply Hnp].
Qed.

(** *** One element replaced *)

Lemma table_insert m m' i e e' :
  op_mem_ele m !! i = Some e -> op_mem_ele m' = <[i := e']> (op_mem_ele m) ->
  ele_size e' = ele_size e -> ele_num e' = ele_num e -> same_table m m'.
Proof.
  intros He Hel Hs Hn. unfold same_table. rewrite Hel, list_fmap_insert. apply list_insert_id.
  by rewrite list_lookup_fmap, He, Hs, Hn.
Qed.

Lemma lookup_replaced m m' i e' j e1 :
  op_mem_ele m' = <[i := e']> (op_mem_ele m) -> op_mem_ele m' !! j = Some e1 ->
  (j = i /\ e1 = e') \/ (j <> i /\ op_mem_ele m !! j = Some e1).
Proof.
  intros ->. intros [(<- & <- & _)|[Hne ?]]%list_lookup_insert_Some; [by left|right; auto].
Qed.

Lemma size_replaced m i e e' j e1 :
  op_mem_ele m !! i = Some e -> ele_size e' = ele_size e -> op_mem_ele m !! j = Some e1 ->
  exists e2, <[i := e']> (op_mem_ele m) !! j = Some e2 /\ ele_size e2 = ele_size e1.
Proof.
  intros He Hsz He1. destruct (decide (i = j)) as [<-|Hij].
  - exists e'. simplify_eq. split; [|done]. apply list_lookup_insert_eq. by eapply lookup_lt_Some.
  - exists e1. by rewrite list_lookup_insert_ne.
Qed.

Lemma free_nodes_replaced m m' i e e' :
  (i < op_MEM_ELE_SYS)%nat -> op_mem_ele m !! i = Some e ->
  op_mem_ele m' = <[i := e']> (op_mem_ele m) ->
  list_ e ++ free_nodes m' ≡ₚ list_ e' ++ free_nodes m.
Proof.
  intros Hi He Hel. unfold free_nodes. rewrite Hel, take_insert, decide_True, list_fmap_insert by done.
  apply concat_insert_perm. by apply chains_lookup.
Qed.

Lemma free_nodes_sys m m' e' :
  op_mem_ele m' = <[op_MEM_ELE_SYS := e']> (op_mem_ele m) -> free_nodes m' = free_nodes m.
Proof. intros Hel. unfold free_nodes. by rewrite Hel, take_insert_ge by lia. Qed.

(** Nodes of one father count for that father only. *)
Lemma of_father_nodes fid k (nodes l l' : list op_mem_node) :
  (forall x, x ∈ nodes -> father x = fid) -> l' ≡ₚ nodes ++ l ->
  sumZ size (of_father k l') = (if decide (fid = k) then sumZ size nodes else 0) + sumZ size (of_father k l).
Proof.
  intros Hn Hl. unfold of_father. rewrite Hl, filter_app, sumZ_app. f_equal. case_decide as Hk.
  - rewrite filter_keeps_all; [done|]. intros x Hx. rewrite <- Hk. by apply Hn.
  - rewrite filter_keeps_none; [done|]. intros x Hx. rewrite Hn by done. congruence.
Qed.

(** Sizes and fathers of pool nodes survive when a father is added and an element replaced. *)
Lemma pooled_refill m m' i e e' fid f x j :
  op_mem_ele m !! i = Some e -> op_mem_ele m' = <[i := e']> (op_mem_ele m) ->
  ele_size e' = ele_size e -> fathers m !! fid = None -> fathers m' = <[fid := f]> (fathers m) ->
  pooled m j x -> pooled m' j x.
Proof.
  intros He Hel Hsz Hno Hfa (e1 & f1 & He1 & Hs1 & Hf1 & Hj).
  destruct (size_replaced m i e e' j e1 He Hsz He1) as (e2 & He2 & Hs2). rewrite <- Hel in He2.
  exists e2, f1. rewrite Hfa, lookup_insert_ne by congruence. split_and!; congruence.
Qed.

(** The pool with one more father and its nodes. *)
Lemma wf_refill m m' i e e' fid f nodes :
  mem_wf m -> (0 < i < op_MEM_ELE_SYS)%nat -> op_mem_ele m !! i = Some e ->
  op_mem_ele m' = <[i := e']> (op_mem_ele m) -> list_ e' = list_ e ++ nodes ->
  ele_size e' = ele_size e -> ele_num e' = ele_num e ->
  can_used_num e' = u32 (Z.of_nat (length (list_ e'))) ->
  hash m' = hash m -> fid <> 0 -> fathers m !! fid = None ->
  fathers m' = <[fid := f]> (fathers m) -> father_node_list m' = father_node_list m ++ [fid] ->
  father_ele f = i -> used_size f = 0 -> father_size f = sumZ size nodes -> father_size f < W64 ->
  pairwise disj nodes ->
  (forall x, x ∈ nodes -> size x = ele_size e /\ father x = fid /\
     0 < ptr x /\ 0 < size x /\ ptr x + size x <= W64 /\
     forall y, y ∈ free_nodes m ++ live m -> disj x y) ->
  statistic m' = OpMemStatistic
    (u64 (sumZ size nodes + sumZ size (free_nodes m) + sumZ size (filter (fun n => ~ is_sys n) (live m))))
    (u64 (sumZ size nodes + sumZ size (free_nodes m)))
    (pool_alloc_used (statistic m)) (system_alloc (statistic m))
    (system_alloc_noused (statistic m)) (system_alloc_used (statistic m)) ->
  mem_wf m' /\ live m' = live m /\ free_nodes m' ≡ₚ nodes ++ free_nodes m.
Proof.
  intros Hwf Hi He Hel Hli Hsz Hnum Hc Hh H0 Hno Hfa Hfl Hfe Hu Hfs Hlt Hpw Hnd Hst.
  assert (live m' = live m) as Hlv by (unfold live; by rewrite Hh).
  assert (free_nodes m' ≡ₚ nodes ++ free_nodes m) as Hfr.
  { pose proof (free_nodes_replaced m m' i e e' ltac:(lia) He Hel) as Hp.
    rewrite Hli, <- app_assoc in Hp. by apply Permutation_app_inv_l in Hp. }
  split; [|done]. pose proof (table_insert m m' i e e' He Hel Hsz Hnum) as Ht.
  pose proof (of_father_fresh m fid Hwf H0 Hno) as Hnf.
  pose proof (fun x j => pooled_refill m m' i e e' fid f x j He Hel Hsz Hno Hfa) as Hpt.
  assert (forall x, x ∈ nodes -> pooled m' i x) as Hpn.
  { intros x (Hs & Hxf & _)%Hnd. exists e', f.
    rewrite Hel, list_lookup_insert_eq, Hfa, Hxf, lookup_insert_eq by (by eapply lookup_lt_Some).
    split_and!; congruence. }
  pose proof (w_disj _ Hwf) as Hdj.
  constructor; rewrite ?Hlv, ?Hst; simpl.
  - rewrite Hh. apply (w_hash _ Hwf).
  - rewrite Ht. apply (w_table _ Hwf).
  - intros j e1 x Hj He1 Hx. destruct (lookup_replaced m m' i e' j e1 Hel He1) as [[-> ->]|[_ He0]].
    + rewrite Hli in Hx. apply elem_of_app in Hx as [Hx|Hx]; [|by apply Hpn].
      apply Hpt. by eapply (w_free _ Hwf).
    + apply Hpt. by eapply (w_free _ Hwf).
  - intros x [?|(j & Hj & Hp)]%(w_live _ Hwf); [by left|right; eauto].
  - intros e1 He1. destruct (lookup_replaced m m' i e' _ e1 Hel He1) as [[? _]|[_ He0]]; [lia|].
    by apply (w_sys _ Hwf).
  - intros x. rewrite Hfr, <- app_assoc. intros [Hx|Hx]%elem_of_app; [|by apply (w_range _ Hwf)].
    destruct (Hnd x Hx) as (_ & _ & ? & ? & ? & _). done.
  - rewrite Hfr, <- app_assoc. apply pairwise_app. split_and!; [done|done|].
    intros x y Hx Hy. destruct (Hnd x Hx) as (_ & _ & _ & _ & _ & Hd). by apply Hd.
  - rewrite Hfa, lookup_insert_ne by done. apply (w_null _ Hwf).
  - intros k g Hk. assert (forall x, x ∈ nodes -> father x = fid) as Hxf by (intros x (_ & ? & _)%Hnd; done).
    rewrite (of_father_nodes fid k nodes (free_nodes m ++ live m) (free_nodes m' ++ live m) Hxf)
      by (rewrite Hfr; by rewrite <- app_assoc).
    rewrite Hfa in Hk. apply lookup_insert_Some in Hk as [[<- <-]|[Hne Hk]].
    + rewrite decide_True, Hnf by done. unfold of_father in Hnf. rewrite filter_app in Hnf.
      apply app_nil in Hnf as [_ Hnf]. unfold of_father. rewrite Hnf, Hu, Hfs. simpl. split_and!; lia.
    + rewrite decide_False by done. destruct (w_father _ Hwf k g Hk) as (? & ? & ?). split_and!; lia.
  - intros k g Hk. rewrite Hfa in Hk. apply lookup_insert_Some in Hk as [[_ <-]|[_ Hk]]; [lia|].
    by eapply (w_fele _ Hwf).
  - intros k. rewrite Hfl, Hfa, elem_of_app, list_elem_of_singleton, lookup_insert_is_Some, (w_fids _ Hwf).
    destruct (decide (fid = k)); naive_solver.
  - intros j e1 Hj He1. destruct (lookup_replaced m m' i e' j e1 Hel He1) as [[-> ->]|[_ He0]]; [done|].
    by eapply (w_cnt _ Hwf).
  - f_equal. by rewrite Hfr, sumZ_app.
  - apply (w_used _ Hwf).
  - f_equal. by rewrite Hfr, sumZ_app.
  - apply (w_system _ Hwf).
  - apply (w_sysused _ Hwf).
Qed.

(** What the C allocator must return for a refill of an element list: a father that is not in
    use, a block outside everything in use, and a node structure for every element. *)
Definition refill_granted m (e : mem_alloc_ele) (allocs : list (option Z)) : Prop :=
  exists fid block rest, allocs = Some fid :: Some block :: rest /\ fid <> 0 /\
    fathers m !! fid = None /\ block_fresh m block (ele_size e * ele_num e) /\
    granted (Z.to_nat (ele_num e)) rest.

Lemma new_father_wf m i ftype e e0 allocs :
  mem_wf m -> (0 < i < op_MEM_ELE_SYS)%nat -> op_mem_ele m !! i = Some e ->
  ele_size e0 = ele_size e -> ele_num e0 = ele_num e -> refill_granted m e allocs ->
  exists allocs' m' fid block, new_father i ftype e0 allocs m = (true, allocs', m') /\
    let nodes := cut_nodes fid block (ele_size e) 0 (Z.to_nat (ele_num e)) in
    mem_wf m' /\ live m' = live m /\ free_nodes m' ≡ₚ nodes ++ free_nodes m /\
    exists e', op_mem_ele m' !! i = Some e' /\ list_ e' = list_ e ++ nodes /\
      ele_size e' = ele_size e /\ ele_num e' = ele_num e.
Proof.
  intros Hwf Hi He Hs0 Hn0 (fid & block & rest & -> & H0 & Hno & Hbf & Hg).
  destruct (get_list_own m i e Hwf Hi He) as [_ Hsz].
  assert (0 < ele_num e /\ ele_size e * ele_num e < W32) as [Hnum Hprod].
  { assert (ele_table !! i = Some (ele_size e, ele_num e)) as Ht
      by (rewrite <- (w_table _ Hwf), list_lookup_fmap, He; done).
    clear -Ht Hi. unfold op_MEM_ELE_SYS in Hi.
    do 15 (destruct i as [|i]; [try lia; simpl in Ht; injection Ht as <- <-; lia|]). lia. }
  unfold new_father. simpl. rewrite Hs0, Hn0, insert_insert_eq.
  set (f := MemFather _ block _ _ _). set (m2 := with_blocks _ _).
  edestruct (cut_block_run i fid block (ele_size e) (Z.to_nat (ele_num e)) 0 rest m2 e)
    as (m' & e' & Hrun & Hh & Hf & Hfl & Hel & Hli & Hse & Hne & Hcu & Hst); try done.
  { apply (w_cnt _ Hwf i e); [lia|done]. }
  { apply (w_pool _ Hwf). } { apply (w_noused _ Hwf). } { apply (w_used _ Hwf). }
  rewrite Hrun. simpl. do 4 eexists. split; [reflexivity|]. simpl.
  set (nodes := cut_nodes _ _ _ _ _) in *.
  assert (sumZ size nodes = ele_size e * ele_num e) as Hsum
    by (unfold nodes; rewrite cut_nodes_size; lia).
  destruct (wf_refill m m' i e e' fid f nodes) as (Hw & Hlv & Hfr); try done.
  - rewrite Hcu, Hli, length_app. unfold nodes. unfold cut_nodes.
    rewrite length_fmap, length_seq. f_equal. lia.
  - simpl. rewrite Hsum, u64_id; nia.
  - simpl. apply u64_range.
  - apply cut_nodes_disj. lia.
  - intros x Hx. destruct (elem_of_cut_nodes _ _ _ _ _ x Hx) as (Hxs & Hxf & _).
    destruct (cut_nodes_inside fid block (ele_size e) _ x ltac:(lia) Hx) as [Hlo Hhi].
    rewrite Z2Nat.id in Hhi by lia. pose proof Hbf as (Hb1 & Hb2 & _).
    split_and!; try lia; try done. intros y Hy. by eapply block_fresh_disj.
  - rewrite Hst, Hsum. simpl. rewrite Z2Nat.id, <- (w_used _ Hwf) by lia. f_equal; f_equal; lia.
  - split_and!; try done. exists e'. rewrite Hel. split_and!; try done.
    apply list_lookup_insert_eq. by eapply lookup_lt_Some.
Qed.

(** ** System allocations *)

Lemma sys_ele m : mem_wf m -> exists e, op_mem_ele m !! op_MEM_ELE_SYS = Some e.
Proof.
  intros Hwf. destruct (table_lookup m op_MEM_ELE_SYS 0 0 Hwf eq_refl) as (e & He & _). eauto.
Qed.

(** The counters of a father do not see system nodes, which have no father. *)
Lemma of_father_sys fid n (l : list op_mem_node) :
  fid <> 0 -> father n = 0 -> of_father fid (n :: l) = of_father fid l.
Proof. intros H0 Hn. unfold of_father. rewrite filter_cons_False; [done|congruence]. Qed.

(** Only a system node was added to or removed from the table and the system list. *)
Lemma wf_system m m' e' :
  mem_wf m -> op_mem_ele m' = <[op_MEM_ELE_SYS := e']> (op_mem_ele m) -> same_table m m' ->
  kt_wf (hash m') -> fathers m' = fathers m -> father_node_list m' = father_node_list m ->
  (forall x, x ∈ live m' -> x ∈ live m \/ (is_sys x /\ father x = 0)) ->
  (forall x, x ∈ live m' -> 0 < ptr x /\ 0 < size x /\ ptr x + size x <= W64) ->
  pairwise disj (free_nodes m ++ live m') ->
  (forall fid, fid <> 0 -> sumZ size (of_father fid (live m')) = sumZ size (of_father fid (live m))) ->
  list_ e' ≡ₚ filter is_sys (live m') ->
  sumZ size (filter (fun n => ~ is_sys n) (live m'))
    = sumZ size (filter (fun n => ~ is_sys n) (live m)) ->
  statistic m' = OpMemStatistic (pool_alloc (statistic m)) (pool_alloc_noused (statistic m))
    (pool_alloc_used (statistic m)) (u64 (sumZ size (filter is_sys (live m'))))
    (system_alloc_noused (statistic m)) (u64 (sumZ size (filter is_sys (live m')))) ->
  mem_wf m'.
Proof.
  intros Hwf Hel Ht Hk Hfa Hfl Hin Hrg Hdj Hof Hli Hns Hst.
  pose proof (free_nodes_sys m m' e' Hel) as Hfr.
  assert (same_fathers m m') as Hsf by (split; [done|by rewrite Hfa]).
  constructor; rewrite ?Hfr, ?Hst; simpl; try done.
  - rewrite Ht. apply (w_table _ Hwf).
  - intros i e x Hi He Hx. apply (pooled_transfer m); try done.
    destruct (lookup_replaced m m' _ e' i e Hel He) as [[-> _]|[_ He0]]; [lia|].
    by eapply (w_free _ Hwf).
  - intros x [Hx|?]%Hin; [|by left]. apply (w_live _ Hwf) in Hx as [?|(i & Hi & Hp)]; [by left|right].
    exists i. split; [done|]. by apply (pooled_transfer m).
  - intros e He. destruct (lookup_replaced m m' _ e' _ e Hel He) as [[_ ->]|[? _]]; [done|lia].
  - intros x [Hx|Hx]%elem_of_app; [|by apply Hrg]. apply (w_range _ Hwf). set_solver.
  - rewrite Hfa. apply (w_null _ Hwf).
  - intros fid f Hf. rewrite Hfa in Hf. destruct (w_father _ Hwf fid f Hf) as (H1 & H2 & H3).
    assert (fid <> 0) as H0 by (intros ->; by rewrite (w_null _ Hwf) in Hf).
    specialize (Hof fid H0). unfold of_father in *. rewrite filter_app, sumZ_app in *. split_and!; lia.
  - rewrite Hfa. apply (w_fele _ Hwf).
  - intros fid. rewrite Hfa, Hfl. apply (w_fids _ Hwf).
  - intros i e Hi He. destruct (lookup_replaced m m' _ e' i e Hel He) as [[-> _]|[_ He0]]; [lia|].
    by apply (w_cnt _ Hwf i).
  - apply (w_noused _ Hwf).
  - rewrite Hns. apply (w_used _ Hwf).
  - rewrite Hns. apply (w_pool _ Hwf).
Qed.

Lemma malloc_system_wf m p nd allocs sz :
  mem_wf m -> Z.of_nat (length (live m)) < kt_room -> OP_MEM_MAX_SIZE < sz ->
  block_fresh m p sz ->
  exists m', op_malloc_system (Some p :: Some nd :: allocs) sz m = (Some p, m') /\ mem_wf m' /\
    live m' ≡ₚ OpMemNode p sz 0 0 :: live m /\ free_nodes m' = free_nodes m.
Proof.
  intros Hwf Hroom Hsz Hbf. set (n := OpMemNode p sz 0 0). unfold OP_MEM_MAX_SIZE in Hsz.
  destruct (sys_ele m Hwf) as [e He]. pose proof Hbf as (Hb1 & Hb2 & _).
  assert (forall x, x ∈ free_nodes m ++ live m -> disj n x) as Hd
    by (intros x Hx; by apply (block_fresh_disj m p sz)).
  destruct (kt_insert_fresh (hash m) n (w_hash _ Hwf) Hroom) as [Hw Hlv].
  { intros x Hx Hp. destruct (w_range _ Hwf x) as (_ & ? & _); [set_solver|].
    specialize (Hd x ltac:(set_solver)). unfold disj in Hd. simpl in *. lia. }
  eexists. split; [reflexivity|]. set (m' := with_statistic _ _).
  change (live m' ≡ₚ n :: live m) in Hlv.
  set (e' := ele_with_list e (list_ e ++ [n])).
  assert (op_mem_ele m' = <[op_MEM_ELE_SYS := e']> (op_mem_ele m)) as Hel
    by (by apply (ele_lookup_alter m _ _ (fun e => ele_with_list e (list_ e ++ [n])))).
  assert (is_sys n) as Hs by (unfold is_sys, OP_MEM_MAX_SIZE; simpl; lia).
  split; [|split; [done|by apply (free_nodes_sys m m' e')]].
  apply (wf_system m m' e'); try done.
  - by apply (table_insert m m' op_MEM_ELE_SYS e e').
  - intros x. rewrite Hlv. intros [->|?]%elem_of_cons; [by right|by left].
  - intros x. rewrite Hlv. intros [->|?]%elem_of_cons; [simpl; lia|]. apply (w_range _ Hwf). set_solver.
  - assert (free_nodes m ++ live m' ≡ₚ n :: free_nodes m ++ live m) as -> by (rewrite Hlv; solve_Permutation).
    split; [done|]. apply (w_disj _ Hwf).
  - intros fid H0. unfold of_father. rewrite Hlv. fold (of_father fid (n :: live m)).
    by rewrite of_father_sys.
  - rewrite Hlv, filter_cons_True by done. simpl. rewrite (w_sys _ Hwf e He). solve_Permutation.
  - rewrite Hlv, filter_cons_False by naive_solver. done.
  - rewrite Hlv, filter_cons_True by done. simpl. unfold add_system.
    rewrite (w_sysused _ Hwf), (w_system _ Hwf), u64_add_l. f_equal; f_equal; lia.
Qed.

(** [list_del_init] removes the node it is given. *)
Lemma list_del_perm n (l : list op_mem_node) : n ∈ l -> l ≡ₚ n :: list_del n l.
Proof.
  induction l as [|x l IH]; [by intros ?%elem_of_nil|]. intros Hn. simpl.
  case_decide as Hx; [by subst|]. rewrite IH at 1; [solve_Permutation|]. set_solver.
Qed.

Definition give_back_sys p n m : op_mem_info T :=
  let m1 := with_hash m (snd (kt_delete (hash m) n)) in
  let m2 := upd_ele op_MEM_ELE_SYS (fun e => ele_with_list e (list_del n (list_ e))) m1 in
  let m3 := with_blocks m2 (filter (fun x => x <> p) (blocks m2)) in
  with_statistic m3 (add_system (- size n) (- size n) (statistic m3)).

Lemma give_back_sys_wf m n :
  mem_wf m -> n ∈ live m -> is_sys n ->
  mem_wf (give_back_sys (ptr n) n m) /\ live m ≡ₚ n :: live (give_back_sys (ptr n) n m) /\
  free_nodes (give_back_sys (ptr n) n m) = free_nodes m.
Proof.
  intros Hwf Hn Hs. set (m' := give_back_sys (ptr n) n m). destruct (sys_ele m Hwf) as [e He].
  destruct (kt_delete_present (hash m) n n (w_hash _ Hwf) Hn eq_refl) as [Hw Hlv].
  change (live m ≡ₚ n :: live m') in Hlv.
  set (e' := ele_with_list e (list_del n (list_ e))).
  assert (op_mem_ele m' = <[op_MEM_ELE_SYS := e']> (op_mem_ele m)) as Hel
    by (by apply (ele_lookup_alter m _ _ (fun e => ele_with_list e (list_del n (list_ e))))).
  split; [|split; [done|by apply (free_nodes_sys m m' e')]].
  assert (father n = 0) as Hf0.
  { destruct (w_live _ Hwf n Hn) as [[_ ?]|(i & Hi & e1 & f & He1 & Hsz & _)]; [done|].
    destruct (get_list_own m i e1 Hwf Hi He1) as [_ ?]. unfold is_sys in Hs. lia. }
  apply (wf_system m m' e'); try done.
  - by apply (table_insert m m' op_MEM_ELE_SYS e e').
  - intros x Hx. left. rewrite Hlv. by right.
  - intros x Hx. apply (w_range _ Hwf). rewrite Hlv. set_solver.
  - apply (pairwise_sublist disj _ (free_nodes m ++ live m)); [|apply (w_disj _ Hwf)].
    rewrite Hlv. apply submseteq_app; [done|]. by apply submseteq_cons.
  - intros fid H0. unfold of_father. rewrite Hlv. fold (of_father fid (n :: live m')).
    by rewrite of_father_sys.
  - pose proof (w_sys _ Hwf e He) as Hp. rewrite Hlv, filter_cons_True in Hp by done.
    rewrite (list_del_perm n (list_ e)) in Hp by (rewrite Hp; by left).
    by apply Permutation_cons_inv in Hp.
  - rewrite Hlv, filter_cons_False by naive_solver. done.
  - change (statistic m') with (add_system (- size n) (- size n) (statistic m)). unfold add_system.
    assert (sumZ size (filter is_sys (live m)) = size n + sumZ size (filter is_sys (live m'))) as Hsum
      by (rewrite Hlv, filter_cons_True by done; done).
    rewrite (w_sysused _ Hwf), (w_system _ Hwf), Hsum, u64_add_l. f_equal; f_equal; lia.
Qed.

(** ** The periodic check *)

(** The inner loop keeps the nodes of other fathers and counts the dropped ones. *)
Lemma drop_nodes_run fid l : forall e s c p q r,
  can_used_num e = u32 c -> pool_alloc s = u64 p -> pool_alloc_noused s = u64 q ->
  pool_alloc_used s = u64 r ->
  exists e', drop_nodes fid l e s =
    (filter (fun n => father n <> fid) l, e',
     OpMemStatistic (u64 (p - sumZ size (of_father fid l))) (u64 (q - sumZ size (of_father fid l)))
       (u64 r) (system_alloc s) (system_alloc_noused s) (system_alloc_used s)) /\
    can_used_num e' = u32 (c - Z.of_nat (length (of_father fid l))) /\
    ele_size e' = ele_size e /\ ele_num e' = ele_num e.
Proof.
  induction l as [|n l IH]; intros e s c p q r Hc Hp Hq Hr.
  - exists e. simpl. rewrite !Z.sub_0_r, <- Hc, <- Hp, <- Hq, <- Hr. by destruct s.
  - simpl. unfold of_father in *. rewrite !filter_cons. destruct (father n =? fid) eqn:E; btest; simpl.
    + rewrite (decide_False (P := father n <> fid)), decide_True by naive_solver.
      edestruct (IH (MemAllocEle (ele_size e) (ele_num e) (list_ e) (u32 (can_used_num e - 1))
        (u32 (all_num e - 1)) (op_malloc_num e) (op_free_num e))
        (add_pool (- size n) (- size n) 0 s) (c - 1) (p + - size n) (q + - size n) r)
        as (e' & -> & Hcu & Hs & Hn).
      { simpl. by rewrite Hc, u32_sub_l. } { simpl. by rewrite Hp, u64_add_l. }
      { simpl. by rewrite Hq, u64_add_l. } { simpl. rewrite Hr, u64_add_l. f_equal. lia. }
      exists e'. simpl. rewrite Hcu. split_and!; try done; [|f_equal; lia].
      f_equal. f_equal; f_equal; lia.
    + rewrite (decide_True (P := father n <> fid)), decide_False by done.
      destruct (IH e s c p q r Hc Hp Hq Hr) as (e' & -> & ?). exists e'. done.
Qed.

Lemma of_father_split fid (l : list op_mem_node) :
  l ≡ₚ of_father fid l ++ filter (fun n => father n <> fid) l.
Proof. unfold of_father. symmetry. apply filter_app_complement. Qed.

(** A father whose counter is zero has no node handed out. *)
Lemma unused_no_live m fid f :
  mem_wf m -> fathers m !! fid = Some f -> used_size f = 0 -> of_father fid (live m) = [].
Proof.
  intros Hwf Hf Hu. destruct (w_father _ Hwf fid f Hf) as (Hs & _). rewrite Hu in Hs.
  assert (forall y, y ∈ of_father fid (live m) -> 0 < size y) as Hpos.
  { intros y [_ Hy]%list_elem_of_filter. apply (w_range _ Hwf). set_solver. }
  destruct (of_father fid (live m)) as [|x l] eqn:E; [done|].
  pose proof (Hpos x ltac:(by left)).
  pose proof (sumZ_elem_le size (x :: l) x) as Hle. rewrite <- E in *.
  specialize (Hle ltac:(intros y Hy; specialize (Hpos y Hy); lia) ltac:(rewrite E; by left)). lia.
Qed.

(** All free nodes of a father lie on the list of its element size. *)
Lemma free_nodes_drop m m' i e e' fid f :
  mem_wf m -> fathers m !! fid = Some f -> father_ele f = i -> op_mem_ele m !! i = Some e ->
  op_mem_ele m' = <[i := e']> (op_mem_ele m) ->
  list_ e' = filter (fun n => father n <> fid) (list_ e) ->
  free_nodes m ≡ₚ of_father fid (list_ e) ++ free_nodes m' /\
  (forall x, x ∈ free_nodes m' -> father x <> fid).
Proof.
  intros Hwf Hf Hfe He Hel Hli. pose proof (w_fele _ Hwf fid f Hf) as Hi. rewrite Hfe in Hi. split.
  - pose proof (free_nodes_replaced m m' i e e' ltac:(lia) He Hel) as Hp.
    rewrite Hli, (of_father_split fid (list_ e)), (Permutation_app_comm (of_father _ _)), <- app_assoc in Hp at 1.
    by apply Permutation_app_inv_l in Hp.
  - intros x (j & e1 & Hj & He1 & Hx)%elem_of_free Hxf.
    destruct (lookup_replaced m m' i e' j e1 Hel He1) as [[-> ->]|[Hji He0]].
    + rewrite Hli in Hx. by apply list_elem_of_filter in Hx as [? _].
    + destruct (w_free _ Hwf j e1 x Hj He0 Hx) as (e2 & f2 & _ & _ & Hf2 & Hj2). simplify_eq.
Qed.

(** The pool with one father and its nodes, all of them free, removed. *)
Lemma wf_drop m m' i e e' fid f :
  mem_wf m -> fathers m !! fid = Some f -> father_ele f = i -> used_size f = 0 ->
  op_mem_ele m !! i = Some e -> op_mem_ele m' = <[i := e']> (op_mem_ele m) ->
  list_ e' = filter (fun n => father n <> fid) (list_ e) ->
  ele_size e' = ele_size e -> ele_num e' = ele_num e ->
  can_used_num e' = u32 (Z.of_nat (length (list_ e'))) ->
  hash m' = hash m -> fathers m' = delete fid (fathers m) ->
  father_node_list m' = filter (fun x => x <> fid) (father_node_list m) ->
  statistic m' = OpMemStatistic
    (u64 (sumZ size (free_nodes m) + sumZ size (filter (fun n => ~ is_sys n) (live m)) - sumZ size (of_father fid (list_ e))))
    (u64 (sumZ size (free_nodes m) - sumZ size (of_father fid (list_ e))))
    (pool_alloc_used (statistic m)) (system_alloc (statistic m))
    (system_alloc_noused (statistic m)) (system_alloc_used (statistic m)) ->
  mem_wf m' /\ live m' = live m /\ of_father fid (live m) = [] /\
  free_nodes m ≡ₚ of_father fid (free_nodes m) ++ free_nodes m'.
Proof.
  intros Hwf Hf Hfe Hu He Hel Hli Hsz Hnum Hc Hh Hfa Hfl Hst.
  pose proof (w_fele _ Hwf fid f Hf) as Hi. rewrite Hfe in Hi.
  assert (live m' = live m) as Hlv by (unfold live; by rewrite Hh).
  assert (fid <> 0) as H0 by (intros ->; by rewrite (w_null _ Hwf) in Hf).
  assert (of_father fid (live m) = []) as Hlf by (by eapply unused_no_live).
  destruct (free_nodes_drop m m' i e e' fid f Hwf Hf Hfe He Hel Hli) as [Hfr Hnf].
  assert (sumZ size (free_nodes m) = sumZ size (of_father fid (list_ e)) + sumZ size (free_nodes m')) as Hsum
    by (by rewrite Hfr, sumZ_app at 1).
  assert (of_father fid (free_nodes m) ≡ₚ of_father fid (list_ e)) as Hof.
  { unfold of_father at 1. rewrite Hfr, filter_app, filter_keeps_all, filter_keeps_none, app_nil_r; [done|done|].
    by intros x [? _]%list_elem_of_filter. }
  split; [|split_and!; [done|done|by rewrite Hof]].
  assert (forall x j, father x <> fid -> pooled m j x -> pooled m' j x) as Hpt.
  { intros x j Hx (e1 & f1 & He1 & Hs1 & Hf1 & Hj).
    assert (exists e2, op_mem_ele m' !! j = Some e2 /\ ele_size e2 = ele_size e1) as (e2 & He2 & Hs2)
      by (rewrite Hel; by eapply size_replaced).
    exists e2, f1. rewrite Hfa, lookup_delete_ne by congruence. split_and!; congruence. }
  assert (forall x, x ∈ live m -> father x <> fid) as Hxl.
  { intros x Hx Hxf. apply (not_elem_of_nil x). rewrite <- Hlf. by apply list_elem_of_filter. }
  constructor; rewrite ?Hlv, ?Hst; simpl.
  - rewrite Hh. apply (w_hash _ Hwf).
  - rewrite (table_insert m m' i e e' He Hel Hsz Hnum). apply (w_table _ Hwf).
  - intros j e1 x Hj He1 Hx. apply Hpt; [apply Hnf, elem_of_free; eauto|].
    destruct (lookup_replaced m m' i e' j e1 Hel He1) as [[-> ->]|[_ He0]]; [|by eapply (w_free _ Hwf)].
    rewrite Hli in Hx. apply list_elem_of_filter in Hx as [_ Hx]. by eapply (w_free _ Hwf).
  - intros x Hx. destruct (w_live _ Hwf x Hx) as [?|(j & Hj & Hp)]; [by left|right]. eauto.
  - intros e1 He1. destruct (lookup_replaced m m' i e' _ e1 Hel He1) as [[? _]|[_ He0]]; [lia|].
    by apply (w_sys _ Hwf).
  - intros x Hx. apply (w_range _ Hwf). rewrite Hfr. set_solver.
  - eapply pairwise_sublist; [apply _| |apply (w_disj _ Hwf)]. rewrite Hfr, <- app_assoc.
    by apply submseteq_inserts_l.
  - rewrite Hfa. apply lookup_delete_None. right. apply (w_null _ Hwf).
  - intros k g Hk. rewrite Hfa in Hk. apply lookup_delete_Some in Hk as [Hne Hk].
    destruct (w_father _ Hwf k g Hk) as (H1 & H2 & H3). split_and!; try done. rewrite <- H2.
    rewrite (of_father_nodes fid k (of_father fid (list_ e)) (free_nodes m' ++ live m) (free_nodes m ++ live m)).
    + by rewrite decide_False.
    + by intros x [? _]%list_elem_of_filter.
    + rewrite Hfr. by rewrite <- app_assoc.
  - intros k g Hk. rewrite Hfa in Hk. apply lookup_delete_Some in Hk as [Hne Hk]. by eapply (w_fele _ Hwf).
  - intros k. rewrite Hfl, Hfa, list_elem_of_filter, (w_fids _ Hwf), lookup_delete_is_Some. naive_solver.
  - intros j e1 Hj He1. destruct (lookup_replaced m m' i e' j e1 Hel He1) as [[-> ->]|[_ He0]]; [done|].
    by eapply (w_cnt _ Hwf).
  - f_equal. lia.
  - apply (w_used _ Hwf).
  - f_equal. lia.
  - apply (w_system _ Hwf).
  - apply (w_sysused _ Hwf).
Qed.

(** The check releases a father exactly when it may be freed and holds nothing. *)
Definition releasable (f : mem_father_node) : Prop :=
  father_type f <> OPMEM_CANNOT_FREE /\ used_size f = 0.

#[global] Instance releasable_dec f : Decision (releasable f).
Proof. unfold releasable. apply _. Defined.

Lemma release_father_keeps m fid :
  mem_wf m -> (forall f, fathers m !! fid = Some f -> ~ releasable f) -> release_father fid m = m.
Proof.
  intros Hwf Hno. unfold release_father. destruct (fathers m !! fid) as [f|] eqn:Ef; [|done].
  specialize (Hno f eq_refl). unfold releasable in Hno.
  destruct (w_father _ Hwf fid f Ef) as (Hu & _).
  pose proof (sum_of_father_nonneg m (live m) fid Hwf ltac:(set_solver)).
  bcase; [done|]. destruct Hno. lia.
Qed.

Lemma release_father_drops m fid f :
  mem_wf m -> fathers m !! fid = Some f -> releasable f ->
  mem_wf (release_father fid m) /\ live (release_father fid m) = live m /\
  free_nodes m ≡ₚ of_father fid (free_nodes m) ++ free_nodes (release_father fid m) /\
  fathers (release_father fid m) = delete fid (fathers m) /\
  father_node_list (release_father fid m) = filter (fun x => x <> fid) (father_node_list m) /\
  blocks (release_father fid m) = blocks m.
Proof.
  intros Hwf Ef [Hty Hu]. unfold release_father. rewrite Ef.
  rewrite (proj2 (Z.eqb_neq _ _) Hty), Hu. simpl.
  pose proof (w_fele _ Hwf fid f Ef) as Hi.
  destruct (op_mem_ele m !! father_ele f) as [e|] eqn:Ee.
  2: { apply lookup_ge_None in Ee. pose proof (f_equal length (w_table _ Hwf)) as Hl.
       rewrite length_fmap in Hl. simpl in Hl. unfold op_MEM_ELE_SYS in Hi. lia. }
  edestruct (drop_nodes_run fid (list_ e) e (statistic m)) as (e' & -> & Hcu & Hs & Hn).
  { apply (w_cnt _ Hwf (father_ele f)); [lia|done]. }
  { apply (w_pool _ Hwf). } { apply (w_noused _ Hwf). } { apply (w_used _ Hwf). }
  set (l := filter _ (list_ e)) in *. set (m' := with_fathers _ _ _).
  assert (op_mem_ele m' = <[father_ele f := ele_with_list e' l]> (op_mem_ele m)) as Hel
    by (by apply (ele_lookup_alter m _ e (fun _ => ele_with_list e' l))).
  destruct (wf_drop m m' (father_ele f) e (ele_with_list e' l) fid f) as (Hw & Hlv & _ & Hfr); try done.
  - simpl. rewrite Hcu. f_equal.
    pose proof (Permutation_length (of_father_split fid (list_ e))) as Hlen.
    rewrite length_app in Hlen. fold l in Hlen. lia.
  - unfold m'. simpl. by rewrite <- (w_used _ Hwf).
Qed.

Lemma release_father_wf m fid :
  mem_wf m -> mem_wf (release_father fid m) /\ live (release_father fid m) = live m /\
    blocks (release_father fid m) = blocks m /\
    (forall k, k <> fid -> fathers (release_father fid m) !! k = fathers m !! k) /\
    (forall f, fathers (release_father fid m) !! fid = Some f ->
       fathers m !! fid = Some f /\ ~ releasable f).
Proof.
  intros Hwf.
  destruct (fathers m !! fid) as [f|] eqn:Ef; [destruct (decide (releasable f)) as [Hr|Hr]|].
  - destruct (release_father_drops m fid f Hwf Ef Hr) as (H1 & H2 & _ & H4 & _ & H6).
    split_and!; try done.
    + intros k Hk. by rewrite H4, lookup_delete_ne.
    + intros g Hg. by rewrite H4, lookup_delete_eq in Hg.
  - rewrite release_father_keeps by (done || naive_solver congruence). naive_solver congruence.
  - rewrite release_father_keeps by (done || naive_solver congruence). naive_solver congruence.
Qed.

(** *** The whole check *)

Lemma release_fold_wf (fids : list Z) : forall m,
  mem_wf m ->
  let m' := foldl (fun m fid => release_father fid m) m fids in
  mem_wf m' /\ live m' = live m /\ blocks m' = blocks m /\
  (forall k, k ∉ fids -> fathers m' !! k = fathers m !! k) /\
  (forall k f, k ∈ fids -> fathers m' !! k = Some f -> fathers m !! k = Some f /\ ~ releasable f).
Proof.
  induction fids as [|fid fids IH]; intros m Hwf; simpl; [set_solver|].
  destruct (release_father_wf m fid Hwf) as (Hw1 & Hl1 & Hb1 & Hk1 & Hf1).
  destruct (IH _ Hw1) as (Hw2 & Hl2 & Hb2 & Hk2 & Hf2). simpl in *.
  split_and!; try congruence.
  - intros k [Hk Hn]%not_elem_of_cons. rewrite Hk2 by done. by apply Hk1.
  - intros k f Hk Hf. destruct (decide (k ∈ fids)) as [Hin|Hout].
    + destruct (Hf2 k f Hin Hf) as [Hm Hr]. destruct (decide (k = fid)) as [->|Hne].
      * by apply Hf1.
      * by rewrite <- Hk1.
    + apply elem_of_cons in Hk as [->|?]; [|done]. rewrite Hk2 in Hf by done. by apply Hf1.
Qed.
End Refill.
