(* ===== verification/OpMemSafety.v ===== *)
(** * The memory pool: what its operations return, and every state it can reach

    Built on the preservation lemmas of OpMemSpec.v and OpMemRefill.v: the behaviour of
    [op_malloc], [op_calloc], [op_realloc], [op_free] and [op_mem_release_check] on every branch,
    a step relation for the histories of the pool, and its instance on the table of
    opbox/hash.c. *)

From S2P Require Import Prelude KeyTable Hash HashSpec OpMem OpMemSpec OpMemRefill.
From stdpp Require Import base tactics numbers list gmap.
From Stdlib Require Import ZArith Lia.
Open Scope Z_scope.
Import OpHash OpMem.

Section Operations.
Context {T : Type} `{!KeyTable T ptr, !KeyTableLaws T ptr}.
Implicit Types (m : op_mem_info T) (n : op_mem_node).

(** What the C allocator must return for a request of [sz] bytes: nothing when a node is
    waiting on the element list of that size. *)
Definition alloc_granted m (sz : Z) (allocs : list (option Z)) : Prop :=
  if OP_MEM_MAX_SIZE <? sz then
    exists p nd rest, allocs = Some p :: Some nd :: rest /\ block_fresh m p sz
  else forall i e, op_mem_get_list (op_mem_ele m) sz = Some i -> op_mem_ele m !! i = Some e ->
    list_ e = [] -> refill_granted m e allocs.

(** No memory for a request of [sz] bytes: the C allocator refuses, and no node waits on the
    element list of that size. *)
Definition alloc_refused m (sz : Z) (allocs : list (option Z)) : Prop :=
  fst (next_alloc allocs) = None /\
  (sz <= OP_MEM_MAX_SIZE -> forall i e, op_mem_get_list (op_mem_ele m) sz = Some i ->
     op_mem_ele m !! i = Some e -> list_ e = []).

(** *** op_malloc *)

(** A request that is refused changes nothing. *)
Lemma malloc_refused m allocs sz : alloc_refused m sz allocs -> op_malloc allocs sz (Some m) = (None, Some m).
Proof.
  intros [Ha Hl]. unfold op_malloc, op_malloc_system, new_father. destruct (next_alloc allocs) as [a r].
  simpl in Ha. subst a. bcase; [done|]. destruct (op_mem_get_list _ _) as [i|] eqn:Eg; [|done].
  destruct (op_mem_ele m !! i) as [e|] eqn:Ee; [|done]. by rewrite (Hl ltac:(lia) i e eq_refl Ee).
Qed.

Lemma malloc_ok m allocs sz :
  mem_wf m -> Z.of_nat (length (live m)) < kt_room -> alloc_granted m sz allocs ->
  exists n m', op_malloc allocs sz (Some m) = (Some (ptr n), Some m') /\ mem_wf m' /\
    sz <= size n /\ live m' ≡ₚ n :: live m.
Proof.
  intros Hwf Hroom Hg. unfold op_malloc, alloc_granted in *.
  destruct (OP_MEM_MAX_SIZE <? sz) eqn:Esz; btest.
  - destruct Hg as (p & nd & rest & -> & Hbf).
    destruct (malloc_system_wf m p nd rest sz Hwf Hroom Esz Hbf) as (m' & -> & Hw & Hlv & _).
    exists (OpMemNode p sz 0 0), m'. simpl. by split_and!.
  - destruct (get_list_ok m sz Hwf Esz) as (i & e & Hgl & Hi & He & Hse & Hrest).
    rewrite Hgl, He. specialize (Hg i e Hgl He).
    assert (exists al m1 e1 n r, (match list_ e with
        | [] => new_father i OPMEM_CAN_FREE e allocs m | _ => (true, allocs, m) end) = (true, al, m1) /\
        mem_wf m1 /\ live m1 = live m /\ op_mem_ele m1 !! i = Some e1 /\ list_ e1 = n :: r /\
        ele_size e1 = ele_size e) as (al & m1 & e1 & n & r & -> & Hw1 & Hl1 & He1 & Hli & Hs1).
    { destruct (list_ e) as [|n r] eqn:El; [|by exists allocs, m, e, n, r].
      destruct (new_father_wf m i OPMEM_CAN_FREE e e allocs Hwf Hi He eq_refl eq_refl (Hg eq_refl))
        as (al & m1 & fid & blk & -> & Hw1 & Hl1 & _ & e1 & He1 & Hli & Hs1 & _).
      destruct (Z.to_nat (ele_num e)) as [|k] eqn:Ek; [lia|].
      rewrite El in Hli. simpl in Hli. eexists al, m1, e1, _, _. split_and!; try done. exact Hli. }
    simpl. rewrite He1. simpl. rewrite Hli. simpl.
    destruct (take_node_wf m1 i e1 n r Hw1 ltac:(by rewrite Hl1) Hi He1 Hli) as (Hw & Hlv & _).
    destruct (free_node_size m1 i e1 n Hw1 ltac:(lia) He1 ltac:(rewrite Hli; by left)) as (_ & Hsz & _).
    exists n, (take_node i n m1). split_and!; try done; [lia|by rewrite <- Hl1].
Qed.

Lemma live_disj m n r : mem_wf m -> live m ≡ₚ n :: r -> forall x, x ∈ r -> disj n x.
Proof.
  intros Hwf Hl. pose proof (w_disj _ Hwf) as Hd. apply pairwise_app in Hd as (_ & Hd & _).
  rewrite Hl in Hd. by destruct Hd.
Qed.

(** The bytes of memory are not touched by the bookkeeping. *)
Lemma cut_block_bytes ei fid base esize k : forall i allocs m,
  bytes (snd (cut_block ei fid base esize i k allocs m)) = bytes m.
Proof.
  induction k as [|k IH]; intros i allocs m; simpl; [done|].
  destruct allocs as [|[a|] r]; simpl; try done. by rewrite IH.
Qed.

Lemma malloc_bytes m m' allocs sz r :
  op_malloc allocs sz (Some m) = (r, Some m') -> bytes m' = bytes m.
Proof.
  unfold op_malloc. bcase.
  - unfold op_malloc_system. destruct allocs as [|[?|] [|[?|] ?]]; simpl; intros [= <- <-]; done.
  - destruct (op_mem_get_list _ _) as [i|]; [|by intros [= <- <-]].
    destruct (op_mem_ele m !! i) as [e|]; [|by intros [= <- <-]].
    assert (forall x, (match list_ e with
        | [] => new_father i OPMEM_CAN_FREE e allocs m | _ => (true, allocs, m) end) = x ->
        bytes (snd x) = bytes m) as Hx.
    { intros x <-. destruct (list_ e); [|done]. unfold new_father.
      destruct allocs as [|[f|] [|[b|] ?]]; simpl; try done.
      match goal with |- context [cut_block ?a ?b ?c ?d ?i ?k ?al ?mm] =>
        pose proof (cut_block_bytes a b c d k i al mm) as Hc;
        destruct (cut_block a b c d i k al mm) as [[[] ?] ?] end; done. }
    destruct (match list_ e with [] => _ | _ => _ end) as [[ok al] m1].
    specialize (Hx _ eq_refl). simpl in Hx. destruct ok; simpl; [|by intros [= <- <-]].
    destruct (_ ≫= _) as [nd|]; intros [= <- <-]; done.
Qed.

Lemma wf_with_bytes m bs : mem_wf m -> mem_wf (with_bytes m bs).
Proof. intros Hwf. destruct Hwf. by constructor. Qed.

(** *** op_free *)

Lemma free_ok m p :
  mem_wf m ->
  exists m', op_free p (Some m) = Some m' /\ mem_wf m' /\
    ((exists n, n ∈ live m /\ ptr n = p /\ live m ≡ₚ n :: live m') \/
     ((forall n, n ∈ live m -> ptr n <> p) /\ live m' = live m /\
      free_nodes m' = free_nodes m /\ statistic m' = statistic m)).
Proof.
  intros Hwf. unfold op_free.
  destruct (kt_retrieve_law (hash m) (key_node p) (w_hash _ Hwf)) as (Hh & Hit & Hr).
  destruct (kt_retrieve (hash m) (key_node p)) as [[n|] h]; simpl in *.
  2: { eexists. split; [done|]. split; [by apply wf_with_hash|]. right.
       split_and!; try done. }
  destruct Hr as [Hn Hp]. pose proof (wf_with_hash m h Hwf Hh Hit) as Hwf0.
  assert (live (with_hash m h) = live m) as Hl0 by done.
  assert (n ∈ live (with_hash m h)) as Hn0 by (by rewrite Hl0).
  destruct (OP_MEM_MAX_SIZE <? size n) eqn:Es; btest.
  - destruct (give_back_sys_wf (with_hash m h) n Hwf0 Hn0 Es) as (Hw & Hlv & _).
    rewrite <- Hp. eexists. split; [reflexivity|]. split; [exact Hw|]. left. exists n.
    by rewrite <- Hl0 at 2.
  - destruct (live_pooled_ele (with_hash m h) n Hwf0 Hn0) as (i & e & Hi & He & _ & Hpo & Hgl).
    { unfold is_sys. lia. }
    simpl in Hgl. rewrite Hgl.
    destruct (give_back_wf (with_hash m h) i e n Hwf0 Hn0) as (Hw & Hlv & _); try done.
    { unfold is_sys. lia. }
    eexists. split; [reflexivity|]. split; [exact Hw|]. left. exists n. by rewrite <- Hl0 at 2.
Qed.

(** *** op_realloc *)

Lemma realloc_no_block allocs p sz (self : option (op_mem_info T)) :
  fst (op_realloc allocs p sz self) = RReturn None \/ fst (op_realloc allocs p sz self) = RFault.
Proof.
  destruct self as [m|]; [|by left]. unfold op_realloc.
  destruct (kt_retrieve _ _) as [[x|] h]; [|by left].
  destruct (op_calloc _ _ _ _) as [[q|] m2]; by auto.
Qed.

(** *** opmem_init *)

(** The allocations of the loop over the element sizes all succeed. *)
Fixpoint init_granted (i : nat) (eles : list (Z * Z)) (allocs : list (option Z)) m : Prop :=
  match eles with
  | [] => True
  | (s, k) :: r =>
      if (s =? 0) || (k =? 0) then init_granted (S i) r allocs m
      else refill_granted m (empty_ele (s, k)) allocs /\
           let '(_, allocs', m1) := new_father i OPMEM_CANNOT_FREE (empty_ele (s, k)) allocs m in
           init_granted (S i) r allocs' m1
  end.

Lemma init_eles_wf eles : forall i allocs m,
  mem_wf m -> (0 < i)%nat -> drop i ele_table = eles -> init_granted i eles allocs m ->
  exists allocs' m', init_eles i eles allocs m = (true, allocs', m') /\ mem_wf m' /\ live m' = live m.
Proof.
  induction eles as [|[s k] eles IH]; intros i allocs m Hwf Hi Hd Hg; simpl in *; [by eauto|].
  assert (ele_table !! i = Some (s, k)) as Ht
    by (rewrite <- (Nat.add_0_r i), <- lookup_drop, Hd; done).
  assert (drop (S i) ele_table = eles) as Hd'
    by (rewrite <- Nat.add_1_r, <- drop_drop, Hd; done).
  destruct ((s =? 0) || (k =? 0)) eqn:Ez; [apply IH; (done || lia)|]. btest.
  destruct Hg as [Hr Hg].
  destruct (table_lookup m i s k Hwf Ht) as (e & He & <- & <-).
  assert (i < op_MEM_ELE_SYS)%nat.
  { pose proof (lookup_lt_Some _ _ _ Ht) as Hlt. simpl in Hlt. unfold op_MEM_ELE_SYS.
    destruct (decide (i = 15%nat)) as [->|]; [simpl in Ht; injection Ht as ? ?; lia|lia]. }
  destruct (new_father_wf m i OPMEM_CANNOT_FREE e (empty_ele (ele_size e, ele_num e)) allocs)
    as (al & m1 & fid & blk & Heq & Hw1 & Hl1 & _); try done.
  rewrite Heq in *. destruct (IH (S i) al m1) as (al' & m' & -> & ? & ?); try done; [lia|].
  exists al', m'. split_and!; try done. congruence.
Qed.

(** The state before the loop. *)
Definition init_state (h : T) (bs : Z -> Z) : op_mem_info T :=
  OpMemInfo h (OpMemStatistic 0 0 0 0 0 0) [] ∅ (empty_ele <$> ele_table) bs [].

Lemma init_state_wf h bs : kt_wf h -> kt_items h = [] -> mem_wf (init_state h bs).
Proof.
  intros Hh Hit. assert (live (init_state h bs) = []) as Hl by done.
  assert (free_nodes (init_state h bs) = []) as Hf by done.
  constructor; rewrite ?Hl, ?Hf; try done.
  - intros i e x _ He Hx. exfalso. simpl in He. apply list_elem_of_lookup_2 in He.
    repeat (apply elem_of_cons in He as [->|He]; [by apply elem_of_nil in Hx|]).
    by apply elem_of_nil in He.
  - intros x Hx. by apply elem_of_nil in Hx.
  - intros e He. simpl in He. injection He as <-. done.
  - intros x Hx. by apply elem_of_nil in Hx.
  - intros fid. simpl. rewrite lookup_empty. split; [by intros ?%elem_of_nil|by intros []].
  - intros i e _ He. simpl in He. apply list_elem_of_lookup_2 in He.
    repeat (apply elem_of_cons in He as [->|He]; [done|]). by apply elem_of_nil in He.
Qed.

Lemma init_ok a allocs h bs :
  kt_wf h -> kt_items h = [] -> init_granted 1 (drop 1 ele_table) allocs (init_state h bs) ->
  exists m, opmem_init (Some a :: allocs) (Some h) bs = Some m /\ mem_wf m /\ live m = [].
Proof.
  intros Hh Hit Hg. destruct (init_eles_wf (drop 1 ele_table) 1 allocs (init_state h bs))
    as (al & m & Heq & Hw & Hl); try done; [by apply init_state_wf|lia|].
  exists m. unfold opmem_init. change (OP_MEM_ELE_NO + 1)%nat with 1%nat.
  cbn [next_alloc]. fold (init_state h bs). rewrite Heq. split_and!; try done. by rewrite Hl.
Qed.

(** *** Histories of the pool *)

Inductive pool_event :=
| EMalloc (sz p : Z)
| EFree (p : Z)
| ECheck.

(** One call. A failed allocation ends a history: see [malloc_failure_dangles]. *)
Inductive pool_step : op_mem_info T -> pool_event -> op_mem_info T -> Prop :=
| step_malloc m sz allocs p m' :
    alloc_granted m sz allocs -> Z.of_nat (length (live m)) < kt_room ->
    op_malloc allocs sz (Some m) = (Some p, Some m') -> pool_step m (EMalloc sz p) m'
| step_free m p m' : op_free p (Some m) = Some m' -> pool_step m (EFree p) m'
| step_check m : pool_step m ECheck (op_mem_release_check m).

Inductive pool_run : op_mem_info T -> list pool_event -> op_mem_info T -> Prop :=
| run_nil m : pool_run m [] m
| run_cons m ev m1 evs m2 : pool_step m ev m1 -> pool_run m1 evs m2 -> pool_run m (ev :: evs) m2.

Lemma step_wf m ev m' : mem_wf m -> pool_step m ev m' -> mem_wf m'.
Proof.
  intros Hwf Hs. destruct Hs as [m sz allocs p m' Hg Hr Hm|m p m' Hf|m].
  - destruct (malloc_ok m allocs sz Hwf Hr Hg) as (n & m1 & Heq & Hw & _). congruence.
  - destruct (free_ok m p Hwf) as (m1 & Heq & Hw & _). congruence.
  - by apply release_fold_wf.
Qed.

Lemma run_wf m evs m' : mem_wf m -> pool_run m evs m' -> mem_wf m'.
Proof. intros Hwf Hr. induction Hr; eauto using step_wf. Qed.

(** A father that must stay survives the whole check. *)
Lemma release_fold_keeps (fids : list Z) fid f : forall m,
  mem_wf m -> fathers m !! fid = Some f -> ~ releasable f ->
  fathers (foldl (fun m fid => release_father fid m) m fids) !! fid = Some f.
Proof.
  induction fids as [|k fids IH]; intros m Hwf Hf Hr; simpl; [done|].
  destruct (release_father_wf m k Hwf) as (Hw & _ & _ & Hk & _). apply IH; try done.
  destruct (decide (fid = k)) as [->|Hne]; [|by rewrite Hk].
  by rewrite release_father_keeps by (done || naive_solver congruence).
Qed.

(** *** The abstract pool: a map from addresses to sizes *)

Definition live_map m : gmap Z Z := list_to_map ((fun n => (ptr n, size n)) <$> live m).

Lemma live_map_lookup m p s :
  mem_wf m -> live_map m !! p = Some s <-> exists n, n ∈ live m /\ ptr n = p /\ size n = s.
Proof.
  intros Hwf. unfold live_map. rewrite <- elem_of_list_to_map.
  - rewrite list_elem_of_fmap. naive_solver.
  - rewrite <- list_fmap_compose. apply (kt_nodup (hash m) (w_hash _ Hwf)).
Qed.

Lemma live_map_keys m : mem_wf m -> NoDup (((fun n => (ptr n, size n)) <$> live m).*1).
Proof. intros Hwf. rewrite <- list_fmap_compose. apply (kt_nodup (hash m) (w_hash _ Hwf)). Qed.

Lemma live_map_cons m m' n :
  mem_wf m -> live m ≡ₚ n :: live m' ->
  live_map m = <[ptr n := size n]> (live_map m') /\ live_map m' !! ptr n = None.
Proof.
  intros Hwf Hl. pose proof (live_map_keys m Hwf) as Hnd. split.
  - unfold live_map. rewrite (list_to_map_proper _ ((fun n => (ptr n, size n)) <$> (n :: live m')));
      [done|done|by rewrite Hl].
  - rewrite Hl in Hnd. simpl in Hnd. apply NoDup_cons in Hnd as [Hn _].
    by apply not_elem_of_list_to_map_1.
Qed.

(** The contract of the pool: what a caller may rely on. *)
Inductive spec_step : gmap Z Z -> pool_event -> gmap Z Z -> Prop :=
| spec_malloc (l : gmap Z Z) sz p s :
    sz <= s -> 0 < p -> p + s <= W64 -> l !! p = None ->
    (forall q t, l !! q = Some t -> p + s <= q \/ q + t <= p) ->
    spec_step l (EMalloc sz p) (<[p := s]> l)
| spec_free l p : spec_step l (EFree p) (delete p l)
| spec_check l : spec_step l ECheck l.

Inductive spec_run : gmap Z Z -> list pool_event -> gmap Z Z -> Prop :=
| spec_nil l : spec_run l [] l
| spec_cons l ev l1 evs l2 : spec_step l ev l1 -> spec_run l1 evs l2 -> spec_run l (ev :: evs) l2.

Lemma step_refines_spec m ev m' :
  mem_wf m -> pool_step m ev m' -> spec_step (live_map m) ev (live_map m').
Proof.
  intros Hwf Hs. destruct Hs as [m sz allocs p m' Hg Hr Hm|m p m' Hf|m].
  - destruct (malloc_ok m allocs sz Hwf Hr Hg) as (n & m1 & Heq & Hw & Hsz & Hlv).
    rewrite Heq in Hm. injection Hm as <- <-.
    destruct (live_map_cons m1 m n Hw Hlv) as [-> Hno].
    destruct (w_range _ Hw n) as (? & ? & ?); [rewrite Hlv; set_solver|].
    constructor; try done. intros q t (x & Hx & <- & <-)%(live_map_lookup m q t Hwf).
    apply (live_disj m1 n _ Hw Hlv x Hx).
  - destruct (free_ok m p Hwf) as (m1 & Heq & Hw & Hc). rewrite Heq in Hf. injection Hf as <-.
    destruct Hc as [(n & Hn & <- & Hlv)|(Hno & Hlv & _)].
    + destruct (live_map_cons m m1 n Hwf Hlv) as [-> Hno].
      rewrite <- (delete_insert_id (live_map m1) (ptr n) (size n) Hno) at 2. constructor.
    + assert (live_map m1 = live_map m) as -> by (unfold live_map; by rewrite Hlv).
      rewrite <- (delete_id (live_map m) p) at 2; [constructor|].
      apply eq_None_not_Some. intros [s (x & Hx & Hp & _)%(live_map_lookup m p s Hwf)].
      by apply (Hno x).
  - destruct (release_fold_wf (father_node_list m) m Hwf) as (_ & Hl & _).
    unfold live_map at 2, op_mem_release_check. rewrite Hl. constructor.
Qed.

Lemma run_refines_spec m evs m' :
  mem_wf m -> pool_run m evs m' -> spec_run (live_map m) evs (live_map m').
Proof.
  intros Hwf Hr. induction Hr as [|m ev m1 evs m2 Hs _ IH]; [constructor|].
  econstructor; [by apply step_refines_spec|]. apply IH. by eapply step_wf.
Qed.
End Operations.

(** ** The table of the program *)

(** [op_mem_hash] and [op_mem_compare] agree with the address as key. *)
#[export] Instance op_mem_key :
  HashKey (fun n => op_mem_hash (Some n)) (fun x y => op_mem_compare (Some x) (Some y)) ptr.
Proof.
  constructor.
  - intros x y. simpl. bcase; naive_solver.
  - intros x y E. simpl. by rewrite E.
  - intros x. simpl. change 4294967295 with (Z.ones 32). rewrite Z.land_ones by lia.
    pose proof (Z.mod_pos_bound (u64 (ptr x)) (2 ^ 32)). lia.
Qed.

(** ** Concrete requests to the C allocator *)

Section Decidable.
Context {T : Type} `{!KeyTable T ptr}.
Implicit Types m : op_mem_info T.

#[global] Instance block_fresh_dec m base len : Decision (block_fresh m base len).
Proof.
  refine (cast_if (decide (0 < base /\ base + len <= W64 /\
    Forall (fun x => ptr x + size x <= base \/ base + len <= ptr x) (free_nodes m ++ live m))));
    unfold block_fresh; rewrite Forall_forall in *; done.
Defined.

#[global] Instance granted_dec n allocs : Decision (granted n allocs).
Proof.
  refine (cast_if (decide ((n <= length allocs)%nat /\ Forall is_Some (take n allocs))));
    unfold granted; rewrite Forall_forall in *; done.
Defined.

#[global] Instance refill_granted_dec m e allocs : Decision (refill_granted m e allocs).
Proof.
  unfold refill_granted.
  destruct allocs as [|[fid|] [|[blk|] rest]]; try (right; by intros (?&?&?&?&_)).
  refine (cast_if (decide (fid <> 0 /\ fathers m !! fid = None /\
    block_fresh m blk (ele_size e * ele_num e) /\ granted (Z.to_nat (ele_num e)) rest)));
    [by exists fid, blk, rest|].
  intros (?&?&?&?&?). simplify_eq. done.
Defined.

#[global] Instance init_granted_dec eles : forall i allocs m, Decision (init_granted i eles allocs m).
Proof.
  induction eles as [|[s k] eles IH]; intros i allocs m; simpl; [by left|].
  destruct ((s =? 0) || (k =? 0)); [apply IH|].
  destruct (new_father i OPMEM_CANNOT_FREE (empty_ele (s, k)) allocs m) as [[? ?] ?]. apply _.
Defined.
End Decidable.

(** An allocator that hands out increasing addresses; node structures are not looked at. *)
Fixpoint bump (next : Z) (tab : list (Z * Z)) : list (option Z) :=
  match tab with
  | [] => []
  | (s, k) :: r =>
      if s =? 0 then bump next r
      else Some next :: Some (next + 64) :: replicate (Z.to_nat k) (Some 1) ++ bump (next + 64 + s * k) r
  end.

Notation pool_table := (op_hash_st op_mem_node).

(** The empty table of [op_hash_new]. *)
Definition pool_hash : option pool_table :=
  op_hash_new (Some (fun n => op_mem_hash (Some n))) (Some (fun x y => op_mem_compare (Some x) (Some y))) true true.

#[export] Instance pool_kt : KeyTable pool_table ptr := op_hash_key_table ptr serving.
#[export] Instance pool_ktl : KeyTableLaws pool_table ptr :=
  op_hash_key_table_laws ptr serving serving_ptrdiff serving_small.

Lemma bump_granted :
  forall h, pool_hash = Some h ->
  kt_wf h /\ kt_items h = [] /\
  init_granted 1 (drop 1 ele_table) (bump 4096 ele_table) (init_state h (fun _ => 0)).
Proof.
  intros h Hh.
  destruct (wf_new 2048 1024 ptr eq_refl ltac:(lia) _ _ h op_mem_key Hh) as (Hw & Hn & _).
  split_and!; [done|done|]. injection Hh as <-.
  apply (bool_decide_eq_true_1 _). vm_compute. reflexivity.
Qed.

(** A history starts from [opmem_init] with an empty table and a C allocator that serves it. *)
Definition pool_reached {T} `{!KeyTable T ptr} (evs : list pool_event) (m : op_mem_info T) : Prop :=
  exists a allocs h bs m0, kt_wf h /\ kt_items h = [] /\
    init_granted 1 (drop 1 ele_table) allocs (init_state h bs) /\
    opmem_init (Some a :: allocs) (Some h) bs = Some m0 /\ pool_run m0 evs m.

Lemma pool_reached_wf {T} `{!KeyTable T ptr, !KeyTableLaws T ptr} evs (m : op_mem_info T) :
  pool_reached evs m -> mem_wf m /\ spec_run ∅ evs (live_map m).
Proof.
  intros (a & allocs & h & bs & m0 & Hh & Hit & Hg & Hinit & Hrun).
  destruct (init_ok a allocs h bs Hh Hit Hg) as (m1 & Hinit' & Hw & Hl).
  rewrite Hinit in Hinit'. injection Hinit' as <-. split; [by eapply run_wf|].
  assert (live_map m0 = ∅) as <- by (unfold live_map; by rewrite Hl). by apply run_refines_spec.
Qed.

(** A request that finds a node waiting asks nothing of the C allocator. *)
Definition waiting {T} (m : op_mem_info T) (sz : Z) : bool :=
  negb (OP_MEM_MAX_SIZE <? sz) &&
  match op_mem_get_list (op_mem_ele m) sz ≫= fun i => op_mem_ele m !! i with
  | Some e => match list_ e with [] => false | _ => true end
  | None => false
  end.

Lemma waiting_granted {T} `{!KeyTable T ptr} (m : op_mem_info T) sz :
  waiting m sz = true -> alloc_granted m sz [].
Proof.
  unfold waiting, alloc_granted. intros Hw. apply andb_true_iff in Hw as [Hs Hw]. btest.
  destruct (OP_MEM_MAX_SIZE <? sz) eqn:E; btest; [lia|].
  intros i e Hg He Hl. rewrite Hg in Hw. simpl in Hw. by rewrite He, Hl in Hw.
Qed.

(** The pool of the program right after [opmem_init]. *)
Definition demo_init : option (op_mem_info pool_table) :=
  opmem_init (Some 64 :: bump 4096 ele_table) pool_hash (fun _ => 0).

Lemma demo_reached :
  exists m, demo_init = Some m /\ pool_reached [] m /\ waiting m 100 = true /\ live m = [] /\
    waiting m 228 = true /\ waiting m 0 = true.
Proof.
  destruct pool_hash as [h|] eqn:Eh; [|done].
  destruct (bump_granted h Eh) as (Hw & Hn & Hg).
  destruct (init_ok 64 (bump 4096 ele_table) h (fun _ => 0) Hw Hn Hg) as (m & Hm & _ & Hl).
  exists m. assert (demo_init = Some m) as Hd by (unfold demo_init; by rewrite Eh).
  assert ((fun m => waiting m 100 && waiting m 228 && waiting m 0) <$> demo_init = Some true) as Hwt by (vm_compute; reflexivity).
  rewrite Hd in Hwt. simpl in Hwt. injection Hwt as Hwt. btest.
  split; [exact Hd|]. split; [|split_and!; assumption].
  exists 64, (bump 4096 ele_table), h, (fun _ => 0), m.
  split_and!; [exact Hw|exact Hn|exact Hg|exact Hm|constructor].
Qed.

(** A block handed out by the demonstration pool, for the witnesses below. *)
Lemma demo_malloc sz :
  (forall m, demo_init = Some m -> waiting m sz = true) ->
  exists (m0 m : op_mem_info pool_table) n, demo_init = Some m0 /\ mem_wf m0 /\
    op_malloc [] sz (Some m0) = (Some (ptr n), Some m) /\ mem_wf m /\ live m ≡ₚ [n].
Proof.
  intros Hwt. destruct demo_reached as (m0 & Hd & Hr & _ & Hl & _).
  destruct (pool_reached_wf _ _ Hr) as [Hwf _].
  destruct (malloc_ok m0 [] sz Hwf ltac:(by rewrite Hl) (waiting_granted m0 sz (Hwt m0 Hd)))
    as (n & m1 & Hm & Hw1 & _ & Hl1).
  rewrite Hl in Hl1. exists m0, m1, n. by split_and!.
Qed.

(** ** Properties *)

(** C2. The pool implements its contract: over any history of allocations, releases and periodic
    checks that starts at [opmem_init], whose C allocations succeed, an allocation returns an
    address range of at least the requested size, inside the address space and disjoint from
    every range handed out and not yet released; a release removes exactly the range it names,
    and nothing when it names none; the periodic check removes none. *)
Theorem opmem_refines_spec {T} `{!KeyTable T ptr, !KeyTableLaws T ptr} evs (m : op_mem_info T) :
  pool_reached evs m -> spec_run ∅ evs (live_map m).
Proof. intros Hr. by apply pool_reached_wf. Qed.

Lemma opmem_refines_spec_witness :
  exists (m : op_mem_info pool_table) p,
    pool_reached [EMalloc 100 p; EFree p; EFree p; ECheck] m /\
    spec_run ∅ [EMalloc 100 p; EFree p; EFree p; ECheck] (live_map m).
Proof.
  destruct demo_reached as (m0 & _ & Hr & Hw & Hl & _).
  destruct (pool_reached_wf _ _ Hr) as [Hwf _].
  destruct (malloc_ok m0 [] 100 Hwf ltac:(by rewrite Hl) (waiting_granted m0 100 Hw))
    as (n & m1 & Hm & Hw1 & _).
  destruct (free_ok m1 (ptr n) Hw1) as (m2 & Hm2 & Hw2 & _).
  destruct (free_ok m2 (ptr n) Hw2) as (m3 & Hm3 & Hw3 & _).
  exists (op_mem_release_check m3), (ptr n).
  assert (pool_reached [EMalloc 100 (ptr n); EFree (ptr n); EFree (ptr n); ECheck] (op_mem_release_check m3)) as Hr'.
  { destruct Hr as (a & allocs & h & bs & m' & H1 & H2 & H3 & H4 & H5). inversion H5; subst.
    exists a, allocs, h, bs, m0. split_and!; [exact H1|exact H2|exact H3|exact H4|].
    econstructor; [eapply step_malloc; [by apply waiting_granted|by rewrite Hl|exact Hm]|].
    econstructor; [by constructor|]. econstructor; [by constructor|].
    econstructor; [constructor|]. constructor. }
  split; [done|]. by apply opmem_refines_spec.
Defined.

(** C16. The statistics the pool reports are exact in every state of every history: the bytes in
    use are the total size of the pool blocks handed out, the bytes not in use those waiting on
    the element lists, [pool_alloc] is their sum, the system counters the total size of the
    blocks above [OP_MEM_MAX_SIZE] handed out, and [used_size] of every father the size of its
    blocks handed out (all modulo 2^64, the width of the counters). *)
Theorem opmem_statistics_exact {T} `{!KeyTable T ptr, !KeyTableLaws T ptr} evs (m : op_mem_info T) :
  pool_reached evs m ->
  let used := sumZ size (filter (fun n => ~ is_sys n) (live m)) in
  let waiting := sumZ size (free_nodes m) in
  let system := sumZ size (filter is_sys (live m)) in
  pool_alloc_used (statistic m) = u64 used /\
  pool_alloc_noused (statistic m) = u64 waiting /\
  pool_alloc (statistic m) = u64 (waiting + used) /\
  system_alloc (statistic m) = u64 system /\ system_alloc_used (statistic m) = u64 system /\
  (forall fid f, fathers m !! fid = Some f -> used_size f = sumZ size (of_father fid (live m))).
Proof.
  intros [Hwf _]%pool_reached_wf used wt sys.
  split_and!; [apply Hwf|apply Hwf|apply Hwf|apply Hwf| |].
  - rewrite (w_sysused _ Hwf). apply Hwf.
  - intros fid f Hf. by apply (w_father _ Hwf).
Qed.

Lemma opmem_statistics_exact_witness :
  exists m : op_mem_info pool_table, demo_init = Some m /\ pool_alloc_used (statistic m) = 0.
Proof.
  destruct demo_reached as (m & Hd & Hr & _ & Hl & _). exists m. split; [done|].
  destruct (opmem_statistics_exact [] m Hr) as (Hu & _). by rewrite Hu, Hl.
Defined.

(** [op_malloc] on any well-formed pool, when the C allocator serves what it asks for: it
    returns a block of at least [sz] bytes that overlaps no block handed out before, that was
    not handed out, and the pool stays well-formed. *)
Theorem op_malloc_returns_block {T} `{!KeyTable T ptr, !KeyTableLaws T ptr}
    (m : op_mem_info T) allocs sz :
  mem_wf m -> Z.of_nat (length (live m)) < kt_room -> alloc_granted m sz allocs ->
  exists n m', op_malloc allocs sz (Some m) = (Some (ptr n), Some m') /\ mem_wf m' /\
    sz <= size n /\ live m' ≡ₚ n :: live m /\ forall x, x ∈ live m -> disj n x /\ ptr x <> ptr n.
Proof.
  intros Hwf Hr Hg. destruct (malloc_ok m allocs sz Hwf Hr Hg) as (n & m' & Heq & Hw & Hs & Hl).
  exists n, m'. split_and!; try done. intros x Hx.
  pose proof (live_disj m' n _ Hw Hl x Hx) as Hd. split; [done|].
  destruct (w_range _ Hw n) as (_ & ? & _); [rewrite Hl; set_solver|].
  destruct (w_range _ Hwf x) as (_ & ? & _); [set_solver|]. unfold disj in Hd. lia.
Qed.

Lemma op_malloc_returns_block_witness :
  exists (m0 m : op_mem_info pool_table) n,
    demo_init = Some m0 /\ op_malloc [] 100 (Some m0) = (Some (ptr n), Some m) /\ 100 <= size n.
Proof.
  destruct demo_reached as (m0 & Hd & Hr & Hwt & Hl & _).
  destruct (pool_reached_wf _ _ Hr) as [Hwf _].
  destruct (op_malloc_returns_block m0 [] 100 Hwf ltac:(by rewrite Hl) (waiting_granted m0 100 Hwt))
    as (n & m & Hm & _ & Hs & _).
  exists m0, m, n. by split_and!.
Defined.

(** Releasing a block twice is harmless: the first [op_free] takes exactly that block out of
    the ones in use, the second finds nothing and changes no block and no statistic. *)
Theorem op_free_twice {T} `{!KeyTable T ptr, !KeyTableLaws T ptr} (m : op_mem_info T) n :
  mem_wf m -> n ∈ live m ->
  exists m1 m2, op_free (ptr n) (Some m) = Some m1 /\ live m ≡ₚ n :: live m1 /\ mem_wf m1 /\
    op_free (ptr n) (Some m1) = Some m2 /\ live m2 = live m1 /\ free_nodes m2 = free_nodes m1 /\
    statistic m2 = statistic m1.
Proof.
  intros Hwf Hn. destruct (free_ok m (ptr n) Hwf) as (m1 & H1 & Hw1 & [(x & Hx & Hp & Hl)|(Hno & _)]).
  2: { by destruct (Hno n Hn). }
  assert (x = n) as -> by (by apply (kt_key_inj (hash m) x n (w_hash _ Hwf))).
  destruct (free_ok m1 (ptr n) Hw1) as (m2 & H2 & _ & [(y & Hy & Hpy & _)|(_ & Hl2 & Hf2 & Hs2)]).
  - exfalso. pose proof (kt_nodup (hash m) (w_hash _ Hwf)) as Hnd.
    change (kt_items (hash m)) with (live m) in Hnd. rewrite Hl in Hnd. simpl in Hnd.
    apply NoDup_cons in Hnd as [Hnin _]. apply Hnin. rewrite <- Hpy. by apply list_elem_of_fmap_2.
  - exists m1, m2. by split_and!.
Qed.

Lemma op_free_twice_witness :
  exists (m1 m2 : op_mem_info pool_table) n,
    op_free (ptr n) (Some m1) = Some m2 /\ live m2 = live m1 /\ statistic m2 = statistic m1.
Proof.
  destruct (demo_malloc 100) as (m0 & m & n & _ & _ & _ & Hw & Hl).
  { intros m Hm. destruct demo_reached as (m' & Hd & _ & Hwt & _). congruence. }
  destruct (op_free_twice m n Hw) as (m1 & m2 & _ & _ & _ & H2 & Hl2 & _ & Hs2).
  - rewrite Hl. by left.
  - exists m1, m2, n. by split_and!.
Defined.

(** C38. The periodic check touches no block in use: it keeps the pool well-formed and every
    live block, and the fathers it leaves are exactly those that may not be freed or still have
    a block in use. It returns none of the data blocks of the fathers it drops to the C
    allocator (only the father and node structures are freed), so they leak. *)
Theorem op_mem_release_check_safe {T} `{!KeyTable T ptr, !KeyTableLaws T ptr} (m : op_mem_info T) :
  mem_wf m ->
  let m' := op_mem_release_check m in
  mem_wf m' /\ live m' = live m /\ blocks m' = blocks m /\
  (forall fid f, fathers m' !! fid = Some f <-> fathers m !! fid = Some f /\ ~ releasable f).
Proof.
  intros Hwf m'. destruct (release_fold_wf (father_node_list m) m Hwf) as (Hw & Hl & Hb & Hk & Hf).
  fold (op_mem_release_check m) in *. fold m' in Hw, Hl, Hb, Hk, Hf. split_and!; try done.
  intros fid f. split.
  - intros Hm'. destruct (decide (fid ∈ father_node_list m)) as [Hin|Hout]; [by apply Hf|].
    exfalso. apply Hout. apply (w_fids _ Hwf). rewrite <- Hk by done. by eexists.
  - intros [Hm Hr]. apply release_fold_keeps; done.
Qed.

Lemma op_mem_release_check_safe_witness :
  exists m : op_mem_info pool_table, demo_init = Some m /\ live (op_mem_release_check m) = live m.
Proof.
  destruct demo_reached as (m & Hd & Hr & _). exists m. split; [done|].
  destruct (pool_reached_wf _ _ Hr) as [Hwf _]. by apply (op_mem_release_check_safe m Hwf).
Defined.

(** [op_calloc] clears the block it returns: [nmemb * sz] bytes (the product as computed by
    the code, modulo 2^64) are zero, every other byte of memory is as before, and the block is
    new. The product is not checked: when it wraps around, the block holds fewer than
    [nmemb * sz] bytes. *)
Theorem op_calloc_clears {T} `{!KeyTable T ptr, !KeyTableLaws T ptr}
    (m : op_mem_info T) allocs nmemb sz :
  mem_wf m -> Z.of_nat (length (live m)) < kt_room ->
  alloc_granted m (u64 (nmemb * sz)) allocs ->
  exists n m', op_calloc allocs nmemb sz (Some m) = (Some (ptr n), Some m') /\ mem_wf m' /\
    live m' ≡ₚ n :: live m /\ u64 (nmemb * sz) <= size n /\
    (forall a, bytes m' a = if decide (ptr n <= a < ptr n + u64 (nmemb * sz)) then 0 else bytes m a).
Proof.
  intros Hwf Hr Hg. destruct (malloc_ok m allocs _ Hwf Hr Hg) as (n & m1 & Heq & Hw & Hs & Hl).
  unfold op_calloc. rewrite Heq. eexists n, _. split; [reflexivity|].
  split; [by apply wf_with_bytes|]. split_and!; [done|done|].
  intros a. simpl. unfold memset. rewrite (malloc_bytes m m1 allocs _ _ Heq).
  case_decide; bcase; try done; lia.
Qed.

Lemma op_calloc_clears_witness :
  exists (m0 m : op_mem_info pool_table) n,
    demo_init = Some m0 /\ op_calloc [] 9223372036854775808 2 (Some m0) = (Some (ptr n), Some m) /\
    live m ≡ₚ [n].
Proof.
  destruct demo_reached as (m0 & Hd & Hr & _ & Hl & _ & Hwt).
  destruct (pool_reached_wf _ _ Hr) as [Hwf _].
  destruct (op_calloc_clears m0 [] 9223372036854775808 2 Hwf ltac:(by rewrite Hl) (waiting_granted m0 0 Hwt))
    as (n & m & Hm & _ & Hl1 & _).
  rewrite Hl in Hl1. exists m0, m, n. by split_and!.
Defined.

(** C40. [op_realloc] never returns a block: its test of the new block is inverted. Before the pool
    is set up, and for an address that is not a block in use, it returns a null pointer and changes
    no block. For a block in use, when memory is available it returns a null pointer, keeps the
    old block and leaks a new one; when it is not, it copies to a null pointer. *)
Theorem op_realloc_never_succeeds {T} `{!KeyTable T ptr, !KeyTableLaws T ptr}
    (m : op_mem_info T) allocs n sz :
  mem_wf m -> Z.of_nat (length (live m)) < kt_room -> n ∈ live m ->
  (forall p, op_realloc (T := T) allocs p sz None = (RReturn None, None)) /\
  (forall p, (forall x, x ∈ live m -> ptr x <> p) ->
   exists m', op_realloc allocs p sz (Some m) = (RReturn None, Some m') /\ mem_wf m' /\ live m' = live m) /\
  (alloc_granted m (u64 (u64 (size n + sz))) allocs ->
   exists n' m', op_realloc allocs (ptr n) sz (Some m) = (RReturn None, Some m') /\ mem_wf m' /\
     live m' ≡ₚ n' :: live m) /\
  (alloc_refused m (u64 (u64 (size n + sz))) allocs ->
   exists m', op_realloc allocs (ptr n) sz (Some m) = (RFault, Some m') /\ mem_wf m' /\ live m' = live m).
Proof.
  intros Hwf Hr Hn. split; [done|]. unfold op_realloc, op_calloc.
  assert (forall p, let '(r, h) := kt_retrieve (hash m) (key_node p) in
    mem_wf (with_hash m h) /\ live (with_hash m h) = live m /\
    match r with Some x => x ∈ live m /\ ptr x = p | None => forall x, x ∈ live m -> ptr x <> p end) as Hret.
  { intros p. destruct (kt_retrieve_law (hash m) (key_node p) (w_hash _ Hwf)) as (Hh & Hit & Hp).
    destruct (kt_retrieve _ _) as [r h]. split; [by apply (wf_with_hash m h Hwf Hh Hit)|]. by split. }
  split; [|specialize (Hret (ptr n)); destruct (kt_retrieve _ _) as [r h];
           destruct Hret as (Hwf0 & Hl0 & Hp); destruct r as [x|]; [|by destruct (Hp n)];
           assert (x = n) as -> by (apply (kt_key_inj (hash m)); [apply Hwf|apply Hp|done|apply Hp]);
           rewrite Z.mul_1_l].
  - intros p Hno. specialize (Hret p). destruct (kt_retrieve _ _) as [r h]. destruct Hret as (Hwf0 & Hl0 & Hp).
    destruct r as [x|]; [by destruct Hp; destruct (Hno x)|]. by eexists.
  - split.
    + intros Hg. destruct (malloc_ok (with_hash m h) allocs (u64 (u64 (size n + sz))) Hwf0) as (n' & m' & -> & Hw & _ & Hl).
      { by rewrite Hl0. }
      { unfold alloc_granted, refill_granted, block_fresh in *. by rewrite Hl0. }
      eexists n', _. split; [reflexivity|]. split; [by apply wf_with_bytes|]. by rewrite <- Hl0.
    + intros Hf. rewrite malloc_refused by exact Hf. by eexists.
Qed.

Lemma op_realloc_never_succeeds_witness :
  exists (m : op_mem_info pool_table) n m', op_realloc [] (ptr n) 100 (Some m) = (RReturn None, Some m') /\
    exists n', live m' ≡ₚ n' :: live m.
Proof.
  destruct (demo_malloc 100) as (m0 & m & n & Hd & Hwf0 & Hm & Hw & Hl).
  { intros m Hm. destruct demo_reached as (m' & Hd & _ & Hwt & _). congruence. }
  exists m, n.
  destruct (op_realloc_never_succeeds m [] n 100 Hw) as (_ & _ & Hok & _).
  { by rewrite Hl. } { rewrite Hl. by left. }
  destruct Hok as (n' & m' & Heq & _ & Hl'); [|exists m'; split; [done|]; by exists n'].
  apply waiting_granted.
  assert ((fun m0 => match op_malloc [] 100 (Some m0) with
     | (Some _, Some m) => match live m with n :: _ => waiting m (u64 (u64 (size n + 100))) | _ => false end
     | _ => false end) <$> demo_init = Some true) as Hv by (vm_compute; reflexivity).
  rewrite Hd in Hv. unfold fmap, option_fmap, option_map in Hv. rewrite Hm in Hv.
  apply Permutation_singleton_r in Hl. rewrite Hl in Hv. by injection Hv.
Defined.

(** A failed allocation inside [op_malloc] leaves a dangling father: the father structure is
    linked into [father_node_list] before its block is allocated, and freed without being
    unlinked, so the list keeps the address of freed memory, which the next periodic check and
    the father report read. *)
Theorem malloc_failure_dangles {T} `{!KeyTable T ptr} (m : op_mem_info T) sz i e fid rest :
  sz <= OP_MEM_MAX_SIZE -> op_mem_get_list (op_mem_ele m) sz = Some i ->
  op_mem_ele m !! i = Some e -> list_ e = [] ->
  exists m', op_malloc (Some fid :: None :: rest) sz (Some m) = (None, Some m') /\
    fid ∈ father_node_list m' /\ fathers m' !! fid = None.
Proof.
  intros Hs Hg He Hl. unfold op_malloc. rewrite (proj2 (Z.ltb_ge _ _) Hs), Hg, He, Hl.
  unfold new_father. simpl. eexists. split; [reflexivity|]. simpl.
  split; [set_solver|]. by rewrite delete_insert_eq, lookup_delete_eq.
Qed.

Lemma malloc_failure_dangles_witness :
  exists h (m' : op_mem_info pool_table), pool_hash = Some h /\
    op_malloc [Some 4096; None] 100 (Some (init_state h (fun _ => 0))) = (None, Some m') /\
    4096 ∈ father_node_list m'.
Proof.
  eexists. edestruct (malloc_failure_dangles (T := pool_table)) with (i := 4%nat) (sz := 100)
    as (m' & Hm & Hin & _);
    [| | | |exists m'; split_and!; [reflexivity|exact Hm|exact Hin]]; reflexivity || done.
Defined.
