(* ===== verification/HashMem.v ===== *)
(** * The table on the memory pool (src/src/base/hash_mem.c)

    A copy of the table of opbox/hash.c whose memory comes from the pool of opmem.c and whose
    [MIN_NODES] is 16. The operations are those of Hash.v at these parameters; growing calls
    [op_realloc] of OpMem.v. *)

From S2P Require Import Prelude KeyTable Hash HashSpec OpMem OpMemSpec OpMemRefill OpMemSafety.
From stdpp Require Import base tactics numbers list gmap.
From Stdlib Require Import ZArith Lia.
Open Scope Z_scope.
Import OpHash OpMem.

Module OpHashMem.

Definition MIN_NODES : Z := 16.

Section Ops.
Context {A T : Type} `{!KeyTable T ptr}.
Implicit Types (lh : op_hash_st A) (self : option (op_mem_info T)).

Definition op_hash_mem_new := @op_hash_table_new A MIN_NODES.

(** [op_realloc(lh->b, n)]: whether it returns a block, and whether it faults instead. *)
Definition mem_realloc (allocs : list (option Z)) (bp : Z) self (n : Z) : bool :=
  match fst (op_realloc allocs bp n self) with RReturn (Some _) => true | _ => false end.
Definition mem_faults (allocs : list (option Z)) (bp : Z) self (n : Z) : bool :=
  match fst (op_realloc allocs bp n self) with RFault => true | _ => false end.

(** Whether [op_hash_mem_insert] calls [op_realloc], and with which size. *)
Definition insert_reallocs lh : bool :=
  (up_load lh <=? u64 (num_items lh * LH_LOAD_MULT) / num_nodes lh)
  && (pmax lh <=? u32 (p lh + 1)).
Definition insert_size lh : Z := u64 (s32 (sizeof_ptr * u32 (num_alloc_nodes lh * 2))).

(** [None] is the write through a null pointer inside [op_realloc]. *)
Definition op_hash_mem_insert (allocs : list (option Z)) (bp : Z) self (calloc : bool) lh (data : A)
    : option (option A * op_hash_st A) :=
  if insert_reallocs lh && mem_faults allocs bp self (insert_size lh) then None
  else Some (op_hash_insert (mem_realloc allocs bp self) calloc lh data).

(** Whether [op_hash_mem_delete] calls [op_realloc]: the item is there, there are more than
    [MIN_NODES] buckets, the load has become low and [p] is 0. *)
Definition delete_reallocs lh (data : A) : bool :=
  let '(i, pos, lh1) := getrn lh data in
  match bucket lh1 i !! pos with
  | None => false
  | Some _ => (MIN_NODES <? num_nodes lh)
              && (u64 (u64 (num_items lh - 1) * LH_LOAD_MULT) / num_nodes lh <=? down_load lh)
              && (p lh =? 0)
  end.

Definition op_hash_mem_delete (allocs : list (option Z)) (bp : Z) self lh (data : A)
    : option (option A * op_hash_st A) :=
  if delete_reallocs lh data && mem_faults allocs bp self (u32 (sizeof_ptr * pmax lh)) then None
  else Some (op_hash_table_delete MIN_NODES (mem_realloc allocs bp self) lh data).

Definition op_hash_mem_retrieve := @op_hash_retrieve A.
Definition op_hash_mem_doall {S} := @op_hash_doall A S.
Definition op_hash_mem_doall_arg {S} := @op_hash_doall_arg A S.
Definition op_hash_mem_free := @op_hash_free A.
End Ops.

(** ** The table cannot grow past its first array *)

Section Capacity.
Context {A K T : Type} `{Countable K} `{!KeyTable T ptr, !KeyTableLaws T ptr} (key : A -> K).
Implicit Types (lh : op_hash_st A) (self : option (op_mem_info T)).

Lemma mem_realloc_false allocs bp self n : mem_realloc allocs bp self n = false.
Proof. unfold mem_realloc. by destruct (realloc_no_block allocs bp n self) as [-> | ->]. Qed.

(** The invariant of HashSpec.v with the array still the one of [op_hash_mem_new]. *)
Definition capped lh : Prop := hash_wf 8 key lh /\ pmax lh = 8.

Lemma capped_new h cmp lh :
  HashKey h cmp key -> op_hash_mem_new (Some h) (Some cmp) true true = Some lh -> capped lh.
Proof.
  intros Hk Hn. split; [by apply (wf_new 16 8 key eq_refl ltac:(lia) h cmp)|].
  unfold op_hash_mem_new in Hn. simpl in Hn. by injection Hn as <-.
Qed.

Lemma capped_items lh : capped lh -> num_items lh <= 30 /\ num_nodes lh <= 15.
Proof.
  intros [Hw Hp]. pose proof (wf_load _ _ _ Hw). pose proof (wf_nodes _ _ _ Hw).
  pose proof (wf_p _ _ _ Hw). lia.
Qed.

(** Growing keeps the array, or fails. *)
Lemma expand_capped realloc lh ok lh' :
  (forall n, realloc n = false) -> capped lh -> expand realloc lh = (ok, lh') -> pmax lh' = 8.
Proof.
  intros Hr [Hw Hp] He. unfold expand in He. destruct (expand_grow realloc lh) as [lh1|] eqn:Eg.
  - unfold expand_grow in Eg. rewrite Hr in Eg. destruct (pmax lh <=? _); [done|].
    injection Eg as <-. destruct (split_chain _ _ _ _ _). by injection He as <- <-.
  - by injection He as <- <-.
Qed.

Lemma insert_capped allocs bp self calloc lh d r lh' :
  capped lh -> op_hash_mem_insert allocs bp self calloc lh d = Some (r, lh') -> capped lh'.
Proof.
  intros [Hw Hp] Hi. unfold op_hash_mem_insert in Hi. destruct (insert_reallocs lh && _); [done|].
  injection Hi as Hi. pose proof Hi as Hi0.
  apply (insert_items 8 key) in Hi as (Hw' & _); try done; try lia.
  2: { intros n. by rewrite mem_realloc_false. }
  split; [done|]. unfold op_hash_insert in Hi0.
  destruct (if up_load _ <=? _ then _ else _) as [ok lh1] eqn:E.
  assert (pmax lh1 = 8) as Hp1.
  { destruct (up_load _ <=? _); [|by injection E as <- <-].
    eapply (expand_capped _ (with_error lh 0)); [intros; apply mem_realloc_false| |exact E].
    split; [by apply wf_with_error|done]. }
  destruct ok; simpl in Hi0; [|by injection Hi0 as <- <-].
  destruct (getrn lh1 d) as [[i pos] lh2] eqn:Eg. unfold getrn in Eg.
  destruct (chain_find _ _ _). injection Eg as <- <- <-.
  destruct (_ !! _); [by injection Hi0 as <- <-|].
  destruct calloc; simpl in Hi0; by injection Hi0 as <- <-.
Qed.

(** Deleting never contracts: there are never more than [MIN_NODES] buckets. *)
Lemma delete_capped allocs bp self lh d r lh' :
  capped lh -> op_hash_mem_delete allocs bp self lh d = Some (r, lh') -> capped lh'.
Proof.
  intros Hc Hd. pose proof (capped_items lh Hc) as [_ Hn]. destruct Hc as [Hw Hp].
  unfold op_hash_mem_delete in Hd.
  assert (delete_reallocs lh d = false) as Hno.
  { unfold delete_reallocs. destruct (getrn lh d) as [[i pos] lh1]. destruct (_ !! _); [|done].
    by rewrite (proj2 (Z.ltb_ge MIN_NODES _)) by (unfold MIN_NODES; lia). }
  rewrite Hno in Hd. simpl in Hd. injection Hd as Hd.
  assert (op_hash_table_delete MIN_NODES (mem_realloc allocs bp self) lh d
          = op_hash_table_delete MIN_NODES serving lh d) as Heq.
  { unfold op_hash_table_delete. destruct (getrn _ d) as [[i pos] lh1] eqn:Eg. unfold getrn in Eg.
    destruct (chain_find _ _ _). injection Eg as <- <- <-. destruct (_ !! _); [|reflexivity].
    cbn [num_nodes with_items with_stats with_b with_error].
    rewrite (proj2 (Z.ltb_ge MIN_NODES (num_nodes lh))) by (unfold MIN_NODES; lia).
    cbn [andb]. reflexivity. }
  rewrite Heq in Hd. pose proof Hd as Hd0.
  apply (delete_items 16 8 key eq_refl ltac:(lia) serving lh d r lh' Hw serving_small)
    in Hd as (Hw' & _).
  split; [done|]. unfold op_hash_table_delete in Hd0.
  destruct (getrn _ d) as [[i pos] lh1] eqn:Eg. unfold getrn in Eg.
  destruct (chain_find _ _ _). injection Eg as <- <- <-. destruct (_ !! _); [|by injection Hd0 as <- <-].
  simpl in Hd0. rewrite (proj2 (Z.ltb_ge _ _)) in Hd0 by (unfold MIN_NODES; lia).
  by injection Hd0 as <- <-.
Qed.

(** A history of the table; every call may meet another state of the pool. *)
Inductive mem_op := MInsert (d : A) (calloc : bool) | MDelete (d : A).

Inductive mem_run : op_hash_st A -> list mem_op -> op_hash_st A -> Prop :=
| mem_nil lh : mem_run lh [] lh
| mem_insert lh d c allocs bp self r lh1 ops lh2 :
    op_hash_mem_insert allocs bp self c lh d = Some (r, lh1) -> mem_run lh1 ops lh2 ->
    mem_run lh (MInsert d c :: ops) lh2
| mem_delete lh d allocs bp self r lh1 ops lh2 :
    op_hash_mem_delete allocs bp self lh d = Some (r, lh1) -> mem_run lh1 ops lh2 ->
    mem_run lh (MDelete d :: ops) lh2.

Lemma run_capped lh ops lh' : capped lh -> mem_run lh ops lh' -> capped lh'.
Proof. intros Hc Hr. induction Hr; eauto using insert_capped, delete_capped. Qed.

(** With 30 items the load test asks for a larger array, which is never obtained. *)
Lemma full_insert_fails allocs bp self calloc lh d :
  capped lh -> num_items lh = 30 ->
  op_hash_mem_insert allocs bp self calloc lh d = None \/
  exists lh', op_hash_mem_insert allocs bp self calloc lh d = Some (None, lh') /\
    error lh' = 1 /\ items lh' = items lh.
Proof.
  intros Hc Hn. pose proof (capped_items lh Hc) as [_ Hle]. destruct Hc as [Hw Hp].
  assert (num_nodes lh = 15 /\ p lh = 7) as [Hnn Hpp].
  { pose proof (wf_load _ _ _ Hw). pose proof (wf_nodes _ _ _ Hw). lia. }
  unfold op_hash_mem_insert. destruct (insert_reallocs lh && _); [by left|right].
  unfold op_hash_insert. simpl. rewrite (wf_up _ _ _ Hw), Hn, Hnn. simpl.
  unfold expand, expand_grow. simpl. rewrite Hpp, Hp, mem_realloc_false. simpl.
  by eexists.
Qed.
End Capacity.

End OpHashMem.

Import OpHashMem.


(** Insertions made before the pool exists ([self] null): [op_realloc] returns a null pointer. *)
Definition insert_all {A} (lh : op_hash_st A) (ds : list A) : op_hash_st A :=
  foldl (fun lh d => snd (op_hash_insert (mem_realloc (T := pool_table) [] 0 None) true lh d)) lh ds.

Lemma insert_all_run {A} (ds : list A) : forall lh,
  mem_run (T := pool_table) lh ((fun d => MInsert d true) <$> ds) (insert_all lh ds).
Proof.
  induction ds as [|d ds IH]; intros lh; [constructor|]. simpl.
  eapply (mem_insert lh d true [] 0 None (fst (op_hash_insert (mem_realloc (T := pool_table) [] 0 None) true lh d)));
    [|apply IH].
  unfold op_hash_mem_insert. rewrite andb_false_r. by destruct (op_hash_insert _ _ _ _).
Qed.

Definition demo_keys : list (Z * Z) := (fun i => (Z.of_nat i, Z.of_nat i)) <$> seq 0 30.

