(* ===== verification/Bytes.v ===== *)
(** * Bytes in memory and on the wire

    Shared by the components that exchange binary headers (base/oprpc.c, base/oplog.c) and by
    those that fill fixed-size buffers: the little-endian image of a 32-bit word, [htonl] and
    [ntohl], and writes into a buffer with the out-of-bounds case written out. *)

From S2P Require Import Prelude.
From stdpp Require Import base tactics numbers list.
From Stdlib Require Import ZArith Lia.
Open Scope Z_scope.

Definition is_byte (x : Z) : Prop := 0 <= x < W8.

(** The image of an [unsigned int] in the memory of the (little-endian) target. *)
Definition le32 (x : Z) : list Z :=
  [x mod 256; x / 256 mod 256; x / 65536 mod 256; x / 16777216 mod 256].

Definition of_le32 (l : list Z) : Z :=
  match l with
  | [a; b; c; d] => a + 256 * b + 65536 * c + 16777216 * d
  | _ => 0
  end.

(** [htonl] and [ntohl] swap the bytes. *)
Definition htonl (x : Z) : Z := of_le32 (rev (le32 x)).
Definition ntohl (x : Z) : Z := htonl x.

(** Big-endian image, the wire order. *)
Definition be32 (x : Z) : list Z := rev (le32 x).

Lemma le32_bytes x : Forall is_byte (le32 x).
Proof. repeat constructor; apply Z.mod_pos_bound; lia. Qed.

Lemma of_le32_range l : length l = 4%nat -> Forall is_byte l -> 0 <= of_le32 l < W32.
Proof.
  intros Hl Hb. destruct l as [|a [|b [|c [|d [|]]]]]; try done.
  repeat (apply Forall_cons in Hb as [? Hb]). unfold is_byte in *. simpl. lia.
Qed.

Lemma le32_of_le32 l : length l = 4%nat -> Forall is_byte l -> le32 (of_le32 l) = l.
Proof.
  intros Hl Hb. destruct l as [|a [|b [|c [|d [|]]]]]; try done.
  repeat (apply Forall_cons in Hb as [? Hb]). unfold is_byte in *. unfold le32, of_le32.
  repeat f_equal; Z.div_mod_to_equations; lia.
Qed.

Lemma of_le32_le32 x : 0 <= x < W32 -> of_le32 (le32 x) = x.
Proof. intros Hx. unfold le32, of_le32. Z.div_mod_to_equations; lia. Qed.

Lemma le32_htonl x : le32 (htonl x) = be32 x.
Proof.
  apply le32_of_le32; [done|]. apply Forall_rev, le32_bytes.
Qed.

Lemma htonl_range x : 0 <= htonl x < W32.
Proof. apply of_le32_range; [done|]. apply Forall_rev, le32_bytes. Qed.

Lemma ntohl_htonl x : 0 <= x < W32 -> ntohl (htonl x) = x.
Proof.
  intros Hx. unfold ntohl, htonl at 1. rewrite le32_htonl. unfold be32.
  rewrite rev_involutive. by apply of_le32_le32.
Qed.

Lemma htonl_zero x : 0 <= x < W32 -> htonl x = 0 <-> x = 0.
Proof.
  intros Hx. split; [|by intros ->]. intros H0. rewrite <- (ntohl_htonl x Hx), H0. done.
Qed.

(** Writing [data] at the start of the array [buf]; [None] is a write past its end. *)
Definition poke (buf data : list Z) : option (list Z) :=
  if decide (length data <= length buf)%nat then Some (data ++ drop (length data) buf) else None.

Lemma poke_ok buf data :
  (length data <= length buf)%nat ->
  poke buf data = Some (data ++ drop (length data) buf) /\
  length (data ++ drop (length data) buf) = length buf.
Proof.
  intros Hl. unfold poke. rewrite decide_True by done. split; [done|].
  rewrite length_app, length_drop. lia.
Qed.

Lemma poke_exact buf data : length data = length buf -> poke buf data = Some data.
Proof.
  intros Hl. unfold poke. rewrite decide_True, drop_ge, app_nil_r by lia. done.
Qed.

Lemma take_poke (data rest : list Z) n : n = length data -> take n (data ++ rest) = data.
Proof. intros ->. by rewrite take_app_length. Qed.

#[export] Hint Resolve le32_bytes htonl_range : opsv.
#[export] Hint Rewrite le32_htonl : opsv.
