(* ===== verification/OpRpc.v ===== *)
(** * Remote and local procedure calls (src/src/base/oprpc.c)

    The TIPC server ([tipc_read] and the callbacks around it), the client [_op_tipc_send], and the
    in-process dispatcher. libevent is a parameter: [EvBuffer] names the operations of an input
    buffer the code calls, [EvBufferLaws] their documented behaviour. Sockets appear as the
    results of the system calls and the bytes written. *)

From S2P Require Import Prelude KeyTable Bytes.
From stdpp Require Import base tactics numbers list gmap.
From Stdlib Require Import ZArith Lia.
Open Scope Z_scope.

(** ** The input buffer of libevent *)

Class EvBuffer (B : Type) := {
  ev_bytes : B -> list Z;
  evbuffer_get_length : B -> Z;
  bufferevent_read : B -> Z -> list Z * B;
  ev_append : B -> list Z -> B;
}.

Class EvBufferLaws (B : Type) `{!EvBuffer B} : Prop := {
  ev_length_law buf : evbuffer_get_length buf = Z.of_nat (length (ev_bytes buf));
  ev_read_law buf n :
    fst (bufferevent_read buf n) = take (Z.to_nat n) (ev_bytes buf) /\
    ev_bytes (snd (bufferevent_read buf n)) = drop (Z.to_nat n) (ev_bytes buf);
  ev_append_law buf l : ev_bytes (ev_append buf l) = ev_bytes buf ++ l;
}.

(** A buffer that is its contents. *)
#[export] Instance list_evbuffer : EvBuffer (list Z) := {
  ev_bytes l := l;
  evbuffer_get_length l := Z.of_nat (length l);
  bufferevent_read l n := (take (Z.to_nat n) l, drop (Z.to_nat n) l);
  ev_append l k := l ++ k;
}.
#[export] Instance list_evbuffer_laws : EvBufferLaws (list Z).
Proof. by constructor. Qed.

Module OpRpc.

(** ** Data *)

Definition TIPC_HEAD_PREFIX_VALUE : Z := 4009636945. (* 0xeefe3451 *)
Definition RPC_MAX_ELEMENT : Z := 1024.
Definition RPC_REQ_SIZE : Z := 4096.
Definition RPC_RESPONSE_SIZE : Z := 8192.
Definition TIPC_HEADER_SIZE : Z := 16.

Definition TIPC_EVENT_RECV_HEAD : Z := 1.
Definition TIPC_EVENT_RECV_CONTENT : Z := 2.

Record tipc_header := TipcHeader {
  prefix : Z;
  head_module : Z;
  head_type : Z;
  data_size : Z;
}.

(** The 16 bytes of a header in memory, in the order of the fields, and back. *)
Definition header_bytes (h : tipc_header) : list Z :=
  le32 (prefix h) ++ le32 (head_module h) ++ le32 (head_type h) ++ le32 (data_size h).
Definition header_of_bytes (l : list Z) : tipc_header :=
  TipcHeader (of_le32 (take 4 l)) (of_le32 (take 4 (drop 4 l))) (of_le32 (take 4 (drop 8 l)))
    (of_le32 (take 4 (drop 12 l))).

Definition tipc_header_hton (h : tipc_header) : tipc_header :=
  TipcHeader (htonl (prefix h)) (htonl (head_module h)) (htonl (head_type h)) (htonl (data_size h)).
Definition tipc_header_ntoh (h : tipc_header) : tipc_header :=
  TipcHeader (ntohl (prefix h)) (ntohl (head_module h)) (ntohl (head_type h)) (ntohl (data_size h)).

Section Server.
Context {B : Type} `{!EvBuffer B} {W : Type}.

(** A handler reads the request buffer, writes the response buffer, may change the world [W]
    and returns the size of its response. *)
Definition rpc_cb : Type := W -> list Z -> Z -> list Z -> Z -> Z * list Z * W.

Record tipc_client := TipcClient {
  fd : Z;
  buffer : B;
  head : tipc_header;
  req_content : list Z;
  response_content : list Z;
  water_level : Z;
  event_type : Z;
}.

Definition with_buffer c b' :=
  TipcClient (fd c) b' (head c) (req_content c) (response_content c) (water_level c) (event_type c).
Definition with_head c h :=
  TipcClient (fd c) (buffer c) h (req_content c) (response_content c) (water_level c) (event_type c).
Definition with_req c r :=
  TipcClient (fd c) (buffer c) (head c) r (response_content c) (water_level c) (event_type c).
Definition with_response c r :=
  TipcClient (fd c) (buffer c) (head c) (req_content c) r (water_level c) (event_type c).
Definition with_state c ev wl :=
  TipcClient (fd c) (buffer c) (head c) (req_content c) (response_content c) wl ev.

(** The part of [struct _op_tipc] the callbacks read. *)
Record op_tipc := OpTipc {
  cb : list (option rpc_cb);
  tipc_module : Z;
}.

(** [tipc_buffer_flush]: the loop runs while the buffer is not empty; [fuel] bounds it by the
    number of bytes present ([flush_empties]). *)
Fixpoint flush_loop (fuel : nat) (buf : B) : B :=
  match fuel with
  | O => buf
  | S fuel =>
      if 0 <? evbuffer_get_length buf then flush_loop fuel (snd (bufferevent_read buf 1024)) else buf
  end.
Definition tipc_buffer_flush (buf : B) : B :=
  flush_loop (Z.to_nat (evbuffer_get_length buf)) buf.

(** The label [out]. *)
Definition read_out (c : tipc_client) : tipc_client :=
  let c1 := with_state c TIPC_EVENT_RECV_HEAD TIPC_HEADER_SIZE in
  with_buffer c1 (tipc_buffer_flush (buffer c1)).

(** What a callback leaves: the client, the bytes written to its socket and the world; [None]
    is a write outside [head] or [req_content]. *)
Definition read_result : Type := option (tipc_client * list Z * W).

Definition recv_dispatch (tipc : op_tipc) (w : W) (c : tipc_client) : read_result :=
  if negb (head_module (head c) =? tipc_module tipc) then Some (read_out c, [], w)
  else if RPC_MAX_ELEMENT <=? head_type (head c) then Some (read_out c, [], w)
  else
    match cb tipc !! Z.to_nat (head_type (head c)) with
    | Some (Some handler) =>
        let '(ret, resp, w') :=
          handler w (req_content c) (s32 (water_level c)) (response_content c) RPC_RESPONSE_SIZE in
        let c1 := with_response c resp in
        let ret := if ret <? 0 then 0 else ret in
        if RPC_RESPONSE_SIZE <? ret then Some (read_out c1, [], w')
        else
          let h := head c1 in
          let h1 := TipcHeader (prefix h) (head_module h) (head_type h) (u32 ret) in
          let c2 := with_head c1 (tipc_header_hton h1) in
          let out := header_bytes (head c2)
                     ++ (if ret =? 0 then [] else take (Z.to_nat ret) (response_content c2)) in
          Some (read_out c2, out, w')
    | _ => Some (read_out c, [], w)
    end.

(** State [TIPC_EVENT_RECV_CONTENT]. *)
Definition recv_content (tipc : op_tipc) (w : W) (c : tipc_client) : read_result :=
  if water_level c =? 0 then recv_dispatch tipc w c
  else
    let '(data, b1) := bufferevent_read (buffer c) (water_level c) in
    match poke (req_content c) data with
    | None => None
    | Some req =>
        let c1 := with_req (with_buffer c b1) req in
        if negb (Z.of_nat (length data) =? water_level c) then Some (read_out c1, [], w)
        else recv_dispatch tipc w c1
    end.

(** State [TIPC_EVENT_RECV_HEAD]; [length] was read before the first read. *)
Definition recv_head (tipc : op_tipc) (w : W) (len : Z) (c : tipc_client) : read_result :=
  let '(data, b1) := bufferevent_read (buffer c) (water_level c) in
  match poke (header_bytes (head c)) data with
  | None => None
  | Some hb =>
      let size := Z.of_nat (length data) in
      let c1 := with_head (with_buffer c b1) (header_of_bytes hb) in
      if negb (size =? water_level c) then Some (read_out c1, [], w)
      else
        let c2 := with_head c1 (tipc_header_ntoh (head c1)) in
        if negb (prefix (head c2) =? TIPC_HEAD_PREFIX_VALUE) then Some (read_out c2, [], w)
        else if RPC_REQ_SIZE <? data_size (head c2) then Some (read_out c2, [], w)
        else
          let c3 := with_state c2 TIPC_EVENT_RECV_CONTENT (data_size (head c2)) in
          if data_size (head c3) <=? u64 (len - size) then recv_content tipc w c3
          else Some (c3, [], w)
  end.

Definition tipc_read (tipc : op_tipc) (w : W) (c : tipc_client) : read_result :=
  let len := evbuffer_get_length (buffer c) in
  if event_type c =? TIPC_EVENT_RECV_HEAD then recv_head tipc w len c
  else if event_type c =? TIPC_EVENT_RECV_CONTENT then recv_content tipc w c
  else Some (read_out c, [], w).

(** Bytes arrive: libevent appends them and calls [tipc_read] once the buffer holds the low
    watermark, which [rpc_tipc_accept__dispatch] sets to the header size and nothing changes. *)
Definition low_watermark : Z := TIPC_HEADER_SIZE.
Definition deliver (tipc : op_tipc) (w : W) (c : tipc_client) (l : list Z) : read_result :=
  let c1 := with_buffer c (ev_append (buffer c) l) in
  if low_watermark <=? evbuffer_get_length (buffer c1) then tipc_read tipc w c1
  else Some (c1, [], w).

(** A sequence of arrivals, with everything the server writes. *)
Fixpoint deliver_all (tipc : op_tipc) (w : W) (c : tipc_client) (ls : list (list Z)) : read_result :=
  match ls with
  | [] => Some (c, [], w)
  | l :: r =>
      match deliver tipc w c l with
      | None => None
      | Some (c1, out1, w1) =>
          match deliver_all tipc w1 c1 r with
          | None => None
          | Some (c2, out2, w2) => Some (c2, out1 ++ out2, w2)
          end
      end
  end.

(** The client structure of a new connection ([op_calloc] clears it). *)
Definition new_client (fd : Z) (buf : B) : tipc_client :=
  TipcClient fd buf (TipcHeader 0 0 0 0) (replicate (Z.to_nat RPC_REQ_SIZE) 0)
    (replicate (Z.to_nat RPC_RESPONSE_SIZE) 0) TIPC_HEADER_SIZE TIPC_EVENT_RECV_HEAD.

(** *** op_tipc_init *)

(** The results of the calls [op_tipc_init] makes, in order. *)
Record init_env := InitEnv {
  i_calloc : bool; i_socket : Z; i_bind : Z; i_listen : Z; i_base : bool; i_event : bool;
  i_add : Z; i_attr : Z; i_thread : Z; i_hash : bool;
}.

(** The value returned, [tipc_self] afterwards, and, when the event thread was started, the
    structure as it is at that moment: the thread runs before the module number, the table of
    clients and [tipc_self] are set. *)
Definition op_tipc_init (env : init_env) (module : Z) (self : option op_tipc)
    : Z * option op_tipc * option op_tipc :=
  let empty := OpTipc (replicate (Z.to_nat RPC_MAX_ELEMENT) None) 0 in
  if negb (i_calloc env) then (-1, self, None)
  else if i_socket env <? 0 then (-1, self, None)
  else if i_bind env <? 0 then (-1, self, None)
  else if i_listen env <? 0 then (-1, self, None)
  else if negb (i_base env) then (-1, self, None)
  else if negb (i_event env) then (-1, self, None)
  else if i_add env <? 0 then (-1, self, None)
  else if negb (i_attr env =? 0) then (-1, self, None)
  else if negb (i_thread env =? 0) then (-1, self, None)
  else if negb (i_hash env) then (-1, self, Some empty)
  else (0, Some (OpTipc (cb empty) module), Some empty).

(** *** op_tipc_register *)

Definition op_tipc_register (type : Z) (f : rpc_cb) (self : option op_tipc) : Z * option op_tipc :=
  match self with
  | None => (-1, None)
  | Some t =>
      if RPC_MAX_ELEMENT <=? type then (-1, self)
      else (0, Some (OpTipc (<[Z.to_nat type := Some f]> (cb t)) (tipc_module t)))
  end.
End Server.
Arguments rpc_cb : clear implicits.
Arguments tipc_client : clear implicits.
Arguments op_tipc : clear implicits.
Arguments read_result : clear implicits.

(** ** Connections *)

(** An entry of [client_hash] is the pointer to a client; the table reads its [fd]. *)
Record conn_ref := ConnRef { ref_fd : Z; ref_addr : Z }.

#[export] Instance conn_ref_eq_dec : EqDecision conn_ref.
Proof. solve_decision. Defined.

Definition tipc_hash (r : option conn_ref) : Z :=
  match r with None => 0 | Some r => u64 (ref_fd r) end.
Definition tipc_compare (node dest : option conn_ref) : Z :=
  match node, dest with
  | Some n, Some d => if ref_fd n =? ref_fd d then 0 else 1
  | _, _ => 1
  end.

Definition BEV_EVENT_EOF : Z := 16.
Definition BEV_EVENT_ERROR : Z := 32.

Section Connections.
Context {B : Type} `{!EvBuffer B} {W T : Type} `{!KeyTable T ref_fd}.

(** The clients by address, the table of the server, and the accepted descriptors not closed. *)
Record tipc_server := TipcServer {
  clients : gmap Z (tipc_client B);
  client_hash : T;
  open_fds : list Z;
}.

Definition rpc_free_client (client : option Z) (s : tipc_server) : tipc_server :=
  match client with
  | None => s
  | Some a =>
      match clients s !! a with
      | None => s
      | Some c =>
          TipcServer (delete a (clients s)) (snd (kt_delete (client_hash s) (ConnRef (fd c) a)))
            (if fd c =? 0 then open_fds s else filter (fun x => x <> fd c) (open_fds s))
      end
  end.

(** The results of [accept], of [op_calloc] and of [bufferevent_socket_new]. *)
Definition rpc_tipc_accept__dispatch (client_fd : Z) (alloc : option Z) (bev : option B)
    (empty : B) (s : tipc_server) : tipc_server :=
  if client_fd <? 0 then rpc_free_client None s
  else
    let s1 := TipcServer (clients s) (client_hash s) (client_fd :: open_fds s) in
    match alloc with
    | None => rpc_free_client None s1
    | Some a =>
        let s2 b := TipcServer (<[a := new_client client_fd b]> (clients s1)) (client_hash s1) (open_fds s1) in
        match bev with
        | None => rpc_free_client (Some a) (s2 empty)
        | Some b =>
            TipcServer (clients (s2 b)) (snd (kt_insert (client_hash s1) (ConnRef client_fd a)))
              (open_fds (s2 b))
        end
    end.

Definition tipc_event (what : Z) (client : option Z) (s : tipc_server) : tipc_server :=
  match client with
  | None => s
  | Some a =>
      if negb (Z.land what (Z.lor BEV_EVENT_ERROR BEV_EVENT_EOF) =? 0)
      then rpc_free_client (Some a) s else s
  end.

(** Bytes arrive for the client at [a]. *)
Definition server_deliver (tipc : op_tipc W) (w : W) (a : Z) (l : list Z) (s : tipc_server)
    : option (tipc_server * list Z * W) :=
  match clients s !! a with
  | None => Some (s, [], w)
  | Some c =>
      match deliver tipc w c l with
      | None => None
      | Some (c', out, w') => Some (TipcServer (<[a := c']> (clients s)) (client_hash s) (open_fds s), out, w')
      end
  end.
End Connections.

(** ** The client *)

(** [op_tipc_send], [op_tipc_send_ex], [op_tipc_send_ex_out]: what the system calls return. *)
Record send_env := SendEnv {
  sock : Z;              (** tipc_socket *)
  connected : Z;         (** connect *)
  wait_ready : Z;        (** usock_wait_ready *)
  reads : list (list Z); (** the bytes of the successive calls of read *)
  alloc_ok : bool;       (** calloc or op_calloc *)
}.

Definition next_read (rs : list (list Z)) (n : Z) : list Z :=
  match rs with [] => [] | r :: _ => take (Z.to_nat n) r end.

(** The bytes of the request. *)
Definition request_header (module type : Z) (req : option (list Z)) (size : Z) : tipc_header :=
  TipcHeader TIPC_HEAD_PREFIX_VALUE module type
    (match req with None => 0 | Some _ => if size <=? 0 then 0 else size end).
Definition request_head (module type : Z) (req : option (list Z)) (size : Z) : list Z :=
  header_bytes (tipc_header_hton (request_header module type req size)).
Definition request_body (module type : Z) (req : option (list Z)) (size : Z) : list Z :=
  if data_size (tipc_header_hton (request_header module type req size)) =? 0 then []
  else take (Z.to_nat size) (default [] req).

(** [_op_tipc_send]: the value returned, the bytes written to the socket and the response
    buffer. *)
Definition op_tipc_send_common (env : send_env) (module type : Z) (req : option (list Z)) (size : Z)
    (response : option (list Z)) (response_size : Z) : Z * list Z * option (list Z) :=
  if sock env <? 0 then (-1, [], response)
  else if connected env <? 0 then (-1, [], response)
  else
    let sent := request_head module type req size ++ request_body module type req size in
    match response with
    | None => (0, sent, response)
    | Some buf =>
        if response_size <=? 0 then (0, sent, response)
        else if wait_ready env <=? 0 then (-1, sent, response)
        else
          let r1 := next_read (reads env) TIPC_HEADER_SIZE in
          if negb (Z.of_nat (length r1) =? TIPC_HEADER_SIZE) then (-1, sent, response)
          else
            let h := tipc_header_ntoh (header_of_bytes r1) in
            if negb (prefix h =? TIPC_HEAD_PREFIX_VALUE) then (-1, sent, response)
            else if data_size h =? 0 then (0, sent, response)
            else if RPC_RESPONSE_SIZE <? data_size h then (-1, sent, response)
            else if negb (alloc_ok env) then (-1, sent, response)
            else
              let r2 := next_read (tail (reads env)) (data_size h) in
              let ret := Z.of_nat (length r2) in
              if (ret <=? 0) || negb (ret =? s32 (data_size h)) then (-1, sent, response)
              else
                let copy_size := if response_size <? ret then response_size else ret in
                let data := take (Z.to_nat copy_size) r2 in
                (copy_size, sent, Some (data ++ drop (length data) buf))
    end.

Definition op_tipc_send (env : send_env) (module type : Z) (req : option (list Z)) (size : Z) : Z * list Z :=
  fst (op_tipc_send_common env module type req size None 0).
Definition op_tipc_send_ex := op_tipc_send_common.
Definition op_tipc_send_ex_out := op_tipc_send_common.

(** ** Local calls *)

Section Local.
Context {W : Type}.

(** A local handler gets the caller's buffers, which may be null. *)
Definition local_cb : Type :=
  W -> option (list Z) -> Z -> option (list Z) -> Z -> Z * option (list Z) * W.

Record op_local_rpc := OpLocalRpc {
  local_cbs : list (option local_cb);
  local_module : Z;
}.

(** The results of [op_calloc], [pthread_mutexattr_init] and [pthread_mutex_init]; a failure
    leaves the previous [local_self]. *)
Definition op_local_init (alloc : bool) (attr_init mutex_init : Z) (module : Z)
    (self : option op_local_rpc) : Z * option op_local_rpc :=
  if negb alloc then (-1, self)
  else if negb (attr_init =? 0) then (-1, self)
  else if negb (mutex_init =? 0) then (-1, self)
  else (0, Some (OpLocalRpc (replicate (Z.to_nat RPC_MAX_ELEMENT) None) module)).

Definition op_local_register (type : Z) (f : local_cb) (self : option op_local_rpc)
    : Z * option op_local_rpc :=
  match self with
  | None => (-1, None)
  | Some l =>
      if RPC_MAX_ELEMENT <=? type then (-1, self)
      else (0, Some (OpLocalRpc (<[Z.to_nat type := Some f]> (local_cbs l)) (local_module l)))
  end.

Definition op_local_send_common (self : option op_local_rpc) (w : W) (module type : Z)
    (req : option (list Z)) (size : Z) (response : option (list Z)) (response_size : Z)
    : Z * option (list Z) * W :=
  match self with
  | None => (-1, response, w)
  | Some l =>
      if negb (local_module l =? module) then (-1, response, w)
      else if RPC_MAX_ELEMENT <=? type then (-1, response, w)
      else
        match local_cbs l !! Z.to_nat type with
        | Some (Some handler) =>
            let '(_, response', w') := handler w req (s32 size) response response_size in
            (0, response', w')
        | _ => (-1, response, w)
        end
  end.

Definition op_local_send self w module type req size :=
  op_local_send_common self w module type req size None 0.
Definition op_local_send_ex := op_local_send_common.
End Local.
Arguments local_cb : clear implicits.
Arguments op_local_rpc : clear implicits.

End OpRpc.
