(* ===== verification/OpRpcSpec.v ===== *)
(** * Correctness of the procedure calls of base/oprpc.c

    The wire format, the state machine of the server for every sequence of arrivals, the
    connection table, and calls from end to end. *)

From S2P Require Import Prelude KeyTable Bytes Hash HashSpec OpRpc.
From stdpp Require Import base tactics numbers list gmap.
From Stdlib Require Import ZArith Lia.
Open Scope Z_scope.
Import OpRpc.

(** ** The header *)

Definition header_ok (h : tipc_header) : Prop :=
  0 <= prefix h < W32 /\ 0 <= head_module h < W32 /\ 0 <= head_type h < W32 /\ 0 <= data_size h < W32.

Lemma header_bytes_length h : length (header_bytes h) = 16%nat.
Proof. done. Qed.

Lemma header_of_bytes_bytes h : header_ok h -> header_of_bytes (header_bytes h) = h.
Proof.
  intros (H1 & H2 & H3 & H4). destruct h as [a b c d]. unfold header_of_bytes, header_bytes.
  simpl prefix in *. simpl head_module in *. simpl head_type in *. simpl data_size in *.
  change (TipcHeader (of_le32 (le32 a)) (of_le32 (le32 b)) (of_le32 (le32 c)) (of_le32 (le32 d))
          = TipcHeader a b c d).
  by rewrite !of_le32_le32.
Qed.

Lemma hton_ok h : header_ok (tipc_header_hton h).
Proof. unfold header_ok, tipc_header_hton. simpl. auto using htonl_range with opsv. Qed.

Lemma ntoh_range h : header_ok (tipc_header_ntoh h).
Proof. unfold header_ok, tipc_header_ntoh, ntohl. simpl. auto using htonl_range with opsv. Qed.

Lemma ntoh_hton h : header_ok h -> tipc_header_ntoh (tipc_header_hton h) = h.
Proof.
  intros (H1 & H2 & H3 & H4). destruct h as [a b c d]. unfold tipc_header_ntoh, tipc_header_hton. simpl in *.
  by rewrite !ntohl_htonl.
Qed.

Lemma wire_roundtrip h :
  header_ok h -> tipc_header_ntoh (header_of_bytes (header_bytes (tipc_header_hton h))) = h.
Proof. intros Hh. by rewrite header_of_bytes_bytes, ntoh_hton by auto using hton_ok. Qed.

(** ** The server *)

Section Server.
Context {B : Type} `{!EvBuffer B, !EvBufferLaws B} {W : Type}.
Implicit Types (c : tipc_client B) (tipc : op_tipc W) (w : W).

(** *** Flushing *)

Lemma flush_empties (buf : B) : ev_bytes (tipc_buffer_flush buf) = [].
Proof.
  unfold tipc_buffer_flush. rewrite ev_length_law, Nat2Z.id.
  assert (forall fuel (b : B), (length (ev_bytes b) <= fuel)%nat -> ev_bytes (flush_loop fuel b) = []) as Hf.
  { induction fuel as [|fuel IH]; intros b Hl; simpl.
    - by apply nil_length_inv, Nat.le_0_r.
    - rewrite ev_length_law. bcase.
      + apply IH. destruct (ev_read_law b 1024) as [_ ->]. rewrite length_drop. lia.
      + apply nil_length_inv. lia. }
  by apply Hf.
Qed.

(** *** The invariant of a connection *)

Definition client_ok c : Prop :=
  length (req_content c) = Z.to_nat RPC_REQ_SIZE /\
  length (response_content c) = Z.to_nat RPC_RESPONSE_SIZE /\
  ((event_type c = TIPC_EVENT_RECV_HEAD /\ water_level c = TIPC_HEADER_SIZE) \/
   (event_type c = TIPC_EVENT_RECV_CONTENT /\ water_level c = data_size (head c) /\
    0 <= data_size (head c) <= RPC_REQ_SIZE)).

(** Between two requests. *)
Definition idle c : Prop :=
  event_type c = TIPC_EVENT_RECV_HEAD /\ water_level c = TIPC_HEADER_SIZE /\ ev_bytes (buffer c) = [].

(** A handler stays inside the response buffer it is given. *)
Definition handler_ok (f : rpc_cb W) : Prop :=
  forall w req n resp m, length (snd (fst (f w req n resp m))) = length resp.
Definition tipc_ok tipc : Prop :=
  forall i f, cb tipc !! i = Some (Some f) -> handler_ok f.

Lemma read_out_idle c : idle (read_out c).
Proof. unfold idle, read_out. simpl. rewrite flush_empties. done. Qed.

Lemma read_out_ok c :
  length (req_content c) = Z.to_nat RPC_REQ_SIZE ->
  length (response_content c) = Z.to_nat RPC_RESPONSE_SIZE -> client_ok (read_out c).
Proof. intros H1 H2. split_and!; [done|done|]. left. done. Qed.

Lemma new_client_ok n (buf : B) : client_ok (new_client n buf).
Proof. split_and!; [apply length_replicate|apply length_replicate|by left]. Qed.

(** Every outcome of a dispatch is a connection that waits for a header. *)
Lemma recv_dispatch_ok tipc w c :
  tipc_ok tipc -> length (req_content c) = Z.to_nat RPC_REQ_SIZE ->
  length (response_content c) = Z.to_nat RPC_RESPONSE_SIZE ->
  exists c' out w', recv_dispatch tipc w c = Some (c', out, w') /\ client_ok c' /\ idle c'.
Proof.
  intros Ht H1 H2. unfold recv_dispatch.
  bcase; [do 3 eexists; eauto using read_out_ok, read_out_idle|].
  bcase; [do 3 eexists; eauto using read_out_ok, read_out_idle|].
  destruct (cb tipc !! _) as [[f|]|] eqn:Ef; try (do 3 eexists; eauto using read_out_ok, read_out_idle; fail).
  pose proof (Ht _ _ Ef w (req_content c) (s32 (water_level c)) (response_content c) RPC_RESPONSE_SIZE) as Hr.
  destruct (f w _ _ _ _) as [[ret resp] w']. simpl in Hr.
  destruct (RPC_RESPONSE_SIZE <? _); do 3 eexists; (split; [reflexivity|]);
    (split; [apply read_out_ok; simpl; congruence|apply read_out_idle]).
Qed.

Lemma recv_content_ok tipc w c :
  tipc_ok tipc -> length (req_content c) = Z.to_nat RPC_REQ_SIZE ->
  length (response_content c) = Z.to_nat RPC_RESPONSE_SIZE -> 0 <= water_level c <= RPC_REQ_SIZE ->
  exists c' out w', recv_content tipc w c = Some (c', out, w') /\ client_ok c' /\ idle c'.
Proof.
  intros Ht H1 H2 Hw. unfold recv_content. bcase; [by apply recv_dispatch_ok|].
  destruct (ev_read_law (buffer c) (water_level c)) as [Hd _].
  destruct (bufferevent_read _ _) as [data b1]. simpl in Hd. subst data.
  destruct (poke_ok (req_content c) (take (Z.to_nat (water_level c)) (ev_bytes (buffer c)))) as [-> Hl].
  { rewrite H1, length_take. unfold RPC_REQ_SIZE in *. lia. }
  bcase; [do 3 eexists; split; [reflexivity|]; split; [apply read_out_ok; simpl; congruence|apply read_out_idle]|].
  apply recv_dispatch_ok; [done|simpl; congruence|done].
Qed.

(** One callback: it never writes outside the structure, and keeps the invariant. *)
Lemma tipc_read_ok tipc w c :
  tipc_ok tipc -> client_ok c ->
  exists c' out w', tipc_read tipc w c = Some (c', out, w') /\ client_ok c'.
Proof.
  intros Ht (H1 & H2 & Hst). unfold tipc_read. destruct Hst as [[He Hw]|(He & Hw & Hd)]; rewrite He; simpl.
  - unfold recv_head. destruct (ev_read_law (buffer c) (water_level c)) as [Hr _].
    destruct (bufferevent_read _ _) as [data b1]. simpl in Hr. subst data.
    destruct (poke_ok (header_bytes (head c)) (take (Z.to_nat (water_level c)) (ev_bytes (buffer c)))) as [-> _].
    { rewrite header_bytes_length, length_take, Hw. unfold TIPC_HEADER_SIZE. lia. }
    bcase; [do 3 eexists; split; [reflexivity|]; by apply read_out_ok|].
    bcase; [do 3 eexists; split; [reflexivity|]; by apply read_out_ok|].
    match goal with |- context [tipc_header_ntoh ?h] => pose proof (ntoh_range h) as (_ & _ & _ & Hds) end.
    bcase; [do 3 eexists; split; [reflexivity|]; by apply read_out_ok|].
    bcase.
    + edestruct recv_content_ok as (c' & out & w' & -> & ? & _);
        [exact Ht|..|by eauto]; simpl; [done|done|simpl in *; lia].
    + do 3 eexists. split; [reflexivity|]. split_and!; [done|done|]. right. simpl in *. split_and!; done || lia.
  - destruct (recv_content_ok tipc w c Ht H1 H2) as (c' & out & w' & -> & ? & _); [lia|]. by eauto.
Qed.

Lemma deliver_ok tipc w c l :
  tipc_ok tipc -> client_ok c ->
  exists c' out w', deliver tipc w c l = Some (c', out, w') /\ client_ok c'.
Proof.
  intros Ht Hc. unfold deliver. bcase; [by apply tipc_read_ok|]. do 3 eexists. by split.
Qed.

Lemma deliver_all_ok tipc ls : forall w c,
  tipc_ok tipc -> client_ok c ->
  exists c' out w', deliver_all tipc w c ls = Some (c', out, w') /\ client_ok c'.
Proof.
  induction ls as [|l ls IH]; intros w c Ht Hc; simpl; [by eauto|].
  destruct (deliver_ok tipc w c l Ht Hc) as (c1 & out1 & w1 & -> & H1).
  destruct (IH w1 c1 Ht H1) as (c2 & out2 & w2 & -> & H2). by eauto.
Qed.

(** *** A request *)

(** The connection once the header [h] was accepted. *)
Definition with_request c h (b1 : B) : tipc_client B :=
  TipcClient (fd c) b1 h (req_content c) (response_content c) (data_size h) TIPC_EVENT_RECV_CONTENT.

Lemma recv_head_request tipc w len c h rest :
  water_level c = TIPC_HEADER_SIZE -> ev_bytes (buffer c) = header_bytes (tipc_header_hton h) ++ rest ->
  header_ok h -> prefix h = TIPC_HEAD_PREFIX_VALUE -> data_size h <= RPC_REQ_SIZE ->
  exists b1, ev_bytes b1 = rest /\
    recv_head tipc w len c =
      (if data_size h <=? u64 (len - 16) then recv_content tipc w (with_request c h b1)
       else Some (with_request c h b1, [], w)).
Proof.
  intros Hw Hb Hh Hp Hd. unfold recv_head. rewrite Hw.
  destruct (ev_read_law (buffer c) TIPC_HEADER_SIZE) as [Hr1 Hr2].
  destruct (bufferevent_read _ _) as [data b1]. simpl in Hr1, Hr2. rewrite Hb in Hr1, Hr2.
  change (Z.to_nat TIPC_HEADER_SIZE) with (length (header_bytes (tipc_header_hton h))) in Hr1, Hr2.
  rewrite take_app_length in Hr1. rewrite drop_app_length in Hr2. subst data.
  rewrite poke_exact by done. rewrite header_of_bytes_bytes by apply hton_ok.
  rewrite header_bytes_length. simpl. rewrite ntoh_hton, Hp by done. simpl.
  rewrite (ntohl_htonl (data_size h)) by apply Hh. rewrite (proj2 (Z.ltb_ge _ _) Hd). exists b1. by split.
Qed.

Lemma recv_head_oversize tipc w len c h rest :
  water_level c = TIPC_HEADER_SIZE -> ev_bytes (buffer c) = header_bytes (tipc_header_hton h) ++ rest ->
  header_ok h -> prefix h = TIPC_HEAD_PREFIX_VALUE -> ~ data_size h <= RPC_REQ_SIZE ->
  exists c', recv_head tipc w len c = Some (c', [], w) /\ idle c'.
Proof.
  intros Hw Hb Hh Hp Hd. unfold recv_head. rewrite Hw.
  destruct (ev_read_law (buffer c) TIPC_HEADER_SIZE) as [Hr1 _].
  destruct (bufferevent_read _ _) as [data b1]. simpl in Hr1. rewrite Hb in Hr1.
  change (Z.to_nat TIPC_HEADER_SIZE) with (length (header_bytes (tipc_header_hton h))) in Hr1.
  rewrite take_app_length in Hr1. subst data.
  rewrite poke_exact by done. rewrite header_of_bytes_bytes by apply hton_ok.
  rewrite header_bytes_length. cbn [head with_head with_buffer]. rewrite ntoh_hton by done.
  rewrite Hp, Z.eqb_refl, (proj2 (Z.ltb_lt _ _)) by lia.
  eexists. split; [reflexivity|apply read_out_idle].
Qed.

Lemma recv_content_request tipc w c body rest :
  water_level c = Z.of_nat (length body) -> ev_bytes (buffer c) = body ++ rest ->
  (length body <= length (req_content c))%nat ->
  exists b1, ev_bytes b1 = rest /\
    recv_content tipc w c =
      recv_dispatch tipc w (with_req (with_buffer c b1) (body ++ drop (length body) (req_content c))).
Proof.
  intros Hw Hb Hl. unfold recv_content. bcase.
  - assert (body = []) as -> by (apply nil_length_inv; lia). exists (buffer c).
    split; [done|]. by destruct c.
  - destruct (ev_read_law (buffer c) (water_level c)) as [Hr1 Hr2].
    destruct (bufferevent_read _ _) as [data b1]. simpl in Hr1, Hr2.
    rewrite Hb, Hw, Nat2Z.id in Hr1, Hr2. rewrite take_app_length in Hr1. rewrite drop_app_length in Hr2.
    subst data. destruct (poke_ok (req_content c) body Hl) as [-> _].
    rewrite Hw, Z.eqb_refl. exists b1. by split.
Qed.

(** Part of a body: the callback runs, finds fewer bytes than it expects and gives up. *)
Lemma recv_content_short tipc w c :
  Z.of_nat (length (ev_bytes (buffer c))) < water_level c -> length (req_content c) = Z.to_nat RPC_REQ_SIZE ->
  water_level c <= RPC_REQ_SIZE ->
  exists c', recv_content tipc w c = Some (c', [], w) /\ idle c'.
Proof.
  intros Hlt Hrc Hw. unfold recv_content. bcase; [lia|].
  destruct (ev_read_law (buffer c) (water_level c)) as [Hr1 _].
  destruct (bufferevent_read _ _) as [data b1]. simpl in Hr1. rewrite take_ge in Hr1 by lia. subst data.
  destruct (poke_ok (req_content c) (ev_bytes (buffer c))) as [-> _].
  { rewrite Hrc. unfold RPC_REQ_SIZE in *. lia. }
  bcase; [|lia]. eexists. split; [reflexivity|apply read_out_idle].
Qed.

(** The handler of the request runs, and its answer goes out behind a header. *)
Definition reply_bytes h (ret : Z) (resp : list Z) : list Z :=
  header_bytes (tipc_header_hton (TipcHeader (prefix h) (head_module h) (head_type h) ret))
  ++ take (Z.to_nat ret) resp.

Lemma recv_dispatch_handler tipc w c f ret resp w' :
  head_module (head c) = tipc_module tipc -> head_type (head c) < RPC_MAX_ELEMENT ->
  cb tipc !! Z.to_nat (head_type (head c)) = Some (Some f) ->
  f w (req_content c) (s32 (water_level c)) (response_content c) RPC_RESPONSE_SIZE = (ret, resp, w') ->
  0 <= ret <= RPC_RESPONSE_SIZE ->
  exists c', recv_dispatch tipc w c = Some (c', reply_bytes (head c) ret resp, w') /\ idle c'.
Proof.
  intros Hm Hty Hf Hrun Hret. unfold RPC_RESPONSE_SIZE in Hret. unfold recv_dispatch.
  rewrite Hm, Z.eqb_refl, (proj2 (Z.leb_gt _ _) Hty), Hf. simpl. rewrite Hrun.
  rewrite (proj2 (Z.ltb_ge ret 0)) by lia. unfold RPC_RESPONSE_SIZE. rewrite (proj2 (Z.ltb_ge _ _)) by lia.
  rewrite u32_id by lia. simpl. eexists. split; [|apply read_out_idle].
  unfold reply_bytes. rewrite Hm. do 3 f_equal. bcase; [|done]. by subst ret.
Qed.

(** *** Arrivals *)

Section Arrivals.
Context (tipc : op_tipc W) (w : W) (c : tipc_client B) (h : tipc_header).
Context (Hidle : idle c) (Hok : client_ok c) (Hh : header_ok h)
        (Hprefix : prefix h = TIPC_HEAD_PREFIX_VALUE).
Notation wire := (header_bytes (tipc_header_hton h)).

Lemma append_idle l : ev_bytes (ev_append (buffer c) l) = l.
Proof using Hidle EvBufferLaws0. destruct Hidle as (_ & _ & Hb). by rewrite ev_append_law, Hb. Qed.

(** The request arrives in one piece. *)
Lemma deliver_request body :
  Z.of_nat (length body) = data_size h -> data_size h <= RPC_REQ_SIZE ->
  exists b1, deliver tipc w c (wire ++ body)
    = recv_dispatch tipc w (with_req (with_request c h b1) (body ++ drop (length body) (req_content c))).
Proof using All.
  intros Hb Hd. unfold RPC_REQ_SIZE in Hd. unfold deliver. cbn [buffer with_buffer].
  rewrite ev_length_law, append_idle, length_app, header_bytes_length.
  unfold low_watermark, TIPC_HEADER_SIZE. rewrite (proj2 (Z.leb_le _ _)) by lia.
  pose proof Hidle as (He & Hw & _). unfold tipc_read. cbn [event_type with_buffer buffer]. rewrite He. cbn [Z.eqb].
  rewrite ev_length_law, append_idle, length_app, header_bytes_length.
  destruct (recv_head_request tipc w (Z.of_nat (16 + length body))
    (with_buffer c (ev_append (buffer c) (wire ++ body))) h body) as (b1 & Hb1 & Heq);
    [done|apply append_idle|done|done|done|].
  replace (TIPC_EVENT_RECV_HEAD =? TIPC_EVENT_RECV_HEAD) with true by done. rewrite Heq.
  rewrite u64_id by lia. rewrite (proj2 (Z.leb_le _ _)) by lia.
  change (with_request (with_buffer c _) h b1) with (with_request c h b1).
  destruct (recv_content_request tipc w (with_request c h b1) body []) as (b2 & _ & ->).
  - done.
  - simpl. by rewrite app_nil_r.
  - destruct Hok as (Hr & _). simpl. rewrite Hr. unfold RPC_REQ_SIZE. lia.
  - exists b2. done.
Qed.

(** Only the header arrives: the server waits for the body. *)
Lemma deliver_header :
  0 < data_size h <= RPC_REQ_SIZE ->
  exists b1, ev_bytes b1 = [] /\ deliver tipc w c wire = Some (with_request c h b1, [], w).
Proof using All.
  intros Hd. unfold RPC_REQ_SIZE in Hd. unfold deliver. cbn [buffer with_buffer].
  rewrite ev_length_law, append_idle, header_bytes_length.
  unfold low_watermark, TIPC_HEADER_SIZE. rewrite (proj2 (Z.leb_le _ _)) by lia.
  pose proof Hidle as (He & Hw & _). unfold tipc_read. cbn [event_type with_buffer buffer]. rewrite He. cbn [Z.eqb].
  rewrite ev_length_law, append_idle, header_bytes_length.
  destruct (recv_head_request tipc w 16
    (with_buffer c (ev_append (buffer c) wire)) h []) as (b1 & Hb1 & Heq);
    [done|rewrite app_nil_r; apply append_idle|done|done|unfold RPC_REQ_SIZE; lia|].
  replace (TIPC_EVENT_RECV_HEAD =? TIPC_EVENT_RECV_HEAD) with true by done.
  change (Z.of_nat 16) with 16. rewrite Heq.
  change (u64 (16 - 16)) with 0. rewrite (proj2 (Z.leb_gt _ _)) by lia.
  exists b1. done.
Qed.

(** Then the first part of the body arrives. *)
Lemma deliver_body_part b1 part :
  0 < data_size h <= RPC_REQ_SIZE -> ev_bytes b1 = [] ->
  let c1 := with_request c h b1 in
  (Z.of_nat (length part) < 16 ->
    exists b2, deliver tipc w c1 part = Some (with_request c h b2, [], w)) /\
  (16 <= Z.of_nat (length part) < data_size h ->
    exists c2, deliver tipc w c1 part = Some (c2, [], w) /\ idle c2) /\
  (16 <= Z.of_nat (length part) -> Z.of_nat (length part) = data_size h ->
    exists b2, deliver tipc w c1 part
      = recv_dispatch tipc w (with_req (with_request c h b2) (part ++ drop (length part) (req_content c)))).
Proof using All.
  intros Hd Hb1 c1. unfold deliver. cbn [buffer with_buffer].
  assert (ev_bytes (ev_append (buffer c1) part) = part) as Hp by (by rewrite ev_append_law; simpl; rewrite Hb1).
  rewrite ev_length_law, Hp. unfold low_watermark, TIPC_HEADER_SIZE. destruct Hok as (Hr & _).
  split_and!.
  - intros Hl. rewrite (proj2 (Z.leb_gt _ _)) by lia. eexists. reflexivity.
  - intros Hl. rewrite (proj2 (Z.leb_le _ _)) by lia. unfold tipc_read. simpl.
    apply recv_content_short; simpl; [simpl in Hp; rewrite Hp; lia|done|lia].
  - intros Hl Heq. rewrite (proj2 (Z.leb_le _ _)) by lia. unfold tipc_read. simpl.
    edestruct (recv_content_request tipc w (with_buffer c1 (ev_append b1 part)) part []) as (b2 & _ & He).
    + simpl. done.
    + rewrite app_nil_r. exact Hp.
    + simpl. rewrite Hr. unfold RPC_REQ_SIZE in *. lia.
    + exists b2. exact He.
Qed.
End Arrivals.
End Server.

(** ** The client *)

Section Client.
Context (module type : Z) (Hm : 0 <= module < W32) (Ht : 0 <= type < W32).

Lemma prefix_range : 0 <= TIPC_HEAD_PREFIX_VALUE < W32.
Proof. unfold TIPC_HEAD_PREFIX_VALUE. lia. Qed.

(** The request goes out as its header, in wire order, and [data_size] bytes. *)
Lemma request_ok req size :
  0 <= size < W32 -> (forall l, req = Some l -> (Z.to_nat size <= length l)%nat) ->
  header_ok (request_header module type req size) /\
  Z.of_nat (length (request_body module type req size)) = data_size (request_header module type req size).
Proof using Hm Ht.
  intros Hs Hl. assert (0 <= data_size (request_header module type req size) < W32) as Hd.
  { simpl. destruct req; [bcase|]; lia. }
  split; [split; [apply prefix_range|split; [done|split; done]]|].
  unfold request_body. cbn [data_size tipc_header_hton].
  destruct (htonl (data_size (request_header module type req size)) =? 0) eqn:E; btest.
  - apply (proj1 (htonl_zero _ Hd)) in E. by rewrite E.
  - assert (data_size (request_header module type req size) <> 0) as Hne
      by (intros H0; apply E; by apply (htonl_zero _ Hd)).
    simpl in *. destruct req as [l|]; [|done]. specialize (Hl l eq_refl).
    destruct (size <=? 0); btest; [done|]. simpl. rewrite length_take. lia.
Qed.

(** A reply read back in two pieces, header and content. *)
Lemma send_reads_reply env req size h ret resp buf response_size :
  0 <= sock env -> 0 <= connected env -> 0 < wait_ready env -> alloc_ok env = true ->
  header_ok h -> prefix h = TIPC_HEAD_PREFIX_VALUE -> 0 <= ret <= RPC_RESPONSE_SIZE ->
  (Z.to_nat ret <= length resp)%nat -> 0 < response_size ->
  reads env = [take 16 (reply_bytes h ret resp); drop 16 (reply_bytes h ret resp)] ->
  op_tipc_send_ex env module type req size (Some buf) response_size =
    (Z.min response_size ret, request_head module type req size ++ request_body module type req size,
     Some (take (Z.to_nat (Z.min response_size ret)) resp ++ drop (Z.to_nat (Z.min response_size ret)) buf)).
Proof using Hm Ht.
  intros Hso Hco Hwa Hal (H1 & H2 & H3 & H4) Hp Hret Hlen Hrs Hrd. unfold RPC_RESPONSE_SIZE in Hret.
  unfold op_tipc_send_ex, op_tipc_send_common.
  rewrite (proj2 (Z.ltb_ge _ _) Hso), (proj2 (Z.ltb_ge _ _) Hco).
  rewrite (proj2 (Z.leb_gt _ _) Hrs), (proj2 (Z.leb_gt _ _) Hwa), Hrd, Hal.
  set (h1 := TipcHeader (prefix h) (head_module h) (head_type h) ret).
  assert (header_ok h1) as Hh1 by (unfold header_ok; simpl; split_and!; lia).
  assert (take 16 (reply_bytes h ret resp) = header_bytes (tipc_header_hton h1)) as -> by done.
  assert (drop 16 (reply_bytes h ret resp) = take (Z.to_nat ret) resp) as -> by done.
  cbn [next_read tail]. rewrite (take_ge (header_bytes _)) by done. rewrite header_bytes_length.
  change (negb (Z.of_nat 16 =? TIPC_HEADER_SIZE)) with false. cbv iota.
  rewrite wire_roundtrip by done. cbn [prefix data_size h1]. rewrite Hp, Z.eqb_refl. cbn [negb].
  destruct (ret =? 0) eqn:E0; btest.
  { subst ret. rewrite Z.min_r by lia. done. }
  unfold RPC_RESPONSE_SIZE. rewrite (proj2 (Z.ltb_ge _ _)) by lia.
  rewrite take_take, Nat.min_id, length_take, Nat.min_l, Z2Nat.id, s32_id, Z.eqb_refl by lia.
  rewrite (proj2 (Z.leb_gt _ _)) by lia. cbn [orb negb].
  assert ((if response_size <? ret then response_size else ret) = Z.min response_size ret) as -> by (bcase; lia).
  rewrite take_take, Nat.min_l by lia. rewrite length_take, Nat.min_l by lia. done.
Qed.
End Client.

(** ** Connections *)

#[export] Instance tipc_key :
  OpHash.HashKey (fun r => tipc_hash (Some r)) (fun x y => tipc_compare (Some x) (Some y)) ref_fd.
Proof.
  constructor.
  - intros x y. simpl. bcase; naive_solver.
  - intros x y E. simpl. by rewrite E.
  - intros x. apply u64_range.
Qed.

Section Connections.
Context {B : Type} `{!EvBuffer B, !EvBufferLaws B} {W T : Type} `{!KeyTable T ref_fd, !KeyTableLaws T ref_fd}.
Implicit Types (s : tipc_server (B := B) (T := T)) (tipc : op_tipc W).

(** The table lists exactly the clients, under their descriptors, all of them open; every
    client is in a state of the protocol. *)
Record server_ok s : Prop := {
  s_hash : kt_wf (client_hash s);
  s_refs : forall r, r ∈ kt_items (client_hash s) <->
    exists c, clients s !! ref_addr r = Some c /\ fd c = ref_fd r;
  s_open : forall a c, clients s !! a = Some c -> fd c ∈ open_fds s /\ 0 < fd c;
  s_client : forall a c, clients s !! a = Some c -> client_ok c;
}.

(** The descriptors of the clients. *)
Definition client_fd s (n : Z) : Prop := exists a c, clients s !! a = Some c /\ fd c = n.
(** The open descriptors are those of the clients and the [lost] ones, which no client has. *)
Definition accounted s (lost : list Z) : Prop :=
  (forall n, n ∈ open_fds s <-> client_fd s n \/ n ∈ lost) /\ (forall n, n ∈ lost -> ~ client_fd s n).

Lemma free_client_ok s a c :
  server_ok s -> clients s !! a = Some c ->
  server_ok (rpc_free_client (Some a) s) /\
  clients (rpc_free_client (Some a) s) = delete a (clients s) /\
  open_fds (rpc_free_client (Some a) s) = filter (fun x => x <> fd c) (open_fds s).
Proof.
  intros Hs Hc. unfold rpc_free_client. rewrite Hc. destruct (s_open s Hs a c Hc) as [Ho Hpos].
  rewrite (proj2 (Z.eqb_neq _ _)) by lia. split; [|done].
  assert (ConnRef (fd c) a ∈ kt_items (client_hash s)) as Hin by (apply (s_refs s Hs); by exists c).
  destruct (kt_delete_present (client_hash s) (ConnRef (fd c) a) _ (s_hash s Hs) Hin eq_refl) as [Hw Hp].
  pose proof (kt_nodup _ (s_hash s Hs)) as Hnd. rewrite Hp in Hnd. simpl in Hnd.
  apply NoDup_cons in Hnd as [Hnin _].
  assert (forall r, r ∈ kt_items (kt_delete (client_hash s) (ConnRef (fd c) a)).2 <->
                    r ∈ kt_items (client_hash s) /\ ref_fd r <> fd c) as Hr.
  { intros r. rewrite Hp, elem_of_cons. split.
    - intros Hr. split; [by right|]. intros Heq. apply Hnin. apply list_elem_of_fmap. by exists r.
    - intros [[->|?] Hne]; [by destruct Hne|done]. }
  constructor; simpl; [done| | |].
  - intros r. rewrite Hr, (s_refs s Hs). split.
    + intros [(c1 & Hc1 & Hf1) Hne]. exists c1. rewrite lookup_delete_ne; [done|]. intros ->. congruence.
    + intros (c1 & Hc1 & Hf1). apply lookup_delete_Some in Hc1 as [Hne Hc1].
      split; [by exists c1|]. intros Heq. apply Hne.
      assert (ConnRef (fd c1) (ref_addr r) ∈ kt_items (client_hash s)) as Hin1
        by (apply (s_refs s Hs); by exists c1).
      assert (ConnRef (fd c1) (ref_addr r) = ConnRef (fd c) a) as [=]; [|congruence].
      apply (kt_key_inj (client_hash s)); [apply Hs|done|done|]. simpl. congruence.
  - intros a1 c1 Hc1. apply lookup_delete_Some in Hc1 as [Hne Hc1].
    destruct (s_open s Hs a1 c1 Hc1) as [Ho1 ?]. split; [|done]. apply list_elem_of_filter. split; [|done].
    intros Heq. apply Hne.
    assert (ConnRef (fd c1) a1 = ConnRef (fd c) a) as [=]; [|congruence].
    apply (kt_key_inj (client_hash s)); [apply Hs|apply (s_refs s Hs); by exists c1|done|done].
  - intros a1 c1 Hc1. apply lookup_delete_Some in Hc1 as [_ Hc1]. by eapply (s_client s Hs).
Qed.

(** A new connection, all its allocations granted: [accept] returns a descriptor that is not
    open, [op_calloc] memory that is not in use. *)
Lemma accept_ok s n a b (empty : B) :
  server_ok s -> Z.of_nat (length (kt_items (client_hash s))) < kt_room ->
  0 < n -> n ∉ open_fds s -> clients s !! a = None ->
  let s' := rpc_tipc_accept__dispatch n (Some a) (Some b) empty s in
  server_ok s' /\ clients s' = <[a := new_client n b]> (clients s) /\ open_fds s' = n :: open_fds s.
Proof.
  intros Hs Hroom Hpos Hn Ha. unfold rpc_tipc_accept__dispatch.
  rewrite (proj2 (Z.ltb_ge _ _)) by lia. simpl. split; [|done].
  destruct (kt_insert_fresh (client_hash s) (ConnRef n a) (s_hash s Hs) Hroom) as [Hw Hp].
  { intros x (c & Hc & Hf)%(s_refs s Hs) Heq. destruct (s_open s Hs _ _ Hc) as [Ho _]. simpl in *. congruence. }
  constructor; simpl; [done| | |].
  - intros r. rewrite Hp, elem_of_cons, (s_refs s Hs). split.
    + intros [->|(c & Hc & Hf)]; simpl; [eexists; split; [apply lookup_insert_eq|done]|].
      exists c. rewrite lookup_insert_ne; [done|]. intros ->. congruence.
    + intros (c & Hc & Hf). apply lookup_insert_Some in Hc as [[Heq <-]|[Hne Hc]]; [left|right; eauto].
      destruct r as [f1 a1]. simpl in *. congruence.
  - intros a1 c1 Hc1. apply lookup_insert_Some in Hc1 as [[_ <-]|[_ Hc1]]; [split; [by left|done]|].
    destruct (s_open s Hs a1 c1 Hc1). split; [by right|done].
  - intros a1 c1 Hc1. apply lookup_insert_Some in Hc1 as [[_ <-]|[_ Hc1]]; [apply new_client_ok|].
    by eapply (s_client s Hs).
Qed.

Lemma replace_client_ok s a c c' :
  server_ok s -> clients s !! a = Some c -> fd c' = fd c -> client_ok c' ->
  server_ok (TipcServer (<[a := c']> (clients s)) (client_hash s) (open_fds s)).
Proof.
  intros Hs Hc Hf Hok. constructor; simpl; [apply Hs| | |].
  - intros r. rewrite (s_refs s Hs). destruct (decide (a = ref_addr r)) as [->|Hne].
    + rewrite lookup_insert_eq. naive_solver congruence.
    + by rewrite lookup_insert_ne.
  - intros a1 c1 Hc1. apply lookup_insert_Some in Hc1 as [[_ <-]|[_ Hc1]]; [rewrite Hf|]; by eapply (s_open s Hs).
  - intros a1 c1 Hc1. apply lookup_insert_Some in Hc1 as [[_ <-]|[_ Hc1]]; [done|]. by eapply (s_client s Hs).
Qed.

(** A failure after [accept]: without a client structure the descriptor stays open for good; the
    structure of a client whose buffer cannot be made is released and its descriptor closed. *)
Lemma accept_no_memory s n bev (empty : B) :
  0 <= n -> rpc_tipc_accept__dispatch n None bev empty s
            = TipcServer (clients s) (client_hash s) (n :: open_fds s).
Proof. intros Hn. unfold rpc_tipc_accept__dispatch. by rewrite (proj2 (Z.ltb_ge _ _)) by lia. Qed.
Lemma accept_no_buffer s n a (empty : B) :
  server_ok s -> 0 < n -> n ∉ open_fds s -> clients s !! a = None ->
  let s' := rpc_tipc_accept__dispatch n (Some a) None empty s in
  server_ok s' /\ clients s' = clients s /\ open_fds s' = open_fds s.
Proof.
  intros Hs Hpos Hn Ha. unfold rpc_tipc_accept__dispatch, rpc_free_client.
  rewrite (proj2 (Z.ltb_ge _ _)) by lia. simpl. rewrite lookup_insert_eq. cbn [fd new_client].
  rewrite (proj2 (Z.eqb_neq n 0)) by lia.
  assert (delete a (<[a := new_client n empty]> (clients s)) = clients s) as -> by (by rewrite delete_insert_id).
  rewrite filter_cons_False by tauto.
  assert (filter (fun x => x <> n) (open_fds s) = open_fds s) as ->.
  { clear -Hn. induction (open_fds s) as [|y l IH]; [done|]. apply not_elem_of_cons in Hn as [Hy Hn].
    by rewrite filter_cons_True, IH by done. }
  assert (forall x, x ∈ kt_items (client_hash s) -> ref_fd x <> n) as Hno.
  { intros x (c & Hc & Hf)%(s_refs s Hs) Heq. destruct (s_open s Hs _ _ Hc) as [Ho _]. congruence. }
  destruct (kt_delete_law (client_hash s) (ConnRef n a) (s_hash s Hs)) as [Hw Hd].
  destruct (fst (kt_delete _ _)) as [x|].
  { destruct Hd as [Hk Hp]. destruct (Hno x); [rewrite Hp; by left|done]. }
  destruct Hd as [Hp _]. split; [|done]. destruct Hs as [_ Hr Ho Hcl]. constructor; simpl; [done| |done|done].
  intros r. by rewrite Hp.
Qed.

(** *** Every history of the server *)

Lemma deliver_fd tipc (w w' : W) c l c' out :
  deliver (B := B) tipc w c l = Some (c', out, w') -> fd c' = fd c.
Proof.
  assert (forall w c c' out w', recv_dispatch tipc w c = Some (c', out, w') -> fd c' = fd c) as Hd.
  { intros w1 c1 c2 o2 w2. unfold recv_dispatch. repeat bcase; try (intros [= <- <- <-]; done).
    destruct (cb tipc !! _) as [[f|]|]; try (intros [= <- <- <-]; done).
    destruct (f w1 _ _ _ _) as [[r1 r2] r3]. destruct (RPC_RESPONSE_SIZE <? _); by intros [= <- <- <-]. }
  assert (forall w c c' out w', recv_content tipc w c = Some (c', out, w') -> fd c' = fd c) as Hc.
  { intros w1 c1 c2 o2 w2. unfold recv_content. bcase; [by apply Hd|].
    destruct (bufferevent_read _ _) as [data b1]. destruct (poke _ _); [|done].
    bcase; [by intros [= <- <- <-]|]. intros H1. by apply Hd in H1. }
  unfold deliver. bcase; [|by intros [= <- <- <-]]. unfold tipc_read, recv_head. bcase.
  - destruct (bufferevent_read _ _) as [data b1]. destruct (poke _ _); [|done].
    repeat bcase; try (intros [= <- <- <-]; done). intros H1. by apply Hc in H1.
  - bcase; [intros H1; by apply Hc in H1|by intros [= <- <- <-]].
Qed.

(** What can happen to the server: [accept] answers a new descriptor (0 is the standard input and
    stays open) or fails, the allocation and the buffer are granted or not; a client disconnects;
    bytes arrive. The last component collects the descriptors for which there was no memory. *)
Inductive server_step tipc : tipc_server (B := B) (T := T) * W * list Z -> tipc_server * W * list Z -> Prop :=
| step_accept s w lost n alloc bev empty :
    Z.of_nat (length (kt_items (client_hash s))) < kt_room -> 0 < n -> n ∉ open_fds s ->
    (forall a, alloc = Some a -> clients s !! a = None) ->
    server_step tipc (s, w, lost)
      (rpc_tipc_accept__dispatch n alloc bev empty s, w, match alloc with Some _ => lost | None => n :: lost end)
| step_refused s w lost n alloc bev empty :
    n < 0 -> server_step tipc (s, w, lost) (rpc_tipc_accept__dispatch n alloc bev empty s, w, lost)
| step_event s w lost what a c :
    clients s !! a = Some c -> server_step tipc (s, w, lost) (tipc_event what (Some a) s, w, lost)
| step_deliver s w lost a l s' out w' :
    server_deliver tipc w a l s = Some (s', out, w') -> server_step tipc (s, w, lost) (s', w', lost).

Definition tracked (st : tipc_server (B := B) (T := T) * W * list Z) : Prop :=
  server_ok (fst (fst st)) /\ accounted (fst (fst st)) (snd st).

Lemma accounted_same s s' lost :
  (forall n, client_fd s' n <-> client_fd s n) -> open_fds s' = open_fds s -> accounted s lost -> accounted s' lost.
Proof.
  intros Hc Ho [H1 H2]. split.
  - intros n. by rewrite Ho, H1, Hc.
  - intros n Hn. rewrite Hc. by apply H2.
Qed.

Lemma accept_tracked tipc s w lost n alloc bev empty :
  tracked (s, w, lost) -> Z.of_nat (length (kt_items (client_hash s))) < kt_room -> 0 < n -> n ∉ open_fds s ->
  (forall a, alloc = Some a -> clients s !! a = None) ->
  tracked (rpc_tipc_accept__dispatch n alloc bev empty s, w, match alloc with Some _ => lost | None => n :: lost end).
Proof using All.
  intros [Hs Hl] Hr Hp Hn Ha. unfold tracked in *. simpl in *. pose proof Hl as [H1 H2]. destruct alloc as [a|].
  2: { rewrite accept_no_memory by lia. split; [destruct Hs; constructor; try done; simpl; set_solver|]. split; simpl.
       - intros k. rewrite !elem_of_cons, H1. tauto.
       - intros k [->|Hk]%elem_of_cons; [|by apply H2]. intros Hc. apply Hn, H1. by left. }
  specialize (Ha a eq_refl). destruct bev as [b|].
  - destruct (accept_ok s n a b empty Hs Hr Hp Hn Ha) as (Hok & Hc & Ho). split; [done|].
    assert (forall k, client_fd (rpc_tipc_accept__dispatch n (Some a) (Some b) empty s) k <-> k = n \/ client_fd s k) as Hcf.
    { intros k. unfold client_fd. rewrite Hc. split.
      - intros (a1 & c1 & [[<- <-]|[_ Hc1]]%lookup_insert_Some & <-); [by left|right; eauto].
      - intros [->|(a1 & c1 & Hc1 & <-)]; [exists a; eexists; split; [apply lookup_insert_eq|done]|].
        exists a1, c1. rewrite lookup_insert_ne by congruence. done. }
    split; intros k.
    + rewrite Ho, elem_of_cons, H1, Hcf. tauto.
    + intros Hk. rewrite Hcf. intros [->|Hc1]; [|by apply (H2 k Hk)]. apply Hn, H1. by right.
  - destruct (accept_no_buffer s n a empty Hs Hp Hn Ha) as (Hok & Hc & Ho). split; [done|].
    apply (accounted_same s); [|done|done]. intros k. unfold client_fd. by rewrite Hc.
Qed.

Lemma event_tracked tipc s w lost what a c :
  tracked (s, w, lost) -> clients s !! a = Some c -> tracked (tipc_event what (Some a) s, w, lost).
Proof using All.
  intros [Hs Hl] Hc. unfold tracked, tipc_event in *. cbn [fst snd] in *. bcase; [|done].
  destruct (free_client_ok s a c Hs Hc) as (Hok & Hcl & Ho). split; [done|]. destruct Hl as [H1 H2].
  assert (forall k, client_fd (rpc_free_client (Some a) s) k <-> client_fd s k /\ k <> fd c) as Hcf.
  { intros k. unfold client_fd. rewrite Hcl. split.
    - intros (a1 & c1 & [Hne Hc1]%lookup_delete_Some & <-). split; [eauto|]. intros Heq. apply Hne.
      assert (ConnRef (fd c1) a1 = ConnRef (fd c) a) as [=]; [|congruence].
      apply (kt_key_inj (client_hash s)); [apply Hs|apply (s_refs s Hs); by exists c1|apply (s_refs s Hs); by exists c|done].
    - intros [(a1 & c1 & Hc1 & <-) Hne]. exists a1, c1. rewrite lookup_delete_ne by congruence. done. }
  split; intros k.
  - rewrite Ho, list_elem_of_filter, H1, Hcf. split; [tauto|]. intros [[? ?]|Hk]; [tauto|]. split; [|by right].
    intros ->. apply (H2 _ Hk). by exists a, c.
  - intros Hk. rewrite Hcf. intros [? _]. by apply (H2 k Hk).
Qed.

Lemma deliver_tracked tipc s w lost a l s' out w' :
  tipc_ok tipc -> tracked (s, w, lost) -> server_deliver tipc w a l s = Some (s', out, w') -> tracked (s', w', lost).
Proof using All.
  intros Ht [Hs Hl] Hd. unfold tracked, server_deliver in *. simpl in *.
  destruct (clients s !! a) as [c|] eqn:Hc; [|by injection Hd as <- <- <-].
  destruct (deliver_ok tipc w c l Ht (s_client s Hs a c Hc)) as (c' & o & w1 & He & Hok).
  pose proof (deliver_fd _ _ _ _ _ _ _ He) as Hf. rewrite He in Hd. injection Hd as <- <- <-.
  split; [by eapply replace_client_ok|]. apply (accounted_same s); [|done|done]. intros k. unfold client_fd. simpl. split.
  - intros (a1 & c1 & [[<- <-]|[_ Hc1]]%lookup_insert_Some & <-); [exists a, c; by rewrite Hf|eauto].
  - intros (a1 & c1 & Hc1 & <-). destruct (decide (a = a1)) as [<-|Hne].
    + exists a, c'. rewrite lookup_insert_eq. split; [done|congruence].
    + exists a1, c1. by rewrite lookup_insert_ne.
Qed.

Lemma server_step_tracked tipc st st' :
  tipc_ok tipc -> tracked st -> server_step tipc st st' -> tracked st' /\ forall n, n ∈ snd st -> n ∈ snd st'.
Proof using All.
  intros Ht Hs Hst. destruct Hst as [s w lost n alloc bev empty|s w lost n al bev empty Hn|s w lost what a c|s w lost a l s' out w'].
  - split; [by eapply accept_tracked|]. intros k Hk. simpl. destruct alloc; [done|by right].
  - unfold rpc_tipc_accept__dispatch. by rewrite (proj2 (Z.ltb_lt _ _) Hn).
  - split; [by eapply event_tracked|done].
  - split; [by eapply deliver_tracked|done].
Qed.
Lemma server_run_tracked tipc st st' :
  tipc_ok tipc -> rtc (server_step tipc) st st' -> tracked st -> tracked st' /\ forall n, n ∈ snd st -> n ∈ snd st'.
Proof using All.
  intros Ht Hr. induction Hr as [|x y z Hstep _ IH]; intros Hs; [done|].
  destruct (server_step_tracked tipc x y Ht Hs Hstep) as [Hy Hxy]. destruct (IH Hy) as [Hz Hyz]. auto.
Qed.
End Connections.

(** ** Concrete parties for the witnesses *)

(** A handler that answers with its request reversed; the world counts the calls. *)
Definition echo : rpc_cb Z := fun w req n resp m =>
  (n, rev (take (Z.to_nat n) req) ++ drop (Z.to_nat n) resp, w + 1).

(** Requests and responses of up to [m] bytes only, so that it stays inside its buffer. *)
Definition safe_echo : rpc_cb Z := fun w req n resp m =>
  if (0 <=? n) && (n <=? Z.of_nat (length req)) && (n <=? Z.of_nat (length resp)) then echo w req n resp m
  else (0, resp, w).

Lemma safe_echo_ok : handler_ok safe_echo.
Proof.
  intros w req n resp m. unfold safe_echo, echo. bcase; [|done]. btest. simpl.
  rewrite length_app, length_rev, length_take, length_drop. lia.
Qed.

Definition demo_tipc : op_tipc Z :=
  OpTipc (<[2%nat := Some safe_echo]> (replicate 1024 None)) 1001.

Lemma demo_tipc_ok : tipc_ok demo_tipc.
Proof.
  intros i f Hf. unfold demo_tipc in Hf. cbn [cb] in Hf.
  apply list_lookup_insert_Some in Hf as [(_ & [= <-] & _)|[_ Hf]]; [apply safe_echo_ok|].
  by apply lookup_replicate in Hf as [? _].
Qed.

Definition demo_client : tipc_client (list Z) := new_client 7 [].

Definition demo_req : list Z := [1; 2; 3; 4; 5; 6; 7; 8; 9; 10; 11; 12; 13; 14; 15; 16; 17].

(** ** Properties *)

(** A request that arrives in one piece on an idle connection is answered by its handler, and the
    caller reads the answer. *)
Lemma call_and_reply {B} `{!EvBuffer B, !EvBufferLaws B} {W}
    (tipc : op_tipc W) (w w' : W) (c : tipc_client B) env type req size f ret resp buf response_size :
  client_ok c -> idle c ->
  0 <= tipc_module tipc < W32 -> 0 <= type < RPC_MAX_ELEMENT -> cb tipc !! Z.to_nat type = Some (Some f) ->
  0 <= size <= RPC_REQ_SIZE -> (forall l, req = Some l -> (Z.to_nat size <= length l)%nat) ->
  let body := request_body (tipc_module tipc) type req size in
  f w (body ++ drop (length body) (req_content c)) (Z.of_nat (length body)) (response_content c) RPC_RESPONSE_SIZE
    = (ret, resp, w') ->
  0 <= ret <= RPC_RESPONSE_SIZE -> (Z.to_nat ret <= length resp)%nat ->
  0 <= sock env -> 0 <= connected env -> 0 < wait_ready env -> alloc_ok env = true -> 0 < response_size ->
  let sent := request_head (tipc_module tipc) type req size ++ body in
  exists c' reply,
    deliver tipc w c sent = Some (c', reply, w') /\ idle c' /\
    (reads env = [take 16 reply; drop 16 reply] ->
     op_tipc_send_ex env (tipc_module tipc) type req size (Some buf) response_size =
       (Z.min response_size ret, sent,
        Some (take (Z.to_nat (Z.min response_size ret)) resp ++ drop (Z.to_nat (Z.min response_size ret)) buf))).
Proof.
  intros Hok Hid Hm Ht Hf Hs Hl body Hrun Hret Hlen Hso Hco Hwa Hal Hrs sent.
  unfold RPC_MAX_ELEMENT, RPC_REQ_SIZE in *. set (h := request_header (tipc_module tipc) type req size).
  destruct (request_ok (tipc_module tipc) type Hm ltac:(lia) req size ltac:(lia) Hl) as [Hh Hb].
  fold h body in Hh, Hb.
  assert (data_size h <= 4096) as Hd by (unfold h; simpl; destruct req; [bcase|]; lia).
  destruct (deliver_request tipc w c h Hid Hok Hh eq_refl body Hb Hd) as (b1 & Hdel).
  destruct (recv_dispatch_handler tipc w
    (with_req (with_request c h b1) (body ++ drop (length body) (req_content c))) f ret resp w')
    as (c' & Hdis & Hidle); try done.
  { simpl. unfold RPC_MAX_ELEMENT. lia. }
  { cbn [water_level with_req with_request req_content response_content]. rewrite <- Hb, s32_id by lia. exact Hrun. }
  exists c', (reply_bytes h ret resp). split; [|split; [done|]].
  - unfold sent, request_head. fold h. by rewrite Hdel, Hdis.
  - intros Hrd. by apply (send_reads_reply (tipc_module tipc) type Hm ltac:(lia) env req size h ret resp buf).
Qed.

(** C6. A call from end to end. [op_tipc_send_ex] writes a request, the server reads it in one
    piece on an idle connection, its handler for that type runs exactly once on the request
    bytes, and the caller gets back the first [min(response_size, ret)] bytes of the handler's
    response with that count as result, [ret] being what the handler returned (at most
    [RPC_RESPONSE_SIZE]); the connection is idle again. *)
Theorem rpc_call_end_to_end {B} `{!EvBuffer B, !EvBufferLaws B} {W}
    (tipc : op_tipc W) (w w' : W) (c : tipc_client B) env type req size f ret resp buf response_size :
  client_ok c -> idle c ->
  0 <= tipc_module tipc < W32 -> 0 <= type < RPC_MAX_ELEMENT -> cb tipc !! Z.to_nat type = Some (Some f) ->
  0 <= size <= RPC_REQ_SIZE -> (forall l, req = Some l -> (Z.to_nat size <= length l)%nat) ->
  let body := request_body (tipc_module tipc) type req size in
  f w (body ++ drop (length body) (req_content c)) (Z.of_nat (length body)) (response_content c) RPC_RESPONSE_SIZE
    = (ret, resp, w') ->
  0 <= ret <= RPC_RESPONSE_SIZE -> (Z.to_nat ret <= length resp)%nat ->
  0 <= sock env -> 0 <= connected env -> 0 < wait_ready env -> alloc_ok env = true -> 0 < response_size ->
  let sent := request_head (tipc_module tipc) type req size ++ body in
  exists c' reply,
    deliver tipc w c sent = Some (c', reply, w') /\ idle c' /\
    (reads env = [take 16 reply; drop 16 reply] ->
     op_tipc_send_ex env (tipc_module tipc) type req size (Some buf) response_size =
       (Z.min response_size ret, sent,
        Some (take (Z.to_nat (Z.min response_size ret)) resp ++ drop (Z.to_nat (Z.min response_size ret)) buf))).
Proof. apply call_and_reply. Qed.

Lemma rpc_call_end_to_end_witness :
  let env := SendEnv 5 0 1 [be32 4009636945 ++ be32 1001 ++ be32 2 ++ be32 17; rev demo_req] true in
  fst (fst (op_tipc_send_ex env 1001 2 (Some demo_req) 17 (Some (replicate 20 0)) 20)) = 17.
Proof.
  intros env.
  assert (idle demo_client) as Hid by (split_and!; reflexivity).
  destruct (rpc_call_end_to_end demo_tipc 0 1 demo_client env 2 (Some demo_req) 17 safe_echo 17
    (rev demo_req ++ replicate 8175 0) (replicate 20 0) 20 (new_client_ok 7 []) Hid) as (c' & reply & Hd & _ & Hr).
  - simpl. lia.
  - unfold RPC_MAX_ELEMENT. lia.
  - reflexivity.
  - unfold RPC_REQ_SIZE. lia.
  - intros l [= <-]. simpl. lia.
  - vm_compute. reflexivity.
  - unfold RPC_RESPONSE_SIZE. lia.
  - vm_compute. lia.
  - simpl. lia.
  - simpl. lia.
  - simpl. lia.
  - reflexivity.
  - lia.
  - change 1001 with (tipc_module demo_tipc). rewrite Hr; [reflexivity|].
    vm_compute in Hd. injection Hd as _ <-. reflexivity.
Defined.

(** C15. Whatever bytes arrive on a connection, in whatever pieces, the server never writes
    outside the client structure (the header, the 4096-byte request buffer) and always ends in a
    state of the protocol: waiting for a header with a watermark of 16 bytes, or for a body of
    the announced size, which is at most 4096. *)
Theorem tipc_server_memory_safe {B} `{!EvBuffer B, !EvBufferLaws B} {W}
    (tipc : op_tipc W) (w : W) n (buf : B) (arrivals : list (list Z)) :
  tipc_ok tipc ->
  exists c out w', deliver_all tipc w (new_client n buf) arrivals = Some (c, out, w') /\ client_ok c.
Proof. intros Ht. apply deliver_all_ok; [done|]. apply new_client_ok. Qed.

Lemma tipc_server_memory_safe_witness :
  exists c out w', deliver_all demo_tipc 0 demo_client [[1; 2; 3]; replicate 5000 255; [238]] = Some (c, out, w')
    /\ client_ok c.
Proof. apply (tipc_server_memory_safe demo_tipc 0 7 [] _ demo_tipc_ok). Defined.

(** A body that arrives apart from its header is not waited for: libevent runs the callback
    on 16 buffered bytes whatever [water_level] says, because the watermark is set once, for the
    header. A first part of less than 16 bytes leaves the server waiting; 16 bytes or more, but
    not all, make it give up the request; only a body of at least 16 bytes in one piece reaches
    the dispatcher. A body of fewer than 16 bytes sent after its header is never answered. *)
Theorem rpc_body_after_header {B} `{!EvBuffer B, !EvBufferLaws B} {W}
    (tipc : op_tipc W) (w : W) (c : tipc_client B) h part :
  client_ok c -> idle c -> header_ok h -> prefix h = TIPC_HEAD_PREFIX_VALUE ->
  0 < data_size h <= RPC_REQ_SIZE ->
  let run := deliver_all tipc w c [header_bytes (tipc_header_hton h); part] in
  (Z.of_nat (length part) < 16 ->
     exists c', run = Some (c', [], w) /\ event_type c' = TIPC_EVENT_RECV_CONTENT) /\
  (16 <= Z.of_nat (length part) < data_size h -> exists c', run = Some (c', [], w) /\ idle c') /\
  (16 <= Z.of_nat (length part) -> Z.of_nat (length part) = data_size h ->
     exists b1, run = recv_dispatch tipc w
       (with_req (with_request c h b1) (part ++ drop (length part) (req_content c)))).
Proof.
  intros Hok Hid Hh Hp Hd run.
  destruct (deliver_header tipc w c h Hid Hok Hh Hp Hd) as (b1 & Hb1 & Hhd).
  destruct (deliver_body_part tipc w c h Hid Hok Hh Hp b1 part Hd Hb1) as (H1 & H2 & H3).
  unfold run. cbn [deliver_all]. rewrite Hhd. split_and!.
  - intros Hl. destruct (H1 Hl) as (b2 & ->). eexists. split; [reflexivity|done].
  - intros Hl. destruct (H2 Hl) as (c2 & -> & Hi). eexists. split; [reflexivity|done].
  - intros Hl He. destruct (H3 Hl He) as (b2 & ->). exists b2.
    destruct (recv_dispatch _ _ _) as [[[c2 out] w2]|]; [|done]. cbn [deliver_all]. by rewrite app_nil_r.
Qed.

Lemma rpc_body_after_header_witness :
  exists c', deliver_all demo_tipc 0 demo_client
    [request_head 1001 2 (Some [9; 9]) 2; request_body 1001 2 (Some [9; 9]) 2] = Some (c', [], 0) /\
    event_type c' = TIPC_EVENT_RECV_CONTENT.
Proof.
  destruct (rpc_body_after_header demo_tipc 0 demo_client (request_header 1001 2 (Some [9; 9]) 2) [9; 9])
    as (Hstall & _).
  - apply new_client_ok.
  - split_and!; reflexivity.
  - unfold header_ok. simpl. unfold TIPC_HEAD_PREFIX_VALUE. lia.
  - reflexivity.
  - simpl. unfold RPC_REQ_SIZE. lia.
  - apply Hstall. simpl. lia.
Defined.

(** A complete request the server refuses (too large a body, a foreign module, a type that
    is out of range or has no handler) is not answered, runs no handler, and leaves the
    connection idle, with everything received thrown away. *)
Theorem rpc_refused_is_silent {B} `{!EvBuffer B, !EvBufferLaws B} {W}
    (tipc : op_tipc W) (w : W) (c : tipc_client B) h body :
  client_ok c -> idle c -> header_ok h -> prefix h = TIPC_HEAD_PREFIX_VALUE ->
  Z.of_nat (length body) = data_size h ->
  RPC_REQ_SIZE < data_size h \/ head_module h <> tipc_module tipc \/ RPC_MAX_ELEMENT <= head_type h \/
    (forall f, cb tipc !! Z.to_nat (head_type h) <> Some (Some f)) ->
  exists c', deliver tipc w c (header_bytes (tipc_header_hton h) ++ body) = Some (c', [], w) /\ idle c'.
Proof.
  intros Hok Hid Hh Hp Hb Hbad.
  destruct (decide (data_size h <= RPC_REQ_SIZE)) as [Hd|Hd].
  - destruct (deliver_request tipc w c h Hid Hok Hh Hp body Hb Hd) as (b1 & ->).
    unfold recv_dispatch. cbn [head with_req with_request].
    bcase; [eexists; split; [reflexivity|apply read_out_idle]|].
    bcase; [eexists; split; [reflexivity|apply read_out_idle]|].
    destruct (cb tipc !! _) as [[f|]|] eqn:Ef; try (eexists; split; [reflexivity|apply read_out_idle]).
    exfalso. destruct Hbad as [?|[?|[?|Hno]]]; [lia|lia|lia|by eapply Hno].
  - unfold deliver. cbn [buffer with_buffer].
    rewrite ev_length_law, (append_idle c Hid), length_app, header_bytes_length.
    unfold low_watermark, TIPC_HEADER_SIZE. rewrite (proj2 (Z.leb_le _ _)) by lia.
    pose proof Hid as (He & Hw & _). unfold tipc_read. cbn [event_type with_buffer buffer]. rewrite He.
    rewrite Z.eqb_refl. by apply (recv_head_oversize _ _ _ _ h body); [|apply append_idle|..].
Qed.

Lemma rpc_refused_is_silent_witness :
  exists c', deliver demo_tipc 0 demo_client
    (header_bytes (tipc_header_hton (request_header 1002 2 (Some [9; 9]) 2)) ++ [9; 9]) = Some (c', [], 0) /\ idle c'.
Proof.
  apply rpc_refused_is_silent.
  - apply new_client_ok.
  - split_and!; reflexivity.
  - unfold header_ok. simpl. unfold TIPC_HEAD_PREFIX_VALUE. lia.
  - reflexivity.
  - reflexivity.
  - right. left. simpl. lia.
Defined.


Notation conn_table := (OpHash.op_hash_st conn_ref).
#[export] Instance conn_kt : KeyTable conn_table ref_fd := op_hash_key_table ref_fd serving.
#[export] Instance conn_ktl : KeyTableLaws conn_table ref_fd :=
  op_hash_key_table_laws ref_fd serving serving_ptrdiff serving_small.


(** The header as it goes over the wire: the four fields in order, each with its most
    significant byte first, and the receiver recovers exactly the header that was sent. *)
Theorem tipc_header_wire h :
  header_ok h ->
  header_bytes (tipc_header_hton h)
    = be32 (prefix h) ++ be32 (head_module h) ++ be32 (head_type h) ++ be32 (data_size h) /\
  tipc_header_ntoh (header_of_bytes (header_bytes (tipc_header_hton h))) = h.
Proof.
  intros Hh. split; [|by apply wire_roundtrip].
  unfold header_bytes, tipc_header_hton. cbn [prefix head_module head_type data_size].
  by rewrite !le32_htonl.
Qed.

Lemma tipc_header_wire_witness :
  header_bytes (tipc_header_hton (TipcHeader TIPC_HEAD_PREFIX_VALUE 1001 2 17))
  = [238; 254; 52; 81; 0; 0; 3; 233; 0; 0; 0; 2; 0; 0; 0; 17].
Proof.
  destruct (tipc_header_wire (TipcHeader TIPC_HEAD_PREFIX_VALUE 1001 2 17)) as [-> _]; [|reflexivity].
  unfold header_ok, TIPC_HEAD_PREFIX_VALUE. simpl. lia.
Defined.

(** A local call after [op_local_init] and [op_local_register]: the handler of the type runs
    once, on the caller's buffers, and the call returns 0 whatever the handler returns; for
    another module, a type that is out of range or one that was not registered it returns -1 and
    runs nothing. *)
Theorem op_local_call {W} (w : W) module type (f : local_cb W) self module' type' req size resp n :
  0 <= type < RPC_MAX_ELEMENT -> 0 <= type' ->
  let '(r0, s0) := op_local_init true 0 0 module self in
  let '(r1, s1) := op_local_register type f s0 in
  let '(_, resp', w') := f w req (s32 size) resp n in
  r0 = 0 /\ r1 = 0 /\
  op_local_send_ex s1 w module' type' req size resp n =
    if decide (module' = module /\ type' = type) then (0, resp', w') else (-1, resp, w).
Proof.
  intros Ht Ht'. unfold op_local_init, op_local_register. simpl Z.eqb. simpl negb. cbv iota.
  rewrite (proj2 (Z.leb_gt _ _)) by lia. unfold RPC_MAX_ELEMENT in *.
  destruct (f w req (s32 size) resp n) as [[ret resp'] w'] eqn:Ef. split; [done|]. split; [done|].
  unfold op_local_send_ex, op_local_send_common. cbn [local_module local_cbs].
  unfold RPC_MAX_ELEMENT. destruct (decide (module' = module)) as [->|Hm].
  2: { rewrite (proj2 (Z.eqb_neq _ _)), decide_False by naive_solver. done. }
  rewrite Z.eqb_refl. cbn [negb]. destruct (decide (type' = type)) as [->|Hty].
  - rewrite decide_True, (proj2 (Z.leb_gt _ _)) by (done || lia).
    rewrite list_lookup_insert_eq by (rewrite length_replicate; lia). by rewrite Ef.
  - rewrite decide_False by naive_solver. bcase; [done|].
    rewrite list_lookup_insert_ne by lia.
    destruct (_ !! _) as [[g|]|] eqn:E; try done. by apply lookup_replicate in E as [? _].
Qed.

Lemma op_local_call_witness :
  let f : local_cb Z := fun w req n resp m => (-5, resp, w + n) in
  op_local_send_ex (snd (op_local_register 3 f (snd (op_local_init true 0 0 9 None)))) 1 9 3 None 40 None 0
  = (0, None, 41).
Proof.
  intros f. pose proof (op_local_call 1 9 3 f None 9 3 None 40 None 0) as Hc.
  unfold RPC_MAX_ELEMENT in Hc. specialize (Hc ltac:(lia) ltac:(lia)).
  destruct (op_local_init true 0 0 9 None) as [r0 s0]. simpl snd.
  destruct (op_local_register 3 f s0) as [r1 s1]. destruct Hc as (_ & _ & Hc). exact Hc.
Defined.

(** [op_tipc_init] is all or nothing for its callers: it returns 0 exactly when every call it
    makes succeeds, with a server of the given module and no handler, to which
    [op_tipc_register] adds exactly the handler of one type; otherwise it returns -1 and leaves
    [tipc_self] alone. The event thread it starts does not see the module number yet. *)
Theorem op_tipc_init_register {W} env module (self : option (op_tipc W)) type f :
  0 <= type < RPC_MAX_ELEMENT ->
  let '(r, self', started) := op_tipc_init env module self in
  (r = -1 /\ self' = self \/
   r = 0 /\ is_Some started /\ exists t, op_tipc_register type f self' = (0, Some t) /\ tipc_module t = module /\
     forall k, cb t !! k = if decide (k = Z.to_nat type) then Some (Some f)
                           else if decide (k < 1024)%nat then Some None else None) /\
  (forall t, started = Some t -> tipc_module t = 0).
Proof.
  intros Ht. unfold op_tipc_init, RPC_MAX_ELEMENT in *.
  repeat (bcase; [split; [by left|]; intros t Hst; by simplify_eq|]).
  split; [|by intros t [= <-]]. right. split; [done|]. split; [by eexists|].
  unfold op_tipc_register, RPC_MAX_ELEMENT. rewrite (proj2 (Z.leb_gt _ _)) by lia.
  eexists. split; [reflexivity|]. split; [done|]. intros k. cbn [cb]. case_decide as Hk.
  - subst k. apply list_lookup_insert_eq. rewrite length_replicate. lia.
  - rewrite list_lookup_insert_ne by done. case_decide.
    + apply lookup_replicate. split; [done|]. lia.
    + apply lookup_ge_None. rewrite length_replicate. lia.
Qed.

Lemma op_tipc_init_register_witness :
  fst (fst (op_tipc_init (InitEnv true 3 0 0 true true 0 0 11 true) 1001 (Some demo_tipc))) = -1.
Proof.
  pose proof (op_tipc_init_register (InitEnv true 3 0 0 true true 0 0 11 true) 1001 (Some demo_tipc) 5 safe_echo) as Hi.
  unfold RPC_MAX_ELEMENT in Hi. specialize (Hi ltac:(lia)).
  destruct (op_tipc_init _ 1001 (Some demo_tipc)) as [[r s] st] eqn:E.
  destruct Hi as [[[-> _]|(-> & _)] _]; [reflexivity|]. vm_compute in E. discriminate.
Defined.
