(* ===== verification/CString.v ===== *)
(** * C strings and the parts of the C library the program uses on them

    A string is the list of its characters without the terminator, a character its [unsigned
    char] code; reading at the end gives the terminator [0]. *)

From S2P Require Import Prelude.
From stdpp Require Import base tactics numbers list strings.
From Stdlib Require Import ZArith Lia.
Open Scope Z_scope.

(** A string literal. *)
Definition str (s : String.string) : list Z :=
  (fun c => Z.of_nat (Ascii.nat_of_ascii c)) <$> String.list_ascii_of_string s.

Definition no_nul (s : list Z) : Prop := forall x, x ∈ s -> x <> 0.

(** [*s]. *)
Definition char_at (s : list Z) : Z := match s with [] => 0 | c :: _ => c end.

(** [isdigit], [isspace] and [tolower] in the C locale. *)
Definition isdigit (c : Z) : bool := (48 <=? c) && (c <=? 57).
Definition isspace (c : Z) : bool := (c =? 32) || ((9 <=? c) && (c <=? 13)).
Definition tolower (c : Z) : Z := if (65 <=? c) && (c <=? 90) then c + 32 else c.

(** Splitting at the first character that does not satisfy [f]. *)
Fixpoint span (f : Z -> bool) (s : list Z) : list Z * list Z :=
  match s with
  | [] => ([], [])
  | c :: r => if f c then let '(a, b) := span f r in (c :: a, b) else ([], s)
  end.

Definition elem (c : Z) (set : list Z) : bool := bool_decide (c ∈ set).

(** [line + strspn(line, set)], and the two sides of [line + strcspn(line, set)]. *)
Definition skip_set (set s : list Z) : list Z := snd (span (fun c => elem c set) s).
Definition until_set (set s : list Z) : list Z * list Z := span (fun c => negb (elem c set)) s.

Lemma span_app f s : let '(a, b) := span f s in s = a ++ b.
Proof.
  induction s as [|c r IH]; simpl; [done|]. destruct (f c); [|done].
  destruct (span f r). simpl. by rewrite IH.
Qed.

Lemma span_all f s : (forall x, x ∈ s -> f x = true) -> span f s = (s, []).
Proof.
  induction s as [|c r IH]; intros H; simpl; [done|]. rewrite H by (by left).
  rewrite IH; [done|]. intros x Hx. apply H. by right.
Qed.

(** A prefix of characters that satisfy [f], followed by one that does not. *)
Lemma span_stop f s c r :
  (forall x, x ∈ s -> f x = true) -> f c = false -> span f (s ++ c :: r) = (s, c :: r).
Proof.
  induction s as [|x s IH]; intros H Hc; simpl; [by rewrite Hc|].
  rewrite H by (by left). rewrite IH; [done| |done]. intros y Hy. apply H. by right.
Qed.

Lemma span_fst f s x : x ∈ fst (span f s) -> f x = true.
Proof.
  induction s as [|c r IH]; simpl; [by intros ?%elem_of_nil|]. destruct (f c) eqn:E; [|by intros ?%elem_of_nil].
  destruct (span f r). simpl in *. intros [->|Hx]%elem_of_cons; [done|by apply IH].
Qed.

Lemma span_length f s : (length (snd (span f s)) <= length s)%nat.
Proof.
  induction s as [|c r IH]; simpl; [lia|]. destruct (f c); [|simpl; lia].
  destruct (span f r). simpl in *. lia.
Qed.
Lemma span_stops f s c r : snd (span f s) = c :: r -> f c = false.
Proof.
  induction s as [|x s IH]; [done|]. simpl. destruct (f x) eqn:E; [by destruct (span f s)|].
  by intros [= -> ->].
Qed.

(** [strncasecmp(a, b, n) == 0]. *)
Fixpoint strncaseeq (n : nat) (a b : list Z) : bool :=
  match n with
  | O => true
  | S n =>
      if tolower (char_at a) =? tolower (char_at b) then
        if char_at a =? 0 then true else strncaseeq n (tail a) (tail b)
      else false
  end.

(** [strtol(s, &endp, 10)]: the value, saturated to [long], and [endp]. *)
Definition LONG_MAX : Z := 9223372036854775807.
Definition digits_value (ds : list Z) : Z := foldl (fun v c => v * 10 + (c - 48)) 0 ds.
Definition strtol (s : list Z) : Z * list Z :=
  let s1 := snd (span isspace s) in
  let '(neg, s2) := match s1 with
                    | 45 :: r => (true, r)
                    | 43 :: r => (false, r)
                    | _ => (false, s1)
                    end in
  let '(ds, rest) := span isdigit s2 in
  match ds with
  | [] => (0, s)
  | _ => let v := digits_value ds in
         let v := if neg then - v else v in
         (Z.max (- LONG_MAX - 1) (Z.min LONG_MAX v), rest)
  end.

(** The decimal digits of a number that is not negative; ten are enough for an [int]. *)
Fixpoint dec_digits (fuel : nat) (n : Z) : list Z :=
  match fuel with
  | O => []
  | S f => if n <? 10 then [48 + n] else dec_digits f (n / 10) ++ [48 + n mod 10]
  end.

(** [n / d] to the nearest integer, ties to the even one, as [printf] rounds. *)
Definition round_even (n d : Z) : Z :=
  let q := n / d in
  let r := 2 * (n mod d) in
  if (d <? r) || ((r =? d) && Z.odd q) then q + 1 else q.

(** The decimal digits of a number below 100, as a user writes it. *)
Definition dec2 (n : Z) : list Z :=
  if n <? 10 then [48 + n] else [48 + n / 10; 48 + n mod 10].

Lemma dec2_digits n : 0 <= n < 100 -> Forall (fun c => isdigit c = true) (dec2 n).
Proof.
  intros Hn. unfold dec2, isdigit. pose proof (Z.mod_pos_bound n 10 ltac:(lia)).
  pose proof (Z.div_mod n 10 ltac:(lia)).
  bcase; repeat constructor; apply andb_true_iff; split; apply Z.leb_le; lia.
Qed.

Lemma dec2_value n : 0 <= n < 100 -> digits_value (dec2 n) = n.
Proof.
  intros Hn. unfold dec2, digits_value. pose proof (Z.div_mod n 10 ltac:(lia)). bcase; simpl; lia.
Qed.

(** [strtol] on a number followed by something that is not a digit. *)
Lemma strtol_dec2 n rest :
  0 <= n < 100 -> isdigit (char_at rest) = false -> strtol (dec2 n ++ rest) = (n, rest).
Proof.
  intros Hn Hr. pose proof (dec2_digits n Hn) as Hd.
  assert (exists c r, dec2 n = c :: r /\ isdigit c = true) as (c & r & Hc & Hdc).
  { unfold dec2 in *. destruct (n <? 10); eexists _, _; (split; [reflexivity|]);
      by apply Forall_cons in Hd as [? _]. }
  assert (isspace c = false /\ c <> 45 /\ c <> 43) as (Hs & H45 & H43).
  { unfold isdigit in Hdc. btest. unfold isspace. split_and!; [|lia|lia].
    apply orb_false_iff. split; [apply Z.eqb_neq; lia|]. apply andb_false_iff. right. apply Z.leb_gt. lia. }
  unfold strtol. rewrite Hc. simpl. rewrite Hs. simpl.
  assert (span isdigit (c :: r ++ rest) = (c :: r, rest)) as Hsp.
  { rewrite <- Hc in *. rewrite app_comm_cons, <- Hc. destruct rest as [|d rest].
    - rewrite app_nil_r. apply span_all. by apply Forall_forall.
    - apply span_stop; [by apply Forall_forall|done]. }
  assert ((match c with 45 => (true, r ++ rest) | 43 => (false, r ++ rest) | _ => (false, c :: r ++ rest) end)
          = (false, c :: r ++ rest)) as Hm.
  { destruct c as [|q|q]; try done. repeat (destruct q as [q|q|]; try done). }
  destruct c as [|q|q]; try discriminate Hdc.
  rewrite Hm, Hsp. rewrite <- Hc, dec2_value by done. unfold LONG_MAX. f_equal. lia.
Qed.
