(* ===== verification/Parser.v ===== *)
(** * The configuration parser (src/src/opbox/parser.c)

    Lines with continuations, comments and tokens, as the crontab loader uses it. A file is the
    list of the lines [getline] still returns, each with its newline. The tokens the code leaves
    as pointers into the line, separated by terminators it writes, are the strings they point to. *)

From S2P Require Import Prelude CString.
From stdpp Require Import base tactics numbers list strings.
From Stdlib Require Import ZArith Lia.
Open Scope Z_scope.

Module Parser.

(** ** Data *)

Definition PARSE_COLLAPSE : Z := 65536.
Definition PARSE_TRIM : Z := 131072.
Definition PARSE_GREEDY : Z := 262144.
Definition PARSE_MIN_DIE : Z := 1048576.
Definition PARSE_KEEP_COPY : Z := 2097152.
Definition PARSE_EOL_COMMENTS : Z := 4194304.
Definition PARSE_ALT_COMMENTS : Z := 8388608.
Definition PARSE_WS_COMMENTS : Z := 16777216.
Definition PARSE_NORMAL : Z :=
  Z.lor PARSE_COLLAPSE (Z.lor PARSE_TRIM (Z.lor PARSE_GREEDY PARSE_EOL_COMMENTS)).

(** [flags & f]. *)
Definition has (flags f : Z) : bool := negb (Z.land flags f =? 0).

Record parser_t := ParserT {
  fp : list (list Z);
  data : option (list Z);
  lineno : Z;
}.

(** [config_open]: [None] when the file cannot be opened. *)
Definition config_open (file : option (list (list Z))) : option parser_t :=
  match file with
  | None => None
  | Some lines => Some (ParserT lines None 0)
  end.

(** ** get_line_with_continuation *)

Definition last_char (s : list Z) : Z := default 0 (last s).

(** The line that was read, the end of the file with the index of the line buffer at which the
    terminator is written, or the copy of [SIZE_MAX] bytes after a continuation that has no next
    line. *)
Inductive line_result :=
| LineRead (line : list Z) (rest : list (list Z)) (count : Z)
| LineEof (at_ : Z)
| LineFault.

Fixpoint join_lines (line : list Z) (rest : list (list Z)) (count : Z) : line_result :=
  let count := count + 1 in
  let line := if last_char line =? 10 then removelast line else line in
  if (Z.of_nat (length line) =? 0) || negb (last_char line =? 92) then LineRead line rest count
  else
    match rest with
    | [] => LineFault
    | nline :: rest' => join_lines (removelast line ++ nline) rest' count
    end.

(** At the end of the file [getline] returns -1, which [len <= 0] does not catch: [len] is
    unsigned. [before] gives the bytes in front of the line buffer. *)
Definition get_line_eof (before : Z -> Z) : line_result :=
  let len := if before (-2) =? 10 then -2 else -1 in
  if negb (before (len - 1) =? 92) then LineEof len else LineFault.

Definition get_line_with_continuation (before : Z -> Z) (parser : parser_t) : line_result :=
  match fp parser with
  | [] => get_line_eof before
  | line :: rest => join_lines line rest (lineno parser)
  end.

(** ** Whitespace *)

Fixpoint skip_non_whitespace (s : list Z) : list Z :=
  match s with
  | [] => []
  | c :: r => if negb (c =? 32) && (4 <? u8 (c - 9)) then skip_non_whitespace r else s
  end.

Fixpoint skip_whitespace (s : list Z) : list Z :=
  match s with
  | [] => []
  | c :: r => if (c =? 32) || (u8 (c - 9) <=? 4) then skip_whitespace r else s
  end.

(** ** config_read_ex *)

Section Read.
Context (flags : Z) (comment : Z) (delims : list Z).

(** Dropping delimiters from the end; [None] when the loop would run past the start. *)
Fixpoint trim_end (s : list Z) : option (list Z) :=
  match s with
  | [] => None
  | c :: r =>
      match trim_end r with
      | Some r' => Some (c :: r')
      | None => if elem c delims then None else Some [c]
      end
  end.

(** The last token takes the remainder of the line. *)
Definition greedy_token (line : list Z) : option (list Z) :=
  let seg := if has flags PARSE_EOL_COMMENTS && negb (comment =? 0)
             then fst (until_set [comment] line) else line in
  if has flags PARSE_TRIM then trim_end seg else Some seg.

(** The loop over the tokens; [k] is [ntokens - t]. *)
Fixpoint tokenize (k : nat) (line : list Z) : option (list (list Z)) :=
  match k with
  | O => Some []
  | S k' =>
      if (k' =? 0)%nat && has flags PARSE_GREEDY then
        match greedy_token line with Some t => Some [t] | None => None end
      else
        let set := if negb (comment =? 0) && has flags PARSE_EOL_COMMENTS then comment :: delims else delims in
        let '(tok, rest) := until_set set line in
        let rest1 := if has flags PARSE_EOL_COMMENTS && (char_at rest =? comment) then [] else tail rest in
        let rest2 := if has flags PARSE_COLLAPSE then skip_set delims rest1 else rest1 in
        if (char_at rest2 =? 0) || (char_at rest2 =? comment) then Some [tok]
        else match tokenize k' rest2 with Some ts => Some (tok :: ts) | None => None end
  end.
End Read.

Inductive read_result :=
| ReadTokens (tokens : list (list Z)) (parser : parser_t)
| ReadEnd (at_ : Z)
| ReadFault.

(** One turn of the loop at [again]: [None] is [goto again]. *)
Definition read_line (flags alt comment : Z) (delims : list Z) (line : list Z) (parser : parser_t)
    : parser_t * option (option (list (list Z))) :=
  let ntokens := u8 flags in
  let mintokens := u8 (Z.shiftr flags 8) in
  let line := fst (span (fun c => negb (c =? 0)) line) in
  let line := if has flags PARSE_TRIM then skip_set delims line else line in
  let p := if has flags PARSE_WS_COMMENTS then skip_whitespace line else line in
  if (char_at p =? 0) || (char_at p =? comment) || (char_at p =? alt) then (parser, None)
  else
    let parser := if has flags PARSE_KEEP_COPY then ParserT (fp parser) (Some line) (lineno parser) else parser in
    match tokenize flags comment delims (Z.to_nat (Z.max 1 ntokens)) line with
    | None => (parser, Some None)
    | Some ts => if Z.of_nat (length ts) <? mintokens then (parser, None) else (parser, Some (Some ts))
    end.

(** Every turn reads at least one line, so one more turn than there are lines is enough. *)
Fixpoint read_loop (fuel : nat) (before : Z -> Z) (flags alt comment : Z) (delims : list Z)
    (parser : parser_t) : read_result :=
  match fuel with
  | O => ReadFault
  | S fuel =>
      match get_line_with_continuation before parser with
      | LineFault => ReadFault
      | LineEof i => ReadEnd i
      | LineRead line rest count =>
          let parser := ParserT rest (data parser) count in
          if s32 (Z.of_nat (length line)) <? 0 then ReadEnd (s32 (Z.of_nat (length line)))
          else
            match read_line flags alt comment delims line parser with
            | (parser', None) => read_loop fuel before flags alt comment delims parser'
            | (parser', Some (Some ts)) => ReadTokens ts parser'
            | (_, Some None) => ReadFault
            end
      end
  end.

(** [delims] is the argument of the code: the comment character first. *)
Definition config_read_ex (before : Z -> Z) (parser : parser_t) (flags : Z) (delims : list Z) : read_result :=
  let '(alt, delims) :=
    if has flags PARSE_ALT_COMMENTS then (char_at delims, tail delims) else (0, delims) in
  read_loop (S (length (fp parser))) before flags alt (char_at delims) (tail delims) parser.

Definition config_read (before : Z -> Z) (parser : parser_t) (max min : Z) (delims : list Z) (flags : Z)
    : read_result :=
  config_read_ex before parser
    (Z.lor flags (Z.lor (Z.shiftl (Z.land min 255) 8) (Z.land max 255))) delims.

End Parser.
