(* ===== verification/ParserSpec.v ===== *)
(** * Correctness of the configuration parser

    What the reader returns for a well-formed entry, that it always returns on a file that does
    not end inside a continuation, and what it does at the end of a file. *)

From S2P Require Import Prelude CString Parser.
From stdpp Require Import base tactics numbers list sets strings.
From Stdlib Require Import ZArith Lia.
Open Scope Z_scope.
Import Parser.

(** The call of the crontab loader: six tokens, at least one, ["# \t"]. *)
Definition crontab_flags : Z := Z.lor PARSE_NORMAL PARSE_KEEP_COPY.
Definition crontab_delims : list Z := [35; 32; 9].
Definition read_entry (before : Z -> Z) (parser : parser_t) : read_result :=
  config_read before parser 6 1 crontab_delims crontab_flags.

(** The flags word of that call. *)
Definition entry_flags : Z := Z.lor crontab_flags (Z.lor 256 6).

Definition blank (c : Z) : Prop := c = 32 \/ c = 9.
#[export] Instance blank_dec c : Decision (blank c).
Proof. unfold blank. apply _. Defined.

Lemma elem_true c l : elem c l = true <-> c ∈ l.
Proof. unfold elem. apply bool_decide_eq_true. Qed.
Lemma elem_false c l : elem c l = false <-> c ∉ l.
Proof. unfold elem. apply bool_decide_eq_false. Qed.
Lemma elem_blank c : elem c [32; 9] = true <-> blank c.
Proof. rewrite elem_true. unfold blank. set_solver. Qed.

(** ** Trimming *)

Section Trim.
Context (delims : list Z).

Lemma trim_end_some s c : c ∈ s -> c ∉ delims -> is_Some (trim_end delims s).
Proof.
  induction s as [|x s IH]; [by intros ?%elem_of_nil|]. intros Hc Hd. simpl.
  destruct (trim_end delims s) as [r|] eqn:E; [by eexists|].
  apply elem_of_cons in Hc as [->|Hc]; [|by destruct (IH Hc Hd)].
  rewrite (proj2 (elem_false _ _) Hd). by eexists.
Qed.

Lemma trim_end_blanks s t :
  (forall x, x ∈ t -> x ∈ delims) -> trim_end delims (s ++ t) = trim_end delims s.
Proof.
  intros Ht. induction s as [|x s IH]; simpl; [|by rewrite IH].
  induction t as [|y t IHt]; simpl; [done|]. rewrite IHt by set_solver.
  by rewrite (proj2 (elem_true _ _)) by (apply Ht; by left).
Qed.

Lemma trim_end_id s c : c ∉ delims -> trim_end delims (s ++ [c]) = Some (s ++ [c]).
Proof.
  intros Hc. induction s as [|x s IH]; simpl; [by rewrite (proj2 (elem_false _ _) Hc)|by rewrite IH].
Qed.
End Trim.

(** ** One entry *)

(** A word of the schedule: not empty, no blank, comment or terminator. *)
Definition word (w : list Z) : Prop := w <> [] /\ forall x, x ∈ w -> ~ blank x /\ x <> 35 /\ x <> 0.
Definition blanks (s : list Z) : Prop := s <> [] /\ forall x, x ∈ s -> blank x.
(** A command: it starts and ends with something visible and holds no comment character. *)
Definition command (c : list Z) : Prop :=
  (exists a r, c = a :: r /\ ~ blank a) /\ (exists r z, c = r ++ [z] /\ ~ blank z) /\
  forall x, x ∈ c -> x <> 35 /\ x <> 0.

Lemma blank_not_end x : blank x -> x <> 35 /\ x <> 0.
Proof. unfold blank. lia. Qed.

Lemma word_head w r : word w -> exists c r', w ++ r = c :: r' /\ ~ blank c /\ c <> 35 /\ c <> 0.
Proof.
  intros [Hne Hw]. destruct w as [|c w]; [done|]. exists c, (w ++ r). split; [done|]. apply Hw. by left.
Qed.

Lemma command_head c r : command c -> exists a r', c ++ r = a :: r' /\ ~ blank a /\ a <> 35 /\ a <> 0.
Proof.
  intros ((a & r' & -> & Ha) & _ & Hc). exists a, (r' ++ r). split; [done|].
  split; [done|]. apply Hc. by left.
Qed.

Section Entry.
Notation flags := entry_flags.
Notation delims := [32; 9].

(** A word, blanks, and something that is neither a blank nor a comment. *)
Lemma tokenize_word k w s rest c r :
  word w -> blanks s -> rest = c :: r -> ~ blank c -> c <> 35 -> c <> 0 ->
  tokenize flags 35 delims (S (S k)) (w ++ s ++ rest)
  = match tokenize flags 35 delims (S k) rest with Some ts => Some (w :: ts) | None => None end.
Proof.
  intros [_ Hw] [Hs1 Hs2] -> Hc H35 H0. destruct s as [|b s]; [done|].
  assert (until_set [35; 32; 9] (w ++ (b :: s) ++ c :: r) = (w, b :: s ++ c :: r)) as Hu.
  { apply span_stop.
    - intros x Hx. apply negb_true_iff, elem_false. destruct (Hw x Hx) as (? & ? & ?). unfold blank in *. set_solver.
    - apply negb_false_iff, elem_true. destruct (Hs2 b) as [->| ->]; [by left|set_solver..]. }
  assert (skip_set delims (s ++ c :: r) = c :: r) as Hk.
  { unfold skip_set. rewrite span_stop; [done| |].
    - intros x Hx. apply elem_blank, Hs2. by right.
    - apply not_true_is_false. by rewrite elem_blank. }
  change (tokenize flags 35 delims (S (S k)) (w ++ (b :: s) ++ c :: r)) with
    (let '(tok, rest) := until_set [35; 32; 9] (w ++ (b :: s) ++ c :: r) in
     let rest1 := if char_at rest =? 35 then [] else tail rest in
     let rest2 := skip_set delims rest1 in
     if (char_at rest2 =? 0) || (char_at rest2 =? 35) then Some [tok]
     else match tokenize flags 35 delims (S k) rest2 with Some ts => Some (tok :: ts) | None => None end).
  rewrite Hu. cbv beta iota zeta. cbn [char_at tail].
  destruct (blank_not_end b) as [Hb _]; [apply Hs2; by left|].
  rewrite (proj2 (Z.eqb_neq _ _) Hb), Hk. cbn [char_at].
  by rewrite (proj2 (Z.eqb_neq _ _) H0), (proj2 (Z.eqb_neq _ _) H35).
Qed.

(** The last token: the command, then blanks and a comment. *)
Lemma tokenize_last c s z :
  command c -> (forall x, x ∈ s -> blank x) -> z = [] \/ char_at z = 35 ->
  tokenize flags 35 delims 1 (c ++ s ++ z) = Some [c].
Proof.
  intros (_ & (r & l & -> & Hl) & Hc) Hs Hz.
  change (tokenize flags 35 delims 1 ((r ++ [l]) ++ s ++ z)) with
    (match trim_end delims (fst (until_set [35] ((r ++ [l]) ++ s ++ z))) with Some t => Some [t] | None => None end).
  assert (fst (until_set [35] ((r ++ [l]) ++ s ++ z)) = (r ++ [l]) ++ s) as ->.
  { assert (forall x, x ∈ (r ++ [l]) ++ s -> negb (elem x [35]) = true) as Hall.
    { intros x Hx. apply negb_true_iff, elem_false. apply elem_of_app in Hx as [Hx|Hx].
      - destruct (Hc x Hx). set_solver.
      - destruct (blank_not_end x (Hs x Hx)). set_solver. }
    rewrite app_assoc. destruct z as [|a z].
    - rewrite app_nil_r. unfold until_set. by rewrite span_all.
    - destruct Hz as [?|Hz]; [done|]. simpl in Hz. subst a. unfold until_set. by rewrite span_stop. }
  rewrite trim_end_blanks.
  - rewrite trim_end_id; [done|]. unfold blank in Hl. set_solver.
  - intros x Hx. destruct (Hs x Hx) as [->| ->]; set_solver.
Qed.

(** Words separated by blanks, then the command. *)
Definition print_words (ws : list (list Z * list Z)) : list Z := concat ((fun p => fst p ++ snd p) <$> ws).

Lemma tokenize_words ws c s z :
  Forall (fun p => word (fst p) /\ blanks (snd p)) ws ->
  command c -> (forall x, x ∈ s -> blank x) -> z = [] \/ char_at z = 35 ->
  tokenize flags 35 delims (S (length ws)) (print_words ws ++ c ++ s ++ z) = Some ((fst <$> ws) ++ [c]).
Proof.
  intros Hws Hc Hs Hz. induction Hws as [|[w b] ws [Hw Hb] Hws IH]; [by apply (tokenize_last c s z)|].
  simpl length. change (print_words ((w, b) :: ws)) with ((w ++ b) ++ print_words ws).
  rewrite <- !app_assoc.
  assert (exists a r, print_words ws ++ c ++ s ++ z = a :: r /\ ~ blank a /\ a <> 35 /\ a <> 0)
    as (a & r & Hr & Ha & H35 & H0).
  { destruct Hws as [|[w1 b1] ws [Hw1 _] _]; simpl; [by apply command_head|].
    unfold print_words. simpl. rewrite <- !app_assoc. by apply word_head. }
  rewrite (tokenize_word _ w b _ a r) by done. by rewrite IH.
Qed.
End Entry.

(** ** The reader always returns *)

Section Total.
Notation flags := entry_flags.
Notation delims := [32; 9].

Lemma skip_set_head d s c r : skip_set d s = c :: r -> c ∉ d.
Proof.
  unfold skip_set. induction s as [|x s IH]; simpl; [done|].
  destruct (elem x d) eqn:E; [|intros [= -> ->]; by apply elem_false].
  destruct (span _ s) as [a b]. simpl in *. exact IH.
Qed.

(** On a line that starts with a character of a token the loop stays inside it. *)
Lemma tokenize_total k : forall c r,
  c ∉ delims -> c <> 35 -> c <> 0 ->
  exists ts, tokenize flags 35 delims (S k) (c :: r) = Some ts /\ (1 <= length ts <= S k)%nat.
Proof.
  induction k as [|k IH]; intros c r Hd H35 H0.
  - change (tokenize flags 35 delims 1 (c :: r)) with
      (match trim_end delims (fst (until_set [35] (c :: r))) with Some t => Some [t] | None => None end).
    destruct (trim_end_some delims (fst (until_set [35] (c :: r))) c) as [t ->]; [|done|].
    + unfold until_set. simpl. rewrite (proj2 (elem_false c [35])) by set_solver. simpl.
      destruct (span _ r). simpl. by left.
    + eexists. split; [reflexivity|]. simpl. lia.
  - change (tokenize flags 35 delims (S (S k)) (c :: r)) with
      (let '(tok, rest) := until_set [35; 32; 9] (c :: r) in
       let rest1 := if char_at rest =? 35 then [] else tail rest in
       let rest2 := skip_set delims rest1 in
       if (char_at rest2 =? 0) || (char_at rest2 =? 35) then Some [tok]
       else match tokenize flags 35 delims (S k) rest2 with Some ts => Some (tok :: ts) | None => None end).
    destruct (until_set _ _) as [tok rest]. cbv beta iota zeta.
    destruct (skip_set delims _) as [|c2 r2] eqn:E2; [eexists; split; [reflexivity|simpl; lia]|].
    cbn [char_at]. destruct ((c2 =? 0) || (c2 =? 35)) eqn:E3; [eexists; split; [reflexivity|simpl; lia]|].
    btest. destruct (IH c2 r2) as (ts & -> & Hl); [by eapply skip_set_head|done|done|].
    eexists. split; [reflexivity|]. simpl. lia.
Qed.

(** A turn of the loop gives tokens or goes on. *)
Lemma read_line_total line parser :
  (exists p', read_line flags 0 35 delims line parser = (p', None) /\ fp p' = fp parser) \/
  (exists p' ts, read_line flags 0 35 delims line parser = (p', Some (Some ts)) /\ fp p' = fp parser /\
     (1 <= length ts <= 6)%nat).
Proof.
  unfold read_line.
  change (has flags PARSE_TRIM) with true. change (has flags PARSE_WS_COMMENTS) with false.
  change (has flags PARSE_KEEP_COPY) with true. change (Z.to_nat (Z.max 1 (u8 flags))) with 6%nat.
  change (u8 (Z.shiftr flags 8)) with 1. cbv iota zeta.
  destruct (skip_set delims _) as [|c r] eqn:E; cbn [char_at]; [left; by eexists|].
  destruct ((c =? 0) || (c =? 35) || (c =? 0)) eqn:Ec; [left; by eexists|]. btest.
  destruct (tokenize_total 5 c r) as (ts & -> & Hl); [by eapply skip_set_head|done|done|].
  rewrite (proj2 (Z.ltb_ge _ _)) by lia. right. eexists _, ts. split; [reflexivity|done].
Qed.

(** A physical line that does not end in a continuation. *)
Definition ends_ok (l : list Z) : Prop :=
  exists pre z, z <> 92 /\ ((l = pre ++ [z] /\ z <> 10) \/ l = pre ++ [z; 10]).
Definition closed (lines : list (list Z)) : Prop := forall l, last lines = Some l -> ends_ok l.

Lemma ends_ok_app x l : ends_ok l -> ends_ok (x ++ l).
Proof.
  intros (pre & z & Hz & [[-> H10]| ->]); exists (x ++ pre), z; (split; [done|]).
  - left. by rewrite <- app_assoc.
  - right. by rewrite <- app_assoc.
Qed.

Lemma last_char_snoc l c : last_char (l ++ [c]) = c.
Proof. unfold last_char. by rewrite last_snoc. Qed.

Lemma join_lines_ok rest : forall line count,
  closed (line :: rest) ->
  exists line' pre rest' count', join_lines line rest count = LineRead line' rest' count' /\ rest = pre ++ rest'.
Proof.
  induction rest as [|n rest IH]; intros line count Hc; cbn [join_lines].
  - destruct (Hc line eq_refl) as (pre & z & Hz & [[-> H10]| ->]).
    + rewrite last_char_snoc, (proj2 (Z.eqb_neq _ _) H10), last_char_snoc, (proj2 (Z.eqb_neq _ _) Hz).
      rewrite orb_true_r. by eexists _, [], _, _.
    + assert (last_char (pre ++ [z; 10]) = 10) as ->
        by (change (pre ++ [z; 10]) with (pre ++ ([z] ++ [10])); rewrite app_assoc; apply last_char_snoc).
      change (10 =? 10) with true. cbv iota.
      assert (removelast (pre ++ [z; 10]) = pre ++ [z]) as ->
        by (change [z; 10] with ([z] ++ [10]); rewrite app_assoc; apply removelast_last).
      rewrite last_char_snoc, (proj2 (Z.eqb_neq _ _) Hz), orb_true_r. by eexists _, [], _, _.
  - destruct (_ || _); [by eexists _, [], _, _|].
    match goal with |- context [join_lines ?l rest ?k] => destruct (IH l k) as (l' & pre & r' & k' & -> & ->) end.
    { intros x Hx. destruct rest as [|m rest].
      - simpl in Hx. injection Hx as <-. apply ends_ok_app. by apply Hc.
      - apply Hc. simpl in *. done. }
    by eexists _, (n :: pre), _, _.
Qed.

Lemma closed_suffix pre lines : closed (pre ++ lines) -> closed lines.
Proof.
  intros Hc l Hl. apply Hc. destruct lines as [|x lines]; [done|]. rewrite last_app. by rewrite Hl.
Qed.

Lemma read_loop_total before fuel : forall parser,
  before (-2) <> 92 -> before (-3) <> 92 -> closed (fp parser) -> (length (fp parser) < fuel)%nat ->
  (exists ts p', read_loop fuel before flags 0 35 delims parser = ReadTokens ts p' /\
     (1 <= length ts <= 6)%nat /\ (length (fp p') < length (fp parser))%nat /\ closed (fp p')) \/
  (exists i, read_loop fuel before flags 0 35 delims parser = ReadEnd i /\ i < 0).
Proof.
  induction fuel as [|fuel IH]; intros parser Hb2 Hb3 Hc Hf; [lia|]. cbn [read_loop].
  unfold get_line_with_continuation. destruct (fp parser) as [|l ls] eqn:Ef.
  - unfold get_line_eof. right. destruct (before (-2) =? 10); simpl Z.sub;
      rewrite (proj2 (Z.eqb_neq _ _)) by done; by eexists.
  - destruct (join_lines_ok ls l (lineno parser) Hc) as (l' & pre & r' & k' & -> & ->).
    bcase; [right; eexists; split; [reflexivity|lia]|].
    assert (closed r') as Hcr by (apply (closed_suffix (l :: pre)); exact Hc).
    simpl in Hf. rewrite length_app in Hf.
    destruct (read_line_total l' (ParserT r' (data parser) k')) as [(p' & -> & Hp)|(p' & ts & -> & Hp & Hl)].
    + simpl in Hp. destruct (IH p' Hb2 Hb3) as [(ts & p2 & -> & Hl & Hlt & Hc2)|(i & -> & Hi)].
      { by rewrite Hp. } { rewrite Hp. lia. }
      * left. exists ts, p2. split_and!; try done; try lia. simpl. rewrite length_app.
        rewrite Hp in Hlt. lia.
      * right. by eexists.
    + left. exists ts, p'. simpl in Hp. rewrite Hp. split_and!; try done; try lia.
      simpl. rewrite length_app. lia.
Qed.
End Total.

Lemma read_entry_eq before parser :
  read_entry before parser = read_loop (S (length (fp parser))) before entry_flags 0 35 [32; 9] parser.
Proof. reflexivity. Qed.

(** Facts about every character of a literal. *)
Ltac check_chars :=
  match goal with
  | |- forall x, x ∈ ?l -> _ =>
      let l' := eval vm_compute in l in change l with l';
      let Hx := fresh in intros ? Hx;
      repeat (apply elem_of_cons in Hx as [->|Hx]; [unfold blank; lia|]); by apply elem_of_nil in Hx
  end.

(** ** Properties *)

(** The text of an entry: blanks, words each followed by blanks, the command, blanks, and a
    comment, on one line. *)
Definition print_entry (lead : list Z) (ws : list (list Z * list Z)) (cmd trail comment : list Z) : list Z :=
  lead ++ print_words ws ++ cmd ++ trail ++ comment ++ [10].

Lemma print_words_no_nul ws x :
  Forall (fun p => word (fst p) /\ blanks (snd p)) ws -> x ∈ print_words ws -> x <> 0.
Proof.
  intros Hws Hx. unfold print_words in Hx. apply elem_of_concat in Hx as (i & c & Hi & Hx).
  rewrite list_lookup_fmap in Hi. apply fmap_Some in Hi as (p & Hp & ->).
  eapply Forall_lookup in Hws as [[_ Hw] [_ Hb]]; [|exact Hp].
  apply elem_of_app in Hx as [Hx|Hx]; [by apply Hw|by apply blank_not_end, Hb].
Qed.

(** C36. An entry of five words and a command is read back exactly. The words are not empty and hold
    no blank, no comment character and no terminator; the command starts and ends with something
    that is not a blank, may hold blanks, and holds no comment character and no terminator; blanks
    stand between the words and may stand around the entry; a comment without terminators and
    newlines may follow; the line does not end in a backslash (which would continue it) or a
    second newline, and is shorter than 2 GB. Then the reader returns the five words and the
    command as its six tokens, keeps the text of the entry in [data], and leaves the rest of the
    file. *)
Theorem config_read_entry before file d n lead ws cmd trail comment :
  length ws = 5%nat -> (forall x, x ∈ lead -> blank x) ->
  Forall (fun p => word (fst p) /\ blanks (snd p)) ws -> command cmd ->
  (forall x, x ∈ trail -> blank x) -> comment = [] \/ char_at comment = 35 ->
  (forall x, x ∈ comment -> x <> 0 /\ x <> 10) -> last_char (cmd ++ trail ++ comment) <> 92 ->
  last_char (cmd ++ trail ++ comment) <> 10 ->
  Z.of_nat (length (print_entry lead ws cmd trail comment)) < 2147483648 ->
  read_entry before (ParserT (print_entry lead ws cmd trail comment :: file) d n)
  = ReadTokens ((fst <$> ws) ++ [cmd])
      (ParserT file (Some (print_words ws ++ cmd ++ trail ++ comment)) (n + 1)).
Proof.
  intros Hlen Hlead Hws Hcmd Htr Hcm Hcn Hbs Hnl Hsz. rewrite read_entry_eq.
  set (text := print_words ws ++ cmd ++ trail ++ comment).
  assert (print_entry lead ws cmd trail comment = (lead ++ text) ++ [10]) as Hp
    by (unfold print_entry, text; by rewrite <- !app_assoc).
  rewrite Hp in *. cbn [length fp read_loop]. unfold get_line_with_continuation. cbn [fp lineno].
  assert (last_char (lead ++ text) = last_char (cmd ++ trail ++ comment)) as Hlc.
  { unfold last_char, text. rewrite (app_assoc lead), last_app.
    destruct (last (cmd ++ trail ++ comment)) eqn:El; [done|].
    destruct Hcmd as ((a & r & -> & _) & _). by apply last_None in El. }
  assert (join_lines ((lead ++ text) ++ [10]) file n = LineRead (lead ++ text) file (n + 1)) as Hj.
  { destruct file; cbn [join_lines]; rewrite last_char_snoc; change (10 =? 10) with true; cbv iota;
      rewrite removelast_last, Hlc, (proj2 (Z.eqb_neq _ _) Hbs), orb_true_r; done. }
  rewrite Hj. rewrite length_app in Hsz. simpl in Hsz. rewrite s32_id by lia.
  rewrite (proj2 (Z.ltb_ge _ _)) by lia.
  assert (exists a r, text = a :: r /\ ~ blank a /\ a <> 35 /\ a <> 0) as (a & r & Ht & Ha & H35 & H0).
  { unfold text. destruct Hws as [|[w1 b1] ws [Hw1 _] _]; [done|]. unfold print_words. simpl.
    rewrite <- !app_assoc. by apply word_head. }
  assert (forall x, x ∈ lead ++ text -> x <> 0) as Hno0.
  { intros x. unfold text. rewrite !elem_of_app. intros [Hx|[Hx|[Hx|[Hx|Hx]]]].
    - by apply blank_not_end, Hlead.
    - by apply (print_words_no_nul ws).
    - by apply Hcmd.
    - by apply blank_not_end, Htr.
    - by apply Hcn. }
  unfold read_line. rewrite (span_all _ (lead ++ text)) by (intros x Hx; apply negb_true_iff, Z.eqb_neq; auto).
  change (has entry_flags PARSE_TRIM) with true. change (has entry_flags PARSE_WS_COMMENTS) with false.
  change (has entry_flags PARSE_KEEP_COPY) with true. cbn [fst]. cbv iota.
  assert (skip_set [32; 9] (lead ++ text) = text) as ->.
  { rewrite Ht. unfold skip_set. rewrite span_stop; [done| |].
    - intros x Hx. by apply elem_blank, Hlead.
    - apply not_true_is_false. by rewrite elem_blank. }
  assert (char_at text = a) as -> by (by rewrite Ht).
  rewrite (proj2 (Z.eqb_neq _ _) H35), (proj2 (Z.eqb_neq _ _) H0). cbn [orb].
  change (Z.to_nat (Z.max 1 (u8 entry_flags))) with (S 5). rewrite <- Hlen at 1.
  unfold text at 1. rewrite tokenize_words by done. rewrite length_app, length_fmap, Hlen. reflexivity.
Qed.

Lemma config_read_entry_witness :
  read_entry (fun _ => 0)
    (ParserT [str "  */5 0   1 jan,feb mon-fri /bin/run -a  b # nightly" ++ [10]; str "next"] None 0)
  = ReadTokens [str "*/5"; str "0"; str "1"; str "jan,feb"; str "mon-fri"; str "/bin/run -a  b"]
      (ParserT [str "next"] (Some (str "*/5 0   1 jan,feb mon-fri /bin/run -a  b # nightly")) 1).
Proof.
  apply (config_read_entry (fun _ => 0) [str "next"] None 0 (str "  ")
    [(str "*/5", str " "); (str "0", str "   "); (str "1", str " "); (str "jan,feb", str " "); (str "mon-fri", str " ")]
    (str "/bin/run -a  b") (str " ") (str "# nightly")); try reflexivity; try discriminate.
  all: try check_chars.
  - repeat (apply Forall_cons; split; [split; (split; [discriminate|check_chars])|]); constructor.
  - split; [exists 47, (str "bin/run -a  b"); split; [reflexivity|unfold blank; lia]|].
    split; [|check_chars]. exists (str "/bin/run -a  "), 98. split; [reflexivity|unfold blank; lia].
  - by right.
Defined.

(** On any file whose last line does not end in a continuation (and ends in a visible
    character), reading an entry returns: one to six tokens, with fewer lines left to read, so
    that a loop over the file terminates, or the end of the file. It never runs off the start of
    a token while trimming, whatever the lines hold. *)
Theorem config_read_total before parser :
  before (-2) <> 92 -> before (-3) <> 92 -> closed (fp parser) ->
  (exists ts p', read_entry before parser = ReadTokens ts p' /\ (1 <= length ts <= 6)%nat /\
     (length (fp p') < length (fp parser))%nat /\ closed (fp p')) \/
  (exists i, read_entry before parser = ReadEnd i /\ i < 0).
Proof. intros H2 H3 Hc. rewrite read_entry_eq. apply read_loop_total; (done || lia). Qed.

Lemma config_read_total_witness :
  exists i, read_entry (fun _ => 0) (ParserT [str "# only comments" ++ [10]; [32; 10]] None 0) = ReadEnd i /\ i < 0.
Proof.
  destruct (config_read_total (fun _ => 0) (ParserT [str "# only comments" ++ [10]; [32; 10]] None 0))
    as [(ts & p' & Hr & _)|Hend]; [lia|lia| |vm_compute in Hr; discriminate|exact Hend].
  intros l [= <-]. exists [], 32. split; [lia|]. by right.
Defined.

(** The two defects of [get_line_with_continuation], whose lengths are unsigned: at the end
    of a file it stores a terminator in front of the line buffer (at index -1 or -2) before it
    reports the end; after a continuation on the last line it copies [SIZE_MAX] bytes. *)
Theorem get_line_unsigned_length before d n text :
  (before (-2) <> 92 -> before (-3) <> 92 ->
   exists i, get_line_with_continuation before (ParserT [] d n) = LineEof i /\ (i = -1 \/ i = -2)) /\
  get_line_with_continuation before (ParserT [text ++ [92; 10]] d n) = LineFault.
Proof.
  split.
  - intros H2 H3. unfold get_line_with_continuation, get_line_eof. cbn [fp].
    destruct (before (-2) =? 10); simpl Z.sub; rewrite (proj2 (Z.eqb_neq _ _)) by done; eauto.
  - unfold get_line_with_continuation. cbn [fp join_lines].
    change [92; 10] with ([92] ++ [10]). rewrite app_assoc, last_char_snoc. change (10 =? 10) with true.
    cbv iota. rewrite removelast_last, last_char_snoc. change (92 =? 92) with true.
    rewrite length_app, (proj2 (Z.eqb_neq _ _)) by (simpl; lia). done.
Qed.

Lemma get_line_unsigned_length_witness :
  exists i, get_line_with_continuation (fun _ => 0) (ParserT [] None 3) = LineEof i /\ (i = -1 \/ i = -2).
Proof.
  destruct (get_line_unsigned_length (fun _ => 0) None 3 (str "abc")) as [He _]. apply He; discriminate.
Defined.
