(* ===== verification/Timer.v ===== *)
(** * The timer service (src/src/module/timer_service/timer_service.c)

    A cron daemon: crontab files, their schedule fields, and the loop that flags, starts and
    reaps jobs once a minute. The system calls appear as their results: [localtime], [vfork],
    [waitpid], the directory and its files. *)

From S2P Require Import Prelude CString Parser ParserSpec.
From stdpp Require Import base tactics numbers list strings.
From Stdlib Require Import ZArith Lia.
Open Scope Z_scope.

Module Timer.

(** ** Data *)

Definition MAXLINES : Z := 65535.
Definition START_ME_NORMAL : Z := -1.

(** The tail of [struct CronLine] as the bytes it is: the pointer [cl_shell], then the five
    arrays, which follow it without padding. The other fields are apart. *)
Definition SHELL_OFF : Z := 0.
Definition DOW_OFF : Z := 8.
Definition MONS_OFF : Z := 15.
Definition HRS_OFF : Z := 27.
Definition DAYS_OFF : Z := 51.
Definition MINS_OFF : Z := 83.
Definition SCHED_SIZE : Z := 143.

Record CronLine := CronLineC {
  cl_cmd : list Z;
  cl_pid : Z;
  cl_mailto : option (list Z);
  cl_shell : option (list Z);
  cl_sched : list Z;
}.

Record CronFile := CronFileC {
  cf_lines : list CronLine;
  cf_username : list Z;
  cf_wants_starting : bool;
  cf_has_running : bool;
  cf_deleted : bool;
}.

Definition with_pid (l : CronLine) (pid : Z) : CronLine :=
  CronLineC (cl_cmd l) pid (cl_mailto l) (cl_shell l) (cl_sched l).
Definition with_lines (f : CronFile) (ls : list CronLine) (ws hr : bool) : CronFile :=
  CronFileC ls (cf_username f) ws hr (cf_deleted f).

Definition DowAry : list (list Z) := [str "sun"; str "mon"; str "tue"; str "wed"; str "thu"; str "fri"; str "sat"].
Definition MonAry : list (list Z) :=
  [str "jan"; str "feb"; str "mar"; str "apr"; str "may"; str "jun"; str "jul"; str "aug"; str "sep";
   str "oct"; str "nov"; str "dec"].

(** ** ParseField *)

(** The outcome of parsing one field: the bytes of the line and whether the text was accepted;
    a write outside the structure; or the loop not ending within its bound (never, see
    [ParseField_total]). *)
Inductive field_result :=
| FieldDone (mem : list Z) (ok : bool)
| FieldOutside
| FieldStuck.

(** [ary[i] = 1] for an array at [base]. *)
Definition set_at (mem : list Z) (i : Z) : option (list Z) :=
  if (0 <=? i) && (i <? Z.of_nat (length mem)) then Some (<[Z.to_nat i := 1]> mem) else None.

(** The [do ... while] loop; [failsafe] counts down from 1024. *)
Fixpoint fill (failsafe : nat) (base modvalue skip n1 n2 s0 : Z) (mem : list Z) : field_result :=
  match failsafe with
  | O => FieldStuck
  | S failsafe =>
      let n1 := Z.rem (s32 (n1 + 1)) modvalue in
      let s0 := s32 (s0 - 1) in
      match (if s0 =? 0 then set_at mem (base + Z.rem n1 modvalue) else Some mem) with
      | None => FieldOutside
      | Some mem =>
          let s0 := if s0 =? 0 then skip else s0 in
          if (failsafe =? 0)%nat then FieldDone mem false
          else if n1 =? n2 then FieldDone mem true
          else fill failsafe base modvalue skip n1 n2 s0 mem
      end
  end.

(** The name of a month or day at the start of [ptr]. *)
Fixpoint find_name (i : Z) (names : list (list Z)) (ptr : list Z) : option Z :=
  match names with
  | [] => None
  | n :: r => if strncaseeq 3 ptr n then Some i else find_name (i + 1) r ptr
  end.

(** One value: the new [n1], [n2] and position, or [None] when [skip] stays 0. *)
Definition field_value (modvalue off : Z) (names : option (list (list Z))) (n1 n2 : Z) (ptr : list Z)
    : option (Z * Z * list Z) :=
  if char_at ptr =? 42 then Some (0, modvalue - 1, tail ptr)
  else if isdigit (char_at ptr) then
    let '(v, endp) := strtol ptr in
    let v := s32 (v + off) in
    if n1 <? 0 then Some (v, n2, endp) else Some (n1, v, endp)
  else
    match names with
    | None => None
    | Some names =>
        match find_name 0 names ptr with
        | None => None
        | Some i => if n1 <? 0 then Some (i, n2, drop 3 ptr) else Some (n1, i, drop 3 ptr)
        end
    end.

Fixpoint parse_loop (fuel : nat) (base modvalue off : Z) (names : option (list (list Z)))
    (n1 n2 : Z) (ptr : list Z) (mem : list Z) : field_result :=
  match fuel with
  | O => FieldStuck
  | S fuel =>
      match field_value modvalue off names n1 n2 ptr with
      | None => FieldDone mem false
      | Some (n1, n2, ptr) =>
          if (char_at ptr =? 45) && (n2 <? 0) then parse_loop fuel base modvalue off names n1 n2 (tail ptr) mem
          else
            let n2 := if n2 <? 0 then n1 else n2 in
            let '(skip, ptr) :=
              if char_at ptr =? 47 then let '(v, endp) := strtol (tail ptr) in (s32 v, endp) else (1, ptr) in
            match fill 1024 base modvalue skip (s32 (n1 - 1)) n2 1 mem with
            | FieldDone mem true =>
                if negb (char_at ptr =? 44) then FieldDone mem (char_at ptr =? 0)
                else parse_loop fuel base modvalue off names (-1) (-1) (tail ptr) mem
            | r => r
            end
      end
  end.

(** Every turn consumes a character, so the length of the text bounds the loop. *)
Definition ParseField (mem : list Z) (base modvalue off : Z) (names : option (list (list Z))) (ptr : list Z)
    : field_result :=
  parse_loop (S (length ptr)) base modvalue off names (-1) (-1) ptr mem.

(** ** FixDayDow *)

Definition field (mem : list Z) (base n : Z) : list Z := take (Z.to_nat n) (drop (Z.to_nat base) mem).
Definition clear_field (mem : list Z) (base n : Z) : list Z :=
  take (Z.to_nat base) mem ++ replicate (Z.to_nat n) 0 ++ drop (Z.to_nat (base + n)) mem.

Definition FixDayDow (mem : list Z) : list Z :=
  let weekUsed := bool_decide (0 ∈ field mem DOW_OFF 7) in
  let daysUsed := bool_decide (0 ∈ field mem DAYS_OFF 32) in
  if eqb weekUsed daysUsed then mem
  else if weekUsed then clear_field mem DAYS_OFF 32
  else clear_field mem DOW_OFF 7.

(** ** Crontab files *)

(** The loop over the lines of a deleted file: running jobs stay. *)
Definition running (l : CronLine) : bool := 0 <? cl_pid l.

(** The loop of [delete_cronfile]. The argument is a pointer: [userName] is the text it leads to
    and [own] the position, from the current file on, of the file whose [cf_username] it is
    ([None]: an array of the caller's). [freed]: that name has been freed; [None] is the
    comparison of the next file with it. *)
Definition next_own (own : option nat) : option nat :=
  match own with Some (S i) => Some i | _ => None end.

Fixpoint delete_loop (userName : list Z) (own : option nat) (freed : bool) (files : list CronFile)
    : option (list CronFile) :=
  match files with
  | [] => Some []
  | f :: r =>
      if freed then None
      else if bool_decide (userName = cf_username f) then
        let ls := filter (fun l => running l = true) (cf_lines f) in
        match ls with
        | [] => delete_loop userName (next_own own) (bool_decide (own = Some O)) r
        | _ => cons (CronFileC ls (cf_username f) (cf_wants_starting f) true true)
                 <$> delete_loop userName (next_own own) false r
        end
      else cons f <$> delete_loop userName (next_own own) false r
  end.

Definition delete_cronfile (userName : list Z) (own : option nat) (files : list CronFile) : option (list CronFile) :=
  delete_loop userName own false files.

(** The rest of the string after the prefix. *)
Fixpoint is_prefixed_with (s key : list Z) : option (list Z) :=
  match key with
  | [] => Some s
  | k :: key => match s with
                | c :: s => if k =? c then is_prefixed_with s key else None
                | [] => None
                end
  end.

(** [SpecAry]: hour, day, month and weekday; [None] for "reboot". *)
Definition SpecAry : list (list Z * option (list Z * list Z * list Z * list Z)) :=
  [(str "yearly", Some (str "0", str "1", str "1", str "*"));
   (str "annually", Some (str "0", str "1", str "1", str "*"));
   (str "monthly", Some (str "0", str "1", str "*", str "*"));
   (str "weekly", Some (str "0", str "*", str "*", str "0"));
   (str "daily", Some (str "0", str "*", str "*", str "*"));
   (str "midnight", Some (str "0", str "*", str "*", str "*"));
   (str "hourly", Some (str "*", str "*", str "*", str "*"));
   (str "reboot", None)].

Fixpoint find_special (spec : list (list Z * option (list Z * list Z * list Z * list Z))) (name : list Z)
    : option (option (list Z * list Z * list Z * list Z)) :=
  match spec with
  | [] => None
  | (n, ts) :: r => if bool_decide (n = name) then Some ts else find_special r name
  end.

(** The five fields of a line, in the order the code parses them. *)
Definition parse_fields (mins hrs days mons dow : list Z) : option (list Z) :=
  let step r base modvalue off names tok :=
    match r with
    | Some mem => match ParseField mem base modvalue off names tok with FieldDone mem _ => Some mem | _ => None end
    | None => None
    end in
  let mem := Some (replicate (Z.to_nat SCHED_SIZE) 0) in
  let mem := step mem MINS_OFF 60 0 None mins in
  let mem := step mem HRS_OFF 24 0 None hrs in
  let mem := step mem DAYS_OFF 32 0 None days in
  let mem := step mem MONS_OFF 12 (-1) (Some MonAry) mons in
  let mem := step mem DOW_OFF 7 0 (Some DowAry) dow in
  FixDayDow <$> mem.

(** What one entry of the file makes: nothing, a setting, a line, or a line to start at once. *)
Inductive entry :=
| ESkip
| EMailto (v : option (list Z))
| EShell (v : list Z)
| ELine (sched : list Z) (cmd : list Z)
| EReboot (cmd : list Z)
| EFault.

Definition entry_line (mins hrs days mons dow cmd : list Z) : entry :=
  match parse_fields mins hrs days mons dow with Some mem => ELine mem cmd | None => EFault end.

Definition classify (tokens : list (list Z)) (data : list Z) : entry :=
  match tokens with
  | [] => ESkip
  | t0 :: _ =>
      match is_prefixed_with t0 (str "MAILTO=") with
      | Some v => EMailto (match v with [] => None | _ => Some v end)
      | None =>
          match is_prefixed_with t0 (str "SHELL=") with
          | Some v => EShell v
          | None =>
              if char_at t0 =? 64 then
                if Z.of_nat (length tokens) <? 2 then ESkip
                else
                  let cmd := Parser.skip_whitespace (Parser.skip_non_whitespace (Parser.skip_whitespace data)) in
                  match find_special SpecAry (tail t0) with
                  | None => ESkip
                  | Some None => EReboot cmd
                  | Some (Some (h, d, m, w)) => entry_line (str "0") h d m w cmd
                  end
              else
                match tokens with
                | [a; b; c; d; e; f] => entry_line a b c d e f
                | _ => ESkip
                end
          end
      end
  end.

(** The state of the loop over the entries. *)
Record load_state := LoadState {
  ls_lines : list CronLine;
  ls_wants : bool;
  ls_mailto : option (list Z);
  ls_shell : option (list Z);
}.

Definition add_entry (s : load_state) (e : entry) : option load_state :=
  match e with
  | ESkip => Some s
  | EMailto v => Some (LoadState (ls_lines s) (ls_wants s) v (ls_shell s))
  | EShell v => Some (LoadState (ls_lines s) (ls_wants s) (ls_mailto s) (Some v))
  | ELine mem cmd =>
      Some (LoadState (ls_lines s ++ [CronLineC cmd 0 (ls_mailto s) (ls_shell s) mem]) (ls_wants s)
              (ls_mailto s) (ls_shell s))
  | EReboot cmd =>
      Some (LoadState (ls_lines s ++ [CronLineC cmd START_ME_NORMAL (ls_mailto s) (ls_shell s)
                                        (replicate (Z.to_nat SCHED_SIZE) 0)]) true (ls_mailto s) (ls_shell s))
  | EFault => None
  end.

(** [fuel] is [maxLines - 1]: the loop stops when [--maxLines] reaches 0. [None] is a fault of the
    parser. *)
Fixpoint load_loop (fuel : nat) (before : Z -> Z) (parser : Parser.parser_t) (s : load_state) : option load_state :=
  match fuel with
  | O => Some s
  | S fuel =>
      match read_entry before parser with
      | Parser.ReadEnd _ => Some s
      | Parser.ReadFault => None
      | Parser.ReadTokens ts parser' =>
          match add_entry s (classify ts (default [] (Parser.data parser'))) with
          | None => None
          | Some s => load_loop fuel before parser' s
          end
      end
  end.

(** [contents] is [None] when the file cannot be opened; [fstat_ret] the result of [fstat]. The
    name is the array [buf_path] of the caller. *)
Definition load_crontab (before : Z -> Z) (fileName : list Z) (contents : option (list (list Z))) (fstat_ret : Z)
    (files : list CronFile) : option (list CronFile) :=
  match delete_cronfile fileName None files with
  | None => None
  | Some files =>
      match Parser.config_open contents with
      | None => Some files
      | Some parser =>
          if negb (fstat_ret =? 0) then Some files
          else
            match load_loop (Z.to_nat (MAXLINES - 1)) before parser (LoadState [] false None None) with
            | None => None
            | Some s => Some (CronFileC (ls_lines s) fileName (ls_wants s) false false :: files)
            end
      end
  end.

(** ** rescan_crontab_dir *)

(** The end of the loop at [again]: the files left, the read of a freed name, or the loop not
    ended within its bound (never, see [delete_all_never_stuck]). *)
Inductive delete_result :=
| DeleteDone (files : list CronFile)
| DeleteFreed
| DeleteStuck.

(** The first file that is not deleted is deleted, by its own name, until there is none. *)
Fixpoint delete_all (fuel : nat) (files : list CronFile) : delete_result :=
  match fuel with
  | O => DeleteStuck
  | S fuel =>
      match list_find (fun f => cf_deleted f = false) files with
      | None => DeleteDone files
      | Some (i, f) =>
          match delete_cronfile (cf_username f) (Some i) files with
          | None => DeleteFreed
          | Some files => delete_all fuel files
          end
      end
  end.

(** A directory entry: its name, the contents and the result of [fstat]. *)
Definition dir_entry : Type := list Z * option (list (list Z)) * Z.

Fixpoint load_dir (before : Z -> Z) (dir_name : list Z) (entries : list dir_entry) (files : list CronFile)
    : option (list CronFile) :=
  match entries with
  | [] => Some files
  | (name, contents, ret) :: r =>
      if elem 46 name then load_dir before dir_name r files
      else
        match load_crontab before (take 495 (dir_name ++ [47] ++ name)) contents ret files with
        | None => None
        | Some files => load_dir before dir_name r files
        end
  end.

(** [entries] is [None] when the directory cannot be opened: [readdir] then follows a null
    pointer. *)
Definition rescan_crontab_dir (before : Z -> Z) (dir_name : list Z) (entries : option (list dir_entry))
    (files : list CronFile) : option (list CronFile) :=
  match delete_all (S (length files)) files with
  | DeleteDone files =>
      match entries with
      | None => None
      | Some entries => load_dir before dir_name entries files
      end
  | DeleteFreed | DeleteStuck => None
  end.

(** ** Jobs *)

Record tm := Tm { tm_min : Z; tm_hour : Z; tm_mday : Z; tm_mon : Z; tm_wday : Z }.

Definition sched_at (l : CronLine) (i : Z) : bool := negb (default 0 (cl_sched l !! Z.to_nat i) =? 0).

(** The condition of [flag_starting_jobs] at one minute. *)
Definition matches (l : CronLine) (t : tm) : bool :=
  sched_at l (MINS_OFF + tm_min t) && sched_at l (HRS_OFF + tm_hour t)
  && (sched_at l (DAYS_OFF + tm_mday t) || sched_at l (DOW_OFF + tm_wday t))
  && sched_at l (MONS_OFF + tm_mon t).

Definition flag_line (t : tm) (l : CronLine) : CronLine :=
  if matches l t && (cl_pid l =? 0) then with_pid l (-1) else l.

Definition flag_file (t : tm) (f : CronFile) : CronFile :=
  if cf_deleted f then f
  else with_lines f (flag_line t <$> cf_lines f)
         (cf_wants_starting f || existsb (fun l => matches l t && (cl_pid l =? 0)) (cf_lines f))
         (cf_has_running f).

(** The minutes the loop looks at: [t1 - t1 % 60] and every 60 seconds up to [t2], without those
    that are not after [t1]. *)
Fixpoint minutes_from (n : nat) (t : Z) : list Z :=
  match n with O => [] | S n => t :: minutes_from n (t + 60) end.
Definition minutes (t1 t2 : Z) : list Z :=
  let t0 := t1 - Z.rem t1 60 in
  filter (fun t => t1 < t) (minutes_from (Z.to_nat ((t2 - t0) / 60 + 1)) t0).

Definition flag_starting_jobs (localtime : Z -> tm) (t1 t2 : Z) (files : list CronFile) : list CronFile :=
  foldl (fun fs t => flag_file (localtime t) <$> fs) files (minutes t1 t2).

(** [start_one_job]: [vfork] gives a positive number in the parent, a negative one on failure. *)
Definition start_one_job (vfork : Z) (l : CronLine) : Z * CronLine :=
  let pid := if vfork <? 0 then 0 else vfork in (pid, with_pid l pid).

(** The inner loop of [start_jobs]; the results of [vfork] are consumed in order. *)
Fixpoint start_lines (wants_start : Z) (forks : list Z) (ls : list CronLine) (ws hr : bool)
    : list CronLine * bool * bool * list Z :=
  match ls with
  | [] => ([], ws, hr, forks)
  | l :: r =>
      if negb (cl_pid l =? wants_start) then
        let '(r', ws', hr', forks') := start_lines wants_start forks r ws hr in (l :: r', ws', hr', forks')
      else
        let '(pid, l') := start_one_job (default (-1) (head forks)) l in
        let '(r', ws', hr', forks') :=
          start_lines wants_start (tail forks) r (ws || (pid <? 0)) (hr || (0 <? pid)) in
        (l' :: r', ws', hr', forks')
  end.

Fixpoint start_jobs (wants_start : Z) (forks : list Z) (files : list CronFile) : list CronFile * list Z :=
  match files with
  | [] => ([], forks)
  | f :: r =>
      if negb (cf_wants_starting f) then
        let '(r', forks') := start_jobs wants_start forks r in (f :: r', forks')
      else
        let '(ls, ws, hr, forks1) := start_lines wants_start forks (cf_lines f) false (cf_has_running f) in
        let '(r', forks') := start_jobs wants_start forks1 r in (with_lines f ls ws hr :: r', forks')
  end.

(** [check_completions]: [waitpid] is the result for each process asked about. *)
Definition process_finished_job (l : CronLine) : CronLine := with_pid l 0.

Definition finished (waitpid : Z -> Z) (l : CronLine) : bool :=
  (0 <? cl_pid l) && ((waitpid (cl_pid l) <? 0) || (waitpid (cl_pid l) =? cl_pid l)).
Definition reap_line (waitpid : Z -> Z) (l : CronLine) : CronLine :=
  if finished waitpid l then process_finished_job l else l.

Definition check_file (waitpid : Z -> Z) (f : CronFile) : CronFile :=
  if negb (cf_has_running f) then f
  else with_lines f (reap_line waitpid <$> cf_lines f) (cf_wants_starting f)
         (existsb (fun l => running l && negb (finished waitpid l)) (cf_lines f)).

Definition check_completions (waitpid : Z -> Z) (files : list CronFile) : Z * list CronFile :=
  let files' := check_file waitpid <$> files in
  (sumZ (fun p => if cf_has_running (fst p) && cf_has_running (snd p) then 1 else 0) (zip files files'), files').

(** ** timer_routine *)

(** What the system provides during one turn: the local time, the results of [vfork] and
    [waitpid], and, when [rescan] is set, what reading the crontab directory gives. *)
Record tick_env := TickEnv {
  localtime : Z -> tm;
  forks : list Z;
  waitpid : Z -> Z;
  rescan : option (option (list dir_entry));
  heap_before : Z -> Z;
  crontab_dir_name : list Z;
}.

(** The usual case: time advanced. *)
Definition run_jobs (env : tick_env) (t1 t2 : Z) (files : list CronFile) : list CronFile * Z :=
  let files := flag_starting_jobs (localtime env) t1 t2 files in
  let '(files, _) := start_jobs START_ME_NORMAL (forks env) files in
  let '(n, files) := check_completions (waitpid env) files in
  (files, if 0 <? n then 10 else 60).

(** One turn of the loop after the sleep, from [t1] to [t2]; the state is the files and
    [sleep_time]. [None] is a fault inside the parser or while the directory is read again. *)
Definition timer_tick (env : tick_env) (t1 t2 : Z) (files : list CronFile) (sleep_time : Z)
    : option (list CronFile * Z) :=
  let dt := t2 - t1 in
  match (match rescan env with
         | None => Some files
         | Some entries => rescan_crontab_dir (heap_before env) (crontab_dir_name env) entries files
         end) with
  | None => None
  | Some files =>
      if (dt <? -3600) || (3600 <? dt) then Some (files, sleep_time)
      else if 0 <? dt then Some (run_jobs env t1 t2 files)
      else Some (files, sleep_time)
  end.

(** [timer_service_init]: the configured directory ([None] when the file or the key is missing),
    the directory, and the results of the two pthread calls. *)
Definition timer_service_init (conf : option (list Z)) (before : Z -> Z) (entries : option (list dir_entry))
    (attr_ret create_ret : Z) : option (list CronFile) :=
  match conf with
  | None => None
  | Some path =>
      match rescan_crontab_dir before (take 127 path) entries [] with
      | None => None
      | Some files =>
          if negb (attr_ret =? 0) then None else if negb (create_ret =? 0) then None else Some files
      end
  end.

End Timer.
