(* ===== verification/TimerSpec.v ===== *)
(** * Correctness of the timer service

    The field parser (safety and meaning), the minutes the scheduler looks at, the invariant of
    the job table and what one turn of the loop does to it. *)

From S2P Require Import Prelude CString Parser ParserSpec Timer.
From stdpp Require Import base tactics numbers list sets strings.
From Stdlib Require Import ZArith Lia.
Open Scope Z_scope.
Import Timer.

(** ** The field parser stays inside the line and returns *)

Lemma strtol_le s : (length (snd (strtol s)) <= length s)%nat.
Proof.
  unfold strtol. set (s1 := snd (span isspace s)).
  assert (length s1 <= length s)%nat as H1 by apply span_length.
  destruct (match s1 with 45 :: r => (true, r) | 43 :: r => (false, r) | _ => (false, s1) end) as [neg s2] eqn:E.
  assert (length s2 <= length s1)%nat as H2.
  { destruct s1 as [|c r]; [by injection E as <- <-|].
    destruct c as [|q|q]; try (injection E as <- <-; done).
    repeat (destruct q as [q|q|]; try (injection E as <- <-; simpl; lia)). }
  pose proof (span_length isdigit s2) as H3. destruct (span isdigit s2) as [[|d ds] rest]; simpl in *; lia.
Qed.

Lemma strtol_digit s : isdigit (char_at s) = true -> (length (snd (strtol s)) < length s)%nat.
Proof.
  destruct s as [|c r]; [done|]. simpl char_at. intros Hd. unfold strtol.
  assert (isspace c = false) as Hs.
  { unfold isdigit in Hd. btest. unfold isspace. apply orb_false_iff. split; [apply Z.eqb_neq; lia|].
    apply andb_false_iff. right. apply Z.leb_gt. lia. }
  simpl span. rewrite Hs. cbn [snd].
  assert ((match c :: r with 45 :: r => (true, r) | 43 :: r => (false, r) | _ => (false, c :: r) end)
          = (false, c :: r)) as ->.
  { unfold isdigit in Hd. btest. destruct c as [|q|q]; try done. repeat (destruct q as [q|q|]; try done; try lia). }
  simpl span. rewrite Hd. pose proof (span_length isdigit r). destruct (span isdigit r) as [ds rest]. simpl in *. lia.
Qed.

Section Fields.
Context (base modvalue : Z).

(** The array lies in the structure, with room in front of it for the negative remainders of
    [%]. *)
Definition field_fits (mem : list Z) : Prop :=
  0 < modvalue /\ modvalue - 1 <= base /\ base + modvalue <= Z.of_nat (length mem).

Lemma set_at_ok mem i :
  0 <= i < Z.of_nat (length mem) -> exists mem', set_at mem i = Some mem' /\ length mem' = length mem.
Proof.
  intros Hi. unfold set_at. rewrite (proj2 (Z.leb_le _ _)), (proj2 (Z.ltb_lt _ _)) by lia.
  eexists. split; [reflexivity|]. apply length_insert.
Qed.

Lemma fill_total failsafe : forall skip n1 n2 s0 mem,
  field_fits mem -> (0 < failsafe)%nat ->
  exists mem' ok, fill failsafe base modvalue skip n1 n2 s0 mem = FieldDone mem' ok /\ length mem' = length mem.
Proof.
  induction failsafe as [|f IH]; intros skip n1 n2 s0 mem Hfit Hf; [lia|]. cbn [fill].
  pose proof Hfit as (Hm & Hlo & Hhi).
  set (n := Z.rem (s32 (n1 + 1)) modvalue).
  pose proof (Z.rem_bound_abs n modvalue ltac:(lia)) as Hr.
  assert (exists mem1, (if s32 (s0 - 1) =? 0 then set_at mem (base + Z.rem n modvalue) else Some mem) = Some mem1 /\
                       length mem1 = length mem) as (mem1 & -> & Hl1).
  { bcase; [|by eexists]. apply set_at_ok. lia. }
  destruct (f =? 0)%nat eqn:Ef; [by eexists _, _|]. apply Nat.eqb_neq in Ef.
  bcase; [by eexists _, _|].
  destruct (IH skip n n2 (if s32 (s0 - 1) =? 0 then skip else s32 (s0 - 1)) mem1) as (mem2 & ok & -> & Hl2).
  { unfold field_fits. rewrite Hl1. done. } { lia. }
  eexists _, _. split; [reflexivity|]. congruence.
Qed.

(** Names are not empty. *)
Definition names_ok (names : option (list (list Z))) : Prop :=
  forall ns n, names = Some ns -> n ∈ ns -> char_at n <> 0.

Lemma find_name_nonempty ns : forall i ptr k,
  (forall n, n ∈ ns -> char_at n <> 0) -> (forall n, n ∈ ns -> tolower (char_at n) <> 0) ->
  find_name i ns ptr = Some k -> ptr <> [].
Proof.
  induction ns as [|n ns IH]; intros i ptr k H1 H2 Hf; [done|]. cbn [find_name] in Hf.
  destruct (strncaseeq 3 ptr n) eqn:E; [|by eapply IH; [..|exact Hf]; set_solver].
  intros ->. cbn [strncaseeq char_at] in E. change (tolower 0) with 0 in E.
  destruct (0 =? tolower (char_at n)) eqn:E0; [|done]. btest. apply (H2 n); [by left|done].
Qed.

Lemma tolower_nonzero c : c <> 0 -> 0 <= c -> tolower c <> 0.
Proof. intros H0 Hc. unfold tolower. bcase; lia. Qed.

(** Reading a value moves forward. *)
Lemma field_value_progress off names n1 n2 ptr n1' n2' ptr' :
  (forall ns n, names = Some ns -> n ∈ ns -> 0 < char_at n) ->
  field_value modvalue off names n1 n2 ptr = Some (n1', n2', ptr') -> (length ptr' < length ptr)%nat.
Proof.
  intros Hn. unfold field_value. bcase.
  - intros [= <- <- <-]. destruct ptr; simpl in *; [lia|]. lia.
  - bcase.
    + pose proof (strtol_digit ptr ltac:(done)). destruct (strtol ptr) as [v endp]. simpl in *.
      bcase; intros [= <- <- <-]; done.
    + destruct names as [ns|]; [|done]. destruct (find_name 0 ns ptr) as [k|] eqn:Ef; [|done].
      assert (ptr <> []) as Hne.
      { eapply (find_name_nonempty ns 0 ptr k); [..|exact Ef]; intros n Hin; specialize (Hn ns n eq_refl Hin);
          [lia|apply tolower_nonzero; lia]. }
      assert (length (drop 3 ptr) < length ptr)%nat by (rewrite length_drop; destruct ptr; simpl; [done|lia]).
      bcase; intros [= <- <- <-]; done.
Qed.

Lemma parse_loop_total off names fuel : forall n1 n2 ptr mem,
  field_fits mem -> (forall ns n, names = Some ns -> n ∈ ns -> 0 < char_at n) -> (length ptr < fuel)%nat ->
  exists mem' ok, parse_loop fuel base modvalue off names n1 n2 ptr mem = FieldDone mem' ok /\
    length mem' = length mem.
Proof.
  induction fuel as [|fuel IH]; intros n1 n2 ptr mem Hfit Hn Hf; [lia|]. cbn [parse_loop].
  destruct (field_value modvalue off names n1 n2 ptr) as [[[a b] p]|] eqn:Ev; [|by eexists _, _].
  apply field_value_progress in Ev; [|done].
  assert (length (tail p) <= length p)%nat as Htl by (destruct p; simpl; lia).
  bcase; [apply IH; (done || lia)|].
  assert (exists sk q, (if char_at p =? 47 then let '(v, endp) := strtol (tail p) in (s32 v, endp) else (1, p))
                       = (sk, q) /\ (length q <= length p)%nat) as (sk & q & -> & Hq).
  { bcase; [|by eexists _, _]. pose proof (strtol_le (tail p)). destruct (strtol (tail p)) as [v e]. simpl in *.
    eexists _, _. split; [reflexivity|]. lia. }
  destruct (fill_total 1024 sk (s32 (a - 1)) (if b <? 0 then a else b) 1 mem Hfit ltac:(lia))
    as (mem1 & ok & -> & Hl1).
  destruct ok; [|by eexists _, _]. bcase; [by eexists _, _|].
  destruct (IH (-1) (-1) (tail q) mem1) as (mem2 & ok & -> & Hl2); [by unfold field_fits; rewrite Hl1|done| |].
  - assert (length (tail q) <= length q)%nat by (destruct q; simpl; lia). lia.
  - eexists _, _. split; [reflexivity|]. congruence.
Qed.
End Fields.

Lemma ary_names_ok ns n : ns = MonAry \/ ns = DowAry -> n ∈ ns -> 0 < char_at n.
Proof.
  intros [->| ->]; unfold MonAry, DowAry; intros Hn;
    repeat (apply elem_of_cons in Hn as [->|Hn]; [vm_compute; done|]); by apply elem_of_nil in Hn.
Qed.

(** ** What a field means *)

(** Positions set by [lo..hi/step], counted from [lo] and wrapping around at [modvalue]. *)
Definition picks (m lo hi step : Z) : list Z :=
  (fun j => (lo + Z.of_nat j) mod m) <$>
    filter (fun j => Z.of_nat j mod step = 0) (seq 0 (S (Z.to_nat ((hi - lo) mod m)))).

Definition set_all (base : Z) (mem : list Z) (ks : list Z) : list Z :=
  foldl (fun mem k => <[Z.to_nat (base + k) := 1]> mem) mem ks.

Lemma set_all_length base mem ks : length (set_all base mem ks) = length mem.
Proof. unfold set_all. revert mem. induction ks as [|k ks IH]; intros mem; simpl; [done|]. by rewrite IH, length_insert. Qed.

Section Fill.
Context (base m lo hi step : Z).
Context (Hm : 0 < m <= 1000) (Hlo : 0 <= lo < m) (Hhi : 0 <= hi < m) (Hstep : 1 <= step < 1000000).

(** The picks from offset [j] on, [d + 1] positions. *)
Notation picks_from j d :=
  ((fun j => (lo + Z.of_nat j) mod m) <$> filter (fun j => Z.of_nat j mod step = 0) (seq j (S d))).

Lemma step_counter (j : nat) :
  let s := (- Z.of_nat j) mod step in
  (s = 0 <-> Z.of_nat j mod step = 0) /\
  (if decide (Z.of_nat j mod step = 0) then step else s) = (- Z.of_nat (S j)) mod step + 1 /\ 0 <= s < step.
Proof using Hstep.
  intros s. unfold s. pose proof (Z.mod_pos_bound (- Z.of_nat j) step ltac:(lia)) as Hb.
  split; [|split; [|done]].
  - split; intros H0.
    + apply Z.mod_opp_l_z in H0; [|lia]. by rewrite Z.opp_involutive in H0.
    + apply Z.mod_opp_l_z; [lia|done].
  - replace (- Z.of_nat (S j)) with (- Z.of_nat j - 1) by lia.
    rewrite Zminus_mod. case_decide as Hj.
    + apply Z.mod_opp_l_z in Hj; [|lia]. rewrite Hj.
      destruct (decide (step = 1)) as [E1|]; [rewrite E1, !Z.mod_1_r; lia|].
      rewrite (Z.mod_small 1) by lia.
      replace ((0 - 1) mod step) with (step - 1); [lia|].
      apply Z.mod_unique with (-1); lia.
    + assert ((- Z.of_nat j) mod step <> 0) as Hne.
      { intros H0. apply Hj. apply Z.mod_opp_l_z in H0; [|lia]. by rewrite Z.opp_involutive in H0. }
      assert (step <> 1) by (intros ->; rewrite Z.mod_1_r in Hne; lia).
      rewrite (Z.mod_small 1) by lia. rewrite (Z.mod_small ((- Z.of_nat j) mod step - 1)) by lia. lia.
Qed.

Lemma next_index x n : 0 <= x < m -> (n = x - 1 \/ n = x - 1 + m) -> Z.rem (s32 (n + 1)) m = x.
Proof using Hm Hstep.
  intros Hx Hn. rewrite s32_id by lia. destruct Hn as [-> | ->].
  - replace (x - 1 + 1) with x by lia. apply Z.rem_small. lia.
  - replace (x - 1 + m + 1) with (x + 1 * m) by lia. rewrite Z.rem_add by nia. apply Z.rem_small. lia.
Qed.

Lemma fill_picks (d : nat) : forall f (j : nat) n1 mem,
  (Z.of_nat j + Z.of_nat d = (hi - lo) mod m) -> (d + 1 < f)%nat ->
  (n1 = (lo + Z.of_nat j) mod m - 1 \/ n1 = (lo + Z.of_nat j) mod m - 1 + m) ->
  m - 1 <= base -> base + m <= Z.of_nat (length mem) ->
  fill f base m step n1 hi ((- Z.of_nat j) mod step + 1) mem
  = FieldDone (set_all base mem (picks_from j d)) true.
Proof using All.
  induction d as [|d IH]; intros f j n1 mem Hd Hf Hn Hb1 Hb2; (destruct f as [|f]; [lia|]); cbn [fill].
  all: pose proof (Z.mod_pos_bound (lo + Z.of_nat j) m ltac:(lia)) as Hx.
  all: rewrite (next_index ((lo + Z.of_nat j) mod m) n1 Hx Hn).
  all: destruct (step_counter j) as (Hz & Hnext & Hs).
  all: replace ((- Z.of_nat j) mod step + 1 - 1) with ((- Z.of_nat j) mod step) by lia.
  all: rewrite (s32_id ((- Z.of_nat j) mod step)) by lia.
  all: rewrite (Z.rem_small ((lo + Z.of_nat j) mod m) m) by lia.
  all: assert ((if (- Z.of_nat j) mod step =? 0 then set_at mem (base + (lo + Z.of_nat j) mod m) else Some mem)
    = Some (if decide (Z.of_nat j mod step = 0) then <[Z.to_nat (base + (lo + Z.of_nat j) mod m) := 1]> mem else mem)) as ->
    by (case_decide as Hj; [rewrite (proj2 Hz Hj)|]; [simpl; unfold set_at;
          rewrite (proj2 (Z.leb_le _ _)), (proj2 (Z.ltb_lt _ _)) by lia; done|];
        rewrite (proj2 (Z.eqb_neq _ _)) by tauto; done).
  all: rewrite (proj2 (Nat.eqb_neq f 0)) by lia.
  - assert ((lo + Z.of_nat j) mod m = hi) as ->.
    { replace (Z.of_nat j) with ((hi - lo) mod m) by lia. rewrite Zplus_mod_idemp_r.
      replace (lo + (hi - lo)) with hi by lia. by apply Z.mod_small. }
    rewrite Z.eqb_refl. cbn [seq]. rewrite filter_cons. case_decide; [|done]. simpl.
    assert ((lo + Z.of_nat j) mod m = hi) as ->; [|done].
    replace (Z.of_nat j) with ((hi - lo) mod m) by lia. rewrite Zplus_mod_idemp_r.
    replace (lo + (hi - lo)) with hi by lia. by apply Z.mod_small.
  - rewrite (proj2 (Z.eqb_neq ((lo + Z.of_nat j) mod m) hi)).
    2: { intros Heq. assert ((hi - lo) mod m = Z.of_nat j mod m) as Hc.
         { rewrite <- Heq. rewrite Zminus_mod_idemp_l. f_equal. lia. }
         rewrite (Z.mod_small (Z.of_nat j)) in Hc; [lia|].
         pose proof (Z.mod_pos_bound (hi - lo) m ltac:(lia)). lia. }
    replace (if (- Z.of_nat j) mod step =? 0 then step else (- Z.of_nat j) mod step)
      with ((- Z.of_nat (S j)) mod step + 1)
      by (rewrite <- Hnext; case_decide as Hj;
          [rewrite (proj2 (Z.eqb_eq _ _)) by tauto|rewrite (proj2 (Z.eqb_neq _ _)) by tauto]; done).
    rewrite IH; try lia.
    + f_equal. cbn [seq]. rewrite (filter_cons _ j). case_decide; done.
    + replace (lo + Z.of_nat (S j)) with (lo + Z.of_nat j + 1) by lia.
      rewrite (Zplus_mod (lo + Z.of_nat j) 1). destruct (decide ((lo + Z.of_nat j) mod m + 1 = m)) as [Hw|Hw].
      * right. destruct (decide (m = 1)) as [->|]; [rewrite !Z.mod_1_r; lia|].
        rewrite (Z.mod_small 1) by lia. rewrite Hw, Z.mod_same by lia. lia.
      * left. rewrite (Z.mod_small 1) by lia. rewrite (Z.mod_small (_ + 1)) by lia. lia.
    + case_decide; rewrite ?length_insert; done.
Qed.
End Fill.

(** *** The text of a field *)

Inductive range := RStar | ROne (a : Z) | RRange (a b : Z).
Record item := Item { rng : range; item_step : option Z }.

Definition print_range (r : range) : list Z :=
  match r with RStar => [42] | ROne a => dec2 a | RRange a b => dec2 a ++ [45] ++ dec2 b end.
Definition print_item (i : item) : list Z :=
  print_range (rng i) ++ match item_step i with None => [] | Some s => 47 :: dec2 s end.
Fixpoint print_items (its : list item) : list Z :=
  match its with
  | [] => []
  | [i] => print_item i
  | i :: its => print_item i ++ 44 :: print_items its
  end.

Section Items.
Context (base m off : Z) (names : option (list (list Z))).
Context (Hm : 0 < m <= 1000) (Hoff : -1 <= off <= 0) (Hbase : m - 1 <= base).

(** The positions of a written number. *)
Definition value_ok (a : Z) : Prop := 0 <= a < 100 /\ 0 <= a + off < m.
Definition item_ok (i : item) : Prop :=
  match rng i with RStar => True | ROne a => value_ok a | RRange a b => value_ok a /\ value_ok b end /\
  match item_step i with None => True | Some s => 1 <= s < 100 end.

Definition item_lo (i : item) : Z := match rng i with RStar => 0 | ROne a | RRange a _ => a + off end.
Definition item_hi (i : item) : Z := match rng i with RStar => m - 1 | ROne a => a + off | RRange _ b => b + off end.
Definition item_picks (i : item) : list Z := picks m (item_lo i) (item_hi i) (default 1 (item_step i)).

Lemma item_bounds i :
  item_ok i -> 0 <= item_lo i < m /\ 0 <= item_hi i < m /\ 1 <= default 1 (item_step i) < 1000000.
Proof using Hm.
  intros [Hr Hs]. unfold item_lo, item_hi, value_ok in *.
  split; [|split]; [destruct (rng i); lia..|]. destruct (item_step i); simpl; lia.
Qed.

Lemma fill_item i mem :
  item_ok i -> base + m <= Z.of_nat (length mem) ->
  fill 1024 base m (default 1 (item_step i)) (s32 (item_lo i - 1)) (item_hi i) 1 mem
  = FieldDone (set_all base mem (item_picks i)) true.
Proof using Hm Hbase.
  intros Hi Hl. destruct (item_bounds i Hi) as (H1 & H2 & H3).
  pose proof (Z.mod_pos_bound (item_hi i - item_lo i) m ltac:(lia)) as Hb.
  pose proof (fill_picks base m (item_lo i) (item_hi i) (default 1 (item_step i)) Hm H1 H2 H3
    (Z.to_nat ((item_hi i - item_lo i) mod m)) 1024 0 (item_lo i - 1) mem) as Hf.
  simpl Z.of_nat in Hf. rewrite Z.add_0_r, (Z.mod_small (item_lo i)) in Hf by lia.
  change (- 0) with 0 in Hf. rewrite Z.mod_0_l in Hf by lia.
  rewrite (s32_id (item_lo i - 1)) by lia. apply Hf; lia || (left; done).
Qed.

(** What follows an item. *)
Definition item_end (rest : list Z) : Prop := char_at rest = 44 \/ rest = [].

Lemma item_end_facts rest :
  item_end rest -> isdigit (char_at rest) = false /\ char_at rest <> 45 /\ char_at rest <> 47.
Proof. intros [-> | ->]; split_and!; done. Qed.

Lemma dec2_head a rest : 0 <= a < 100 ->
  (char_at (dec2 a ++ rest) =? 42) = false /\ isdigit (char_at (dec2 a ++ rest)) = true.
Proof.
  intros Ha. pose proof (dec2_digits a Ha) as Hd. destruct (dec2 a) as [|c r] eqn:E.
  - unfold dec2 in E. destruct (a <? 10); discriminate E.
  - apply Forall_cons in Hd as [Hd _]. simpl. split; [|done]. unfold isdigit in Hd. btest. apply Z.eqb_neq. lia.
Qed.

(** Reading one written value, first or second. *)
Lemma field_value_dec2 a rest n1 n2 :
  value_ok a -> isdigit (char_at rest) = false ->
  field_value m off names n1 n2 (dec2 a ++ rest)
  = if n1 <? 0 then Some (a + off, n2, rest) else Some (n1, a + off, rest).
Proof using Hm Hoff.
  intros [Ha Hv] Hr. destruct (dec2_head a rest Ha) as [H42 Hd]. unfold field_value.
  rewrite H42, Hd, strtol_dec2, s32_id by (done || lia). done.
Qed.

(** The part of a turn after the values: the optional step, the array, and what follows. *)
Lemma finish_item fuel i rest mem :
  item_ok i -> item_end rest -> base + m <= Z.of_nat (length mem) ->
  (let '(skip, ptr) :=
     if char_at (match item_step i with None => [] | Some s => 47 :: dec2 s end ++ rest) =? 47
     then let '(v, endp) := strtol (tail (match item_step i with None => [] | Some s => 47 :: dec2 s end ++ rest)) in (s32 v, endp)
     else (1, match item_step i with None => [] | Some s => 47 :: dec2 s end ++ rest) in
   match fill 1024 base m skip (s32 (item_lo i - 1)) (item_hi i) 1 mem with
   | FieldDone mem true =>
       if negb (char_at ptr =? 44) then FieldDone mem (char_at ptr =? 0)
       else parse_loop fuel base m off names (-1) (-1) (tail ptr) mem
   | r => r
   end) = (match rest with
           | [] => FieldDone (set_all base mem (item_picks i)) true
           | _ :: r => parse_loop fuel base m off names (-1) (-1) r (set_all base mem (item_picks i))
           end).
Proof using Hm Hbase.
  intros Hi He Hl. destruct (item_end_facts rest He) as (Hd & _ & H47).
  pose proof (fill_item i mem Hi Hl) as Hf. destruct Hi as [_ Hs].
  assert ((if char_at (match item_step i with None => [] | Some s => 47 :: dec2 s end ++ rest) =? 47
     then let '(v, endp) := strtol (tail (match item_step i with None => [] | Some s => 47 :: dec2 s end ++ rest)) in (s32 v, endp)
     else (1, match item_step i with None => [] | Some s => 47 :: dec2 s end ++ rest))
     = (default 1 (item_step i), rest)) as ->.
  { destruct (item_step i) as [s|]; simpl.
    - rewrite strtol_dec2, s32_id by (done || lia). done.
    - by rewrite (proj2 (Z.eqb_neq _ _) H47). }
  rewrite Hf. destruct He as [He| ->]; [|done]. destruct rest as [|c r]; [done|]. simpl in He. subst c. done.
Qed.

Lemma parse_item fuel i rest mem :
  item_ok i -> item_end rest -> base + m <= Z.of_nat (length mem) ->
  (length (print_item i ++ rest) < fuel)%nat ->
  exists fuel', (length (tail rest) < fuel')%nat /\
    parse_loop fuel base m off names (-1) (-1) (print_item i ++ rest) mem
    = match rest with
      | [] => FieldDone (set_all base mem (item_picks i)) true
      | _ :: r => parse_loop fuel' base m off names (-1) (-1) r (set_all base mem (item_picks i))
      end.
Proof using All.
  intros Hi He Hl Hf. pose proof Hi as [Hr _]. destruct (item_end_facts rest He) as (Hd & H45 & _).
  set (sfx := match item_step i with None => [] | Some s => 47 :: dec2 s end) in *.
  assert (isdigit (char_at (sfx ++ rest)) = false /\ char_at (sfx ++ rest) <> 45) as [Hds H45s].
  { unfold sfx. destruct (item_step i); simpl; [|done]. split; [done|lia]. }
  assert (print_item i ++ rest = print_range (rng i) ++ sfx ++ rest) as Hp
    by (unfold print_item; by rewrite <- app_assoc).
  rewrite Hp in *. rewrite !length_app in Hf.
  assert (length (tail rest) <= length rest)%nat as Htl by (destruct rest; simpl; lia).
  pose proof (item_bounds i Hi) as (Hlo & Hhi & _).
  unfold item_lo, item_hi in Hlo, Hhi.
  destruct fuel as [|fuel]; [lia|]. destruct (rng i) as [|a|a b] eqn:Er; simpl print_range in *; cbn [parse_loop].
  - exists fuel. split; [simpl in Hf; lia|]. unfold field_value. cbn [app char_at tail].
    change (42 =? 42) with true. cbv iota. rewrite (proj2 (Z.ltb_ge (m - 1) 0)) by lia. rewrite andb_false_r.
    pose proof (finish_item fuel i rest mem Hi He Hl) as Hfin. unfold item_lo, item_hi in Hfin. rewrite Er in Hfin.
    exact Hfin.
  - exists fuel. assert (1 <= length (dec2 a))%nat by (unfold dec2; bcase; simpl; lia). split; [lia|].
    rewrite field_value_dec2 by done. change (-1 <? 0) with true. cbv iota.
    rewrite (proj2 (Z.eqb_neq _ _) H45s). cbn [andb].
    pose proof (finish_item fuel i rest mem Hi He Hl) as Hfin. unfold item_lo, item_hi in Hfin. rewrite Er in Hfin.
    exact Hfin.
  - destruct Hr as [Ha Hb]. rewrite <- !app_assoc. rewrite field_value_dec2 by done.
    change (-1 <? 0) with true. cbv iota. cbn [app char_at tail]. change (45 =? 45) with true. cbn [andb].
    assert (1 <= length (dec2 a))%nat by (unfold dec2; bcase; simpl; lia).
    assert (1 <= length (dec2 b))%nat by (unfold dec2; bcase; simpl; lia).
    rewrite !length_app in Hf. simpl in Hf.
    destruct fuel as [|fuel]; [lia|]. exists fuel. split; [lia|]. cbn [parse_loop].
    rewrite field_value_dec2 by done. rewrite (proj2 (Z.ltb_ge (a + off) 0)) by (unfold value_ok in *; lia).
    rewrite (proj2 (Z.ltb_ge (b + off) 0)) by (unfold value_ok in *; lia). rewrite andb_false_r.
    pose proof (finish_item fuel i rest mem Hi He Hl) as Hfin. unfold item_lo, item_hi in Hfin. rewrite Er in Hfin.
    exact Hfin.
Qed.

Lemma parse_items its : forall fuel mem,
  its <> [] -> Forall item_ok its -> base + m <= Z.of_nat (length mem) -> (length (print_items its) < fuel)%nat ->
  parse_loop fuel base m off names (-1) (-1) (print_items its) mem
  = FieldDone (foldl (fun mem i => set_all base mem (item_picks i)) mem its) true.
Proof using All.
  induction its as [|i its IH]; intros fuel mem Hne Hok Hl Hf; [done|].
  apply Forall_cons in Hok as [Hi Hok]. destruct its as [|i2 its].
  - simpl print_items in *. rewrite <- (app_nil_r (print_item i)) in *.
    destruct (parse_item fuel i [] mem Hi ltac:(by right) Hl Hf) as (f' & _ & ->). done.
  - change (print_items (i :: i2 :: its)) with (print_item i ++ 44 :: print_items (i2 :: its)) in *.
    destruct (parse_item fuel i (44 :: print_items (i2 :: its)) mem Hi ltac:(by left) Hl Hf) as (f' & Hf' & ->).
    rewrite IH; [done|done|done| |done]. by rewrite set_all_length.
Qed.
End Items.

(** ** The minutes of a turn *)

Lemma minutes_from_seq n : forall t, minutes_from n t = (fun i => t + 60 * Z.of_nat i) <$> seq 0 n.
Proof.
  induction n as [|n IH]; intros t; [done|]. cbn [minutes_from seq]. rewrite fmap_cons, IH.
  f_equal; [lia|]. rewrite <- (fmap_S_seq 0 n), <- list_fmap_compose. apply list_fmap_ext. intros _ x _. simpl. lia.
Qed.

(** They are the whole minutes after [t1], up to [t2]. *)
Lemma minutes_seq t1 t2 :
  0 <= t1 <= t2 ->
  minutes t1 t2 = (fun i => 60 * (t1 / 60 + 1 + Z.of_nat i)) <$> seq 0 (Z.to_nat (t2 / 60 - t1 / 60)).
Proof.
  intros Ht. unfold minutes. rewrite Z.rem_mod_nonneg by lia.
  pose proof (Z.div_mod t1 60 ltac:(lia)) as H1. pose proof (Z.mod_pos_bound t1 60 ltac:(lia)) as H2.
  replace (t1 - t1 mod 60) with (60 * (t1 / 60)) by lia.
  assert ((t2 - 60 * (t1 / 60)) / 60 = t2 / 60 - t1 / 60) as ->.
  { replace (t2 - 60 * (t1 / 60)) with (t2 + (- (t1 / 60)) * 60) by lia. rewrite Z.div_add by lia. lia. }
  pose proof (Z.div_le_mono t1 t2 60 ltac:(lia) ltac:(lia)).
  replace (Z.to_nat (t2 / 60 - t1 / 60 + 1)) with (S (Z.to_nat (t2 / 60 - t1 / 60))) by lia.
  cbn [minutes_from]. rewrite filter_cons_False by lia.
  rewrite filter_keeps_all.
  - rewrite minutes_from_seq. apply list_fmap_ext. intros _ x _. lia.
  - rewrite minutes_from_seq. intros x (i & -> & _)%list_elem_of_fmap. lia.
Qed.

Lemma elem_of_minutes t1 t2 x :
  0 <= t1 <= t2 -> x ∈ minutes t1 t2 <-> t1 < x <= t2 /\ x mod 60 = 0.
Proof.
  intros Ht. rewrite minutes_seq by done. rewrite list_elem_of_fmap.
  pose proof (Z.div_mod t1 60 ltac:(lia)) as H1. pose proof (Z.mod_pos_bound t1 60 ltac:(lia)) as H2.
  pose proof (Z.div_mod t2 60 ltac:(lia)) as H3. pose proof (Z.mod_pos_bound t2 60 ltac:(lia)) as H4.
  split.
  - intros (i & -> & Hi%elem_of_seq). split; [lia|].
    rewrite Z.mul_comm. apply Z.mod_mul. lia.
  - intros [Hx H0]. pose proof (Z.div_mod x 60 ltac:(lia)) as H5.
    exists (Z.to_nat (x / 60 - t1 / 60 - 1)). split; [lia|]. apply elem_of_seq. lia.
Qed.

(** Consecutive turns look at every minute once. *)
Lemma minutes_app t1 t2 t3 :
  0 <= t1 <= t2 -> t2 <= t3 -> minutes t1 t3 = minutes t1 t2 ++ minutes t2 t3.
Proof.
  intros H12 H23. rewrite !minutes_seq by lia.
  pose proof (Z.div_le_mono t1 t2 60 ltac:(lia) ltac:(lia)). pose proof (Z.div_le_mono t2 t3 60 ltac:(lia) ltac:(lia)).
  replace (Z.to_nat (t3 / 60 - t1 / 60)) with (Z.to_nat (t2 / 60 - t1 / 60) + Z.to_nat (t3 / 60 - t2 / 60))%nat by lia.
  rewrite seq_app, fmap_app. f_equal. simpl.
  rewrite <- (Nat.add_0_r (Z.to_nat (t2 / 60 - t1 / 60))) at 1.
  rewrite <- fmap_add_seq, <- list_fmap_compose. apply list_fmap_ext. intros _ x _. simpl. lia.
Qed.

(** ** Flagging *)

Section Flag.
Context (lt : Z -> tm).

(** A dormant line one of whose minutes is in the list. *)
Definition due (ts : list Z) (l : CronLine) : bool :=
  (cl_pid l =? 0) && existsb (fun t => matches l (lt t)) ts.

Lemma flag_lines_once ts : forall l,
  foldl (fun l t => flag_line (lt t) l) l ts = if due ts l then with_pid l (-1) else l.
Proof.
  unfold due. induction ts as [|t ts IH]; intros l; simpl; [by rewrite andb_false_r|].
  rewrite IH. unfold flag_line.
  destruct (cl_pid l =? 0) eqn:E; simpl; [|by rewrite andb_false_r, E].
  rewrite andb_true_r. destruct (matches l (lt t)); simpl; [done|by rewrite E].
Qed.

Definition flag_ref (ts : list Z) (f : CronFile) : CronFile :=
  if cf_deleted f then f
  else with_lines f ((fun l => if due ts l then with_pid l (-1) else l) <$> cf_lines f)
         (cf_wants_starting f || existsb (due ts) (cf_lines f)) (cf_has_running f).

Lemma foldl_fmap {A B} (g : B -> A -> A) (ts : list B) : forall fs : list A,
  foldl (fun fs t => g t <$> fs) fs ts = (fun f => foldl (fun f t => g t f) f ts) <$> fs.
Proof.
  induction ts as [|t ts IH]; intros fs; simpl; [by rewrite list_fmap_id|].
  rewrite IH, <- list_fmap_compose. done.
Qed.

Lemma existsb_due t ts ls :
  existsb (fun l => matches l (lt t) && (cl_pid l =? 0)) ls || existsb (due ts) (flag_line (lt t) <$> ls)
  = existsb (due (t :: ts)) ls.
Proof.
  induction ls as [|l ls IH]; [done|]. simpl. rewrite <- IH. unfold due, flag_line. simpl.
  destruct (matches l (lt t)), (cl_pid l =? 0) eqn:E; simpl; rewrite ?E, ?orb_false_r, ?orb_true_r; simpl; try done.
  - destruct (existsb (fun t0 => matches l (lt t0)) ts); simpl; by rewrite ?orb_true_r.
Qed.

Lemma flag_file_fold ts : forall f, foldl (fun f t => flag_file (lt t) f) f ts = flag_ref ts f.
Proof.
  induction ts as [|t ts IH]; intros f; simpl.
  - unfold flag_ref, due. destruct f as [ls u ws hr del]; simpl. destruct del; [done|]. unfold with_lines. simpl.
    f_equal.
    + symmetry. erewrite list_fmap_ext; [apply list_fmap_id|]. intros i l _. by rewrite andb_false_r.
    + assert (existsb (fun l => (cl_pid l =? 0) && false) ls = false) as ->; [|by rewrite orb_false_r].
      induction ls as [|l ls IHl]; [done|]. simpl. by rewrite andb_false_r.
  - rewrite IH. unfold flag_ref, flag_file. destruct (cf_deleted f) eqn:Ed; [by rewrite Ed|].
    unfold with_lines. cbn [cf_deleted cf_lines cf_username cf_wants_starting cf_has_running]. rewrite Ed.
    f_equal.
    + rewrite <- list_fmap_compose. apply list_fmap_ext. intros i l _. simpl.
      pose proof (flag_lines_once (t :: ts) l) as H1. simpl in H1. rewrite flag_lines_once in H1. exact H1.
    + by rewrite <- orb_assoc, existsb_due.
Qed.

Lemma flag_starting_ref t1 t2 files :
  flag_starting_jobs lt t1 t2 files = flag_ref (minutes t1 t2) <$> files.
Proof.
  unfold flag_starting_jobs. rewrite foldl_fmap. apply list_fmap_ext. intros i f _. apply flag_file_fold.
Qed.
End Flag.

(** ** The job table *)

(** A running job makes its file one that has running jobs, a pending one makes it one that
    wants starting; no other negative number occurs. *)
Definition line_ok (ws hr : bool) (l : CronLine) : Prop :=
  -1 <= cl_pid l /\ (0 < cl_pid l -> hr = true) /\ (cl_pid l = -1 -> ws = true).
Definition file_ok (f : CronFile) : Prop :=
  forall l, l ∈ cf_lines f -> line_ok (cf_wants_starting f) (cf_has_running f) l.
Definition files_ok (files : list CronFile) : Prop := forall f, f ∈ files -> file_ok f.
Definition pending (l : CronLine) : Prop := cl_pid l = -1.

Definition pids (ls : list CronLine) : list Z := cl_pid <$> ls.
Definition all_pids (files : list CronFile) : list Z := concat ((fun f => pids (cf_lines f)) <$> files).

Lemma all_pids_cons f fs : all_pids (f :: fs) = pids (cf_lines f) ++ all_pids fs.
Proof. done. Qed.

Lemma files_ok_cons f fs : files_ok (f :: fs) <-> file_ok f /\ files_ok fs.
Proof. unfold files_ok. set_solver. Qed.

(** *** Starting: one [vfork] for each pending job, in order *)

Fixpoint assign (fk : list Z) (ps : list Z) : list Z * list Z :=
  match ps with
  | [] => ([], fk)
  | p :: r =>
      if p =? -1 then let '(r', fk') := assign (tail fk) r in (Z.max 0 (default (-1) (head fk)) :: r', fk')
      else let '(r', fk') := assign fk r in (p :: r', fk')
  end.

Lemma assign_app ps1 : forall fk ps2,
  assign fk (ps1 ++ ps2) =
    (fst (assign fk ps1) ++ fst (assign (snd (assign fk ps1)) ps2), snd (assign (snd (assign fk ps1)) ps2)).
Proof.
  induction ps1 as [|p ps1 IH]; intros fk ps2; simpl; [by destruct (assign fk ps2)|].
  destruct (p =? -1); rewrite IH; [destruct (assign (tail fk) ps1)|destruct (assign fk ps1)]; done.
Qed.

Lemma assign_none fk ps : (forall p, p ∈ ps -> p <> -1) -> assign fk ps = (ps, fk).
Proof.
  induction ps as [|p ps IH]; intros H; simpl; [done|]. rewrite (proj2 (Z.eqb_neq _ _)) by (apply H; by left).
  rewrite IH; [done|]. intros q Hq. apply H. by right.
Qed.

Lemma assign_started ps : forall fk p, p ∈ fst (assign fk ps) -> p <> -1.
Proof.
  induction ps as [|q ps IH]; intros fk p; simpl; [by intros ?%elem_of_nil|].
  destruct (q =? -1) eqn:E; btest.
  - destruct (assign (tail fk) ps) as [r fk'] eqn:Ea. simpl. intros [->|Hp]%elem_of_cons; [lia|].
    apply (IH (tail fk)). by rewrite Ea.
  - destruct (assign fk ps) as [r fk'] eqn:Ea. simpl. intros [->|Hp]%elem_of_cons; [done|].
    apply (IH fk). by rewrite Ea.
Qed.

Lemma start_lines_assign ls : forall fk ws hr ls' ws' hr' fk',
  start_lines (-1) fk ls ws hr = (ls', ws', hr', fk') ->
  (pids ls', fk') = assign fk (pids ls) /\ ws' = ws /\ (hr = true -> hr' = true) /\
  (forall l, l ∈ ls' -> (l ∈ ls /\ cl_pid l <> -1) \/ (0 <= cl_pid l /\ (0 < cl_pid l -> hr' = true))).
Proof.
  induction ls as [|l ls IH]; intros fk ws hr ls' ws' hr' fk' Hs; simpl in Hs.
  { injection Hs as <- <- <- <-. split_and!; try done. intros l Hl. by apply elem_of_nil in Hl. }
  destruct (cl_pid l =? -1) eqn:E; simpl in Hs; btest.
  - destruct (start_one_job (default (-1) (head fk)) l) as [pid l1] eqn:E1.
    destruct (start_lines (-1) (tail fk) ls _ _) as [[[ls1 ws1] hr1] fk1] eqn:E2.
    injection Hs as <- <- <- <-. apply IH in E2 as (Hp & -> & Hh & Hl).
    unfold start_one_job in E1. injection E1 as <- <-.
    set (v := default (-1) (head fk)) in *.
    assert ((if v <? 0 then 0 else v) = Z.max 0 v) as Hv by (bcase; lia). rewrite Hv in *.
    assert ((Z.max 0 v <? 0) = false) as Hn by (apply Z.ltb_ge; lia). rewrite Hn, orb_false_r in *.
    split_and!; [|done| |].
    + simpl. rewrite E. change (-1 =? -1) with true. cbv iota. rewrite <- Hp. done.
    + intros ->. by apply Hh.
    + intros x [->|Hx]%elem_of_cons.
      * right. simpl. split; [lia|]. intros Hpos. apply Hh. rewrite (proj2 (Z.ltb_lt _ _) Hpos). by rewrite orb_true_r.
      * destruct (Hl x Hx) as [[? ?]|?]; [left; split; [by right|done]|by right].
  - destruct (start_lines (-1) fk ls ws hr) as [[[ls1 ws1] hr1] fk1] eqn:E2.
    injection Hs as <- <- <- <-. apply IH in E2 as (Hp & -> & Hh & Hl). split_and!; [|done|done|].
    + simpl. rewrite (proj2 (Z.eqb_neq _ _) E), <- Hp. done.
    + intros x [->|Hx]%elem_of_cons; [left; split; [by left|done]|].
      destruct (Hl x Hx) as [[? ?]|?]; [left; split; [by right|done]|by right].
Qed.

Lemma start_jobs_assign files : forall fk,
  files_ok files ->
  (all_pids (fst (start_jobs (-1) fk files)), snd (start_jobs (-1) fk files)) = assign fk (all_pids files) /\
  files_ok (fst (start_jobs (-1) fk files)).
Proof.
  induction files as [|f files IH]; intros fk Hok; [done|]. apply files_ok_cons in Hok as [Hf Hok].
  cbn [start_jobs]. rewrite all_pids_cons, assign_app.
  destruct (cf_wants_starting f) eqn:Ew; cbn [negb].
  - destruct (start_lines (-1) fk (cf_lines f) false (cf_has_running f)) as [[[ls ws] hr] fk1] eqn:Es.
    apply start_lines_assign in Es as (Hp & -> & Hh & Hl). rewrite <- Hp. cbn [fst snd].
    destruct (IH fk1 Hok) as [Hp2 Hok2]. destruct (start_jobs (-1) fk1 files) as [r fk2]. cbn [fst snd] in *.
    rewrite <- Hp2, all_pids_cons. split; [done|]. apply files_ok_cons. split; [|done].
    intros l Hin. simpl in *. destruct (Hl l Hin) as [[Hold Hne]|[Hge Hr]].
    + destruct (Hf l Hold) as (H1 & H2 & _). split; [done|]. split; [|by intros ?]. intros Hpos. by apply Hh, H2.
    + split; [lia|]. split; [done|lia].
  - destruct (IH fk Hok) as [Hp2 Hok2]. destruct (start_jobs (-1) fk files) as [r fk2]. cbn [fst snd] in *.
    rewrite (assign_none fk (pids (cf_lines f))).
    + cbn [fst snd]. rewrite <- Hp2, all_pids_cons. split; [done|]. by apply files_ok_cons.
    + intros p (l & -> & Hl)%list_elem_of_fmap Hm1. destruct (Hf l Hl) as (_ & _ & Hw). rewrite Ew in Hw. by discriminate Hw.
Qed.

(** *** Flagging, reaping and deleting keep the invariant *)

Lemma flag_ref_ok lt ts f : file_ok f -> file_ok (flag_ref lt ts f).
Proof.
  intros Hf. unfold flag_ref. destruct (cf_deleted f); [done|]. intros l (l0 & -> & Hl)%list_elem_of_fmap. simpl.
  destruct (Hf l0 Hl) as (H1 & H2 & H3). destruct (due lt ts l0) eqn:Ed.
  - split; [simpl; lia|]. split; [simpl; lia|]. intros _. apply orb_true_iff. right. apply existsb_exists.
    exists l0. split; [by apply list_elem_of_In|done].
  - split; [done|]. split; [done|]. intros Hp. by rewrite (H3 Hp).
Qed.

Lemma check_file_ok wp f : file_ok f -> file_ok (check_file wp f).
Proof.
  intros Hf. unfold check_file. destruct (cf_has_running f) eqn:Er; [|done]. simpl.
  intros l (l0 & -> & Hl)%list_elem_of_fmap. simpl. destruct (Hf l0 Hl) as (H1 & H2 & H3).
  unfold reap_line. destruct (finished wp l0) eqn:Ef.
  - split; [simpl; lia|]. split; simpl; lia.
  - split; [done|]. split; [|done]. intros Hp. apply existsb_exists. exists l0.
    split; [by apply list_elem_of_In|]. unfold running. rewrite (proj2 (Z.ltb_lt _ _) Hp), Ef. done.
Qed.

Lemma run_jobs_ok env t1 t2 files :
  files_ok files ->
  files_ok (fst (run_jobs env t1 t2 files)) /\
  (forall f l, f ∈ fst (run_jobs env t1 t2 files) -> l ∈ cf_lines f -> ~ pending l).
Proof.
  intros Hok. unfold run_jobs. rewrite flag_starting_ref.
  set (fs := flag_ref _ _ <$> files).
  assert (files_ok fs) as Hok1.
  { intros f (f0 & -> & Hf)%list_elem_of_fmap. apply flag_ref_ok. by apply Hok. }
  destruct (start_jobs_assign fs (forks env) Hok1) as [Hp Hok2].
  change START_ME_NORMAL with (-1). destruct (start_jobs (-1) (forks env) fs) as [fs2 fk2]. simpl in *.
  assert (forall f l, f ∈ fs2 -> l ∈ cf_lines f -> cl_pid l <> -1) as Hnp.
  { intros f l Hf Hl. assert (cl_pid l ∈ fst (assign (forks env) (all_pids fs))) as Hin.
    { rewrite <- Hp. simpl. unfold all_pids. apply elem_of_concat.
      apply list_elem_of_lookup in Hf as [i Hi]. exists i, (pids (cf_lines f)).
      split; [by rewrite list_lookup_fmap, Hi|]. by apply list_elem_of_fmap_2. }
    by apply assign_started in Hin. }
  split.
  - intros f (f0 & -> & Hf)%list_elem_of_fmap. apply check_file_ok. by apply Hok2.
  - intros f l (f0 & -> & Hf)%list_elem_of_fmap Hl. unfold pending, check_file in *.
    destruct (cf_has_running f0); simpl in Hl; [|by eapply Hnp].
    apply list_elem_of_fmap in Hl as (l0 & -> & Hl). unfold reap_line.
    destruct (finished (waitpid env) l0); simpl; [lia|by eapply Hnp].
Qed.

(** *** Crontab files *)

(** The jobs that run, in the order of the table. *)
Definition running_jobs (files : list CronFile) : list (list Z * CronLine) :=
  concat ((fun f => (fun l => (cf_username f, l)) <$> filter (fun l => running l = true) (cf_lines f)) <$> files).

(** Deleting the files of a name, with the name at hand throughout. *)
Definition idle (f : CronFile) : Prop := filter (fun l => running l = true) (cf_lines f) = [].
Definition delete_named (userName : list Z) (files : list CronFile) : list CronFile :=
  concat ((fun f =>
    if bool_decide (userName = cf_username f) then
      let ls := filter (fun l => running l = true) (cf_lines f) in
      match ls with
      | [] => []
      | _ => [CronFileC ls (cf_username f) (cf_wants_starting f) true true]
      end
    else [f]) <$> files).

Lemma delete_loop_named u own files :
  (forall i f, own = Some i -> files !! i = Some f -> cf_username f = u -> idle f -> S i = length files) ->
  delete_loop u own false files = Some (delete_named u files).
Proof.
  revert own. induction files as [|f r IH]; intros own Hs; [done|].
  cbn [delete_loop]. unfold delete_named. rewrite fmap_cons. cbn [concat]. fold (delete_named u r).
  assert (delete_loop u (next_own own) false r = Some (delete_named u r)) as Hr.
  { apply IH. intros i g Ho Hg Hu Hi. destruct own as [[|j]|]; [done| |done]. injection Ho as ->.
    specialize (Hs (S i) g eq_refl Hg Hu Hi). simpl in Hs. lia. }
  case_bool_decide as Hu; [|by rewrite Hr].
  destruct (filter _ (cf_lines f)) eqn:Ef; [|by rewrite Hr].
  case_bool_decide as Ho; [|exact Hr]. specialize (Hs O f Ho eq_refl (eq_sym Hu) Ef). destruct r; [done|simpl in Hs; lia].
Qed.

Lemma delete_loop_freed u i f files :
  files !! i = Some f -> cf_username f = u -> idle f -> (S i < length files)%nat ->
  delete_loop u (Some i) false files = None.
Proof.
  revert i. induction files as [|g r IH]; intros i Hf Hu Hi Hl; [done|]. cbn [delete_loop].
  destruct i as [|i].
  - injection Hf as ->. rewrite bool_decide_eq_true_2 by done. unfold idle in Hi. rewrite Hi.
    destruct r; [simpl in Hl; lia|done].
  - cbn [next_own]. assert (delete_loop u (Some i) false r = None) as Hn by (apply IH; (done || simpl in Hl; lia)).
    change (bool_decide (Some (S i) = Some O)) with false.
    case_bool_decide; [destruct (filter _ (cf_lines g))|]; by rewrite Hn.
Qed.

Lemma delete_named_elem u files f' :
  f' ∈ delete_named u files ->
  (f' ∈ files /\ cf_username f' <> u) \/
  (exists f, f ∈ files /\ cf_username f = u /\
     f' = CronFileC (filter (fun l => running l = true) (cf_lines f)) u (cf_wants_starting f) true true).
Proof.
  unfold delete_named. intros (i & c & Hi & Hc)%elem_of_concat.
  rewrite list_lookup_fmap in Hi. apply fmap_Some in Hi as (f & Hf & ->). apply list_elem_of_lookup_2 in Hf.
  case_bool_decide as Hu.
  - destruct (filter _ (cf_lines f)) eqn:El; [by apply elem_of_nil in Hc|].
    apply list_elem_of_singleton in Hc as ->. right. exists f. rewrite El. by subst u.
  - apply list_elem_of_singleton in Hc as ->. left. done.
Qed.

Lemma delete_named_ok u files : files_ok files -> files_ok (delete_named u files).
Proof.
  intros Hok f' [[Hf _]|(f & Hf & Hu & ->)]%delete_named_elem; [by apply Hok|].
  intros l [Hr Hl]%list_elem_of_filter. simpl. destruct (Hok f Hf l Hl) as (H1 & _ & H3).
  split; [done|]. split; [done|]. done.
Qed.

Lemma delete_named_running u files : running_jobs (delete_named u files) = running_jobs files.
Proof.
  unfold running_jobs, delete_named. induction files as [|f files IH]; [done|].
  rewrite !fmap_cons. cbn [concat]. rewrite fmap_app, concat_app, IH. f_equal.
  case_bool_decide as Hu; [|simpl; by rewrite app_nil_r].
  destruct (filter (fun l => running l = true) (cf_lines f)) as [|x ls] eqn:El; simpl; [done|].
  rewrite app_nil_r, <- El, list_filter_filter. 
  rewrite (list_filter_iff _ (fun l => running l = true) (cf_lines f)) by tauto. by rewrite El.
Qed.

Definition undeleted (files : list CronFile) : nat := length (filter (fun f => cf_deleted f = false) files).

Lemma undeleted_cons f files :
  undeleted (f :: files) = ((if cf_deleted f then 0 else 1) + undeleted files)%nat.
Proof.
  unfold undeleted. destruct (cf_deleted f) eqn:E; [rewrite filter_cons_False by congruence|rewrite filter_cons_True by done]; done.
Qed.

Lemma undeleted_app fs gs : undeleted (fs ++ gs) = (undeleted fs + undeleted gs)%nat.
Proof. unfold undeleted. by rewrite filter_app, length_app. Qed.

Lemma delete_named_le u files : (undeleted (delete_named u files) <= undeleted files)%nat.
Proof.
  unfold delete_named. induction files as [|f files IH]; [done|].
  rewrite fmap_cons. cbn [concat]. rewrite undeleted_app, undeleted_cons.
  pose proof (IH : (undeleted (delete_named u files) <= undeleted files)%nat) as Hle.
  unfold delete_named in Hle.
  case_bool_decide; [destruct (filter _ _)|]; rewrite ?undeleted_cons; cbn [cf_deleted];
    change (undeleted []) with 0%nat; lia.
Qed.

(** Deleting the file of an undeleted entry makes progress. *)
Lemma delete_named_lt u files f :
  f ∈ files -> cf_username f = u -> cf_deleted f = false ->
  (undeleted (delete_named u files) < undeleted files)%nat.
Proof.
  intros Hf Hu Hd. induction files as [|g files IH]; [by apply elem_of_nil in Hf|].
  unfold delete_named. rewrite fmap_cons. cbn [concat]. fold (delete_named u files).
  rewrite undeleted_app, undeleted_cons. pose proof (delete_named_le u files) as Hle.
  apply elem_of_cons in Hf as [<-|Hf].
  - rewrite Hd, bool_decide_eq_true_2 by done. destruct (filter _ _); rewrite ?undeleted_cons; cbn [cf_deleted];
      change (undeleted []) with 0%nat; lia.
  - specialize (IH Hf). case_bool_decide; [destruct (filter _ _)|]; rewrite ?undeleted_cons; cbn [cf_deleted];
      change (undeleted []) with 0%nat; lia.
Qed.

(** The list can be emptied by the names of its own files: a file that goes is the last one. *)
Definition rescan_safe (files : list CronFile) : Prop :=
  forall i f, files !! i = Some f -> cf_deleted f = false -> idle f -> S i = length files.

Lemma rescan_safe_cons f files :
  rescan_safe (f :: files) <-> (cf_deleted f = false -> idle f -> files = []) /\ rescan_safe files.
Proof.
  split.
  - intros Hs. split.
    + intros Hd Hi. specialize (Hs O f eq_refl Hd Hi). by destruct files.
    + intros i g Hg Hd Hi. specialize (Hs (S i) g Hg Hd Hi). simpl in Hs. lia.
  - intros [Hf Hs] [|i] g Hg Hd Hi; simpl in *; [injection Hg as ->; by rewrite Hf|].
    f_equal. by eapply Hs.
Qed.

Lemma delete_named_safe u files : rescan_safe files -> rescan_safe (delete_named u files).
Proof.
  induction files as [|f files IH]; [done|]. intros [Hf Hs]%rescan_safe_cons.
  unfold delete_named. rewrite fmap_cons. cbn [concat]. fold (delete_named u files). specialize (IH Hs).
  case_bool_decide; [destruct (filter _ _); [done|]|]; apply rescan_safe_cons; (split; [|done]); [done|].
  intros Hd Hi. by rewrite (Hf Hd Hi).
Qed.

Lemma delete_loop_result u own files :
  delete_loop u own false files = None \/ delete_loop u own false files = Some (delete_named u files).
Proof.
  destruct own as [i|]; [|right; by apply delete_loop_named].
  destruct (decide (S i < length files)%nat) as [Hl|Hl].
  - destruct (lookup_lt_is_Some_2 files i) as [f Hf]; [lia|].
    destruct (decide (cf_username f = u /\ idle f)) as [[Hu Hi]|Hn]; [left; by eapply delete_loop_freed|].
    right. apply delete_loop_named. intros j g [= <-] Hg ? ?. rewrite Hf in Hg. injection Hg as <-. tauto.
  - right. apply delete_loop_named. intros j g [= <-] Hg%lookup_lt_Some ? ?. lia.
Qed.

(** The loop at [again] always ends. *)
Lemma delete_all_never_stuck fuel : forall files, (undeleted files < fuel)%nat -> delete_all fuel files <> DeleteStuck.
Proof.
  induction fuel as [|fuel IH]; intros files Hf; [lia|]. cbn [delete_all].
  destruct (list_find _ files) as [[i f]|] eqn:E; [|done].
  apply list_find_Some in E as (Hi & Hd & _). apply list_elem_of_lookup_2 in Hi.
  unfold delete_cronfile. destruct (delete_loop_result (cf_username f) (Some i) files) as [-> | ->]; [done|].
  apply IH. pose proof (delete_named_lt (cf_username f) files f Hi eq_refl Hd). lia.
Qed.

(** It ends with every file deleted; running jobs stay, everything else goes. *)
Lemma delete_all_ok fuel : forall files,
  (undeleted files < fuel)%nat -> files_ok files -> rescan_safe files ->
  exists files', delete_all fuel files = DeleteDone files' /\
  files_ok files' /\ running_jobs files' = running_jobs files /\ (forall f, f ∈ files' -> cf_deleted f = true).
Proof.
  induction fuel as [|fuel IH]; intros files Hf Hok Hs; [lia|]. cbn [delete_all].
  destruct (list_find _ files) as [[i f]|] eqn:E.
  - apply list_find_Some in E as (Hi & Hd & _). unfold delete_cronfile. rewrite delete_loop_named.
    2: { intros j g [= <-] Hg _ Hidle. rewrite Hi in Hg. injection Hg as <-. by eapply Hs. }
    apply list_elem_of_lookup_2 in Hi. pose proof (delete_named_lt (cf_username f) files f Hi eq_refl Hd).
    destruct (IH (delete_named (cf_username f) files)) as (files' & H1 & H2 & H3 & H4);
      [lia|by apply delete_named_ok|by apply delete_named_safe|].
    exists files'. split_and!; [done|done| |done]. by rewrite H3, delete_named_running.
  - apply list_find_None in E. exists files. split_and!; [done..|]. intros f Hin.
    rewrite Forall_forall in E. specialize (E f Hin). by destruct (cf_deleted f).
Qed.

(** Under distinct names, nothing else is safe: an idle file with another one behind it is
    compared with after it is gone. *)
Lemma delete_named_distinct u files i f :
  NoDup (cf_username <$> files) -> files !! i = Some f -> cf_username f = u -> ~ idle f ->
  delete_named u files = <[i := CronFileC (filter (fun l => running l = true) (cf_lines f)) u (cf_wants_starting f) true true]> files.
Proof.
  revert i. induction files as [|g files IH]; intros i Hnd Hf Hu Hi; [done|].
  rewrite fmap_cons in Hnd. apply NoDup_cons in Hnd as [Hg Hnd].
  unfold delete_named. rewrite fmap_cons. cbn [concat]. fold (delete_named u files).
  destruct i as [|i].
  - injection Hf as ->. rewrite bool_decide_eq_true_2 by done. unfold idle in Hi.
    destruct (filter _ (cf_lines f)); [done|]. rewrite Hu. simpl. f_equal.
    clear IH Hnd. induction files as [|h files IH]; [done|].
    unfold delete_named. rewrite fmap_cons. cbn [concat]. fold (delete_named u files).
    rewrite fmap_cons, not_elem_of_cons in Hg. rewrite bool_decide_eq_false_2 by naive_solver. simpl. f_equal. by apply IH, Hg.
  - rewrite bool_decide_eq_false_2.
    + simpl. f_equal. by apply IH.
    + intros ->. apply Hg. rewrite <- Hu. apply list_elem_of_fmap_2. by eapply list_elem_of_lookup_2.
Qed.

Lemma delete_all_freed fuel : forall files,
  (undeleted files < fuel)%nat -> NoDup (cf_username <$> files) -> ~ rescan_safe files ->
  delete_all fuel files = DeleteFreed.
Proof.
  induction fuel as [|fuel IH]; intros files Hf Hnd Hs; [lia|]. cbn [delete_all].
  destruct (list_find _ files) as [[i f]|] eqn:E.
  - apply list_find_Some in E as (Hi & Hd & Hfirst). unfold delete_cronfile.
    assert (Hlt : (i < length files)%nat) by (by eapply lookup_lt_Some).
    destruct (decide (idle f)) as [Hidle|Hrun].
    + rewrite (delete_loop_freed (cf_username f) i f); [done..|].
      apply Nat.lt_nge. intros Hl. apply Hs. intros j g Hg Hdg Hig.
      destruct (decide (j < i)%nat); [by destruct (Hfirst j g Hg ltac:(done))|].
      apply lookup_lt_Some in Hg. lia.
    + rewrite delete_loop_named by (intros j g [= <-] Hg _ Hg'; rewrite Hi in Hg; by injection Hg as <-).
      pose proof (delete_named_lt (cf_username f) files f (list_elem_of_lookup_2 _ _ _ Hi) eq_refl Hd).
      apply IH; [lia| |].
      * rewrite (delete_named_distinct _ files i f) by done. rewrite list_fmap_insert. cbn [cf_username].
        rewrite list_insert_id; [done|]. by rewrite list_lookup_fmap, Hi.
      * rewrite (delete_named_distinct _ files i f) by done. intros Hs'. apply Hs. intros j g Hg Hdg Hig.
        destruct (decide (i = j)) as [->|Hne]; [rewrite Hi in Hg; by injection Hg as <-|].
        erewrite <- length_insert. apply (Hs' j g); [|done..]. by rewrite list_lookup_insert_ne.
  - apply list_find_None in E. rewrite Forall_forall in E. destruct Hs. intros i f Hi Hd _.
    destruct (E f); [by eapply list_elem_of_lookup_2|done].
Qed.

(** *** Loading *)

Definition load_ok (s : load_state) : Prop :=
  forall l, l ∈ ls_lines s -> cl_pid l = 0 \/ (cl_pid l = -1 /\ ls_wants s = true).

Lemma add_entry_ok s e s' : load_ok s -> add_entry s e = Some s' -> load_ok s'.
Proof.
  intros Hs. destruct e; simpl; intros [= <-]; try done; intros l Hl; simpl in *.
  - apply elem_of_app in Hl as [Hl| ->%list_elem_of_singleton]; [by apply Hs|by left].
  - apply elem_of_app in Hl as [Hl| ->%list_elem_of_singleton]; [|by right].
    destruct (Hs l Hl) as [?|[? _]]; auto.
Qed.

Lemma load_loop_ok fuel before : forall parser s s',
  load_ok s -> load_loop fuel before parser s = Some s' -> load_ok s'.
Proof.
  induction fuel as [|fuel IH]; intros parser s s' Hs; cbn [load_loop]; [by intros [= <-]|].
  destruct (read_entry before parser) as [ts p'|i|]; [|by intros [= <-]|done].
  destruct (add_entry s _) as [s1|] eqn:Ea; [|done]. apply IH. by eapply add_entry_ok.
Qed.

(** The five fields of a line: base, size, offset and names. *)
Definition cron_fields : list (Z * Z * Z * option (list (list Z))) :=
  [(MINS_OFF, 60, 0, None); (HRS_OFF, 24, 0, None); (DAYS_OFF, 32, 0, None);
   (MONS_OFF, 12, -1, Some MonAry); (DOW_OFF, 7, 0, Some DowAry)].

(** A parsed field list never faults, so an entry never does. *)
Lemma ParseField_length mem base m off names text :
  (base, m, off, names) ∈ cron_fields -> length mem = 143%nat ->
  exists mem' ok, ParseField mem base m off names text = FieldDone mem' ok /\ length mem' = 143%nat.
Proof.
  intros Hin Hl. rewrite <- Hl. unfold ParseField. apply parse_loop_total; [| |lia].
  - unfold field_fits. rewrite Hl. unfold cron_fields in Hin.
    repeat (apply elem_of_cons in Hin as [[= -> -> -> ->]|Hin]; [vm_compute; split_and!; done|]).
    by apply elem_of_nil in Hin.
  - intros ns n -> Hn. eapply ary_names_ok; [|exact Hn]. unfold cron_fields in Hin.
    repeat (apply elem_of_cons in Hin as [Hin|Hin]; [simplify_eq; by auto|]). by apply elem_of_nil in Hin.
Qed.

Lemma parse_fields_total mins hrs days mons dow : exists mem, parse_fields mins hrs days mons dow = Some mem.
Proof.
  unfold parse_fields.
  destruct (ParseField_length (replicate (Z.to_nat SCHED_SIZE) 0) MINS_OFF 60 0 None mins)
    as (m1 & ok1 & -> & L1); [set_solver|done|].
  destruct (ParseField_length m1 HRS_OFF 24 0 None hrs) as (m2 & ok2 & -> & L2); [set_solver|done|].
  destruct (ParseField_length m2 DAYS_OFF 32 0 None days) as (m3 & ok3 & -> & L3); [set_solver|done|].
  destruct (ParseField_length m3 MONS_OFF 12 (-1) (Some MonAry) mons) as (m4 & ok4 & -> & L4); [set_solver|done|].
  destruct (ParseField_length m4 DOW_OFF 7 0 (Some DowAry) dow) as (m5 & ok5 & -> & L5); [set_solver|done|].
  by eexists.
Qed.

Lemma add_entry_total s ts data : exists s', add_entry s (classify ts data) = Some s'.
Proof.
  assert (forall a b c d e f, exists s', add_entry s (entry_line a b c d e f) = Some s') as Hl.
  { intros a b c d e f. unfold entry_line. destruct (parse_fields_total a b c d e) as [mem ->]. by eexists. }
  unfold classify. repeat case_match; try by eexists. all: apply Hl.
Qed.

(** The file can be read: no line continued at its end, no stray byte in front of the buffer
    (see [config_read_total]). *)
Definition contents_ok (before : Z -> Z) (contents : option (list (list Z))) : Prop :=
  before (-2) <> 92 /\ before (-3) <> 92 /\ forall lines, contents = Some lines -> closed lines.

Lemma load_loop_total before fuel : forall parser s,
  before (-2) <> 92 -> before (-3) <> 92 -> closed (Parser.fp parser) ->
  exists s', load_loop fuel before parser s = Some s'.
Proof.
  induction fuel as [|fuel IH]; intros parser s H2 H3 Hc; cbn [load_loop]; [by eexists|].
  destruct (config_read_total before parser H2 H3 Hc) as [(ts & p' & -> & _ & _ & Hc')|(i & -> & _)]; [|by eexists].
  destruct (add_entry_total s ts (default [] (Parser.data p'))) as [s' ->]. by apply IH.
Qed.

Lemma load_crontab_ok before name contents ret files :
  files_ok files -> contents_ok before contents ->
  exists files', load_crontab before name contents ret files = Some files' /\
  files_ok files' /\ running_jobs files' = running_jobs files.
Proof.
  intros Hok (H2 & H3 & Hc). unfold load_crontab, delete_cronfile. rewrite delete_loop_named by done.
  pose proof (delete_named_ok name files Hok) as Hd. pose proof (delete_named_running name files) as Hr.
  destruct (Parser.config_open contents) as [parser|] eqn:Eo; [|by eexists]. bcase; [by eexists|].
  destruct (load_loop_total before (Z.to_nat (MAXLINES - 1)) parser (LoadState [] false None None)) as [s El]; [done|done| |].
  { unfold Parser.config_open in Eo. destruct contents; [|done]. injection Eo as <-. by apply Hc. }
  rewrite El. eexists. split; [reflexivity|].
  apply load_loop_ok in El; [|by intros l ?%elem_of_nil]. split.
  - apply files_ok_cons. split; [|done]. intros l Hl. simpl in *.
    destruct (El l Hl) as [H0|[H1 Hw]]; (split; [lia|]; split; [lia|]; lia || done).
  - unfold running_jobs in *. rewrite fmap_cons. cbn [concat cf_lines].
    rewrite filter_keeps_none; [done|]. intros l Hl Hrun. unfold running in Hrun. apply Z.ltb_lt in Hrun.
    destruct (El l Hl) as [?|[? _]]; lia.
Qed.

Definition entries_ok (before : Z -> Z) (entries : list dir_entry) : Prop :=
  forall name contents ret, (name, contents, ret) ∈ entries -> contents_ok before contents.

Lemma load_dir_ok before dir entries : forall files,
  files_ok files -> entries_ok before entries ->
  exists files', load_dir before dir entries files = Some files' /\
  files_ok files' /\ running_jobs files' = running_jobs files.
Proof.
  induction entries as [|[[name contents] ret] entries IH]; intros files Hok He; simpl; [by eexists|].
  assert (entries_ok before entries) as He' by (intros n c r Hin; eapply He; by right).
  destruct (elem 46 name); [by apply IH|].
  destruct (load_crontab_ok before (take 495 (dir ++ [47] ++ name)) contents ret files Hok)
    as (fs1 & El & Hok1 & Hr1); [eapply He; by left|].
  simpl in El. rewrite El. destruct (IH fs1 Hok1 He') as (fs2 & ? & ? & Hr2). exists fs2. split_and!; [done|done|congruence].
Qed.

Lemma undeleted_length files : (undeleted files < S (length files))%nat.
Proof. unfold undeleted. pose proof (length_filter (fun f => cf_deleted f = false) files). lia. Qed.

Lemma rescan_ok before dir entries files :
  files_ok files -> rescan_safe files -> entries_ok before entries ->
  exists files', rescan_crontab_dir before dir (Some entries) files = Some files' /\
  files_ok files' /\ running_jobs files' = running_jobs files.
Proof.
  intros Hok Hs He. unfold rescan_crontab_dir.
  destruct (delete_all_ok (S (length files)) files (undeleted_length files) Hok Hs) as (fs & -> & Hok1 & Hr1 & _).
  destruct (load_dir_ok before dir entries fs Hok1 He) as (fs2 & ? & ? & ?). exists fs2. split_and!; [done|done|congruence].
Qed.

(** ** The schedule of an entry *)

Definition at_ (mem : list Z) (p : Z) : Z := default 0 (mem !! Z.to_nat p).

Lemma set_all_at base ks : forall mem p,
  0 <= p < Z.of_nat (length mem) -> (forall k, k ∈ ks -> 0 <= base + k) ->
  at_ (set_all base mem ks) p = if decide (p - base ∈ ks) then 1 else at_ mem p.
Proof.
  unfold at_, set_all. induction ks as [|k ks IH]; intros mem p Hp Hk; simpl; [done|].
  rewrite IH; [|by rewrite length_insert|set_solver].
  destruct (decide (p - base ∈ ks)); [by rewrite decide_True by (by right)|].
  pose proof (Hk k ltac:(by left)). destruct (decide (p = base + k)) as [->|Hne].
  - rewrite decide_True by (apply elem_of_cons; left; lia). rewrite list_lookup_insert_eq by lia. done.
  - rewrite list_lookup_insert_ne by lia. rewrite decide_False; [done|].
    intros [?|?]%elem_of_cons; [lia|done].
Qed.

Lemma clear_field_at mem base n p :
  0 <= base -> 0 <= n -> base + n <= Z.of_nat (length mem) -> 0 <= p ->
  at_ (clear_field mem base n) p = if decide (base <= p < base + n) then 0 else at_ mem p.
Proof.
  intros Hb Hn Hl Hp. unfold at_, clear_field.
  destruct (decide (p < base)) as [Hlt|Hge].
  - rewrite decide_False by lia. rewrite lookup_app_l by (rewrite length_take; lia).
    by rewrite lookup_take_lt by lia.
  - rewrite lookup_app_r by (rewrite length_take; lia). rewrite length_take, Nat.min_l by lia.
    case_decide as Hd.
    + rewrite lookup_app_l by (rewrite length_replicate; lia).
      rewrite lookup_replicate_2 by lia. done.
    + rewrite lookup_app_r by (rewrite length_replicate; lia). rewrite length_replicate, lookup_drop.
      do 2 f_equal. lia.
Qed.

Lemma field_zero mem base n :
  0 <= base -> 0 <= n -> base + n <= Z.of_nat (length mem) ->
  0 ∈ field mem base n <-> exists k, 0 <= k < n /\ at_ mem (base + k) = 0.
Proof.
  intros Hb Hn Hl. unfold field, at_. rewrite list_elem_of_lookup. split.
  - intros [i Hi]. apply lookup_take_Some in Hi as [Hi Hlt]. rewrite lookup_drop in Hi.
    exists (Z.of_nat i). split; [lia|]. replace (Z.to_nat (base + Z.of_nat i)) with (Z.to_nat base + i)%nat by lia.
    by rewrite Hi.
  - intros (k & Hk & H0). exists (Z.to_nat k). rewrite lookup_take_lt by lia. rewrite lookup_drop.
    replace (Z.to_nat base + Z.to_nat k)%nat with (Z.to_nat (base + k)) by lia.
    destruct (lookup_lt_is_Some_2 mem (Z.to_nat (base + k))) as [x Hx]; [lia|]. rewrite Hx in *. simpl in H0. by subst.
Qed.

(** The positions a field selects. *)
Definition selects (m off : Z) (its : list item) : list Z := concat (item_picks m off <$> its).

Lemma picks_range m lo hi s k : 0 < m -> k ∈ picks m lo hi s -> 0 <= k < m.
Proof. intros Hm (j & -> & _)%list_elem_of_fmap. apply Z.mod_pos_bound. lia. Qed.

Lemma selects_range m off its k : 0 < m -> k ∈ selects m off its -> 0 <= k < m.
Proof.
  intros Hm (i & c & Hi & Hc)%elem_of_concat. rewrite list_lookup_fmap in Hi.
  apply fmap_Some in Hi as (it & _ & ->). by eapply picks_range.
Qed.

Lemma foldl_set_all base m off its : forall mem,
  foldl (fun mem i => set_all base mem (item_picks m off i)) mem its = set_all base mem (selects m off its).
Proof.
  unfold selects, set_all. induction its as [|i its IH]; intros mem; simpl; [done|].
  rewrite IH, foldl_app. done.
Qed.

Lemma ParseField_items mem base m off names its :
  0 < m <= 1000 -> -1 <= off <= 0 -> m - 1 <= base -> base + m <= Z.of_nat (length mem) ->
  its <> [] -> Forall (item_ok m off) its ->
  ParseField mem base m off names (print_items its) = FieldDone (set_all base mem (selects m off its)) true.
Proof.
  intros Hm Ho Hb Hl Hne Hok. unfold ParseField. rewrite (parse_items base m off names) by (done || lia).
  by rewrite foldl_set_all.
Qed.

Section Schedule.
Context (mins hrs days mons dow : list item).

(** The bytes before [FixDayDow]. *)
Definition raw_sched : list Z :=
  set_all DOW_OFF (set_all MONS_OFF (set_all DAYS_OFF (set_all HRS_OFF (set_all MINS_OFF
    (replicate (Z.to_nat SCHED_SIZE) 0) (selects 60 0 mins)) (selects 24 0 hrs)) (selects 32 0 days))
    (selects 12 (-1) mons)) (selects 7 0 dow).

Lemma raw_length : length raw_sched = 143%nat.
Proof. unfold raw_sched. by rewrite !set_all_length, length_replicate. Qed.

Lemma parse_fields_items :
  mins <> [] /\ Forall (item_ok 60 0) mins -> hrs <> [] /\ Forall (item_ok 24 0) hrs ->
  days <> [] /\ Forall (item_ok 32 0) days -> mons <> [] /\ Forall (item_ok 12 (-1)) mons ->
  dow <> [] /\ Forall (item_ok 7 0) dow ->
  parse_fields (print_items mins) (print_items hrs) (print_items days) (print_items mons) (print_items dow)
  = Some (FixDayDow raw_sched).
Proof.
  intros Hmins Hhrs Hdays Hmons Hdow. unfold parse_fields.
  rewrite ParseField_items; [|unfold MINS_OFF, SCHED_SIZE; rewrite ?length_replicate; try lia; apply Hmins..].
  rewrite ParseField_items; [|unfold HRS_OFF, SCHED_SIZE; rewrite ?set_all_length, ?length_replicate; try lia; apply Hhrs..].
  rewrite ParseField_items; [|unfold DAYS_OFF, SCHED_SIZE; rewrite ?set_all_length, ?length_replicate; try lia; apply Hdays..].
  rewrite ParseField_items; [|unfold MONS_OFF, SCHED_SIZE; rewrite ?set_all_length, ?length_replicate; try lia; apply Hmons..].
  rewrite ParseField_items; [|unfold DOW_OFF, SCHED_SIZE; rewrite ?set_all_length, ?length_replicate; try lia; apply Hdow..].
  done.
Qed.

(** One of the five arrays before [FixDayDow]. *)
Lemma raw_at base m off its k :
  (base, m, off, its) ∈ [(MINS_OFF, 60, 0, mins); (HRS_OFF, 24, 0, hrs); (DAYS_OFF, 32, 0, days);
                         (MONS_OFF, 12, -1, mons); (DOW_OFF, 7, 0, dow)] ->
  0 <= k < m -> at_ raw_sched (base + k) = if decide (k ∈ selects m off its) then 1 else 0.
Proof.
  intros Hin Hk. unfold raw_sched.
  assert (forall m off its b k, 0 < m -> 0 <= b -> k ∈ selects m off its -> 0 <= b + k) as Hpos
    by (intros m1 o1 i1 b1 k1 ? ? Hs; apply selects_range in Hs; lia).
  assert (at_ (replicate (Z.to_nat SCHED_SIZE) 0) (base + k) = 0) as H0.
  { unfold at_. destruct (_ !! _) eqn:E; [|done]. by apply lookup_replicate in E as [-> _]. }
  unfold MINS_OFF, HRS_OFF, DAYS_OFF, MONS_OFF, DOW_OFF in *.
  repeat (rewrite set_all_at; [|rewrite ?set_all_length, length_replicate; unfold SCHED_SIZE;
    repeat (apply elem_of_cons in Hin as [[= -> -> -> ->]|Hin]; [lia|]); by apply elem_of_nil in Hin
    |intros q Hq; eapply Hpos; [| |exact Hq]; lia]).
  rewrite H0.
  assert (forall m off its x, 0 < m -> ~ 0 <= x < m -> x ∉ selects m off its) as Hout
    by (intros m1 o1 i1 x ? Hx Hs; apply selects_range in Hs; lia).
  repeat (apply elem_of_cons in Hin as [[= -> -> -> ->]|Hin]; [|]); [..|by apply elem_of_nil in Hin].
  all: repeat match goal with
    | |- context [decide (?x ∈ selects ?m ?o ?i)] =>
        assert_fails (constr_eq x k);
        first [rewrite (decide_False (P := x ∈ selects m o i)) by (apply Hout; lia)
              |replace x with k by lia]
    end; try done.
Qed.

Definition covers (m off : Z) (its : list item) : Prop := forall k, 0 <= k < m -> k ∈ selects m off its.

Lemma field_covers base m off its :
  (base, m, off, its) ∈ [(MINS_OFF, 60, 0, mins); (HRS_OFF, 24, 0, hrs); (DAYS_OFF, 32, 0, days);
                         (MONS_OFF, 12, -1, mons); (DOW_OFF, 7, 0, dow)] ->
  0 ∈ field raw_sched base m <-> ~ covers m off its.
Proof.
  intros Hin. rewrite field_zero.
  - split.
    + intros (k & Hk & H0) Hc. rewrite (raw_at base m off its k Hin Hk), decide_True in H0 by (by apply Hc). done.
    + intros Hc. destruct (decide (Exists (fun k => k ∉ selects m off its) (Z.of_nat <$> seq 0 (Z.to_nat m)))) as [He|He].
      * apply Exists_exists in He as (k & (j & -> & Hj%elem_of_seq)%list_elem_of_fmap & Hn).
        exists (Z.of_nat j). split; [lia|]. rewrite (raw_at base m off its _ Hin) by lia. by rewrite decide_False.
      * exfalso. apply Hc. intros k Hk. destruct (decide (k ∈ selects m off its)) as [|Hn]; [done|].
        exfalso. apply He, Exists_exists. exists k. split; [|done]. apply list_elem_of_fmap.
        exists (Z.to_nat k). split; [lia|]. apply elem_of_seq. lia.
  - repeat (apply elem_of_cons in Hin as [[= -> -> -> ->]|Hin]; [done|]); by apply elem_of_nil in Hin.
  - repeat (apply elem_of_cons in Hin as [[= -> -> -> ->]|Hin]; [done|]); by apply elem_of_nil in Hin.
  - rewrite raw_length.
    repeat (apply elem_of_cons in Hin as [[= -> -> -> ->]|Hin]; [done|]); by apply elem_of_nil in Hin.
Qed.

(** [FixDayDow]: of the two day fields, one that is "*" is ignored when the other is not. *)
Lemma fixed_at p :
  0 <= p < 143 ->
  at_ (FixDayDow raw_sched) p =
    if decide ((DAYS_OFF <= p < DAYS_OFF + 32 /\ 0 ∈ field raw_sched DOW_OFF 7 /\ 0 ∉ field raw_sched DAYS_OFF 32) \/
               (DOW_OFF <= p < DOW_OFF + 7 /\ 0 ∉ field raw_sched DOW_OFF 7 /\ 0 ∈ field raw_sched DAYS_OFF 32))
    then 0 else at_ raw_sched p.
Proof.
  intros Hp. unfold FixDayDow, DAYS_OFF, DOW_OFF.
  destruct (decide (0 ∈ field raw_sched 8 7)) as [Hw|Hw], (decide (0 ∈ field raw_sched 51 32)) as [Hd|Hd];
    rewrite ?(bool_decide_eq_true_2 _ Hw), ?(bool_decide_eq_true_2 _ Hd),
            ?(bool_decide_eq_false_2 _ Hw), ?(bool_decide_eq_false_2 _ Hd); simpl eqb; cbv iota.
  - rewrite decide_False; [done|tauto].
  - rewrite clear_field_at; [|lia|lia|rewrite raw_length; lia|lia].
    destruct (decide (51 <= p < 51 + 32)); [rewrite decide_True by tauto|rewrite decide_False by tauto]; done.
  - rewrite clear_field_at; [|lia|lia|rewrite raw_length; lia|lia].
    destruct (decide (8 <= p < 8 + 7)); [rewrite decide_True by tauto|rewrite decide_False by tauto]; done.
  - rewrite decide_False; [done|tauto].
Qed.

Definition tm_ok (t : tm) : Prop :=
  0 <= tm_min t < 60 /\ 0 <= tm_hour t < 24 /\ 1 <= tm_mday t <= 31 /\ 0 <= tm_mon t < 12 /\ 0 <= tm_wday t < 7.

Definition day_rule (t : tm) : Prop :=
  (tm_mday t ∈ selects 32 0 days /\ (~ covers 32 0 days \/ covers 7 0 dow)) \/
  (tm_wday t ∈ selects 7 0 dow /\ (~ covers 7 0 dow \/ covers 32 0 days)).

(** A byte of the finished schedule, as [matches] tests it. *)
Lemma sched_at_fixed l p : cl_sched l = FixDayDow raw_sched -> sched_at l p = true <-> at_ (FixDayDow raw_sched) p <> 0.
Proof.
  intros Hl. unfold sched_at, at_. rewrite Hl, negb_true_iff, Z.eqb_neq. done.
Qed.

(** The three fields [FixDayDow] leaves alone. *)
Lemma sched_plain l base m off its k :
  cl_sched l = FixDayDow raw_sched ->
  (base, m, off, its) ∈ [(MINS_OFF, 60, 0, mins); (HRS_OFF, 24, 0, hrs); (MONS_OFF, 12, -1, mons)] ->
  0 <= k < m -> sched_at l (base + k) = true <-> k ∈ selects m off its.
Proof.
  intros Hl Hin Hk. rewrite sched_at_fixed by done. rewrite fixed_at.
  - rewrite decide_False.
    + rewrite (raw_at base m off its k) by (done || set_solver). case_decide; naive_solver lia.
    + unfold DAYS_OFF, DOW_OFF, MINS_OFF, HRS_OFF, MONS_OFF in *.
      repeat (apply elem_of_cons in Hin as [[= -> -> -> ->]|Hin]; [lia|]); by apply elem_of_nil in Hin.
  - unfold MINS_OFF, HRS_OFF, MONS_OFF in *.
    repeat (apply elem_of_cons in Hin as [[= -> -> -> ->]|Hin]; [lia|]); by apply elem_of_nil in Hin.
Qed.

Lemma sched_days l k :
  cl_sched l = FixDayDow raw_sched -> 0 <= k < 32 ->
  sched_at l (DAYS_OFF + k) = true <-> k ∈ selects 32 0 days /\ (~ covers 32 0 days \/ covers 7 0 dow).
Proof.
  intros Hl Hk. rewrite sched_at_fixed by done. rewrite fixed_at by (unfold DAYS_OFF; lia).
  pose proof (field_covers DOW_OFF 7 0 dow ltac:(set_solver)) as Hw.
  pose proof (field_covers DAYS_OFF 32 0 days ltac:(set_solver)) as Hd.
  rewrite (raw_at DAYS_OFF 32 0 days k) by (done || set_solver).
  destruct (decide (0 ∈ field raw_sched DOW_OFF 7)) as [H1|H1], (decide (0 ∈ field raw_sched DAYS_OFF 32)) as [H2|H2].
  - rewrite decide_False by (unfold DAYS_OFF, DOW_OFF in *; naive_solver lia). case_decide; naive_solver lia.
  - rewrite decide_True by (left; unfold DAYS_OFF; split; [lia|done]).
    split; [done|]. intros [_ [Hx|Hx]]; [by apply Hd in Hx|by apply Hw in H1].
  - rewrite decide_False by (unfold DAYS_OFF, DOW_OFF in *; naive_solver lia). case_decide; naive_solver lia.
  - rewrite decide_False by (unfold DAYS_OFF, DOW_OFF in *; naive_solver lia).
    assert (covers 7 0 dow) as Hc.
    { intros j Hj. destruct (decide (j ∈ selects 7 0 dow)) as [|Hn]; [done|].
      exfalso. apply H1, Hw. intros Hc. by apply Hn, Hc. }
    case_decide; naive_solver lia.
Qed.

Lemma sched_dow l k :
  cl_sched l = FixDayDow raw_sched -> 0 <= k < 7 ->
  sched_at l (DOW_OFF + k) = true <-> k ∈ selects 7 0 dow /\ (~ covers 7 0 dow \/ covers 32 0 days).
Proof.
  intros Hl Hk. rewrite sched_at_fixed by done. rewrite fixed_at by (unfold DOW_OFF; lia).
  pose proof (field_covers DOW_OFF 7 0 dow ltac:(set_solver)) as Hw.
  pose proof (field_covers DAYS_OFF 32 0 days ltac:(set_solver)) as Hd.
  rewrite (raw_at DOW_OFF 7 0 dow k) by (done || set_solver).
  destruct (decide (0 ∈ field raw_sched DOW_OFF 7)) as [H1|H1], (decide (0 ∈ field raw_sched DAYS_OFF 32)) as [H2|H2].
  - rewrite decide_False by (unfold DAYS_OFF, DOW_OFF in *; naive_solver lia). case_decide; naive_solver lia.
  - rewrite decide_False by (unfold DAYS_OFF, DOW_OFF in *; naive_solver lia). case_decide; naive_solver lia.
  - rewrite decide_True by (right; unfold DOW_OFF; split; [lia|done]).
    split; [done|]. intros [_ [Hx|Hx]]; [by apply Hw in Hx|by apply Hd in H2].
  - rewrite decide_False by (unfold DAYS_OFF, DOW_OFF in *; naive_solver lia).
    assert (covers 32 0 days) as Hc.
    { intros j Hj. destruct (decide (j ∈ selects 32 0 days)) as [|Hn]; [done|].
      exfalso. apply H2, Hd. intros Hc. by apply Hn, Hc. }
    case_decide; naive_solver lia.
Qed.
End Schedule.
