(* ===== verification/TimerProps.v ===== *)
(** * Properties of the timer service

    The statements about timer_service.c, each with a concrete instance, from the lemmas of
    TimerSpec.v. *)

From S2P Require Import Prelude CString Parser ParserSpec Timer TimerSpec.
From stdpp Require Import base tactics numbers list sets strings.
From Stdlib Require Import ZArith Lia.
Open Scope Z_scope.
Import Timer.

(** Membership in a computed list. *)
Ltac by_compute :=
  match goal with
  | |- ?x ∈ ?l => apply (bool_decide_eq_true_1 (x ∈ l)); vm_compute; reflexivity
  | |- ?x ∈ ?l -> False => apply (bool_decide_eq_false_1 (x ∈ l)); vm_compute; reflexivity
  end.

Definition no_sched : list Z := replicate (Z.to_nat SCHED_SIZE) 0.

(** [ParseField] returns on every text for each of the five fields, and never writes outside
    the [CronLine]: a number that becomes negative ("0" as a month, or one above [INT_MAX]) makes
    it write in front of its array, but not in front of the structure. *)
Theorem ParseField_total mem base m off names text :
  length mem = Z.to_nat SCHED_SIZE -> (base, m, off, names) ∈ cron_fields ->
  exists mem' ok, ParseField mem base m off names text = FieldDone mem' ok /\ length mem' = length mem.
Proof.
  intros Hl Hin. rewrite Hl. by apply ParseField_length.
Qed.

Lemma ParseField_total_witness :
  exists mem' ok, ParseField no_sched MONS_OFF 12 (-1) (Some MonAry) (str "0,4294967290-jan/x") = FieldDone mem' ok.
Proof.
  destruct (ParseField_total no_sched MONS_OFF 12 (-1) (Some MonAry) (str "0,4294967290-jan/x")) as (mem' & ok & H & _).
  - reflexivity.
  - right. right. right. left.
  - exists mem', ok. exact H.
Defined.

(** C7. The schedule of an entry is the one written: for five fields of numbers, ranges and "*",
    with optional steps and separated by commas, all numbers in range, the line matches a local
    time exactly when its minute, hour and month are selected and its day of the month or of the
    week is, where a day field that selects everything counts only if the other one does too.
    Ranges wrap around. *)
Theorem crontab_schedule_exact mins hrs days mons dow l t :
  mins <> [] /\ Forall (item_ok 60 0) mins -> hrs <> [] /\ Forall (item_ok 24 0) hrs ->
  days <> [] /\ Forall (item_ok 32 0) days -> mons <> [] /\ Forall (item_ok 12 (-1)) mons ->
  dow <> [] /\ Forall (item_ok 7 0) dow ->
  parse_fields (print_items mins) (print_items hrs) (print_items days) (print_items mons) (print_items dow)
    = Some (cl_sched l) ->
  tm_ok t ->
  matches l t = true <->
    tm_min t ∈ selects 60 0 mins /\ tm_hour t ∈ selects 24 0 hrs /\ tm_mon t ∈ selects 12 (-1) mons /\
    day_rule days dow t.
Proof.
  intros H1 H2 H3 H4 H5 Hp (Hmin & Hhr & Hmd & Hmo & Hwd).
  rewrite (parse_fields_items mins hrs days mons dow H1 H2 H3 H4 H5) in Hp.
  assert (cl_sched l = FixDayDow (raw_sched mins hrs days mons dow)) as Hl by congruence.
  unfold matches, day_rule. rewrite !andb_true_iff, orb_true_iff.
  rewrite (sched_plain mins hrs days mons dow l MINS_OFF 60 0 mins) by (done || set_solver).
  rewrite (sched_plain mins hrs days mons dow l HRS_OFF 24 0 hrs) by (done || set_solver).
  rewrite (sched_plain mins hrs days mons dow l MONS_OFF 12 (-1) mons) by (done || set_solver).
  rewrite (sched_days mins hrs days mons dow l) by (done || lia).
  rewrite (sched_dow mins hrs days mons dow l) by (done || lia). tauto.
Qed.

(** "*/15 22-3 * * 1": every quarter of an hour from ten in the evening to three on Mondays. *)
Definition night_line : CronLine :=
  CronLineC (str "run") 0 None None
    (default [] (parse_fields (str "*/15") (str "22-3") (str "*") (str "*") (str "1"))).

Lemma crontab_schedule_exact_witness :
  matches night_line (Tm 30 23 5 0 1) = true /\ matches night_line (Tm 30 23 5 0 2) = false.
Proof.
  split; [|reflexivity].
  apply (crontab_schedule_exact [Item RStar (Some 15)] [Item (RRange 22 3) None] [Item RStar None] [Item RStar None]
    [Item (ROne 1) None]).
  - split; [discriminate|]. repeat constructor; simpl; lia.
  - split; [discriminate|]. repeat constructor; simpl; lia.
  - split; [discriminate|]. repeat constructor.
  - split; [discriminate|]. repeat constructor.
  - split; [discriminate|]. repeat constructor; simpl; lia.
  - reflexivity.
  - unfold tm_ok. simpl. lia.
  - unfold day_rule. split_and!; [by_compute..|]. right. split; [by_compute|left].
    intros Hc. specialize (Hc 0 ltac:(lia)). revert Hc. by_compute.
Defined.

(** No minute is missed and none is counted twice: a turn of the loop over ]t1, t2] makes
    pending exactly the dormant lines of files that are not deleted whose schedule matches one
    of the whole minutes after [t1] and up to [t2], leaving running and pending ones alone; and two
    consecutive turns do what one turn over both intervals does. *)
Theorem flag_starting_exact lt t1 t2 t3 files :
  0 <= t1 <= t2 -> t2 <= t3 ->
  flag_starting_jobs lt t1 t2 files
    = (fun f => if cf_deleted f then f
                else with_lines f ((fun l => if due lt (minutes t1 t2) l then with_pid l (-1) else l) <$> cf_lines f)
                       (cf_wants_starting f || existsb (due lt (minutes t1 t2)) (cf_lines f)) (cf_has_running f))
        <$> files /\
  (forall l, due lt (minutes t1 t2) l = true <->
     cl_pid l = 0 /\ exists t, t1 < t <= t2 /\ t mod 60 = 0 /\ matches l (lt t) = true) /\
  flag_starting_jobs lt t1 t3 files = flag_starting_jobs lt t2 t3 (flag_starting_jobs lt t1 t2 files).
Proof.
  intros H12 H23. split; [apply flag_starting_ref|]. split.
  - intros l. unfold due. rewrite andb_true_iff, Z.eqb_eq, existsb_exists. split.
    + intros [H0 (t & Ht & Hm)]. split; [done|]. apply list_elem_of_In, elem_of_minutes in Ht; [|done].
      exists t. naive_solver.
    + intros [H0 (t & Ht & H60 & Hm)]. split; [done|]. exists t. split; [|done].
      apply list_elem_of_In, elem_of_minutes; [done|]. done.
  - unfold flag_starting_jobs. by rewrite (minutes_app t1 t2 t3), foldl_app.
Qed.

Definition quarter_tm (t : Z) : tm := Tm (t / 60 mod 60) (t / 3600 mod 24) 5 0 1.

Lemma flag_starting_exact_witness :
  let f := CronFileC [night_line] (str "root") false false false in
  flag_starting_jobs quarter_tm 79190 79300 [f]
  = flag_starting_jobs quarter_tm 79250 79300 (flag_starting_jobs quarter_tm 79190 79250 [f]) /\
  all_pids (flag_starting_jobs quarter_tm 79190 79300 [f]) = [-1].
Proof.
  intros f. split; [|reflexivity].
  apply (flag_starting_exact quarter_tm 79190 79250 79300 [f]); lia.
Defined.

(** [start_jobs] forks once for every pending job, in the order of the table, and for no
    other: on a well-formed table the process numbers afterwards are those before, with each
    pending mark replaced by the next result of [vfork] (0 when it failed). No job that runs is
    started again. *)
Theorem start_jobs_forks_once files fk :
  files_ok files ->
  let '(files', fk') := start_jobs START_ME_NORMAL fk files in
  (all_pids files', fk') = assign fk (all_pids files) /\ files_ok files'.
Proof.
  intros Hok. change START_ME_NORMAL with (-1). pose proof (start_jobs_assign files fk Hok) as Hs.
  by destruct (start_jobs (-1) fk files) as [fs' fk'].
Qed.

Definition demo_file : CronFile :=
  CronFileC [with_pid night_line (-1); with_pid night_line 31; with_pid night_line (-1)] (str "root") true true false.

Lemma demo_file_ok : files_ok [demo_file].
Proof.
  intros f ->%list_elem_of_singleton l Hl. simpl in Hl.
  repeat (apply elem_of_cons in Hl as [->|Hl]; [unfold line_ok; simpl; split_and!; lia || done|]).
  by apply elem_of_nil in Hl.
Qed.

Lemma start_jobs_forks_once_witness :
  all_pids (fst (start_jobs START_ME_NORMAL [40; -1; 50] [demo_file])) = [40; 31; 0].
Proof.
  pose proof (start_jobs_forks_once [demo_file] [40; -1; 50] demo_file_ok) as Hs.
  destruct (start_jobs START_ME_NORMAL [40; -1; 50] [demo_file]) as [fs fk]. destruct Hs as [Hs _].
  injection Hs as Hs _. exact Hs.
Defined.

(** C32. The job table over every turn of the loop, rescans of the crontab directory included. A
    turn ends with a well-formed table: process numbers are at least -1, a file with a running job
    is marked so, a file with a pending job wants starting; and after one in which time
    advanced by at most an hour no job is left pending. A turn without a rescan always ends; one
    with a rescan does when the directory can be opened, its files can be parsed (none ends in a
    continued line, and the bytes in front of the line buffer are no backslashes) and every known
    file but the last is deleted already or has a running job; the running jobs then stay in
    the table. Otherwise, with files of distinct names, the rescan reads the name of a file it has
    freed. *)
Theorem timer_tick_invariant env t1 t2 files sleep :
  files_ok files ->
  (match rescan env with
   | None => True
   | Some None => False
   | Some (Some entries) => rescan_safe files /\ entries_ok (heap_before env) entries
   end ->
   exists fs files' sleep',
     match rescan env with
     | None => fs = files
     | Some entries => rescan_crontab_dir (heap_before env) (crontab_dir_name env) entries files = Some fs
     end /\ running_jobs fs = running_jobs files /\
     timer_tick env t1 t2 files sleep = Some (files', sleep') /\ files_ok files' /\
     (0 < t2 - t1 <= 3600 -> forall f l, f ∈ files' -> l ∈ cf_lines f -> ~ pending l)) /\
  (is_Some (rescan env) -> NoDup (cf_username <$> files) -> ~ rescan_safe files ->
   delete_all (S (length files)) files = DeleteFreed /\ timer_tick env t1 t2 files sleep = None).
Proof.
  intros Hok. split.
  - intros He. unfold timer_tick.
    assert (exists fs, match rescan env with None => fs = files
                       | Some entries => rescan_crontab_dir (heap_before env) (crontab_dir_name env) entries files = Some fs end
                     /\ files_ok fs /\ running_jobs fs = running_jobs files) as (fs & Hrs & Hfs & Hr).
    { revert He. destruct (rescan env) as [[entries|]|]; intros He; [|done|by eexists]. destruct He. by apply rescan_ok. }
    exists fs.
    assert (match rescan env with None => Some files
            | Some entries => rescan_crontab_dir (heap_before env) (crontab_dir_name env) entries files end = Some fs) as ->.
    { revert Hrs. destruct (rescan env); intros Hrs; congruence. }
    destruct (run_jobs_ok env t1 t2 fs Hfs) as [Hrun Hnp].
    destruct ((t2 - t1 <? -3600) || (3600 <? t2 - t1)) eqn:Eb.
    { eexists _, _. split_and!; [done..|]. intros Hd. apply orb_true_iff in Eb as [Eb|Eb]; btest; lia. }
    btest. bcase.
    + destruct (run_jobs env t1 t2 fs) as [files' sl]. eexists _, _. by split_and!.
    + eexists _, _. split_and!; [done..|]. lia.
  - intros [es Hes] Hnd Hs. pose proof (delete_all_freed _ files (undeleted_length files) Hnd Hs) as Hd.
    split; [done|]. unfold timer_tick, rescan_crontab_dir. by rewrite Hes, Hd.
Qed.

Definition idle_file (name : list Z) : CronFile := CronFileC [night_line] name false false false.

Lemma timer_tick_invariant_witness :
  let es := [(str "a", Some [str "* * * * * ls" ++ [10]], 0); (str "b.bak", None, 0)] in
  let env := TickEnv quarter_tm [77; 78] (fun _ => 0) (Some (Some es)) (fun _ => 0) (str "/c") in
  (exists files' s, timer_tick env 79190 79300 [demo_file] 60 = Some (files', s) /\ files_ok files') /\
  timer_tick env 79190 79300 [idle_file (str "/c/x"); demo_file] 60 = None.
Proof.
  intros es env. split.
  - destruct (timer_tick_invariant env 79190 79300 [demo_file] 60 demo_file_ok) as [Ht _].
    destruct Ht as (fs & files' & s & _ & _ & H1 & H2 & _); [|exists files', s; split; [exact H1|exact H2]].
    split.
    + intros [|i] f Hf _ _; [reflexivity|discriminate].
    + intros name contents ret Hin.
      split; [discriminate|]. split; [discriminate|]. intros lines ->.
      apply elem_of_cons in Hin as [Hin|Hin]; [|apply list_elem_of_singleton in Hin; discriminate].
      injection Hin as _ -> _. intros l Hl. injection Hl as <-.
      exists (str "* * * * * l"), 115. split; [discriminate|right; reflexivity].
  - apply (timer_tick_invariant env 79190 79300 [idle_file (str "/c/x"); demo_file] 60).
    + intros f [->|Hf]%elem_of_cons; [|exact (demo_file_ok f Hf)].
      intros l Hl. simpl in Hl. apply list_elem_of_singleton in Hl as ->. unfold line_ok. simpl. split_and!; lia || done.
    + by eexists.
    + apply (bool_decide_eq_true_1 (NoDup _)). vm_compute. reflexivity.
    + intros Hs. specialize (Hs 0%nat (idle_file (str "/c/x")) eq_refl eq_refl eq_refl). discriminate.
Defined.

(** The loop that deletes the known files always ends: with every remaining file marked deleted
    and the jobs that run under their file, in order, or with the read of a freed name. *)
Theorem rescan_deletes_all files :
  delete_all (S (length files)) files <> DeleteStuck /\
  (files_ok files -> rescan_safe files ->
   exists files', delete_all (S (length files)) files = DeleteDone files' /\
     (forall f, f ∈ files' -> cf_deleted f = true) /\ running_jobs files' = running_jobs files).
Proof.
  split; [apply delete_all_never_stuck, undeleted_length|]. intros Hok Hs.
  destruct (delete_all_ok _ files (undeleted_length files) Hok Hs) as (fs & ? & _ & ? & ?). by exists fs.
Qed.

(** A number out of range is not rejected but taken for every value: for "60" to "99" as a
    minute the parser reports an error only after it has set all sixty entries, and the line is
    kept, so that the job runs every minute of the hours it names. *)
Theorem ParseField_out_of_range v :
  60 <= v < 100 ->
  exists mem, ParseField no_sched MINS_OFF 60 0 None (dec2 v) = FieldDone mem false /\
    field mem MINS_OFF 60 = replicate 60 1.
Proof.
  intros Hv.
  assert (forallb (fun n => match ParseField no_sched MINS_OFF 60 0 None (dec2 (60 + Z.of_nat n)) with
    | FieldDone mem false => bool_decide (field mem MINS_OFF 60 = replicate 60 1) | _ => false end) (seq 0 40) = true) as Hall
    by (vm_compute; reflexivity).
  rewrite forallb_forall in Hall. specialize (Hall (Z.to_nat (v - 60))).
  replace (60 + Z.of_nat (Z.to_nat (v - 60))) with v in Hall by lia.
  specialize (Hall ltac:(apply in_seq; lia)).
  destruct (ParseField _ _ _ _ _ _) as [mem [|]| |]; try done. exists mem. split; [done|].
  by apply bool_decide_eq_true in Hall.
Qed.

Lemma ParseField_out_of_range_witness :
  exists mem, ParseField no_sched MINS_OFF 60 0 None (dec2 70) = FieldDone mem false.
Proof. destruct (ParseField_out_of_range 70) as (mem & H & _); [lia|]. exists mem. exact H. Defined.
