(* ===== verification/Utils.v ===== *)
(** * opbox/utils.c: address and port checks, bounded copies, leap years

    The helpers of opbox/utils.c the other components call.  A string argument is the list of its
    characters, a [NULL] pointer is [None]; a destination is the block of memory that starts at
    the pointer, so that a write past its end is the outer [None]. *)

From S2P Require Import Prelude Bytes CString.
From stdpp Require Import base tactics numbers list strings.
From Stdlib Require Import ZArith Lia.
Open Scope Z_scope.

Module Utils.

(** ** isipv4 *)

(** The loop over the characters, with [dots] and [setions], and the test after it. *)
Fixpoint isipv4_loop (ip : list Z) (dots setions : Z) : Z :=
  match ip with
  | [] => if (0 <=? setions) && (setions <=? 255) then if dots =? 3 then 0 else -1 else -1
  | c :: r =>
      if c =? 46 then
        if (0 <=? setions) && (setions <=? 255) then isipv4_loop r (s32 (dots + 1)) 0 else -1
      else if isdigit c then isipv4_loop r dots (s32 (setions * 10 + (c - 48)))
      else -1
  end.

Definition isipv4 (ip : option (list Z)) : Z :=
  match ip with
  | None => -1
  | Some s => if char_at s =? 46 then -1 else isipv4_loop s 0 0
  end.

(** ** isport *)

(** [atoi] is [(int)strtol(s, NULL, 10)]. *)
Definition atoi (s : list Z) : Z := s32 (fst (strtol s)).

(** The loop at lines 99-103: a [char] is signed, and the lower bound is the number [0]. *)
Definition port_char (c : Z) : bool := negb ((s8 c <? 0) || (57 <? s8 c)).

Definition isport (port : option (list Z)) : Z :=
  match port with
  | None => 0
  | Some s =>
      let c := s8 (char_at s) in
      if negb (c =? 43) && ((c <? 48) || (57 <? c)) then 0
      else if forallb port_char (tail s) then
        let port_num := atoi s in
        if (port_num <=? 0) || (65535 <? port_num) then 0 else 1
      else 0
  end.

(** ** Bounded copies *)

(** The string a buffer holds: its bytes before the first terminator. *)
Definition cstr (buf : list Z) : list Z := fst (span (fun c => negb (c =? 0)) buf).

Definition zlen {A} (l : list A) : Z := Z.of_nat (length l).

Definition op_strlcpy (dest src : option (list Z)) (dest_size : Z) : option (option (list Z) * Z) :=
  match dest, src with
  | Some d, Some s =>
      if dest_size =? 0 then Some (dest, 0)
      else
        let size_copy := u32 (if zlen s <? dest_size then zlen s else dest_size - 1) in
        match poke d (take (Z.to_nat size_copy) s ++ [0]) with
        | Some d' => Some (Some d', s32 size_copy)
        | None => None
        end
  | _, _ => Some (dest, 0)
  end.

(** [memset(dest, 0, dest_size)]. *)
Definition memset0 (d : list Z) (n : Z) : option (list Z) := poke d (replicate (Z.to_nat n) 0).

(** [None] is also a read past the end of the source. *)
Definition memlcpy (dest : option (list Z)) (dest_size : Z) (src : option (list Z)) (src_size : Z)
  : option (option (list Z) * Z) :=
  match dest, src with
  | Some d, Some s =>
      if dest_size =? 0 then Some (dest, 0)
      else
        match memset0 d dest_size with
        | None => None
        | Some d1 =>
            let size_copy := if src_size <? dest_size then src_size else dest_size in
            if zlen s <? size_copy then None
            else match poke d1 (take (Z.to_nat size_copy) s) with
                 | Some d2 => Some (Some d2, s32 size_copy)
                 | None => None
                 end
        end
  | _, _ => Some (dest, 0)
  end.

(** ** is_leap_year: [%] of C truncates *)
Definition is_leap_year (year : Z) : Z :=
  if Z.rem year 400 =? 0 then 1
  else if (Z.rem year 4 =? 0) && negb (Z.rem year 100 =? 0) then 1 else 0.

(** ** What isipv4 accepts *)

(** The value [setions] has after the characters of a section. *)
Definition section_value (v : Z) (ds : list Z) : Z :=
  foldl (fun v c => s32 (v * 10 + (c - 48))) v ds.

Definition octet (v : Z) (ds : list Z) : Prop :=
  Forall (fun c => isdigit c = true) ds /\ 0 <= section_value v ds <= 255.

(** [n] sections after the first one, whose value starts at [v]. *)
Fixpoint quad (n : nat) (v : Z) (s : list Z) : Prop :=
  match n with
  | O => octet v s
  | S m => exists a r, s = a ++ 46 :: r /\ octet v a /\ quad m 0 r
  end.

Lemma octet_cons v c ds :
  octet v (c :: ds) <-> isdigit c = true /\ octet (s32 (v * 10 + (c - 48))) ds.
Proof. unfold octet. rewrite Forall_cons. simpl. tauto. Qed.

Lemma octet_nil v : octet v [] <-> 0 <= v <= 255.
Proof. unfold octet. simpl. split; [tauto|]. auto. Qed.

Lemma quad_digit n v c s :
  isdigit c = true -> quad n v (c :: s) <-> quad n (s32 (v * 10 + (c - 48))) s.
Proof.
  intros Hc. destruct n as [|n]; simpl; [rewrite octet_cons; tauto|]. split.
  - intros (a & r & He & Ho & Hq). destruct a as [|x a]; simplify_eq/=.
    apply octet_cons in Ho as [_ Ho]. eauto.
  - intros (a & r & -> & Ho & Hq). exists (c :: a), r. rewrite octet_cons. eauto.
Qed.

Lemma quad_dot n v s :
  quad n v (46 :: s) <-> exists m, n = S m /\ 0 <= v <= 255 /\ quad m 0 s.
Proof.
  destruct n as [|n]; simpl.
  - rewrite octet_cons. split; [intros [? _]; done|by intros (? & ? & _)].
  - split.
    + intros (a & r & He & Ho & Hq). destruct a as [|x a]; simplify_eq/=.
      * apply octet_nil in Ho. eauto.
      * apply octet_cons in Ho as [? _]. done.
    + intros (m & [= <-] & Hv & Hq). exists [], s. by rewrite octet_nil.
Qed.

Lemma quad_other n v c s : c <> 46 -> isdigit c = false -> ~ quad n v (c :: s).
Proof.
  intros Hc Hd. destruct n as [|n]; simpl; [rewrite octet_cons; intros [? _]; congruence|].
  intros (a & r & He & Ho & _). destruct a as [|x a]; simplify_eq/=.
  apply octet_cons in Ho as [? _]. congruence.
Qed.

Lemma isipv4_loop_quad s dots v :
  0 <= dots -> dots + zlen s < 2147483648 ->
  isipv4_loop s dots v = 0 <-> exists n, dots + Z.of_nat n = 3 /\ quad n v s.
Proof.
  unfold zlen. revert dots v. induction s as [|c s IH]; intros dots v Hd Hl; simpl in *.
  - split.
    + repeat bcase; try done. intros _. exists 0%nat. simpl. rewrite octet_nil. lia.
    + intros (n & Hn & Hq). destruct n as [|n].
      * apply octet_nil in Hq. repeat bcase; try done; try lia.
      * destruct Hq as (a & r & He & _). by destruct a.
  - destruct (c =? 46) eqn:Ec; btest; [subst c|].
    + destruct ((0 <=? v) && (v <=? 255)) eqn:Ev.
      * btest. rewrite IH by (rewrite s32_id by lia; lia). rewrite s32_id by lia. split.
        -- intros (n & Hn & Hq). exists (S n). rewrite quad_dot. split; [lia|]. eauto.
        -- intros (n & Hn & Hq). apply quad_dot in Hq as (m & -> & _ & Hq). exists m. split; [lia|done].
      * split; [done|]. intros (n & _ & Hq). apply quad_dot in Hq as (m & _ & Hv & _).
        rewrite (proj2 (Z.leb_le 0 v)), (proj2 (Z.leb_le v 255)) in Ev by lia. done.
    + destruct (isdigit c) eqn:Edig.
      * rewrite IH by lia. split; intros (n & Hn & Hq); exists n; (split; [done|]);
          by apply (quad_digit _ _ _ _ Edig).
      * split; [done|]. intros (n & _ & Hq). by apply quad_other in Hq.
Qed.

(** ** Facts used by the callers *)

Lemma zlen_nonneg {A} (l : list A) : 0 <= zlen l.
Proof. unfold zlen. lia. Qed.

Lemma cstr_app s rest : no_nul s -> cstr (s ++ 0 :: rest) = s.
Proof.
  intros H. unfold cstr. rewrite span_stop; [done| |done].
  intros x Hx. apply negb_true_iff, Z.eqb_neq, H, Hx.
Qed.

Lemma cstr_terminated s : no_nul s -> cstr (s ++ [0]) = s.
Proof. intros H. by apply cstr_app. Qed.

Lemma cstr_no_nul b : no_nul (cstr b).
Proof. intros x Hx. unfold cstr in Hx. apply span_fst in Hx. btest. done. Qed.

(** A copy stays in the destination and leaves a terminated prefix of the source. *)
Lemma op_strlcpy_fits d s n :
  no_nul s -> 0 < n <= zlen d -> n < 2147483648 ->
  exists d' k, op_strlcpy (Some d) (Some s) n = Some (Some d', k) /\
    length d' = length d /\ k = zlen (cstr d') /\ k < n /\ cstr d' = take (Z.to_nat (n - 1)) s.
Proof.
  unfold zlen. intros Hs Hn Hn32. unfold op_strlcpy, zlen. bcase; [lia|].
  set (k := if Z.of_nat (length s) <? n then Z.of_nat (length s) else n - 1).
  assert (0 <= k < n /\ take (Z.to_nat k) s = take (Z.to_nat (n - 1)) s
          /\ length (take (Z.to_nat k) s) = Z.to_nat k) as (Hk & Ht & Hkl).
  { unfold k. bcase; (split; [lia|]); rewrite length_take; (split; [|lia]); [|done].
    rewrite !take_ge by lia. done. }
  rewrite u32_id by lia.
  destruct (poke_ok d (take (Z.to_nat k) s ++ [0])) as [-> Hlen].
  { rewrite length_app, Hkl. simpl. lia. }
  eexists _, _. split; [done|]. split; [done|].
  assert (no_nul (take (Z.to_nat k) s)) as Hno.
  { intros x Hx. apply Hs. rewrite <- (take_drop (Z.to_nat k) s). apply elem_of_app. by left. }
  rewrite <- app_assoc. simpl. rewrite cstr_app by done. rewrite Hkl, s32_id by lia.
  rewrite Ht. split_and!; [lia|lia|done].
Qed.

(** A bounded [memlcpy] clears the destination behind the copy. *)
Lemma memlcpy_fits d n s k :
  0 < n -> Z.to_nat n = length d -> 0 <= k <= zlen s -> k <= n -> n < 2147483648 ->
  memlcpy (Some d) n (Some s) k
  = Some (Some (take (Z.to_nat k) s ++ replicate (Z.to_nat (n - k)) 0), k).
Proof.
  unfold zlen. intros Hn Hd Hk Hkn Hn32. unfold memlcpy, memset0, zlen. bcase; [lia|].
  rewrite poke_exact by (rewrite length_replicate; lia).
  replace (if k <? n then k else n) with k by (bcase; lia).
  bcase; [lia|].
  destruct (poke_ok (replicate (Z.to_nat n) 0) (take (Z.to_nat k) s)) as [-> _].
  { rewrite length_replicate, length_take. lia. }
  rewrite s32_id by lia. rewrite length_take, Nat.min_l, drop_replicate by lia.
  do 4 f_equal. f_equal. lia.
Qed.

(** The Gregorian rule. *)
Lemma is_leap_year_rule y :
  is_leap_year y = 1 <-> (y mod 4 = 0 /\ y mod 100 <> 0) \/ y mod 400 = 0.
Proof.
  assert (forall m, 0 < m -> (Z.rem y m = 0 <-> y mod m = 0)) as R.
  { intros m Hm. rewrite Z.rem_divide, Z.mod_divide by lia. done. }
  unfold is_leap_year. repeat bcase; rewrite <- !R in * by lia; try tauto; split; intros; try done.
  - destruct (Z.eqb_spec (Z.rem y 4) 0), (Z.eqb_spec (Z.rem y 100) 0); simpl in *; try done; tauto.
Qed.

(** A port number above 65535 is not always refused: [atoi] keeps the low 32 bits, and the
    characters between the terminator and '0' are not refused either. *)
Lemma isport_overaccepts :
  isport (Some (str "4294967376")) = 1 /\ isport (Some (str "8!")) = 1 /\ isport (Some (str "80")) = 1
  /\ isport (Some (str "80a")) = 0 /\ isport (Some (str "65536")) = 0.
Proof. by vm_compute. Qed.

End Utils.
Import Utils.

(** [isipv4] accepts exactly the strings made of four sections of decimal digits separated
    by dots, each section's value, taken as an [int] that wraps, within 0..255, that do not start
    with a dot.  The second, third and fourth sections may be empty. *)
Theorem isipv4_exact s :
  zlen s < 2147483648 ->
  isipv4 (Some s) = 0 <->
    exists a b c d, s = a ++ 46 :: b ++ 46 :: c ++ 46 :: d /\ a <> [] /\
      octet 0 a /\ octet 0 b /\ octet 0 c /\ octet 0 d.
Proof.
  intros Hl. unfold isipv4. destruct (char_at s =? 46) eqn:E; btest.
  - split; [done|]. intros (a & b & c & d & -> & Ha & Ho & _). destruct a as [|x a]; [done|].
    simpl in E. subst x. by apply octet_cons in Ho as [? _].
  - rewrite isipv4_loop_quad by lia. split.
    + intros (n & Hn & Hq). assert (n = 3%nat) as -> by lia.
      destruct Hq as (a & r & -> & Ha & b & r' & -> & Hb & c & d & -> & Hc & Hd).
      exists a, b, c, d. split; [done|]. split; [|done]. intros ->. by simpl in E.
    + intros (a & b & c & d & -> & Ha & Oa & Ob & Oc & Od). exists 3%nat. split; [lia|].
      exists a, (b ++ 46 :: c ++ 46 :: d). split_and!; [done..|].
      exists b, (c ++ 46 :: d). split_and!; [done..|]. exists c, d. done.
Qed.

Lemma isipv4_exact_witness :
  isipv4 (Some (str "192.168.0.255")) = 0 /\ isipv4 (Some (str "1...")) = 0.
Proof.
  split; (apply isipv4_exact; [vm_compute; reflexivity|]).
  - exists (str "192"), (str "168"), (str "0"), (str "255").
    split_and!; try done; vm_compute; (split; [repeat constructor|split; intros ?; discriminate]).
  - exists (str "1"), [], [], [].
    split_and!; try done; vm_compute; (split; [repeat constructor|split; intros ?; discriminate]).
Defined.
