(* ===== verification/Pdu.v ===== *)
(** * module/op4g/_4g_pdu.c: the SMS-SUBMIT PDU of a short message

    The C arrays are lists of bytes, [None] is a read or write outside an array.  The result of
    an operation is the destination after the call and the value returned.  [iconv] and
    [iconv_open] are parameters: the conversion itself is not code of the repository. *)

From S2P Require Import Prelude Bytes CString Utils.
From stdpp Require Import base tactics numbers list strings option.
From Stdlib Require Import ZArith Lia.
Open Scope Z_scope.
Import Utils.

Module Pdu.

(** ** printf *)

Definition hexdigit (d : Z) : Z := if d <? 10 then 48 + d else 55 + d.

Fixpoint hex_digits (fuel : nat) (n : Z) : list Z :=
  match fuel with
  | O => []
  | S f => if n <? 16 then [hexdigit n] else hex_digits f (n / 16) ++ [hexdigit (n mod 16)]
  end.

(** [%02X] of an [unsigned int]: eight digits are enough. *)
Definition fmt_02X (n : Z) : list Z :=
  let s := hex_digits 8 n in if Nat.ltb (length s) 2 then 48 :: s else s.

(** [snprintf(d + off, size, "%s", text)]; the size is a [size_t]. *)
Definition snprintf_at (d : list Z) (off size : Z) (text : list Z) : option (list Z * Z) :=
  if (0 <=? off) && (off <=? zlen d) then
    if u64 size =? 0 then Some (d, zlen text)
    else
      d' ← poke (drop (Z.to_nat off) d) (take (Z.to_nat (u64 size - 1)) text ++ [0]);
      Some (take (Z.to_nat off) d ++ d', zlen text)
  else None.

Definition snprintf (d : list Z) (size : Z) (text : list Z) : option (list Z * Z) :=
  snprintf_at d 0 size text.

(** A string argument must end inside its array. *)
Definition read_cstr (buf : list Z) : option (list Z) :=
  if bool_decide (0 ∈ buf) then Some (cstr buf) else None.

(** ** Phone numbers *)

(** The three exclusive ors at lines 46-48 and 83-85. *)
Definition xor_swap (buf : list Z) (i : Z) : option (list Z) :=
  a ← buf !! Z.to_nat i;
  b ← buf !! Z.to_nat (i + 1);
  let a1 := Z.lxor a b in
  let b1 := Z.lxor a1 b in
  let a2 := Z.lxor a1 b1 in
  Some (<[Z.to_nat (i + 1) := b1]> (<[Z.to_nat i := a2]> buf)).

(** [for (; i < len; i += 2)] with [unsigned char] counters. *)
Fixpoint swap_loop (fuel : nat) (i len : Z) (buf : list Z) : option (list Z) :=
  if i <? len then
    match fuel with
    | O => None
    | S f => buf' ← xor_swap buf i; swap_loop f (u8 (i + 2)) len buf'
    end
  else Some buf.

Definition message_center_phone_change (center_num dest : option (list Z)) (dest_size : Z)
  : option (option (list Z) * Z) :=
  match dest with
  | None => Some (dest, -1)
  | Some d =>
      if dest_size =? 0 then Some (dest, -1)
      else match center_num with
      | None => Some (dest, -1)
      | Some c =>
          if u8 (zlen c) <? 3 then Some (dest, -1)
          else
            let at_ i := default 0 (c !! i) in
            if negb (at_ 0%nat =? 43) && negb (at_ 1%nat =? 56) && negb (at_ 2%nat =? 54)
            then Some (dest, -1)
            else
              let num := drop 1 c in
              '(buf, _) ← snprintf (replicate 64 0) 64
                 (if zlen num mod 2 =? 0 then str "91" ++ num else str "91" ++ num ++ str "F");
              s ← read_cstr buf;
              let len := u8 (zlen s) in
              let phone_num_spilite := len / 2 in
              buf ← swap_loop 64 2 len buf;
              s ← read_cstr buf;
              '(d', ret) ← snprintf d dest_size (fmt_02X phone_num_spilite ++ s);
              Some (Some d', ret)
      end
  end.

Definition message_dest_phone_change (phone_num dest : option (list Z)) (dest_size : Z)
  : option (option (list Z) * Z) :=
  match dest with
  | None => Some (dest, -1)
  | Some d =>
      if dest_size =? 0 then Some (dest, -1)
      else match phone_num with
      | None => Some (dest, -1)
      | Some p =>
          '(buf, _) ← snprintf (replicate 64 0) 64 (str "86" ++ p);
          s ← read_cstr buf;
          let len := u8 (zlen s) in
          '(buf_tmp, _) ← snprintf (replicate 128 0) 128 (if len =? 0 then s else s ++ str "F");
          s ← read_cstr buf_tmp;
          let len := u8 (zlen s) in
          buf_tmp ← swap_loop 64 0 len buf_tmp;
          s ← read_cstr buf_tmp;
          '(d', ret) ← snprintf d dest_size s;
          Some (Some d', ret)
      end
  end.

(** ** The text *)

Definition _4G_MESSAGE_SIZE : Z := 1024.

Section pdu.
(** Whether [iconv_open("UCS-2BE", "UTF-8")] succeeds, and the bytes [iconv] writes for an
    input and an output space, if it converts the whole input. *)
Context (iconv_open : bool) (iconv : list Z -> Z -> option (list Z)).

(** utils.c: the bytes written (the descriptor stays open after a failed conversion). *)
Definition utf8_to_unicode (inbuf : list Z) (outlen : Z) : option (list Z) :=
  if iconv_open then iconv inbuf outlen else None.

(** The loop at lines 119-121. *)
Fixpoint hex_loop (bytes fmt : list Z) (ret : Z) : option (list Z * Z) :=
  match bytes with
  | [] => Some (fmt, ret)
  | b :: bs =>
      '(fmt', n) ← snprintf_at fmt (ret + 2) (_4G_MESSAGE_SIZE + _4G_MESSAGE_SIZE - ret - 2)
                     (fmt_02X (u8 b));
      hex_loop bs fmt' (ret + n)
  end.

(** The local arrays are not cleared by the code: no byte is read that was not written. *)
Definition message_ucs2_change (message dest : option (list Z)) (dest_size : Z)
  : option (option (list Z) * Z) :=
  match message with
  | None => None (* strlen(NULL) *)
  | Some m =>
      match dest with
      | None => Some (dest, -1)
      | Some d =>
          if dest_size =? 0 then Some (dest, -1)
          else
            d ← memset0 d dest_size;
            match utf8_to_unicode m _4G_MESSAGE_SIZE with
            | None => Some (Some d, -1)
            | Some buf =>
                let mess_size := _4G_MESSAGE_SIZE - zlen buf in
                let len := u8 (_4G_MESSAGE_SIZE - mess_size) in
                '(buf_tmp, _) ← snprintf (replicate 3 0) 3 (fmt_02X len);
                '(buf_format, ret) ← hex_loop (take (Z.to_nat len) buf) (replicate 2048 0) 0;
                memlcpy (Some d) (u32 dest_size)
                  (Some (<[1%nat := default 0 (buf_tmp !! 1%nat)]>
                           (<[0%nat := default 0 (buf_tmp !! 0%nat)]> buf_format)))
                  (u32 (ret + 2))
            end
      end
  end.

(** ** The whole PDU *)

(** [memlcpy(dest + off, dest_size - off, src, n)] inside an array. *)
Definition memlcpy_at (d : list Z) (off dest_size : Z) (src : list Z) (n : Z) : option (list Z * Z) :=
  if (0 <=? off) && (off <=? zlen d) then
    match memlcpy (Some (drop (Z.to_nat off) d)) (u32 (dest_size - off)) (Some src) (u32 n) with
    | Some (Some d', k) => Some (take (Z.to_nat off) d ++ d', k)
    | _ => None
    end
  else None.

(** The destination, the value returned and, on success, [*count_set]. *)
Definition message_ucs2_combi_mesage (center_num phone_num message : option (list Z))
  (dest : list Z) (dest_size : Z) : option (list Z * Z * option Z) :=
  '(center_phone_buf, ret) ← message_center_phone_change center_num (Some (replicate 64 0)) 64;
  if ret <? 0 then Some (dest, -1, None)
  else
    '(dest, tmp_size) ← memlcpy_at dest 0 dest_size (default [] center_phone_buf) ret;
    '(phone_buf, ret1) ← message_dest_phone_change phone_num (Some (replicate 64 0)) 64;
    '(dest, ret) ← snprintf_at dest tmp_size (dest_size - tmp_size)
                     (str "1100" ++ fmt_02X (u32 ret1) ++ str "91");
    let tmp_size := tmp_size + ret in
    let count := ret in
    '(dest, n) ← memlcpy_at dest tmp_size dest_size (default [] phone_buf) ret1;
    let tmp_size := tmp_size + n in
    let count := count + ret1 in
    '(dest, ret) ← snprintf_at dest tmp_size (dest_size - tmp_size) (str "000800");
    let count := count + ret in
    let tmp_size := tmp_size + ret in
    '(message_buf, ret) ← message_ucs2_change message (Some (replicate 1024 0)) 1024;
    let count := count + ret in
    '(dest, n) ← memlcpy_at dest tmp_size dest_size (default [] message_buf) ret;
    let tmp_size := tmp_size + n in
    if (0 <=? tmp_size) && (tmp_size <? zlen dest) then
      Some (<[Z.to_nat tmp_size := 26]> dest, tmp_size + 1, Some (Z.quot count 2))
    else None.
End pdu.

(** ** What the numbers should look like: swapped semi-octets, padded with F (3GPP TS 23.040) *)

Fixpoint semi (s : list Z) : list Z :=
  match s with
  | a :: b :: r => b :: a :: semi r
  | [a] => [70; a]
  | [] => []
  end.

Fixpoint unsemi (s : list Z) : list Z :=
  match s with
  | b :: a :: r => if b =? 70 then a :: unsemi r else a :: b :: unsemi r
  | _ => s
  end.

Definition hex_text (bytes : list Z) : list Z := concat (fmt_02X <$> bytes).

End Pdu.
