(* ===== verification/PduSpec.v ===== *)
(** * What the PDU builder of module/op4g/_4g_pdu.c produces

    The pair swap by exclusive or is the semi-octet encoding of a number, every array access of
    the builder is in bounds for numbers that fit, and the PDU has the layout of an SMS-SUBMIT. *)

From S2P Require Import Prelude Bytes CString Utils Pdu.
From stdpp Require Import base tactics numbers list sets strings option.
From Stdlib Require Import ZArith Lia.
Open Scope Z_scope.
Import Utils Pdu.

#[local] Arguments memlcpy : simpl never.
#[local] Arguments op_strlcpy : simpl never.
#[local] Arguments fmt_02X : simpl never.

Ltac zl :=
  unfold zlen in *;
  do 2 (rewrite ?length_app, ?length_replicate, ?length_take, ?length_drop in *; simpl in * );
  lia.

(** ** Arrays *)

Lemma take_pre {A} (pre rest : list A) n : n = length pre -> take n (pre ++ rest) = pre.
Proof. intros ->. apply take_app_length. Qed.
Lemma drop_pre {A} (pre rest : list A) n : n = length pre -> drop n (pre ++ rest) = rest.
Proof. intros ->. apply drop_app_length. Qed.

(** [snprintf] behind [pre], with room for the text and its terminator. *)
Lemma snprintf_at_app pre rest size text :
  zlen text < size -> size < W64 -> zlen text < zlen rest ->
  snprintf_at (pre ++ rest) (zlen pre) size text
  = Some (pre ++ text ++ 0 :: drop (S (length text)) rest, zlen text).
Proof.
  intros Hs H64 Hr. unfold snprintf_at.
  rewrite (proj2 (Z.leb_le 0 (zlen pre))), (proj2 (Z.leb_le (zlen pre) _)) by zl. simpl.
  rewrite u64_id by zl. bcase; [zl|].
  rewrite take_pre, drop_pre by zl.
  rewrite take_ge by zl.
  destruct (poke_ok rest (text ++ [0])) as [-> _]; [zl|]. simpl.
  rewrite <- app_assoc. simpl. rewrite length_app. simpl.
  by replace (length text + 1)%nat with (S (length text)) by lia.
Qed.

Lemma snprintf_ok d size text :
  zlen text < size -> size < W64 -> zlen text < zlen d ->
  snprintf d size text = Some (text ++ 0 :: drop (S (length text)) d, zlen text).
Proof. intros. by apply (snprintf_at_app [] d). Qed.

Lemma memlcpy_at_app pre rest src n :
  0 <= n <= zlen src -> n <= zlen rest -> 0 < zlen rest -> zlen pre + zlen rest < 2147483648 ->
  exists rest',
    memlcpy_at (pre ++ rest) (zlen pre) (zlen pre + zlen rest) src n
    = Some (pre ++ take (Z.to_nat n) src ++ rest', n) /\ zlen rest' = zlen rest - n.
Proof.
  intros Hn Hr Hp H32. unfold memlcpy_at.
  rewrite (proj2 (Z.leb_le 0 (zlen pre))), (proj2 (Z.leb_le (zlen pre) _)) by zl. simpl.
  replace (zlen pre + zlen rest - zlen pre) with (zlen rest) by lia.
  rewrite !u32_id by zl. rewrite drop_pre, take_pre by zl.
  rewrite memlcpy_fits by zl. eexists. split; [done|]. zl.
Qed.

Lemma read_cstr_app s rest : no_nul s -> read_cstr (s ++ 0 :: rest) = Some s.
Proof.
  intros Hs. unfold read_cstr. rewrite bool_decide_true by set_solver. by rewrite cstr_app.
Qed.

Lemma no_nul_app s t : no_nul (s ++ t) <-> no_nul s /\ no_nul t.
Proof. unfold no_nul. set_solver. Qed.

Lemma no_nul_cons c s : no_nul (c :: s) <-> c <> 0 /\ no_nul s.
Proof. unfold no_nul. set_solver. Qed.

Lemma no_nul_dec s : forallb (fun c => negb (c =? 0)) s = true -> no_nul s.
Proof.
  intros H x Hx. apply list_elem_of_In in Hx. eapply forallb_forall in H; [|exact Hx].
  by apply negb_true_iff, Z.eqb_neq in H.
Qed.

Lemma bytes_dec l : forallb (fun b => (0 <=? b) && (b <? 256)) l = true -> Forall is_byte l.
Proof.
  intros H. apply Forall_forall. intros x Hx. eapply forallb_forall in H; [|exact Hx].
  btest. unfold is_byte. lia.
Qed.

(** ** Hexadecimal *)

Lemma fmt_02X_byte n : 0 <= n < W8 -> fmt_02X n = [hexdigit (n / 16); hexdigit (n mod 16)].
Proof.
  intros Hn. unfold fmt_02X. change (hex_digits 8 n) with
    (if n <? 16 then [hexdigit n] else hex_digits 7 (n / 16) ++ [hexdigit (n mod 16)]).
  destruct (n <? 16) eqn:E; btest.
  - rewrite Z.div_small, Z.mod_small by lia. done.
  - change (hex_digits 7 (n / 16)) with
      (if n / 16 <? 16 then [hexdigit (n / 16)]
       else hex_digits 6 (n / 16 / 16) ++ [hexdigit (n / 16 mod 16)]).
    rewrite (proj2 (Z.ltb_lt (n / 16) 16)) by (apply Z.div_lt_upper_bound; lia). done.
Qed.

Lemma hexdigit_nonzero d : 0 <= d < 16 -> hexdigit d <> 0.
Proof. unfold hexdigit. bcase; lia. Qed.

Lemma fmt_02X_len n : 0 <= n < W8 -> length (fmt_02X n) = 2%nat.
Proof. intros H. by rewrite fmt_02X_byte. Qed.

Lemma fmt_02X_no_nul n : 0 <= n < W8 -> no_nul (fmt_02X n).
Proof.
  intros H. rewrite fmt_02X_byte by done. rewrite !no_nul_cons.
  pose proof (Z.mod_pos_bound n 16 ltac:(lia)).
  pose proof (Z.div_pos n 16). pose proof (Z.div_lt_upper_bound n 16 16).
  split_and!; [apply hexdigit_nonzero; lia..|]. by intros ? ?%elem_of_nil.
Qed.

Lemma hex_text_len bs : Forall is_byte bs -> length (hex_text bs) = (2 * length bs)%nat.
Proof.
  induction 1 as [|b bs Hb _ IH]; [done|]. change (hex_text (b :: bs)) with (fmt_02X b ++ hex_text bs).
  rewrite length_app, IH, fmt_02X_len by done. simpl. lia.
Qed.

(** ** The pair swap *)

Fixpoint pairswap (s : list Z) : list Z :=
  match s with
  | a :: b :: r => b :: a :: pairswap r
  | _ => s
  end.

Lemma xor_swap_ok pre a b rest :
  xor_swap (pre ++ a :: b :: rest) (zlen pre) = Some (pre ++ b :: a :: rest).
Proof.
  unfold xor_swap, zlen. rewrite Nat2Z.id, Z2Nat.inj_add, Nat2Z.id by lia. change (Z.to_nat 1) with 1%nat.
  rewrite (lookup_app_r pre _ (length pre)), Nat.sub_diag by lia. simpl.
  rewrite (lookup_app_r pre) by lia. replace (length pre + 1 - length pre)%nat with 1%nat by lia. simpl.
  rewrite (insert_app_r_alt pre _ (length pre)), Nat.sub_diag by lia. simpl.
  rewrite (insert_app_r_alt pre) by lia. replace (length pre + 1 - length pre)%nat with 1%nat by lia. simpl.
  assert (Z.lxor (Z.lxor a b) b = a) as ->.
  { by rewrite Z.lxor_assoc, Z.lxor_nilpotent, Z.lxor_0_r. }
  assert (Z.lxor (Z.lxor a b) a = b) as ->.
  { by rewrite (Z.lxor_comm a b), Z.lxor_assoc, Z.lxor_nilpotent, Z.lxor_0_r. }
  done.
Qed.

Lemma swap_loop_pairs k fuel pre m rest len :
  length m = (2 * k)%nat -> (k <= fuel)%nat -> zlen pre + zlen m < 255 ->
  len <= zlen pre + zlen m < len + 2 ->
  swap_loop fuel (zlen pre) len (pre ++ m ++ rest) = Some (pre ++ pairswap m ++ rest).
Proof.
  revert fuel pre m. induction k as [|k IH]; intros fuel pre m Hm Hf Hb Hl.
  - destruct m; [|done]. simpl. destruct fuel; simpl; (bcase; [zl|done]).
  - destruct m as [|a [|b m]]; try (simpl in Hm; lia). destruct fuel as [|fuel]; [lia|].
    simpl. rewrite (proj2 (Z.ltb_lt _ len)) by zl. rewrite xor_swap_ok. simpl.
    rewrite u8_id by zl.
    replace (zlen pre + 2) with (zlen (pre ++ [b; a])) by zl.
    replace (pre ++ b :: a :: m ++ rest) with ((pre ++ [b; a]) ++ m ++ rest) by (by rewrite <- app_assoc).
    rewrite IH; [by rewrite <- app_assoc|simpl in Hm; lia|lia|zl|zl].
Qed.

Lemma list_pair_ind (P : list Z -> Prop) :
  P [] -> (forall a, P [a]) -> (forall a b r, P r -> P (a :: b :: r)) -> forall s, P s.
Proof.
  intros H0 H1 H2. fix IH 1. intros [|a [|b r]]; [done|apply H1|]. apply H2, IH.
Qed.

Definition odd_len (s : list Z) : bool := negb (zlen s mod 2 =? 0).

Lemma odd_len_pair a b s : odd_len (a :: b :: s) = odd_len s.
Proof.
  unfold odd_len, zlen. replace (Z.of_nat (length (a :: b :: s))) with (Z.of_nat (length s) + 1 * 2) by (simpl; lia).
  by rewrite Z.mod_add.
Qed.

Lemma semi_pairswap s : semi s = pairswap (if odd_len s then s ++ [70] else s).
Proof.
  induction s as [|a|a b r IH] using list_pair_ind; [done|done|].
  rewrite odd_len_pair. simpl. rewrite IH. by destruct (odd_len r).
Qed.

Lemma padded_even s : exists k, length (if odd_len s then s ++ [70] else s) = (2 * k)%nat.
Proof.
  induction s as [|a|a b r IH] using list_pair_ind; [by exists 0%nat|by exists 1%nat|].
  destruct IH as [k Hk]. exists (S k). rewrite odd_len_pair.
  destruct (odd_len r); simpl in *; lia.
Qed.

Lemma semi_length s : length (semi s) = length (if odd_len s then s ++ [70] else s).
Proof.
  induction s as [|a|a b r IH] using list_pair_ind; [done|done|].
  rewrite odd_len_pair. simpl. rewrite IH. by destruct (odd_len r).
Qed.

Lemma semi_bounds s : (length s <= length (semi s) <= length s + 1)%nat /\ (length (semi s) mod 2 = 0)%nat.
Proof.
  induction s as [|a|a b r IH] using list_pair_ind; [split; [simpl; lia|done]..|].
  destruct IH as [? IH]. simpl length. split; [lia|].
  replace (S (S (length (semi r)))) with (length (semi r) + 1 * 2)%nat by lia.
  by rewrite Nat.Div0.mod_add.
Qed.

Lemma semi_no_nul s : no_nul s -> no_nul (semi s).
Proof.
  induction s as [|a|a b r IH] using list_pair_ind; [done| |]; simpl; rewrite !no_nul_cons; naive_solver.
Qed.

(** The pad is not a digit, so the number can be read back. *)
Lemma unsemi_semi s : 70 ∉ s -> unsemi (semi s) = s.
Proof.
  induction s as [|a|a b r IH] using list_pair_ind; intros H; [done|done|].
  simpl. rewrite !not_elem_of_cons in H. bcase; [naive_solver|]. rewrite IH by tauto. done.
Qed.

Lemma pairswap_app m1 m2 k : length m1 = (2 * k)%nat -> pairswap (m1 ++ m2) = pairswap m1 ++ pairswap m2.
Proof.
  revert m1. induction k as [|k IH]; intros m1 Hm; [by destruct m1|].
  destruct m1 as [|a [|b m1]]; try (simpl in Hm; lia). simpl. rewrite IH; [done|simpl in Hm; lia].
Qed.

(** ** The three encoders, for numbers that fit *)

Lemma even_pad s : zlen (semi s) mod 2 = 0 /\ zlen s <= zlen (semi s) <= zlen s + 1.
Proof.
  destruct (semi_bounds s) as [? H]. unfold zlen. split; [|lia].
  change 2 with (Z.of_nat 2). rewrite <- Nat2Z.inj_mod, H. done.
Qed.

Definition smsc_text (smsc : list Z) : list Z :=
  fmt_02X ((2 + zlen (semi smsc)) / 2) ++ str "91" ++ semi smsc.

Lemma no_nul_str91 s : no_nul s -> no_nul (str "91" ++ s).
Proof. intros. apply no_nul_app. split; [by apply no_nul_dec|done]. Qed.

Lemma message_center_phone_change_ok smsc :
  no_nul smsc -> 2 <= zlen smsc <= 58 ->
  exists rest, message_center_phone_change (Some (43 :: smsc)) (Some (replicate 64 0)) 64
    = Some (Some (smsc_text smsc ++ 0 :: rest), zlen (smsc_text smsc)).
Proof.
  intros Hno Hl. unfold message_center_phone_change.
  change (64 =? 0) with false. cbn iota. rewrite u8_id by zl.
  rewrite (proj2 (Z.ltb_ge (zlen (43 :: smsc)) 3)) by zl.
  change (default 0 ((43 :: smsc) !! 0%nat) =? 43) with true. cbn [negb andb].
  change (drop 1 (43 :: smsc)) with smsc.
  set (P := if odd_len smsc then smsc ++ [70] else smsc).
  assert ((if zlen smsc mod 2 =? 0 then str "91" ++ smsc else str "91" ++ smsc ++ str "F")
          = str "91" ++ P) as ->.
  { unfold P, odd_len. by destruct (zlen smsc mod 2 =? 0). }
  assert (no_nul P) as HP.
  { unfold P. destruct (odd_len smsc); [|done]. apply no_nul_app. split; [done|by apply no_nul_dec]. }
  assert (zlen P = zlen (semi smsc)) as HPl by (unfold zlen, P; by rewrite semi_length).
  destruct (even_pad smsc) as [_ Hb].
  rewrite snprintf_ok by zl. cbn [mbind option_bind].
  rewrite read_cstr_app by (by apply no_nul_str91). cbn [mbind option_bind].
  replace (u8 (zlen (str "91" ++ P))) with (2 + zlen P) by (rewrite u8_id; zl).
  destruct (padded_even smsc) as [k Hk]. fold P in Hk.
  change 2 with (zlen (str "91")) at 1. rewrite <- app_assoc.
  rewrite (swap_loop_pairs k 64 (str "91") P) by zl. cbn [mbind option_bind].
  replace (pairswap P) with (semi smsc) by apply semi_pairswap. rewrite app_assoc.
  rewrite read_cstr_app by (by apply no_nul_str91, semi_no_nul). cbn [mbind option_bind].
  change (zlen (str "91")) with 2. rewrite HPl.
  assert (0 <= (2 + zlen (semi smsc)) / 2 < 256) as Hq.
  { split; [apply Z.div_pos; lia|apply Z.div_lt_upper_bound; lia]. }
  change (fmt_02X ((2 + zlen (semi smsc)) / 2) ++ str "91" ++ semi smsc) with (smsc_text smsc).
  assert (zlen (smsc_text smsc) = 4 + zlen (semi smsc)) as Hsl.
  { unfold smsc_text, zlen. rewrite !length_app, fmt_02X_len by done. simpl. lia. }
  assert (zlen (replicate 64 0) = 64) as H64 by done. rewrite snprintf_ok by lia. simpl. eauto.
Qed.

Definition dest_text (phone : list Z) : list Z := semi (str "86" ++ phone).

Lemma message_dest_phone_change_ok phone :
  no_nul phone -> zlen phone <= 60 ->
  exists rest, message_dest_phone_change (Some phone) (Some (replicate 64 0)) 64
    = Some (Some (dest_text phone ++ 0 :: rest), zlen (dest_text phone)).
Proof.
  intros Hno Hl. unfold message_dest_phone_change. change (64 =? 0) with false. cbn iota.
  unfold dest_text. set (s := str "86" ++ phone).
  assert (no_nul s) as Hs by (apply no_nul_app; split; [by apply no_nul_dec|done]).
  assert (2 <= zlen s <= 62) as Hsl by (unfold s; zl).
  rewrite snprintf_ok by zl. cbn [mbind option_bind]. rewrite read_cstr_app by done. cbn [mbind option_bind].
  rewrite u8_id by lia. rewrite (proj2 (Z.eqb_neq (zlen s) 0)) by lia.
  change (str "F") with [70].
  assert (no_nul (s ++ [70])) as Hs' by (apply no_nul_app; split; [done|by apply no_nul_dec]).
  rewrite snprintf_ok by zl. cbn [mbind option_bind]. rewrite read_cstr_app by done. cbn [mbind option_bind].
  rewrite u8_id by zl. destruct (even_pad s) as [_ Hb].
  destruct (padded_even s) as [k Hk]. pose proof (semi_pairswap s) as Hsp.
  set (rest0 := drop _ _).
  assert (exists rest1, swap_loop 64 0 (zlen (s ++ [70])) ((s ++ [70]) ++ 0 :: rest0)
            = Some (semi s ++ 0 :: rest1)) as [rest1 ->].
  { destruct (odd_len s).
    - eexists. rewrite Hsp. apply (swap_loop_pairs k 64 [] (s ++ [70])); zl.
    - exists (70 :: rest0).
      replace ((s ++ [70]) ++ 0 :: rest0) with ((s ++ [70; 0]) ++ rest0) by (by rewrite <- !app_assoc).
      replace (semi s ++ 0 :: 70 :: rest0) with (pairswap (s ++ [70; 0]) ++ rest0)
        by (by rewrite (pairswap_app s [70; 0] k Hk), <- Hsp, <- app_assoc).
      apply (swap_loop_pairs (S k) 64 [] (s ++ [70; 0])); zl. }
  cbn [mbind option_bind]. rewrite read_cstr_app by (by apply semi_no_nul). cbn [mbind option_bind].
  rewrite snprintf_ok by zl. simpl. eauto.
Qed.

Lemma hex_loop_ok bs X rest ret :
  Forall is_byte bs -> zlen X = ret + 2 -> 0 <= ret -> zlen X + zlen rest = 2048 ->
  2 * zlen bs < zlen rest ->
  exists rest', hex_loop bs (X ++ rest) ret = Some (X ++ hex_text bs ++ rest', ret + 2 * zlen bs)
    /\ zlen rest' = zlen rest - 2 * zlen bs.
Proof.
  intros Hb. revert X rest ret. induction Hb as [|b bs Hb Hbs IH]; intros X rest ret HX Hr Ht Hroom.
  { exists rest. simpl. split; [|zl]. f_equal. f_equal. zl. }
  unfold is_byte in Hb. pose proof (fmt_02X_len b Hb) as Hlen.
  assert (zlen (b :: bs) = zlen bs + 1) as Hc by zl. rewrite Hc in *.
  assert (zlen (fmt_02X b) = 2) as Hl2 by (unfold zlen; by rewrite Hlen).
  cbn [hex_loop]. rewrite u8_id by lia. rewrite <- HX.
  pose proof (zlen_nonneg bs). unfold _4G_MESSAGE_SIZE.
  rewrite snprintf_at_app by lia. cbn [mbind option_bind]. rewrite Hl2.
  rewrite app_assoc.
  destruct (IH (X ++ fmt_02X b) (0 :: drop (S (length (fmt_02X b))) rest) (ret + 2)) as (rest' & -> & Hr').
  - zl.
  - lia.
  - zl.
  - zl.
  - exists rest'. change (hex_text (b :: bs)) with (fmt_02X b ++ hex_text bs).
    rewrite <- !app_assoc. split; [do 2 f_equal; lia|]. rewrite Hr'. zl.
Qed.

(** The user-data length is kept in an [unsigned char]: only that many bytes are sent. *)
Definition ucs2_text (out : list Z) : list Z :=
  fmt_02X (u8 (zlen out)) ++ hex_text (take (Z.to_nat (u8 (zlen out))) out).

Lemma Forall_take' {A} (P : A -> Prop) n l : Forall P l -> Forall P (take n l).
Proof. intros H. rewrite <- (take_drop n l) in H. by apply Forall_app in H as [? _]. Qed.

Lemma ucs2_text_len out : Forall is_byte out -> zlen (ucs2_text out) = 2 + 2 * u8 (zlen out).
Proof.
  intros Hb. pose proof (u8_range (zlen out)) as Hr.
  assert (u8 (zlen out) <= zlen out) by (unfold u8; apply Z.mod_le; [apply zlen_nonneg|lia]).
  unfold ucs2_text, zlen at 1.
  rewrite length_app, fmt_02X_len, hex_text_len by (done || by apply Forall_take').
  rewrite length_take, Nat.min_l by zl. lia.
Qed.

Section iconv.
Context (iconv : list Z -> Z -> option (list Z)).

Lemma message_ucs2_change_ok m out :
  iconv m 1024 = Some out -> Forall is_byte out ->
  exists rest, message_ucs2_change true iconv (Some m) (Some (replicate 1024 0)) 1024
    = Some (Some (ucs2_text out ++ rest), zlen (ucs2_text out))
    /\ zlen (ucs2_text out) + zlen rest = 1024.
Proof.
  intros Hi Hb. unfold message_ucs2_change, utf8_to_unicode, _4G_MESSAGE_SIZE.
  change (1024 =? 0) with false. cbn iota. unfold memset0.
  rewrite poke_exact by (rewrite !length_replicate; lia). cbn [mbind option_bind]. rewrite Hi.
  replace (1024 - (1024 - zlen out)) with (zlen out) by lia.
  pose proof (ucs2_text_len out Hb) as Hul. revert Hul. unfold ucs2_text.
  pose proof (u8_range (zlen out)) as Hr. set (len := u8 (zlen out)) in *. intros Hul.
  assert (len <= zlen out) as Hle by (unfold len, u8; apply Z.mod_le; [apply zlen_nonneg|lia]).
  assert (zlen (fmt_02X len) = 2) as Hl2 by (unfold zlen; by rewrite fmt_02X_len).
  assert (zlen (replicate 3 0) = 3) as H3 by done.
  rewrite snprintf_ok by lia. cbn [mbind option_bind].
  assert (zlen (take (Z.to_nat len) out) = len) as Htl.
  { unfold zlen. rewrite length_take, Nat.min_l by zl. lia. }
  change (replicate 2048 0) with ([0; 0] ++ replicate 2046 0).
  assert (zlen (replicate 2046 0) = 2046) as H2046 by done.
  destruct (hex_loop_ok (take (Z.to_nat len) out) [0; 0] (replicate 2046 0) 0)
    as (rest' & -> & Hr'); [by apply Forall_take'|done|lia|done|rewrite Htl; lia|].
  cbn [mbind option_bind]. rewrite fmt_02X_byte by lia. set (h := hex_text _) in *.
  rewrite fmt_02X_byte in Hul by lia. rewrite !u32_id by lia. rewrite Htl.
  assert (zlen ([hexdigit (len / 16); hexdigit (len mod 16)] ++ h) = 2 + 2 * len) as Hn by done.
  rewrite Hn.
  assert (zlen rest' = 2046 - 2 * len) as Hrl by (rewrite Hr', Htl; lia).
  assert (Z.of_nat (length h) = 2 * len) as Hh by zl.
  cbn [app insert list_insert default lookup list_lookup id].
  rewrite memlcpy_fits; [|lia|done|zl|lia|lia].
  replace (0 + 2 * len + 2) with (2 + 2 * len) by lia.
  exists (replicate (Z.to_nat (1024 - (2 + 2 * len))) 0). split; [|zl].
  do 3 f_equal. rewrite !app_comm_cons. f_equal. apply take_pre. zl.
Qed.
End iconv.

(** The part of the PDU behind the service centre: type 0x11, reference 0, destination address,
    protocol 0, coding 8 (UCS-2), validity 0, user data. *)
Definition tpdu (phone out : list Z) : list Z :=
  str "1100" ++ fmt_02X (zlen (dest_text phone)) ++ str "91" ++ dest_text phone
  ++ str "000800" ++ ucs2_text out.

Lemma dest_text_len phone : zlen phone <= 60 -> 2 <= zlen (dest_text phone) <= 63.
Proof. intros H. unfold dest_text. destruct (even_pad (str "86" ++ phone)). zl. Qed.

Lemma smsc_text_len smsc : zlen smsc <= 58 -> 0 <= zlen (smsc_text smsc) <= 63.
Proof.
  intros H. destruct (even_pad smsc) as [_ ?]. pose proof (zlen_nonneg smsc).
  assert (0 <= (2 + zlen (semi smsc)) / 2 < W8) as Hq.
  { split; [apply Z.div_pos; lia|apply Z.div_lt_upper_bound; lia]. }
  pose proof (fmt_02X_len _ Hq) as Hf. unfold smsc_text. set (f := fmt_02X _) in *. clearbody f. zl.
Qed.

Section layout.
Context (iconv : list Z -> Z -> option (list Z)).

Lemma combi_layout smsc phone m out dest :
  no_nul smsc -> 2 <= zlen smsc <= 58 -> no_nul phone -> zlen phone <= 60 ->
  iconv m 1024 = Some out -> Forall is_byte out -> zlen dest = 1024 ->
  exists rest,
    message_ucs2_combi_mesage true iconv (Some (43 :: smsc)) (Some phone) (Some m) dest 1024
    = Some (smsc_text smsc ++ tpdu phone out ++ 26 :: rest,
            zlen (smsc_text smsc) + zlen (tpdu phone out) + 1,
            Some (zlen (tpdu phone out) / 2))
    /\ zlen (smsc_text smsc) + zlen (tpdu phone out) + 1 + zlen rest = 1024.
Proof.
  intros Hs Hsl Hp Hpl Hi Hb Hd. unfold message_ucs2_combi_mesage.
  destruct (message_center_phone_change_ok smsc Hs Hsl) as [r1 ->]. cbn [mbind option_bind default from_option id].
  destruct (message_dest_phone_change_ok phone Hp Hpl) as [r2 ->].
  destruct (message_ucs2_change_ok iconv m out Hi Hb) as (r3 & -> & Hr3).
  pose proof (smsc_text_len smsc ltac:(lia)) as HS. pose proof (dest_text_len phone Hpl) as HD.
  pose proof (ucs2_text_len out Hb) as HU. pose proof (u8_range (zlen out)) as Hu.
  unfold tpdu. set (S := smsc_text smsc) in *. set (D := dest_text phone) in *.
  set (U := ucs2_text out) in *. set (L := fmt_02X (zlen D)).
  assert (zlen L = 2) as HL by (pose proof (fmt_02X_len (zlen D) ltac:(lia)) as Hf; fold L in Hf; zl).
  bcase; [lia|]. cbn [default from_option id].
  (* the service centre *)
  destruct (memlcpy_at_app [] dest (S ++ 0 :: r1) (zlen S)) as (d1 & E1 & H1); [zl|lia|lia|zl|].
  change (zlen (@nil Z)) with 0 in E1. rewrite Hd in E1. change (0 + 1024) with 1024 in E1. cbn [app] in E1. rewrite E1. clear E1.
  rewrite take_pre by zl. cbn [mbind option_bind default from_option id].
  (* type, reference, address length and type *)
  rewrite u32_id by lia. fold L. set (H := str "1100" ++ L ++ str "91").
  assert (zlen H = 8) as HH by (unfold H; zl).
  rewrite snprintf_at_app by lia. cbn [mbind option_bind default from_option id].
  set (d2 := 0 :: drop _ d1). rewrite app_assoc.
  assert (zlen d2 = 1024 - zlen S - 8) as H2 by (unfold d2; zl).
  rewrite HH. replace (zlen S + 8) with (zlen (S ++ H)) by zl.
  (* the address *)
  destruct (memlcpy_at_app (S ++ H) d2 (D ++ 0 :: r2) (zlen D)) as (d3 & E3 & H3); [zl|lia|lia|zl|].
  replace (zlen (S ++ H) + zlen d2) with 1024 in E3 by zl. rewrite E3. clear E3.
  rewrite take_pre by zl. cbn [mbind option_bind default from_option id]. rewrite app_assoc.
  replace (zlen (S ++ H) + zlen D) with (zlen ((S ++ H) ++ D)) by zl.
  (* protocol, coding, validity *)
  assert (zlen ((S ++ H) ++ D) = zlen S + 8 + zlen D) as HSHD by zl.
  assert (zlen (str "000800") = 6) as H6 by done.
  rewrite snprintf_at_app by lia. cbn [mbind option_bind default from_option id]. rewrite H6.
  set (d4 := 0 :: drop _ d3). rewrite app_assoc.
  assert (zlen d4 = 1024 - zlen S - 8 - zlen D - 6) as H4 by (unfold d4; zl).
  replace (zlen ((S ++ H) ++ D) + 6) with (zlen (((S ++ H) ++ D) ++ str "000800")) by zl.
  (* the user data *)
  set (Q := ((S ++ H) ++ D) ++ str "000800"). assert (zlen Q = zlen S + 8 + zlen D + 6) as HQ by (unfold Q; zl).
  destruct (memlcpy_at_app Q d4 (U ++ r3) (zlen U)) as (d5 & E5 & H5); [zl|lia|lia|lia|].
  replace (zlen Q + zlen d4) with 1024 in E5 by lia. rewrite E5. clear E5.
  rewrite take_pre by zl. cbn [mbind option_bind default from_option id]. rewrite app_assoc.
  assert (zlen (Q ++ U) = zlen Q + zlen U) as HQU by zl.
  assert (0 < zlen d5) as Hd5 by lia. destruct d5 as [|x d5]; [done|].
  rewrite (proj2 (Z.leb_le 0 _)), (proj2 (Z.ltb_lt _ _)) by zl. cbn [andb].
  exists d5. split; [|zl]. rewrite insert_app_r_alt by zl.
  replace (Z.to_nat (zlen Q + zlen U) - length (Q ++ U))%nat with 0%nat by zl. cbn [insert list_insert].
  rewrite Z.quot_div_nonneg by lia.
  assert (8 + zlen D + 6 + zlen U = zlen (str "1100" ++ L ++ str "91" ++ D ++ str "000800" ++ U)) as <- by zl.
  rewrite HQ. unfold Q, H. rewrite <- !app_assoc. do 3 f_equal. lia.
Qed.
End layout.

(** C34. Short-message PDU: for a service centre number "+..." and a phone number that fit the
    local arrays and a text [iconv] converts, the builder reads and writes only inside its
    arrays and leaves in the destination the service centre and the SMS-SUBMIT TPDU, the numbers
    as swapped semi-octets that decode to the numbers given, then the 0x1A that ends the command;
    it returns the length and, for AT+CMGS, the number of octets of the TPDU.  Of the converted
    text only the length modulo 256 is sent. *)
Theorem sms_pdu_layout (iconv : list Z -> Z -> option (list Z)) smsc phone m out dest :
  no_nul smsc -> 2 <= zlen smsc <= 58 -> no_nul phone -> zlen phone <= 60 ->
  iconv m 1024 = Some out -> Forall is_byte out -> zlen dest = 1024 ->
  70 ∉ smsc -> 70 ∉ phone ->
  exists rest,
    message_ucs2_combi_mesage true iconv (Some (43 :: smsc)) (Some phone) (Some m) dest 1024
    = Some (smsc_text smsc ++ tpdu phone out ++ 26 :: rest,
            zlen (smsc_text smsc) + zlen (tpdu phone out) + 1, Some (zlen (tpdu phone out) / 2))
    /\ unsemi (drop 4 (smsc_text smsc)) = smsc /\ unsemi (dest_text phone) = str "86" ++ phone.
Proof.
  intros Hs Hsl Hp Hpl Hi Hb Hd HFs HFp.
  destruct (combi_layout iconv smsc phone m out dest) as (rest & -> & _); [done..|].
  exists rest. split; [done|]. split.
  - unfold smsc_text. rewrite app_assoc, drop_pre; [by apply unsemi_semi|].
    destruct (even_pad smsc) as [_ ?].
    rewrite length_app, fmt_02X_len; [done|]. split; [apply Z.div_pos; lia|apply Z.div_lt_upper_bound; lia].
  - apply unsemi_semi. rewrite elem_of_app. intros [H|H]; [|done]. vm_compute in H. set_solver.
Qed.

(** A text of 128 two-byte characters is sent empty: its 256 bytes have length 0. *)
Lemma sms_pdu_layout_witness :
  exists rest,
    message_ucs2_combi_mesage true (fun m _ => Some (concat ((fun c => [0; c]) <$> m)))
      (Some (str "+8613800100500")) (Some (str "13512345678")) (Some (replicate 128 65))
      (replicate 1024 0) 1024
    = Some (str "0891683108100005F0" ++ str "11000E91683115325476F800080000" ++ 26 :: rest, 49, Some 15).
Proof.
  destruct (sms_pdu_layout (fun m _ => Some (concat ((fun c => [0; c]) <$> m)))
              (str "8613800100500") (str "13512345678") (replicate 128 65)
              (concat ((fun c => [0; c]) <$> replicate 128 65)) (replicate 1024 0))
    as (rest & H & _).
  - by apply no_nul_dec.
  - by vm_compute.
  - by apply no_nul_dec.
  - by vm_compute.
  - done.
  - by apply bytes_dec.
  - done.
  - by apply (bool_decide_unpack _).
  - by apply (bool_decide_unpack _).
  - exists rest. exact H.
Defined.

(** A text that does not convert is not noticed: the value -1 of the encoder becomes a length,
    the rest of the destination is filled and the 0x1A is stored one byte behind its end. *)
Lemma unconvertible_text_overflows :
  message_ucs2_combi_mesage true (fun _ _ => None) (Some (str "+8613800100500"))
    (Some (str "13512345678")) (Some (str "?")) (replicate 1024 0) 1024 = None.
Proof. by vm_compute. Qed.
