(* ===== verification/LinkList.v ===== *)
(** * opbox/list.h: the intrusive doubly linked lists

    The nodes are in a store of [next] and [prev] fields indexed by address; reading or writing a
    field of a node that is not allocated (the null pointer among them) is [None].  The functions
    perform the loads and stores of the header in its order.  [is_list h head l] says that the
    ring of [head] is the sequence [l], and the theorems relate each function to the operation on
    the sequence. *)

From S2P Require Import Prelude.
From stdpp Require Import base tactics numbers list gmap.
From Stdlib Require Import ZArith Lia.
Open Scope Z_scope.

Module LinkList.

Record heap := Heap { nx : gmap Z Z; pv : gmap Z Z }.

Definition NULL : Z := 0.

Definition set_next (h : heap) (p v : Z) : option heap :=
  _ ← nx h !! p; Some (Heap (<[p := v]> (nx h)) (pv h)).
Definition set_prev (h : heap) (p v : Z) : option heap :=
  _ ← pv h !! p; Some (Heap (nx h) (<[p := v]> (pv h))).

Definition INIT_LIST_HEAD (h : heap) (list : Z) : option heap :=
  h ← set_prev h list list; set_next h list list.

Definition list_empty (h : heap) (head : Z) : option bool :=
  n ← nx h !! head; Some (n =? head).

Definition list_is_first (h : heap) (list head : Z) : option bool :=
  p ← pv h !! list; Some (p =? head).

Definition list_is_last (h : heap) (list head : Z) : option bool :=
  n ← nx h !! list; Some (n =? head).

Definition _list_del (h : heap) (entry : Z) : option heap :=
  n ← nx h !! entry; p ← pv h !! entry; h ← set_prev h n p;
  p ← pv h !! entry; n ← nx h !! entry; set_next h p n.

Definition list_del (h : heap) (entry : Z) : option heap :=
  h ← _list_del h entry; h ← set_prev h entry NULL; set_next h entry NULL.

Definition _list_add (h : heap) (_new prev next : Z) : option heap :=
  h ← set_prev h next _new; h ← set_next h _new next;
  h ← set_prev h _new prev; set_next h prev _new.

Definition list_del_init (h : heap) (entry : Z) : option heap :=
  h ← _list_del h entry; INIT_LIST_HEAD h entry.

Definition list_first_entry (h : heap) (head : Z) : option Z := nx h !! head.
Definition list_last_entry (h : heap) (head : Z) : option Z := pv h !! head.

(** [list_for_each(p, head)]: the nodes visited, from [p]. *)
Fixpoint walk (fuel : nat) (h : heap) (p head : Z) : option (list Z) :=
  if p =? head then Some []
  else match fuel with
  | O => None
  | S f => n ← nx h !! p; r ← walk f h n head; Some (p :: r)
  end.
Definition list_for_each (fuel : nat) (h : heap) (head : Z) : option (list Z) :=
  p ← nx h !! head; walk fuel h p head.

Definition list_add (h : heap) (_new head : Z) : option heap :=
  n ← nx h !! head; _list_add h _new head n.

Definition list_add_tail (h : heap) (_new head : Z) : option heap :=
  p ← pv h !! head; _list_add h _new p head.

Definition list_move (h : heap) (list head : Z) : option heap :=
  h ← _list_del h list; list_add h list head.

Definition list_move_tail (h : heap) (entry head : Z) : option heap :=
  h ← _list_del h entry; list_add_tail h entry head.

Definition _list_splice (h : heap) (list prev next : Z) : option heap :=
  e ← list_empty h list;
  if (e : bool) then Some h
  else
    first ← nx h !! list; last ← pv h !! list;
    h ← set_prev h first prev; h ← set_next h prev first;
    h ← set_next h last next; set_prev h next last.

Definition list_splice (h : heap) (list head : Z) : option heap :=
  n ← nx h !! head; _list_splice h list head n.
Definition list_splice_tail (h : heap) (list head : Z) : option heap :=
  p ← pv h !! head; _list_splice h list p head.
Definition list_splice_init (h : heap) (list head : Z) : option heap :=
  h ← list_splice h list head; INIT_LIST_HEAD h list.
Definition list_splice_tail_init (h : heap) (list head : Z) : option heap :=
  h ← list_splice_tail h list head; INIT_LIST_HEAD h list.

(** ** The ring of a list head *)

(** The nodes of [c] are linked in that order. *)
Fixpoint seg (h : heap) (c : list Z) : Prop :=
  match c with
  | x :: (y :: _) as r => nx h !! x = Some y /\ pv h !! y = Some x /\ seg h r
  | _ => True
  end.

Definition is_list (h : heap) (head : Z) (l : list Z) : Prop :=
  NoDup (head :: l) /\ seg h (head :: l ++ [head]).

Definition allocated (h : heap) (p : Z) : Prop := is_Some (nx h !! p) /\ is_Some (pv h !! p).

(** Only fields of nodes in [s] differ, and no node is freed or allocated. *)
Definition touches (s : list Z) (h h' : heap) : Prop :=
  (forall x, x ∉ s -> nx h' !! x = nx h !! x /\ pv h' !! x = pv h !! x) /\
  (forall x, allocated h' x <-> allocated h x).

(** ** Lemmas on segments *)

Lemma seg_app h c1 x c2 : seg h (c1 ++ x :: c2) <-> seg h (c1 ++ [x]) /\ seg h (x :: c2).
Proof.
  induction c1 as [|a [|b c1] IH]; simpl in *; [tauto|destruct c2; tauto|]. rewrite IH. tauto.
Qed.

Lemma seg_frame h h' c :
  (forall x, x ∈ removelast c -> nx h' !! x = nx h !! x) ->
  (forall y, y ∈ tail c -> pv h' !! y = pv h !! y) ->
  seg h c -> seg h' c.
Proof.
  induction c as [|x [|y c] IH]; [done..|]. intros Hn Hp (H1 & H2 & H3).
  change (removelast (x :: y :: c)) with (x :: removelast (y :: c)) in Hn. split_and!.
  - rewrite Hn; [done|by left].
  - rewrite Hp; [done|by left].
  - apply IH; [intros z Hz; apply Hn; by right| |done]. intros z Hz. apply Hp. by right.
Qed.

Lemma removelast_mid {A} (c1 : list A) x c2 : removelast (c1 ++ x :: c2) = c1 ++ removelast (x :: c2).
Proof. by apply removelast_app. Qed.

Lemma removelast_ring (head : Z) (l : list Z) : removelast (head :: l ++ [head]) = head :: l.
Proof. change (head :: l ++ [head]) with ((head :: l) ++ [head]). apply removelast_last. Qed.

Lemma tail_ring_nodup (head : Z) (l : list Z) : NoDup (head :: l) -> NoDup (tail (head :: l ++ [head])).
Proof. simpl. intros [? ?]%NoDup_cons. apply NoDup_app. split; [done|]. split; [set_solver|apply NoDup_singleton]. Qed.

Lemma elem_of_tail {A} (x : A) l : x ∈ tail l -> x ∈ l.
Proof. destruct l; [done|]. by right. Qed.

Lemma elem_of_removelast {A} (x : A) l : x ∈ removelast l -> x ∈ l.
Proof.
  induction l as [|a [|b l] IH]; [done|by intros ?%elem_of_nil|].
  change (removelast (a :: b :: l)) with (a :: removelast (b :: l)).
  intros [->|H]%elem_of_cons; [by left|right; by apply IH].
Qed.

Lemma seg_lookup h c1 x y c2 :
  seg h (c1 ++ x :: y :: c2) -> nx h !! x = Some y /\ pv h !! y = Some x.
Proof. rewrite seg_app. intros [_ H]. simpl in H. tauto. Qed.

(** The last node of a segment's front, and the first of its back, are not met again. *)
Lemma tail_mid_nodup {A} (c1 : list A) p n c2 y :
  NoDup (tail (c1 ++ p :: n :: c2)) -> y ∈ tail (c1 ++ [p]) -> y ∉ n :: c2.
Proof.
  destruct c1 as [|a c1]; simpl; [by intros _ ?%elem_of_nil|].
  intros Hnd Hy Hn. change (c1 ++ p :: n :: c2) with (c1 ++ [p] ++ n :: c2) in Hnd.
  rewrite app_assoc in Hnd. apply NoDup_app in Hnd as (_ & Hd & _). by apply (Hd y).
Qed.

Lemma tail_back_nodup {A} (c1 : list A) p n c2 :
  NoDup (tail (c1 ++ p :: n :: c2)) -> NoDup (n :: c2).
Proof.
  destruct c1 as [|a c1]; simpl; [done|].
  change (c1 ++ p :: n :: c2) with (c1 ++ [p] ++ n :: c2). rewrite app_assoc.
  intros (_ & _ & ?)%NoDup_app. done.
Qed.

(** Writing a field of an allocated node allocates nothing. *)
Lemma insert_alloc (m : gmap Z Z) p v x :
  is_Some (m !! p) -> is_Some (<[p := v]> m !! x) <-> is_Some (m !! x).
Proof. intros Hp. rewrite lookup_insert_is_Some. destruct (decide (p = x)); naive_solver. Qed.

Ltac alloc := repeat first [eassumption | by eexists | apply insert_alloc | rewrite insert_alloc].

(** Inserting between two neighbours. *)
Lemma list_add_seg h c1 p n c2 new :
  let c := c1 ++ p :: n :: c2 in
  seg h c -> NoDup (removelast c) -> NoDup (tail c) -> new ∉ c -> allocated h new ->
  exists h', _list_add h new p n = Some h' /\ seg h' (c1 ++ p :: new :: n :: c2) /\ touches [new; p; n] h h'.
Proof.
  simpl. intros Hseg Hn1 Hn2 Hnew [[vn Hvn] [vp Hvp]].
  destruct (seg_lookup _ _ _ _ _ Hseg) as [Hp Hn].
  assert (new <> p /\ new <> n) as [Hnp Hnn] by set_solver.
  unfold _list_add, set_prev, set_next. rewrite Hn. simpl. rewrite Hvn. simpl.
  rewrite lookup_insert_ne, Hvp by done. simpl. rewrite lookup_insert_ne, Hp by done. simpl.
  eexists. split; [done|]. split; [|split].
  - apply seg_app in Hseg as [S1 (_ & _ & S2)].
    rewrite removelast_mid in Hn1. apply NoDup_app in Hn1 as (_ & Hd & Hn1).
    change (removelast (p :: n :: c2)) with (p :: removelast (n :: c2)) in *.
    apply NoDup_cons in Hn1 as [Hpn _].
    rewrite seg_app. split; [|split; [|split; [|split; [|split]]]]; cbn [nx pv].
    + revert S1. apply seg_frame; cbn [nx pv].
      * intros x Hx. rewrite removelast_last in Hx.
        rewrite !lookup_insert_ne; [done|set_solver|]. intros ->. apply (Hd x Hx). by left.
      * intros y Hy. pose proof (tail_mid_nodup _ _ _ _ _ Hn2 Hy).
        pose proof (elem_of_tail _ _ Hy). rewrite !lookup_insert_ne; [done|set_solver|set_solver].
    + by rewrite lookup_insert_eq.
    + by rewrite lookup_insert_eq.
    + rewrite lookup_insert_ne by done. by rewrite lookup_insert_eq.
    + rewrite lookup_insert_ne by done. by rewrite lookup_insert_eq.
    + revert S2. apply seg_frame; cbn [nx pv].
      * intros x Hx. pose proof (elem_of_removelast _ _ Hx).
        rewrite !lookup_insert_ne; [done|set_solver|]. intros ->. done.
      * intros y Hy. apply tail_back_nodup, NoDup_cons in Hn2 as [? _].
        rewrite !lookup_insert_ne; [done|set_solver|set_solver].
  - simpl. intros x Hx. rewrite !lookup_insert_ne by set_solver. done.
  - intros x. unfold allocated. simpl. by rewrite !insert_alloc by alloc.
Qed.

(** Unlinking a node from between its neighbours. *)
Lemma list_del_seg h c1 p e n c2 :
  let c := c1 ++ p :: e :: n :: c2 in
  seg h c -> NoDup (removelast c) -> NoDup (tail c) ->
  exists h', _list_del h e = Some h' /\ seg h' (c1 ++ p :: n :: c2) /\ touches [p; n] h h'
    /\ nx h' !! e = Some n /\ pv h' !! e = Some p.
Proof.
  simpl. intros Hseg Hn1 Hn2.
  destruct (seg_lookup _ _ _ _ _ Hseg) as [Hp He].
  assert (seg h ((c1 ++ [p]) ++ e :: n :: c2)) as Hseg2 by (by rewrite <- app_assoc).
  destruct (seg_lookup _ _ _ _ _ Hseg2) as [He' Hn].
  pose proof (tail_back_nodup _ _ _ _ Hn2) as Hen. apply NoDup_cons in Hen as [Hen Hnc].
  assert (e <> n) as Hen' by set_solver.
  rewrite removelast_mid in Hn1. apply NoDup_app in Hn1 as (_ & Hd & Hn1).
  change (removelast (p :: e :: n :: c2)) with (p :: e :: removelast (n :: c2)) in *.
  apply NoDup_cons in Hn1 as [Hpn Hn1]. apply NoDup_cons in Hn1 as [Hen1 _].
  assert (e <> p) as Hep by set_solver.
  unfold _list_del, set_prev, set_next. rewrite He', He. simpl. rewrite Hn. simpl.
  rewrite lookup_insert_ne, He by done. simpl. rewrite He'. simpl. rewrite Hp. simpl.
  eexists. split; [done|]. split; [|split; [split|]].
  - apply seg_app in Hseg as [S1 (_ & _ & _ & _ & S2)].
    rewrite seg_app. split; [|split; [|split]]; cbn [nx pv].
    + revert S1. apply seg_frame; cbn [nx pv].
      * intros x Hx. rewrite removelast_last in Hx.
        rewrite !lookup_insert_ne; [done|]. intros ->. apply (Hd x Hx). by left.
      * intros y Hy. pose proof (tail_mid_nodup _ _ _ _ _ Hn2 Hy).
        rewrite !lookup_insert_ne; [done|set_solver].
    + by rewrite lookup_insert_eq.
    + by rewrite lookup_insert_eq.
    + revert S2. apply seg_frame; cbn [nx pv].
      * intros x Hx. rewrite !lookup_insert_ne; [done|]. intros ->. set_solver.
      * intros y Hy. apply NoDup_cons in Hnc as [? _]. rewrite !lookup_insert_ne; [done|set_solver].
  - simpl. intros x Hx. rewrite !lookup_insert_ne by set_solver. done.
  - intros x. unfold allocated. simpl. by rewrite !insert_alloc by alloc.
  - simpl. rewrite !lookup_insert_ne by done. done.
Qed.

(** ** The operations on the sequence of a ring *)

Lemma snoc_view (x : Z) l : exists c p, x :: l = c ++ [p].
Proof. destruct (exists_last (l := x :: l)) as (c & p & ->); [done|]. eauto. Qed.

Lemma touches_weaken s s' h h' : (forall x, x ∈ s -> x ∈ s') -> touches s h h' -> touches s' h h'.
Proof. intros Hs [H1 H2]. split; [|done]. intros x Hx. apply H1. auto. Qed.

Lemma touches_trans s h1 h2 h3 : touches s h1 h2 -> touches s h2 h3 -> touches s h1 h3.
Proof.
  intros [A1 B1] [A2 B2]. split; [|intros x; by rewrite B2, B1].
  intros x Hx. destruct (A1 x Hx) as [<- <-]. by apply A2.
Qed.

Lemma is_list_frame h h' head l s :
  is_list h head l -> touches s h h' -> (forall x, x ∈ head :: l -> x ∉ s) -> is_list h' head l.
Proof.
  intros [Hnd Hseg] [Ht _] Hs. split; [done|]. revert Hseg. apply seg_frame.
  - intros x Hx. rewrite removelast_ring in Hx. by apply Ht, Hs.
  - intros y Hy. simpl in Hy. apply Ht, Hs. set_solver.
Qed.

Lemma list_add_tail_spec h head l new :
  is_list h head l -> new ∉ head :: l -> allocated h new ->
  exists h', list_add_tail h new head = Some h' /\ is_list h' head (l ++ [new]) /\
    touches (new :: head :: l) h h'.
Proof.
  intros [Hnd Hseg] Hnew Ha. destruct (snoc_view head l) as (c & p & E).
  assert (head :: l ++ [head] = c ++ p :: head :: []) as Er.
  { change (head :: l ++ [head]) with ((head :: l) ++ [head]). rewrite E, <- app_assoc. done. }
  assert (new ∉ head :: l ++ [head]) as Hn by set_solver.
  pose proof (tail_ring_nodup head l Hnd) as Ht. pose proof (removelast_ring head l) as Hr.
  rewrite Er in *. destruct (list_add_seg h c p head [] new) as (h' & Hrun & Hs' & Hto); [done|by rewrite Hr|done..|].
  exists h'. unfold list_add_tail. destruct (seg_lookup _ _ _ _ _ Hseg) as [_ ->]. simpl. split; [done|].
  split; [split|].
  - apply NoDup_cons. apply NoDup_cons in Hnd as [? ?]. split; [set_solver|].
    apply NoDup_app. split; [done|]. split; [set_solver|apply NoDup_singleton].
  - replace (head :: (l ++ [new]) ++ [head]) with (c ++ p :: new :: [head]); [done|].
    rewrite <- app_assoc. change (head :: l ++ [new] ++ [head]) with ((head :: l) ++ [new; head]).
    by rewrite E, <- app_assoc.
  - revert Hto. apply touches_weaken. assert (p ∈ head :: l) by (rewrite E; set_solver). set_solver.
Qed.

Lemma list_add_spec h head l new :
  is_list h head l -> new ∉ head :: l -> allocated h new ->
  exists h', list_add h new head = Some h' /\ is_list h' head (new :: l) /\
    touches (new :: head :: l) h h'.
Proof.
  intros [Hnd Hseg] Hnew Ha.
  assert (exists n c2, l ++ [head] = n :: c2 /\ n ∈ head :: l) as (n & c2 & E & Hnl).
  { destruct l as [|n l]; [exists head, []|exists n, (l ++ [head])]; (split; [done|set_solver]). }
  assert (new ∉ head :: l ++ [head]) as Hn by set_solver.
  pose proof (tail_ring_nodup head l Hnd) as Ht. pose proof (removelast_ring head l) as Hr.
  rewrite E in *. destruct (list_add_seg h [] head n c2 new) as (h' & Hrun & Hs' & Hto);
    [done|simpl app; by rewrite Hr|done..|].
  exists h'. unfold list_add. destruct (seg_lookup _ [] _ _ _ Hseg) as [-> _]. simpl. split; [done|].
  split; [split|].
  - apply NoDup_cons in Hnd as [? ?]. apply NoDup_cons. split; [set_solver|].
    apply NoDup_cons. split; [set_solver|done].
  - simpl app in *. by rewrite E.
  - revert Hto. apply touches_weaken. set_solver.
Qed.

(** Unlinking leaves the node's own fields. *)
Lemma _list_del_spec h head l1 e l2 :
  is_list h head (l1 ++ e :: l2) ->
  exists h', _list_del h e = Some h' /\ is_list h' head (l1 ++ l2) /\
    touches (head :: l1 ++ l2) h h' /\ allocated h' e /\ e ∉ head :: l1 ++ l2.
Proof.
  intros [Hnd Hseg]. destruct (snoc_view head l1) as (c & p & E).
  assert (exists n c2, l2 ++ [head] = n :: c2 /\ n ∈ head :: l2) as (n & c2 & E2 & Hnl).
  { destruct l2 as [|n l2]; [exists head, []|exists n, (l2 ++ [head])]; (split; [done|set_solver]). }
  assert (head :: (l1 ++ e :: l2) ++ [head] = c ++ p :: e :: n :: c2) as Er.
  { rewrite <- app_assoc. simpl. change (head :: l1 ++ e :: l2 ++ [head]) with ((head :: l1) ++ e :: l2 ++ [head]).
    by rewrite E, E2, <- app_assoc. }
  pose proof (tail_ring_nodup _ _ Hnd) as Ht. pose proof (removelast_ring head (l1 ++ e :: l2)) as Hr.
  rewrite Er in *. destruct (list_del_seg h c p e n c2) as (h' & Hrun & Hs' & Hto & Hne & Hpe);
    [done|by rewrite Hr|done|].
  assert (e ∉ head :: l1 ++ l2 /\ NoDup (head :: l1 ++ l2)) as [He Hnd'].
  { apply NoDup_cons in Hnd as [Hh Hnd]. rewrite <- Permutation_middle in Hnd.
    apply NoDup_cons in Hnd as [? ?]. split; [set_solver|]. apply NoDup_cons. split; [set_solver|done]. }
  exists h'. split_and!; [done|split; [done|]| |split; by eexists|done].
  - replace (head :: (l1 ++ l2) ++ [head]) with (c ++ p :: n :: c2); [done|].
    rewrite <- app_assoc, E2. change (head :: l1 ++ n :: c2) with ((head :: l1) ++ n :: c2).
    by rewrite E, <- app_assoc.
  - revert Hto. apply touches_weaken. assert (p ∈ head :: l1) by (rewrite E; set_solver). set_solver.
Qed.

Lemma set_fields h e v w :
  allocated h e ->
  exists h', (h ← set_prev h e v; set_next h e w) = Some h' /\ touches [e] h h' /\
    nx h' !! e = Some w /\ pv h' !! e = Some v.
Proof.
  intros [[n Hn] [p Hp]]. unfold set_prev, set_next. rewrite Hp. simpl. rewrite Hn. simpl.
  eexists. split; [done|]. split; [|simpl; by rewrite !lookup_insert_eq]. split.
  - intros x Hx. simpl. rewrite !lookup_insert_ne by set_solver. done.
  - intros x. unfold allocated. simpl. by rewrite !insert_alloc by alloc.
Qed.

(** [list_del] and [list_del_init] differ in what the node is left with. *)
Lemma del_fields_spec h head l1 e l2 v w :
  is_list h head (l1 ++ e :: l2) ->
  exists h', (h ← _list_del h e; h ← set_prev h e v; set_next h e w) = Some h' /\
    is_list h' head (l1 ++ l2) /\ touches (e :: head :: l1 ++ l2) h h' /\
    nx h' !! e = Some w /\ pv h' !! e = Some v.
Proof.
  intros Hl. destruct (_list_del_spec _ _ _ _ _ Hl) as (h1 & -> & Hl1 & Ht1 & Ha & He). simpl.
  destruct (set_fields h1 e v w Ha) as (h' & -> & Ht2 & Hf). exists h'. split; [done|]. split_and!; try apply Hf.
  - eapply is_list_frame; [done|done|]. set_solver.
  - eapply touches_trans; [eapply touches_weaken, Ht1|eapply touches_weaken, Ht2]; set_solver.
Qed.

(** The list after a ring operation, and the nodes it may be applied to. *)
Inductive lop := Add (x : Z) | AddTail (x : Z) | Del (x : Z) | DelInit (x : Z) | Move (x : Z) | MoveTail (x : Z).

Definition run_lop (h : heap) (head : Z) (o : lop) : option heap :=
  match o with
  | Add x => list_add h x head
  | AddTail x => list_add_tail h x head
  | Del x => list_del h x
  | DelInit x => list_del_init h x
  | Move x => list_move h x head
  | MoveTail x => list_move_tail h x head
  end.

Fixpoint run_lops (h : heap) (head : Z) (os : list lop) : option heap :=
  match os with
  | [] => Some h
  | o :: os => h ← run_lop h head o; run_lops h head os
  end.

(** The specification: a sequence of distinct nodes of the set [U]. *)
Inductive lstep (U : list Z) : list Z -> lop -> list Z -> Prop :=
| step_add x l : x ∈ U -> x ∉ l -> lstep U l (Add x) (x :: l)
| step_add_tail x l : x ∈ U -> x ∉ l -> lstep U l (AddTail x) (l ++ [x])
| step_del x l1 l2 : lstep U (l1 ++ x :: l2) (Del x) (l1 ++ l2)
| step_del_init x l1 l2 : lstep U (l1 ++ x :: l2) (DelInit x) (l1 ++ l2)
| step_move x l1 l2 : lstep U (l1 ++ x :: l2) (Move x) (x :: l1 ++ l2)
| step_move_tail x l1 l2 : lstep U (l1 ++ x :: l2) (MoveTail x) ((l1 ++ l2) ++ [x]).

Inductive lsteps (U : list Z) : list Z -> list lop -> list Z -> Prop :=
| steps_nil l : lsteps U l [] l
| steps_cons l o l' os l'' : lstep U l o l' -> lsteps U l' os l'' -> lsteps U l (o :: os) l''.

Lemma run_lop_spec U h head l o l' :
  lstep U l o l' -> is_list h head l -> head ∉ U -> (forall x, x ∈ U -> allocated h x) ->
  (forall x, x ∈ l -> x ∈ U) ->
  exists h', run_lop h head o = Some h' /\ is_list h' head l' /\ touches (head :: U) h h' /\
    (forall x, x ∈ l' -> x ∈ U).
Proof.
  intros Hstep Hl Hh Ha Hu. destruct Hstep as [x l Hx Hxl|x l Hx Hxl|x l1 l2|x l1 l2|x l1 l2|x l1 l2]; simpl.
  - destruct (list_add_spec h head l x) as (h' & -> & Hl' & Ht); [done|set_solver|by apply Ha|].
    exists h'. split_and!; [done..| |set_solver]. revert Ht. apply touches_weaken. set_solver.
  - destruct (list_add_tail_spec h head l x) as (h' & -> & Hl' & Ht); [done|set_solver|by apply Ha|].
    exists h'. split_and!; [done..| |set_solver]. revert Ht. apply touches_weaken. set_solver.
  - destruct (del_fields_spec h head l1 x l2 NULL NULL Hl) as (h' & Hrun & Hl' & Ht & _).
    exists h'. split_and!; [done..| |set_solver]. revert Ht. apply touches_weaken. set_solver.
  - destruct (del_fields_spec h head l1 x l2 x x Hl) as (h' & Hrun & Hl' & Ht & _).
    exists h'. split_and!; [done..| |set_solver]. revert Ht. apply touches_weaken. set_solver.
  - unfold list_move. destruct (_list_del_spec h head l1 x l2 Hl) as (h1 & -> & Hl1 & Ht1 & Ha1 & Hx). simpl.
    destruct (list_add_spec h1 head (l1 ++ l2) x) as (h' & -> & Hl' & Ht); [done..|].
    exists h'. split_and!; [done..| |set_solver].
    eapply touches_trans; [eapply touches_weaken, Ht1|eapply touches_weaken, Ht]; set_solver.
  - unfold list_move_tail. destruct (_list_del_spec h head l1 x l2 Hl) as (h1 & -> & Hl1 & Ht1 & Ha1 & Hx). simpl.
    destruct (list_add_tail_spec h1 head (l1 ++ l2) x) as (h' & -> & Hl' & Ht); [done..|].
    exists h'. split_and!; [done..| |set_solver].
    eapply touches_trans; [eapply touches_weaken, Ht1|eapply touches_weaken, Ht]; set_solver.
Qed.

Lemma run_lops_spec U h head l os l' :
  lsteps U l os l' -> is_list h head l -> head ∉ U -> (forall x, x ∈ U -> allocated h x) ->
  (forall x, x ∈ l -> x ∈ U) ->
  exists h', run_lops h head os = Some h' /\ is_list h' head l' /\ touches (head :: U) h h'.
Proof.
  intros Hs. revert h. induction Hs as [l|l o l' os l'' Hstep _ IH]; intros h Hl Hh Ha Hu.
  - exists h. split; [done|]. split; [done|]. split; [|done]. done.
  - destruct (run_lop_spec U h head l o l') as (h1 & Hr & Hl1 & Ht1 & Hu1); [done..|].
    destruct (IH h1) as (h' & Hr' & Hl' & Ht'); [done|done| |done|].
    { intros x Hx. by apply Ht1, Ha. }
    exists h'. simpl. rewrite Hr. simpl. split_and!; [done..|]. by eapply touches_trans.
Qed.

(** ** Reading a ring *)

Lemma list_empty_spec h head l : is_list h head l -> list_empty h head = Some (bool_decide (l = [])).
Proof.
  intros [Hnd Hseg]. unfold list_empty. destruct l as [|x l]; destruct Hseg as (-> & _ & _); simpl.
  - by rewrite Z.eqb_refl.
  - apply NoDup_cons in Hnd as [Hh _]. rewrite (proj2 (Z.eqb_neq x head)) by set_solver. done.
Qed.

Lemma list_first_spec h head x l : is_list h head (x :: l) -> list_first_entry h head = Some x.
Proof. intros [_ (H & _ & _)]. done. Qed.

Lemma walk_spec h head l fuel x :
  head ∉ x :: l -> seg h (x :: l ++ [head]) -> (length l < fuel)%nat -> walk fuel h x head = Some (x :: l).
Proof.
  revert x fuel. induction l as [|y l IH]; intros x fuel Hh Hseg Hf; (destruct fuel as [|fuel]; [simpl in Hf; lia|]);
    simpl; rewrite (proj2 (Z.eqb_neq x head)) by set_solver; destruct Hseg as (-> & _ & Hseg); simpl.
  - destruct fuel; simpl; by rewrite Z.eqb_refl.
  - rewrite IH; [done|set_solver|done|simpl in Hf; lia].
Qed.

Lemma list_for_each_spec h head l fuel :
  is_list h head l -> (length l <= fuel)%nat -> list_for_each fuel h head = Some l.
Proof.
  intros [Hnd Hseg] Hf. unfold list_for_each. apply NoDup_cons in Hnd as [Hh _].
  destruct l as [|x l]; destruct Hseg as (-> & _ & Hseg); simpl.
  - destruct fuel; simpl; by rewrite Z.eqb_refl.
  - apply walk_spec; [done|done|simpl in Hf; lia].
Qed.

Lemma INIT_LIST_HEAD_spec h p : allocated h p -> exists h', INIT_LIST_HEAD h p = Some h' /\ is_list h' p [] /\ touches [p] h h'.
Proof.
  intros Ha. destruct (set_fields h p p p Ha) as (h' & Hr & Ht & Hn & Hp). exists h'. split; [done|].
  split; [|done]. split; [apply NoDup_singleton|]. simpl. done.
Qed.

(** ** Splicing one ring into another *)

Lemma list_splice_seg h a la c1 p n c2 :
  let c := c1 ++ p :: n :: c2 in
  is_list h a la -> seg h c -> NoDup (removelast c) -> NoDup (tail c) ->
  (forall x, x ∈ a :: la -> x ∉ c) ->
  exists h', _list_splice h a p n = Some h' /\ seg h' (c1 ++ p :: la ++ n :: c2) /\ touches (p :: n :: la) h h'.
Proof.
  simpl. intros Ha Hseg Hn1 Hn2 Hd. unfold _list_splice. rewrite (list_empty_spec _ _ _ Ha). simpl.
  destruct la as [|f la]; simpl.
  { exists h. split; [done|]. split; [done|]. split; done. }
  destruct Ha as [HndA HsegA]. destruct (snoc_view f la) as (ini & z & E).
  destruct (seg_lookup _ _ _ _ _ Hseg) as [Hp Hn].
  assert (nx h !! a = Some f /\ pv h !! f = Some a) as [Hf Hf'] by (destruct HsegA as (? & ? & _); done).
  assert (a :: (f :: la) ++ [a] = (a :: ini) ++ z :: a :: []) as Er by (rewrite E, <- app_assoc; done).
  rewrite Er in HsegA. destruct (seg_lookup _ _ _ _ _ HsegA) as [Hz Hz'].
  assert (seg h (ini ++ [z])) as HsegI.
  { simpl in HsegA. destruct (ini ++ [z; a]) as [|y r] eqn:Ei; [by destruct ini|].
    destruct HsegA as (_ & _ & HsegA). rewrite <- Ei in HsegA. by apply seg_app in HsegA as [? _]. }
  assert (f ∈ a :: f :: la /\ z ∈ a :: f :: la) as [HfA HzA].
  { split; [set_solver|]. rewrite E. set_solver. }
  assert (f <> n /\ z <> p /\ f <> p /\ z <> n) as (? & ? & ? & ?).
  { pose proof (Hd f HfA). pose proof (Hd z HzA). set_solver. }
  rewrite Hf, Hz'. unfold set_prev, set_next. simpl. rewrite Hf'. simpl. rewrite Hp. simpl.
  rewrite lookup_insert_ne, Hz by done. simpl. rewrite lookup_insert_ne, Hn by done. simpl.
  eexists. split; [done|]. split; [|split].
  - apply seg_app in Hseg as [S1 (_ & _ & S2)].
    rewrite removelast_mid in Hn1. apply NoDup_app in Hn1 as (_ & Hd1 & Hn1).
    change (removelast (p :: n :: c2)) with (p :: removelast (n :: c2)) in *.
    apply NoDup_cons in Hn1 as [Hpn _]. pose proof (tail_back_nodup _ _ _ _ Hn2) as Hnc.
    apply NoDup_cons in HndA as [HaA HndA].
    rewrite seg_app. split; [|split; [|split]]; cbn [nx pv].
    + revert S1. apply seg_frame; cbn [nx pv].
      * intros x Hx. rewrite removelast_last in Hx. pose proof (Hd1 x Hx).
        rewrite !lookup_insert_ne; [done|set_solver|]. pose proof (Hd z HzA). set_solver.
      * intros y Hy. pose proof (tail_mid_nodup _ _ _ _ _ Hn2 Hy). pose proof (elem_of_tail _ _ Hy).
        pose proof (Hd f HfA). rewrite !lookup_insert_ne; [done|set_solver|set_solver].
    + by rewrite lookup_insert_ne, lookup_insert_eq by done.
    + by rewrite lookup_insert_ne, lookup_insert_eq by done.
    + change (f :: la ++ n :: c2) with ((f :: la) ++ n :: c2). rewrite E, <- app_assoc. simpl app.
      rewrite seg_app. split; [|split; [|split]]; cbn [nx pv].
      * revert HsegI. apply seg_frame; cbn [nx pv].
        -- intros x Hx. rewrite removelast_last in Hx. rewrite E in HndA.
           apply NoDup_app in HndA as (_ & HndI & _). pose proof (HndI x Hx).
           pose proof (Hd x ltac:(rewrite E; set_solver)). rewrite !lookup_insert_ne; [done|set_solver|set_solver].
        -- intros y Hy. rewrite <- E in Hy. simpl in Hy. apply NoDup_cons in HndA as [? _].
           pose proof (Hd y ltac:(set_solver)). rewrite !lookup_insert_ne; [done|set_solver|set_solver].
      * by rewrite lookup_insert_eq.
      * by rewrite lookup_insert_eq.
      * revert S2. apply seg_frame; cbn [nx pv].
        -- intros x Hx. pose proof (elem_of_removelast _ _ Hx). pose proof (Hd z HzA).
           rewrite !lookup_insert_ne; [done|set_solver|set_solver].
        -- intros y Hy. apply NoDup_cons in Hnc as [? _]. simpl in Hy. pose proof (Hd f HfA).
           rewrite !lookup_insert_ne; [done|set_solver|set_solver].
  - simpl. assert (z ∈ f :: la) by (rewrite E; set_solver). intros x Hx.
    rewrite !lookup_insert_ne by set_solver. done.
  - intros x. unfold allocated. simpl. by rewrite !insert_alloc by alloc.
Qed.

(** [list_splice_init] puts the nodes in front, [list_splice_tail_init] behind, and leaves an
    empty ring. *)
Lemma list_splice_init_spec h a la b lb :
  is_list h a la -> is_list h b lb -> (forall x, x ∈ a :: la -> x ∉ b :: lb) ->
  exists h', list_splice_init h a b = Some h' /\ is_list h' b (la ++ lb) /\ is_list h' a [].
Proof.
  intros Ha Hb Hd. pose proof Hb as [Hnd Hseg].
  assert (exists n c2, lb ++ [b] = n :: c2 /\ n ∈ b :: lb) as (n & c2 & E & Hnl).
  { destruct lb as [|n l]; [exists b, []|exists n, (l ++ [b])]; (split; [done|set_solver]). }
  pose proof (tail_ring_nodup b lb Hnd) as Ht. pose proof (removelast_ring b lb) as Hr.
  assert (forall x, x ∈ a :: la -> x ∉ b :: lb ++ [b]) as Hd' by (intros x Hx; specialize (Hd x Hx); set_solver).
  rewrite E in *. destruct (list_splice_seg h a la [] b n c2) as (h1 & Hrun & Hs & Hto);
    [done|done|simpl app; by rewrite Hr|done|done|].
  unfold list_splice_init, list_splice. destruct (seg_lookup _ [] _ _ _ Hseg) as [-> _]. simpl. rewrite Hrun. simpl.
  assert (allocated h a) as Haa.
  { destruct Ha as [_ Hsa]. destruct (snoc_view a la) as (c & p & E').
    assert (a :: la ++ [a] = c ++ p :: a :: []) as Er.
    { change (a :: la ++ [a]) with ((a :: la) ++ [a]). by rewrite E', <- app_assoc. }
    split; [destruct la; destruct Hsa as (? & _); by eexists|].
    rewrite Er in Hsa. destruct (seg_lookup _ _ _ _ _ Hsa). by eexists. }
  destruct (INIT_LIST_HEAD_spec h1 a) as (h' & -> & Hemp & Ht'); [by apply Hto|].
  exists h'. split_and!; [done| |done]. eapply (is_list_frame h1); [|done|].
  - split; [|simpl app in *; by rewrite <- app_assoc, E].
    apply NoDup_cons in Hnd as [? ?]. destruct Ha as [[? ?]%NoDup_cons _].
    apply NoDup_cons. split; [specialize (Hd b); set_solver|]. apply NoDup_app. split_and!; [done| |done].
    intros x Hx. specialize (Hd x). set_solver.
  - intros x Hx ->%list_elem_of_singleton. specialize (Hd a ltac:(by left)).
    destruct Ha as [[? ?]%NoDup_cons _]. set_solver.
Qed.

End LinkList.
Import LinkList.

(** C23. The list macros of opbox/list.h implement sequences of distinct nodes: any run of
    additions, deletions and moves that the specification allows succeeds (no field of an
    unallocated node is touched) and leaves the ring of the specification's sequence; the ring
    reads back by [list_empty], [list_first_entry] and [list_for_each], which terminates in as
    many steps as there are nodes; and every other list on other nodes is left as it was. *)
Theorem list_refines_sequences U h head l os l' :
  is_list h head l -> head ∉ U -> (forall x, x ∈ U -> allocated h x) -> (forall x, x ∈ l -> x ∈ U) ->
  lsteps U l os l' ->
  exists h', run_lops h head os = Some h' /\ is_list h' head l' /\
    list_empty h' head = Some (bool_decide (l' = [])) /\
    (forall x r, l' = x :: r -> list_first_entry h' head = Some x) /\
    list_for_each (length l') h' head = Some l' /\
    (forall head2 l2, is_list h head2 l2 -> (forall x, x ∈ head2 :: l2 -> x ∉ head :: U) -> is_list h' head2 l2).
Proof.
  intros Hl Hh Ha Hu Hs.
  destruct (run_lops_spec U h head l os l') as (h' & Hr & Hl' & Ht); [done..|].
  exists h'. split_and!; [done|done|by apply list_empty_spec| |by apply list_for_each_spec|].
  - intros x r ->. by eapply list_first_spec.
  - intros head2 l2 H2 Hd. by eapply is_list_frame.
Qed.

Lemma list_refines_sequences_witness :
  exists h', run_lops (Heap {[1 := 1; 2 := 0; 3 := 0]} {[1 := 1; 2 := 0; 3 := 0]}) 1 [AddTail 2; Add 3; Move 2; Del 3]
    = Some h' /\ is_list h' 1 [2].
Proof.
  destruct (list_refines_sequences [2; 3] (Heap {[1 := 1; 2 := 0; 3 := 0]} {[1 := 1; 2 := 0; 3 := 0]})
              1 [] [AddTail 2; Add 3; Move 2; Del 3] [2]) as (h' & Hr & Hl & _).
  - split; [apply NoDup_singleton|]. by vm_compute.
  - by apply (bool_decide_unpack _).
  - intros x Hx. assert (x = 2 \/ x = 3) as [-> | ->] by set_solver; split; by eexists.
  - by intros x Hx%elem_of_nil.
  - eapply steps_cons; [apply step_add_tail; [set_solver|by intros ?%elem_of_nil]|].
    eapply steps_cons; [apply step_add; [set_solver|by apply (bool_decide_unpack _)]|].
    eapply steps_cons; [apply (step_move _ 2 [3] [])|].
    eapply steps_cons; [apply (step_del _ 3 [2] [])|]. apply steps_nil.
  - exists h'. split; [exact Hr|exact Hl].
Defined.
