(* ===== verification/U9300.v ===== *)
(** * module/op4g/u9300.c and op4g.c: the command queue of the 4G modem

    The AT commands wait in a ring of opbox/list.h nodes embedded in the static table
    [u9300_cmd]; the command at its head is the one the modem is answering ([current]).  The ring
    is the pointer structure of [LinkList], a node's address is the command's index plus one.
    Each function that holds the lock is one transition of the state; the three threads of the
    program (event loop, RPC handlers that send a message, initialisation) interleave at these
    transitions.  The timer callbacks run without the lock: here they are calls that nothing
    interrupts, U9300Timers.v takes them access by access.  [None] is an access outside an object or a loop that does not end.  The results
    of [write] are arguments. *)

From S2P Require Import Prelude Bytes CString Utils Pdu LinkList.
From stdpp Require Import base tactics numbers list gmap strings option.
From Stdlib Require Import ZArith Lia.
Open Scope Z_scope.
Import Utils Pdu LinkList.

Module U9300.

(** op4g_handle.h: the commands. *)
Definition _4G_CMD_AT_TEST : Z := 0.
Definition _4G_CMD_AT_CFUN_OFF : Z := 1.
Definition _4G_CMD_AT_CFUN_ON : Z := 2.
Definition _4G_CMD_VENDOR_NAME : Z := 3.
Definition _4G_CMD_MODULE_TYPE : Z := 4.
Definition _4G_CMD_MODULE_IMEI : Z := 5.
Definition _4G_MESSAGE_SET_TEXT : Z := 6.
Definition _4G_MESSAGE_SET_PDU : Z := 7.
Definition _4G_MESSAGE_SET_ENCODE : Z := 8.
Definition _4G_MESSAGE_SET_TEXT_PARAM : Z := 9.
Definition _4G_MESSAGE_SEND : Z := 10.
Definition _4G_MESSAGE_SEND_CONTENT : Z := 11.
Definition _4G_AT_TMP : Z := 12.
Definition _4G_CMD_MAX : Z := 13.

(** Events returned to op4g.c. *)
Inductive event := EVENT_NONE | EVENT_READ | EVENT_MORE | EVENT_NEXT.

(** What the [at] field points to: nothing, a literal, a block of [calloc], or the
    [short_message] array of the module's state. *)
Inductive at_ptr := at_null | at_lit (s : list Z) | at_heap (s : list Z) | at_short.

(** struct _4g_cmd, the list node apart. *)
Record _4g_cmd := { at_ : at_ptr; at_size : Z }.

(** struct _u9300_struct with the static table; [signals] counts the signals of the condition
    variable and [out] the writes to the device, the latest first. *)
Record u9300 := {
  hp : heap;
  table : list _4g_cmd;
  current : option Z;
  short_message : list Z;
  short_message_size : Z;
  center_message : list Z;
  timer_at_cmd : bool;
  timer_no_response : bool;
  signals : nat;
  out : list (list Z)
}.

Definition HEAD : Z := 100.
Definition node (cmd : Z) : Z := cmd + 1.
(** [container_of]. *)
Definition cmd_of (p : Z) : Z := p - 1.

Definition with_hp (h : heap) (u : u9300) : u9300 :=
  {| hp := h; table := table u; current := current u; short_message := short_message u;
     short_message_size := short_message_size u; center_message := center_message u;
     timer_at_cmd := timer_at_cmd u; timer_no_response := timer_no_response u;
     signals := signals u; out := out u |}.
Definition with_table (t : list _4g_cmd) (u : u9300) : u9300 :=
  {| hp := hp u; table := t; current := current u; short_message := short_message u;
     short_message_size := short_message_size u; center_message := center_message u;
     timer_at_cmd := timer_at_cmd u; timer_no_response := timer_no_response u;
     signals := signals u; out := out u |}.
Definition with_current (c : option Z) (u : u9300) : u9300 :=
  {| hp := hp u; table := table u; current := c; short_message := short_message u;
     short_message_size := short_message_size u; center_message := center_message u;
     timer_at_cmd := timer_at_cmd u; timer_no_response := timer_no_response u;
     signals := signals u; out := out u |}.
Definition with_message (m : list Z) (n : Z) (u : u9300) : u9300 :=
  {| hp := hp u; table := table u; current := current u; short_message := m;
     short_message_size := n; center_message := center_message u;
     timer_at_cmd := timer_at_cmd u; timer_no_response := timer_no_response u;
     signals := signals u; out := out u |}.
Definition with_timers (c r : bool) (u : u9300) : u9300 :=
  {| hp := hp u; table := table u; current := current u; short_message := short_message u;
     short_message_size := short_message_size u; center_message := center_message u;
     timer_at_cmd := c; timer_no_response := r; signals := signals u; out := out u |}.
Definition signal (u : u9300) : u9300 :=
  {| hp := hp u; table := table u; current := current u; short_message := short_message u;
     short_message_size := short_message_size u; center_message := center_message u;
     timer_at_cmd := timer_at_cmd u; timer_no_response := timer_no_response u;
     signals := S (signals u); out := out u |}.
Definition emit (w : list Z) (u : u9300) : u9300 :=
  {| hp := hp u; table := table u; current := current u; short_message := short_message u;
     short_message_size := short_message_size u; center_message := center_message u;
     timer_at_cmd := timer_at_cmd u; timer_no_response := timer_no_response u;
     signals := signals u; out := w :: out u |}.

(** ** The table *)

Definition lit (s : String.string) : _4g_cmd := {| at_ := at_lit (str s ++ [13]); at_size := 0 |}.
Definition u9300_cmd : list _4g_cmd :=
  [ lit "AT"; lit "AT+CFUN=0"; lit "AT+CFUN=1"; lit "AT+CGMI"; lit "AT+CGMM"; lit "AT+CGSN";
    lit "AT+CMGF=1"; lit "AT+CMGF=0";
    {| at_ := at_lit (str "AT+CSCS=" ++ [34] ++ str "UCS2" ++ [34; 13]); at_size := 0 |};
    lit "AT+CSMP=17,71,0,8";
    {| at_ := at_null; at_size := 0 |}; {| at_ := at_null; at_size := 0 |};
    {| at_ := at_null; at_size := 0 |} ].

Definition cmd_at (u : u9300) (cmd : Z) : option _4g_cmd := table u !! Z.to_nat cmd.

(** [cmd >= _4G_CMD_MAX || !u9300_cmd[cmd].at] *)
Definition unsupported (u : u9300) (cmd : Z) : bool :=
  (_4G_CMD_MAX <=? cmd)
  || match cmd_at u cmd with Some {| at_ := at_null |} => true | _ => false end.

Definition u9300_add_cmd (u : u9300) (cmd : Z) : option u9300 :=
  if unsupported u cmd then Some u
  else h ← list_add_tail (hp u) (node cmd) HEAD; Some (with_hp h u).

(** [free] of what was not allocated is an error. *)
Definition u9300_set_at_cmd (u : u9300) (cmd : Z) (at_cmd : at_ptr) (size : Z) : option u9300 :=
  if _4G_CMD_MAX <=? cmd then Some u
  else
    c ← cmd_at u cmd;
    let bad := match at_ c with at_lit _ | at_short => cmd =? _4G_MESSAGE_SEND | _ => false end in
    if (bad : bool) then None
    else Some (with_table (<[Z.to_nat cmd := {| at_ := at_cmd; at_size := size |}]> (table u)) u).

Definition u9300_get_cmd (u : u9300) (cmd : Z) : at_ptr :=
  if unsupported u cmd then at_null
  else match cmd_at u cmd with Some c => at_ c | None => at_null end.

(** The memory the command's text is read from, and [strlen] of it. *)
Definition at_memory (u : u9300) (a : at_ptr) : option (list Z) :=
  match a with
  | at_null => None
  | at_lit s | at_heap s => Some s
  | at_short => Some (short_message u)
  end.
Definition at_strlen (u : u9300) (a : at_ptr) : option Z :=
  match a with
  | at_null => None
  | at_lit s | at_heap s => Some (zlen s)
  | at_short => s ← read_cstr (short_message u); Some (zlen s)
  end.

(** [size = item->at_size ? item->at_size : strlen(item->at)] and the bytes [write] takes; a
    negative size is not a valid count and nothing is written. *)
Definition write_at (u : u9300) (cmd : Z) : option u9300 :=
  c ← cmd_at u cmd;
  mem ← at_memory u (at_ c);
  size ← (if at_size c =? 0 then n ← at_strlen u (at_ c); Some (s32 n) else Some (at_size c));
  if zlen mem <? size then None else Some (emit (take (Z.to_nat size) mem) u).

(** ** Writing the command at the head of the queue *)

Definition u9300_write_cmd (u : u9300) (ok : bool) : option u9300 :=
  e ← list_empty (hp u) HEAD;
  if (e : bool) then Some u
  else
    item ← list_first_entry (hp u) HEAD;
    let u := with_current (Some (cmd_of item)) u in
    u ← write_at u (cmd_of item);
    if ok then Some (with_timers (timer_at_cmd u) true u) else Some u.

(** ** Callbacks: the value they return and the state after them *)

Definition u9300_cmd_vendor_name (u : u9300) (resp : list Z) : option (u9300 * Z) := Some (u, 0).
Definition u9300_cmd_module_type (u : u9300) (resp : list Z) : option (u9300 * Z) := Some (u, 0).

Definition u9300_cmd_message (u : u9300) (resp : list Z) : option (u9300 * Z) :=
  u ← u9300_set_at_cmd u _4G_MESSAGE_SEND_CONTENT at_short (s32 (short_message_size u));
  u ← u9300_add_cmd u _4G_MESSAGE_SEND_CONTENT;
  Some (u, 0).

(** [strstr(s, "OK")]. *)
Fixpoint has_ok (s : list Z) : bool :=
  match s with
  | 79 :: ((75 :: _) as r) => true
  | _ :: r => has_ok r
  | [] => false
  end.

Definition u9300_cmd_message_content (u : u9300) (resp : list Z) : option (u9300 * Z) :=
  Some (u, if has_ok (cstr resp) then 0 else -1).

(** [at_cmd_cb], [NULL] where the table has none. *)
Definition at_cmd_cb (cmd : Z) : option (u9300 -> list Z -> option (u9300 * Z)) :=
  if cmd =? _4G_CMD_VENDOR_NAME then Some u9300_cmd_vendor_name
  else if cmd =? _4G_CMD_MODULE_TYPE then Some u9300_cmd_module_type
  else if cmd =? _4G_MESSAGE_SEND then Some u9300_cmd_message
  else if cmd =? _4G_MESSAGE_SEND_CONTENT then Some u9300_cmd_message_content
  else None.

(** ** Timers *)

(** The loop at lines 184-187. *)
Fixpoint drain (fuel : nat) (h : heap) : option heap :=
  e ← list_empty h HEAD;
  if (e : bool) then Some h
  else match fuel with
  | O => None
  | S f => item ← list_first_entry h HEAD; h ← list_del h item; drain f h
  end.

(** The callbacks as calls that nothing interrupts; they take no lock, and U9300Timers.v has their
    single accesses. A timer that fires is no longer pending. *)
Definition u9300_atcmd_timeout (u : u9300) : option u9300 :=
  let u := with_timers false (timer_no_response u) u in
  e ← list_empty (hp u) HEAD;
  match current u with
  | Some _ =>
      if (e : bool) then Some u
      else h ← drain 16 (hp u); Some (with_current None (signal (with_hp h u)))
  | None => Some u
  end.

Definition u9300_atcmd_no_respobse (u : u9300) : option u9300 :=
  let u := with_timers (timer_at_cmd u) false u in
  e ← list_empty (hp u) HEAD;
  match current u with
  | Some c => if (e : bool) then Some u else write_at u c
  | None => Some u
  end.

(** ** Responses of the modem *)

Fixpoint u9300_is_at_cmd_ok (at_text : list Z) : bool :=
  match at_text with
  | 13 :: ((10 :: _) as r) => true
  | _ :: r => u9300_is_at_cmd_ok r
  | [] => false
  end.

(** Label NONE. *)
Definition handle_none (u : u9300) : u9300 * event := (with_current None (signal u), EVENT_NONE).

(** From line 342: the command is done, the next one is written. *)
Definition handle_done (u : u9300) (c : Z) (ok : bool) : option (u9300 * event) :=
  let u := with_timers false (timer_no_response u) u in
  h ← list_del (hp u) (node c);
  let u := with_hp h u in
  e ← list_empty (hp u) HEAD;
  if (e : bool) then Some (handle_none u)
  else
    cc ← cmd_at u c;
    let u := with_table (<[Z.to_nat c := {| at_ := at_ cc; at_size := 0 |}]> (table u)) u in
    item ← list_first_entry (hp u) HEAD;
    let u := with_current (Some (cmd_of item)) u in
    u ← write_at u (cmd_of item);
    if ok then Some (with_timers (timer_at_cmd u) true u, EVENT_NEXT)
    else Some (handle_none u).

Definition u9300_uart_handle (u : u9300) (resp : list Z) (ok : bool) : option (u9300 * event) :=
  e ← list_empty (hp u) HEAD;
  match current u with
  | None => Some (handle_none u)
  | Some c =>
      if (e : bool) then Some (handle_none u)
      else
        let u := with_timers (timer_at_cmd u) false u in
        if negb (u9300_is_at_cmd_ok resp) then Some (u, EVENT_MORE)
        else
          '(u, ret) ← match at_cmd_cb c with Some cb => cb u resp | None => Some (u, 0) end;
          if ret <? 0 then Some (with_timers true (timer_no_response u) u, EVENT_MORE)
          else handle_done u c ok
  end.

(** ** Initialisation: lines 229-289 after the allocations and the locks *)

(** The nodes of the table and the head, as [INIT_LIST_HEAD] leaves them. *)
Definition init_nodes : list Z := HEAD :: (node <$> seqZ 0 _4G_CMD_MAX).
Definition init_heap : option heap :=
  let zero := list_to_map ((fun p => (p, NULL)) <$> init_nodes) in
  foldl (fun h p => h ← h; INIT_LIST_HEAD h p) (Some (Heap zero zero)) init_nodes.

Definition u9300_init (t : list _4g_cmd) (center : list Z) (ok : bool) : option u9300 :=
  h ← init_heap;
  '(cm, _) ← op_strlcpy (Some (replicate 64 0)) (Some center) 64;
  let u := {| hp := h; table := t; current := None; short_message := replicate 1024 0;
              short_message_size := 0; center_message := default [] cm;
              timer_at_cmd := false; timer_no_response := false; signals := 0; out := [] |} in
  u ← u9300_add_cmd u _4G_CMD_VENDOR_NAME;
  u ← u9300_add_cmd u _4G_CMD_MODULE_TYPE;
  u ← u9300_add_cmd u _4G_CMD_MODULE_IMEI;
  u ← u9300_add_cmd u _4G_MESSAGE_SET_PDU;
  u ← u9300_add_cmd u _4G_MESSAGE_SET_ENCODE;
  u9300_write_cmd u ok.

(** ** Sending a message *)

(** [%02d] of a number that is not negative. *)
Definition fmt_02d (n : Z) : list Z :=
  let s := dec_digits 10 n in if Nat.ltb (length s) 2 then 48 :: s else s.

Section send.
Context (iconv_open : bool) (iconv : list Z -> Z -> option (list Z)).

(** Lines 416-419, under the lock, after the wait. *)
Definition send_body (u : u9300) (phone message : list Z) : option u9300 :=
  '(sm, n, count) ← message_ucs2_combi_mesage iconv_open iconv (Some (cstr (center_message u)))
                      (Some phone) (Some message) (short_message u) 1024;
  let u := with_message sm (u64 n) u in
  '(at_cmd, _) ← snprintf (replicate 64 0) 64 (str "AT+CMGS=" ++ fmt_02d (default 0 count) ++ [13]);
  s ← read_cstr at_cmd;
  u ← u9300_set_at_cmd u _4G_MESSAGE_SEND (at_heap s) 0;
  u9300_add_cmd u _4G_MESSAGE_SEND.

(** The threads: what each holds between two of its critical sections. *)
Record sys := { mod_ : u9300; waiting : list (list Z * list Z); writers : nat }.

Inductive label :=
| L_resp (resp : list Z) (ok : bool)            (* u9300_uart_handle *)
| L_timeout | L_no_response                     (* the timers *)
| L_send (phone message : list Z)               (* u9300_send_message up to line 420, or its wait *)
| L_wake (i : nat)                              (* pthread_cond_timedwait returns 0 *)
| L_give_up (i : nat)                           (* it returns ETIMEDOUT *)
| L_write (ok : bool).                          (* u9300_write_cmd at line 421 *)

Definition exec (s : sys) (l : label) : option sys :=
  match l with
  | L_resp resp ok => '(u, _) ← u9300_uart_handle (mod_ s) resp ok;
                      Some {| mod_ := u; waiting := waiting s; writers := writers s |}
  | L_timeout => u ← u9300_atcmd_timeout (mod_ s);
                 Some {| mod_ := u; waiting := waiting s; writers := writers s |}
  | L_no_response => u ← u9300_atcmd_no_respobse (mod_ s);
                     Some {| mod_ := u; waiting := waiting s; writers := writers s |}
  | L_send phone message =>
      e ← list_empty (hp (mod_ s)) HEAD;
      if (e : bool) then
        u ← send_body (mod_ s) phone message;
        Some {| mod_ := u; waiting := waiting s; writers := S (writers s) |}
      else Some {| mod_ := mod_ s; waiting := waiting s ++ [(phone, message)]; writers := writers s |}
  | L_wake i =>
      '(phone, message) ← waiting s !! i;
      u ← send_body (mod_ s) phone message;
      Some {| mod_ := u; waiting := delete i (waiting s); writers := S (writers s) |}
  | L_give_up i => Some {| mod_ := mod_ s; waiting := delete i (waiting s); writers := writers s |}
  | L_write ok => u ← u9300_write_cmd (mod_ s) ok;
                  Some {| mod_ := u; waiting := waiting s; writers := pred (writers s) |}
  end.

Fixpoint run (s : sys) (ls : list label) : option sys :=
  match ls with
  | [] => Some s
  | l :: ls => s ← exec s l; run s ls
  end.
End send.

(** ** module/op4g/op4g.c: op4g_job, the receive buffer in front of the module *)

Definition _4G_READ_BUF_SIZE : Z := 2048.

Record op4g := { bf : list Z; index : Z; closed : bool }.

(** [data] is what [read] stores, [None] its failure with -1; the module's handler is the state
    transition above. *)
Definition op4g_job (g : op4g) (u : u9300) (data : option (list Z)) (ok : bool)
  : option (op4g * u9300) :=
  let idx := if _4G_READ_BUF_SIZE - 1 <=? index g then 0 else index g in
  match data with
  | Some [] => Some ({| bf := bf g; index := idx; closed := true |}, u)
  | _ =>
      let ret := match data with Some d => zlen d | None => -1 end in
      let got := default [] data in
      if _4G_READ_BUF_SIZE - idx - 1 <? zlen got then None
      else
        m ← poke (drop (Z.to_nat idx) (bf g)) got;
        let buf := take (Z.to_nat idx) (bf g) ++ m in
        let idx := u32 (idx + ret) in
        if zlen buf <=? idx then None
        else
          let buf := <[Z.to_nat idx := 0]> buf in
          '(u, ev) ← u9300_uart_handle u (take (Z.to_nat idx) buf) ok;
          Some ({| bf := buf; closed := false;
                   index := match ev with EVENT_MORE => idx | _ => 0 end |}, u)
  end.

End U9300.
