(* ===== verification/U9300Spec.v ===== *)
(** * The command queue of the modem: invariant and message flow

    [wf u q] relates the module's state to the sequence [q] of queued commands: the ring of list
    nodes is that sequence, [current] is its head, every queued command has a text to write. *)

From S2P Require Import Prelude Bytes CString Utils Pdu PduSpec LinkList U9300.
From stdpp Require Import base tactics numbers option strings list gmap.
From Stdlib Require Import ZArith Lia.
Open Scope Z_scope.
Import Utils Pdu LinkList U9300.

Notation SEND := _4G_MESSAGE_SEND.
Notation CONTENT := _4G_MESSAGE_SEND_CONTENT.

(** A command whose text can be written. *)
Definition writable (e : _4g_cmd) : Prop :=
  match at_ e with
  | at_null => False
  | at_lit s | at_heap s => at_size e = 0 /\ zlen s < 2147483648
  | at_short => 0 < at_size e <= 1024
  end.

Record wf (u : u9300) (q : list Z) : Prop := {
  wf_list : is_list (hp u) HEAD (node <$> q);
  wf_alloc : forall c, 0 <= c < 13 -> allocated (hp u) (node c);
  wf_table : length (table u) = 13%nat;
  wf_range : Forall (fun c => 0 <= c < 13) q;
  wf_write : Forall (fun c => exists e, cmd_at u c = Some e /\ writable e) q;
  wf_send : exists e, cmd_at u SEND = Some e /\ (at_ e = at_null \/ exists s, at_ e = at_heap s);
  wf_cur : forall c, current u = Some c -> head q = Some c;
  wf_size : SEND ∈ q -> 0 < short_message_size u <= 1024;
  wf_short : zlen (short_message u) = 1024
}.

(** The text of a message is never queued behind the next message's command. *)
Definition order (q : list Z) : Prop := forall q1 q2, q = q1 ++ SEND :: q2 -> CONTENT ∉ q2.

Lemma order_without q : SEND ∉ q -> order q.
Proof. intros H q1 q2 ->. set_solver. Qed.
Lemma order_tail c r : order (c :: r) -> order r.
Proof. intros H q1 q2 ->. by apply (H (c :: q1)). Qed.
Lemma order_snoc q c : order q -> c <> CONTENT -> order (q ++ [c]).
Proof.
  intros H Hc q1 q2 Heq. destruct q2 as [|y q2 _] using rev_ind; [by intros ?%elem_of_nil|].
  rewrite app_comm_cons, app_assoc in Heq. apply app_inj_tail in Heq as [Heq <-].
  specialize (H _ _ Heq). rewrite elem_of_app. intros [?|?%list_elem_of_singleton]; congruence.
Qed.

(** The fields the invariant reads. *)
Definition same_core (u u' : u9300) : Prop :=
  hp u' = hp u /\ table u' = table u /\ current u' = current u /\
  short_message u' = short_message u /\ short_message_size u' = short_message_size u.

Lemma wf_core u u' q : same_core u u' -> wf u q -> wf u' q.
Proof.
  intros (E1 & E2 & E3 & E4 & E5) [].
  split; unfold cmd_at in *; rewrite ?E1, ?E2, ?E3, ?E4, ?E5; done.
Qed.

(** Both timers, the condition variable and the device are outside it. *)
Lemma wf_timers u q a b : wf u q -> wf (with_timers a b u) q.
Proof. by apply wf_core. Qed.
Lemma wf_signal u q : wf u q -> wf (signal u) q.
Proof. by apply wf_core. Qed.
Lemma wf_emit u q w : wf u q -> wf (emit w u) q.
Proof. by apply wf_core. Qed.
#[local] Hint Resolve wf_timers wf_signal wf_emit : opsv.

Lemma node_inj c d : node c = node d -> c = d.
Proof. unfold node. lia. Qed.
#[local] Instance node_injective : Inj (=) (=) node.
Proof. intros ??. apply node_inj. Qed.

Lemma cmd_of_node c : cmd_of (node c) = c.
Proof. unfold cmd_of, node. lia. Qed.

Lemma wf_nodup u q : wf u q -> NoDup q.
Proof. intros [[Hnd _] _ _ _ _ _ _ _ _]. apply NoDup_cons in Hnd as [_ Hnd]. by apply NoDup_fmap_1 in Hnd. Qed.

(** Distinct commands of the table. *)
Lemma wf_length u q : wf u q -> (length q <= 13)%nat.
Proof.
  intros H. pose proof (wf_nodup _ _ H) as Hnd. destruct H as [_ _ _ Hr _ _ _ _ _].
  change 13%nat with (length (seqZ 0 13)). apply submseteq_length, NoDup_submseteq; [done|].
  intros c Hc. apply elem_of_seqZ. rewrite Forall_forall in Hr. specialize (Hr c Hc). lia.
Qed.

Lemma node_not_head c : 0 <= c < 13 -> node c <> HEAD.
Proof. unfold node, HEAD. lia. Qed.

Lemma node_notin c (q : list Z) : c ∉ q -> 0 <= c < 13 -> node c ∉ HEAD :: (node <$> q).
Proof.
  intros Hc Hr. rewrite not_elem_of_cons. split; [by apply node_not_head|].
  rewrite list_elem_of_fmap. intros (d & Hd & Hdq). apply node_inj in Hd. by subst d.
Qed.

Lemma wf_empty u q : wf u q -> list_empty (hp u) HEAD = Some (bool_decide (q = [])).
Proof.
  intros H. rewrite (list_empty_spec _ _ _ (wf_list _ _ H)). f_equal.
  apply bool_decide_ext. by destruct q.
Qed.

Lemma wf_first u c r : wf u (c :: r) -> list_first_entry (hp u) HEAD = Some (node c).
Proof. intros H. apply (list_first_spec _ _ _ (node <$> r)), (wf_list _ _ H). Qed.

(** ** The primitive operations *)

Lemma write_at_ok u q c :
  wf u q -> c ∈ q -> exists w, write_at u c = Some (emit w u).
Proof.
  intros [_ _ _ _ Hw _ _ _ Hs] Hc. rewrite Forall_forall in Hw. destruct (Hw c Hc) as (e & He & Hwr).
  unfold write_at. rewrite He. simpl. unfold writable in Hwr. destruct (at_ e) as [|s|s|]; simpl; [done|..].
  1,2: destruct Hwr as [-> Hl]; simpl; rewrite s32_id by (pose proof (zlen_nonneg s); lia);
       rewrite (proj2 (Z.ltb_ge _ _)) by lia; eauto.
  rewrite (proj2 (Z.eqb_neq (at_size e) 0)) by lia. simpl. rewrite Hs, (proj2 (Z.ltb_ge _ _)) by lia. eauto.
Qed.

Lemma wf_with_current u c r : wf u (c :: r) -> wf (with_current (Some c) u) (c :: r).
Proof. intros []. split; simpl; try done. Qed.

Lemma wf_no_current u q : wf u q -> wf (with_current None u) q.
Proof. intros []. by split. Qed.

Lemma u9300_write_cmd_ok u q ok : wf u q ->
  exists u', u9300_write_cmd u ok = Some u' /\ wf u' q /\ center_message u' = center_message u.
Proof.
  intros H. unfold u9300_write_cmd. rewrite (wf_empty _ _ H). simpl.
  destruct q as [|c r]; simpl; [eauto|]. rewrite (wf_first _ _ _ H). simpl. rewrite cmd_of_node.
  pose proof (wf_with_current _ _ _ H) as H'.
  destruct (write_at_ok _ _ c H') as [w ->]; [by left|]. simpl.
  destruct ok; eexists; (split; [done|]); (split; [by auto with opsv|done]).
Qed.

Lemma u9300_add_cmd_ok u q c e :
  wf u q -> 0 <= c < 13 -> c ∉ q -> cmd_at u c = Some e -> writable e ->
  (c = SEND -> 0 < short_message_size u <= 1024) ->
  exists h, u9300_add_cmd u c = Some (with_hp h u) /\ wf (with_hp h u) (q ++ [c]).
Proof.
  intros H Hr Hq He Hw Hs. unfold u9300_add_cmd, unsupported. rewrite He.
  change (_4G_CMD_MAX <=? c) with (13 <=? c).
  rewrite (proj2 (Z.leb_gt 13 c)) by lia. simpl.
  assert (match e with {| at_ := at_null |} => true | _ => false end = false) as ->.
  { unfold writable in Hw. destruct e as [[] ?]; done. }
  destruct H as [Hl Ha Ht Hrg Hwr Hsd Hcur Hsz Hsh].
  destruct (list_add_tail_spec _ _ _ (node c) Hl) as (h & -> & Hl' & Hto);
    [by apply node_notin|by apply Ha|]. simpl.
  exists h. split; [done|]. split; simpl; try done.
  - by rewrite fmap_app.
  - intros d Hd. by apply Hto, Ha.
  - apply Forall_app. split; [done|]. by apply Forall_singleton.
  - apply Forall_app. split; [done|]. apply Forall_singleton. eauto.
  - intros d Hd. specialize (Hcur d Hd). by destruct q.
  - intros [Hin|?%list_elem_of_singleton]%elem_of_app; [by apply Hsz|by apply Hs].
Qed.

(** Changing the text of a command that is not queued. *)
Lemma wf_set_table u q c e :
  wf u q -> 0 <= c < 13 -> c ∉ q -> (c = SEND -> at_ e = at_null \/ exists s, at_ e = at_heap s) ->
  wf (with_table (<[Z.to_nat c := e]> (table u)) u) q /\
  cmd_at (with_table (<[Z.to_nat c := e]> (table u)) u) c = Some e.
Proof.
  intros [Hl Ha Ht Hrg Hwr Hsd Hcur Hsz Hsh] Hr Hq Hs.
  assert (forall d, 0 <= d < 13 -> d <> c ->
            cmd_at (with_table (<[Z.to_nat c := e]> (table u)) u) d = cmd_at u d) as Hother.
  { intros d Hd Hne. unfold cmd_at. simpl. apply list_lookup_insert_ne. lia. }
  assert (cmd_at (with_table (<[Z.to_nat c := e]> (table u)) u) c = Some e) as Hthis.
  { unfold cmd_at. simpl. apply list_lookup_insert_eq. lia. }
  split; [|done]. split; try done.
  - simpl. by rewrite length_insert.
  - rewrite Forall_forall in *. intros d Hd. rewrite Hother; [auto|auto|]. by intros ->.
  - destruct (decide (c = SEND)) as [->|Hne]; [rewrite Hthis; eauto|].
    rewrite Hother; [done|unfold _4G_MESSAGE_SEND; lia|done].
Qed.

(** Removing the head. *)
Lemma wf_del_head u c r :
  wf u (c :: r) ->
  exists h, list_del (hp u) (node c) = Some h /\ wf (with_current None (with_hp h u)) r.
Proof.
  intros [Hl Ha Ht Hrg Hwr Hsd Hcur Hsz Hsh].
  destruct (del_fields_spec (hp u) HEAD [] (node c) (fmap (M := list) node r) NULL NULL Hl) as (h & Hrun & Hl' & Hto & _).
  exists h. split; [done|]. split; simpl; try done.
  - intros d Hd. by apply Hto, Ha.
  - by apply Forall_cons in Hrg as [_ ?].
  - by apply Forall_cons in Hwr as [_ ?].
  - intros Hin. apply Hsz. by right.
Qed.

Lemma drain_ok u q fuel :
  wf u q -> (length q <= fuel)%nat ->
  exists h, drain fuel (hp u) = Some h /\ wf (with_current None (with_hp h u)) [].
Proof.
  revert u fuel. induction q as [|c r IH]; intros u fuel H Hf.
  - exists (hp u). split; [|by apply (wf_core (with_current None u)), wf_no_current].
    destruct fuel; simpl; by rewrite (wf_empty _ _ H).
  - destruct fuel as [|fuel]; [simpl in Hf; lia|]. simpl. rewrite (wf_empty _ _ H). simpl.
    rewrite (wf_first _ _ _ H). simpl. destruct (wf_del_head _ _ _ H) as (h & -> & H'). simpl.
    destruct (IH _ fuel H') as (h' & Hd & Hw); [simpl in Hf; lia|].
    exists h'. split; [done|]. by apply (wf_core (with_current None (with_hp h' (with_current None (with_hp h u))))).
Qed.

(** ** The handlers *)

Lemma u9300_atcmd_timeout_ok u q :
  wf u q -> exists u' q', u9300_atcmd_timeout u = Some u' /\ wf u' q' /\ (q' = q \/ q' = []) /\
    (forall c, current u = Some c -> q' = [] /\ current u' = None) /\ center_message u' = center_message u.
Proof.
  intros H. unfold u9300_atcmd_timeout. cbn [hp current with_timers]. rewrite (wf_empty _ _ H). simpl.
  destruct (current u) as [c|] eqn:Ec.
  - pose proof (wf_cur _ _ H c Ec) as Hq. destruct q as [|d r]; [done|]. simpl.
    destruct (drain_ok u (d :: r) 16 H) as (h & Hdr & Hw).
    { pose proof (wf_length _ _ H). lia. }
    change (drain 16 (hp (with_timers false (timer_no_response u) u))) with (drain 16 (hp u)).
    simpl in Hdr. rewrite Hdr. simpl. eexists _, []. split; [done|]. split_and!; [|by right|done|done].
    revert Hw. by apply wf_core.
  - eexists _, q. split; [done|]. split_and!; [by auto with opsv|by left|done|done].
Qed.

Lemma u9300_atcmd_no_respobse_ok u q :
  wf u q -> exists u', u9300_atcmd_no_respobse u = Some u' /\ wf u' q /\ center_message u' = center_message u.
Proof.
  intros H. unfold u9300_atcmd_no_respobse. cbn [hp current with_timers]. rewrite (wf_empty _ _ H). simpl.
  destruct (current u) as [c|] eqn:Ec; [|eexists; split; [done|]; split; [by auto with opsv|done]].
  pose proof (wf_cur _ _ H c Ec) as Hq. destruct q as [|d r]; [done|]. simpl in *. simplify_eq.
  destruct (write_at_ok (with_timers (timer_at_cmd u) false u) (c :: r) c) as [w ->];
    [by auto with opsv|by left|]. eexists. split; [done|]. split; [by auto with opsv|done].
Qed.

(** The callbacks keep the queue, but for the command that starts a message. *)
Lemma at_cmd_cb_ok u c r resp :
  wf u (c :: r) -> order (c :: r) ->
  exists u' ret r',
    match at_cmd_cb c with Some cb => cb u resp | None => Some (u, 0) end = Some (u', ret) /\
    wf u' (c :: r') /\ center_message u' = center_message u /\ current u' = current u /\
    order r' /\ (ret < 0 -> r' = r).
Proof.
  intros H Ho. pose proof (order_tail _ _ Ho) as Ho'. unfold at_cmd_cb.
  destruct (c =? _4G_CMD_VENDOR_NAME); [by eexists u, 0, r|].
  destruct (c =? _4G_CMD_MODULE_TYPE); [by eexists u, 0, r|].
  destruct (c =? SEND) eqn:Es; btest; [subst c|].
  2: { destruct (c =? CONTENT); [|by eexists u, 0, r]. by eexists u, _, r. }
  assert (CONTENT ∉ SEND :: r) as Hc by (pose proof (Ho [] r eq_refl); set_solver).
  assert (SEND ∉ r) as Hs by (pose proof (wf_nodup _ _ H) as [? _]%NoDup_cons; done).
  pose proof (wf_size _ _ H ltac:(by left)) as Hsz.
  unfold u9300_cmd_message, u9300_set_at_cmd. simpl.
  assert (exists e, cmd_at u CONTENT = Some e) as [e He].
  { unfold cmd_at. apply lookup_lt_is_Some. rewrite (wf_table _ _ H). unfold CONTENT. lia. }
  rewrite He. simpl.
  assert (match at_ e with at_lit _ | at_short => false | _ => false end = false) as Hf by (by destruct (at_ e)).
  rewrite Hf. simpl. rewrite s32_id by lia.
  destruct (wf_set_table u (SEND :: r) CONTENT {| at_ := at_short; at_size := short_message_size u |})
    as [H1 He1]; [done|unfold CONTENT; lia|done|done|].
  destruct (u9300_add_cmd_ok _ _ CONTENT {| at_ := at_short; at_size := short_message_size u |} H1)
    as (h & -> & H2); [unfold CONTENT; lia|done|done|done|done|].
  simpl. eexists _, 0, (r ++ [CONTENT]). split; [done|]. split_and!; [done|done|done| |lia].
  apply order_without. set_solver.
Qed.

Lemma handle_none_ok u q : wf u q -> wf (fst (handle_none u)) q.
Proof. intros H. by apply wf_no_current, wf_signal. Qed.

Lemma wf_del_current u c r :
  wf u (c :: r) -> exists h, list_del (hp u) (node c) = Some h /\
    (forall d, (d = None \/ d = head r) -> wf (with_current d (with_hp h u)) r).
Proof.
  intros H. destruct (wf_del_head _ _ _ H) as (h & -> & Hw). exists h. split; [done|].
  intros d Hd. destruct Hw. split; try done. simpl. intros x ->. by destruct Hd.
Qed.

Lemma handle_done_ok u c r ok :
  wf u (c :: r) -> exists u' ev, handle_done u c ok = Some (u', ev) /\ wf u' r /\ center_message u' = center_message u.
Proof.
  intros H. unfold handle_done. cbn [hp with_timers].
  destruct (wf_del_current _ _ _ H) as (h & -> & Hw). cbn [mbind option_bind hp with_hp with_timers].
  assert (list_empty h HEAD = Some (bool_decide (r = []))) as ->.
  { apply (wf_empty (with_current None (with_hp h u))). apply Hw. by left. }
  cbn [mbind option_bind]. destruct r as [|d r]; simpl.
  { eexists _, _. split; [done|]. split; [|done]. specialize (Hw None (or_introl eq_refl)).
    revert Hw. by apply wf_core. }
  assert (c ∉ d :: r) as Hc by (pose proof (wf_nodup _ _ H) as [? _]%NoDup_cons; done).
  assert (0 <= c < 13) as Hr by (pose proof (wf_range _ _ H) as [? _]%Forall_cons; done).
  assert (exists e, table u !! Z.to_nat c = Some e) as [e He].
  { apply lookup_lt_is_Some. rewrite (wf_table _ _ H). lia. }
  unfold cmd_at. simpl. rewrite He. simpl.
  specialize (Hw (Some d) (or_intror eq_refl)).
  destruct (wf_set_table _ _ c {| at_ := at_ e; at_size := 0 |} Hw Hr Hc) as [H1 _].
  { intros ->. destruct (wf_send _ _ H) as (e' & He' & Ho). unfold cmd_at in He'. simplify_eq/=. done. }
  assert (list_first_entry h HEAD = Some (node d)) as -> by apply (wf_first _ _ _ Hw).
  cbn [mbind option_bind]. rewrite cmd_of_node.
  set (u1 := with_current _ _).
  assert (wf u1 (d :: r)) as H2 by (revert H1; by apply wf_core).
  destruct (write_at_ok u1 _ d H2) as [w ->]; [by left|]. simpl.
  destruct ok; eexists _, _; (split; [done|]); (split; [|done]); [by auto with opsv|].
  by apply handle_none_ok, wf_emit.
Qed.

Lemma u9300_uart_handle_ok u q resp ok :
  wf u q -> order q ->
  exists u' ev q', u9300_uart_handle u resp ok = Some (u', ev) /\ wf u' q' /\ order q' /\
    center_message u' = center_message u.
Proof.
  intros H Ho. unfold u9300_uart_handle. rewrite (wf_empty _ _ H). cbn [mbind option_bind].
  destruct (current u) as [c|] eqn:Ec.
  2: { eexists _, _, q. split; [done|]. split_and!; [by apply handle_none_ok|done|done]. }
  pose proof (wf_cur _ _ H c Ec) as Hq. destruct q as [|d r]; [done|]. simpl in Hq. simplify_eq. simpl.
  set (u1 := with_timers (timer_at_cmd u) false u).
  assert (wf u1 (c :: r)) as H1 by (by apply wf_timers).
  destruct (u9300_is_at_cmd_ok resp); simpl.
  2: { eexists _, _, (c :: r). split; [done|]. split_and!; done. }
  destruct (at_cmd_cb_ok u1 c r resp H1 Ho) as (u2 & ret & r' & -> & H2 & Hcm & _ & Ho2 & Hr). simpl.
  destruct (ret <? 0) eqn:Er; btest.
  { eexists _, _, (c :: r). split; [done|]. rewrite Hr in H2 by done. split_and!; [by auto with opsv|done|done]. }
  destruct (handle_done_ok u2 c r' ok H2) as (u3 & ev & -> & H3 & Hcm3).
  eexists _, _, r'. split; [done|]. split_and!; [done|done|]. by rewrite Hcm3, Hcm.
Qed.

(** ** Sending a message *)

Lemma dec_digits_ok f n : 0 <= n -> no_nul (dec_digits f n) /\ (length (dec_digits f n) <= f)%nat.
Proof.
  revert n. induction f as [|f IH]; intros n Hn; simpl; [split; [by intros ? ?%elem_of_nil|lia]|].
  bcase.
  - split; [|simpl; lia]. intros x ->%list_elem_of_singleton. lia.
  - destruct (IH (n / 10)) as [H1 H2]; [by apply Z.div_pos|]. rewrite length_app. simpl. split; [|lia].
    apply no_nul_app. split; [done|]. intros x ->%list_elem_of_singleton.
    pose proof (Z.mod_pos_bound n 10). lia.
Qed.

Lemma fmt_02d_ok n : 0 <= n -> no_nul (fmt_02d n) /\ zlen (fmt_02d n) <= 11.
Proof.
  intros Hn. destruct (dec_digits_ok 10 n Hn) as [H1 H2]. unfold fmt_02d, zlen.
  set (s := dec_digits 10 n) in *. clearbody s.
  destruct (Nat.ltb _ _); [|split; [done|lia]]. split; [|simpl length; lia]. apply no_nul_cons. split; [lia|done].
Qed.

(** The command that announces a PDU of [n] octets. *)
Definition cmgs_text (n : Z) : list Z := str "AT+CMGS=" ++ fmt_02d n ++ [13].

Lemma cmgs_text_ok n : 0 <= n -> no_nul (cmgs_text n) /\ zlen (cmgs_text n) <= 20.
Proof.
  intros Hn. destruct (fmt_02d_ok n Hn) as [H1 H2]. unfold cmgs_text. split.
  - rewrite !no_nul_app. split_and!; [by apply no_nul_dec|done|by apply no_nul_dec].
  - unfold zlen in *. rewrite !length_app. simpl. lia.
Qed.

Section send.
Context (iconv : list Z -> Z -> option (list Z)).

(** Numbers that fit the arrays of _4g_pdu.c and a text that converts. *)
Definition fits (cm phone m smsc o : list Z) : Prop :=
  cstr cm = 43 :: smsc /\ no_nul smsc /\ 2 <= zlen smsc <= 58 /\ no_nul phone /\ zlen phone <= 60 /\
  iconv m 1024 = Some o /\ Forall is_byte o.

(** The command and the PDU of a message. *)
Definition pdu (smsc phone o : list Z) : list Z := smsc_text smsc ++ tpdu phone o ++ [26].
Definition announce (phone o : list Z) : list Z := cmgs_text (zlen (tpdu phone o) / 2).

Lemma send_pdu_ok cm phone m smsc o sm :
  fits cm phone m smsc o -> zlen sm = 1024 ->
  exists rest, message_ucs2_combi_mesage true iconv (Some (cstr cm)) (Some phone) (Some m) sm 1024
    = Some (pdu smsc phone o ++ rest, zlen (pdu smsc phone o), Some (zlen (tpdu phone o) / 2))
    /\ zlen (pdu smsc phone o ++ rest) = 1024 /\ 0 < zlen (pdu smsc phone o) <= 1024.
Proof.
  intros (-> & Hn1 & Hl1 & Hn2 & Hl2 & Hi & Hb) Hsm.
  destruct (combi_layout iconv smsc phone m o sm) as (rest & -> & Hz); [done..|].
  exists rest. pose proof (zlen_nonneg (smsc_text smsc)). pose proof (zlen_nonneg (tpdu phone o)).
  assert (zlen (pdu smsc phone o) = zlen (smsc_text smsc) + zlen (tpdu phone o) + 1) as Hpl.
  { unfold pdu, zlen. rewrite !length_app. simpl. lia. }
  assert (zlen (pdu smsc phone o ++ rest) = 1024) as Hz'.
  { unfold zlen in *. rewrite length_app. lia. }
  pose proof (zlen_nonneg rest). rewrite Hpl, Hz'. split_and!; [|done|lia|lia].
  unfold pdu. by rewrite <- !app_assoc.
Qed.

Lemma announce_ok n :
  0 <= n ->
  exists buf r, snprintf (replicate 64 0) 64 (str "AT+CMGS=" ++ fmt_02d n ++ [13]) = Some (buf, r)
    /\ read_cstr buf = Some (cmgs_text n).
Proof.
  intros Hn. destruct (cmgs_text_ok n Hn) as [Hc1 Hc2]. fold (cmgs_text n).
  assert (zlen (replicate 64 0) = 64) as H64 by done.
  rewrite snprintf_ok by lia. eexists _, _. split; [done|]. by apply read_cstr_app.
Qed.

(** Lines 418-419 for a command that is not queued. *)
Lemma queue_send_ok u q text :
  wf u q -> order q -> SEND ∉ q -> 0 < short_message_size u <= 1024 -> zlen text <= 20 ->
  exists h,
    let u' := with_hp h (with_table (<[Z.to_nat SEND := {| at_ := at_heap text; at_size := 0 |}]> (table u)) u) in
    (u ← u9300_set_at_cmd u SEND (at_heap text) 0; u9300_add_cmd u SEND) = Some u' /\
    wf u' (q ++ [SEND]) /\ order (q ++ [SEND]).
Proof.
  intros H Ho Hs Hsz Hl. destruct (wf_send _ _ H) as (e & He & Hat).
  unfold u9300_set_at_cmd. rewrite He.
  assert ((match at_ e with at_lit _ | at_short => SEND =? SEND | _ => false end) = false) as Hb.
  { destruct Hat as [->|[s ->]]; done. }
  set (e' := {| at_ := at_heap text; at_size := 0 |}).
  destruct (wf_set_table u q SEND e' H) as [H2 He2];
    [unfold SEND; lia|done|intros _; right; by eexists|].
  destruct (u9300_add_cmd_ok _ q SEND e' H2) as (h & Hadd & H3);
    [unfold SEND; lia|done|done| |simpl; lia|].
  { unfold writable, e'. simpl. lia. }
  exists h. change (_4G_CMD_MAX <=? SEND) with false. cbn [mbind option_bind]. rewrite Hb.
  split; [exact Hadd|]. split; [exact H3|]. by apply order_snoc.
Qed.

Lemma send_body_ok u q phone m smsc o :
  wf u q -> order q -> SEND ∉ q -> fits (center_message u) phone m smsc o ->
  exists h rest,
    let u1 := with_message (pdu smsc phone o ++ rest) (zlen (pdu smsc phone o)) u in
    let u2 := with_table (<[Z.to_nat SEND := {| at_ := at_heap (announce phone o); at_size := 0 |}]>
                            (table u)) u1 in
    send_body true iconv u phone m = Some (with_hp h u2) /\ wf (with_hp h u2) (q ++ [SEND]) /\
    order (q ++ [SEND]).
Proof.
  intros H Ho Hs Hf. unfold send_body.
  destruct (send_pdu_ok _ _ _ _ _ _ Hf (wf_short _ _ H)) as (rest & -> & Hz & Hpl).
  rewrite bind_some. cbn beta iota. rewrite u64_id by lia. cbn [default from_option id].
  assert (0 <= zlen (tpdu phone o) / 2) as Hcn by (apply Z.div_pos; [apply zlen_nonneg|lia]).
  destruct (announce_ok _ Hcn) as (buf & r & -> & Hr).
  rewrite bind_some. cbn beta iota. rewrite Hr, bind_some. set (u1 := with_message _ _ u).
  assert (wf u1 q) as H1 by (destruct H; by split).
  destruct (queue_send_ok u1 q (cmgs_text (zlen (tpdu phone o) / 2))) as (h & Hrun & Hw & Ho');
    [done|done|done|done|by apply cmgs_text_ok|].
  exists h, rest. done.
Qed.
End send.

(** ** Initialisation *)

Definition allocated_b (h : heap) (p : Z) : bool :=
  bool_decide (is_Some (nx h !! p)) && bool_decide (is_Some (pv h !! p)).

Lemma init_heap_check :
  match init_heap with
  | Some h => bool_decide (nx h !! HEAD = Some HEAD) && bool_decide (pv h !! HEAD = Some HEAD)
              && forallb (fun c => allocated_b h (node c)) (seqZ 0 13)
  | None => false
  end = true.
Proof. by vm_compute. Qed.

Lemma init_heap_ok :
  exists h, init_heap = Some h /\ is_list h HEAD [] /\ (forall c, 0 <= c < 13 -> allocated h (node c)).
Proof.
  pose proof init_heap_check as H. destruct init_heap as [h|]; [|done]. exists h. split; [done|].
  btest. split; [split; [apply NoDup_singleton|done]|]. intros c Hc.
  eapply forallb_forall in H0; [|apply list_elem_of_In, elem_of_seqZ, Hc].
  unfold allocated_b in H0. btest. by split.
Qed.

Lemma u9300_init_ok center ok :
  no_nul center ->
  exists u, u9300_init u9300_cmd center ok = Some u /\
    wf u [_4G_CMD_VENDOR_NAME; _4G_CMD_MODULE_TYPE; _4G_CMD_MODULE_IMEI; _4G_MESSAGE_SET_PDU; _4G_MESSAGE_SET_ENCODE]
    /\ cstr (center_message u) = take 63 center.
Proof.
  intros Hc. unfold u9300_init. destruct init_heap_ok as (h0 & -> & Hl & Ha). rewrite bind_some.
  destruct (op_strlcpy_fits (replicate 64 0) center 64) as (cm & k & -> & _ & _ & _ & Hcm);
    [done|unfold zlen; rewrite length_replicate; lia|lia|].
  rewrite bind_some. cbn beta iota. cbn [default from_option id].
  set (u0 := {| hp := h0 |}).
  assert (wf u0 []) as H0.
  { split; [exact Hl|exact Ha|done|by constructor|by constructor| |done|by intros ?%elem_of_nil|by vm_compute].
    eexists. split; [reflexivity|by left]. }
  assert (forall u q c, wf u q -> table u = u9300_cmd -> c ∉ q -> c ∈ [3; 4; 5; 7; 8] ->
            exists h, u9300_add_cmd u c = Some (with_hp h u) /\ wf (with_hp h u) (q ++ [c])) as Hadd.
  { intros u q c Hw Ht Hq Hin.
    assert (exists e, u9300_cmd !! Z.to_nat c = Some e /\ writable e /\ 0 <= c < 13 /\ c <> SEND) as (e & He & Hwr & Hr & Hne).
    { unfold SEND. repeat (apply elem_of_cons in Hin as [->|Hin];
        [eexists; split; [reflexivity|]; split; [by vm_compute|lia]|]). by apply elem_of_nil in Hin. }
    apply (u9300_add_cmd_ok u q c e); [done..| |done|done]. unfold cmd_at. by rewrite Ht. }
  destruct (Hadd u0 [] 3 H0) as (h1 & E1 & H1); [done|by intros ?%elem_of_nil|set_solver|].
  unfold _4G_CMD_VENDOR_NAME. rewrite E1, bind_some.
  destruct (Hadd _ _ 4 H1) as (h2 & E2 & H2); [done|by apply (bool_decide_unpack _)|set_solver|].
  unfold _4G_CMD_MODULE_TYPE. rewrite E2, bind_some.
  destruct (Hadd _ _ 5 H2) as (h3 & E3 & H3); [done|by apply (bool_decide_unpack _)|set_solver|].
  unfold _4G_CMD_MODULE_IMEI. rewrite E3, bind_some.
  destruct (Hadd _ _ 7 H3) as (h4 & E4 & H4); [done|by apply (bool_decide_unpack _)|set_solver|].
  unfold _4G_MESSAGE_SET_PDU. rewrite E4, bind_some.
  destruct (Hadd _ _ 8 H4) as (h5 & E5 & H5); [done|by apply (bool_decide_unpack _)|set_solver|].
  unfold _4G_MESSAGE_SET_ENCODE. rewrite E5, bind_some.
  destruct (u9300_write_cmd_ok _ _ ok H5) as (u & -> & Hw & Hcm'). exists u. split; [done|]. split; [exact Hw|].
  rewrite Hcm'. exact Hcm.
Qed.

(** ** The system of threads *)

Lemma wf_queue u q : wf u q -> list_for_each 13 (hp u) HEAD = Some (node <$> q).
Proof.
  intros H. apply list_for_each_spec; [apply (wf_list _ _ H)|]. rewrite length_fmap. by apply (wf_length u).
Qed.

Definition queued (u : u9300) (c : Z) : Prop :=
  match list_for_each 13 (hp u) HEAD with Some ns => node c ∈ ns | None => False end.

Lemma wf_queued u q c : wf u q -> queued u c <-> c ∈ q.
Proof.
  intros H. unfold queued. rewrite (wf_queue _ _ H), list_elem_of_fmap. split; [|by exists c].
  intros (d & Hd & Hq). apply node_inj in Hd. by subst d.
Qed.

Section system.
Context (iconv : list Z -> Z -> option (list Z)).

Definition sendable (u : u9300) (pm : list Z * list Z) : Prop :=
  exists smsc o, fits iconv (center_message u) (fst pm) (snd pm) smsc o.

(** What may happen in a state: anything, messages that fit, and a sender that is woken while
    no message is queued. *)
Definition legal (s : sys) (l : label) : Prop :=
  match l with
  | L_send phone m => sendable (mod_ s) (phone, m)
  | L_wake i => (i < length (waiting s))%nat /\ ~ queued (mod_ s) SEND
  | _ => True
  end.

Inductive reachable (center : list Z) : sys -> Prop :=
| reach_init ok u :
    u9300_init u9300_cmd center ok = Some u ->
    reachable center {| mod_ := u; waiting := []; writers := 0 |}
| reach_step s l s' : reachable center s -> legal s l -> exec true iconv s l = Some s' -> reachable center s'.

Definition inv (s : sys) : Prop :=
  exists q, wf (mod_ s) q /\ order q /\ Forall (sendable (mod_ s)) (waiting s).

Lemma sendable_center u u' pms :
  center_message u' = center_message u -> Forall (sendable u) pms -> Forall (sendable u') pms.
Proof. intros E H. eapply Forall_impl; [done|]. intros pm. unfold sendable. by rewrite E. Qed.

Lemma send_step u q phone m :
  wf u q -> order q -> SEND ∉ q -> sendable u (phone, m) ->
  exists u' q', send_body true iconv u phone m = Some u' /\ wf u' q' /\ order q' /\
    center_message u' = center_message u.
Proof.
  intros H Ho Hs (smsc & o & Hf).
  destruct (send_body_ok iconv u q phone m smsc o H Ho Hs Hf) as (h & rest & -> & Hw & Ho'). eauto 10.
Qed.

Lemma exec_ok s l : inv s -> legal s l -> exists s', exec true iconv s l = Some s' /\ inv s'.
Proof.
  destruct s as [u ws n]. intros (q & H & Ho & Hws) Hl. simpl in *. destruct l as [resp ok| | |phone m|i|i|ok].
  - destruct (u9300_uart_handle_ok u q resp ok H Ho) as (u' & ev & q' & Hr & H' & Ho' & Hc). simpl.
    rewrite Hr, bind_some. eexists. split; [done|]. exists q'. split_and!; [done..|]. by eapply sendable_center.
  - destruct (u9300_atcmd_timeout_ok u q H) as (u' & q' & Hr & H' & Hq & _ & Hc). simpl.
    rewrite Hr, bind_some. eexists. split; [done|]. exists q'. split_and!; [done| |by eapply sendable_center].
    destruct Hq as [->| ->]; [done|]. apply order_without. by intros ?%elem_of_nil.
  - destruct (u9300_atcmd_no_respobse_ok u q H) as (u' & Hr & H' & Hc). simpl.
    rewrite Hr, bind_some. eexists. split; [done|]. exists q. split_and!; [done..|]. by eapply sendable_center.
  - simpl. rewrite (wf_empty _ _ H), bind_some. destruct (bool_decide (q = [])) eqn:Eq; btest.
    + subst q. destruct (send_step u [] phone m) as (u' & q' & Hr & H' & Ho' & Hc); [done|done|by intros ?%elem_of_nil|done|].
      rewrite Hr, bind_some. eexists. split; [done|]. exists q'. split_and!; [done..|]. by eapply sendable_center.
    + eexists. split; [done|]. exists q. split_and!; [done..|]. apply Forall_app. split; [done|]. by apply Forall_singleton.
  - destruct Hl as [Hi Hs]. rewrite (wf_queued _ _ _ H) in Hs. simpl in Hi.
    apply lookup_lt_is_Some in Hi as [[phone m] Hi]. simpl. rewrite Hi, bind_some. cbn beta iota.
    destruct (send_step u q phone m) as (u' & q' & Hr & H' & Ho' & Hc); [done..| |].
    { by eapply (Forall_lookup_1 _ _ _ _ Hws Hi). }
    rewrite Hr, bind_some. eexists. split; [done|]. exists q'. split_and!; [done..|].
    eapply sendable_center; [done|]. by apply Forall_delete.
  - eexists. split; [done|]. exists q. split_and!; [done..|]. by apply Forall_delete.
  - destruct (u9300_write_cmd_ok u q ok H) as (u' & Hr & H' & Hc). simpl.
    rewrite Hr, bind_some. eexists. split; [done|]. exists q. split_and!; [done..|]. by eapply sendable_center.
Qed.

Lemma reachable_inv center s : no_nul center -> reachable center s -> inv s.
Proof.
  intros Hc. induction 1 as [ok u Hi|s l s' _ IH Hl Hx].
  - destruct (u9300_init_ok center ok Hc) as (u' & Hi' & Hw & _).
    assert (Some u = Some u') as [= <-] by (by rewrite <- Hi, <- Hi'). clear Hi Hi'.
    eexists. split; [exact Hw|]. split; [|done]. apply order_without. by apply (bool_decide_unpack _).
  - destruct (exec_ok s l IH Hl) as (s'' & Hx' & Hinv).
    assert (Some s' = Some s'') as [= ->] by (by rewrite <- Hx, <- Hx'). done.
Qed.
End system.

(** ** One message, step by step *)

Lemma write_heap u c s :
  cmd_at u c = Some {| at_ := at_heap s; at_size := 0 |} -> zlen s < 2147483648 ->
  write_at u c = Some (emit s u).
Proof.
  intros He Hl. unfold write_at. rewrite He, bind_some. simpl. pose proof (zlen_nonneg s).
  rewrite s32_id by lia. rewrite (proj2 (Z.ltb_ge _ _)) by lia. rewrite take_ge; [done|]. unfold zlen. lia.
Qed.

Lemma write_short u c p rest :
  cmd_at u c = Some {| at_ := at_short; at_size := zlen p |} -> short_message u = p ++ rest -> 0 < zlen p ->
  write_at u c = Some (emit p u).
Proof.
  intros He Hs Hl. unfold write_at. rewrite He, bind_some. simpl.
  rewrite (proj2 (Z.eqb_neq (zlen p) 0)) by lia. simpl. rewrite Hs.
  rewrite (proj2 (Z.ltb_ge _ _)) by (unfold zlen; rewrite length_app; lia).
  rewrite take_pre; [done|]. unfold zlen. lia.
Qed.

(** The prompt of the modem: the PDU is written. *)
Lemma handle_prompt u p rest resp :
  wf u [SEND] -> current u = Some SEND -> short_message u = p ++ rest -> short_message_size u = zlen p ->
  u9300_is_at_cmd_ok resp = true ->
  exists u', u9300_uart_handle u resp true = Some (u', EVENT_NEXT) /\ wf u' [CONTENT] /\
    current u' = Some CONTENT /\ out u' = p :: out u /\ signals u' = signals u /\ center_message u' = center_message u.
Proof.
  intros H Hc Hsm Hss Hok. unfold u9300_uart_handle. rewrite (wf_empty _ _ H), bind_some, Hc, Hok. cbn [negb bool_decide].
  set (u1 := with_timers (timer_at_cmd u) false u). assert (wf u1 [SEND]) as H1 by (by apply wf_timers).
  pose proof (wf_size _ _ H ltac:(by left)) as Hsz.
  change (at_cmd_cb SEND) with (Some u9300_cmd_message). unfold u9300_cmd_message, u9300_set_at_cmd.
  assert (exists e, cmd_at u1 CONTENT = Some e) as [e He].
  { unfold cmd_at. apply lookup_lt_is_Some. rewrite (wf_table _ _ H1). unfold CONTENT. lia. }
  change (_4G_CMD_MAX <=? CONTENT) with false. rewrite He, bind_some.
  assert (match at_ e with at_lit _ | at_short => CONTENT =? SEND | _ => false end = false) as -> by (by destruct (at_ e)).
  rewrite bind_some. change (short_message_size u1) with (short_message_size u). rewrite s32_id by lia. rewrite Hss.
  set (e1 := {| at_ := at_short; at_size := zlen p |}).
  destruct (wf_set_table u1 [SEND] CONTENT e1 H1) as [H2 He2]; [unfold CONTENT; lia|set_solver|done|].
  destruct (u9300_add_cmd_ok _ _ CONTENT e1 H2) as (h & -> & H3);
    [unfold CONTENT; lia|set_solver|done|unfold writable; simpl; lia|done|].
  rewrite !bind_some. cbn beta iota. simpl (0 <? 0). cbn iota.
  set (u2 := with_hp h _) in *. simpl app in H3. unfold handle_done. cbn [hp with_timers].
  destruct (wf_del_current _ _ _ H3) as (h' & -> & Hw). rewrite bind_some. cbn [hp with_hp].
  specialize (Hw (Some CONTENT) (or_intror eq_refl)).
  pose proof (wf_empty _ _ Hw) as Hemp. cbn [hp with_current with_hp] in Hemp. rewrite Hemp, bind_some.
  cbn [bool_decide decide]. destruct (wf_send _ _ Hw) as (es & Hes & Hat). unfold cmd_at in Hes |- * at 1.
  cbn [table with_current with_hp with_timers] in Hes |- *. rewrite Hes, bind_some. cbn [hp with_table with_hp].
  assert (list_first_entry h' HEAD = Some (node CONTENT)) as -> by apply (wf_first _ _ _ Hw).
  rewrite bind_some, cmd_of_node. set (u3 := with_current _ _).
  destruct (wf_set_table _ _ SEND {| at_ := at_ es; at_size := 0 |} Hw) as [H4 _];
    [unfold SEND; lia|set_solver|done|].
  assert (wf u3 [CONTENT]) as H5 by (revert H4; by apply wf_core).
  assert (cmd_at u3 CONTENT = Some e1) as He5.
  { unfold u3, cmd_at. cbn [table with_current with_table with_hp with_timers].
    rewrite list_lookup_insert_ne by done. exact He2. }
  rewrite (write_short u3 CONTENT p rest) by (done || lia). rewrite bind_some. eexists. split; [done|].
  split_and!; [by apply wf_timers, wf_emit|done..].
Qed.

(** The final OK: the queue is empty and a waiting sender is signalled. *)
Lemma handle_final u resp :
  wf u [CONTENT] -> current u = Some CONTENT -> u9300_is_at_cmd_ok resp = true -> has_ok (cstr resp) = true ->
  exists u', u9300_uart_handle u resp true = Some (u', EVENT_NONE) /\ wf u' [] /\
    current u' = None /\ out u' = out u /\ signals u' = S (signals u).
Proof.
  intros H Hc Hok Hr. unfold u9300_uart_handle. rewrite (wf_empty _ _ H), bind_some, Hc, Hok. cbn [negb bool_decide].
  change (at_cmd_cb CONTENT) with (Some u9300_cmd_message_content). unfold u9300_cmd_message_content. rewrite Hr, bind_some.
  cbn beta iota. simpl (0 <? 0). cbn iota. unfold handle_done. cbn [hp with_timers].
  destruct (wf_del_current _ _ _ H) as (h' & -> & Hw). rewrite bind_some. cbn [hp with_hp].
  specialize (Hw None (or_introl eq_refl)).
  pose proof (wf_empty _ _ Hw) as Hemp. cbn [hp with_current with_hp] in Hemp. rewrite Hemp, bind_some.
  eexists. split; [done|]. split_and!; [|done..]. revert Hw. by apply wf_core.
Qed.

(** A conversion of ASCII texts, and numbers for the examples. *)
Definition ascii_ucs2 (m : list Z) (n : Z) : option (list Z) := Some (concat ((fun c => [0; u8 c]) <$> m)).
Definition example_center : list Z := str "+8613800100500".

(** C33. A message on an idle module: the command that announces the PDU is written, at the
    modem's prompt the PDU with its 0x1A, and at the final OK the module is idle again and
    signals the senders that wait. *)
Theorem u9300_message_flow iconv center s phone m smsc o prompt final :
  no_nul center -> reachable iconv center s ->
  list_empty (hp (mod_ s)) HEAD = Some true ->
  fits iconv (center_message (mod_ s)) phone m smsc o ->
  u9300_is_at_cmd_ok prompt = true -> u9300_is_at_cmd_ok final = true -> has_ok (cstr final) = true ->
  exists s', run true iconv s [L_send phone m; L_write true; L_resp prompt true; L_resp final true] = Some s' /\
    out (mod_ s') = pdu smsc phone o :: announce phone o :: out (mod_ s) /\
    list_empty (hp (mod_ s')) HEAD = Some true /\ current (mod_ s') = None /\
    signals (mod_ s') = S (signals (mod_ s)).
Proof.
  intros Hc Hr He Hf Hp Hfin Hok. destruct (reachable_inv iconv center s Hc Hr) as (q & H & _ & _).
  pose proof (wf_empty _ _ H) as Hq. rewrite He in Hq. injection Hq as Hq. symmetry in Hq. btest. subst q.
  destruct (send_body_ok iconv (mod_ s) [] phone m smsc o H) as (h & rest & Hs & Hw & _);
    [apply order_without; by intros ?%elem_of_nil|by intros ?%elem_of_nil|done|]. simpl app in Hw.
  cbn [run exec]. rewrite He, bind_some, Hs, !bind_some. cbn [mod_ waiting writers]. set (u1 := with_hp h _) in *.
  (* the announcement *)
  unfold u9300_write_cmd. rewrite (wf_empty _ _ Hw), bind_some.
  change (bool_decide ([SEND] = [])) with false. cbn iota. rewrite (wf_first _ _ _ Hw), bind_some, cmd_of_node.
  rewrite (write_heap _ SEND (announce phone o)).
  2: { unfold cmd_at, u1. cbn [table with_current with_hp with_table]. apply list_lookup_insert_eq.
       rewrite (wf_table _ _ H). unfold SEND. lia. }
  2: { pose proof (cmgs_text_ok (zlen (tpdu phone o) / 2)) as Hcm. unfold announce.
       pose proof (zlen_nonneg (tpdu phone o)). pose proof (Z.div_pos (zlen (tpdu phone o)) 2). lia. }
  rewrite !bind_some. cbn [mod_ waiting writers]. set (u2 := with_timers _ true _).
  assert (wf u2 [SEND]) as H2 by (by apply wf_timers, wf_emit, wf_with_current).
  (* the prompt *)
  destruct (handle_prompt u2 (pdu smsc phone o) rest prompt H2) as (u3 & -> & H3 & Hc3 & Ho3 & Hs3 & _); [done..|].
  rewrite !bind_some. cbn beta iota. rewrite ?bind_some. cbn [mod_ waiting writers].
  (* the final response *)
  destruct (handle_final u3 final H3 Hc3 Hfin Hok) as (u4 & -> & H4 & Hc4 & Ho4 & Hs4).
  rewrite !bind_some. cbn beta iota. rewrite ?bind_some. eexists. split; [done|]. cbn [mod_].
  split_and!; [by rewrite Ho4, Ho3|apply (wf_empty _ _ H4)|done|by rewrite Hs4, Hs3].
Qed.

(** Five responses after the start the module is idle. *)
Definition example_idle (u : u9300) : option sys :=
  run true ascii_ucs2 {| mod_ := u; waiting := []; writers := 0 |} (replicate 5 (L_resp [13; 10] true)).

Lemma u9300_message_flow_witness :
  exists u s s', u9300_init u9300_cmd example_center true = Some u /\ example_idle u = Some s /\
    run true ascii_ucs2 s [L_send (str "13512345678") (str "hi"); L_write true;
                           L_resp ([13; 10] ++ str "> ") true; L_resp (str "OK" ++ [13; 10]) true] = Some s' /\
    out (mod_ s') = (str "0891683108100005F011000E91683115325476F80008000400680069" ++ [26])
                    :: (str "AT+CMGS=19" ++ [13]) :: out (mod_ s).
Proof.
  destruct (u9300_init u9300_cmd example_center true) as [u|] eqn:E;
    [|exfalso; revert E; vm_compute; discriminate].
  assert (exists s, example_idle u = Some s /\ list_empty (hp (mod_ s)) HEAD = Some true /\
            cstr (center_message (mod_ s)) = example_center /\ reachable ascii_ucs2 example_center s)
    as (s & Hs & He & Hcm & Hr).
  { pose proof (reach_init ascii_ucs2 example_center true u E) as R0.
    assert (forall n s, reachable ascii_ucs2 example_center s ->
              forall s', run true ascii_ucs2 s (replicate n (L_resp [13; 10] true)) = Some s' ->
              reachable ascii_ucs2 example_center s') as Rn.
    { induction n as [|n IH]; intros s Rs s' Hrun; simpl in Hrun; [by injection Hrun as <-|].
      destruct (exec true ascii_ucs2 s (L_resp [13; 10] true)) as [s1|] eqn:Ex; cbn in Ex, Hrun;
        rewrite ?Ex in Hrun; [|discriminate].
      eapply IH; [|exact Hrun]. by eapply (reach_step _ _ _ (L_resp [13; 10] true)). }
    assert (match u9300_init u9300_cmd example_center true with
            | Some u => match example_idle u with
                        | Some s => bool_decide (list_empty (hp (mod_ s)) HEAD = Some true)
                                    && bool_decide (cstr (center_message (mod_ s)) = example_center)
                        | None => false end
            | None => false end = true) as Hchk by (vm_compute; reflexivity).
    rewrite E in Hchk. destruct (example_idle u) as [s|] eqn:Ei; [|discriminate]. btest.
    exists s. split_and!; [done..|]. by eapply Rn. }
  destruct (u9300_message_flow ascii_ucs2 example_center s (str "13512345678") (str "hi")
              (str "8613800100500") [0; 104; 0; 105] ([13; 10] ++ str "> ") (str "OK" ++ [13; 10]))
    as (s' & Hrun & Hout & _).
  - apply no_nul_dec. reflexivity.
  - exact Hr.
  - exact He.
  - unfold fits. rewrite Hcm. clear. split; [reflexivity|]. split; [by apply no_nul_dec|]. split; [by vm_compute|].
    split; [by apply no_nul_dec|]. split; [by vm_compute|]. split; [reflexivity|by apply bytes_dec].
  - reflexivity.
  - reflexivity.
  - reflexivity.
  - exists u, s, s'. split_and!; [reflexivity|exact Hs|exact Hrun|]. rewrite Hout. vm_compute. reflexivity.
Defined.

(** Two senders: the first waits while the last start-up command is answered; the answer empties
    the queue and signals it; the second finds the queue empty before the first has the lock. *)
Definition race_trace : list label :=
  replicate 4 (L_resp [13; 10] true)
  ++ [L_send (str "13512345678") (str "a"); L_resp [13; 10] true;
      L_send (str "13512345678") (str "b"); L_wake 0].

(** The wait of [u9300_send_message] does not test the queue again: with two senders and no
    failing call the woken one queues the message command a second time, the ring no longer leads
    back to its head, and the second answer of the modem makes [list_del] follow a null pointer. *)
Theorem u9300_send_race :
  match u9300_init u9300_cmd example_center true with
  | Some u =>
      match run true ascii_ucs2 {| mod_ := u; waiting := []; writers := 0 |} race_trace with
      | Some s =>
          signals (mod_ s) = 1%nat /\ list_for_each 1000 (hp (mod_ s)) HEAD = None /\
          run true ascii_ucs2 s [L_write true; L_resp [13; 10] true; L_resp [13; 10] true] = None
      | None => False
      end
  | None => False
  end.
Proof. vm_compute. split_and!; reflexivity. Qed.

(** ** The receive buffer *)

Definition read_offset (g : op4g) : Z := if _4G_READ_BUF_SIZE - 1 <=? index g then 0 else index g.

Lemma read_offset_range g : 0 <= index g <= 2047 -> 0 <= read_offset g < 2047.
Proof. intros H. unfold read_offset, _4G_READ_BUF_SIZE. bcase; lia. Qed.

(** The bytes of [read] behind those kept, and the terminator behind them. *)
Lemma op4g_store g d :
  zlen (bf g) = 2048 -> 0 <= index g <= 2047 -> zlen d <= 2047 - read_offset g ->
  let idx := read_offset g in
  exists rest,
    poke (drop (Z.to_nat idx) (bf g)) d = Some (d ++ rest) /\
    (exists rest', <[Z.to_nat (idx + zlen d) := 0]> (take (Z.to_nat idx) (bf g) ++ d ++ rest)
                   = (take (Z.to_nat idx) (bf g) ++ d) ++ 0 :: rest' /\
                   zlen ((take (Z.to_nat idx) (bf g) ++ d) ++ 0 :: rest') = 2048) /\
    zlen (take (Z.to_nat idx) (bf g) ++ d ++ rest) = 2048.
Proof.
  intros Hb Hi Hd idx. pose proof (read_offset_range g Hi) as Ho. fold idx in Ho.
  assert (length (take (Z.to_nat idx) (bf g)) = Z.to_nat idx) as Ht by (rewrite length_take; unfold zlen in Hb; lia).
  set (r := drop (length d) (drop (Z.to_nat idx) (bf g))).
  assert (zlen r = 2048 - idx - zlen d) as Hr by (unfold r, zlen in *; rewrite !length_drop; lia).
  destruct (poke_ok (drop (Z.to_nat idx) (bf g)) d) as [-> _].
  { rewrite length_drop. unfold zlen in *. fold idx in Hd. lia. }
  fold r. exists r. fold idx in Hd. destruct r as [|x r']; [unfold zlen in *; simpl in *; lia|].
  split; [done|]. split; [|unfold zlen in *; rewrite !length_app; simpl in *; lia].
  exists r'. rewrite app_assoc. split.
  - rewrite insert_app_r_alt by (rewrite length_app, Ht; unfold zlen; lia).
    rewrite length_app, Ht. replace (Z.to_nat (idx + zlen d) - (Z.to_nat idx + length d))%nat with 0%nat
      by (unfold zlen; lia). done.
  - unfold zlen in *. rewrite !length_app. simpl in *. lia.
Qed.

(** The bytes go to the module, and what it answers decides what is kept. *)
Lemma op4g_job_hands_over g u d ok u' ev :
  zlen (bf g) = 2048 -> 0 <= index g <= 2047 -> 0 < zlen d <= 2047 - read_offset g ->
  let seen := take (Z.to_nat (read_offset g)) (bf g) ++ d in
  u9300_uart_handle u seen ok = Some (u', ev) ->
  exists g', op4g_job g u (Some d) ok = Some (g', u') /\ closed g' = false /\
    zlen (bf g') = 2048 /\ 0 <= index g' <= 2047 /\
    match ev with
    | EVENT_MORE => index g' = zlen seen /\ cstr (drop (Z.to_nat (index g')) (bf g')) = [] /\
                    take (Z.to_nat (index g')) (bf g') = seen
    | _ => index g' = 0
    end.
Proof.
  intros Hb Hi Hd seen Hh. pose proof (read_offset_range g Hi) as Hof.
  destruct (op4g_store g d Hb Hi ltac:(lia)) as (rest & Hpk & (rest' & Hins & Hlen') & Hlen).
  fold seen in Hins, Hlen'.
  assert (zlen seen = read_offset g + zlen d) as Hsl.
  { unfold seen, zlen in *. rewrite length_app, length_take. lia. }
  unfold op4g_job. fold (read_offset g). destruct d as [|x d]; [unfold zlen in Hd; simpl in Hd; lia|].
  set (dd := x :: d) in *. cbn [default from_option id]. unfold _4G_READ_BUF_SIZE.
  rewrite (proj2 (Z.ltb_ge _ _)) by lia. rewrite Hpk, bind_some. rewrite u32_id by lia.
  rewrite Hlen, (proj2 (Z.leb_gt _ _)) by lia. rewrite Hins, <- Hsl.
  rewrite take_pre by (unfold zlen; lia). rewrite Hh, bind_some.
  eexists. split; [done|]. split; [done|]. cbn [bf index].
  split; [done|]. split; [destruct ev; lia|]. destruct ev; try done.
  split; [done|]. rewrite drop_pre, take_pre by (unfold zlen; lia). done.
Qed.

(** op4g_job hands the module everything read since the last complete answer, in order, and
    stays in its buffer: what is kept while the module asks for more is the bytes read so far and a
    terminator.  A [read] that fails is not noticed: with an empty buffer its -1 is an index
    outside the array. *)
Theorem op4g_job_reassembles iconv center s g d ok :
  no_nul center -> reachable iconv center s ->
  zlen (bf g) = 2048 -> 0 <= index g <= 2047 -> 0 < zlen d <= 2047 - read_offset g ->
  let seen := take (Z.to_nat (read_offset g)) (bf g) ++ d in
  (exists g' u' ev,
     u9300_uart_handle (mod_ s) seen ok = Some (u', ev) /\
     op4g_job g (mod_ s) (Some d) ok = Some (g', u') /\
     zlen (bf g') = 2048 /\ 0 <= index g' <= 2047 /\
     match ev with
     | EVENT_MORE => index g' = zlen seen /\ cstr (drop (Z.to_nat (index g')) (bf g')) = [] /\
                     take (Z.to_nat (index g')) (bf g') = seen
     | _ => index g' = 0
     end) /\
  (index g = 0 -> op4g_job g (mod_ s) None ok = None).
Proof.
  intros Hc Hr Hb Hi Hd seen. destruct (reachable_inv iconv center s Hc Hr) as (q & H & Ho & _).
  pose proof (read_offset_range g Hi) as Hof. split.
  - destruct (u9300_uart_handle_ok (mod_ s) q seen ok H Ho) as (u' & ev & _ & Hh & _).
    destruct (op4g_job_hands_over g (mod_ s) d ok u' ev Hb Hi Hd Hh) as (g' & Hj & _ & Hg). by exists g', u', ev.
  - intros Hz. unfold op4g_job. rewrite Hz. cbn [default from_option id]. unfold _4G_READ_BUF_SIZE.
    simpl (2048 - 1 <=? 0). cbn iota. change (2048 - 0 - 1 <? zlen []) with false. cbn iota.
    rewrite (proj1 (poke_ok _ [] ltac:(simpl; lia))), bind_some.
    cbn [length app]. rewrite !drop_0. change (Z.to_nat 0) with 0%nat. rewrite ?take_0, ?drop_0.
    cbn [app]. rewrite Hb. reflexivity.
Qed.

Lemma op4g_job_reassembles_witness :
  exists u, u9300_init u9300_cmd example_center true = Some u /\
    (exists g' u', op4g_job {| bf := replicate 2048 0; index := 0; closed := false |} u (Some (str "OK")) true
                   = Some (g', u')) /\
    op4g_job {| bf := replicate 2048 0; index := 0; closed := false |} u None true = None.
Proof.
  destruct (u9300_init u9300_cmd example_center true) as [u|] eqn:E;
    [|exfalso; revert E; vm_compute; discriminate].
  destruct (op4g_job_reassembles ascii_ucs2 example_center {| mod_ := u; waiting := []; writers := 0 |}
              {| bf := replicate 2048 0; index := 0; closed := false |} (str "OK") true)
    as [(g' & u' & ev & _ & Hj & _) Hn].
  - apply no_nul_dec. reflexivity.
  - exact (reach_init ascii_ucs2 example_center true u E).
  - reflexivity.
  - clear. vm_compute. split; discriminate.
  - clear. vm_compute. split; [reflexivity|discriminate].
  - exists u. split; [reflexivity|]. split; [exists g', u'; exact Hj|]. apply Hn. reflexivity.
Defined.
