(* ===== verification/U9300Timers.v ===== *)
(** * module/op4g/u9300.c: the timer callbacks, access by access

    [u9300_atcmd_timeout] and [u9300_atcmd_no_respobse] run in the thread of the event loop
    without the lock, so that the locked sections of the threads that send a message may come
    between any two of their accesses. Here each callback is a sequence of steps, one per access
    to the shared state or statement of [list_del]; the locked sections are the transitions of
    U9300.v. The handler of the modem's answers runs in the thread of the timers and is never
    between two of their steps. [None] is a fault. *)

From S2P Require Import Prelude Bytes CString Utils Pdu LinkList U9300.
From stdpp Require Import base tactics numbers list gmap strings option.
From Stdlib Require Import ZArith Lia.
Open Scope Z_scope.
Import Utils Pdu LinkList U9300.

Module U9300Timers.

(** Where the thread of the event loop is. *)
Inductive pc :=
| Idle
(* u9300_atcmd_timeout *)
| T_current | T_empty | T_log            (* the tests of line 181, the message of line 183 *)
| T_loop | T_fetch                       (* lines 184 and 185 *)
| T_del1 (item : Z) | T_del2 (item : Z) | T_del3 (item : Z) | T_del4 (item : Z)   (* list_del, line 186 *)
| T_signal | T_clear | T_unlock          (* lines 188 to 190 *)
(* u9300_atcmd_no_respobse *)
| N_current | N_empty | N_log            (* the tests of line 203, the message of line 206 *)
| N_size | N_write (size : Z).           (* lines 208 and 210 *)

#[export] Instance pc_eq_dec : EqDecision pc.
Proof. solve_decision. Defined.

(** [current->at] for a message of the log. *)
Definition log_current (u : u9300) : option unit :=
  c ← current u; e ← cmd_at u c; match at_ e with at_null => None | _ => Some tt end.

(** [size = current->at_size ? current->at_size : strlen(current->at)]. *)
Definition at_count (u : u9300) (cmd : Z) : option Z :=
  c ← cmd_at u cmd;
  if at_size c =? 0 then n ← at_strlen u (at_ c); Some (s32 n) else Some (at_size c).
(** [write(u->fd, current->at, size)]. *)
Definition write_count (u : u9300) (cmd size : Z) : option u9300 :=
  c ← cmd_at u cmd;
  mem ← at_memory u (at_ c);
  if zlen mem <? size then None else Some (emit (take (Z.to_nat size) mem) u).

(** The statements of [list_del]. *)
Definition del1 (h : heap) (entry : Z) : option heap :=
  n ← nx h !! entry; p ← pv h !! entry; set_prev h n p.
Definition del2 (h : heap) (entry : Z) : option heap :=
  p ← pv h !! entry; n ← nx h !! entry; set_next h p n.

(** One step. A mutex unlocked by a thread that does not hold it stays as it is. *)
Definition timer_step (u : u9300) (p : pc) : option (u9300 * pc) :=
  match p with
  | Idle => Some (u, Idle)
  | T_current => Some (u, match current u with Some _ => T_empty | None => Idle end)
  | T_empty => e ← list_empty (hp u) HEAD; Some (u, if (e : bool) then Idle else T_log)
  | T_log => _ ← log_current u; Some (u, T_loop)
  | T_loop => e ← list_empty (hp u) HEAD; Some (u, if (e : bool) then T_signal else T_fetch)
  | T_fetch => item ← list_first_entry (hp u) HEAD; Some (u, T_del1 item)
  | T_del1 item => h ← del1 (hp u) item; Some (with_hp h u, T_del2 item)
  | T_del2 item => h ← del2 (hp u) item; Some (with_hp h u, T_del3 item)
  | T_del3 item => h ← set_prev (hp u) item NULL; Some (with_hp h u, T_del4 item)
  | T_del4 item => h ← set_next (hp u) item NULL; Some (with_hp h u, T_loop)
  | T_signal => Some (signal u, T_clear)
  | T_clear => Some (with_current None u, T_unlock)
  | T_unlock => Some (u, Idle)
  | N_current => Some (u, match current u with Some _ => N_empty | None => Idle end)
  | N_empty => e ← list_empty (hp u) HEAD; Some (u, if (e : bool) then Idle else N_log)
  | N_log => _ ← log_current u; Some (u, N_size)
  | N_size => c ← current u; size ← at_count u c; Some (u, N_write size)
  | N_write size => c ← current u; u ← write_count u c size; Some (u, Idle)
  end.

(** The callback to its end, when nothing comes between its steps; [None] also when [fuel] steps
    are not enough. *)
Fixpoint timer_run (fuel : nat) (u : u9300) (p : pc) : option u9300 :=
  match p with
  | Idle => Some u
  | _ => match fuel with
         | O => None
         | S fuel => '(u, p) ← timer_step u p; timer_run fuel u p
         end
  end.

Record tsys := { base : sys; at_pc : pc }.

Inductive tlabel :=
| L_locked (l : label)          (* a locked section *)
| L_fire_timeout | L_fire_no_response
| L_step.                       (* a step of the callback that runs *)

Definition set_mod (u : u9300) (s : sys) : sys := {| mod_ := u; waiting := waiting s; writers := writers s |}.

Section exec.
Context (iconv_open : bool) (iconv : list Z -> Z -> option (list Z)).

Definition texec (s : tsys) (l : tlabel) : option tsys :=
  let u := mod_ (base s) in
  match l with
  | L_locked l => b ← exec iconv_open iconv (base s) l; Some {| base := b; at_pc := at_pc s |}
  | L_fire_timeout =>
      Some {| base := set_mod (with_timers false (timer_no_response u) u) (base s); at_pc := T_current |}
  | L_fire_no_response =>
      Some {| base := set_mod (with_timers (timer_at_cmd u) false u) (base s); at_pc := N_current |}
  | L_step => '(u, p) ← timer_step u (at_pc s); Some {| base := set_mod u (base s); at_pc := p |}
  end.

Fixpoint trun (s : tsys) (ls : list tlabel) : option tsys :=
  match ls with
  | [] => Some s
  | l :: ls => s ← texec s l; trun s ls
  end.
End exec.

End U9300Timers.
