(* ===== verification/U9300TimersSpec.v ===== *)
(** * The command queue of the modem with its timers running without the lock

    The invariant of U9300Spec.v carried through every step of the two callbacks, with the locked
    sections of other threads between them; the callbacks left alone are the transitions of
    U9300.v; and what happens when a locked section falls inside a [list_del]. *)

From stdpp Require Import base tactics numbers option strings list gmap.
From Stdlib Require Import ZArith Lia.
From S2P Require Import Prelude Bytes CString Utils Pdu PduSpec LinkList U9300 U9300Spec U9300Timers.
Open Scope Z_scope.
Import Utils Pdu LinkList U9300 U9300Timers.

(** The queue, whatever [current] is. *)
Definition mid (u : u9300) (q : list Z) : Prop := wf (with_current None u) q.
Definition cur_head (u : u9300) (q : list Z) : Prop := forall c, current u = Some c -> head q = Some c.

Lemma wf_mid u q : wf u q <-> mid u q /\ cur_head u q.
Proof.
  split; [intros H; split; [by apply wf_no_current|exact (wf_cur _ _ H)]|].
  intros [[] Hc]. by split.
Qed.

Lemma mid_empty u q : mid u q -> list_empty (hp u) HEAD = Some (bool_decide (q = [])).
Proof. apply (wf_empty (with_current None u)). Qed.
Lemma mid_first u c r : mid u (c :: r) -> list_first_entry (hp u) HEAD = Some (node c).
Proof. apply (wf_first (with_current None u)). Qed.
Lemma mid_length u q : mid u q -> (length q <= 13)%nat.
Proof. apply wf_length. Qed.
Lemma mid_core u u' q : same_core (with_current None u) (with_current None u') -> mid u q -> mid u' q.
Proof. apply wf_core. Qed.

Lemma with_current_same u : with_current (current u) (with_current None u) = u.
Proof. by destruct u. Qed.

(** ** The locked sections *)

Lemma send_body_current io iconv u x phone m :
  send_body io iconv (with_current x u) phone m = with_current x <$> send_body io iconv u phone m.
Proof.
  unfold send_body. cbn [center_message short_message with_current].
  destruct (message_ucs2_combi_mesage _ _ _ _ _ _ _) as [[[sm n] count]|]; [|done]. rewrite !bind_some. cbn beta iota.
  destruct (snprintf _ _ _) as [[a k]|]; [|done]. rewrite !bind_some. cbn beta iota.
  destruct (read_cstr a) as [s|]; [|done]. rewrite !bind_some.
  unfold u9300_set_at_cmd, u9300_add_cmd, unsupported, cmd_at.
  cbn [table with_current with_message]. destruct (_4G_CMD_MAX <=? SEND); cbn [orb].
  - rewrite !bind_some. done.
  - destruct (table u !! Z.to_nat SEND) as [c|]; [|done]. rewrite !bind_some.
    destruct (match at_ c with at_lit _ | at_short => SEND =? SEND | _ => false end); [done|].
    rewrite !bind_some. cbn [table with_table with_current with_message hp].
    destruct (match _ !! _ with Some {| at_ := at_null |} => true | _ => false end); [done|].
    by destruct (list_add_tail _ _ _).
Qed.

Section system.
Context (iconv : list Z -> Z -> option (list Z)).

(** What a locked section of another thread leaves: the queue, or one message command more at its
    end; the command being answered, or the head; the texts of the commands queued. *)
Definition moved (u : u9300) (q : list Z) (u' : u9300) (q' : list Z) : Prop :=
  (q' = q \/ q' = q ++ [SEND]) /\ (current u' = current u \/ (current u' = head q' /\ q' <> [])) /\
  (forall c, c ∈ q -> cmd_at u' c = cmd_at u c).

Lemma moved_same u q : moved u q u q.
Proof. unfold moved. split_and!; auto. Qed.

Lemma send_moves u q phone m :
  mid u q -> order q -> SEND ∉ q -> sendable iconv u (phone, m) ->
  exists u', send_body true iconv u phone m = Some u' /\ mid u' (q ++ [SEND]) /\ order (q ++ [SEND]) /\
    center_message u' = center_message u /\ moved u q u' (q ++ [SEND]).
Proof.
  intros H Ho Hs (smsc & o & Hf).
  destruct (send_body_ok iconv (with_current None u) q phone m smsc o H Ho Hs Hf) as (h & rest & Hr & Hw & Ho').
  rewrite <- (with_current_same u), send_body_current, Hr. eexists. split; [reflexivity|].
  unfold moved. split_and!; [|done|done|by right|by left|].
  - revert Hw. by apply wf_core.
  - intros c Hc. pose proof (wf_range _ _ H) as Hrg. rewrite Forall_forall in Hrg. specialize (Hrg c Hc).
    unfold cmd_at. cbn [table with_current with_hp with_table with_message].
    apply list_lookup_insert_ne. intros E. assert (SEND = c) as <- by (unfold SEND in *; lia). done.
Qed.

Lemma write_moves u q ok :
  mid u q -> exists u', u9300_write_cmd u ok = Some u' /\ mid u' q /\ center_message u' = center_message u /\ moved u q u' q.
Proof.
  intros H. unfold u9300_write_cmd. rewrite (mid_empty _ _ H). simpl. destruct q as [|c r]; simpl.
  { exists u. split_and!; [done..|apply moved_same]. }
  rewrite (mid_first _ _ _ H). simpl. rewrite cmd_of_node.
  pose proof (wf_with_current _ _ _ H) as H'.
  change (with_current (Some c) (with_current None u)) with (with_current (Some c) u) in H'.
  destruct (write_at_ok _ _ c H') as [w ->]; [by left|]. simpl.
  destruct ok; eexists; (split; [reflexivity|]); (split; [by apply (wf_core (with_current None u))|]);
    (split; [done|]); unfold moved; (split_and!; [by left|by right|done]).
Qed.

(** The threads that send. *)
Definition of_sender (l : label) : bool :=
  match l with L_send _ _ | L_wake _ | L_give_up _ | L_write _ => true | _ => false end.

Lemma locked_moves s q l :
  mid (mod_ s) q -> order q -> Forall (sendable iconv (mod_ s)) (waiting s) -> legal iconv s l -> of_sender l = true ->
  exists s' q', exec true iconv s l = Some s' /\ mid (mod_ s') q' /\ order q' /\
    Forall (sendable iconv (mod_ s')) (waiting s') /\ moved (mod_ s) q (mod_ s') q'.
Proof.
  destruct s as [u ws n]. intros H Ho Hws Hl Hof. cbn [mod_ waiting] in *. destruct l as [| | |phone m|i|i|ok]; try done.
  - cbn [exec mod_ waiting writers]. rewrite (mid_empty _ _ H), bind_some. destruct (bool_decide (q = [])) eqn:Eq; btest.
    + subst q. destruct (send_moves u [] phone m) as (u' & -> & H' & Ho' & Hc & Hm); [done|done|by intros ?%elem_of_nil|done|].
      rewrite bind_some. eexists _, _. split_and!; [done|exact H'|done| |exact Hm]. by eapply sendable_center.
    + eexists _, q. split_and!; [done|exact H|done| |apply moved_same]. apply Forall_app. split; [done|]. by apply Forall_singleton.
  - destruct Hl as [Hi Hs]. cbn [mod_ waiting] in *.
    rewrite (wf_queued (with_current None u) q SEND H : queued u SEND <-> _) in Hs.
    apply lookup_lt_is_Some in Hi as [[phone m] Hi]. cbn [exec mod_ waiting writers]. rewrite Hi, bind_some. cbn beta iota.
    destruct (send_moves u q phone m) as (u' & -> & H' & Ho' & Hc & Hm); [done..| |].
    { by eapply (Forall_lookup_1 _ _ _ _ Hws Hi). }
    rewrite bind_some. eexists _, _. split_and!; [done|exact H'|done| |exact Hm].
    eapply sendable_center; [done|]. by apply Forall_delete.
  - eexists _, q. split_and!; [done|exact H|done| |apply moved_same]. by apply Forall_delete.
  - destruct (write_moves u q ok H) as (u' & Hr & H' & Hc & Hm). cbn [exec mod_ waiting writers].
    rewrite Hr, bind_some. eexists _, q. split_and!; [done|exact H'|done| |exact Hm]. by eapply sendable_center.
Qed.

Lemma mid_texts u q c : mid u q -> c ∈ q -> 0 <= c < _4G_CMD_MAX /\ u9300_get_cmd u c <> at_null.
Proof.
  intros H Hq. pose proof (wf_range _ _ H) as Hrg. rewrite Forall_forall in Hrg. specialize (Hrg c Hq).
  split; [unfold _4G_CMD_MAX; lia|]. pose proof (wf_write _ _ H) as Hw. rewrite Forall_forall in Hw.
  destruct (Hw c Hq) as (e & He & Hwr). change (cmd_at (with_current None u) c) with (cmd_at u c) in He.
  unfold u9300_get_cmd, unsupported. rewrite He.
  rewrite (proj2 (Z.leb_gt _ _)) by (unfold _4G_CMD_MAX; lia). unfold writable in Hwr. by destruct e as [[] ?].
Qed.

(** ** The steps of a callback *)

(** Between the first and the last statement of [list_del]. *)
Definition in_del (p : pc) : bool := match p with T_del2 _ | T_del3 _ | T_del4 _ => true | _ => false end.
(** The callback is emptying the queue. *)
Definition draining (p : pc) : bool :=
  match p with T_loop | T_fetch | T_del1 _ | T_del2 _ | T_del3 _ | T_del4 _ | T_signal | T_clear => true | _ => false end.

Definition del_rest (p : pc) (h : heap) : option heap :=
  match p with
  | T_del2 item => h ← del2 h item; h ← set_prev h item NULL; set_next h item NULL
  | T_del3 item => h ← set_prev h item NULL; set_next h item NULL
  | T_del4 item => set_next h item NULL
  | _ => None
  end.
Definition del_item (p : pc) : Z := match p with T_del2 i | T_del3 i | T_del4 i => i | _ => NULL end.

(** What a callback knows at each step. *)
Definition pc_inv (p : pc) (u : u9300) (q : list Z) : Prop :=
  match p with
  | T_loop | T_signal | T_clear => True
  | T_fetch => q <> []
  | T_del1 item => exists c, head q = Some c /\ item = node c
  | Idle | T_current | T_unlock | N_current => cur_head u q
  | T_empty | T_log | N_empty | N_log | N_size => exists c, current u = Some c /\ head q = Some c
  | N_write size => exists c, current u = Some c /\ head q = Some c /\ at_count u c = Some size
  | T_del2 _ | T_del3 _ | T_del4 _ => False
  end.

Definition at_step (u : u9300) (p : pc) (q : list Z) : Prop :=
  if in_del p then
    exists h0 c r, q = c :: r /\ del_item p = node c /\ mid (with_hp h0 u) q /\ del_rest p (hp u) = list_del h0 (node c)
  else mid u q /\ pc_inv p u q.

Lemma head_app q (l : list Z) c : head q = Some c -> head (q ++ l) = Some c.
Proof. by destruct q. Qed.

Lemma at_count_text u u' q c :
  mid u q -> c ∈ q -> cmd_at u' c = cmd_at u c -> at_count u' c = at_count u c.
Proof.
  intros H Hc E. unfold at_count. rewrite E. pose proof (wf_write _ _ H) as Hw. rewrite Forall_forall in Hw.
  destruct (Hw c Hc) as (e & He & Hwr). change (cmd_at (with_current None u) c) with (cmd_at u c) in He.
  rewrite He, !bind_some. unfold writable in Hwr. destruct (at_ e); try done.
  by rewrite (proj2 (Z.eqb_neq (at_size e) 0)) by lia.
Qed.

Lemma pc_inv_moved p u q u' q' :
  mid u q -> moved u q u' q' -> pc_inv p u q -> pc_inv p u' q'.
Proof.
  intros H (Hq & Hc & Ht).
  assert (forall c, head q = Some c -> head q' = Some c) as Hh by (destruct Hq as [->| ->]; [done|intros c; apply head_app]).
  assert (cur_head u q -> cur_head u' q') as Hcur.
  { intros Hu c E. destruct Hc as [Hc|[Hc _]]; [apply Hh, Hu; congruence|congruence]. }
  assert (forall c, current u = Some c -> head q = Some c -> current u' = Some c) as Hsome.
  { intros c E1 E2. destruct Hc as [Hc|[Hc _]]; [congruence|]. rewrite Hc. by apply Hh. }
  destruct p; simpl; try done; try (intros (c & E1 & E2); exists c; by auto).
  - intros Hn E. destruct Hq as [->| ->]; [done|]. by destruct q.
  - intros (c & E1 & E2 & E3). exists c. split_and!; [by apply Hsome|by apply Hh|]. rewrite <- E3.
    apply (at_count_text u u' q); [done| |apply Ht]; by (destruct q; [done|injection E2 as ->; left]).
Qed.

Lemma at_step_moved p u q u' q' :
  in_del p = false -> at_step u p q -> mid u' q' -> moved u q u' q' -> at_step u' p q'.
Proof. unfold at_step. intros -> [H Hp] H' Hm. split; [done|]. exact (pc_inv_moved p u q u' q' H Hm Hp). Qed.

Lemma log_current_ok u q c : mid u q -> current u = Some c -> head q = Some c -> log_current u = Some tt.
Proof.
  intros H Hc Hq. unfold log_current. rewrite Hc, bind_some. destruct q as [|d r]; [done|]. injection Hq as ->.
  pose proof (wf_write _ _ H) as Hw. apply Forall_cons in Hw as [(e & He & Hwr) _].
  change (cmd_at (with_current None u) c) with (cmd_at u c) in He. rewrite He, bind_some.
  unfold writable in Hwr. by destruct (at_ e).
Qed.

Lemma write_at_split u c : write_at u c = size ← at_count u c; write_count u c size.
Proof.
  unfold write_at, at_count, write_count. destruct (cmd_at u c) as [[a n]|]; [|done]. rewrite !bind_some.
  cbn [U9300.at_ at_size]. destruct a; simpl; (destruct (n =? 0); [|done]); try done.
Qed.

Lemma list_del_stmts h e :
  list_del h e = h ← del1 h e; h ← del2 h e; h ← set_prev h e NULL; set_next h e NULL.
Proof.
  unfold list_del, _list_del, del1, del2. destruct (nx h !! e) as [n|]; [|done]. rewrite !bind_some.
  destruct (pv h !! e) as [p|]; [|done]. rewrite !bind_some. destruct (set_prev h n p) as [h1|]; [|done].
  rewrite !bind_some. destruct (pv h1 !! e), (nx h1 !! e); done.
Qed.

(** Steps left, when nothing comes between. *)
Definition rank (p : pc) (q : list Z) : nat :=
  let n := (6 * length q)%nat in
  match p with
  | Idle => 0
  | T_current => 7 + n | T_empty => 6 + n | T_log => 5 + n | T_loop => 4 + n | T_fetch => 3 + n
  | T_del1 _ => 2 + n | T_del2 _ => 1 + n | T_del3 _ => n | T_del4 _ => n - 1
  | T_signal => 3 | T_clear => 2 | T_unlock => 1
  | N_current => 5 | N_empty => 4 | N_log => 3 | N_size => 2 | N_write _ => 1
  end.

(** One step of a callback is defined, keeps the invariant and comes nearer to the end. *)
Definition steps_on (u : u9300) (p : pc) (q : list Z) : Prop :=
  exists u' p' q', timer_step u p = Some (u', p') /\ at_step u' p' q' /\ (q' = q \/ q' = tail q) /\
    center_message u' = center_message u /\ (rank p' q' < rank p q)%nat.

Lemma unlink_steps u p q : in_del p = true -> at_step u p q -> steps_on u p q.
Proof.
  unfold at_step, steps_on. intros Hd. rewrite Hd. intros (h0 & c & r & -> & Hi & H & Hr).
  destruct (wf_del_head _ _ _ H) as (h' & Hdel & Hw). cbn [hp with_current with_hp] in Hdel. rewrite Hdel in Hr.
  destruct p as [| | | | | | |i|i|i| | | | | | | |]; try done; cbn [del_item del_rest timer_step] in *; subst i.
  - revert Hr. destruct (del2 (hp u) (node c)) as [h|]; intros Hr; [|done]. cbn [mbind option_bind] in Hr |- *.
    eexists _, _, (c :: r). split_and!; [done| |by left|done|simpl; lia].
    exists h0, c, r. split_and!; [done|done|exact H|]. cbn [del_rest hp with_hp]. by rewrite Hdel.
  - revert Hr. destruct (set_prev (hp u) (node c) NULL) as [h|]; intros Hr; [|done]. cbn [mbind option_bind] in Hr |- *.
    eexists _, _, (c :: r). split_and!; [done| |by left|done|simpl; lia].
    exists h0, c, r. split_and!; [done|done|exact H|]. cbn [del_rest hp with_hp]. by rewrite Hdel.
  - rewrite Hr, bind_some. eexists _, _, r. split_and!; [done| |by right|done|simpl; lia].
    split; [|done]. revert Hw. by apply wf_core.
Qed.

Definition writing (p : pc) : bool := match p with N_size | N_write _ => true | _ => false end.

Lemma write_steps u p q : writing p = true -> mid u q -> pc_inv p u q -> steps_on u p q.
Proof.
  intros Hp H Hi. unfold steps_on.
  destruct p as [| | | | | |i|i|i|i| | | | | | | |size]; try done; cbn [timer_step pc_inv] in *.
  - destruct Hi as (c & Hc & Hq). rewrite Hc, bind_some.
    destruct (write_at_ok (with_current None u) q c H) as [w Hw]; [destruct q; [done|injection Hq as ->; by left]|].
    rewrite write_at_split in Hw. change (at_count (with_current None u) c) with (at_count u c) in Hw.
    destruct (at_count u c) as [size|] eqn:Es; [|done]. rewrite bind_some.
    eexists _, _, q. split; [done|]. split_and!; [split; [done|by exists c]|by left|done|simpl; lia].
  - destruct Hi as (c & Hc & Hq & Hs). rewrite Hc, bind_some.
    destruct (write_at_ok (with_current None u) q c H) as [w Hw]; [destruct q; [done|injection Hq as ->; by left]|].
    rewrite write_at_split in Hw. change (at_count (with_current None u) c) with (at_count u c) in Hw.
    rewrite Hs, bind_some in Hw.
    assert (write_count u c size = Some (emit w u)) as ->.
    { revert Hw. unfold write_count. change (cmd_at (with_current None u) c) with (cmd_at u c).
      destruct (cmd_at u c) as [e|]; [|done]. rewrite !bind_some.
      change (at_memory (with_current None u) (at_ e)) with (at_memory u (at_ e)).
      destruct (at_memory u (at_ e)) as [mem|]; [|done]. rewrite !bind_some. destruct (zlen mem <? size); [done|].
      intros E. assert (w = take (Z.to_nat size) mem) as -> by (apply (f_equal (fun o => out <$> o)) in E; by injection E as ->).
      done. }
    rewrite bind_some. eexists _, _, q. split; [done|]. split_and!; [|by left|done|simpl; lia].
    split; [by apply (mid_core u)|]. simpl. intros d. cbn [current emit]. congruence.
Qed.

Lemma timer_step_ok u p q : p <> Idle -> at_step u p q -> steps_on u p q.
Proof.
  intros Hp Hs. destruct (in_del p) eqn:Ed; [by apply unlink_steps|]. unfold at_step in Hs. rewrite Ed in Hs.
  destruct Hs as [H Hi]. destruct (writing p) eqn:Ew; [by apply write_steps|]. unfold steps_on.
  destruct p as [| | | | | |i|i|i|i| | | | | | | |size]; try done; cbn [timer_step pc_inv] in *.
  - destruct (current u) as [c|] eqn:Ec; eexists _, _, q; (split; [done|]); (split_and!; [|by left|done|simpl; lia]).
    + split; [done|]. exists c. split; [done|]. by apply Hi.
    + split; [done|]. simpl. intros d. by rewrite Ec.
  - destruct Hi as (c & Hc & Hq). rewrite (mid_empty _ _ H), bind_some. destruct q as [|d r]; [done|].
    eexists _, _, (d :: r). split; [done|]. split_and!; [split; [done|by exists c]|by left|done|simpl; lia].
  - destruct Hi as (c & Hc & Hq). rewrite (log_current_ok u q c) by done. rewrite bind_some.
    eexists _, _, q. split; [done|]. split_and!; [by split|by left|done|simpl; lia].
  - rewrite (mid_empty _ _ H), bind_some. destruct q as [|d r]; eexists _, _, _;
      (split; [done|]); (split_and!; [by split|by left|done|simpl; lia]).
  - destruct q as [|c r]; [done|]. rewrite (mid_first _ _ _ H), bind_some. eexists _, _, (c :: r). split; [done|].
    split_and!; [split; [done|by exists c]|by left|done|simpl; lia].
  - destruct Hi as (c & Hq & ->). destruct q as [|d r]; [done|]. injection Hq as ->.
    destruct (wf_del_head _ _ _ H) as (h' & Hdel & Hw). cbn [hp with_current] in Hdel.
    rewrite list_del_stmts in Hdel. destruct (del1 (hp u) (node c)) as [h|] eqn:E; [|done].
    rewrite bind_some. eexists _, _, (c :: r). split; [done|]. split_and!; [|by left|done|simpl; lia].
    exists (hp u), c, r. split_and!; [done|done|by revert H; apply wf_core|]. by rewrite list_del_stmts, E.
  - eexists _, _, q. split; [done|]. split_and!; [|by left|done|simpl; lia]. split; [|done]. by apply (mid_core u).
  - eexists _, _, q. split; [done|]. split_and!; [|by left|done|simpl; lia]. split; [by apply (mid_core u)|done].
  - eexists _, _, q. split; [done|]. split_and!; [by split|by left|done|simpl; lia].
  - destruct (current u) as [c|] eqn:Ec; eexists _, _, q; (split; [done|]); (split_and!; [|by left|done|simpl; lia]).
    + split; [done|]. exists c. split; [done|]. by apply Hi.
    + split; [done|]. simpl. intros d. by rewrite Ec.
  - destruct Hi as (c & Hc & Hq). rewrite (mid_empty _ _ H), bind_some. destruct q as [|d r]; [done|].
    eexists _, _, (d :: r). split; [done|]. split_and!; [split; [done|by exists c]|by left|done|simpl; lia].
  - destruct Hi as (c & Hc & Hq). rewrite (log_current_ok u q c) by done. rewrite bind_some.
    eexists _, _, q. split; [done|]. split_and!; [split; [done|by exists c]|by left|done|simpl; lia].
Qed.

(** ** The system *)

(** What may happen: a callback begins or a response is handled when the thread of the event loop
    is free; locked sections of senders at any time but inside a [list_del], with messages that
    fit and no sender woken while a message command is queued. *)
Definition tlegal (s : tsys) (l : tlabel) : Prop :=
  match l with
  | L_locked l =>
      legal iconv (base s) l /\
      match l with
      | L_resp _ _ => at_pc s = Idle
      | L_timeout | L_no_response => False
      | L_give_up _ => True
      | L_send _ _ | L_wake _ | L_write _ => in_del (at_pc s) = false
      end
  | L_fire_timeout | L_fire_no_response => at_pc s = Idle
  | L_step => at_pc s <> Idle
  end.

Inductive treachable (center : list Z) : tsys -> Prop :=
| treach_init ok u :
    u9300_init u9300_cmd center ok = Some u ->
    treachable center {| base := {| mod_ := u; waiting := []; writers := 0 |}; at_pc := Idle |}
| treach_step s l s' : treachable center s -> tlegal s l -> texec true iconv s l = Some s' -> treachable center s'.

Definition tinv (s : tsys) : Prop :=
  exists q, at_step (mod_ (base s)) (at_pc s) q /\ order q /\ Forall (sendable iconv (mod_ (base s))) (waiting (base s)).

Lemma order_tl q : order q -> order (tail q).
Proof. destruct q; [done|]. apply order_tail. Qed.

Lemma at_step_idle u q : at_step u Idle q <-> wf u q.
Proof. symmetry. apply wf_mid. Qed.

Lemma locked_ok b p l :
  tlegal {| base := b; at_pc := p |} (L_locked l) -> tinv {| base := b; at_pc := p |} ->
  exists s', texec true iconv {| base := b; at_pc := p |} (L_locked l) = Some s' /\ tinv s'.
Proof.
  intros [Hl Hp] (q & H & Ho & Hws). cbn [base at_pc] in *. cbn [texec base at_pc].
  destruct (of_sender l) eqn:Eo.
  - destruct (in_del p) eqn:Ed.
    + destruct l as [| | | | |i|]; try done. eexists. split; [reflexivity|]. exists q.
      split_and!; [exact H|done|]. by apply Forall_delete.
    + pose proof H as H'. unfold at_step in H'. rewrite Ed in H'. destruct H' as [Hm _].
      destruct (locked_moves b q l Hm Ho Hws Hl Eo) as (b' & q' & -> & Hm' & Ho' & Hws' & Hmv).
      eexists. split; [reflexivity|]. exists q'. split_and!; [|done..]. by apply (at_step_moved p (mod_ b) q).
  - destruct l as [resp ok| | | | | |]; try done. subst p. apply at_step_idle in H.
    destruct (exec_ok iconv b (L_resp resp ok)) as (b' & Hx & q' & H' & Ho' & Hws'); [by exists q|done|].
    rewrite Hx, bind_some. eexists. split; [reflexivity|]. exists q'. split_and!; [by apply at_step_idle|done..].
Qed.

Lemma texec_ok s l : tlegal s l -> tinv s -> exists s', texec true iconv s l = Some s' /\ tinv s'.
Proof.
  destruct s as [b p]. intros Hl Hi. destruct l as [l| | |]; [by apply locked_ok|..].
  1,2: destruct Hi as (q & H & Ho & Hws); cbn [tlegal at_pc base] in *; subst p;
    apply at_step_idle in H; eexists; (split; [reflexivity|]); exists q; (split_and!; [|done..]);
    apply wf_mid; by apply wf_timers.
  destruct Hi as (q & H & Ho & Hws). cbn [tlegal at_pc base] in *.
  destruct (timer_step_ok _ _ _ Hl H) as (u' & p' & q' & E & H' & Hq & Hc & _). cbn [texec base at_pc].
  rewrite E, bind_some. eexists. split; [reflexivity|]. exists q'. split_and!; [exact H'| |by eapply sendable_center].
  destruct Hq as [->| ->]; [done|by apply order_tl].
Qed.

Lemma treachable_inv center s : no_nul center -> treachable center s -> tinv s.
Proof.
  intros Hc. induction 1 as [ok u Hi|s l s' _ IH Hl Hx].
  - destruct (u9300_init_ok center ok Hc) as (u' & Hi' & Hw & _).
    assert (Some u = Some u') as [= <-] by (by rewrite <- Hi, <- Hi').
    eexists. split; [by apply at_step_idle|]. split; [|done]. apply order_without. by apply (bool_decide_unpack _).
  - destruct (texec_ok s l Hl IH) as (s'' & Hx' & Hinv).
    assert (Some s' = Some s'') as [= ->] by (by rewrite <- Hx, <- Hx'). done.
Qed.

(** A callback left alone ends. *)
Lemma timer_run_ends fuel : forall u p q,
  at_step u p q -> (rank p q <= fuel)%nat -> exists u' q', timer_run fuel u p = Some u' /\ wf u' q'.
Proof.
  induction fuel as [|fuel IH]; intros u p q H Hf.
  - assert (p = Idle) as ->.
    { destruct (decide (in_del p = true)) as [Hd|].
      - unfold at_step in H. rewrite Hd in H. destruct H as (h0 & c & r & -> & _). destruct p; simpl in *; try done; lia.
      - destruct p; simpl in *; done || lia. }
    eexists _, _. split; [reflexivity|]. by apply at_step_idle.
  - destruct (decide (p = Idle)) as [->|Hp]; [eexists _, _; split; [reflexivity|]; by apply at_step_idle|].
    destruct (timer_step_ok u p q Hp H) as (u' & p' & q' & E & H' & _ & _ & Hr).
    destruct (IH u' p' q' H' ltac:(lia)) as (u2 & q2 & E2 & H2). exists u2, q2. split; [|done].
    destruct p; try done; cbn [timer_run]; rewrite E; exact E2.
Qed.

Lemma rank_bound u p q : at_step u p q -> (rank p q <= 85)%nat.
Proof.
  intros H. assert (length q <= 13)%nat as Hl.
  { unfold at_step in H. destruct (in_del p); [destruct H as (h0 & c & r & _ & _ & H & _)|destruct H as [H _]];
      by apply wf_length in H. }
  destruct p; simpl; lia.
Qed.
End system.

(** ** The callbacks left alone *)

Lemma with_hp_same u : with_hp (hp u) u = u.
Proof. by destruct u. Qed.

Lemma timer_run_step fuel u p u' p' :
  p <> Idle -> timer_step u p = Some (u', p') -> timer_run (S fuel) u p = timer_run fuel u' p'.
Proof. intros Hp E. destruct p; try done; cbn [timer_run]; by rewrite E. Qed.

Lemma timer_run_idle fuel u : timer_run fuel u Idle = Some u.
Proof. by destruct fuel. Qed.

Lemma timer_run_del fuel u item h :
  list_del (hp u) item = Some h -> timer_run (4 + fuel) u (T_del1 item) = timer_run fuel (with_hp h u) T_loop.
Proof.
  rewrite list_del_stmts. intros Hdel.
  destruct (del1 (hp u) item) as [h1|] eqn:E1; [|done]. rewrite bind_some in Hdel.
  destruct (del2 h1 item) as [h2|] eqn:E2; [|done]. rewrite bind_some in Hdel.
  destruct (set_prev h2 item NULL) as [h3|] eqn:E3; [|done]. rewrite bind_some in Hdel. cbn [Nat.add].
  rewrite (timer_run_step _ u _ (with_hp h1 u) (T_del2 item)) by (done || (cbn [timer_step]; by rewrite E1)).
  rewrite (timer_run_step _ _ _ (with_hp h2 u) (T_del3 item)) by (done || (cbn [timer_step hp with_hp]; by rewrite E2)).
  rewrite (timer_run_step _ _ _ (with_hp h3 u) (T_del4 item)) by (done || (cbn [timer_step hp with_hp]; by rewrite E3)).
  by rewrite (timer_run_step _ _ _ (with_hp h u) T_loop) by (done || (cbn [timer_step hp with_hp]; by rewrite Hdel)).
Qed.

Lemma drain_empty k h : list_empty h HEAD = Some true -> drain k h = Some h.
Proof. intros E. destruct k; simpl; by rewrite E. Qed.

Lemma timer_run_drain k : forall fuel q u,
  mid u q -> (length q <= k)%nat ->
  timer_run (6 * length q + (4 + fuel)) u T_loop = h ← drain k (hp u); Some (with_current None (signal (with_hp h u))).
Proof.
  intros fuel q. revert k. induction q as [|c r IH]; intros k u H Hk.
  - pose proof (mid_empty _ _ H) as He. rewrite (drain_empty k _ He), bind_some, with_hp_same. cbn [length Nat.mul Nat.add].
    rewrite (timer_run_step _ u _ u T_signal) by (done || (cbn [timer_step]; by rewrite He)).
    rewrite (timer_run_step _ u _ (signal u) T_clear) by done.
    rewrite (timer_run_step _ _ _ (with_current None (signal u)) T_unlock) by done.
    rewrite (timer_run_step _ _ _ (with_current None (signal u)) Idle) by done. apply timer_run_idle.
  - destruct k as [|k]; [simpl in Hk; lia|].
    pose proof (mid_empty _ _ H) as He. rewrite bool_decide_eq_false_2 in He by done.
    pose proof (mid_first _ _ _ H) as Hf.
    destruct (wf_del_head _ _ _ H) as (h' & Hdel & Hw). cbn [hp with_current] in Hdel.
    replace (6 * length (c :: r) + (4 + fuel))%nat with (S (S (4 + (6 * length r + (4 + fuel))))) by (simpl; lia).
    rewrite (timer_run_step _ u _ u T_fetch) by (done || (cbn [timer_step]; by rewrite He)).
    rewrite (timer_run_step _ u _ u (T_del1 (node c))) by (done || (cbn [timer_step]; by rewrite Hf)).
    rewrite (timer_run_del _ _ _ h' Hdel), (IH k); [|by revert Hw; apply wf_core|simpl in Hk; lia].
    cbn [drain]. rewrite He, bind_some, Hf, bind_some, Hdel, bind_some. done.
Qed.

(** The tests at the beginning, of a callback that goes on. *)
Lemma timer_run_tests fuel v q c :
  mid v q -> current v = Some c -> head q = Some c ->
  timer_run (S (S (S fuel))) v T_current = timer_run fuel v T_loop /\
  timer_run (S (S (S fuel))) v N_current = timer_run fuel v N_size.
Proof.
  intros H Hc Hq. pose proof (mid_empty _ _ H) as He. rewrite bool_decide_eq_false_2 in He by (by destruct q).
  pose proof (log_current_ok _ _ _ H Hc Hq) as Hlog. split.
  - rewrite (timer_run_step _ v _ v T_empty) by (done || (cbn [timer_step]; by rewrite Hc)).
    rewrite (timer_run_step _ v _ v T_log) by (done || (cbn [timer_step]; by rewrite He)).
    by rewrite (timer_run_step _ v _ v T_loop) by (done || (cbn [timer_step]; by rewrite Hlog)).
  - rewrite (timer_run_step _ v _ v N_empty) by (done || (cbn [timer_step]; by rewrite Hc)).
    rewrite (timer_run_step _ v _ v N_log) by (done || (cbn [timer_step]; by rewrite He)).
    by rewrite (timer_run_step _ v _ v N_size) by (done || (cbn [timer_step]; by rewrite Hlog)).
Qed.

Lemma timer_run_write fuel v q c :
  mid v q -> current v = Some c -> c ∈ q -> timer_run (S (S fuel)) v N_size = write_at v c.
Proof.
  intros H Hc Hq. destruct (write_at_ok _ _ c H Hq) as [w Hw]. rewrite write_at_split in Hw |- *.
  change (at_count (with_current None v) c) with (at_count v c) in Hw.
  destruct (at_count v c) as [size|] eqn:Es; [|done]. rewrite bind_some.
  rewrite (timer_run_step _ v _ v (N_write size)) by (done || (cbn [timer_step]; by rewrite Hc, bind_some, Es)).
  cbn [timer_run timer_step]. rewrite Hc, bind_some. destruct (write_count v c size); [|done].
  rewrite !bind_some. apply timer_run_idle.
Qed.

(** Without anything in between, a callback is the transition of U9300.v. *)
Theorem callbacks_alone u q fuel :
  wf u q -> (85 <= fuel)%nat ->
  timer_run fuel (with_timers false (timer_no_response u) u) T_current = u9300_atcmd_timeout u /\
  timer_run fuel (with_timers (timer_at_cmd u) false u) N_current = u9300_atcmd_no_respobse u.
Proof.
  intros H Hfuel. pose proof (wf_length _ _ H) as Hl.
  assert (forall a b, mid (with_timers a b u) q) as Hm by (intros a b; by apply wf_no_current, wf_timers).
  unfold u9300_atcmd_timeout, u9300_atcmd_no_respobse. cbn [hp current with_timers].
  rewrite (wf_empty _ _ H), !bind_some. destruct (current u) as [c|] eqn:Ec.
  - pose proof (wf_cur _ _ H c Ec) as Hq. rewrite bool_decide_eq_false_2 by (by destruct q).
    replace fuel with (S (S (S (6 * length q + (4 + (fuel - 7 - 6 * length q))))))%nat by lia. split.
    + destruct (timer_run_tests (6 * length q + (4 + (fuel - 7 - 6 * length q))) _ _ _ (Hm false (timer_no_response u)) Ec Hq)
        as [-> _]. rewrite (timer_run_drain 16) by (done || lia). done.
    + destruct (timer_run_tests (6 * length q + (4 + (fuel - 7 - 6 * length q))) _ _ _ (Hm (timer_at_cmd u) false) Ec Hq)
        as [_ ->]. replace (6 * length q + (4 + (fuel - 7 - 6 * length q)))%nat with (S (S (fuel - 5))) by lia.
      rewrite (timer_run_write _ _ q c) by (done || by (destruct q; [done|injection Hq as ->; left])). done.
  - destruct fuel as [|fuel]; [lia|]. split.
    + rewrite (timer_run_step fuel _ T_current (with_timers false (timer_no_response u) u) Idle)
        by (done || (cbn [timer_step current with_timers]; by rewrite Ec)). apply timer_run_idle.
    + rewrite (timer_run_step fuel _ N_current (with_timers (timer_at_cmd u) false u) Idle)
        by (done || (cbn [timer_step current with_timers]; by rewrite Ec)). apply timer_run_idle.
Qed.

(** ** The queue under every interleaving *)

(** C12. The modem's command queue. The two timer callbacks run without the lock and are taken
    access by access; the other steps are the locked sections: the handler of the modem's answers,
    which runs in the thread of the timers, and the threads that send, wait, give up and write
    (failed writes included). Messages have numbers that fit the arrays of the PDU and a text that
    converts (others write outside, _4g_pdu.c:158), no sender is woken while a message command is
    queued, no access of a callback falls inside a locked section, and no locked section that uses
    the queue falls between two statements of one [list_del] of a callback (see
    [u9300_timeout_race]). Under every such interleaving no step reads or writes outside an
    object; outside of [list_del] the ring is a sequence of distinct commands of the table, each
    with a text, and its head is the command being answered unless the callback is emptying the
    queue; and a callback that is left alone ends within 85 steps, with such a ring. *)
Theorem u9300_queue_invariant iconv center s :
  no_nul center -> treachable iconv center s ->
  let u := mod_ (base s) in
  (in_del (at_pc s) = false ->
   exists q, list_for_each 13 (hp u) HEAD = Some (node <$> q) /\ NoDup q /\
     (forall c, c ∈ q -> 0 <= c < _4G_CMD_MAX /\ u9300_get_cmd u c <> at_null) /\
     (draining (at_pc s) = false -> forall c, current u = Some c -> head q = Some c)) /\
  (forall l, tlegal iconv s l -> exists s', texec true iconv s l = Some s') /\
  (exists u' q', timer_run 85 u (at_pc s) = Some u' /\ list_for_each 13 (hp u') HEAD = Some (node <$> q') /\ NoDup q').
Proof.
  intros Hc Hr u. pose proof (treachable_inv iconv center s Hc Hr) as Hinv. pose proof Hinv as (q & H & _ & _). fold u in H.
  split_and!.
  - intros Hd. unfold at_step in H. rewrite Hd in H. destruct H as [Hm Hp].
    exists q. split_and!; [by apply (wf_queue (with_current None u))|by eapply wf_nodup|intros c; by apply mid_texts|].
    intros Hdr c Hcur. destruct (at_pc s); try done; simpl in Hp; try (by apply Hp); naive_solver.
  - intros l Hl. destruct (texec_ok iconv s l Hl Hinv) as (s' & Hx & _). eauto.
  - destruct (timer_run_ends 85 u (at_pc s) q H (rank_bound _ _ _ H)) as (u' & q' & Hrun & Hw). exists u', q'.
    split_and!; [done|by apply wf_queue|by eapply wf_nodup].
Qed.

(** Runs of legal steps. *)
Fixpoint tlegal_all (iconv : list Z -> Z -> option (list Z)) (s : tsys) (ls : list tlabel) : Prop :=
  match ls with
  | [] => True
  | l :: ls => tlegal iconv s l /\ match texec true iconv s l with Some s' => tlegal_all iconv s' ls | None => True end
  end.

Lemma trun_treachable iconv center ls : forall s s',
  treachable iconv center s -> tlegal_all iconv s ls -> trun true iconv s ls = Some s' -> treachable iconv center s'.
Proof.
  induction ls as [|l ls IH]; intros s s' Hr Hl Hrun; cbn [trun tlegal_all] in *; [by injection Hrun as <-|].
  destruct Hl as [Hl Hls]. destruct (texec true iconv s l) as [s1|] eqn:E; [|done]. rewrite bind_some in Hrun.
  by eapply IH; [eapply treach_step| |].
Qed.

Definition example_start (u : u9300) : tsys :=
  {| base := {| mod_ := u; waiting := []; writers := 0 |}; at_pc := Idle |}.

(** The callback that empties the queue, up to the first [list_del]; the queue is written in
    between. *)
Definition example_steps : list tlabel :=
  [L_locked (L_resp [13; 10] true); L_fire_timeout; L_step; L_step; L_step; L_step;
   L_locked (L_write true); L_step].

Lemma u9300_queue_invariant_witness :
  exists u s, u9300_init u9300_cmd example_center true = Some u /\
    trun true ascii_ucs2 (example_start u) example_steps = Some s /\ at_pc s = T_del1 (node _4G_CMD_MODULE_TYPE) /\
    (exists s', texec true ascii_ucs2 s (L_locked (L_write true)) = Some s') /\
    (exists u' q', timer_run 85 (mod_ (base s)) (at_pc s) = Some u' /\
       list_for_each 13 (hp u') HEAD = Some (node <$> q') /\ NoDup q').
Proof.
  destruct (u9300_init u9300_cmd example_center true) as [u|] eqn:E;
    [|exfalso; revert E; vm_compute; discriminate].
  assert (match u9300_init u9300_cmd example_center true with
          | Some u => tlegal_all ascii_ucs2 (example_start u) example_steps /\
                      at_pc <$> trun true ascii_ucs2 (example_start u) example_steps = Some (T_del1 (node _4G_CMD_MODULE_TYPE))
          | None => False end) as Hchk.
  { vm_compute. repeat split; discriminate. }
  rewrite E in Hchk. destruct Hchk as [Hl Hpc].
  destruct (trun true ascii_ucs2 (example_start u) example_steps) as [s|] eqn:Es; [|discriminate].
  injection Hpc as Hpc.
  destruct (u9300_queue_invariant ascii_ucs2 example_center s) as (_ & Hx & Hend).
  - by apply no_nul_dec.
  - by eapply (trun_treachable ascii_ucs2 example_center example_steps (example_start u)); [eapply treach_init| |].
  - exists u, s. split; [reflexivity|]. split; [exact Es|]. split; [exact Hpc|]. split; [|exact Hend].
    apply Hx. split; [exact I|]. by rewrite Hpc.
Defined.

(** A sender waits while the start-up ends; another one sends before it has the lock; the modem
    refuses the text, and the timer begins to remove the command: it has executed the first
    statement of [list_del]. *)
Definition timeout_race : list tlabel :=
  (L_locked <$> replicate 4 (L_resp [13; 10] true)
   ++ [L_send (str "13512345678") (str "a"); L_resp [13; 10] true;
       L_send (str "13512345678") (str "b"); L_write true; L_resp [13; 10] true; L_resp (str "ERROR" ++ [13; 10]) true])
  ++ L_fire_timeout :: replicate 6 L_step.

(** The sender that waits gets the lock there and queues its message; then the callback goes on
    to its end. The ring looks empty from its head though the message is linked behind it, so that
    neither this message nor a later one is ever written. *)
Theorem u9300_timeout_race :
  match u9300_init u9300_cmd example_center true with
  | Some u =>
      match trun true ascii_ucs2 (example_start u) timeout_race with
      | Some s =>
          at_pc s = T_del2 (node CONTENT) /\ legal ascii_ucs2 (base s) (L_wake 0) /\
          match trun true ascii_ucs2 s (L_locked (L_wake 0) :: replicate 7 L_step ++ [L_locked (L_write true)]) with
          | Some s1 =>
              at_pc s1 = Idle /\ list_empty (hp (mod_ (base s1))) HEAD = Some true /\
              list_last_entry (hp (mod_ (base s1))) HEAD = Some (node SEND) /\
              match trun true ascii_ucs2 s1 [L_locked (L_send (str "13512345678") (str "c")); L_locked (L_write true)] with
              | Some s2 => list_empty (hp (mod_ (base s2))) HEAD = Some true /\ waiting (base s2) = [] /\
                           out (mod_ (base s2)) = out (mod_ (base s))
              | None => False
              end
          | None => False
          end
      | None => False
      end
  | None => False
  end.
Proof. vm_compute. repeat split; try reflexivity; try lia. intros H. repeat (apply elem_of_cons in H as [H|H]; [discriminate|]). by apply elem_of_nil in H. Qed.
