(* ===== verification/OpLog.v ===== *)
(** * base/oplog.c: the log pipeline

    [oplog_print] builds a datagram, [oplog_job] receives it into a bounded queue and the two
    threads of [oplog_dispatch] format the records and write them to the file of the day.  The
    functions run under the locks of the code; the system's answers (allocation, time, files) are
    arguments.  The queue is the sequence a ring of opbox/list.h implements, [live] counts the
    blocks allocated and not freed.  [None] is a read or write outside an array. *)

From S2P Require Import Prelude Bytes CString Utils Pdu.
From stdpp Require Import base tactics numbers option strings list gmap.
From Stdlib Require Import ZArith Lia.
Open Scope Z_scope.
Import Utils Pdu.

Module OpLog.

Definition LOG_BUF_SIZE : Z := 8192.
Definition LOG_RECV_LIST_SIZE : Z := 4096.

(** oplog.h *)
Definition oplog_level_error : Z := 0.
Definition oplog_level_warn : Z := 1.
Definition oplog_level_info : Z := 2.
Definition oplog_level_debug : Z := 3.
Definition oplog_level_max : Z := 4.
Definition oplog_none : Z := 0.
Definition oplog_prog : Z := 1.
Definition oplog_max : Z := 2.

(** struct _log_send_header: file[64], function[64], line, level, type. *)
Definition header_size : Z := 140.

Definition color (s : String.string) : list Z := 27 :: str s.
Definition LOG_COLOR_NONE : list Z := color "[m".

(** log_level_map: color and name of a level. *)
Definition log_level_map : list (list Z * list Z) :=
  [ (color "[0;31m", str "error"); (color "[0;35m", str "warn ");
    (color "[0;32m", str "info "); (color "[0;37m", str "debug") ].

(** ** Sending *)

(** [oplog_print] with the text the format gives: the send buffer after the call and the bytes
    handed to [sendto]. *)
Definition oplog_print (buf_send : list Z) (log_type : Z) (file function : list Z) (line level : Z)
  (text : list Z) : option (list Z * list Z) :=
  '(f, _) ← op_strlcpy (Some (take 64 buf_send)) (Some file) 64;
  '(fn, _) ← op_strlcpy (Some (take 64 (drop 64 buf_send))) (Some function) 64;
  let head := default [] f ++ default [] fn ++ le32 (htonl (u32 line)) ++ le32 (htonl (u32 level))
              ++ le32 (htonl (u32 log_type)) in
  '(buf, size) ← snprintf_at (head ++ drop 140 buf_send) header_size (LOG_BUF_SIZE - header_size) text;
  if zlen buf <? size + header_size then None
  else Some (buf, take (Z.to_nat (size + header_size)) buf).

(** ** Receiving *)

(** struct _log_item_: the buffer holds [size] bytes and a terminator. *)
Record item := { buf : list Z; size : Z }.

(** struct _log_prog_: the day ([tm_year], [tm_mon], [tm_mday]) and the descriptor of the file. *)
Record prog := { root_path : list Z; tm : Z * Z * Z; fd : Z }.

(** [opened]: the file each descriptor of the log leads to; [disk]: what was written, as the file
    and the bytes, the latest first. *)
Record oplog := {
  vector : list item;
  vector_num : Z;
  live : Z;
  prog_ : prog;
  opened : gmap Z (list Z);
  disk : list (list Z * list Z)
}.

Definition oplog_job (o : oplog) (dgram : option (list Z)) (str_ok item_ok : bool) : oplog :=
  match dgram with
  | None => o
  | Some d =>
      let ret := zlen d in
      if (LOG_BUF_SIZE <? ret) || (ret <? header_size) then o
      else if negb str_ok then o
      else
        let live1 := live o + 1 in
        if negb item_ok then
          {| vector := vector o; vector_num := vector_num o; live := live1; prog_ := prog_ o;
             opened := opened o; disk := disk o |}
        else
          let live2 := live1 + 1 in
          let it := {| buf := d ++ [0]; size := ret |} in
          if LOG_RECV_LIST_SIZE <? vector_num o then
            {| vector := vector o; vector_num := vector_num o; live := live2 - 2; prog_ := prog_ o;
             opened := opened o; disk := disk o |}
          else
            {| vector := vector o ++ [it]; vector_num := s32 (vector_num o + 1); live := live2;
               prog_ := prog_ o;
             opened := opened o; disk := disk o |}
  end.

(** ** Writing *)

(** An [int] field of the header in network order, as [log_header_ntohl] leaves it. *)
Definition ntohl_at (b : list Z) (off : nat) : Z := s32 (ntohl (of_le32 (take 4 (drop off b)))).

Record head := { h_function : list Z; h_line : Z; h_level : Z; h_type : Z }.

(** The header in host order, in place; the strings end at the first terminator. *)
Definition header_in_place (b : list Z) : list Z :=
  take 128 b ++ le32 (u32 (ntohl_at b 128)) ++ le32 (u32 (ntohl_at b 132)) ++ le32 (u32 (ntohl_at b 136))
  ++ drop 140 b.

Definition log_header_ntohl (b : list Z) : head :=
  {| h_function := cstr (drop 64 (header_in_place b)); h_line := ntohl_at b 128;
     h_level := ntohl_at b 132; h_type := ntohl_at b 136 |}.

(** [%d]. *)
Definition fmt_d (n : Z) : list Z := if n <? 0 then 45 :: dec_digits 10 (- n) else dec_digits 10 n.

(** [stamp] is the date and time of the call, as the format prints them. *)
Definition _oplog_format (stamp : list Z) (h : head) (message : list Z) : option (list Z) :=
  if h_level h <? 0 then None
  else
    '(c, name) ← log_level_map !! Z.to_nat (h_level h);
    Some (c ++ stamp ++ [32] ++ h_function h ++ [32] ++ fmt_d (h_line h) ++ [32] ++ name
          ++ [32; 9] ++ message ++ LOG_COLOR_NONE).

(** [%02d] of a number that is not negative, and the name of the file of a day. *)
Definition fmt_02d (n : Z) : list Z := if n <? 10 then 48 :: fmt_d n else fmt_d n.
Definition day_file (root : list Z) (day : Z * Z * Z) : list Z :=
  let '(tm_year, tm_mon, tm_mday) := day in
  take 511 (root ++ str "/" ++ fmt_d (tm_year + 1900) ++ str "-" ++ fmt_02d (tm_mon + 1) ++ str "-" ++ fmt_02d tm_mday).

(** [_oplog_check_disk]: the day of the call, whether the file of the day exists and what [open]
    returns; a descriptor is closed before another is opened. *)
Definition _oplog_check_disk (p : prog) (opened : gmap Z (list Z)) (today : Z * Z * Z) (exists_ : bool) (open_ : Z)
    : prog * gmap Z (list Z) * Z :=
  let p := if decide (tm p = today) then p else {| root_path := root_path p; tm := today; fd := fd p |} in
  if negb exists_ || (fd p <=? 0) then
    let opened := if fd p =? 0 then opened else delete (fd p) opened in
    let p := {| root_path := root_path p; tm := tm p; fd := open_ |} in
    if open_ <? 0 then (p, opened, -1)
    else (p, <[open_ := day_file (root_path p) (tm p)]> opened, open_)
  else (p, opened, fd p).

(** What is written to which file, if anything is; [write_]: what [write] returns, the number of
    bytes it takes or -1. A descriptor that leads nowhere takes nothing. *)
Definition _oplog_sync_to_disk (fd_ : Z) (opened : gmap Z (list Z)) (write_ : Z) (stamp : list Z) (h : head)
    (content : list Z) : option (option (list Z * list Z)) :=
  if fd_ <? 0 then Some None
  else if negb (h_type h =? oplog_prog) then Some None
  else if oplog_level_max <? h_level h then Some None
  else
    text ← _oplog_format stamp h content;
    '(log_format, ret) ← snprintf (replicate 8192 0) LOG_BUF_SIZE text;
    if zlen log_format <? ret then None
    else
      match opened !! fd_ with
      | Some file => if write_ <? 0 then Some None
                     else Some (Some (file, take (Z.to_nat write_) (take (Z.to_nat ret) log_format)))
      | None => Some None
      end.

(** The answers of the system to one record. *)
Record env := { today : Z * Z * Z; stamp : list Z; exists_ : bool; open_ : Z; write_ : Z }.

Definition op_log_prog (p : prog) (opened : gmap Z (list Z)) (e : env) (h : head) (content : list Z)
  : option (prog * gmap Z (list Z) * option (list Z * list Z)) :=
  let '(p, opened, log_fd) := _oplog_check_disk p opened (today e) (exists_ e) (open_ e) in
  if log_fd <? 0 then Some (p, opened, None)
  else line ← _oplog_sync_to_disk log_fd opened (write_ e) (stamp e) h content; Some (p, opened, line).

(** One round of the loop of [oplog_dispatch], after the wait. *)
Definition oplog_dispatch (o : oplog) (e : env) : option oplog :=
  match vector o with
  | [] => Some o
  | it :: r =>
      let h := log_header_ntohl (buf it) in
      let done_ p f d := {| vector := r; vector_num := s32 (vector_num o - 1); live := live o - 2; prog_ := p;
                            opened := f; disk := d |} in
      if (h_type h <=? oplog_none) || (oplog_max <=? h_type h) then Some (done_ (prog_ o) (opened o) (disk o))
      else if negb (h_type h =? oplog_prog) then Some (done_ (prog_ o) (opened o) (disk o))
      else
        '(p, f, line) ← op_log_prog (prog_ o) (opened o) e h (cstr (drop 140 (buf it)));
        Some (done_ p f (match line with Some l => l :: disk o | None => disk o end))
  end.

End OpLog.
