(* ===== verification/OpLogSpec.v ===== *)
(** * The log pipeline: from a call to a line of the file, and the bounded queue *)

From S2P Require Import Prelude Bytes CString Utils Pdu PduSpec OpLog.
From stdpp Require Import base tactics numbers option strings list gmap.
From Stdlib Require Import ZArith Lia.
Open Scope Z_scope.
Import Utils Pdu OpLog.

Definition is_int (x : Z) : Prop := -2147483648 <= x < 2147483648.

(** An [int] survives the two conversions. *)
Lemma int_roundtrip x : is_int x -> s32 (ntohl (of_le32 (be32 (u32 x)))) = x.
Proof.
  intros Hx. change (of_le32 (be32 (u32 x))) with (htonl (u32 x)).
  rewrite ntohl_htonl by apply u32_range. unfold s32, u32, is_int in *.
  rewrite Zplus_mod_idemp_l. fold (s32 x). by apply s32_id.
Qed.

(** The image of a record. *)
Definition image (f64 fn64 : list Z) (line level type : Z) (text : list Z) : list Z :=
  f64 ++ fn64 ++ be32 (u32 line) ++ be32 (u32 level) ++ be32 (u32 type) ++ text.

Section image.
Context (f64 fn64 : list Z) (line level type : Z) (text : list Z).
Hypothesis Hf : length f64 = 64%nat.
Hypothesis Hfn : length fn64 = 64%nat.
Let b := image f64 fn64 line level type text.

Lemma image_line : is_int line -> ntohl_at b 128 = line.
Proof.
  intros H. unfold ntohl_at, b, image. rewrite app_assoc, drop_pre by (rewrite length_app; lia).
  rewrite take_app_length' by done. by apply int_roundtrip.
Qed.
Lemma image_level : is_int level -> ntohl_at b 132 = level.
Proof.
  intros H. unfold ntohl_at, b, image. rewrite !app_assoc.
  rewrite <- (app_assoc _ (be32 (u32 type))), <- (app_assoc _ (be32 (u32 level))).
  rewrite drop_pre by (rewrite !length_app; simpl; lia).
  rewrite take_app_length' by done. by apply int_roundtrip.
Qed.
Lemma image_type : is_int type -> ntohl_at b 136 = type.
Proof.
  intros H. unfold ntohl_at, b, image. rewrite !app_assoc. rewrite <- (app_assoc _ (be32 (u32 type))).
  rewrite drop_pre by (rewrite !length_app; simpl; lia).
  rewrite take_app_length' by done. by apply int_roundtrip.
Qed.
Lemma image_text : drop 140 b = text.
Proof.
  unfold b, image. rewrite !app_assoc. apply drop_pre. rewrite !length_app. simpl. lia.
Qed.
Lemma image_function : 0 ∈ fn64 -> cstr (drop 64 (header_in_place b)) = cstr fn64.
Proof.
  intros H0. unfold header_in_place. apply list_elem_of_split in H0 as (l1 & l2 & E).
  assert (take 128 b = f64 ++ fn64) as ->.
  { unfold b, image. rewrite app_assoc. apply take_app_length'. rewrite length_app. lia. }
  rewrite <- app_assoc, drop_pre by done. rewrite E.
  clear. unfold cstr. induction l1 as [|x l1 IH]; simpl; [done|].
  destruct (x =? 0); simpl; [done|].
  destruct (span _ (l1 ++ 0 :: l2)) eqn:E1, (span _ ((l1 ++ 0 :: l2) ++ _)) eqn:E2. simpl in *. by rewrite IH.
Qed.
End image.

Lemma cstr_short d : (length (cstr d) < length d)%nat -> 0 ∈ d.
Proof.
  intros H. destruct (decide (0 ∈ d)) as [|Hn]; [done|]. exfalso. revert H. unfold cstr.
  rewrite span_all; [simpl; lia|]. intros x Hx. apply negb_true_iff, Z.eqb_neq. by intros ->.
Qed.

Lemma be32_len x : length (be32 x) = 4%nat.
Proof. done. Qed.

(** What is handed to [sendto]. *)
Lemma oplog_print_ok buf_send type file function line level text :
  zlen buf_send = LOG_BUF_SIZE -> no_nul file -> no_nul function -> zlen text < LOG_BUF_SIZE - header_size ->
  exists buf' f64 fn64,
    oplog_print buf_send type file function line level text
    = Some (buf', image f64 fn64 line level type text) /\
    zlen buf' = LOG_BUF_SIZE /\ length f64 = 64%nat /\ length fn64 = 64%nat /\ cstr f64 = take 63 file /\
    0 ∈ fn64 /\ cstr fn64 = take 63 function.
Proof.
  unfold LOG_BUF_SIZE, header_size. intros Hb Hf Hfn Ht. unfold oplog_print.
  assert (length (take 64 buf_send) = 64%nat /\ length (take 64 (drop 64 buf_send)) = 64%nat) as [L1 L2].
  { rewrite !length_take, length_drop. unfold zlen in Hb. lia. }
  destruct (op_strlcpy_fits (take 64 buf_send) file 64) as (f64 & k1 & -> & E1 & _ & _ & Hc1); [done|unfold zlen; lia|lia|].
  rewrite bind_some. cbn beta iota.
  destruct (op_strlcpy_fits (take 64 (drop 64 buf_send)) function 64) as (fn64 & k2 & -> & E2 & Hk & Hk64 & Hc);
    [done|unfold zlen; lia|lia|].
  rewrite bind_some. cbn beta iota. cbn [default from_option id]. rewrite !le32_htonl.
  set (hd := f64 ++ fn64 ++ _). unfold LOG_BUF_SIZE, header_size.
  assert (zlen hd = 140) as Hh by (unfold hd, zlen; rewrite !length_app, !be32_len; lia).
  assert (zlen (drop 140 buf_send) = 8052) as Hd by (unfold zlen in *; rewrite length_drop; lia).
  pose proof (zlen_nonneg text) as Hnn.
  replace (snprintf_at (hd ++ drop 140 buf_send) 140) with (snprintf_at (hd ++ drop 140 buf_send) (zlen hd))
    by (by rewrite Hh). rewrite snprintf_at_app by lia. rewrite bind_some. cbn beta iota.
  set (buf' := hd ++ text ++ _).
  assert (zlen buf' = 8192) as Hbl.
  { clearbody hd. unfold buf', zlen in *. rewrite !length_app. cbn [length]. rewrite !length_drop in *. lia. }
  rewrite (proj2 (Z.ltb_ge _ _)) by lia.
  exists buf', f64, fn64. split_and!; [|done|lia|lia|done| |done].
  - do 2 f_equal. unfold buf'. rewrite app_assoc, take_pre; [unfold image, hd; by rewrite <- !app_assoc|].
    rewrite length_app. unfold zlen in *. lia.
  - apply cstr_short. unfold zlen in *. lia.
Qed.

(** ** The queue *)

(** Blocks that no item of the queue holds. *)
Definition leaked (o : oplog) : Z := live o - 2 * zlen (vector o).

Definition inv (o : oplog) : Prop :=
  vector_num o = zlen (vector o) /\ zlen (vector o) <= LOG_RECV_LIST_SIZE + 1.

Lemma oplog_job_inv o dg a b : inv o -> inv (oplog_job o dg a b).
Proof.
  intros [Hn Hl]. unfold oplog_job. destruct dg as [d|]; [|done].
  destruct ((LOG_BUF_SIZE <? zlen d) || (zlen d <? header_size)); [done|].
  destruct a, b; simpl; try done. unfold inv, LOG_RECV_LIST_SIZE in *. bcase; simpl; [done|].
  pose proof (zlen_nonneg (vector o)). unfold zlen in *. rewrite length_app. simpl. rewrite s32_id by lia. lia.
Qed.

Lemma oplog_dispatch_inv o e o' : inv o -> oplog_dispatch o e = Some o' -> inv o' /\ leaked o' = leaked o.
Proof.
  intros Hi. unfold oplog_dispatch. destruct (vector o) as [|it r] eqn:Ev; [by intros [= <-]|].
  destruct Hi as [Hn Hl]. rewrite Ev in *.
  assert (s32 (vector_num o - 1) = zlen r) as Hs.
  { rewrite Hn, s32_id; unfold LOG_RECV_LIST_SIZE, zlen in *; simpl in *; lia. }
  assert (forall p f d, inv {| vector := r; vector_num := s32 (vector_num o - 1); live := live o - 2; prog_ := p; opened := f; disk := d |}
            /\ leaked {| vector := r; vector_num := s32 (vector_num o - 1); live := live o - 2; prog_ := p; opened := f; disk := d |}
               = leaked o) as Hdone.
  { intros p f d. unfold inv, leaked. simpl. rewrite Ev, Hs. unfold LOG_RECV_LIST_SIZE, zlen in *. simpl in *. lia. }
  intros H. repeat case_match; simplify_eq; try apply Hdone.
  all: destruct (op_log_prog (prog_ o) (opened o) e (log_header_ntohl (buf it)) (cstr (drop 140 (buf it)))) as [[[p f] line]|];
    [|discriminate]; rewrite bind_some in H; injection H as <-; apply Hdone.
Qed.

(** The line of a record. *)
Definition line_text (stamp : list Z) (level : Z) (function : list Z) (line : Z) (text : list Z) : list Z :=
  match log_level_map !! Z.to_nat level with
  | Some (c, name) => c ++ stamp ++ [32] ++ function ++ [32] ++ fmt_d line ++ [32] ++ name ++ [32; 9]
                      ++ text ++ LOG_COLOR_NONE
  | None => []
  end.

Lemma sync_to_disk_ok fd opened write_ stamp h content :
  let line := line_text stamp (h_level h) (h_function h) (h_line h) content in
  0 <= fd -> h_type h = oplog_prog -> 0 <= h_level h < 4 -> zlen line < LOG_BUF_SIZE -> write_ = zlen line ->
  _oplog_sync_to_disk fd opened write_ stamp h content = Some ((fun file => (file, line)) <$> opened !! fd).
Proof.
  intros line Hfd Ht Hl Hz Hw. unfold _oplog_sync_to_disk. rewrite (proj2 (Z.ltb_ge fd 0)) by done. rewrite Ht. simpl (negb _).
  cbn iota. rewrite (proj2 (Z.ltb_ge oplog_level_max _)) by (unfold oplog_level_max; lia).
  assert (_oplog_format stamp h content = Some line) as ->.
  { unfold _oplog_format, line, line_text. rewrite (proj2 (Z.ltb_ge _ 0)) by lia.
    destruct (log_level_map !! Z.to_nat (h_level h)) as [[c name]|] eqn:E; [done|].
    apply lookup_ge_None in E. simpl in E. lia. }
  rewrite bind_some. clearbody line.
  assert (zlen (replicate 8192 0) = 8192) as Hr by (unfold zlen; by rewrite length_replicate).
  unfold LOG_BUF_SIZE in *. rewrite snprintf_ok by lia. rewrite bind_some. cbn beta iota.
  rewrite (proj2 (Z.ltb_ge _ _)).
  - destruct (opened !! fd); [|done]. rewrite (proj2 (Z.ltb_ge write_ 0)) by (rewrite Hw; apply zlen_nonneg).
    rewrite take_pre by (unfold zlen; lia). simpl. do 3 f_equal. apply take_ge. unfold zlen in Hw. lia.
  - unfold zlen in *. rewrite length_app. simpl. lia.
Qed.

(** Dispatching the item of a record: the file is looked after, and the line goes to where the
    descriptor leads. *)
Lemma dispatch_record o e f64 fn64 function line level text r :
  let b := image f64 fn64 line level oplog_prog text ++ [0] in
  let l := line_text (stamp e) level function line text in
  let '(p, files, log_fd) := _oplog_check_disk (prog_ o) (opened o) (today e) (exists_ e) (open_ e) in
  vector o = {| buf := b; size := zlen (image f64 fn64 line level oplog_prog text) |} :: r ->
  length f64 = 64%nat -> length fn64 = 64%nat -> 0 ∈ fn64 -> cstr fn64 = function ->
  is_int line -> 0 <= level < 4 -> no_nul text -> zlen l < LOG_BUF_SIZE -> write_ e = zlen l ->
  exists o', oplog_dispatch o e = Some o' /\ vector o' = r /\ prog_ o' = p /\ opened o' = files /\
    disk o' = match (if log_fd <? 0 then None else files !! log_fd) with
              | Some file => (file, l) :: disk o
              | None => disk o
              end.
Proof.
  intros b l. destruct (_oplog_check_disk _ _ _ _ _) as [[p files] log_fd] eqn:Ed.
  intros Hv Hf Hfn H0 Hc Hl Hlv Ht Hz Hw. unfold oplog_dispatch. rewrite Hv. cbn [buf].
  assert (b = image f64 fn64 line level oplog_prog (text ++ [0])) as Hb.
  { unfold b, image. by rewrite <- !app_assoc. }
  assert (log_header_ntohl b
          = {| h_function := function; h_line := line; h_level := level; h_type := oplog_prog |}) as ->.
  { unfold log_header_ntohl. rewrite Hb.
    rewrite image_function, image_line, image_level, image_type by (done || unfold is_int, oplog_prog in *; lia).
    by rewrite Hc. }
  assert (cstr (drop 140 b) = text) as -> by (rewrite Hb, image_text by done; by apply cstr_terminated).
  cbn [h_type]. change ((oplog_prog <=? oplog_none) || (oplog_max <=? oplog_prog)) with false.
  change (negb (oplog_prog =? oplog_prog)) with false. cbn iota.
  unfold op_log_prog. rewrite Ed. destruct (log_fd <? 0) eqn:Efd; [eexists; split; [reflexivity|]; by split_and!|].
  apply Z.ltb_ge in Efd. rewrite sync_to_disk_ok by done. rewrite !bind_some. eexists. split; [done|]. cbn [vector prog_ opened disk].
  split_and!; try done. by destruct (files !! log_fd).
Qed.

(** The file of the day has to be opened: it is not there, or no file is open. *)
Definition reopens (o : oplog) (e : env) : bool := negb (exists_ e) || (fd (prog_ o) <=? 0).
(** The open file is the one of the day kept. *)
Definition on_day (o : oplog) : Prop := opened o !! fd (prog_ o) = Some (day_file (root_path (prog_ o)) (tm (prog_ o))).

Lemma check_disk_reopens o e :
  reopens o e = true ->
  exists files,
  _oplog_check_disk (prog_ o) (opened o) (today e) (exists_ e) (open_ e)
  = ({| root_path := root_path (prog_ o); tm := today e; fd := open_ e |},
     if open_ e <? 0 then files else <[open_ e := day_file (root_path (prog_ o)) (today e)]> files,
     if open_ e <? 0 then -1 else open_ e).
Proof.
  unfold reopens, _oplog_check_disk. intros Hr. destruct (decide (tm (prog_ o) = today e)) as [Ht|]; cbn [fd root_path tm];
    rewrite Hr; eexists; rewrite ?Ht; by destruct (open_ e <? 0).
Qed.
Lemma check_disk_keeps o e :
  reopens o e = false ->
  _oplog_check_disk (prog_ o) (opened o) (today e) (exists_ e) (open_ e)
  = ({| root_path := root_path (prog_ o); tm := today e; fd := fd (prog_ o) |}, opened o, fd (prog_ o)) /\
  0 < fd (prog_ o).
Proof.
  unfold reopens, _oplog_check_disk. intros Hr.
  split; [|apply orb_false_iff in Hr as [_ Hr]; apply Z.leb_gt in Hr; lia].
  destruct (decide (tm (prog_ o) = today e)) as [Ht|]; cbn [fd]; rewrite Hr; [|done].
  rewrite <- Ht. by destruct (prog_ o).
Qed.


