(* ===== verification/Vector.v ===== *)
(** * The growable pointer arrays of opbox/vty.c

    [struct _vector]: an array of pointers that doubles when an index lies beyond it. A slot is
    [None] when it holds a null pointer; [index = None] is the null pointer a failed [realloc]
    leaves in the structure. The result [None] of an operation is an access outside the array.
    The second half shows that a vector is a sequence of slots, [contents], and what each
    operation does to it: the command interpreter is modelled on these sequences. *)

From S2P Require Import Prelude.
From stdpp Require Import base tactics numbers list.
From Stdlib Require Import ZArith Lia.
Open Scope Z_scope.

Module Vector.

Record vector (A : Type) := Vec {
  active : Z;
  alloced : Z;
  index : option (list (option A))
}.
Arguments Vec {_} _ _ _.
Arguments active {_} _.
Arguments alloced {_} _.
Arguments index {_} _.

Definition VCTOR_CREATE_SIZE : Z := 10.
Definition sizeof_ptr : Z := 8.

Section Ops.
Context {A : Type} (realloc : Z -> bool).
Implicit Types (v : vector A) (val : option A).

(** [v->index[i]], for reading and for writing. *)
Definition slot v (i : Z) : option (option A) := idx ← index v; idx !! Z.to_nat i.
Definition set_slot v (i : Z) val : option (vector A) :=
  idx ← index v;
  if (0 <=? i) && (i <? Z.of_nat (length idx))
  then Some (Vec (active v) (alloced v) (Some (<[Z.to_nat i := val]> idx))) else None.

Fixpoint empty_slot_from v (n : nat) (i : Z) : option Z :=
  match n with
  | O => Some i
  | S n =>
      p ← slot v i;
      match p with
      | None => Some i
      | Some _ => empty_slot_from v n (i + 1)
      end
  end.
Definition vector_empty_slot v : option Z :=
  if active v =? 0 then Some 0 else empty_slot_from v (Z.to_nat (active v)) 0.

(** The recursive call's result is not looked at by the code. Each call at least doubles the
    array, so that 32 calls reach any 32-bit index. *)
Fixpoint vector_ensure_rec (fuel : nat) v (num : Z) : option (Z * vector A) :=
  match fuel with
  | O => None
  | S fuel =>
      if num <? alloced v then Some (0, v)
      else
        let size := u32 (alloced v * 2) in
        if negb (realloc (u64 (sizeof_ptr * size))) then Some (-1, Vec (active v) (alloced v) None)
        else
          idx ← index v;
          let grown := take (Z.to_nat size) (idx ++ replicate (Z.to_nat (alloced v)) None) in
          let v' := Vec (active v) size (Some grown) in
          if size <=? num then
            r ← vector_ensure_rec fuel v' num; Some (0, snd r)
          else Some (0, v')
  end.
Definition vector_ensure v (num : Z) : option (Z * vector A) := vector_ensure_rec 33 v num.

Definition put v (i : Z) val : option (Z * vector A) :=
  r ← vector_ensure v i;
  if fst r <? 0 then Some (-1, snd r)
  else
    v' ← set_slot (snd r) i val;
    Some (s32 i, if active v' <=? i then Vec (u32 (i + 1)) (alloced v') (index v') else v').
Definition vector_set v val : option (Z * vector A) :=
  i ← vector_empty_slot v; put v i val.
Definition vector_set_index v (i : Z) val : option (Z * vector A) := put v i val.

Definition vector_init : vector A :=
  Vec 0 VCTOR_CREATE_SIZE (Some (replicate (Z.to_nat VCTOR_CREATE_SIZE) None)).

Definition vector_lookup v (i : Z) : option (option A) :=
  if active v <=? i then Some None else slot v i.

Definition vector_count v : option Z :=
  idx ← index v;
  Some (Z.of_nat (length (filter (fun p => is_Some p) (take (Z.to_nat (active v)) idx)))).

Definition vector_copy v : vector A := Vec (active v) (alloced v) (index v).

(** The loop of [vector_unset]: [while (i && v->index[--i] == NULL && v->active--)]. *)
Fixpoint unset_trim (i : nat) v : option (vector A) :=
  match i with
  | O => Some v
  | S i =>
      p ← slot v (Z.of_nat i);
      match p with
      | Some _ => Some v
      | None =>
          let v' := Vec (u32 (active v - 1)) (alloced v) (index v) in
          if active v =? 0 then Some v' else unset_trim i v'
      end
  end.
Definition vector_unset v (i : Z) : option (vector A) :=
  if alloced v <=? i then Some v
  else
    v' ← set_slot v i None;
    if u32 (i + 1) =? active v'
    then unset_trim (Z.to_nat i) (Vec (u32 (active v' - 1)) (alloced v') (index v'))
    else Some v'.

End Ops.

(** ** Vectors as sequences of slots *)

Section Sequences.
Context {A : Type}.
Implicit Types (l : list (option A)) (val : option A).

(** Writing to the first empty slot, or behind the last one. *)
Fixpoint vset l val : list (option A) :=
  match l with
  | [] => [val]
  | None :: r => val :: r
  | Some x :: r => Some x :: vset r val
  end.
Definition vset_index l (i : nat) val : list (option A) :=
  if decide (i < length l)%nat then <[i := val]> l
  else l ++ replicate (i - length l) None ++ [val].
(** Dropping the empty slots at the end. *)
Fixpoint vtrim l : list (option A) :=
  match l with
  | [] => []
  | p :: r => match vtrim r, p with [], None => [] | r', _ => p :: r' end
  end.
Definition vunset l (i : nat) : list (option A) :=
  if decide (S i = length l) then vtrim (take i l) else <[i := None]> l.

Definition vlookup l (i : nat) : option A := mjoin (l !! i).

Lemma vset_full l val : (forall p, p ∈ l -> is_Some p) -> vset l val = l ++ [val].
Proof.
  induction l as [|[x|] l IH]; intros H; simpl; [done| |].
  - f_equal. apply IH. intros p Hp. apply H. by right.
  - destruct (H None ltac:(by left)); congruence.
Qed.
Lemma vset_fmap_Some (xs : list A) (x : A) : vset (Some <$> xs) (Some x) = Some <$> (xs ++ [x]).
Proof.
  rewrite fmap_app. apply vset_full. intros p (y & -> & _)%list_elem_of_fmap. by eexists.
Qed.
Lemma vset_length l val : (length l <= length (vset l val) <= S (length l))%nat.
Proof. induction l as [|[x|] l IH]; simpl; lia. Qed.
Lemma vset_index_length l i val : length (vset_index l i val) = Nat.max (length l) (S i).
Proof.
  unfold vset_index. case_decide; [rewrite length_insert|rewrite !length_app, length_replicate; simpl]; lia.
Qed.
Lemma vtrim_snoc l p : vtrim (l ++ [p]) = match p with None => vtrim l | Some _ => l ++ [p] end.
Proof.
  induction l as [|q l IH]; simpl; [by destruct p|]. rewrite IH. destruct p; [|done].
  by destruct l, q.
Qed.
Lemma vtrim_prefix l : exists n, l = vtrim l ++ replicate n None.
Proof.
  induction l as [|p l [n IH]]; simpl; [by exists 0%nat|].
  destruct (vtrim l) as [|q r] eqn:E, p as [x|]; simpl in *.
  - exists n. congruence.
  - exists (S n). simpl. congruence.
  - exists n. congruence.
  - exists n. congruence.
Qed.
End Sequences.

Section Refinement.
Context {A : Type}.
Implicit Types (v : vector A) (l : list (option A)) (val : option A).

(** The slots in use are [l], the others are empty and the array has [alloced] slots. *)
Record rep v l : Prop := Rep {
  rep_index : exists rest, index v = Some (l ++ rest) /\ Forall (fun p => p = None) rest
                           /\ Z.of_nat (length (l ++ rest)) = alloced v;
  rep_active : active v = Z.of_nat (length l);
  rep_alloced : VCTOR_CREATE_SIZE <= alloced v < 2147483648
}.

Definition enough : Z -> bool := fun _ => true.

Lemma vector_init_rep : rep (@vector_init A) [].
Proof.
  split; [|done|unfold VCTOR_CREATE_SIZE; simpl; unfold VCTOR_CREATE_SIZE; lia].
  exists (replicate 10 None). split; [done|]. split; [|done]. by apply Forall_replicate.
Qed.

Lemma slot_rep v l i : rep v l -> 0 <= i < alloced v -> slot v i = Some (vlookup l (Z.to_nat i)).
Proof.
  intros [(rest & Hi & Hr & Hl) Ha _] Hb. unfold slot, vlookup. rewrite Hi. simpl.
  destruct (decide (Z.to_nat i < length l)%nat) as [Hlt|Hge].
  - rewrite lookup_app_l by done. by destruct (lookup_lt_is_Some_2 l _ Hlt) as [p ->].
  - rewrite lookup_app_r, (lookup_ge_None_2 l) by lia. simpl.
    destruct (lookup_lt_is_Some_2 rest (Z.to_nat i - length l)) as [p Hp].
    { rewrite length_app in Hl. lia. }
    rewrite Hp. f_equal. exact (proj1 (Forall_lookup _ _) Hr _ _ Hp).
Qed.

Lemma empty_slot_from_rep v l n i :
  rep v l -> (i + n = length l)%nat ->
  exists j, empty_slot_from v n (Z.of_nat i) = Some (Z.of_nat j) /\ (i <= j <= length l)%nat
  /\ (forall k, (i <= k < j)%nat -> exists x, l !! k = Some (Some x))
  /\ ((j < length l)%nat -> l !! j = Some None).
Proof.
  intros Hr. revert i. induction n as [|n IH]; intros i Hn; simpl.
  { exists i. repeat split; try done; intros; lia. }
  pose proof Hr as [(rest & Hi & _ & Hl) Ha _]. rewrite length_app in Hl.
  rewrite (slot_rep v l) by (done || lia). simpl. rewrite Nat2Z.id. unfold vlookup.
  destruct (lookup_lt_is_Some_2 l i) as [p Hp]; [lia|]. rewrite Hp. simpl. destruct p as [x|].
  - destruct (IH (S i)) as (j & Hj & Hb & Hs & He); [lia|].
    replace (Z.of_nat i + 1) with (Z.of_nat (S i)) by lia. exists j. repeat split; try done; try lia.
    intros k Hk. destruct (decide (k = i)) as [->|]; [by exists x|]. apply Hs. lia.
  - exists i. repeat split; try done; try lia.
Qed.

Lemma vset_at l val j :
  (j <= length l)%nat -> (forall k, (k < j)%nat -> exists x, l !! k = Some (Some x)) ->
  ((j < length l)%nat -> l !! j = Some None) -> vset l val = vset_index l j val.
Proof.
  unfold vset_index. revert j. induction l as [|p l IH]; intros j Hj Hs He; simpl in *.
  - assert (j = 0%nat) as -> by lia. done.
  - destruct j as [|j].
    + specialize (He ltac:(lia)). by simplify_eq/=.
    + destruct (Hs 0%nat) as [x Hx]; [lia|]. simplify_eq/=.
      rewrite (IH j); [|lia| |intros; apply He; lia].
      2: { intros k Hk. apply (Hs (S k)). lia. }
      repeat case_decide; try lia; done.
Qed.

Lemma vector_ensure_rep v l num fuel :
  rep v l -> 0 <= num < 1073741824 -> num < alloced v * 2 ^ (Z.of_nat fuel - 1) -> (0 < fuel)%nat ->
  exists v', vector_ensure_rec enough fuel v num = Some (0, v') /\ rep v' l /\ num < alloced v'.
Proof.
  revert v. induction fuel as [|fuel IH]; intros v Hr Hn Hf Hp; [lia|]. simpl.
  destruct (num <? alloced v) eqn:E; btest; [by exists v|].
  pose proof Hr as [(rest & Hi & Hnone & Hl) Ha Hb]. unfold VCTOR_CREATE_SIZE in Hb.
  rewrite Hi. simpl. unwrap.
  set (v' := Vec _ _ _). assert (rep v' l) as Hr'.
  { split; [|done|unfold VCTOR_CREATE_SIZE; simpl; lia]. exists (rest ++ replicate (Z.to_nat (alloced v)) None).
    rewrite !length_app in *. rewrite length_replicate. split; [|split].
    - simpl. f_equal. rewrite app_assoc. apply take_ge. rewrite !length_app, length_replicate. lia.
    - apply Forall_app. split; [done|]. by apply Forall_replicate.
    - simpl. lia. }
  destruct (alloced v * 2 <=? num) eqn:E2; btest; [|by exists v'].
  destruct fuel as [|fuel]; [simpl in Hf; lia|].
  destruct (IH v' Hr' Hn) as (v2 & -> & Hr2 & Hlt); [|lia|by exists v2].
  simpl alloced. replace (Z.of_nat (S (S fuel)) - 1) with (Z.of_nat (S fuel) - 1 + 1) in Hf by lia.
  rewrite Z.pow_add_r in Hf by lia. lia.
Qed.

Lemma put_rep v l (i : nat) val :
  rep v l -> Z.of_nat i < 1073741824 ->
  exists v', put enough v (Z.of_nat i) val = Some (Z.of_nat i, v') /\ rep v' (vset_index l i val).
Proof.
  intros Hr Hi. unfold put, vector_ensure.
  destruct (vector_ensure_rep v l (Z.of_nat i) 33 Hr) as (v1 & -> & Hr1 & Hlt);
    [lia|pose proof (rep_alloced _ _ Hr); unfold VCTOR_CREATE_SIZE in *; simpl; lia|lia|]. simpl.
  pose proof Hr1 as [(rest & Hx & Hnone & Hl) Ha Hb]. unfold set_slot. rewrite Hx. simpl.
  rewrite Hl. replace (0 <=? Z.of_nat i) with true by lia.
  replace (Z.of_nat i <? alloced v1) with true by lia. simpl. rewrite Nat2Z.id, s32_id by lia.
  eexists. split; [done|]. rewrite Ha. unfold vset_index.
  destruct (Z.of_nat (length l) <=? Z.of_nat i) eqn:E; btest.
  - case_decide; [lia|]. rewrite u32_id by lia. rewrite length_app in Hl.
    split; simpl; [|rewrite !length_app, length_replicate; simpl; lia|done].
    exists (drop (S (i - length l)) rest). repeat split.
    + f_equal. rewrite insert_app_r_alt by lia. rewrite <- !app_assoc. f_equal. simpl.
      rewrite insert_take_drop by lia. f_equal. apply list_eq_same_length with (n := (i - length l)%nat).
      * by rewrite length_replicate.
      * rewrite length_take. lia.
      * intros k x y Hk Hx1 Hy1. rewrite lookup_take_lt in Hx1 by lia.
        apply lookup_replicate in Hy1 as [-> _]. by apply (proj1 (Forall_lookup _ _) Hnone) in Hx1.
    + by apply Forall_drop.
    + rewrite !length_app, length_replicate, length_drop. simpl. lia.
  - case_decide; [|lia]. split; simpl; [|rewrite length_insert; lia|done].
    exists rest. rewrite insert_app_l by lia. split; [done|]. split; [done|].
    rewrite length_app, length_insert. rewrite length_app in Hl. lia.
Qed.

Lemma vector_set_rep v l val :
  rep v l -> Z.of_nat (length l) < 1073741824 ->
  exists r v', vector_set enough v val = Some (r, v') /\ rep v' (vset l val).
Proof.
  intros Hr Hl. unfold vector_set, vector_empty_slot.
  assert (exists j, (if active v =? 0 then Some 0 else empty_slot_from v (Z.to_nat (active v)) 0)
                    = Some (Z.of_nat j) /\ (j <= length l)%nat /\ vset l val = vset_index l j val)
    as (j & -> & Hj & ->).
  { rewrite (rep_active _ _ Hr), Nat2Z.id. destruct (Z.of_nat (length l) =? 0) eqn:E; btest.
    - exists 0%nat. split; [done|]. split; [lia|]. by destruct l; simpl in *; [|lia].
    - destruct (empty_slot_from_rep v l (length l) 0 Hr) as (j & Hj & Hb & Hs & He); [lia|].
      exists j. rewrite <- Hj. split; [done|]. split; [lia|]. apply vset_at; [lia| |done].
      intros k Hk. apply Hs. lia. }
  simpl. destruct (put_rep v l j val Hr) as (v' & -> & Hr'); [lia|]. eauto.
Qed.

Lemma unset_trim_rep v l :
  rep v l -> exists v', unset_trim (length l) v = Some v' /\ rep v' (vtrim l).
Proof.
  revert v. induction l as [|p l IH] using rev_ind; intros v Hr; [by exists v|].
  rewrite length_app, Nat.add_1_r. simpl.
  pose proof Hr as [(rest & Hi & Hnone & Hl) Ha Hb]. rewrite !length_app in Hl. simpl in Hl.
  rewrite (slot_rep v _ _ Hr) by lia. simpl. rewrite Nat2Z.id. unfold vlookup.
  rewrite lookup_app_r, Nat.sub_diag by lia. simpl. rewrite vtrim_snoc. destruct p as [x|]; [by exists v|].
  rewrite length_app in Ha. simpl in Ha. replace (active v =? 0) with false by lia.
  rewrite u32_id by lia. apply IH. split; [|simpl; lia|done].
  exists (None :: rest). simpl. rewrite <- app_assoc in Hi. split; [done|]. split; [by constructor|].
  rewrite length_app. simpl. lia.
Qed.

Lemma vector_unset_rep v l (i : nat) :
  rep v l -> Z.of_nat i < 2147483647 ->
  exists v', vector_unset v (Z.of_nat i) = Some v' /\ rep v' (vunset l i).
Proof.
  intros Hr Hb. pose proof Hr as [(rest & Hi & Hnone & Hl) Ha Hal]. unfold vector_unset, vunset.
  destruct (alloced v <=? Z.of_nat i) eqn:E; btest.
  { rewrite length_app in Hl. case_decide; [lia|]. exists v. rewrite list_insert_ge by lia. done. }
  unfold set_slot. rewrite Hi. simpl. rewrite Hl.
  replace (0 <=? Z.of_nat i) with true by lia. replace (Z.of_nat i <? alloced v) with true by lia.
  simpl. rewrite Nat2Z.id, u32_id by lia. rewrite Ha. case_decide as Hc.
  - replace (Z.of_nat i + 1 =? Z.of_nat (length l)) with true by lia.
    rewrite length_app in Hl.
    assert (length (take i l) = i) as Ht by (rewrite length_take; lia).
    set (w := Vec _ _ _). pose proof (unset_trim_rep w (take i l)) as HT. rewrite Ht in HT. apply HT.
    split; simpl; [|rewrite Ht, u32_id; lia|done].
    exists (None :: rest). split; [|split; [by constructor|rewrite length_app, length_take; simpl; lia]].
    f_equal. rewrite insert_app_l by lia. rewrite insert_take_drop by lia.
    rewrite drop_ge by lia. by rewrite <- app_assoc.
  - replace (Z.of_nat i + 1 =? Z.of_nat (length l)) with false by lia. eexists. split; [done|].
    rewrite length_app in Hl. split; simpl; [|rewrite length_insert; lia|done].
    destruct (decide (i < length l)%nat).
    + exists rest. rewrite insert_app_l by lia.
      split; [done|split; [done|rewrite length_app, length_insert; lia]].
    + rewrite (list_insert_ge l) by lia. exists rest. split; [|split; [done|rewrite length_app; lia]].
      f_equal. rewrite insert_app_r_alt by lia. f_equal. apply list_insert_id.
      destruct (lookup_lt_is_Some_2 rest (i - length l)) as [p Hp]; [lia|].
      rewrite Hp. f_equal. exact (proj1 (Forall_lookup _ _) Hnone _ _ Hp).
Qed.
(** ** Sequences of operations *)

Inductive vop :=
| OpSet (val : option A)
| OpSetIndex (i : nat) (val : option A)
| OpUnset (i : nat).

Definition run_op v (o : vop) : option (vector A) :=
  match o with
  | OpSet val => snd <$> vector_set enough v val
  | OpSetIndex i val => snd <$> vector_set_index enough v (Z.of_nat i) val
  | OpUnset i => vector_unset v (Z.of_nat i)
  end.
Definition run_ops v (os : list vop) : option (vector A) :=
  foldl (fun r o => v ← r; run_op v o) (Some v) os.
Definition seq_op l (o : vop) : list (option A) :=
  match o with
  | OpSet val => vset l val
  | OpSetIndex i val => vset_index l i val
  | OpUnset i => vunset l i
  end.
Definition op_index (o : vop) : nat := match o with OpSet _ => 0 | OpSetIndex i _ => i | OpUnset i => i end.

Lemma vunset_length l i : (length (vunset l i) <= length l)%nat.
Proof.
  unfold vunset. case_decide; [|by rewrite length_insert].
  destruct (vtrim_prefix (take i l)) as [n Hn]. apply (f_equal length) in Hn.
  rewrite length_app, length_take in Hn. lia.
Qed.

Lemma seq_op_length l o :
  Z.of_nat (op_index o) < 268435456 ->
  Z.of_nat (length (seq_op l o)) <= Z.max (Z.of_nat (length l)) 268435456 + 1.
Proof.
  intros Ho. destruct o as [val|i val|i]; simpl in *.
  - pose proof (vset_length l val). lia.
  - rewrite vset_index_length. lia.
  - pose proof (vunset_length l i). lia.
Qed.

Lemma run_op_rep v l o :
  rep v l -> Z.of_nat (op_index o) < 268435456 -> Z.of_nat (length l) < 1073741824 ->
  exists v', run_op v o = Some v' /\ rep v' (seq_op l o).
Proof.
  intros Hr Ho Hl. destruct o as [val|i val|i]; simpl in *.
  - destruct (vector_set_rep v l val Hr Hl) as (r & v' & -> & ?). by exists v'.
  - destruct (put_rep v l i val Hr) as (v' & Hp & ?); [lia|].
    unfold vector_set_index. rewrite Hp. by exists v'.
  - apply vector_unset_rep; [done|lia].
Qed.

Lemma run_ops_rep os : forall v l,
  rep v l -> Forall (fun o => Z.of_nat (op_index o) < 268435456) os ->
  Z.max (Z.of_nat (length l)) 268435456 + Z.of_nat (length os) < 1073741824 ->
  exists v', run_ops v os = Some v' /\ rep v' (foldl seq_op l os).
Proof.
  induction os as [|o os IH]; intros v l Hr Ho Hl; [by exists v|].
  apply Forall_cons in Ho as [Ho Hos]. simpl in Hl.
  destruct (run_op_rep v l o Hr Ho) as (v1 & H1 & Hr1); [lia|].
  unfold run_ops. simpl. rewrite H1. apply IH; [done|done|].
  pose proof (seq_op_length l o Ho). lia.
Qed.
End Refinement.

(** C24. The growable array of vty.c implements a sequence of slots: over any run of fewer
    than 2^29 writes to the first empty slot, writes at an index below 2^28 and removals that
    starts at [vector_init], whose allocations succeed, no access leaves the array, and what
    [vector_lookup] and [vector_count] then read is what the same run leaves in the sequence;
    every slot behind the last one in use reads as a null pointer. *)
Theorem vector_refines_slots {A} (os : list (vop (A := A))) :
  Forall (fun o => Z.of_nat (op_index o) < 268435456) os ->
  Z.of_nat (length os) < 536870912 ->
  exists v, run_ops vector_init os = Some v
  /\ active v = Z.of_nat (length (foldl seq_op [] os))
  /\ (forall i, 0 <= i -> vector_lookup v i = Some (vlookup (foldl seq_op [] os) (Z.to_nat i)))
  /\ (forall i, active v <= i < alloced v -> slot v i = Some None)
  /\ vector_count v = Some (Z.of_nat (length (omap id (foldl seq_op [] os)))).
Proof.
  intros Ho Hn. destruct (run_ops_rep os vector_init [] vector_init_rep Ho) as (v & Hv & Hr);
    [simpl; lia|]. set (l := foldl _ _ _) in *. exists v. split; [done|].
  pose proof Hr as [(rest & Hi & Hnone & Hl) Ha Hb]. split; [done|]. rewrite length_app in Hl.
  split; [|split].
  - intros i Hi0. unfold vector_lookup. rewrite Ha.
    destruct (Z.of_nat (length l) <=? i) eqn:E; btest.
    + unfold vlookup. by rewrite lookup_ge_None_2 by lia.
    + apply slot_rep; [done|lia].
  - intros i Hi0. rewrite (slot_rep v l) by (done || lia). unfold vlookup.
    by rewrite lookup_ge_None_2 by lia.
  - unfold vector_count. rewrite Hi. simpl. rewrite Ha, Nat2Z.id, take_app_length. do 2 f_equal.
    clear. induction l as [|[x|] l IH]; [done| |].
    + rewrite filter_cons_True by (by eexists). change (omap id (Some x :: l)) with (x :: omap id l).
      cbn [length]. by rewrite IH.
    + rewrite filter_cons_False by (by intros [??]). done.
Qed.
Lemma vector_refines_slots_witness :
  exists v, run_ops (A := Z) vector_init
              [OpSet (Some 1); OpSetIndex 25 (Some 2); OpSet (Some 3); OpUnset 25] = Some v
            /\ active v = 2.
Proof.
  destruct (vector_refines_slots [OpSet (Some 1); OpSetIndex 25 (Some 2); OpSet (Some 3); OpUnset 25])
    as (v & Hv & Ha & _).
  - repeat constructor; simpl; lia.
  - simpl; lia.
  - exists v. split; [exact Hv|]. rewrite Ha. reflexivity.
Defined.

End Vector.
