(* ===== verification/VtyTerm.v ===== *)
(** * The line editor of opbox/vty.c

    [struct _vty] and the functions that edit the line of a telnet session: cursor movements,
    insertion and deletion, the history, the telnet options. What the code writes to the socket
    is appended to [out]; a failed [write] is only reported on the console. An access outside an
    array, or a loop that does not end, is the result [None]. Allocations succeed: the code does
    not look at their results. *)

From S2P Require Import Prelude CString Utils.
From stdpp Require Import base tactics numbers list.
From Stdlib Require Import ZArith Lia.
Open Scope Z_scope.

Module VtyTerm.
Import Utils.

(** ** Constants *)

Definition VTY_INPUT_BUF_SIZE : Z := 1024.
Definition VTY_HIST_CMD_SIZE : Z := 20.
Definition TELNET_NAWS_SB_LEN : Z := 5.
Definition VTY_OUT_SIZE : Z := 4096.
Definition VTY_PRE_ESCAPE : Z := 1.
Definition VTY_ESCAPE : Z := 2.
Definition VTY_LITERAL : Z := 3.
(** The anonymous enumeration of vty.h. *)
Definition VTY_TERM : Z := 0.
Definition VTY_FILE : Z := 1.
Definition VTY_SHELL : Z := 2.
Definition VTY_SHELL_SERV : Z := 3.
Definition VTY_NORMAL : Z := 4.
Definition VTY_CLOSE : Z := 5.
Definition VTY_MORE : Z := 6.
Definition VTY_MORELINE : Z := 7.
(** arpa/telnet.h. *)
Definition IAC : Z := 255.
Definition SB : Z := 250.
Definition SE : Z := 240.
Definition TELOPT_NAWS : Z := 31.
Definition telnet_backward_char : Z := 8.
Definition telnet_space_char : Z := 32.
Definition CONTROL (x : Z) : Z := x - 64.

(** ** The session *)

(** [len] is the field [length]; [out] is what has been written to [fd]. *)
Record vty := Vty {
  hostname : list Z;
  fd : Z;
  status : Z;
  vtype : Z;
  node : Z;
  buf : list Z;
  cp : Z;
  len : Z;
  max : Z;
  hist : list (option (list Z));
  hp : Z;
  hindex : Z;
  escape : Z;
  iac : Z;
  iac_sb_in_progress : Z;
  sb_buf : list Z;
  sb_len : Z;
  width : Z;
  height : Z;
  out : list Z
}.

Definition set_status (x : Z) (v : vty) : vty :=
  Vty (hostname v) (fd v) x (vtype v) (node v) (buf v) (cp v) (len v) (max v) (hist v) (hp v)
    (hindex v) (escape v) (iac v) (iac_sb_in_progress v) (sb_buf v) (sb_len v) (width v)
    (height v) (out v).
Definition set_node (x : Z) (v : vty) : vty :=
  Vty (hostname v) (fd v) (status v) (vtype v) x (buf v) (cp v) (len v) (max v) (hist v) (hp v)
    (hindex v) (escape v) (iac v) (iac_sb_in_progress v) (sb_buf v) (sb_len v) (width v)
    (height v) (out v).
Definition set_buf (x : list Z) (v : vty) : vty :=
  Vty (hostname v) (fd v) (status v) (vtype v) (node v) x (cp v) (len v) (max v) (hist v) (hp v)
    (hindex v) (escape v) (iac v) (iac_sb_in_progress v) (sb_buf v) (sb_len v) (width v)
    (height v) (out v).
Definition set_cp (x : Z) (v : vty) : vty :=
  Vty (hostname v) (fd v) (status v) (vtype v) (node v) (buf v) x (len v) (max v) (hist v) (hp v)
    (hindex v) (escape v) (iac v) (iac_sb_in_progress v) (sb_buf v) (sb_len v) (width v)
    (height v) (out v).
Definition set_len (x : Z) (v : vty) : vty :=
  Vty (hostname v) (fd v) (status v) (vtype v) (node v) (buf v) (cp v) x (max v) (hist v) (hp v)
    (hindex v) (escape v) (iac v) (iac_sb_in_progress v) (sb_buf v) (sb_len v) (width v)
    (height v) (out v).
Definition set_hist (x : list (option (list Z))) (v : vty) : vty :=
  Vty (hostname v) (fd v) (status v) (vtype v) (node v) (buf v) (cp v) (len v) (max v) x (hp v)
    (hindex v) (escape v) (iac v) (iac_sb_in_progress v) (sb_buf v) (sb_len v) (width v)
    (height v) (out v).
Definition set_hp (x : Z) (v : vty) : vty :=
  Vty (hostname v) (fd v) (status v) (vtype v) (node v) (buf v) (cp v) (len v) (max v) (hist v) x
    (hindex v) (escape v) (iac v) (iac_sb_in_progress v) (sb_buf v) (sb_len v) (width v)
    (height v) (out v).
Definition set_hindex (x : Z) (v : vty) : vty :=
  Vty (hostname v) (fd v) (status v) (vtype v) (node v) (buf v) (cp v) (len v) (max v) (hist v)
    (hp v) x (escape v) (iac v) (iac_sb_in_progress v) (sb_buf v) (sb_len v) (width v) (height v)
    (out v).
Definition set_escape (x : Z) (v : vty) : vty :=
  Vty (hostname v) (fd v) (status v) (vtype v) (node v) (buf v) (cp v) (len v) (max v) (hist v)
    (hp v) (hindex v) x (iac v) (iac_sb_in_progress v) (sb_buf v) (sb_len v) (width v) (height v)
    (out v).
Definition set_iac (x : Z) (v : vty) : vty :=
  Vty (hostname v) (fd v) (status v) (vtype v) (node v) (buf v) (cp v) (len v) (max v) (hist v)
    (hp v) (hindex v) (escape v) x (iac_sb_in_progress v) (sb_buf v) (sb_len v) (width v)
    (height v) (out v).
Definition set_iac_sb_in_progress (x : Z) (v : vty) : vty :=
  Vty (hostname v) (fd v) (status v) (vtype v) (node v) (buf v) (cp v) (len v) (max v) (hist v)
    (hp v) (hindex v) (escape v) (iac v) x (sb_buf v) (sb_len v) (width v) (height v) (out v).
Definition set_sb_buf (x : list Z) (v : vty) : vty :=
  Vty (hostname v) (fd v) (status v) (vtype v) (node v) (buf v) (cp v) (len v) (max v) (hist v)
    (hp v) (hindex v) (escape v) (iac v) (iac_sb_in_progress v) x (sb_len v) (width v) (height v)
    (out v).
Definition set_sb_len (x : Z) (v : vty) : vty :=
  Vty (hostname v) (fd v) (status v) (vtype v) (node v) (buf v) (cp v) (len v) (max v) (hist v)
    (hp v) (hindex v) (escape v) (iac v) (iac_sb_in_progress v) (sb_buf v) x (width v) (height v)
    (out v).
Definition set_width (x : Z) (v : vty) : vty :=
  Vty (hostname v) (fd v) (status v) (vtype v) (node v) (buf v) (cp v) (len v) (max v) (hist v)
    (hp v) (hindex v) (escape v) (iac v) (iac_sb_in_progress v) (sb_buf v) (sb_len v) x (height v)
    (out v).
Definition set_height (x : Z) (v : vty) : vty :=
  Vty (hostname v) (fd v) (status v) (vtype v) (node v) (buf v) (cp v) (len v) (max v) (hist v)
    (hp v) (hindex v) (escape v) (iac v) (iac_sb_in_progress v) (sb_buf v) (sb_len v) (width v) x
    (out v).
Definition set_out (x : list Z) (v : vty) : vty :=
  Vty (hostname v) (fd v) (status v) (vtype v) (node v) (buf v) (cp v) (len v) (max v) (hist v)
    (hp v) (hindex v) (escape v) (iac v) (iac_sb_in_progress v) (sb_buf v) (sb_len v) (width v)
    (height v) x.

Definition VTY_NEWLINE (v : vty) : list Z := if vtype v =? VTY_TERM then [13; 10] else [10].

(** ** Arrays *)

Definition slice (b : list Z) (i n : Z) : option (list Z) :=
  if (0 <=? i) && (0 <=? n) && (i + n <=? zlen b)
  then Some (take (Z.to_nat n) (drop (Z.to_nat i) b)) else None.
Definition poke_at (b : list Z) (i : Z) (data : list Z) : option (list Z) :=
  if (0 <=? i) && (i + zlen data <=? zlen b)
  then Some (take (Z.to_nat i) b ++ data ++ drop (Z.to_nat (i + zlen data)) b) else None.
Definition char_of (b : list Z) (i : Z) : option Z :=
  if 0 <=? i then b !! Z.to_nat i else None.
(** The string in an array; without a terminator reading it leaves the array. *)
Definition string_of (b : list Z) : option (list Z) :=
  if bool_decide (0 ∈ b) then Some (cstr b) else None.
Definition zeros (n : Z) : list Z := replicate (Z.to_nat n) 0.

(** [while (cond) body], at most [fuel] times. *)
Fixpoint while_ (fuel : nat) (cond : vty -> option bool) (body : vty -> option vty) (v : vty)
    : option vty :=
  match fuel with
  | O => None
  | S fuel =>
      c ← cond v;
      if c : bool then v' ← body v; while_ fuel cond body v' else Some v
  end.
(** Every loop of the editor moves the cursor or shortens the line, which holds fewer than
    [max] characters. *)
Definition loop_fuel (v : vty) : nat := S (Z.to_nat (max v)).

(** [vsnprintf] with the formats of the prompts: text, [%s] and [%%]. *)
Fixpoint format (fmt : list Z) (args : list (list Z)) : option (list Z) :=
  match fmt with
  | [] => Some []
  | c :: r =>
      if negb (c =? 37) then s ← format r args; Some (c :: s)
      else
        match r, args with
        | d :: r, _ =>
            if d =? 37 then s ← format r args; Some (37 :: s)
            else if d =? 115 then
              match args with [] => None | a :: args => s ← format r args; Some (a ++ s) end
            else None
        | [], _ => None
        end
  end.

Definition vty_write (v : vty) (data : list Z) : vty := set_out (out v ++ data) v.

(** [vty_out] with [s] the formatted text: the buffer holds 4095 characters and a terminator,
    but as many bytes are written as the whole text has. *)
Definition vty_out (v : vty) (s : list Z) : option vty :=
  if zlen s <? VTY_OUT_SIZE then Some (vty_write v s)
  else if zlen s =? VTY_OUT_SIZE then Some (vty_write v (take (Z.to_nat (VTY_OUT_SIZE - 1)) s ++ [0]))
  else None.

(** ** Moving, inserting, deleting *)

Definition vty_backward_char (v : vty) : vty :=
  if 0 <? cp v then vty_write (set_cp (cp v - 1) v) [telnet_backward_char] else v.

Definition vty_kill_line (v : vty) : option vty :=
  let size := len v - cp v in
  if size =? 0 then Some v
  else
    let v := vty_write v (replicate (Z.to_nat size) telnet_space_char) in
    let v := vty_write v (replicate (Z.to_nat size) telnet_backward_char) in
    if size <? 0 then None
    else
      b ← poke_at (buf v) (cp v) (zeros size);
      Some (set_len (cp v) (set_buf b v)).

Definition vty_beginning_of_line (v : vty) : option vty :=
  while_ (loop_fuel v) (fun v => Some (negb (cp v =? 0))) (fun v => Some (vty_backward_char v)) v.

Definition vty_kill_line_from_beginning (v : vty) : option vty :=
  v ← vty_beginning_of_line v; vty_kill_line v.

Definition vty_redraw_line (v : vty) : option vty :=
  s ← slice (buf v) 0 (len v);
  Some (set_cp (len v) (vty_write v s)).

Definition vty_forward_char (v : vty) : option vty :=
  if cp v <? len v then
    s ← slice (buf v) (cp v) 1;
    Some (set_cp (cp v + 1) (vty_write v s))
  else Some v.

Definition vty_end_of_line (v : vty) : option vty :=
  while_ (loop_fuel v) (fun v => Some (cp v <? len v)) vty_forward_char v.

(** [vty->cp > 0 && vty->buf[vty->cp - 1] == ' '] and its variants. *)
Definition before_is (sp : bool) (v : vty) : option bool :=
  if 0 <? cp v then c ← char_of (buf v) (cp v - 1); Some (eqb (c =? 32) sp) else Some false.
Definition at_is (sp : bool) (v : vty) : option bool :=
  if negb (cp v =? len v) then c ← char_of (buf v) (cp v); Some (eqb (c =? 32) sp) else Some false.

Definition vty_backward_word (v : vty) : option vty :=
  v ← while_ (loop_fuel v) (before_is true) (fun v => Some (vty_backward_char v)) v;
  while_ (loop_fuel v) (before_is false) (fun v => Some (vty_backward_char v)) v.

Definition vty_backward_pure_word (v : vty) : option vty :=
  while_ (loop_fuel v) (before_is false) (fun v => Some (vty_backward_char v)) v.

Definition vty_forward_word (v : vty) : option vty :=
  v ← while_ (loop_fuel v) (at_is false) vty_forward_char v;
  while_ (loop_fuel v) (at_is true) vty_forward_char v.

Section Prompt.
(** [cmd_prompt]: the prompt of a node. *)
Variable cmd_prompt : Z -> option (list Z).

Definition vty_prompt (v : vty) : option vty :=
  p ← cmd_prompt (node v); s ← format p [hostname v]; vty_out v s.

Definition vty_down_level (v : vty) : option vty :=
  v ← vty_out v (VTY_NEWLINE v);
  v ← vty_prompt v;
  Some (set_cp 0 v).

Definition vty_delete_char (v : vty) : option vty :=
  if len v =? 0 then vty_down_level v
  else if cp v =? len v then Some v
  else
    let size := len v - cp v in
    let v := set_len (len v - 1) v in
    moved ← slice (buf v) (cp v + 1) (size - 1);
    b ← poke_at (buf v) (cp v) moved;
    b ← poke_at b (len v) [0];
    let v := set_buf b v in
    s ← slice (buf v) (cp v) (size - 1);
    let v := vty_write v s in
    let v := vty_write v [telnet_space_char] in
    Some (vty_write v (replicate (Z.to_nat size) telnet_backward_char)).

Definition vty_forward_kill_word (v : vty) : option vty :=
  v ← while_ (loop_fuel v) (at_is true) vty_delete_char v;
  while_ (loop_fuel v) (at_is false) vty_delete_char v.

Definition vty_delete_backward_char (v : vty) : option vty :=
  if cp v =? 0 then Some v else vty_delete_char (vty_backward_char v).

Definition vty_backward_kill_word (v : vty) : option vty :=
  v ← while_ (loop_fuel v) (before_is true) vty_delete_backward_char v;
  while_ (loop_fuel v) (before_is false) vty_delete_backward_char v.

End Prompt.

Definition vty_buf_put (v : vty) (c : Z) : option vty :=
  b ← poke_at (buf v) (cp v) [c];
  b ← poke_at b (max v - 1) [0];
  Some (set_buf b v).

Definition vty_self_insert (v : vty) (c : Z) : option vty :=
  if max v <=? len v + 1 then Some v
  else
    let length := len v - cp v in
    moved ← slice (buf v) (cp v) length;
    b ← poke_at (buf v) (cp v + 1) moved;
    let v := set_len (len v + 1) v in
    b ← poke_at b (len v) [0];
    v ← vty_buf_put (set_buf b v) c;
    s ← slice (buf v) (cp v) (length + 1);
    let v := vty_write v s in
    let v := vty_write v (replicate (Z.to_nat length) telnet_backward_char) in
    Some (set_cp (cp v + 1) v).

Definition vty_self_insert_overwrite (v : vty) (c : Z) : option vty :=
  if cp v =? len v then vty_self_insert v c
  else
    v ← vty_buf_put v c;
    Some (vty_write (set_cp (cp v + 1) v) [c]).

Definition vty_insert_word_overwrite (v : vty) (s : list Z) : option vty :=
  let nwrite := Z.min (s32 (zlen s)) (max v - cp v - 1) in
  if nwrite <? 0 then None
  else
    let data := take (Z.to_nat nwrite) s in
    b ← poke_at (buf v) (cp v) data;
    let v := set_cp (cp v + nwrite) v in
    let v := set_len (cp v) v in
    b ← poke_at b (len v) [0];
    Some (vty_write (set_buf b v) data).

Definition vty_clear_buf (v : vty) : option vty :=
  b ← poke_at (buf v) 0 (zeros (max v)); Some (set_buf b v).

Definition vty_transpose_chars (v : vty) : option vty :=
  if (len v <? 2) || (cp v <? 1) then Some v
  else if cp v =? len v then
    c1 ← char_of (buf v) (cp v - 1);
    c2 ← char_of (buf v) (cp v - 2);
    v ← vty_self_insert_overwrite (vty_backward_char (vty_backward_char v)) c1;
    vty_self_insert_overwrite v c2
  else
    c1 ← char_of (buf v) (cp v);
    c2 ← char_of (buf v) (cp v - 1);
    v ← vty_self_insert_overwrite (vty_backward_char v) c1;
    vty_self_insert_overwrite v c2.

(** ** The history *)

Definition hist_at (v : vty) (i : Z) : option (option (list Z)) :=
  if 0 <=? i then hist v !! Z.to_nat i else None.

Definition vty_history_print (v : vty) : option vty :=
  v ← vty_kill_line_from_beginning v;
  h ← hist_at v (hp v);
  line ← h;
  b ← poke_at (buf v) 0 line;
  let v := set_len (zlen line) (set_cp (zlen line) v) in
  b ← poke_at b (len v) [0];
  vty_redraw_line (set_buf b v).

Definition vty_previous_line (v : vty) : option vty :=
  let try_index := if hp v =? 0 then VTY_HIST_CMD_SIZE - 1 else hp v - 1 in
  h ← hist_at v try_index;
  match h with
  | None => Some v
  | Some _ => vty_history_print (set_hp try_index v)
  end.

Definition vty_next_line (v : vty) : option vty :=
  if hp v =? hindex v then Some v
  else
    let try_index := if hp v =? VTY_HIST_CMD_SIZE - 1 then 0 else hp v + 1 in
    h ← hist_at v try_index;
    match h with
    | None => Some v
    | Some _ => vty_history_print (set_hp try_index v)
    end.

Definition vty_hist_add (v : vty) : option vty :=
  if len v =? 0 then Some v
  else
    let index := if negb (hindex v =? 0) then hindex v - 1 else VTY_HIST_CMD_SIZE - 1 in
    last ← hist_at v index;
    line ← string_of (buf v);
    if bool_decide (last = Some line) then Some (set_hp (hindex v) v)
    else
      _ ← hist_at v (hindex v);
      let v := set_hist (<[Z.to_nat (hindex v) := Some line]> (hist v)) v in
      let v := set_hindex (hindex v + 1) v in
      let v := if hindex v =? VTY_HIST_CMD_SIZE then set_hindex 0 v else v in
      Some (set_hp (hindex v) v).

(** ** Telnet options and escape sequences *)

(** The first byte behind an IAC; the result is the number of bytes to skip. *)
Definition vty_telnet_option (v : vty) (c : Z) : option (Z * vty) :=
  if c =? SB then Some (0, set_iac_sb_in_progress 1 (set_sb_len 0 v))
  else if c =? SE then
    if iac_sb_in_progress v =? 0 then Some (0, v)
    else
      b0 ← sb_buf v !! 0%nat;
      if (sb_len v =? 0) || (b0 =? 0) then Some (0, set_iac_sb_in_progress 0 v)
      else if (b0 =? TELOPT_NAWS) && (sb_len v =? TELNET_NAWS_SB_LEN) then
        b1 ← sb_buf v !! 1%nat; b2 ← sb_buf v !! 2%nat;
        b3 ← sb_buf v !! 3%nat; b4 ← sb_buf v !! 4%nat;
        let v := set_width (Z.lor (Z.shiftl b1 8) b2) v in
        let v := set_height (Z.lor (Z.shiftl b3 8) b4) v in
        Some (0, set_iac_sb_in_progress 0 v)
      else Some (0, set_iac_sb_in_progress 0 v)
  else Some (1, v).

Definition vty_escape_map (c : Z) (v : vty) : option vty :=
  v ← (if c =? 65 then vty_previous_line v
       else if c =? 66 then vty_next_line v
       else if c =? 67 then vty_forward_char v
       else if c =? 68 then Some (vty_backward_char v)
       else Some v);
  Some (set_escape VTY_NORMAL v).

(** ** Sessions *)

Definition vty_new_init (vty_sock node_type : Z) (hostname : list Z) : vty :=
  Vty hostname vty_sock VTY_NORMAL VTY_TERM node_type (zeros VTY_INPUT_BUF_SIZE) 0 0
    VTY_INPUT_BUF_SIZE (replicate (Z.to_nat VTY_HIST_CMD_SIZE) None) 0 0 0 0 0
    (zeros TELNET_NAWS_SB_LEN) 0 0 0 [].
(** The host name is cut to the 63 characters its array holds. *)
Definition vty_create (vty_sock node_type : Z) (hostname : list Z) : vty :=
  vty_new_init vty_sock node_type (take 63 hostname).

(** The lines of the history that [vty_free] releases. *)
Definition vty_free (v : vty) : list (list Z) := omap id (hist v).

End VtyTerm.
