(* ===== verification/VtyTermSpec.v ===== *)
(** * The line editor of opbox/vty.c: what it edits and what the terminal shows

    [at_line v l r]: the line of the session is [l] in front of the cursor and [r] behind it,
    terminated inside the buffer. Every editing function is shown to act on [(l, r)] as it
    should, to stay inside the buffer, to change nothing else of the session, and to write what
    brings the terminal from the old line to the new one. *)

From S2P Require Import Prelude CString Utils VtyTerm.
From stdpp Require Import base tactics numbers list strings.
From Stdlib Require Import ZArith Lia.
Import Utils VtyTerm.
Open Scope Z_scope.

(** ** Arrays cut into parts *)

Lemma zlen_app {A} (a b : list A) : zlen (a ++ b) = zlen a + zlen b.
Proof. unfold zlen. rewrite length_app. lia. Qed.
Lemma zlen_cons {A} (x : A) l : zlen (x :: l) = 1 + zlen l.
Proof. unfold zlen. simpl. lia. Qed.
Lemma zlen_nil {A} : zlen (@nil A) = 0.
Proof. done. Qed.
Lemma zlen_replicate {A} n (x : A) : zlen (replicate n x) = Z.of_nat n.
Proof. unfold zlen. by rewrite length_replicate. Qed.
Lemma to_nat_zlen {A} (l : list A) : Z.to_nat (zlen l) = length l.
Proof. unfold zlen. lia. Qed.
#[export] Hint Rewrite @zlen_app @zlen_cons @zlen_nil @zlen_replicate @to_nat_zlen : zlen.
Ltac zlen := autorewrite with zlen in *.
Lemma list_length_cons {A} (x : A) l : length (x :: l) = S (length l).
Proof. done. Qed.
#[export] Hint Rewrite @length_app @length_replicate @list_length_cons : zlen_nat.
Ltac zlia := unfold zlen, VTY_INPUT_BUF_SIZE in *; autorewrite with zlen_nat in *; cbn [length] in *; lia.

Lemma slice_mid a b c i n :
  i = zlen a -> n = zlen b -> slice (a ++ b ++ c) i n = Some b.
Proof.
  intros -> ->. unfold slice. pose proof (zlen_nonneg a). pose proof (zlen_nonneg b).
  replace ((0 <=? zlen a) && (0 <=? zlen b) && _) with true.
  - by rewrite !to_nat_zlen, drop_app_length, take_app_length.
  - symmetry. rewrite !andb_true_iff, !Z.leb_le. repeat split; zlia.
Qed.
Lemma slice_front b c n : n = zlen b -> slice (b ++ c) 0 n = Some b.
Proof. by apply (slice_mid []). Qed.
Lemma poke_mid a b c d i :
  i = zlen a -> zlen d = zlen b -> poke_at (a ++ b ++ c) i d = Some (a ++ d ++ c).
Proof.
  intros -> Hd. unfold poke_at. pose proof (zlen_nonneg a).
  replace ((0 <=? zlen a) && _) with true.
  - rewrite to_nat_zlen, take_app_length, (app_assoc a b c).
    replace (Z.to_nat (zlen a + zlen d)) with (length (a ++ b)) by zlia.
    by rewrite drop_app_length.
  - symmetry. rewrite andb_true_iff, !Z.leb_le. split; zlia.
Qed.
Lemma char_of_mid a (c : Z) b i : i = zlen a -> char_of (a ++ c :: b) i = Some c.
Proof.
  intros ->. unfold char_of. pose proof (zlen_nonneg a). replace (0 <=? zlen a) with true by lia.
  rewrite to_nat_zlen. by apply list_lookup_middle.
Qed.

(** ** The terminal *)

(** The row the cursor is on, and the column of the cursor. *)
Notation screen := (list Z * nat)%type.

Definition put_char (row : list Z) (pos : nat) (c : Z) : list Z :=
  take pos (row ++ replicate (pos - length row) 32) ++ c :: drop (S pos) row.
Definition display1 (s : screen) (c : Z) : screen :=
  let '(row, pos) := s in
  if c =? 8 then (row, pred pos)
  else if c =? 13 then (row, 0%nat)
  else if c =? 10 then ([], pos)
  else (put_char row pos c, S pos).
Definition display (s : screen) (o : list Z) : screen := foldl display1 s o.

Definition printable (c : Z) : Prop := 31 < c < 127.

(** The terminal shows the line [(l, r)]: behind some text (the prompt), the line and blanks,
    with the cursor in front of [r]. *)
Definition shows (s : screen) (l r : list Z) : Prop :=
  Forall printable (l ++ r)
  /\ exists pre n, fst s = pre ++ l ++ r ++ replicate n 32 /\ snd s = (length pre + length l)%nat.

Lemma display_app s a b : display s (a ++ b) = display (display s a) b.
Proof. apply foldl_app. Qed.

Lemma put_char_at pre q c : put_char (pre ++ q) (length pre) c = pre ++ c :: tail q.
Proof.
  unfold put_char. rewrite take_app_le by (rewrite length_app; lia). rewrite take_app_length.
  rewrite drop_app_ge by lia. replace (S (length pre) - length pre)%nat with 1%nat by lia. done.
Qed.

Lemma display_text s pre q :
  Forall printable s ->
  display (pre ++ q, length pre) s = (pre ++ s ++ drop (length s) q, (length pre + length s)%nat).
Proof.
  revert pre q. induction s as [|c s IH]; intros pre q Hs; simpl.
  { by rewrite Nat.add_0_r. }
  apply Forall_cons in Hs as [Hc Hs]. unfold printable in Hc.
  replace (c =? 8) with false by lia. replace (c =? 13) with false by lia.
  replace (c =? 10) with false by lia. rewrite put_char_at.
  replace (pre ++ c :: tail q) with ((pre ++ [c]) ++ tail q) by (by rewrite <- app_assoc).
  replace (S (length pre)) with (length (pre ++ [c])) by (rewrite length_app; simpl; lia).
  fold (display ((pre ++ [c]) ++ tail q, length (pre ++ [c])) s).
  rewrite IH by done. rewrite <- app_assoc. simpl. f_equal.
  - f_equal. f_equal. f_equal. by destruct q; simpl; rewrite ?drop_nil.
  - rewrite length_app. simpl. lia.
Qed.
Lemma display_back row p k : display (row, p) (replicate k 8) = (row, (p - k)%nat).
Proof. revert p. induction k as [|k IH]; intros p; simpl; [f_equal; lia|]. rewrite IH. f_equal. lia. Qed.
Lemma display_blanks pre q k :
  display (pre ++ q, length pre) (replicate k 32)
  = (pre ++ replicate k 32 ++ drop k q, (length pre + k)%nat).
Proof.
  rewrite display_text by (apply Forall_replicate; unfold printable; lia).
  by rewrite length_replicate.
Qed.

(** ** Lines *)

Definition at_line (v : vty) (l r : list Z) : Prop :=
  (exists rest, buf v = l ++ r ++ 0 :: rest)
  /\ cp v = zlen l /\ len v = zlen l + zlen r
  /\ zlen (buf v) = VTY_INPUT_BUF_SIZE /\ max v = VTY_INPUT_BUF_SIZE.

(** Everything of the session but the line and what has been written. *)
Definition frame (v : vty) :=
  (hostname v, fd v, status v, vtype v, node v, (hist v, hp v, hindex v),
   (escape v, iac v, iac_sb_in_progress v, sb_buf v, sb_len v, width v, height v)).

(** From the line [(l, r)] to [(l', r')]; if [q] holds the terminal follows. *)
Definition edits (q : Prop) (v v' : vty) (l r l' r' : list Z) : Prop :=
  at_line v' l' r' /\ frame v' = frame v
  /\ exists o, out v' = out v ++ o
     /\ (q -> forall s, shows s l r -> shows (display s o) l' r').

Lemma edits_refl q v l r : at_line v l r -> edits q v v l r l r.
Proof. intros H. split; [done|]. split; [done|]. exists []. by rewrite app_nil_r. Qed.
Lemma edits_trans (q q2 : Prop) v1 v2 v3 l1 r1 l2 r2 l3 r3 :
  edits q v1 v2 l1 r1 l2 r2 -> edits q2 v2 v3 l2 r2 l3 r3 -> edits (q /\ q2) v1 v3 l1 r1 l3 r3.
Proof.
  intros (_ & Hf & o & Ho & Hs) (H3 & Hf2 & o2 & Ho2 & Hs2). split; [done|]. split; [congruence|].
  exists (o ++ o2). split; [by rewrite Ho2, Ho, app_assoc|].
  intros [??] s Hsh. rewrite display_app. auto.
Qed.
Lemma edits_weaken (q q2 : Prop) v v' l r l' r' :
  (q2 -> q) -> edits q v v' l r l' r' -> edits q2 v v' l r l' r'.
Proof. intros Hq (? & ? & o & ? & Hs). split; [done|]. split; [done|]. exists o. auto. Qed.
Lemma edits_trans_T v1 v2 v3 l1 r1 l2 r2 l3 r3 :
  edits True v1 v2 l1 r1 l2 r2 -> edits True v2 v3 l2 r2 l3 r3 -> edits True v1 v3 l1 r1 l3 r3.
Proof. intros H1 H2. eapply edits_weaken; [|eapply edits_trans; eauto]. done. Qed.

Lemma shows_intro s l' r' pre n o :
  Forall printable (l' ++ r') ->
  display s o = (pre ++ l' ++ r' ++ replicate n 32, (length pre + length l')%nat) ->
  shows (display s o) l' r'.
Proof. intros Hp Hd. rewrite Hd. split; [done|]. by exists pre, n. Qed.

Ltac line_facts H :=
  let rest := fresh "rest" in
  destruct H as ((rest & Hbuf) & Hcp & Hlen & Hsz & Hmax).

(** *** Moving the cursor *)

Lemma backward_char_edits v l c r :
  at_line v (l ++ [c]) r -> edits True v (vty_backward_char v) (l ++ [c]) r l (c :: r).
Proof.
  intros H. line_facts H. unfold vty_backward_char. pose proof (zlen_nonneg l).
  replace (0 <? cp v) with true by zlia.
  split; [|split; [done|]].
  - split; [exists rest; simpl; by rewrite Hbuf, <- app_assoc|]. simpl.
    repeat split; try done; zlia.
  - exists [8]. split; [done|]. intros _ [row p] [Hp (pre & n & Hr & Hpos)]. simpl in *. subst row p.
    rewrite <- app_assoc in Hp. split; [done|]. exists pre, n. simpl. split.
    + by rewrite <- !app_assoc.
    + rewrite length_app. simpl. lia.
Qed.
Lemma backward_char_home v r : at_line v [] r -> vty_backward_char v = v.
Proof. intros H. line_facts H. unfold vty_backward_char. by rewrite Hcp. Qed.

Lemma forward_char_edits v l c r :
  at_line v l (c :: r) ->
  exists v', vty_forward_char v = Some v' /\ edits True v v' l (c :: r) (l ++ [c]) r.
Proof.
  intros H. line_facts H. unfold vty_forward_char. pose proof (zlen_nonneg r).
  replace (cp v <? len v) with true by zlia.
  rewrite Hbuf. replace (l ++ (c :: r) ++ 0 :: rest) with (l ++ [c] ++ (r ++ 0 :: rest)) by done.
  rewrite (slice_mid l [c]) by (done || zlia). simpl. eexists. split; [done|].
  split; [|split; [done|]].
  - split; [exists rest; simpl; by rewrite Hbuf, <- app_assoc|]. simpl. repeat split; try done; zlia.
  - exists [c]. split; [done|]. intros _ [row p] [Hp (pre & n & Hr & Hpos)]. simpl in Hr, Hpos. subst row p.
    apply (shows_intro _ _ _ pre n); [by rewrite <- app_assoc|].
    replace (pre ++ l ++ c :: r ++ replicate n 32) with ((pre ++ l) ++ (c :: r ++ replicate n 32))
      by (by rewrite <- !app_assoc).
    rewrite <- length_app. rewrite display_text; [|apply Forall_app in Hp as [_ [??]%Forall_cons]; by apply Forall_singleton].
    rewrite !length_app. simpl. rewrite drop_0. f_equal; [by rewrite <- !app_assoc|lia].
Qed.
Lemma forward_char_end v l : at_line v l [] -> vty_forward_char v = Some v.
Proof. intros H. line_facts H. unfold vty_forward_char. replace (cp v <? len v) with false by zlia. done. Qed.

(** *** Deleting *)

Lemma kill_line_edits v l r :
  at_line v l r -> exists v', vty_kill_line v = Some v' /\ edits True v v' l r l [].
Proof.
  intros H. pose proof H as H0. line_facts H. unfold vty_kill_line. pose proof (zlen_nonneg r).
  replace (len v - cp v) with (zlen r) by lia. destruct (zlen r =? 0) eqn:E; btest.
  { assert (r = []) as -> by (destruct r; [done|zlia]). exists v. split; [done|]. by apply edits_refl. }
  replace (zlen r <? 0) with false by lia. cbn [buf cp len set_out vty_write set_buf set_len].
  rewrite Hbuf, (poke_mid l r) by (done || (unfold zeros; rewrite zlen_replicate; lia)).
  simpl. eexists. split; [done|]. unfold zeros. rewrite to_nat_zlen. split; [|split; [done|]].
  - unfold at_line. simpl. rewrite Hcp. destruct r as [|c r]; [done|]. simpl.
    split; [by eexists|]. rewrite Hbuf in Hsz. repeat split; try done; zlia.
  - exists (replicate (length r) 32 ++ replicate (length r) 8). split; [simpl; by rewrite <- app_assoc|].
    intros _ [row p] [Hp (pre & n & Hr & Hpos)]. simpl in Hr, Hpos. subst row p.
    apply Forall_app in Hp as [Hp _].
    apply (shows_intro _ _ _ pre (length r + n)); [by rewrite app_nil_r|].
    rewrite (app_assoc pre l), <- length_app, display_app, display_blanks, display_back.
    rewrite drop_app_length. f_equal; [|lia]. simpl.
    by rewrite <- !app_assoc, replicate_add.
Qed.

Lemma cons_snoc {A} (c : A) r : exists m d, c :: r = m ++ [d] /\ length m = length r.
Proof.
  destruct (@exists_last _ (c :: r)) as (m & d & Hd); [done|]. exists m, d. split; [done|].
  apply (f_equal length) in Hd. rewrite length_app in Hd. simpl in Hd. lia.
Qed.

Section Prompt.
Context (cmd_prompt : Z -> option (list Z)).

Lemma delete_char_edits v l c r :
  at_line v l (c :: r) ->
  exists v', vty_delete_char cmd_prompt v = Some v' /\ edits True v v' l (c :: r) l r.
Proof.
  intros H. line_facts H. unfold vty_delete_char. pose proof (zlen_nonneg r). pose proof (zlen_nonneg l).
  replace (len v =? 0) with false by zlia. replace (cp v =? len v) with false by zlia.
  cbn [buf cp len set_out vty_write set_buf set_len]. rewrite Hbuf.
  replace (slice _ _ _) with (Some r).
  2: { replace (l ++ (c :: r) ++ 0 :: rest) with ((l ++ [c]) ++ r ++ 0 :: rest) by (by rewrite <- app_assoc).
       symmetry. apply slice_mid; zlia. }
  simpl. destruct (cons_snoc c r) as (m & d & Hd & Hm).
  replace (l ++ c :: r ++ 0 :: rest) with (l ++ m ++ (d :: 0 :: rest)).
  2: { change (c :: r ++ 0 :: rest) with ((c :: r) ++ 0 :: rest). by rewrite Hd, <- app_assoc. }
  rewrite (poke_mid l m) by zlia. simpl.
  replace (l ++ r ++ d :: 0 :: rest) with ((l ++ r) ++ [d] ++ 0 :: rest) by (by rewrite <- app_assoc).
  rewrite (poke_mid (l ++ r) [d]) by zlia. simpl. rewrite <- app_assoc.
  rewrite (slice_mid l r) by zlia. simpl. eexists. split; [done|]. split; [|split; [done|]].
  - split; [by eexists|]. simpl. rewrite Hbuf in Hsz. repeat split; try done; zlia.
  - exists (r ++ [32] ++ replicate (S (length r)) 8). split.
    { simpl. replace (Z.to_nat (len v - cp v)) with (S (length r)) by zlia. by rewrite <- !app_assoc. }
    intros _ [row p] [Hp (pre & n & Hr & Hpos)]. simpl in Hr, Hpos. subst row p.
    apply Forall_app in Hp as [Hl [Hc Hr]%Forall_cons].
    apply (shows_intro _ _ _ pre (S n)); [by apply Forall_app|].
    rewrite (app_assoc pre l), <- length_app, display_app, display_text by done.
    replace (length (pre ++ l) + length r)%nat with (length ((pre ++ l) ++ r)) by zlia.
    rewrite (app_assoc (pre ++ l) r), display_app, (display_blanks _ _ 1), display_back.
    replace (drop 1 (drop _ _)) with (replicate n 32).
    2: { rewrite drop_drop. replace (length r + 1)%nat with (S (length r)) by lia. simpl. by rewrite drop_app_length. }
    f_equal; [by rewrite <- !app_assoc|zlia].
Qed.

Lemma delete_char_end v l : at_line v l [] -> l <> [] -> vty_delete_char cmd_prompt v = Some v.
Proof.
  intros H Hl. line_facts H. unfold vty_delete_char. destruct l as [|x l]; [done|].
  replace (len v =? 0) with false by zlia. replace (cp v =? len v) with true by zlia. done.
Qed.

Lemma delete_backward_char_edits v l c r :
  at_line v (l ++ [c]) r ->
  exists v', vty_delete_backward_char cmd_prompt v = Some v' /\ edits True v v' (l ++ [c]) r l r.
Proof.
  intros H. pose proof (backward_char_edits v l c r H) as He. unfold vty_delete_backward_char.
  line_facts H. replace (cp v =? 0) with false by zlia.
  destruct (delete_char_edits _ l c r (proj1 He)) as (v' & -> & He2). exists v'. split; [done|].
  by eapply edits_trans_T.
Qed.
Lemma delete_backward_char_home v r : at_line v [] r -> vty_delete_backward_char cmd_prompt v = Some v.
Proof. intros H. line_facts H. unfold vty_delete_backward_char. by rewrite Hcp. Qed.
End Prompt.

(** *** Inserting *)

Lemma zlen_snoc_inv {A} (l : list A) : 0 < zlen l -> exists m d, l = m ++ [d].
Proof. intros Hl. destruct l as [|x l]; [done|]. destruct (cons_snoc x l) as (m & d & -> & _). eauto. Qed.

(** Writing the character at the cursor and the terminator at the end of the buffer. *)
Lemma buf_put_line v l x r rest c :
  buf v = l ++ x :: r ++ 0 :: rest -> cp v = zlen l -> zlen (buf v) = max v ->
  exists rest', vty_buf_put v c = Some (set_buf (l ++ c :: r ++ 0 :: rest') v)
                /\ length rest' = length rest.
Proof.
  intros Hbuf Hcp Hsz. rewrite Hbuf in Hsz. unfold vty_buf_put. rewrite Hbuf.
  change (l ++ x :: r ++ 0 :: rest) with (l ++ [x] ++ r ++ 0 :: rest).
  rewrite (poke_mid l [x] _ [c]) by zlia. simpl. destruct (decide (rest = [])) as [->|Hne].
  - exists []. split; [|done]. replace (l ++ c :: r ++ [0]) with ((l ++ c :: r) ++ [0] ++ [])
      by (by rewrite <- app_assoc).
    rewrite poke_mid by zlia. done.
  - destruct (zlen_snoc_inv rest) as (m & d & ->); [destruct rest; [done|zlia]|].
    exists (m ++ [0]). split; [|zlia].
    replace (l ++ c :: r ++ 0 :: m ++ [d]) with ((l ++ c :: r ++ 0 :: m) ++ [d] ++ [])
      by (by rewrite <- !app_assoc; simpl; rewrite <- !app_assoc).
    rewrite poke_mid by zlia. simpl. do 2 f_equal. by rewrite <- !app_assoc; simpl; rewrite <- !app_assoc.
Qed.

(** A line that has room for [c] gets it, a full line stays as it is. *)
Lemma self_insert_edits v l r c :
  at_line v l r -> zlen l + zlen r < VTY_INPUT_BUF_SIZE - 1 ->
  exists v', vty_self_insert v c = Some v' /\ edits (printable c) v v' l r (l ++ [c]) r.
Proof.
  intros H Hroom. line_facts H. unfold vty_self_insert, VTY_INPUT_BUF_SIZE in *.
  replace (max v <=? len v + 1) with false by lia.
  cbn [buf cp len set_out vty_write set_buf set_len]. rewrite Hbuf in Hsz |- *.
  rewrite (slice_mid l r) by (done || lia). simpl.
  destruct rest as [|x rest]; [zlia|].
  assert (exists y ys, r ++ [0] = y :: ys /\ length ys = length r) as (y & ys & Hy & Hys).
  { destruct r as [|y r]; [by exists 0, []|]. exists y, (r ++ [0]). split; [done|zlia]. }
  replace (l ++ r ++ 0 :: x :: rest) with ((l ++ [y]) ++ ys ++ x :: rest).
  2: { rewrite <- app_assoc. f_equal. change ([y] ++ ys ++ x :: rest) with ((y :: ys) ++ x :: rest).
       by rewrite <- Hy, <- app_assoc. }
  rewrite (poke_mid (l ++ [y]) ys) by zlia. simpl.
  replace ((l ++ [y]) ++ r ++ x :: rest) with ((l ++ y :: r) ++ [x] ++ rest) by (by rewrite <- !app_assoc).
  rewrite (poke_mid (l ++ y :: r) [x]) by zlia. simpl.
  set (v1 := set_buf _ _).
  destruct (buf_put_line v1 l y r rest c) as (rest' & -> & Hr'); [by simpl; rewrite <- app_assoc|done| |].
  { subst v1. simpl. zlia. }
  simpl. change (l ++ c :: r ++ 0 :: rest') with (l ++ (c :: r) ++ 0 :: rest').
  rewrite (slice_mid l (c :: r)) by zlia. simpl. eexists. split; [done|]. split; [|split; [done|]].
  - split; [exists rest'; simpl; by rewrite <- app_assoc|]. simpl. repeat split; try done; zlia.
  - exists (c :: r ++ replicate (length r) 8). split.
    { simpl. replace (Z.to_nat (len v - cp v)) with (length r) by zlia. by rewrite <- app_assoc. }
    intros Hc [row p] [Hp (pre & n & Hr & Hpos)]. simpl in Hr, Hpos. subst row p.
    apply Forall_app in Hp as [Hl Hr].
    apply (shows_intro _ _ _ pre (pred n)).
    { rewrite <- app_assoc. apply Forall_app. split; [done|]. by constructor. }
    change (c :: r ++ replicate (length r) 8) with ((c :: r) ++ replicate (length r) 8).
    rewrite (app_assoc pre l), <- length_app, display_app, display_text by (by constructor).
    rewrite display_back. f_equal; [|zlia].
    rewrite drop_app_ge by (simpl; lia). simpl length.
    replace (S (length r) - length r)%nat with 1%nat by lia. rewrite <- !app_assoc. simpl.
    do 4 f_equal. by destruct n.
Qed.
Lemma self_insert_full v l r c :
  at_line v l r -> zlen l + zlen r = VTY_INPUT_BUF_SIZE - 1 -> vty_self_insert v c = Some v.
Proof.
  intros H Hfull. line_facts H. unfold vty_self_insert. by replace (max v <=? len v + 1) with true by lia.
Qed.

Lemma self_insert_overwrite_edits v l x r c :
  at_line v l (x :: r) ->
  exists v', vty_self_insert_overwrite v c = Some v' /\ edits (printable c) v v' l (x :: r) (l ++ [c]) r.
Proof.
  intros H. line_facts H. unfold vty_self_insert_overwrite. replace (cp v =? len v) with false by zlia.
  destruct (buf_put_line v l x r rest c Hbuf Hcp) as (rest' & -> & Hr'); [by rewrite Hsz, Hmax|].
  simpl. eexists. split; [done|]. split; [|split; [done|]].
  - split; [exists rest'; simpl; by rewrite <- app_assoc|]. simpl. rewrite Hbuf in Hsz.
    repeat split; try done; zlia.
  - exists [c]. split; [done|]. intros Hc [row p] [Hp (pre & n & Hr & Hpos)]. simpl in Hr, Hpos. subst row p.
    apply Forall_app in Hp as [Hl [_ Hr]%Forall_cons].
    apply (shows_intro _ _ _ pre n).
    { rewrite <- app_assoc. apply Forall_app. split; [done|]. by constructor. }
    rewrite (app_assoc pre l), <- length_app, display_text by (by apply Forall_singleton).
    f_equal; [by rewrite <- !app_assoc|zlia].
Qed.

(** *** Loops *)

(** The longest part of [l] at its end whose characters satisfy [f], and what is before it. *)
Definition split_back (f : Z -> bool) (l : list Z) : list Z * list Z :=
  let '(a, b) := span f (rev l) in (rev b, rev a).

Lemma split_back_snoc f l c :
  split_back f (l ++ [c])
  = if f c then (fst (split_back f l), snd (split_back f l) ++ [c]) else (l ++ [c], []).
Proof.
  unfold split_back. rewrite rev_app_distr. simpl. destruct (f c).
  - by destruct (span f (rev l)).
  - simpl. by rewrite rev_involutive.
Qed.

(** Loops that take one character in front of the cursor at a time, and do with it what [k]
    says: [cons] when the cursor moves, nothing when the character is deleted. *)
Lemma while_left (f : Z -> bool) (k : Z -> list Z -> list Z) cond body :
  (forall v l c r, at_line v (l ++ [c]) r -> cond v = Some (f c)) ->
  (forall v r, at_line v [] r -> cond v = Some false) ->
  (forall v l c r, at_line v (l ++ [c]) r ->
     exists v', body v = Some v' /\ edits True v v' (l ++ [c]) r l (k c r)) ->
  forall l v r fuel, at_line v l r -> (length l < fuel)%nat ->
  exists v', while_ fuel cond body v = Some v'
             /\ edits True v v' l r (fst (split_back f l)) (foldr k r (snd (split_back f l))).
Proof.
  intros Hc1 Hc0 Hb. induction l as [|c l IH] using rev_ind; intros v r [|fuel] H Hf; try lia; simpl.
  { rewrite (Hc0 v r H). simpl. exists v. split; [done|]. by apply edits_refl. }
  rewrite length_app in Hf. simpl in Hf. rewrite (Hc1 v l c r H), split_back_snoc. simpl.
  destruct (f c).
  - destruct (Hb v l c r H) as (v1 & -> & He). simpl.
    destruct (IH v1 (k c r) fuel (proj1 He)) as (v2 & -> & He2); [lia|]. exists v2. split; [done|].
    simpl. rewrite foldr_app. simpl. by eapply edits_trans_T.
  - exists v. split; [done|]. by apply edits_refl.
Qed.

(** The same behind the cursor. *)
Lemma while_right (f : Z -> bool) (k : list Z -> Z -> list Z) cond body :
  (forall v l c r, at_line v l (c :: r) -> cond v = Some (f c)) ->
  (forall v l, at_line v l [] -> cond v = Some false) ->
  (forall v l c r, at_line v l (c :: r) ->
     exists v', body v = Some v' /\ edits True v v' l (c :: r) (k l c) r) ->
  forall r v l fuel, at_line v l r -> (length r < fuel)%nat ->
  exists v', while_ fuel cond body v = Some v'
             /\ edits True v v' l r (foldl k l (fst (span f r))) (snd (span f r)).
Proof.
  intros Hc1 Hc0 Hb. induction r as [|c r IH]; intros v l [|fuel] H Hf; try (simpl in *; lia); simpl.
  { rewrite (Hc0 v l H). simpl. exists v. split; [done|]. by apply edits_refl. }
  simpl in Hf. rewrite (Hc1 v l c r H). simpl. destruct (f c).
  - destruct (Hb v l c r H) as (v1 & -> & He). simpl.
    destruct (IH v1 (k l c) fuel (proj1 He)) as (v2 & -> & He2); [lia|]. exists v2. split; [done|].
    destruct (span f r). simpl in *. by eapply edits_trans_T.
  - exists v. split; [done|]. by apply edits_refl.
Qed.

Lemma before_is_snoc sp v l c r : at_line v (l ++ [c]) r -> before_is sp v = Some (eqb (c =? 32) sp).
Proof.
  intros H. line_facts H. unfold before_is. pose proof (zlen_nonneg l).
  replace (0 <? cp v) with true by zlia. rewrite Hbuf, <- app_assoc.
  simpl. rewrite (char_of_mid l c) by zlia. done.
Qed.
Lemma before_is_nil sp v r : at_line v [] r -> before_is sp v = Some false.
Proof. intros H. line_facts H. unfold before_is. by rewrite Hcp. Qed.
Lemma at_is_cons sp v l c r : at_line v l (c :: r) -> at_is sp v = Some (eqb (c =? 32) sp).
Proof.
  intros H. line_facts H. unfold at_is. pose proof (zlen_nonneg r).
  replace (cp v =? len v) with false by zlia. rewrite Hbuf. simpl.
  by rewrite (char_of_mid l c) by zlia.
Qed.
Lemma at_is_nil sp v l : at_line v l [] -> at_is sp v = Some false.
Proof. intros H. line_facts H. unfold at_is. by replace (cp v =? len v) with true by zlia. Qed.

Lemma at_line_fuel v l r : at_line v l r -> (length l < loop_fuel v /\ length r < loop_fuel v)%nat.
Proof.
  intros H. line_facts H. rewrite Hbuf in Hsz. unfold loop_fuel. rewrite Hmax. zlia.
Qed.

Definition blank (sp : bool) (c : Z) : bool := eqb (c =? 32) sp.

Lemma foldr_cons_app (l r : list Z) : foldr cons r l = l ++ r.
Proof. induction l; simpl; congruence. Qed.
Lemma foldl_snoc_app (l r : list Z) : foldl (fun l c => l ++ [c]) l r = l ++ r.
Proof. revert l. induction r as [|c r IH]; intros l; simpl; [by rewrite app_nil_r|]. by rewrite IH, <- app_assoc. Qed.
Lemma foldr_drop (l r : list Z) : foldr (fun _ r => r) r l = r.
Proof. by induction l. Qed.
Lemma foldl_drop (l r : list Z) : foldl (fun l _ => l) l r = l.
Proof. by induction r. Qed.

Lemma while_backward sp v l r :
  at_line v l r ->
  exists v', while_ (loop_fuel v) (before_is sp) (fun v => Some (vty_backward_char v)) v = Some v'
  /\ edits True v v' l r (fst (split_back (blank sp) l)) (snd (split_back (blank sp) l) ++ r).
Proof.
  intros H. rewrite <- foldr_cons_app. pose proof (proj1 (at_line_fuel v l r H)).
  apply (while_left (blank sp) cons); try done; [apply before_is_snoc|apply before_is_nil|].
  intros w l' c r' Hw. eexists. split; [done|]. by apply backward_char_edits.
Qed.
Lemma while_forward sp v l r :
  at_line v l r ->
  exists v', while_ (loop_fuel v) (at_is sp) vty_forward_char v = Some v'
  /\ edits True v v' l r (l ++ fst (span (blank sp) r)) (snd (span (blank sp) r)).
Proof.
  intros H. rewrite <- foldl_snoc_app. pose proof (proj2 (at_line_fuel v l r H)).
  apply (while_right (blank sp) (fun l c => l ++ [c])); try done;
    [apply at_is_cons|apply at_is_nil|apply forward_char_edits].
Qed.

Section Keys.
Context (cmd_prompt : Z -> option (list Z)).

Lemma while_delete sp v l r :
  at_line v l r ->
  exists v', while_ (loop_fuel v) (at_is sp) (vty_delete_char cmd_prompt) v = Some v'
  /\ edits True v v' l r l (snd (span (blank sp) r)).
Proof.
  intros H.
  destruct (while_right (blank sp) (fun l _ => l) (at_is sp) (vty_delete_char cmd_prompt))
    with (r := r) (v := v) (l := l) (fuel := loop_fuel v) as (v' & Hv & He);
    [apply at_is_cons|apply at_is_nil|apply delete_char_edits|done|by apply (at_line_fuel v l r)|].
  exists v'. by rewrite foldl_drop in He.
Qed.
Lemma while_delete_backward sp v l r :
  at_line v l r ->
  exists v', while_ (loop_fuel v) (before_is sp) (vty_delete_backward_char cmd_prompt) v = Some v'
  /\ edits True v v' l r (fst (split_back (blank sp) l)) r.
Proof.
  intros H.
  destruct (while_left (blank sp) (fun _ r => r) (before_is sp) (vty_delete_backward_char cmd_prompt))
    with (r := r) (v := v) (l := l) (fuel := loop_fuel v) as (v' & Hv & He);
    [apply before_is_snoc|apply before_is_nil|apply delete_backward_char_edits|done|by apply (at_line_fuel v l r)|].
  exists v'. by rewrite foldr_drop in He.
Qed.

Lemma beginning_of_line_edits v l r :
  at_line v l r -> exists v', vty_beginning_of_line v = Some v' /\ edits True v v' l r [] (l ++ r).
Proof.
  intros H. unfold vty_beginning_of_line. rewrite <- foldr_cons_app.
  pose proof (proj1 (at_line_fuel v l r H)) as Hf.
  destruct (while_left (fun _ => true) cons (fun v => Some (negb (cp v =? 0)))
              (fun v => Some (vty_backward_char v))) with (l := l) (v := v) (r := r) (fuel := loop_fuel v)
    as (v' & Hv & He); try done.
  - intros w l' c r' Hw. line_facts Hw. by replace (cp w =? 0) with false by zlia.
  - intros w r' Hw. line_facts Hw. by rewrite Hcp.
  - intros w l' c r' Hw. eexists. split; [done|]. by apply backward_char_edits.
  - exists v'. split; [done|]. unfold split_back in He. rewrite span_all in He by done.
    simpl in He. by rewrite rev_involutive in He.
Qed.
Lemma end_of_line_edits v l r :
  at_line v l r -> exists v', vty_end_of_line v = Some v' /\ edits True v v' l r (l ++ r) [].
Proof.
  intros H. unfold vty_end_of_line. pose proof (proj2 (at_line_fuel v l r H)) as Hf.
  destruct (while_right (fun _ => true) (fun l c => l ++ [c]) (fun v => Some (cp v <? len v)) vty_forward_char)
    with (l := l) (v := v) (r := r) (fuel := loop_fuel v) as (v' & Hv & He); try done.
  - intros w l' c r' Hw. line_facts Hw. by replace (cp w <? len w) with true by zlia.
  - intros w l' Hw. line_facts Hw. by replace (cp w <? len w) with false by zlia.
  - apply forward_char_edits.
  - exists v'. split; [done|]. rewrite span_all in He by done. by rewrite foldl_snoc_app in He.
Qed.
Lemma kill_line_from_beginning_edits v l r :
  at_line v l r -> exists v', vty_kill_line_from_beginning v = Some v' /\ edits True v v' l r [] [].
Proof.
  intros H. unfold vty_kill_line_from_beginning.
  destruct (beginning_of_line_edits v l r H) as (v1 & -> & H1). simpl.
  destruct (kill_line_edits v1 _ _ (proj1 H1)) as (v2 & -> & H2). exists v2. split; [done|].
  by eapply edits_trans_T.
Qed.

(** [transpose l r]: the two characters at the cursor change places. *)
Definition transpose (l r : list Z) : list Z * list Z :=
  match rev l, r with
  | b :: a :: l0, [] => (rev l0 ++ [b; a], [])
  | a :: l0, b :: r' => (rev l0 ++ [b; a], r')
  | _, _ => (l, r)
  end.

Lemma edits_self (q : Prop) v v' l r l' r' :
  edits q v v' l r l' r' -> (Forall printable (l ++ r) -> q) -> edits True v v' l r l' r'.
Proof.
  intros (H1 & Hf & o & Ho & Hs) Hq. split; [done|]. split; [done|]. exists o. split; [done|].
  intros _ s Hsh. apply Hs; [|done]. apply Hq, Hsh.
Qed.

Lemma transpose_edits v l r :
  at_line v l r ->
  exists v', vty_transpose_chars v = Some v'
             /\ edits True v v' l r (fst (transpose l r)) (snd (transpose l r)).
Proof.
  intros H. pose proof H as H0. line_facts H. unfold vty_transpose_chars, transpose.
  destruct l as [|x l _] using rev_ind.
  { replace ((len v <? 2) || (cp v <? 1)) with true by (symmetry; apply orb_true_iff; right; zlia).
    exists v. split; [done|]. by apply edits_refl. }
  rewrite rev_app_distr. simpl. destruct r as [|y r].
  - destruct l as [|w l _] using rev_ind.
    { replace ((len v <? 2) || (cp v <? 1)) with true by (symmetry; apply orb_true_iff; left; zlia).
      exists v. split; [done|]. by apply edits_refl. }
    replace ((len v <? 2) || (cp v <? 1)) with false by (symmetry; apply orb_false_iff; split; zlia).
    replace (cp v =? len v) with true by zlia. rewrite Hbuf, <- !app_assoc. simpl.
    rewrite rev_app_distr. simpl. rewrite rev_involutive.
    replace (char_of _ (cp v - 1)) with (Some x).
    2: { symmetry. replace (l ++ w :: x :: 0 :: rest) with ((l ++ [w]) ++ x :: 0 :: rest) by (by rewrite <- app_assoc).
         apply char_of_mid. zlia. }
    rewrite (char_of_mid l w) by zlia. simpl.
    pose proof (backward_char_edits v (l ++ [w]) x [] H0) as H1.
    pose proof (backward_char_edits _ l w [x] (proj1 H1)) as H2.
    destruct (self_insert_overwrite_edits _ l w [x] x (proj1 H2)) as (v3 & -> & H3). simpl.
    destruct (self_insert_overwrite_edits v3 (l ++ [x]) x [] w (proj1 H3)) as (v4 & -> & H4).
    exists v4. split; [done|]. rewrite <- app_assoc in H4.
    pose proof (edits_trans _ _ _ _ _ _ _ _ _ _ _ H1 H2) as H12.
    rewrite <- app_assoc in H12. simpl in H12, H4.
    pose proof (edits_trans _ _ _ _ _ _ _ _ _ _ _ H3 H4) as H34.
    eapply edits_self; [exact (edits_trans _ _ _ _ _ _ _ _ _ _ _ H12 H34)|].
    intros Hp. rewrite !Forall_app, !Forall_cons in Hp. tauto.
  - replace ((len v <? 2) || (cp v <? 1)) with false by (symmetry; apply orb_false_iff; split; zlia).
    replace (cp v =? len v) with false by zlia. rewrite Hbuf, <- !app_assoc. simpl.
    rewrite (char_of_mid l x) by zlia.
    replace (char_of _ (cp v)) with (Some y).
    2: { symmetry. replace (l ++ x :: y :: r ++ 0 :: rest) with ((l ++ [x]) ++ y :: r ++ 0 :: rest) by (by rewrite <- app_assoc).
         apply char_of_mid. zlia. }
    simpl. pose proof (backward_char_edits v l x (y :: r) H0) as H1.
    destruct (self_insert_overwrite_edits _ l x (y :: r) y (proj1 H1)) as (v3 & -> & H3). simpl.
    destruct (self_insert_overwrite_edits v3 (l ++ [y]) y r x (proj1 H3)) as (v4 & -> & H4).
    exists v4. split; [done|]. rewrite <- app_assoc in H4. simpl in H4.
    replace (match rev l with [] => _ | _ => _ end) with (rev (rev l) ++ [y; x], r) by (by destruct (rev l)).
    simpl. rewrite rev_involutive.
    pose proof (edits_trans _ _ _ _ _ _ _ _ _ _ _ H3 H4) as H34.
    eapply edits_self; [exact (edits_trans _ _ _ _ _ _ _ _ _ _ _ H1 H34)|].
    intros Hp. rewrite !Forall_app, Forall_singleton, Forall_cons in Hp. tauto.
Qed.

(** *** An empty line: the prompt again *)

(** The prompt of the session's node is a format of one [%s] and fits [vty_out]. *)
Definition prompt_ok (v : vty) : Prop :=
  exists p s, cmd_prompt (node v) = Some p /\ format p [hostname v] = Some s
              /\ zlen s < VTY_OUT_SIZE /\ Forall printable s.

Lemma vty_out_ok v s : zlen s < VTY_OUT_SIZE -> vty_out v s = Some (vty_write v s).
Proof. intros Hs. unfold vty_out. by replace (zlen s <? VTY_OUT_SIZE) with true by lia. Qed.

Lemma VTY_NEWLINE_fits v : zlen (VTY_NEWLINE v) < VTY_OUT_SIZE.
Proof. unfold VTY_NEWLINE. by case_match. Qed.

Lemma prompt_writes v :
  prompt_ok v -> exists s, vty_prompt cmd_prompt v = Some (vty_write v s) /\ Forall printable s.
Proof.
  intros (p & s & Hp & Hs & Hn & Hpr). exists s. unfold vty_prompt. rewrite Hp. simpl. rewrite Hs. simpl.
  by rewrite vty_out_ok.
Qed.

Lemma down_level_edits v :
  at_line v [] [] -> prompt_ok v ->
  exists v', vty_down_level cmd_prompt v = Some v' /\ edits (vtype v = VTY_TERM) v v' [] [] [] [].
Proof.
  intros H Hp. unfold vty_down_level. rewrite vty_out_ok by apply VTY_NEWLINE_fits. simpl.
  destruct (prompt_writes (vty_write v (VTY_NEWLINE v)) Hp) as (s & -> & Hs). simpl.
  eexists. split; [done|]. line_facts H. split; [|split; [done|]].
  - split; [by exists rest|]. simpl. by repeat split.
  - exists (VTY_NEWLINE v ++ s). split; [simpl; by rewrite <- app_assoc|].
    intros Ht [row p] _. apply (shows_intro _ _ _ s 0); [done|].
    unfold VTY_NEWLINE. rewrite Ht. simpl.
    change (display (display1 (display1 (row, p) 13) 10) s = (s ++ [], (length s + 0)%nat)).
    pose proof (display_text s [] [] Hs) as Hd. cbn [app length Nat.add] in Hd. rewrite drop_nil in Hd.
    simpl display1. rewrite Hd. by rewrite Nat.add_0_r.
Qed.

(** ** The editing keys *)

Inductive key :=
| KInsert (c : Z) | KBackward | KForward | KHome | KEnd | KDelete | KBackspace | KKill | KKillAll
| KBackwardWord | KForwardWord | KForwardKillWord | KBackwardKillWord | KTranspose.

(** The function [vty_read] calls for each. *)
Definition press (k : key) (v : vty) : option vty :=
  match k with
  | KInsert c => vty_self_insert v c
  | KBackward => Some (vty_backward_char v)
  | KForward => vty_forward_char v
  | KHome => vty_beginning_of_line v
  | KEnd => vty_end_of_line v
  | KDelete => vty_delete_char cmd_prompt v
  | KBackspace => vty_delete_backward_char cmd_prompt v
  | KKill => vty_kill_line v
  | KKillAll => vty_kill_line_from_beginning v
  | KBackwardWord => vty_backward_word v
  | KForwardWord => vty_forward_word v
  | KForwardKillWord => vty_forward_kill_word cmd_prompt v
  | KBackwardKillWord => vty_backward_kill_word cmd_prompt v
  | KTranspose => vty_transpose_chars v
  end.

(** What the key means: on the text in front of the cursor and the text behind it. *)
Definition word_back (l : list Z) : list Z := fst (split_back (blank false) (fst (split_back (blank true) l))).
Definition skip (sp : bool) (r : list Z) : list Z := snd (span (blank sp) r).
Definition edit (k : key) (x : list Z * list Z) : list Z * list Z :=
  let '(l, r) := x in
  match k with
  | KInsert c => if zlen l + zlen r <? VTY_INPUT_BUF_SIZE - 1 then (l ++ [c], r) else (l, r)
  | KBackward => (take (pred (length l)) l, drop (pred (length l)) l ++ r)
  | KForward => (l ++ take 1 r, drop 1 r)
  | KHome => ([], l ++ r)
  | KEnd => (l ++ r, [])
  | KDelete => (l, drop 1 r)
  | KBackspace => (take (pred (length l)) l, r)
  | KKill => (l, [])
  | KKillAll => ([], [])
  | KBackwardWord => (word_back l, drop (length (word_back l)) l ++ r)
  | KForwardWord =>
      let r' := skip true (skip false r) in (l ++ take (length r - length r') r, r')
  | KForwardKillWord => (l, skip false (skip true r))
  | KBackwardKillWord => (word_back l, r)
  | KTranspose => transpose l r
  end.

Lemma split_back_app f l : l = fst (split_back f l) ++ snd (split_back f l).
Proof.
  unfold split_back. pose proof (span_app f (rev l)) as H. destruct (span f (rev l)) as [a b]. simpl.
  by rewrite <- rev_app_distr, <- H, rev_involutive.
Qed.
Lemma word_back_app l :
  exists w, l = word_back l ++ w
  /\ w = snd (split_back (blank false) (fst (split_back (blank true) l))) ++ snd (split_back (blank true) l).
Proof.
  eexists. split; [|done]. unfold word_back.
  rewrite app_assoc, <- split_back_app. apply split_back_app.
Qed.
Lemma skip_app sp r : r = fst (span (blank sp) r) ++ skip sp r.
Proof. unfold skip. pose proof (span_app (blank sp) r). by destruct (span (blank sp) r). Qed.

(** Whether the terminal can follow a key. *)
Definition drawable (k : key) (v : vty) : Prop :=
  match k with KInsert c => printable c | KDelete => vtype v = VTY_TERM | _ => True end.

Lemma backward_word_edits v l r :
  at_line v l r ->
  exists v', vty_backward_word v = Some v'
  /\ edits True v v' l r (word_back l) (drop (length (word_back l)) l ++ r).
Proof.
  intros H. unfold vty_backward_word. destruct (while_backward true v l r H) as (v1 & -> & H1). rewrite bind_some.
  destruct (while_backward false v1 _ _ (proj1 H1)) as (v2 & -> & H2). exists v2. split; [done|].
  destruct (word_back_app l) as (w & Hl & Hw). assert (drop (length (word_back l)) l = w) as ->.
  { rewrite Hl at 2. by rewrite drop_app_length. }
  rewrite Hw, <- app_assoc.
  by eapply edits_trans_T.
Qed.
Lemma forward_word_edits v l r :
  at_line v l r ->
  exists v', vty_forward_word v = Some v'
  /\ let r' := skip true (skip false r) in edits True v v' l r (l ++ take (length r - length r') r) r'.
Proof.
  intros H. unfold vty_forward_word. destruct (while_forward false v l r H) as (v1 & -> & H1). rewrite bind_some.
  destruct (while_forward true v1 _ _ (proj1 H1)) as (v2 & -> & H2). exists v2. split; [done|].
  replace (take _ r) with (fst (span (blank false) r) ++ fst (span (blank true) (skip false r))).
  - rewrite app_assoc. by eapply edits_trans_T.
  - pose proof (skip_app false r) as Hr. pose proof (skip_app true (skip false r)) as Hr2.
    rewrite Hr2, app_assoc in Hr.
    set (a := fst (span (blank false) r) ++ fst (span (blank true) (skip false r))) in *.
    set (b := skip true (skip false r)) in *. clearbody a b. subst r. rewrite length_app.
    replace (length a + length b - length b)%nat with (length a) by lia.
    by rewrite take_app_length.
Qed.

(** Every key acts on the line as it should, inside the buffer, and the terminal follows. *)
Lemma press_edits k v l r :
  at_line v l r -> prompt_ok v ->
  exists v', press k v = Some v'
             /\ edits (drawable k v) v v' l r (fst (edit k (l, r))) (snd (edit k (l, r))).
Proof.
  intros H Hp. destruct k; simpl.
  - destruct (zlen l + zlen r <? VTY_INPUT_BUF_SIZE - 1) eqn:E; btest; [by apply self_insert_edits|].
    exists v. split; [|by apply edits_refl]. eapply self_insert_full; [done|].
    line_facts H. rewrite Hbuf in Hsz. zlia.
  - destruct l as [|c l _] using rev_ind.
    + exists v. rewrite (backward_char_home v r H). split; [done|]. by apply edits_refl.
    + eexists. split; [done|]. rewrite length_app, Nat.add_1_r. simpl.
      rewrite take_app_length, drop_app_length. by apply backward_char_edits.
  - destruct r as [|c r]; [|by apply forward_char_edits]. exists v. split; [by apply (forward_char_end v l)|].
    simpl. rewrite app_nil_r. by apply edits_refl.
  - by apply beginning_of_line_edits.
  - by apply end_of_line_edits.
  - destruct r as [|c r].
    + destruct l as [|x l]; [|exists v; split; [by eapply delete_char_end|by apply edits_refl]].
      unfold vty_delete_char. pose proof H as H0. line_facts H0. rewrite Hlen. by apply down_level_edits.
    + destruct (delete_char_edits cmd_prompt v l c r H) as (v' & -> & He). exists v'. split; [done|].
      by eapply edits_weaken; [|exact He].
  - destruct l as [|c l _] using rev_ind.
    + exists v. split; [by apply (delete_backward_char_home cmd_prompt v r)|]. by apply edits_refl.
    + rewrite length_app, Nat.add_1_r. simpl. rewrite take_app_length. by apply delete_backward_char_edits.
  - by apply kill_line_edits.
  - by apply kill_line_from_beginning_edits.
  - by apply backward_word_edits.
  - by apply forward_word_edits.
  - unfold vty_forward_kill_word. destruct (while_delete true v l r H) as (v1 & -> & H1). rewrite bind_some.
    destruct (while_delete false v1 _ _ (proj1 H1)) as (v2 & -> & H2). exists v2. split; [done|].
    by eapply edits_trans_T.
  - unfold vty_backward_kill_word. destruct (while_delete_backward true v l r H) as (v1 & -> & H1). rewrite bind_some.
    destruct (while_delete_backward false v1 _ _ (proj1 H1)) as (v2 & -> & H2). exists v2. split; [done|].
    by eapply edits_trans_T.
  - by apply transpose_edits.
Qed.

Definition press_all (ks : list key) (v : vty) : option vty :=
  foldl (fun r k => v ← r; press k v) (Some v) ks.

Lemma press_all_edits ks : forall v l r,
  at_line v l r -> prompt_ok v ->
  exists v', press_all ks v = Some v'
  /\ edits (Forall (fun k => drawable k v) ks) v v' l r
       (fst (foldl (fun x k => edit k x) (l, r) ks)) (snd (foldl (fun x k => edit k x) (l, r) ks)).
Proof.
  induction ks as [|k ks IH]; intros v l r H Hp; cbn [foldl].
  { exists v. split; [done|]. by apply edits_refl. }
  destruct (press_edits k v l r H Hp) as (v1 & H1 & He). unfold press_all. cbn [foldl]. rewrite bind_some, H1.
  destruct (edit k (l, r)) as [l1 r1]. simpl in He.
  pose proof He as (Hl1 & Hf & _).
  assert (node v1 = node v /\ hostname v1 = hostname v /\ vtype v1 = vtype v) as (Hn & Hh & Ht)
    by (unfold frame in Hf; by simplify_eq).
  destruct (IH v1 l1 r1 Hl1) as (v2 & H2 & He2); [unfold prompt_ok in *; by rewrite Hn, Hh|].
  exists v2. split; [exact H2|]. eapply edits_weaken; [|exact (edits_trans _ _ _ _ _ _ _ _ _ _ _ He He2)].
  rewrite Forall_cons. intros [Hk Hks]. split; [done|]. eapply Forall_impl; [exact Hks|].
  intros k' Hk'. unfold drawable in *. destruct k'; congruence.
Qed.
End Keys.

(** ** The history *)

(** The ring holds the lines [rec], the last one first; no line contains a terminator. *)
Definition hist_is (v : vty) (rec : list (list Z)) : Prop :=
  length (hist v) = 20%nat /\ 0 <= hindex v < 20 /\ (length rec <= 20)%nat
  /\ Forall (fun s => no_nul s /\ zlen s < VTY_INPUT_BUF_SIZE) rec
  /\ forall i, (i < 20)%nat -> hist v !! Z.to_nat ((hindex v - 1 - Z.of_nat i) mod 20) = Some (rec !! i).

(** Adding a line: a repetition of the last one is not stored, the oldest one goes. *)
Definition hist_push (s : list Z) (rec : list (list Z)) : list (list Z) :=
  if bool_decide (rec !! 0%nat = Some s) then rec else take 20 (s :: rec).

Lemma hist_at_ring v rec i :
  hist_is v rec -> 0 <= i < 20 ->
  hist_at v i = Some (rec !! Z.to_nat ((hindex v - 1 - i) mod 20)).
Proof.
  intros (Hl & Hi & _ & _ & Hr) Hb. unfold hist_at. replace (0 <=? i) with true by lia.
  assert (0 <= (hindex v - 1 - i) mod 20 < 20) by (apply Z.mod_pos_bound; lia).
  rewrite <- (Hr (Z.to_nat ((hindex v - 1 - i) mod 20))) by lia. f_equal. f_equal.
  rewrite Z2Nat.id by lia.
  replace (hindex v - 1 - _) with (hindex v - 1 - (hindex v - 1 - i) mod 20) by lia.
  rewrite Zminus_mod_idemp_r. replace (hindex v - 1 - (hindex v - 1 - i)) with i by lia.
  by rewrite Z.mod_small.
Qed.

Lemma string_of_line v l r :
  at_line v l r -> string_of (buf v) = Some (cstr (l ++ r ++ [0])) /\ zlen (cstr (l ++ r ++ [0])) < VTY_INPUT_BUF_SIZE.
Proof.
  intros H. line_facts H. unfold string_of. rewrite bool_decide_eq_true_2.
  2: { rewrite Hbuf, !elem_of_app, elem_of_cons. tauto. }
  assert (forall a b : list Z, cstr (a ++ 0 :: b) = cstr (a ++ [0])) as Hc.
  { intros a b. unfold cstr. induction a as [|x a IH]; simpl; [done|]. destruct (negb (x =? 0)); [|done].
    by destruct (span _ (a ++ 0 :: b)), (span _ (a ++ [0])); simpl in *; subst. }
  split.
  - rewrite Hbuf, (app_assoc l r), Hc. by rewrite <- app_assoc.
  - rewrite Hbuf in Hsz. assert (forall a : list Z, zlen (cstr (a ++ [0])) <= zlen a) as Hle.
    { intros a. unfold cstr. induction a as [|x a IH]; simpl; [done|]. destruct (negb (x =? 0)); [|simpl; zlia].
      destruct (span _ (a ++ [0])). simpl in *. zlia. }
    specialize (Hle (l ++ r)). rewrite <- app_assoc in Hle. zlia.
Qed.
Lemma hist_add_is v rec l r :
  hist_is v rec -> at_line v l r -> l ++ r <> [] ->
  exists v', vty_hist_add v = Some v' /\ at_line v' l r /\ out v' = out v
  /\ hist_is v' (hist_push (cstr (l ++ r ++ [0])) rec) /\ hp v' = hindex v'.
Proof.
  intros Hh H Hne. pose proof (string_of_line v l r H) as [Hs Hsl]. pose proof H as H0.
  line_facts H0. unfold vty_hist_add.
  replace (len v =? 0) with false by (destruct l, r; done || zlia).
  pose proof Hh as (Hl & Hi & Hrl & Hrn & Hr). unfold VTY_HIST_CMD_SIZE.
  set (index := if negb (hindex v =? 0) then hindex v - 1 else 20 - 1).
  assert (hist_at v index = Some (rec !! 0%nat)) as ->.
  { rewrite (hist_at_ring v rec) by (done || (subst index; case_match; btest; lia)). f_equal. f_equal.
    subst index. destruct (hindex v =? 0) eqn:E; btest; simpl.
    - by rewrite E.
    - by replace (hindex v - 1 - (hindex v - 1)) with 0 by lia. }
  rewrite bind_some, Hs, bind_some. unfold hist_push.
  set (s := cstr _) in *. destruct (bool_decide (rec !! 0%nat = Some s)) eqn:E.
  { eexists. split; [done|]. split; [|split; [done|split; [|done]]].
    - exact H.
    - exact Hh. }
  rewrite (hist_at_ring v rec) by done. rewrite bind_some. cbn [hindex set_hist set_hindex hist].
  eexists. split; [done|]. set (h := <[_ := _]> _).
  assert (forall hi, hi = (hindex v + 1) mod 20 ->
    length h = 20%nat /\ 0 <= hi < 20 /\ (length (take 20 (s :: rec)) <= 20)%nat
    /\ Forall (fun s => no_nul s /\ zlen s < VTY_INPUT_BUF_SIZE) (take 20 (s :: rec))
    /\ forall i, (i < 20)%nat -> h !! Z.to_nat ((hi - 1 - Z.of_nat i) mod 20) = Some (take 20 (s :: rec) !! i)) as Hnew.
  { intros hi ->. repeat split.
    - subst h. by rewrite length_insert.
    - apply Z.mod_pos_bound. lia.
    - apply Z.mod_pos_bound. lia.
    - rewrite length_take. lia.
    - apply Forall_take. constructor; [|done]. split; [apply cstr_no_nul|done].
    - intros i Hlt. rewrite lookup_take_lt by lia.
      replace (((hindex v + 1) mod 20 - 1 - Z.of_nat i) mod 20) with ((hindex v - Z.of_nat i) mod 20).
      2: { replace ((hindex v + 1) mod 20 - 1 - Z.of_nat i) with ((hindex v + 1) mod 20 - (1 + Z.of_nat i)) by lia.
           rewrite Zminus_mod_idemp_l. f_equal. lia. }
      destruct i as [|i].
      + simpl. rewrite Z.sub_0_r, Z.mod_small by lia. subst h. apply list_lookup_insert_eq. lia.
      + simpl. rewrite <- Hr by lia. subst h. replace (hindex v - Z.of_nat (S i)) with (hindex v - 1 - Z.of_nat i) by lia.
        apply list_lookup_insert_ne. intros Hx.
        assert (0 <= (hindex v - 1 - Z.of_nat i) mod 20 < 20) by (apply Z.mod_pos_bound; lia).
        apply Z2Nat.inj in Hx; [|lia|lia]. pose proof (Z.div_mod (hindex v - 1 - Z.of_nat i) 20). lia. }
  destruct (hindex v + 1 =? 20) eqn:E2; btest.
  - split; [|split; [done|split; [|done]]]; [split; [by exists rest|by repeat split]|].
    apply (Hnew 0). by rewrite E2.
  - split; [|split; [done|split; [|done]]]; [split; [by exists rest|by repeat split]|].
    apply (Hnew (hindex v + 1)). by rewrite Z.mod_small by lia.
Qed.

Lemma poke_front b d : (length d <= length b)%nat -> poke_at b 0 d = Some (d ++ drop (length d) b).
Proof.
  intros Hd. rewrite <- (take_drop (length d) b) at 1.
  apply (poke_mid [] (take (length d) b)); [done|]. unfold zlen. rewrite length_take. lia.
Qed.

(** The line of the history at [hp] replaces the line. *)
Lemma history_print_edits v l r line :
  at_line v l r -> hist_at v (hp v) = Some (Some line) -> zlen line < VTY_INPUT_BUF_SIZE ->
  exists v', vty_history_print v = Some v' /\ edits (Forall printable line) v v' l r line [].
Proof.
  intros H Hh Hl. unfold vty_history_print.
  destruct (kill_line_from_beginning_edits v l r H) as (v1 & -> & H1). rewrite bind_some.
  pose proof H1 as (Hl1 & Hf & _). line_facts Hl1.
  assert (hist_at v1 (hp v1) = Some (Some line)) as ->.
  { assert (hist v1 = hist v /\ hp v1 = hp v) as [E1 E2] by (unfold frame in Hf; by simplify_eq).
    unfold hist_at in *. by rewrite E1, E2. }
  rewrite !bind_some. rewrite poke_front by zlia. rewrite bind_some.
  cbn [len set_len set_cp buf].
  destruct (drop (length line) (buf v1)) as [|x b3] eqn:Ed.
  { apply (f_equal length) in Ed. rewrite length_drop in Ed. zlia. }
  change (line ++ x :: b3) with (line ++ [x] ++ b3). rewrite (poke_mid line [x]) by done.
  rewrite bind_some. unfold vty_redraw_line. cbn [buf set_buf len set_len set_cp].
  rewrite slice_front by done. rewrite bind_some. eexists. split; [done|].
  eapply edits_weaken; [|eapply (edits_trans True _ v v1 _ l r [] [] line []); [done|]]; [intros Hq; split; [done|exact Hq]|].
  split; [|split; [done|]].
  - split; [by exists b3|]. apply (f_equal length) in Ed. rewrite length_drop in Ed. simpl in *.
    repeat split; try done; zlia.
  - exists line. split; [done|]. intros Hq [row p] [_ (pre & n & Hr & Hpos)]. simpl in Hr, Hpos. subst row p.
    apply (shows_intro _ _ _ pre (n - length line)); [by rewrite app_nil_r|].
    rewrite Nat.add_0_r, display_text by done. f_equal. simpl. by rewrite drop_replicate.
Qed.

Lemma previous_line_edits v rec l r k :
  at_line v l r -> hist_is v rec -> (k < 20)%nat -> hp v = (hindex v - Z.of_nat k) mod 20 ->
  match rec !! k with
  | None => vty_previous_line v = Some v
  | Some line =>
      exists v', vty_previous_line v = Some v' /\ hist_is v' rec /\ hindex v' = hindex v
      /\ hp v' = (hindex v - Z.of_nat (S k)) mod 20
      /\ edits (Forall printable line) (set_hp ((hindex v - Z.of_nat (S k)) mod 20) v) v' l r line []
  end.
Proof.
  intros H Hh Hk Hhp. pose proof Hh as (Hl & Hi & Hrl & Hrn & Hr). unfold vty_previous_line, VTY_HIST_CMD_SIZE.
  set (t := if hp v =? 0 then 20 - 1 else hp v - 1).
  assert (0 <= hp v < 20) as Hb by (rewrite Hhp; apply Z.mod_pos_bound; lia).
  assert (t = (hp v - 1) mod 20) as Ht.
  { subst t. destruct (hp v =? 0) eqn:E; btest; [by rewrite E|]. by rewrite Z.mod_small by lia. }
  assert (t = (hindex v - Z.of_nat (S k)) mod 20) as Ht2.
  { rewrite Ht, Hhp, Zminus_mod_idemp_l. f_equal. lia. }
  assert (0 <= t < 20) by (rewrite Ht; apply Z.mod_pos_bound; lia).
  assert (hist_at v t = Some (rec !! k)) as Hat.
  { rewrite (hist_at_ring v rec) by done. f_equal. f_equal. rewrite Ht2, Zminus_mod_idemp_r.
    replace (hindex v - 1 - (hindex v - Z.of_nat (S k))) with (Z.of_nat k) by lia.
    rewrite Z.mod_small by lia. lia. }
  rewrite Hat, bind_some. destruct (rec !! k) as [line|] eqn:E; [|done].
  destruct (history_print_edits (set_hp t v) l r line) as (v' & -> & He); [exact H|exact Hat| |].
  { eapply Forall_lookup_1 in Hrn as [_ ?]; [done|exact E]. }
  pose proof He as (_ & Hf & _). unfold frame in Hf. simpl in Hf.
  exists v'. split; [done|]. rewrite <- Ht2. split; [|split; [congruence|split; [congruence|done]]].
  unfold hist_is in *. assert (hist v' = hist v) as -> by congruence.
  by assert (hindex v' = hindex v) as -> by congruence.
Qed.

(** Pressing the key for the previous line [k] times. *)
Fixpoint up (k : nat) (v : vty) : option vty :=
  match k with O => Some v | S k => v ← up k v; vty_previous_line v end.

Lemma up_recalls v rec l r k :
  at_line v l r -> hist_is v rec -> hp v = hindex v -> (k <= length rec)%nat ->
  exists v', up k v = Some v' /\ hist_is v' rec /\ hindex v' = hindex v
  /\ hp v' = (hindex v - Z.of_nat k) mod 20
  /\ match k with O => v' = v | S k => exists line, rec !! k = Some line /\ at_line v' line [] end.
Proof.
  intros H Hh Hhp. pose proof Hh as (_ & Hi & Hrl & _). induction k as [|k IH]; intros Hk; simpl.
  { exists v. rewrite Z.sub_0_r, Z.mod_small by lia. done. }
  destruct IH as (v1 & -> & Hh1 & Hi1 & Hp1 & Hline); [lia|]. rewrite bind_some.
  assert (exists l1 r1, at_line v1 l1 r1) as (l1 & r1 & Hl1).
  { destruct k; [subst v1; eauto|]. destruct Hline as (line & _ & ?). eauto. }
  pose proof (previous_line_edits v1 rec l1 r1 k Hl1 Hh1) as Hprev.
  destruct (lookup_lt_is_Some_2 rec k) as [line Hline2]; [lia|]. rewrite Hline2, Hi1 in Hprev.
  destruct Hprev as (v2 & -> & Hh2 & Hi2 & Hp2 & (Hl2 & _)); [lia|done|].
  exists v2. split; [done|]. split; [done|]. split; [congruence|]. split; [done|]. by exists line.
Qed.

(** ** Sessions *)

Lemma vty_create_line sock n host : at_line (vty_create sock n host) [] [].
Proof. split; [by exists (zeros 1023)|]. by repeat split. Qed.
Lemma vty_create_hist sock n host : hist_is (vty_create sock n host) [].
Proof.
  split; [done|]. split; [done|]. split; [simpl; lia|]. split; [done|]. intros i Hi.
  assert (0 <= (0 - 1 - Z.of_nat i) mod 20 < 20) by (apply Z.mod_pos_bound; lia).
  rewrite lookup_nil. apply lookup_replicate. split; [done|]. simpl hindex.
  change (Z.to_nat VTY_HIST_CMD_SIZE) with 20%nat. lia.
Qed.

(** Some sessions, for examples. *)
Definition demo_prompt (n : Z) : option (list Z) := Some (str "%s>").
Definition demo : vty := vty_create 5 0 (str "opserver").
Definition type (s : list Z) : list key := KInsert <$> s.

Lemma demo_prompt_ok : prompt_ok demo_prompt demo.
Proof. exists (str "%s>"), (str "opserver>"). split; [done|]. split; [done|]. split; [done|].
  repeat (apply Forall_cons; split; [done|]). done. Qed.

(** C10. The line editor implements the editing of a text with a cursor: for any sequence of
    editing keys (characters, movements by character, word and line, deletions by character,
    word and line, transposition), on any line, no access leaves the 1024 bytes of the buffer,
    and the line becomes what the keys mean on the pair of the text before and the text behind
    the cursor; a full line takes no more characters. Nothing else of the session changes. *)
Theorem vty_line_editing cmd_prompt v l r ks :
  at_line v l r -> prompt_ok cmd_prompt v ->
  exists v', press_all cmd_prompt ks v = Some v'
  /\ at_line v' (fst (foldl (fun x k => edit k x) (l, r) ks)) (snd (foldl (fun x k => edit k x) (l, r) ks))
  /\ frame v' = frame v.
Proof.
  intros H Hp. destruct (press_all_edits cmd_prompt ks v l r H Hp) as (v' & Hv & Hl & Hf & _).
  by exists v'.
Qed.
Lemma vty_line_editing_witness :
  exists v', press_all demo_prompt (type (str "show ip") ++ [KBackwardWord; KForwardKillWord; KInsert 97]) demo
             = Some v' /\ at_line v' (str "show a") [].
Proof.
  destruct (vty_line_editing demo_prompt demo [] []
              (type (str "show ip") ++ [KBackwardWord; KForwardKillWord; KInsert 97])
              (vty_create_line 5 0 (str "opserver")) demo_prompt_ok) as (v' & Hv & Hl & _).
  exists v'. split; [exact Hv|]. exact Hl.
Defined.

(** C22. What the terminal shows stays the line: the bytes the editor writes for any sequence
    of editing keys with printable characters take a terminal that shows the old line, with the
    cursor at its place, to one that shows the new line with the cursor at its place, blanks
    behind it. A terminal here is the row of the cursor: characters overwrite, a backspace
    moves left, carriage return and line feed start a new row. *)
Theorem vty_display_in_sync cmd_prompt v l r ks s :
  at_line v l r -> prompt_ok cmd_prompt v -> vtype v = VTY_TERM ->
  (forall c, KInsert c ∈ ks -> printable c) -> shows s l r ->
  exists v' o, press_all cmd_prompt ks v = Some v' /\ out v' = out v ++ o
  /\ shows (display s o) (fst (foldl (fun x k => edit k x) (l, r) ks))
       (snd (foldl (fun x k => edit k x) (l, r) ks)).
Proof.
  intros H Hp Ht Hc Hs. destruct (press_all_edits cmd_prompt ks v l r H Hp) as (v' & Hv & _ & _ & o & Ho & Hd).
  exists v', o. split; [done|]. split; [done|]. apply Hd; [|done]. apply Forall_forall. intros k Hk.
  destruct k; simpl; auto.
Qed.
Lemma vty_display_in_sync_witness :
  exists v' o, press_all demo_prompt [KInsert 97; KInsert 98; KBackward; KDelete] demo = Some v'
  /\ out v' = o /\ shows (display (str "opserver>", 9%nat) o) [97] [].
Proof.
  destruct (vty_display_in_sync demo_prompt demo [] [] [KInsert 97; KInsert 98; KBackward; KDelete]
              (str "opserver>", 9%nat) (vty_create_line 5 0 (str "opserver")) demo_prompt_ok eq_refl)
    as (v' & o & Hv & Ho & Hs).
  - intros c Hc. repeat (apply elem_of_cons in Hc as [Hc|Hc]; [inversion Hc; subst; unfold printable; lia|]).
    inversion Hc.
  - split; [constructor|]. exists (str "opserver>"), 0%nat. split; reflexivity.
  - exists v', o. split; [exact Hv|]. split; [exact Ho|exact Hs].
Defined.

(** The history: a line that is entered becomes the first of the lines recalled unless it
    repeats the one entered before, at most twenty are kept, the oldest are forgotten; and from
    there the key for the previous line, pressed [k] times, puts the [k]-th of them on the
    line. *)
Theorem vty_history v rec l r k :
  at_line v l r -> hist_is v rec -> l ++ r <> [] ->
  let rec' := hist_push (cstr (l ++ r ++ [0])) rec in
  (0 < k <= length rec')%nat ->
  exists v1 v2 line, vty_hist_add v = Some v1 /\ hist_is v1 rec'
  /\ up k v1 = Some v2 /\ rec' !! (k - 1)%nat = Some line /\ at_line v2 line [] /\ hist_is v2 rec'.
Proof.
  intros H Hh Hne rec' Hk. destruct (hist_add_is v rec l r Hh H Hne) as (v1 & Hv1 & Hl1 & _ & Hh1 & Hp1).
  destruct (up_recalls v1 rec' l r k Hl1 Hh1 Hp1) as (v2 & Hv2 & Hh2 & _ & _ & Hline); [lia|].
  destruct k as [|k]; [lia|]. destruct Hline as (line & Hline & Hl2).
  exists v1, v2, line. rewrite Nat.sub_1_r. done.
Qed.
Lemma vty_history_witness :
  exists v v1 v2, press_all demo_prompt (type (str "list")) demo = Some v
  /\ vty_hist_add v = Some v1 /\ up 1 v1 = Some v2 /\ at_line v2 (str "list") [].
Proof.
  destruct (press_all demo_prompt (type (str "list")) demo) as [v|] eqn:E; [|vm_compute in E; discriminate E].
  assert (at_line v (str "list") []) as Hl.
  { vm_compute in E. injection E as <-. split; [exists (zeros 1019); vm_compute; reflexivity|]. repeat split. }
  assert (hist_is v []) as Hh.
  { vm_compute in E. injection E as <-. exact (vty_create_hist 5 0 (str "opserver")). }
  destruct (vty_history v [] (str "list") [] 1 Hl Hh) as (v1 & v2 & line & H1 & _ & H2 & Hr & H3 & _);
    [discriminate|vm_compute; lia|].
  exists v, v1, v2. split; [reflexivity|]. split; [exact H1|]. split; [exact H2|].
  vm_compute in Hr. injection Hr as <-. exact H3.
Defined.
