(* ===== verification/VtyWord.v ===== *)
(** * Words of a command line (opbox/vty.c)

    How a word that was typed matches a word of a command: literals and their abbreviations,
    ranges, addresses and prefixes. A null pointer is [None]; a string is the list of its
    characters. *)

From S2P Require Import Prelude CString Utils.
From stdpp Require Import base tactics numbers list strings.
From Stdlib Require Import ZArith Lia.
Open Scope Z_scope.

Module VtyWord.
Import Utils.

(** ** Enumerations *)

Inductive cmd_terminal_type :=
| TERMINAL_BUG | TERMINAL_LITERAL | TERMINAL_OPTION | TERMINAL_VARIABLE | TERMINAL_VARARG
| TERMINAL_RANGE | TERMINAL_IPV4 | TERMINAL_IPV4_PREFIX | TERMINAL_IPV6 | TERMINAL_IPV6_PREFIX.
Inductive filter_type := FILTER_RELAXED | FILTER_STRICT.
Inductive match_type :=
| no_match | extend_match | ipv4_prefix_match | ipv4_match | ipv6_prefix_match | ipv6_match
| range_match | vararg_match | partly_match | exact_match.

#[global] Instance cmd_terminal_type_eq_dec : EqDecision cmd_terminal_type.
Proof. solve_decision. Defined.
#[global] Instance filter_type_eq_dec : EqDecision filter_type.
Proof. solve_decision. Defined.
#[global] Instance match_type_eq_dec : EqDecision match_type.
Proof. solve_decision. Defined.

(** The values of the enumeration, which the code compares. *)
Definition match_value (m : match_type) : Z :=
  match m with
  | no_match => 0 | extend_match => 1 | ipv4_prefix_match => 2 | ipv4_match => 3
  | ipv6_prefix_match => 4 | ipv6_match => 5 | range_match => 6 | vararg_match => 7
  | partly_match => 8 | exact_match => 9
  end.
(** [TERMINAL_RECORD(t)]: the word becomes an argument. *)
Definition TERMINAL_RECORD (t : cmd_terminal_type) : bool :=
  match t with TERMINAL_BUG | TERMINAL_LITERAL => false | _ => true end.

(** ** Strings *)

(** [strncmp(s, w, strlen(w)) == 0]. *)
Fixpoint has_prefix (w s : list Z) : bool :=
  match w, s with
  | [], _ => true
  | c :: w, d :: s => (c =? d) && has_prefix w s
  | _ :: _, [] => false
  end.
(** [strcmp(a, b) == 0]. *)
Definition str_eq (a b : list Z) : bool := bool_decide (a = b).

(** [strchr]: what is before the first [c] and what is behind it. *)
Fixpoint cut_at (c : Z) (s : list Z) : option (list Z * list Z) :=
  match s with
  | [] => None
  | d :: r => if d =? c then Some ([], r) else '(a, b) ← cut_at c r; Some (d :: a, b)
  end.

(** [strtoul(s, &endptr, 10)]: the value and [endptr]. *)
Definition ULONG_MAX : Z := 18446744073709551615.
Definition strtoul (s : list Z) : Z * list Z :=
  let s1 := snd (span isspace s) in
  let neg := char_at s1 =? 45 in
  let s2 := if neg || (char_at s1 =? 43) then tail s1 else s1 in
  let '(ds, rest) := span isdigit s2 in
  match ds with
  | [] => (0, s)
  | _ =>
      let n := digits_value ds in
      (if ULONG_MAX <? n then ULONG_MAX else if neg then u64 (- n) else n, rest)
  end.

(** ** Ranges *)

Definition DECIMAL_STRLEN_MAX : Z := 10.

(** [range] is the text of a token, which is never empty: [<min-max>]. *)
Definition cmd_range_match (range : list Z) (s : option (list Z)) : bool :=
  match s with
  | None => true
  | Some s =>
      let '(val, endptr) := strtoul s in
      if negb (bool_decide (endptr = [])) then false
      else
        match cut_at 45 (tail range) with
        | None => false
        | Some (buf, range) =>
            if DECIMAL_STRLEN_MAX <? zlen buf then false
            else
              let '(min, endptr) := strtoul buf in
              if negb (bool_decide (endptr = [])) then false
              else
                match cut_at 62 range with
                | None => false
                | Some (buf, _) =>
                    if DECIMAL_STRLEN_MAX <? zlen buf then false
                    else
                      let '(max, endptr) := strtoul buf in
                      if negb (bool_decide (endptr = [])) then false
                      else negb ((val <? min) || (max <? val))
                end
        end
  end.

(** ** IPv4 *)

(** The inner loop of both matchers: the digits up to a dot, the end (or a slash, when [slash]),
    or a result. *)
Inductive scan_result := Done (m : match_type) | Digits (ds rest : list Z) (dots : Z).
Fixpoint v4_scan (slash : bool) (dots : Z) (ds s : list Z) : scan_result :=
  match s with
  | [] => Digits ds [] dots
  | c :: r =>
      if slash && (c =? 47) then Digits ds s dots
      else if c =? 46 then
        if 3 <=? dots then Done no_match
        else if (char_at r =? 46) || (slash && (char_at r =? 47)) then Done no_match
        else if char_at r =? 0 then Done partly_match
        else Digits ds s (dots + 1)
      else if negb (isdigit c) then Done no_match
      else v4_scan slash dots (ds ++ [c]) r
  end.

(** The outer loop consumes a dot at each turn: the length of the text bounds it. *)
Fixpoint cmd_ipv4_loop (fuel : nat) (dots nums : Z) (s : list Z) : match_type :=
  match fuel with
  | O => no_match
  | S fuel =>
      match v4_scan false dots [] s with
      | Done m => m
      | Digits ds rest dots =>
          if 3 <? zlen ds then no_match
          else if 255 <? atoi ds then no_match
          else
            let nums := nums + 1 in
            match rest with
            | [] => if nums <? 4 then partly_match else exact_match
            | _ :: rest => cmd_ipv4_loop fuel dots nums rest
            end
      end
  end.
Definition cmd_ipv4_match (s : option (list Z)) : match_type :=
  match s with
  | None => partly_match
  | Some s => cmd_ipv4_loop (S (length s)) 0 0 s
  end.

(** The digits behind the slash. *)
Definition prefix_mask (s : list Z) : match_type :=
  if negb (forallb isdigit s) then no_match
  else if 32 <? atoi s then no_match else exact_match.
Fixpoint cmd_ipv4_prefix_loop (fuel : nat) (dots : Z) (s : list Z) : match_type :=
  match fuel with
  | O => no_match
  | S fuel =>
      match v4_scan true dots [] s with
      | Done m => m
      | Digits ds rest dots =>
          if 3 <? zlen ds then no_match
          else if 255 <? atoi ds then no_match
          else
            match rest with
            | [] => partly_match
            | c :: rest =>
                if (dots =? 3) && (c =? 47) then
                  if char_at rest =? 0 then partly_match else prefix_mask rest
                else cmd_ipv4_prefix_loop fuel dots rest
            end
      end
  end.
Definition cmd_ipv4_prefix_match (s : option (list Z)) : match_type :=
  match s with
  | None => partly_match
  | Some s => cmd_ipv4_prefix_loop (S (length s)) 0 s
  end.

(** ** IPv6 *)

Definition IPV6_ADDR_STR : list Z := str "0123456789abcdefABCDEF:.%".
Definition IPV6_PREFIX_STR : list Z := str "0123456789abcdefABCDEF:.%/".
(** [strspn(s, set) == strlen(s)]. *)
Definition only_from (set s : list Z) : bool := bool_decide (skip_set set s = []).

Definition STATE_START : Z := 1.
Definition STATE_COLON : Z := 2.
Definition STATE_DOUBLE : Z := 3.
Definition STATE_ADDR : Z := 4.
Definition STATE_DOT : Z := 5.
Definition STATE_SLASH : Z := 6.
Definition STATE_MASK : Z := 7.

(** The variables of [cmd_ipv6_prefix_match]; [str] and [sp] are offsets into the text, [sp] is
    read only after it has been set. *)
Record v6 := V6 { v6_str : Z; v6_sp : Z; v6_state : Z; v6_colons : Z; v6_nums : Z; v6_double : Z }.
Definition at_ (s : list Z) (i : Z) : Z := char_at (drop (Z.to_nat i) s).

(** One turn of the loop: a result, or the variables at its end. *)
Definition v6_turn (s : list Z) (x : v6) : match_type + v6 :=
  let '(V6 i sp state colons nums dbl) := x in
  let next := at_ s (i + 1) in
  let after (x : v6) : match_type + v6 :=
    if 11 <? v6_nums x then inl no_match
    else if 7 <? v6_colons x then inl no_match
    else inr (V6 (v6_str x + 1) (v6_sp x) (v6_state x) (v6_colons x) (v6_nums x) (v6_double x)) in
  if state =? STATE_START then
    if at_ s i =? 58 then
      if negb (next =? 58) && negb (next =? 0) then inl no_match
      else inr (V6 i sp STATE_COLON (colons - 1) nums dbl)
    else inr (V6 i i STATE_ADDR colons nums dbl)
  else if state =? STATE_COLON then
    let colons := colons + 1 in
    if next =? 47 then inl no_match
    else if next =? 58 then after (V6 i sp STATE_DOUBLE colons nums dbl)
    else after (V6 i (i + 1) STATE_ADDR colons nums dbl)
  else if state =? STATE_DOUBLE then
    if negb (dbl =? 0) then inl no_match
    else if next =? 58 then inl no_match
    else
      let colons := if negb (next =? 0) && negb (next =? 47) then colons + 1 else colons in
      let state := if next =? 47 then STATE_SLASH else STATE_ADDR in
      after (V6 i (i + 1) state colons (nums + 1) (dbl + 1))
  else if state =? STATE_ADDR then
    if (next =? 58) || (next =? 46) || (next =? 0) || (next =? 47) then
      if 3 <? i - sp then inl no_match
      else if elem 47 (take (Z.to_nat (i + 1 - sp)) (drop (Z.to_nat sp) s)) then inl no_match
      else
        let sp := Z.max sp (i + 1) in
        let nums := nums + 1 in
        if next =? 58 then after (V6 i sp STATE_COLON colons nums dbl)
        else if next =? 46 then
          if negb (colons =? 0) || negb (dbl =? 0) then after (V6 i sp STATE_DOT colons nums dbl)
          else inl no_match
        else if next =? 47 then after (V6 i sp STATE_SLASH colons nums dbl)
        else after (V6 i sp state colons nums dbl)
    else after x
  else if state =? STATE_DOT then after (V6 i sp STATE_ADDR colons nums dbl)
  else if state =? STATE_SLASH then
    if next =? 0 then inl partly_match else after (V6 i sp STATE_MASK colons nums dbl)
  else after x.

(** Every turn but the first moves on by one character. *)
Fixpoint v6_loop (fuel : nat) (s : list Z) (x : v6) : match_type + v6 :=
  match fuel with
  | O => inl no_match
  | S fuel =>
      if negb (at_ s (v6_str x) =? 0) && negb (v6_state x =? STATE_MASK) then
        match v6_turn s x with
        | inl m => inl m
        | inr x => v6_loop fuel s x
        end
      else inr x
  end.
Definition cmd_ipv6_prefix_match (s : option (list Z)) : match_type :=
  match s with
  | None => partly_match
  | Some s =>
      if negb (only_from IPV6_PREFIX_STR s) then no_match
      else
        match v6_loop (S (S (length s))) s (V6 0 0 STATE_START 0 0 0) with
        | inl m => m
        | inr x =>
            if v6_state x <? STATE_MASK then partly_match
            else
              let '(val, endptr) := strtol (drop (Z.to_nat (v6_str x)) s) in
              let mask := s32 val in
              if negb (bool_decide (endptr = [])) then no_match
              else if (mask <? 0) || (128 <? mask) then no_match
              else exact_match
        end
  end.

Section Pton.
(** [inet_pton(AF_INET6, s, ...) == 1]. *)
Variable inet_pton6 : list Z -> bool.

Definition cmd_ipv6_match (s : option (list Z)) : match_type :=
  match s with
  | None => partly_match
  | Some s =>
      if negb (only_from IPV6_ADDR_STR s) then no_match
      else if inet_pton6 s then exact_match else no_match
  end.

(** ** Words *)

(** An address matches when it may still become one, or when it is one. *)
Definition filtered (filter : filter_type) (m : match_type) : bool :=
  match filter with
  | FILTER_RELAXED => negb (bool_decide (m = no_match))
  | FILTER_STRICT => bool_decide (m = exact_match)
  end.

(** [cmd] is the text of the token, [terminal] its kind. *)
Definition cmd_word_match (terminal : cmd_terminal_type) (cmd : list Z) (filter : filter_type)
    (word : option (list Z)) : match_type :=
  match filter, word with
  | FILTER_RELAXED, None | FILTER_RELAXED, Some [] => partly_match
  | FILTER_STRICT, None => no_match
  | _, Some w =>
      match terminal with
      | TERMINAL_VARARG => vararg_match
      | TERMINAL_RANGE => if cmd_range_match cmd word then range_match else no_match
      | TERMINAL_IPV6 => if filtered filter (cmd_ipv6_match word) then ipv6_match else no_match
      | TERMINAL_IPV6_PREFIX =>
          if filtered filter (cmd_ipv6_prefix_match word) then ipv6_prefix_match else no_match
      | TERMINAL_IPV4 => if filtered filter (cmd_ipv4_match word) then ipv4_match else no_match
      | TERMINAL_IPV4_PREFIX =>
          if filtered filter (cmd_ipv4_prefix_match word) then ipv4_prefix_match else no_match
      | TERMINAL_OPTION | TERMINAL_VARIABLE => extend_match
      | TERMINAL_LITERAL =>
          match filter with
          | FILTER_RELAXED =>
              if has_prefix w cmd then if str_eq cmd w then exact_match else partly_match
              else no_match
          | FILTER_STRICT => if str_eq cmd w then exact_match else no_match
          end
      | TERMINAL_BUG => no_match
      end
  end.
End Pton.

End VtyWord.
