(* ===== verification/VtyWordSpec.v ===== *)
(** * Words of a command line: what the matchers accept *)

From S2P Require Import Prelude CString Utils VtyTermSpec VtyWord.
From stdpp Require Import base tactics numbers list strings.
From Stdlib Require Import ZArith Lia.
Import Utils VtyWord.
Open Scope Z_scope.

(** ** Numbers *)

Definition digits (s : list Z) : Prop := Forall (fun c => isdigit c = true) s.

Lemma isdigit_range c : isdigit c = true -> 48 <= c <= 57.
Proof. unfold isdigit. intros H. btest. lia. Qed.
Lemma isdigit_not_space c : isdigit c = true -> isspace c = false /\ c <> 45 /\ c <> 43.
Proof.
  intros H%isdigit_range. unfold isspace. split; [|lia].
  apply orb_false_iff. split; [apply Z.eqb_neq; lia|]. apply andb_false_iff. right. apply Z.leb_gt. lia.
Qed.

Lemma digits_value_app a b : digits b ->
  digits_value (a ++ b) = digits_value a * 10 ^ zlen b + digits_value b.
Proof.
  intros Hb. unfold digits_value. rewrite foldl_app. generalize (foldl (fun v c => v * 10 + (c - 48)) 0 a) as n.
  intros n. revert n. induction b as [|c b IH] using rev_ind; intros n; [change (10 ^ zlen (@nil Z)) with 1; simpl; lia|].
  apply Forall_app in Hb as [Hb _]. rewrite !foldl_app. simpl. rewrite (IH Hb n). rewrite zlen_app. change (zlen [c]) with 1.
  rewrite Z.pow_add_r by (pose proof (zlen_nonneg b); lia). rewrite Z.pow_1_r. lia.
Qed.
Lemma digits_value_bounds s : digits s -> 0 <= digits_value s < 10 ^ zlen s.
Proof.
  induction s as [|c s IH] using rev_ind; intros Hs; [done|].
  apply Forall_app in Hs as [Hs [Hc _]%Forall_cons]. pose proof Hc as Hr%isdigit_range.
  rewrite digits_value_app by (by repeat constructor). rewrite zlen_app.
  change (zlen [c]) with 1. rewrite Z.pow_add_r by (pose proof (zlen_nonneg s); lia).
  assert (digits_value [c] = c - 48) as -> by done. rewrite Z.pow_1_r.
  specialize (IH Hs). lia.
Qed.
Lemma digits_value_mono a b : digits a -> digits b -> digits_value a <= digits_value (a ++ b).
Proof.
  intros Ha Hb. rewrite digits_value_app by done. pose proof (digits_value_bounds a Ha).
  pose proof (digits_value_bounds b Hb). assert (0 < 10 ^ zlen b) by (apply Z.pow_pos_nonneg; [lia|apply zlen_nonneg]).
  nia.
Qed.

Lemma span_digits s : digits s -> span isdigit s = (s, []).
Proof. intros H. apply span_all. by apply Forall_forall. Qed.

Lemma strtol_digits s :
  digits s -> fst (strtol s) = Z.min LONG_MAX (digits_value s).
Proof.
  intros Hs. destruct s as [|c s]; [done|]. pose proof (digits_value_bounds (c :: s) Hs) as Hb.
  pose proof Hs as [Hc%isdigit_range _]%Forall_cons. unfold strtol.
  assert (c = 48 \/ c = 49 \/ c = 50 \/ c = 51 \/ c = 52 \/ c = 53 \/ c = 54 \/ c = 55 \/ c = 56 \/ c = 57)
    as Hcs by lia.
  assert (forall x : Z * list Z, (let '(ds, rest) := span isdigit (c :: s) in
    match ds with [] => (0, c :: s)
    | _ => (Z.max (- LONG_MAX - 1) (Z.min LONG_MAX (digits_value ds)), rest) end) = x ->
    fst x = Z.min LONG_MAX (digits_value (c :: s))) as Hgo.
  { intros x <-. rewrite span_digits by done. simpl fst. unfold LONG_MAX in *. lia. }
  destruct_or! Hcs; subst c; apply Hgo; reflexivity.
Qed.
Lemma atoi_digits s : digits s -> zlen s <= 9 -> atoi s = digits_value s.
Proof.
  intros Hs Hl. unfold atoi. rewrite strtol_digits by done. pose proof (digits_value_bounds s Hs) as Hb.
  assert (10 ^ zlen s <= 10 ^ 9) by (apply Z.pow_le_mono_r; lia). change (10 ^ 9) with 1000000000 in *.
  unfold LONG_MAX. rewrite s32_id; lia.
Qed.

(** ** IPv4 addresses *)

(** A section: at most three digits, at most 255. *)
Definition octet (s : list Z) : Prop := digits s /\ zlen s <= 3 /\ digits_value s <= 255.

(** [n] sections more behind the first one, none of them empty. *)
Fixpoint sections (n : nat) (s : list Z) : Prop :=
  match n with
  | O => octet s
  | S n => exists a r, s = a ++ 46 :: r /\ octet a /\ r <> [] /\ char_at r <> 46 /\ sections n r
  end.
(** Four sections; the first may be empty. *)
Definition quad (s : list Z) : Prop := sections 3 s.

Lemma v4_scan_spec dots acc s :
  v4_scan false dots acc s
  = let '(ds, rest) := span isdigit s in
    match rest with
    | [] => Digits (acc ++ ds) [] dots
    | c :: r =>
        if c =? 46 then
          if 3 <=? dots then Done no_match
          else if (char_at r =? 46) then Done no_match
          else if char_at r =? 0 then Done partly_match
          else Digits (acc ++ ds) rest (dots + 1)
        else Done no_match
    end.
Proof.
  revert acc. induction s as [|c s IH]; intros acc; simpl; [by rewrite app_nil_r|].
  destruct (isdigit c) eqn:E.
  - pose proof (isdigit_range c E). replace (c =? 46) with false by lia. simpl. rewrite IH.
    destruct (span isdigit s) as [ds rest]. by rewrite <- app_assoc.
  - simpl. rewrite orb_false_r. destruct (c =? 46); [|done]. by rewrite app_nil_r.
Qed.

Lemma span_digits_app s : exists ds rest, s = ds ++ rest /\ span isdigit s = (ds, rest) /\ digits ds
  /\ (rest = [] \/ exists c r, rest = c :: r /\ isdigit c = false).
Proof.
  induction s as [|c s IH]; [exists [], []; repeat split; [constructor|by left]|]. simpl.
  destruct (isdigit c) eqn:E.
  - destruct IH as (ds & rest & -> & Hsp & Hd & Hr). rewrite Hsp. exists (c :: ds), rest.
    repeat split; [by constructor|done].
  - exists [], (c :: s). repeat split; [constructor|]. right. eauto.
Qed.

Lemma digits_no_dot a r b : digits a -> a = b ++ 46 :: r -> False.
Proof. intros Ha ->. apply Forall_app in Ha as [_ [H _]%Forall_cons]. done. Qed.

Lemma digits_split ds c rest a r :
  digits ds -> isdigit c = false -> digits a -> ds ++ c :: rest = a ++ 46 :: r ->
  c = 46 /\ ds = a /\ rest = r.
Proof.
  revert a. induction ds as [|x ds IH]; intros a Hds Hc Ha Heq; destruct a as [|y a]; simplify_eq/=.
  - done.
  - apply Forall_cons in Ha as [Hy _]. congruence.
  - apply Forall_cons in Hds as [Hx _]. done.
  - apply Forall_cons in Hds as [_ Hds]. apply Forall_cons in Ha as [_ Ha].
    destruct (IH a Hds Hc Ha) as (-> & -> & ->); done.
Qed.

Lemma octet_prefix a b : digits (a ++ b) -> octet (a ++ b) -> octet a.
Proof.
  intros Hd (_ & Hl & Hv). apply Forall_app in Hd as [Ha Hb]. split; [done|].
  rewrite zlen_app in Hl. pose proof (zlen_nonneg b). split; [lia|].
  pose proof (digits_value_mono a b Ha Hb). lia.
Qed.

(** A text that starts with [n] more sections, possibly cut: its first section is one. *)
Lemma sections_first n ds rest t :
  digits ds -> (rest = [] \/ exists c r, rest = c :: r /\ isdigit c = false) ->
  sections n ((ds ++ rest) ++ t) ->
  octet ds /\ (rest <> [] -> exists m r, n = S m /\ rest = 46 :: r /\ char_at (r ++ t) <> 46
                                         /\ r ++ t <> [] /\ sections m (r ++ t)).
Proof.
  intros Hds Hrest Hs. destruct n as [|n]; simpl in Hs.
  - pose proof Hs as (Hd & _). rewrite <- app_assoc in *. pose proof Hd as [_ Hd2]%Forall_app. split.
    + by eapply octet_prefix.
    + intros Hne. destruct Hrest as [->|(c & r & -> & Hc)]; [done|].
      apply Forall_app in Hd2 as [[Hc2 _]%Forall_cons _]. congruence.
  - destruct Hs as (a & r & Heq & Ha & Hne & Hdot & Hsec). pose proof Ha as (Hda & _).
    destruct Hrest as [->|(c & r' & -> & Hc)].
    + split; [|done]. rewrite app_nil_r in Heq.
      assert (exists e, a = ds ++ e) as [e ->].
      { clear -Heq Hds. revert a Heq. induction ds as [|x ds IH]; intros a Heq; [by exists a|].
        apply Forall_cons in Hds as [Hx Hds]. destruct a as [|y a]; [by simplify_eq/=|].
        injection Heq as -> Heq. destruct (IH Hds a Heq) as [e ->]. by exists e. }
      by eapply octet_prefix.
    + rewrite <- !app_assoc in Heq. simpl in Heq.
      destruct (digits_split ds c (r' ++ t) a r Hds Hc Hda Heq) as (-> & -> & <-).
      split; [done|]. intros _. by exists n, r'.
Qed.

Lemma ipv4_loop_exact fuel : forall dots s,
  (length s < fuel)%nat -> 0 <= dots <= 3 -> no_nul s ->
  cmd_ipv4_loop fuel dots dots s = exact_match <-> sections (Z.to_nat (3 - dots)) s.
Proof.
  induction fuel as [|fuel IH]; intros dots s Hf Hd Hn; [lia|].
  destruct (span_digits_app s) as (ds & rest & -> & Hsp & Hds & Hrest). simpl.
  rewrite v4_scan_spec, Hsp. simpl. destruct rest as [|c r].
  - rewrite app_nil_r. destruct (3 <? zlen ds) eqn:E1; btest.
    { split; [done|]. intros H. exfalso.
      pose proof (sections_first (Z.to_nat (3 - dots)) ds [] [] Hds) as Hf1. rewrite !app_nil_r in Hf1.
      destruct (Hf1 (or_introl eq_refl) H) as [(_ & ? & _) _]. lia. }
    rewrite atoi_digits by (done || lia). destruct (255 <? digits_value ds) eqn:E2; btest.
    { split; [done|]. intros H. exfalso.
      pose proof (sections_first (Z.to_nat (3 - dots)) ds [] [] Hds) as Hf1. rewrite !app_nil_r in Hf1.
      destruct (Hf1 (or_introl eq_refl) H) as [(_ & _ & ?) _]. lia. }
    destruct (dots + 1 <? 4) eqn:E3; btest.
    + split; [done|]. intros H. exfalso. destruct (Z.to_nat (3 - dots)) as [|n] eqn:En; [lia|].
      destruct H as (a & r & -> & _). by eapply digits_no_dot.
    + split; [|done]. intros _. replace (Z.to_nat (3 - dots)) with 0%nat by lia. done.
  - destruct Hrest as [?|(c' & r' & [= <- <-] & Hc)]; [done|].
    assert (forall n, sections n (ds ++ c :: r) -> octet ds /\ exists m, n = S m /\ c = 46
              /\ char_at r <> 46 /\ r <> [] /\ sections m r) as Hinv.
    { intros n Hs. pose proof (sections_first n ds (c :: r) [] Hds) as Hf1. rewrite !app_nil_r in Hf1.
      destruct Hf1 as [Ho Hm]; [right; eauto|done|]. split; [done|].
      destruct Hm as (m & r'' & -> & [= -> ->] & Hx); [done|]. rewrite app_nil_r in Hx. by exists m. }
    destruct (c =? 46) eqn:Ec; btest.
    2: { split; [done|]. intros Hs. destruct (Hinv _ Hs) as (_ & m & _ & -> & _). done. }
    subst c. destruct (3 <=? dots) eqn:E3; btest.
    { split; [done|]. intros Hs. destruct (Hinv _ Hs) as (_ & m & Hm & _). lia. }
    destruct (char_at r =? 46) eqn:Edd; btest.
    { split; [done|]. intros Hs. destruct (Hinv _ Hs) as (_ & m & _ & _ & ? & _). done. }
    destruct (char_at r =? 0) eqn:E0; btest.
    { split; [done|]. intros Hs. destruct (Hinv _ Hs) as (_ & m & _ & _ & _ & Hr & _).
      destruct r as [|x r]; [done|]. simpl in E0. destruct (Hn x); [|done].
      rewrite elem_of_app, !elem_of_cons. tauto. }
    assert (r <> []) as Hrne by (by intros ->).
    destruct (3 <? zlen ds) eqn:E1; btest.
    { split; [done|]. intros Hs. destruct (Hinv _ Hs) as ((_ & ? & _) & _). lia. }
    rewrite atoi_digits by (done || lia). destruct (255 <? digits_value ds) eqn:E2; btest.
    { split; [done|]. intros Hs. destruct (Hinv _ Hs) as ((_ & _ & ?) & _). lia. }
    rewrite IH.
    + replace (Z.to_nat (3 - dots)) with (S (Z.to_nat (3 - (dots + 1)))) by lia. split.
      * intros Hs. exists ds, r. done.
      * intros Hs. destruct (Hinv _ Hs) as (_ & m & Hm & _ & _ & _ & Hm2). by simplify_eq.
    + rewrite length_app in Hf. simpl in Hf. lia.
    + lia.
    + intros x Hx. apply Hn. rewrite elem_of_app, elem_of_cons. tauto.
Qed.

(** A text that can still become an address is not rejected. *)
Lemma ipv4_loop_relaxed fuel : forall dots s t,
  (length s < fuel)%nat -> 0 <= dots <= 3 ->
  sections (Z.to_nat (3 - dots)) (s ++ t) -> cmd_ipv4_loop fuel dots dots s <> no_match.
Proof.
  induction fuel as [|fuel IH]; intros dots s t Hf Hd Hs; [lia|].
  destruct (span_digits_app s) as (ds & rest & -> & Hsp & Hds & Hrest). simpl.
  rewrite v4_scan_spec, Hsp. simpl.
  destruct (sections_first _ ds rest t Hds Hrest Hs) as [(_ & Hl & Hv) Hm]. destruct rest as [|c r].
  - replace (3 <? zlen ds) with false by lia. rewrite atoi_digits by (done || lia).
    replace (255 <? digits_value ds) with false by lia. by case_match.
  - destruct Hm as (m & r' & Hn & [= -> ->] & Hdot & Hne & Hsec); [done|]. rewrite Z.eqb_refl.
    replace (3 <=? dots) with false by lia.
    assert (char_at r' =? 46 = false) as ->.
    { destruct r' as [|x r']; [done|]. apply Z.eqb_neq. exact Hdot. }
    destruct (char_at r' =? 0); [done|].
    replace (3 <? zlen ds) with false by lia. rewrite atoi_digits by (done || lia).
    replace (255 <? digits_value ds) with false by lia. apply (IH _ _ t); [|lia|].
    + rewrite length_app in Hf. simpl in Hf. lia.
    + by replace (Z.to_nat (3 - (dots + 1))) with m by lia.
Qed.

(** The IPv4 words: the matcher accepts as complete exactly the texts of four sections of
    decimal digits separated by dots, each of at most three digits and at most 255, of which
    only the first may be empty; and a text that can be extended to one is never rejected while
    it is being typed. *)
Theorem cmd_ipv4_match_exact (s : list Z) :
  no_nul s ->
  (cmd_ipv4_match (Some s) = exact_match <-> quad s)
  /\ (forall t, quad (s ++ t) -> cmd_ipv4_match (Some s) <> no_match).
Proof.
  intros Hn. split.
  - apply (ipv4_loop_exact (S (length s)) 0 s); [lia|lia|done].
  - intros t Ht. apply (ipv4_loop_relaxed (S (length s)) 0 s t); [lia|lia|exact Ht].
Qed.
Lemma cmd_ipv4_match_exact_witness :
  cmd_ipv4_match (Some (str "10.0.0.255")) = exact_match /\ quad (str "10.0.0.255").
Proof.
  assert (no_nul (str "10.0.0.255")) as Hn.
  { intros x Hx. repeat (apply elem_of_cons in Hx as [Hx|Hx]; [subst x; discriminate|]). inversion Hx. }
  split; [reflexivity|]. apply (cmd_ipv4_match_exact _ Hn). reflexivity.
Defined.

(** A section in front of a dot at the end is not looked at. *)
Lemma cmd_ipv4_match_trailing_dot : cmd_ipv4_match (Some (str "999.")) = partly_match.
Proof. reflexivity. Qed.
(** A slash in the place of a dot is skipped, and a mask is checked after it has been cut to
    an [int]. *)
Lemma cmd_ipv4_prefix_match_overaccepts :
  cmd_ipv4_prefix_match (Some (str "1.2/3.4.5/8")) = exact_match
  /\ cmd_ipv4_prefix_match (Some (str "1.2.3.4/99999999999999999999")) = exact_match.
Proof. split; reflexivity. Qed.

(** ** Ranges *)

Lemma strtoul_digits s :
  digits s -> s <> [] -> strtoul s = (Z.min ULONG_MAX (digits_value s), []).
Proof.
  intros Hs Hne. destruct s as [|c s]; [done|]. pose proof (digits_value_bounds (c :: s) Hs).
  pose proof Hs as [Hc _]%Forall_cons. destruct (isdigit_not_space c Hc) as (Hsp & H45 & H43).
  unfold strtoul. simpl span. rewrite Hsp. simpl snd. simpl char_at.
  replace (c =? 45) with false by lia. replace (c =? 43) with false by lia. simpl orb.
  cbn match. rewrite span_digits by done. destruct (ULONG_MAX <? _) eqn:E; btest; f_equal; lia.
Qed.
Lemma cut_at_spec c a b : (forall x, x ∈ a -> x <> c) -> cut_at c (a ++ c :: b) = Some (a, b).
Proof.
  induction a as [|x a IH]; intros H; simpl; [by rewrite Z.eqb_refl|].
  replace (x =? c) with false by (symmetry; apply Z.eqb_neq; apply H; by left).
  rewrite IH; [done|]. intros y Hy. apply H. by right.
Qed.
Lemma digits_neq s c : digits s -> isdigit c = false -> forall x, x ∈ s -> x <> c.
Proof. intros Hs Hc x Hx ->. apply (proj1 (Forall_forall _ _) Hs) in Hx. congruence. Qed.

(** The range words: against a token [<min-max>] with bounds of at most ten digits, a
    decimal number matches exactly when it lies between the bounds, whatever its length. *)
Theorem cmd_range_match_exact (mn mx s : list Z) :
  digits mn -> digits mx -> digits s -> mn <> [] -> mx <> [] -> s <> [] -> zlen mn <= 10 -> zlen mx <= 10 ->
  cmd_range_match (60 :: mn ++ 45 :: mx ++ [62]) (Some s)
  = bool_decide (digits_value mn <= digits_value s <= digits_value mx).
Proof.
  intros Hmn Hmx Hs Nmn Nmx Ns Lmn Lmx. unfold cmd_range_match. rewrite (strtoul_digits s) by done.
  rewrite bool_decide_eq_true_2 by done. simpl tail. simpl negb.
  rewrite cut_at_spec by (by apply digits_neq). unfold DECIMAL_STRLEN_MAX.
  replace (10 <? zlen mn) with false by lia. rewrite (strtoul_digits mn) by done.
  rewrite bool_decide_eq_true_2 by done. simpl negb. rewrite cut_at_spec by (by apply digits_neq).
  replace (10 <? zlen mx) with false by lia. rewrite (strtoul_digits mx) by done.
  rewrite bool_decide_eq_true_2 by done. simpl negb.
  pose proof (digits_value_bounds mn Hmn). pose proof (digits_value_bounds mx Hmx).
  assert (10 ^ zlen mn <= 10 ^ 10 /\ 10 ^ zlen mx <= 10 ^ 10) as [B1 B2]
    by (split; apply Z.pow_le_mono_r; lia). change (10 ^ 10) with 10000000000 in *.
  unfold ULONG_MAX. apply eq_true_iff_eq. rewrite bool_decide_eq_true, negb_true_iff, orb_false_iff, !Z.ltb_ge. lia.
Qed.
Lemma cmd_range_match_exact_witness :
  cmd_range_match (str "<1-4294967295>") (Some (str "4294967296")) = false
  /\ cmd_range_match (str "<1-4294967295>") (Some (str "65536")) = true.
Proof.
  pose proof (cmd_range_match_exact (str "1") (str "4294967295")) as H.
  change (str "<1-4294967295>") with (60 :: str "1" ++ 45 :: str "4294967295" ++ [62]). split.
  - rewrite (H (str "4294967296")); try (repeat constructor); try discriminate; reflexivity.
  - rewrite (H (str "65536")); try (repeat constructor); try discriminate; reflexivity.
Defined.
(** Other texts [strtoul] reads as numbers match too. *)
Lemma cmd_range_match_overaccepts :
  cmd_range_match (str "<1-9>") (Some (str "-18446744073709551611")) = true
  /\ cmd_range_match (str "<1-9>") (Some (str "+5")) = true.
Proof. split; reflexivity. Qed.
