(* ===== verification/VtyCmd.v ===== *)
(** * The command interpreter of opbox/vty.c

    A command is a list of tokens; the words of a line are matched against the tokens of every
    command of a node, word by word, until one command is left. The vectors of the code appear
    as the sequences of their slots (Vector.v): a vector whose slots can be empty is a list of
    options, a vector that never holds a null pointer is a list. The result [None] of a function
    is a null pointer that is followed, or a shift that is not defined. *)

From S2P Require Import Prelude CString Utils Vector VtyTerm VtyWord.
From stdpp Require Import base tactics numbers list strings.
From Stdlib Require Import ZArith Lia.
Open Scope Z_scope.

Module VtyCmd.
Import Utils Vector VtyTerm VtyWord.

(** ** Tokens *)

(** [struct cmd_token] by its [type]: TOKEN_TERMINAL, TOKEN_MULTIPLE, TOKEN_KEYWORD. *)
Inductive cmd_token :=
| TERMINAL (terminal : cmd_terminal_type) (cmd : list Z) (desc : option (list Z))
| MULTIPLE (multiple : list cmd_token)
| KEYWORD (keyword : list (list cmd_token)).

(** The fields [terminal], [cmd] and [desc]; zero in tokens of the other types. *)
Definition terminal_of (t : cmd_token) : cmd_terminal_type :=
  match t with TERMINAL x _ _ => x | _ => TERMINAL_BUG end.
Definition cmd_of (t : cmd_token) : option (list Z) :=
  match t with TERMINAL _ c _ => Some c | _ => None end.
Definition desc_of (t : cmd_token) : option (list Z) :=
  match t with TERMINAL _ _ d => d | _ => None end.

Definition word := option (list Z).
Definition is_empty (w : word) : bool := match w with None | Some [] => true | _ => false end.

(** ** Constants *)

Definition CMD_SUCCESS : Z := 0.
Definition CMD_WARNING : Z := 1.
Definition CMD_ERR_NO_MATCH : Z := 2.
Definition CMD_ERR_AMBIGUOUS : Z := 3.
Definition CMD_ERR_INCOMPLETE : Z := 4.
Definition CMD_ERR_EXEED_ARGC_MAX : Z := 5.
Definition CMD_ERR_NOTHING_TODO : Z := 6.
Definition CMD_COMPLETE_FULL_MATCH : Z := 7.
Definition CMD_COMPLETE_MATCH : Z := 8.
Definition CMD_COMPLETE_LIST_MATCH : Z := 9.
Definition CMD_SUCCESS_DAEMON : Z := 10.
Definition CMD_ARGC_MAX : Z := 25.
Definition UINT_MAX : Z := 4294967295.

Inductive matcher_rv :=
| MATCHER_OK | MATCHER_COMPLETE | MATCHER_INCOMPLETE | MATCHER_NO_MATCH | MATCHER_AMBIGUOUS
| MATCHER_EXCEED_ARGC_MAX.
#[global] Instance matcher_rv_eq_dec : EqDecision matcher_rv.
Proof. solve_decision. Defined.
Definition MATCHER_ERROR (rv : matcher_rv) : bool :=
  match rv with MATCHER_OK | MATCHER_COMPLETE => false | _ => true end.

(** ** The words of a line *)

(** [cmd_make_strvec]; the loop takes a word, which is not empty, at each turn. *)
Definition blank_char (c : Z) : bool := isspace c || (c =? 13) || (c =? 10).
Fixpoint strvec_words (fuel : nat) (cp : list Z) : list word :=
  match fuel with
  | O => []
  | S fuel =>
      let '(token, cp) := span (fun c => negb (blank_char c)) cp in
      match snd (span blank_char cp) with
      | [] => [Some token]
      | cp => Some token :: strvec_words fuel cp
      end
  end.
Definition cmd_make_strvec (string : option (list Z)) : option (list word) :=
  s ← string;
  let cp := snd (span isspace s) in
  match cp with
  | [] => None
  | c :: _ => if (c =? 33) || (c =? 35) then None else Some (strvec_words (S (length cp)) cp)
  end.

(** ** Matching one command *)

(** [struct cmd_matcher]: [m_match] is [None] when the pointer is null, else what it points to. *)
Record cmd_matcher := Matcher {
  m_filter : filter_type;
  m_vline : list word;
  m_index : Z;
  m_match_type : option match_type;
  m_match : option (option (list cmd_token));
  word_index : Z
}.
Definition set_word_index (i : Z) (m : cmd_matcher) : cmd_matcher :=
  Matcher (m_filter m) (m_vline m) (m_index m) (m_match_type m) (m_match m) i.

Definition cmd_matcher_init (filter : filter_type) (vline : list word) (index : Z)
    (want_type want_match : bool) : cmd_matcher :=
  Matcher filter vline index (if want_type then Some no_match else None)
    (if want_match then Some None else None) 0.

Definition vector_active {A} (v : list A) : Z := Z.of_nat (length v).
Definition cmd_matcher_words_left (m : cmd_matcher) : bool := word_index m <? vector_active (m_vline m).
Definition cmd_matcher_get_word (m : cmd_matcher) : word := vlookup (m_vline m) (Z.to_nat (word_index m)).

(** [argc] and [argv], [None] when they are null pointers. *)
Definition args := option (list word).
Definition push_argument (a : args) (arg : word) : Z * args :=
  let arg := if is_empty arg then None else arg in
  match a with
  | None => (0, None)
  | Some argv =>
      if CMD_ARGC_MAX <=? vector_active argv then (-1, Some argv) else (0, Some (argv ++ [arg]))
  end.

Definition cmd_matcher_record_match (m : cmd_matcher) (mt : match_type) (token : cmd_token)
    : cmd_matcher :=
  if negb (word_index m =? m_index m) then m
  else
    Matcher (m_filter m) (m_vline m) (m_index m)
      (old ← m_match_type m; Some (if match_value old <? match_value mt then mt else old))
      (v ← m_match m; Some (Some (default [] v ++ [token])))
      (word_index m).

Section Match.
(** [inet_pton(AF_INET6, s, ...) == 1]. *)
Variable inet_pton6 : list Z -> bool.

(** [cmd_word_match] on a token. *)
Definition token_match (t : cmd_token) (filter : filter_type) (w : word) : match_type :=
  cmd_word_match inet_pton6 (terminal_of t) (default [] (cmd_of t)) filter w.

(** A vararg token takes the words that are left. *)
Fixpoint vararg_loop (fuel : nat) (m : cmd_matcher) (a : args) : cmd_matcher * args :=
  match fuel with
  | O => (m, a)
  | S fuel =>
      if cmd_matcher_words_left m then
        let w := cmd_matcher_get_word m in
        let a := if is_empty w then a else snd (push_argument a w) in
        vararg_loop fuel (set_word_index (word_index m + 1) m) a
      else (m, a)
  end.

Definition cmd_matcher_match_terminal (m : cmd_matcher) (token : cmd_token) (a : args)
    : matcher_rv * cmd_matcher * args :=
  if negb (cmd_matcher_words_left m) then
    (if bool_decide (terminal_of token = TERMINAL_OPTION) then MATCHER_OK else MATCHER_INCOMPLETE, m, a)
  else
    let w := cmd_matcher_get_word m in
    let word_match := token_match token (m_filter m) w in
    if bool_decide (word_match = no_match) then (MATCHER_NO_MATCH, m, a)
    else
      let '(r, a) := if TERMINAL_RECORD (terminal_of token) then push_argument a w else (0, a) in
      if negb (r =? 0) then (MATCHER_EXCEED_ARGC_MAX, m, a)
      else
        let m := cmd_matcher_record_match m word_match token in
        let m := set_word_index (word_index m + 1) m in
        let '(m, a) := if bool_decide (terminal_of token = TERMINAL_VARARG)
                       then vararg_loop (length (m_vline m)) m a else (m, a) in
        (MATCHER_OK, m, a).

(** The loop over the alternatives. *)
Fixpoint multiple_loop (tokens : list cmd_token) (w : word) (m : cmd_matcher) (best : match_type)
    (arg : word) : cmd_matcher * match_type * word :=
  match tokens with
  | [] => (m, best, arg)
  | t :: r =>
      let word_match := token_match t (m_filter m) w in
      if bool_decide (word_match = no_match) then multiple_loop r w m best arg
      else
        let m := cmd_matcher_record_match m word_match t in
        if match_value best <? match_value word_match then multiple_loop r w m word_match w
        else multiple_loop r w m best arg
  end.
Definition cmd_matcher_match_multiple (m : cmd_matcher) (multiple : list cmd_token) (a : args)
    : matcher_rv * cmd_matcher * args :=
  if negb (cmd_matcher_words_left m) then (MATCHER_INCOMPLETE, m, a)
  else
    let w := cmd_matcher_get_word m in
    let '(m, best, arg) := multiple_loop multiple w m no_match None in
    let m := set_word_index (word_index m + 1) m in
    if bool_decide (best = no_match) then (MATCHER_NO_MATCH, m, a)
    else
      let '(r, a) := push_argument a arg in
      (if negb (r =? 0) then MATCHER_EXCEED_ARGC_MAX else MATCHER_OK, m, a).

(** *** Keywords *)

(** [1 << i], an [int], as an [unsigned long]. *)
Definition shl1 (i : nat) : option Z :=
  if (i <? 31)%nat then Some (Z.shiftl 1 (Z.of_nat i))
  else if (i =? 31)%nat then Some (u64 (s32 (Z.shiftl 1 31))) else None.

(** The loop over the keywords: the best one for the word, or an ambiguity. [first i] is the
    token at the head of keyword [i]. *)
Inductive found := Found (m : cmd_matcher) (keyword : option nat) | Ambiguous (m : cmd_matcher).
Fixpoint keyword_loop (kws : list (list cmd_token)) (i : nat) (mask : Z) (w : word) (has_args : bool)
    (m : cmd_matcher) (best : match_type) (at_ : option nat) : option found :=
  match kws with
  | [] => Some (Found m at_)
  | kw :: r =>
      bit ← shl1 i;
      if negb (Z.land mask bit =? 0) then keyword_loop r (S i) mask w has_args m best at_
      else
        t ← head kw;
        let word_match := token_match t (m_filter m) w in
        if bool_decide (word_match = no_match) then keyword_loop r (S i) mask w has_args m best at_
        else
          let m := cmd_matcher_record_match m word_match t in
          if match_value best <? match_value word_match
          then keyword_loop r (S i) mask w has_args m word_match (Some i)
          else if bool_decide (word_match = best) && (negb (word_index m =? m_index m) || has_args)
          then Some (Ambiguous m)
          else keyword_loop r (S i) mask w has_args m best at_
  end.

(** The loop over the arguments of the keyword that was found. The result says whether the
    function returns (an error, or the word in question has been reached); a nested keyword
    token leaves [rv] as it is. *)
Fixpoint keyword_args_loop (tokens : list cmd_token) (rv : matcher_rv) (m : cmd_matcher) (a : args)
    : bool * matcher_rv * cmd_matcher * args :=
  match tokens with
  | [] => (false, rv, m, a)
  | t :: r =>
      let '(rv, m, a) :=
        match t with
        | TERMINAL _ _ _ => cmd_matcher_match_terminal m t a
        | MULTIPLE ts => cmd_matcher_match_multiple m ts a
        | KEYWORD _ => (rv, m, a)
        end in
      if MATCHER_ERROR rv then (true, rv, m, a)
      else if m_index m <? word_index m then (true, MATCHER_OK, m, a)
      else keyword_args_loop r rv m a
  end.

(** [cmd_matcher_read_keywords]; [kwargs] is [args_vector]: slot [i] holds the arguments of
    keyword [i] up to the marker, [None] when the keyword was not there. Each turn takes at
    least one word. *)
Fixpoint cmd_matcher_read_keywords (fuel : nat) (m : cmd_matcher) (kws : list (list cmd_token))
    (rv : matcher_rv) (mask : Z) (kwargs : option (list (option (list word))))
    : option (matcher_rv * cmd_matcher * option (list (option (list word)))) :=
  match fuel with
  | O => None
  | S fuel =>
      if negb (cmd_matcher_words_left m) then Some (MATCHER_OK, m, kwargs)
      else
        let w := cmd_matcher_get_word m in
        f ← keyword_loop kws 0 mask w (bool_decide (is_Some kwargs)) m no_match None;
        match f with
        | Ambiguous m => Some (MATCHER_AMBIGUOUS, m, kwargs)
        | Found m None => Some (MATCHER_NO_MATCH, m, kwargs)
        | Found m (Some k) =>
            let m := set_word_index (word_index m + 1) m in
            if m_index m <? word_index m then Some (MATCHER_OK, m, kwargs)
            else
              bit ← shl1 k;
              let mask := Z.lor mask bit in
              kw ← kws !! k;
              let '(ret, rv, m, a) := keyword_args_loop (tail kw) rv m ((fun _ => []) <$> kwargs) in
              let kwargs := v ← kwargs; Some (vset_index v k a) in
              if ret : bool then Some (rv, m, kwargs)
              else cmd_matcher_read_keywords fuel m kws rv mask kwargs
        end
  end.

(** The arguments of the keywords in the order of the command, null pointers for those of a
    keyword that was not typed. *)
Definition push_all (ws : list word) (rv : matcher_rv) (a : args) : matcher_rv * args :=
  foldl (fun '(rv, a) w => let '(r, a) := push_argument a w in
                           (if negb (r =? 0) then MATCHER_EXCEED_ARGC_MAX else rv, a)) (rv, a) ws.
Definition takes_argument (t : cmd_token) : bool :=
  match t with
  | TERMINAL k _ _ => TERMINAL_RECORD k
  | MULTIPLE _ => true
  | KEYWORD _ => false
  end.
Definition keyword_words (kw : list cmd_token) (given : option (list word)) : list word :=
  match kw with
  | [t] => [match given with Some _ => cmd_of t | None => None end]
  | _ =>
      match given with
      | Some ws => ws
      | None => (fun _ => None) <$> filter (fun t => takes_argument t = true) (tail kw)
      end
  end.
Fixpoint build_loop (kws : list (list cmd_token)) (i : nat) (v : list (option (list word)))
    (rv : matcher_rv) (a : args) : matcher_rv * args :=
  match kws with
  | [] => (rv, a)
  | kw :: r =>
      let '(rv, a) := push_all (keyword_words kw (vlookup v i)) rv a in build_loop r (S i) v rv a
  end.
Definition cmd_matcher_build_keyword_args (kws : list (list cmd_token)) (a : args)
    (kwargs : option (list (option (list word)))) : matcher_rv * args :=
  match kwargs with
  | None => (MATCHER_OK, a)
  | Some v => build_loop kws 0 v MATCHER_OK a
  end.

Definition cmd_matcher_match_keyword (m : cmd_matcher) (kws : list (list cmd_token)) (a : args)
    : option (matcher_rv * cmd_matcher * args) :=
  let kwargs := match a with Some _ => Some [] | None => None end in
  '(reader_rv, m, kwargs) ←
    cmd_matcher_read_keywords (S (length (m_vline m))) m kws MATCHER_NO_MATCH 0 kwargs;
  let '(builder_rv, a) := cmd_matcher_build_keyword_args kws a kwargs in
  Some (if negb (MATCHER_ERROR reader_rv) && MATCHER_ERROR builder_rv then builder_rv else reader_rv, m, a).

(** *** A command *)

Fixpoint element_loop (tokens : list cmd_token) (m : cmd_matcher) (a : args)
    : option (option matcher_rv * cmd_matcher * args) :=
  match tokens with
  | [] => Some (None, m, a)
  | t :: r =>
      '(rv, m, a) ←
        match t with
        | TERMINAL _ _ _ => Some (cmd_matcher_match_terminal m t a)
        | MULTIPLE ts => Some (cmd_matcher_match_multiple m ts a)
        | KEYWORD kws => cmd_matcher_match_keyword m kws a
        end;
      if MATCHER_ERROR rv then Some (Some rv, m, a)
      else if m_index m <? word_index m then Some (Some MATCHER_OK, m, a)
      else element_loop r m a
  end.

(** The result: what is returned, the match type and the matches recorded, the arguments. *)
Definition cmd_element_match (tokens : list cmd_token) (filter : filter_type) (vline : list word)
    (index : Z) (want_type want_match : bool) (a : args)
    : option (matcher_rv * option match_type * option (option (list cmd_token)) * args) :=
  '(ret, m, a) ← element_loop tokens (cmd_matcher_init filter vline index want_type want_match)
                   ((fun _ => []) <$> a);
  let rv :=
    match ret with
    | Some rv => rv
    | None =>
        if vector_active vline <=? word_index m then MATCHER_COMPLETE
        else if (word_index m =? vector_active vline - 1)
                && is_empty (vlookup vline (Z.to_nat (word_index m))) then MATCHER_COMPLETE
        else MATCHER_NO_MATCH
    end in
  Some (rv, m_match_type m, m_match m, a).

End Match.

End VtyCmd.
