(* ===== verification/VtyCmdSpec.v ===== *)
(** * Matching a command: totality, the arguments, the tokens recorded *)

From S2P Require Import Prelude CString Utils Vector VtyTerm VtyWord VtyCmd.
From stdpp Require Import base tactics numbers list strings.
From Stdlib Require Import ZArith Lia.
Import Utils Vector VtyWord VtyCmd.
Open Scope Z_scope.

(** ** Well-formed commands *)

(** Texts that fit the output buffer of [vty_out] together. *)
Definition wf_term (t : cmd_token) : Prop :=
  match t with
  | TERMINAL _ c d => c <> [] /\ zlen c <= 1000 /\ (forall x, d = Some x -> zlen x <= 2000)
  | _ => False
  end.
Definition wf_arg (t : cmd_token) : Prop :=
  match t with MULTIPLE ts => Forall wf_term ts | _ => wf_term t end.
(** Keywords start with a word; there are at most 31 of them. *)
Definition wf_keyword (kw : list cmd_token) : Prop :=
  exists t r, kw = t :: r /\ wf_term t /\ Forall wf_arg r.
Definition wf_token (t : cmd_token) : Prop :=
  match t with
  | KEYWORD kws => (length kws <= 31)%nat /\ Forall wf_keyword kws
  | _ => wf_arg t
  end.

(** ** What a step of the matcher keeps *)

Definition sound (m : cmd_matcher) : Prop := forall ts, m_match m = Some (Some ts) -> Forall wf_term ts.
Definition args_ok (a : args) : Prop := match a with None => True | Some l => vector_active l <= CMD_ARGC_MAX end.

Definition mstep (m : cmd_matcher) (a : args) (m' : cmd_matcher) (a' : args) : Prop :=
  m_filter m' = m_filter m /\ m_vline m' = m_vline m /\ m_index m' = m_index m
  /\ word_index m <= word_index m' /\ (sound m -> sound m')
  /\ (a = None <-> a' = None) /\ (args_ok a -> args_ok a').

Lemma mstep_refl m a : mstep m a m a.
Proof. by repeat split. Qed.
Lemma mstep_trans m1 a1 m2 a2 m3 a3 : mstep m1 a1 m2 a2 -> mstep m2 a2 m3 a3 -> mstep m1 a1 m3 a3.
Proof.
  intros (A1 & A2 & A3 & A4 & A5 & A6 & A7) (B1 & B2 & B3 & B4 & B5 & B6 & B7).
  repeat split; try congruence; try lia; try tauto.
Qed.

Lemma record_mstep m mt t a : wf_term t -> mstep m a (cmd_matcher_record_match m mt t) a.
Proof.
  intros Ht. unfold cmd_matcher_record_match. case_match; [apply mstep_refl|].
  repeat split; try done; simpl; try lia. intros Hs ts. unfold sound in Hs. simpl.
  destruct (m_match m) as [[l|]|] eqn:E; simpl; try done; intros [= <-].
  - apply Forall_app. split; [by apply Hs|]. by repeat constructor.
  - by repeat constructor.
Qed.
Lemma record_word_index m mt t : word_index (cmd_matcher_record_match m mt t) = word_index m.
Proof. unfold cmd_matcher_record_match. by case_match. Qed.
Lemma bump_mstep m a : mstep m a (set_word_index (word_index m + 1) m) a.
Proof. repeat split; try done; simpl; lia. Qed.

Lemma push_mstep m a w : mstep m a m (snd (push_argument a w)) /\ (a = None -> fst (push_argument a w) = 0).
Proof.
  unfold push_argument. destruct a as [l|]; simpl.
  - split; [|done]. destruct (CMD_ARGC_MAX <=? vector_active l) eqn:E; btest; simpl; [apply mstep_refl|].
    repeat split; try done. simpl. intros _. unfold vector_active in *. rewrite length_app. simpl. lia.
  - split; [apply mstep_refl|done].
Qed.

Section Match.
Context (inet_pton6 : list Z -> bool).

Lemma vararg_mstep fuel m a : let '(m', a') := vararg_loop fuel m a in mstep m a m' a'.
Proof.
  revert m a. induction fuel as [|fuel IH]; intros m a; simpl; [apply mstep_refl|].
  destruct (cmd_matcher_words_left m); [|apply mstep_refl].
  set (w := cmd_matcher_get_word m). set (a1 := if is_empty w then a else _).
  specialize (IH (set_word_index (word_index m + 1) m) a1). destruct (vararg_loop fuel _ a1) as [m' a'].
  eapply mstep_trans; [apply bump_mstep|]. eapply mstep_trans; [|exact IH].
  subst a1. destruct (is_empty w); [apply mstep_refl|]. apply push_mstep.
Qed.

(** A vararg token leaves no word: as much fuel as the line has words is enough. *)
Lemma vararg_loop_done fuel : forall m a,
  0 <= word_index m -> vector_active (m_vline m) - word_index m <= Z.of_nat fuel ->
  cmd_matcher_words_left (fst (vararg_loop fuel m a)) = false.
Proof.
  induction fuel as [|fuel IH]; intros m a H0 Hf; simpl.
  - unfold cmd_matcher_words_left. btest. lia.
  - destruct (cmd_matcher_words_left m) eqn:E; [|done]. apply IH; simpl; lia.
Qed.

Lemma terminal_mstep m t a :
  wf_term t ->
  let '(rv, m', a') := cmd_matcher_match_terminal inet_pton6 m t a in
  mstep m a m' a' /\ (a = None -> rv <> MATCHER_EXCEED_ARGC_MAX).
Proof.
  intros Ht. unfold cmd_matcher_match_terminal.
  destruct (negb (cmd_matcher_words_left m)).
  { split; [apply mstep_refl|]. by destruct (bool_decide _). }
  set (w := cmd_matcher_get_word m). set (mt := token_match _ t _ w).
  destruct (bool_decide (mt = no_match)); [by split; [apply mstep_refl|]|].
  destruct (if TERMINAL_RECORD (terminal_of t) then push_argument a w else (0, a)) as [r a1] eqn:E.
  assert (mstep m a m a1 /\ (a = None -> r = 0)) as [H1 Hr].
  { destruct (TERMINAL_RECORD (terminal_of t)); [|simplify_eq; split; [apply mstep_refl|done]].
    pose proof (push_mstep m a w) as Hp. by rewrite E in Hp. }
  destruct (negb (r =? 0)) eqn:Er.
  { split; [done|]. intros Ha. rewrite (Hr Ha) in Er. done. }
  set (m1 := cmd_matcher_record_match m mt t). set (m2 := set_word_index (word_index m1 + 1) m1).
  assert (mstep m a m2 a1) as H2.
  { eapply mstep_trans; [exact H1|]. eapply mstep_trans; [by apply record_mstep|apply bump_mstep]. }
  destruct (bool_decide (terminal_of t = TERMINAL_VARARG)); [|done].
  pose proof (vararg_mstep (length (m_vline m2)) m2 a1) as H3.
  destruct (vararg_loop (length (m_vline m2)) m2 a1) as [m3 a3]. split; [|done]. by eapply mstep_trans.
Qed.

Lemma multiple_loop_mstep ts w m best arg a :
  Forall wf_term ts -> let '(m', _, _) := multiple_loop inet_pton6 ts w m best arg in mstep m a m' a.
Proof.
  revert m best arg. induction ts as [|t ts IH]; intros m best arg Hts; simpl; [apply mstep_refl|].
  apply Forall_cons in Hts as [Ht Hts]. destruct (bool_decide _); [by apply IH|].
  set (m1 := cmd_matcher_record_match m _ t).
  assert (mstep m a m1 a) as H1 by (by apply record_mstep).
  destruct (match_value best <? _).
  - specialize (IH m1 (token_match inet_pton6 t (m_filter m) w) w Hts).
    destruct (multiple_loop inet_pton6 ts w m1 _ w) as [[m2 ?] ?]. by eapply mstep_trans.
  - specialize (IH m1 best arg Hts). destruct (multiple_loop inet_pton6 ts w m1 best arg) as [[m2 ?] ?].
    by eapply mstep_trans.
Qed.

Lemma multiple_mstep m ts a :
  Forall wf_term ts ->
  let '(rv, m', a') := cmd_matcher_match_multiple inet_pton6 m ts a in
  mstep m a m' a' /\ (a = None -> rv <> MATCHER_EXCEED_ARGC_MAX).
Proof.
  intros Hts. unfold cmd_matcher_match_multiple.
  destruct (negb (cmd_matcher_words_left m)); [by split; [apply mstep_refl|]|].
  set (w := cmd_matcher_get_word m). pose proof (multiple_loop_mstep ts w m no_match None a Hts) as H1.
  destruct (multiple_loop inet_pton6 ts w m no_match None) as [[m1 best] arg].
  assert (mstep m a (set_word_index (word_index m1 + 1) m1) a) as H2.
  { eapply mstep_trans; [exact H1|apply bump_mstep]. }
  destruct (bool_decide (best = no_match)); [done|]. pose proof (push_mstep (set_word_index (word_index m1 + 1) m1) a arg) as [H3 Hr].
  destruct (push_argument a arg) as [r a']. simpl in *. split; [by eapply mstep_trans|].
  intros Ha. by rewrite (Hr Ha).
Qed.

Lemma shl1_ok i : (i < 32)%nat -> is_Some (shl1 i).
Proof.
  intros Hi. unfold shl1. destruct (i <? 31)%nat eqn:E; [by eexists|]. apply Nat.ltb_ge in E.
  assert (i = 31%nat) as -> by lia. by eexists.
Qed.

Lemma keyword_loop_mstep kws i mask w has m best at_ a :
  Forall wf_keyword kws -> (i + length kws <= 31)%nat ->
  exists f, keyword_loop inet_pton6 kws i mask w has m best at_ = Some f
  /\ match f with
     | Ambiguous m' => mstep m a m' a
     | Found m' k => mstep m a m' a /\ word_index m' = word_index m
                     /\ (k = at_ \/ exists j, k = Some j /\ (i <= j < i + length kws)%nat)
     end.
Proof.
  revert i m best at_. induction kws as [|kw kws IH]; intros i m best at_ Hk Hi; simpl.
  { eexists. split; [done|]. split; [apply mstep_refl|]. by split; [|left]. }
  apply Forall_cons in Hk as [(t & r & -> & Ht & _) Hk]. simpl in Hi.
  destruct (shl1_ok i) as [bit ->]; [lia|]. simpl.
  assert (forall m1 best1 at1, mstep m a m1 a -> word_index m1 = word_index m ->
    (at1 = at_ \/ at1 = Some i) -> exists f,
    keyword_loop inet_pton6 kws (S i) mask w has m1 best1 at1 = Some f /\
    match f with
    | Ambiguous m' => mstep m a m' a
    | Found m' k => mstep m a m' a /\ word_index m' = word_index m
                    /\ (k = at_ \/ exists j, k = Some j /\ (i <= j < i + S (length kws))%nat)
    end) as Hgo.
  { intros m1 best1 at1 H1 Hw1 Hat. destruct (IH (S i) m1 best1 at1 Hk) as (f & -> & Hf); [lia|].
    exists f. split; [done|]. destruct f as [m' k|m'].
    - destruct Hf as (H2 & Hw & Hkk). split; [by eapply mstep_trans|]. split; [congruence|].
      destruct Hkk as [->|(j & -> & ?)]; [|right; exists j; split; [done|lia]].
      destruct Hat as [->| ->]; [by left|]. right. exists i. split; [done|lia].
    - by eapply mstep_trans. }
  case_match; [apply Hgo; [apply mstep_refl|done|by left]|].
  case_match; [apply Hgo; [apply mstep_refl|done|by left]|].
  assert (mstep m a (cmd_matcher_record_match m (token_match inet_pton6 t (m_filter m) w) t) a) as Hrec
    by (by apply record_mstep).
  case_match; [apply Hgo; [done|apply record_word_index|by right]|].
  case_match; [|apply Hgo; [done|apply record_word_index|by left]].
  eexists. by split.
Qed.

Lemma keyword_args_mstep ts : forall rv m a,
  Forall wf_arg ts -> rv <> MATCHER_EXCEED_ARGC_MAX ->
  let '(ret, rv', m', a') := keyword_args_loop inet_pton6 ts rv m a in
  mstep m a m' a' /\ (a = None -> rv' <> MATCHER_EXCEED_ARGC_MAX)
  /\ (ret = false -> rv' <> MATCHER_EXCEED_ARGC_MAX).
Proof.
  induction ts as [|t ts IH]; intros rv m a Hts Hrv; simpl; [by split; [apply mstep_refl|]|].
  apply Forall_cons in Hts as [Ht Hts].
  assert (let '(rv1, m1, a1) :=
      match t with
      | TERMINAL _ _ _ => cmd_matcher_match_terminal inet_pton6 m t a
      | MULTIPLE ts => cmd_matcher_match_multiple inet_pton6 m ts a
      | KEYWORD _ => (rv, m, a)
      end in mstep m a m1 a1 /\ (a = None -> rv1 <> MATCHER_EXCEED_ARGC_MAX)) as H1.
  { destruct t; [by apply terminal_mstep|by apply multiple_mstep|done]. }
  destruct (match t with TERMINAL _ _ _ => _ | MULTIPLE ts => _ | KEYWORD _ => _ end) as [[rv1 m1] a1].
  destruct H1 as [H1 Hrv1]. destruct (MATCHER_ERROR rv1) eqn:E; [done|].
  destruct (m_index m1 <? word_index m1); [done|].
  assert (rv1 <> MATCHER_EXCEED_ARGC_MAX) as Hne by (by intros ->).
  specialize (IH rv1 m1 a1 Hts Hne). destruct (keyword_args_loop inet_pton6 ts rv1 m1 a1) as [[[ret rv2] m2] a2].
  destruct IH as (H2 & Hr2 & Hr3). split; [by eapply mstep_trans|]. split; [|done].
  intros Ha. apply Hr2. by apply H1.
Qed.

(** The keywords end: each turn takes a word. *)
Lemma read_keywords_total fuel : forall m kws rv mask kwargs a,
  Forall wf_keyword kws -> (length kws <= 31)%nat -> rv <> MATCHER_EXCEED_ARGC_MAX ->
  (kwargs = None <-> a = None) ->
  Z.max 0 (vector_active (m_vline m) - word_index m) < Z.of_nat fuel ->
  exists rv' m' kwargs', cmd_matcher_read_keywords inet_pton6 fuel m kws rv mask kwargs = Some (rv', m', kwargs')
  /\ mstep m a m' a /\ (kwargs' = None <-> a = None) /\ (a = None -> rv' <> MATCHER_EXCEED_ARGC_MAX).
Proof.
  induction fuel as [|fuel IH]; intros m kws rv mask kwargs a Hk Hl Hrv Ha Hf; [lia|]. simpl.
  unfold cmd_matcher_words_left. destruct (word_index m <? vector_active (m_vline m)) eqn:Ew; btest; simpl.
  2: { eexists _, _, _. split; [done|]. split_and!; try done; apply mstep_refl. }
  set (w := cmd_matcher_get_word m).
  destruct (keyword_loop_mstep kws 0 mask w (bool_decide (is_Some kwargs)) m no_match None a Hk)
    as (f & -> & Hfound); [lia|]. simpl.
  destruct f as [m1 [k|]|m1].
  - destruct Hfound as (H1 & Hw & [?|(j & [= <-] & Hj)]); [done|].
    set (m2 := set_word_index (word_index m1 + 1) m1).
    assert (mstep m a m2 a) as H2 by (eapply mstep_trans; [exact H1|apply bump_mstep]).
    change (m_index m1 <? word_index m1 + 1) with (m_index m2 <? word_index m2).
    destruct (m_index m2 <? word_index m2); [eexists _, _, _; split; [done|]; by split_and!|].
    destruct (shl1_ok k) as [bit ->]; [lia|]. simpl.
    destruct (lookup_lt_is_Some_2 kws k) as [kw Hkw]; [lia|]. rewrite Hkw. simpl.
    assert (wf_keyword kw) as (t & r & -> & Ht & Hr) by (by eapply Forall_lookup_1). simpl.
    pose proof (keyword_args_mstep r rv m2 ((fun _ => []) <$> kwargs) Hr Hrv) as H3.
    destruct (keyword_args_loop inet_pton6 r rv m2 _) as [[[ret rv2] m3] ka].
    destruct H3 as (H3 & Hr3 & Hr4).
    assert (mstep m a m3 a) as H4.
    { destruct H2 as (A1 & A2 & A3 & A4 & A5 & _), H3 as (B1 & B2 & B3 & B4 & B5 & _).
      repeat split; try congruence; try lia; auto. }
    set (kwargs' := (v ← kwargs; Some (vset_index v k ka))).
    assert (kwargs' = None <-> a = None) as Ha'.
    { rewrite <- Ha. unfold kwargs'. by destruct kwargs. }
    destruct ret.
    + eexists _, _, _. split; [done|]. split; [done|]. split; [done|].
      intros Hn. apply Hr3. apply Ha in Hn. by rewrite Hn.
    + destruct (IH m3 kws rv2 (Z.lor mask bit) kwargs' a Hk Hl (Hr4 eq_refl) Ha')
        as (rv5 & m5 & kw5 & -> & H5 & Hk5 & Hr5).
      * destruct H4 as (_ & Hv4 & _). rewrite Hv4. destruct H3 as (_ & _ & _ & Hw3 & _).
        subst m2. simpl in Hw3. lia.
      * eexists _, _, _. split; [done|]. split; [by eapply mstep_trans|done].
  - destruct Hfound as (H1 & _). eexists _, _, _. split; [done|]. by split_and!.
  - eexists _, _, _. split; [done|]. by split_and!.
Qed.

Lemma push_all_mstep ws : forall rv m a,
  let '(rv', a') := push_all ws rv a in mstep m a m a' /\ (a = None -> rv' = rv).
Proof.
  induction ws as [|w ws IH]; intros rv m a; [by split; [apply mstep_refl|]|].
  unfold push_all. simpl. pose proof (push_mstep m a w) as [H1 Hr]. destruct (push_argument a w) as [r a1].
  simpl in *. specialize (IH (if negb (r =? 0) then MATCHER_EXCEED_ARGC_MAX else rv) m a1).
  unfold push_all in IH. destruct (foldl _ _ ws) as [rv2 a2]. destruct IH as [H2 Hr2].
  split; [by eapply mstep_trans|]. intros Ha. rewrite Hr2 by (by apply H1). by rewrite (Hr Ha).
Qed.
Lemma build_mstep kws : forall i v rv m a,
  let '(rv', a') := build_loop kws i v rv a in mstep m a m a' /\ (a = None -> rv' = rv).
Proof.
  induction kws as [|kw kws IH]; intros i v rv m a; simpl; [by split; [apply mstep_refl|]|].
  pose proof (push_all_mstep (keyword_words kw (vlookup v i)) rv m a) as H1.
  destruct (push_all _ rv a) as [rv1 a1]. destruct H1 as [H1 Hr1]. specialize (IH (S i) v rv1 m a1).
  destruct (build_loop kws (S i) v rv1 a1) as [rv2 a2]. destruct IH as [H2 Hr2].
  split; [by eapply mstep_trans|]. intros Ha. rewrite Hr2 by (by apply H1). auto.
Qed.

Lemma keyword_total m kws a :
  Forall wf_keyword kws -> (length kws <= 31)%nat -> 0 <= word_index m ->
  exists rv m' a', cmd_matcher_match_keyword inet_pton6 m kws a = Some (rv, m', a')
  /\ mstep m a m' a' /\ (a = None -> rv <> MATCHER_EXCEED_ARGC_MAX).
Proof.
  intros Hk Hl H0. unfold cmd_matcher_match_keyword.
  destruct (read_keywords_total (S (length (m_vline m))) m kws MATCHER_NO_MATCH 0
              (match a with Some _ => Some [] | None => None end) a Hk Hl)
    as (rv & m1 & kw & -> & H1 & Hkw & Hr1); [done|by destruct a|unfold vector_active; lia|]. simpl.
  unfold cmd_matcher_build_keyword_args. destruct kw as [v|].
  - pose proof (build_mstep kws 0 v MATCHER_OK m1 a) as H2.
    destruct (build_loop kws 0 v MATCHER_OK a) as [brv a2]. destruct H2 as [H2 Hr2].
    eexists _, _, _. split; [done|]. split; [by eapply mstep_trans|].
    intros Ha. by apply Hkw in Ha.
  - eexists _, _, _. split; [done|]. split; [done|]. intros Ha. simpl. rewrite andb_false_r. auto.
Qed.

Lemma element_loop_total ts : forall m a,
  Forall wf_token ts -> 0 <= word_index m ->
  exists ret m' a', element_loop inet_pton6 ts m a = Some (ret, m', a') /\ mstep m a m' a'
  /\ (a = None -> ret <> Some MATCHER_EXCEED_ARGC_MAX).
Proof.
  induction ts as [|t ts IH]; intros m a Hts H0; simpl.
  { eexists _, _, _. split; [done|]. split_and!; try done; apply mstep_refl. }
  apply Forall_cons in Hts as [Ht Hts].
  assert (exists rv m1 a1,
    match t with
    | TERMINAL _ _ _ => Some (cmd_matcher_match_terminal inet_pton6 m t a)
    | MULTIPLE ts => Some (cmd_matcher_match_multiple inet_pton6 m ts a)
    | KEYWORD kws => cmd_matcher_match_keyword inet_pton6 m kws a
    end = Some (rv, m1, a1) /\ mstep m a m1 a1 /\ (a = None -> rv <> MATCHER_EXCEED_ARGC_MAX))
    as (rv & m1 & a1 & -> & H1 & Hr1).
  { destruct t as [k c d|ms|kws].
    - pose proof (terminal_mstep m (TERMINAL k c d) a Ht) as H1.
      destruct (cmd_matcher_match_terminal _ _ _ _) as [[rv m1] a1]. by exists rv, m1, a1.
    - pose proof (multiple_mstep m ms a Ht) as H1.
      destruct (cmd_matcher_match_multiple _ _ _ _) as [[rv m1] a1]. by exists rv, m1, a1.
    - destruct Ht as [Hl Hk]. by apply keyword_total. }
  simpl. destruct (MATCHER_ERROR rv).
  { eexists _, _, _. split; [done|]. split; [done|]. intros Ha [= ->]. by apply Hr1. }
  destruct (m_index m1 <? word_index m1); [eexists _, _, _; split; [done|]; by split_and!|].
  destruct (IH m1 a1 Hts) as (ret & m2 & a2 & -> & H2 & Hr2).
  { destruct H1 as (_ & _ & _ & ? & _). lia. }
  eexists _, _, _. split; [done|]. split; [by eapply mstep_trans|].
  intros Ha. apply Hr2. by apply H1.
Qed.

(** Matching a well-formed command always returns; the arguments fit [argv], the tokens recorded
    are words of the command, and without [argv] their number is never exceeded. *)
Lemma cmd_element_match_total ts filter vline index wt wm a :
  Forall wf_token ts ->
  exists rv mt ms a', cmd_element_match inet_pton6 ts filter vline index wt wm a = Some (rv, mt, ms, a')
  /\ args_ok a' /\ (a = None <-> a' = None)
  /\ (forall l, ms = Some (Some l) -> Forall wf_term l)
  /\ (a = None -> rv <> MATCHER_EXCEED_ARGC_MAX).
Proof.
  intros Hts. unfold cmd_element_match.
  destruct (element_loop_total ts (cmd_matcher_init filter vline index wt wm) ((fun _ => []) <$> a) Hts)
    as (ret & m & a1 & -> & (_ & _ & _ & _ & Hs & Ha & Hok) & Hr); [done|]. simpl.
  eexists _, _, _, _. split; [done|].
  assert ((fun _ => []) <$> a = None <-> a = None) as Hfm by (by destruct a).
  split; [|split; [by rewrite <- Ha, Hfm|split]].
  - apply Hok. by destruct a.
  - intros l Hl. apply Hs; [|done]. unfold sound. simpl. by destruct wm.
  - intros Hn. apply Hfm in Hn. specialize (Hr Hn). destruct ret as [rv|]; [congruence|].
    by repeat case_match.
Qed.
End Match.
