(* ===== verification/VtyExec.v ===== *)
(** * Choosing, completing and describing commands (opbox/vty.c)

    The functions that filter the commands of a node by the words of a line, and what the three
    keys do with the commands that are left: a line break executes the one command, a tab
    completes the last word, a question mark lists how the line can go on. *)

From S2P Require Import Prelude CString Utils Vector VtyTerm VtyWord VtyCmd.
From stdpp Require Import base tactics numbers list strings.
From Stdlib Require Import ZArith Lia.
Open Scope Z_scope.

Module VtyExec.
Import Utils Vector VtyTerm VtyWord VtyCmd.

(** ** Commands and nodes *)

(** [C] names the callbacks. *)
Record cmd_element (C : Type) := Element {
  el_node : Z;
  el_string : list Z;
  el_doc : list Z;
  el_tokens : list cmd_token;
  el_attr : Z;
  el_daemon : Z;
  el_cb : C
}.
Arguments Element {_} _ _ _ _ _ _ _.
Arguments el_node {_} _.
Arguments el_string {_} _.
Arguments el_doc {_} _.
Arguments el_tokens {_} _.
Arguments el_attr {_} _.
Arguments el_daemon {_} _.
Arguments el_cb {_} _.

Record cmd_node (C : Type) := Node {
  cn_node : Z;
  cn_prompt : list Z;
  cn_vector : list (option (cmd_element C))
}.
Arguments Node {_} _ _ _.
Arguments cn_node {_} _.
Arguments cn_prompt {_} _.
Arguments cn_vector {_} _.

Definition CMD_ATTR_DEPRECATED : Z := 1.
Definition CMD_ATTR_HIDDEN : Z := 2.

(** The token [token_cr] that [vty_init] sets up. *)
Definition command_cr : list Z := str "<cr>".
Definition token_cr : cmd_token := TERMINAL TERMINAL_LITERAL command_cr (Some []).

(** [strcmp]'s order, and [qsort] by a key: glibc sorts by merging, which keeps the order of
    equal elements. *)
Fixpoint str_leb (a b : list Z) : bool :=
  match a, b with
  | [], _ => true
  | _ :: _, [] => false
  | x :: a, y :: b => if x <? y then true else if y <? x then false else str_leb a b
  end.
Fixpoint insert_by {A} (key : A -> list Z) (x : A) (l : list A) : list A :=
  match l with
  | [] => [x]
  | y :: r => if str_leb (key x) (key y) then x :: l else y :: insert_by key x r
  end.
Definition sort_by {A} (key : A -> list Z) (l : list A) : list A := foldr (insert_by key) [] l.

Section Commands.
Context {C : Type}.
Variable inet_pton6 : list Z -> bool.
(** The global [cmdvec]. *)
Variable cmdvec : list (option (cmd_node C)).

Notation element := (cmd_element C).

Definition vector_slot {A} (v : list (option A)) (i : Z) : option A :=
  if 0 <=? i then vlookup v (Z.to_nat i) else None.

(** A null node is followed by both. *)
Definition cmd_prompt (node : Z) : option (list Z) := cn_prompt <$> vector_slot cmdvec node.
Definition cmd_node_vector (ntype : Z) : option (list (option element)) :=
  cn_vector <$> vector_slot cmdvec ntype.

(** ** Filtering *)

(** The loop of [cmd_vector_filter] from command [i] on: the result code, the commands that are
    left, the best match and the matches recorded. A slot without a command has no matches. *)
Fixpoint filter_loop (commands : list (option element)) (filter : filter_type) (vline : list word)
    (index : Z) (best : match_type)
    : option (Z * list (option element) * match_type * list (option (list cmd_token))) :=
  match commands with
  | [] => Some (CMD_SUCCESS, [], best, [])
  | None :: r =>
      '(ret, cs, best, ms) ← filter_loop r filter vline index best;
      Some (ret, None :: cs, best, None :: ms)
  | Some e :: r =>
      '(rv, mt, m, _) ← cmd_element_match inet_pton6 (el_tokens e) filter vline index true true None;
      let m := default None m in
      if MATCHER_ERROR rv then
        if bool_decide (rv = MATCHER_AMBIGUOUS) then Some (CMD_ERR_AMBIGUOUS, None :: r, best, [m])
        else if bool_decide (rv = MATCHER_EXCEED_ARGC_MAX)
        then Some (CMD_ERR_EXEED_ARGC_MAX, None :: r, best, [m])
        else
          '(ret, cs, best, ms) ← filter_loop r filter vline index best;
          Some (ret, None :: cs, best, m :: ms)
      else
        let mt := default no_match mt in
        let best := if match_value best <? match_value mt then mt else best in
        '(ret, cs, best, ms) ← filter_loop r filter vline index best;
        Some (ret, Some e :: cs, best, m :: ms)
  end.
Definition cmd_vector_filter (commands : list (option element)) (filter : filter_type)
    (vline : list word) (index : Z)
    : option (Z * list (option element) * match_type * list (option (list cmd_token))) :=
  filter_loop commands filter vline index no_match.

(** One token of [is_cmd_ambiguous]: a result, or whether it counts and the word matched so far. *)
Definition ambiguous_token (command : list Z) (type : match_type) (matched : option (list Z))
    (t : cmd_token) : Z + (bool * option (list Z)) :=
  match t with
  | TERMINAL terminal s _ =>
      let same := match matched with Some x => str_eq x s | None => true end in
      match type with
      | exact_match => inr (negb (TERMINAL_RECORD terminal) && str_eq command s, matched)
      | partly_match =>
          if negb (TERMINAL_RECORD terminal) && has_prefix command s then
            if same then inr (true, Some s) else inl 1
          else inr (false, matched)
      | range_match =>
          if cmd_range_match s (Some command) then if same then inr (true, Some s) else inl 1
          else inr (false, matched)
      | ipv6_match => inr (bool_decide (terminal = TERMINAL_IPV6), matched)
      | ipv6_prefix_match =>
          match cmd_ipv6_prefix_match (Some command) with
          | no_match => inr (false, matched)
          | partly_match => inl 2
          | _ => inr (true, matched)
          end
      | ipv4_match => inr (bool_decide (terminal = TERMINAL_IPV4), matched)
      | ipv4_prefix_match =>
          match cmd_ipv4_prefix_match (Some command) with
          | no_match => inr (false, matched)
          | partly_match => inl 2
          | _ => inr (true, matched)
          end
      | extend_match => inr (TERMINAL_RECORD terminal, matched)
      | no_match | vararg_match => inr (false, matched)
      end
  | _ => inr (false, matched)
  end.
Fixpoint ambiguous_tokens (command : list Z) (type : match_type) (matched : option (list Z))
    (found : bool) (ts : list cmd_token) : Z + (bool * option (list Z)) :=
  match ts with
  | [] => inr (found, matched)
  | t :: r =>
      match ambiguous_token command type matched t with
      | inl ret => inl ret
      | inr (b, matched) => ambiguous_tokens command type matched (found || b) r
      end
  end.
(** The commands whose matches do not count are dropped. *)
Fixpoint ambiguous_loop (cmds : list (option element)) (command : list Z)
    (matches : list (option (list cmd_token))) (type : match_type) (matched : option (list Z))
    : Z * list (option element) :=
  match cmds, matches with
  | c :: cs, Some ts :: ms =>
      match ambiguous_tokens command type matched false ts with
      | inl ret => (ret, c :: cs)
      | inr (found, matched) =>
          let '(ret, cs) := ambiguous_loop cs command ms type matched in
          (ret, (if found : bool then c else None) :: cs)
      end
  | c :: cs, None :: ms =>
      let '(ret, cs) := ambiguous_loop cs command ms type matched in (ret, c :: cs)
  | cs, _ => (0, cs)
  end.
Definition is_cmd_ambiguous (cmd_vector : list (option element)) (command : word)
    (matches : list (option (list cmd_token))) (type : match_type) : Z * list (option element) :=
  ambiguous_loop cmd_vector (default [] command) matches type None.

(** ** Execution *)

Definition cmd_is_complete (e : element) (vline : list word) : option bool :=
  '(rv, _, _, _) ← cmd_element_match inet_pton6 (el_tokens e) FILTER_RELAXED vline UINT_MAX false false None;
  Some (bool_decide (rv = MATCHER_COMPLETE)).

Definition cmd_parse (e : element) (vline : list word) : option (Z * list word) :=
  '(rv, _, _, a) ← cmd_element_match inet_pton6 (el_tokens e) FILTER_RELAXED vline UINT_MAX false false (Some []);
  Some (match rv with
        | MATCHER_COMPLETE => CMD_SUCCESS
        | MATCHER_NO_MATCH => CMD_ERR_NO_MATCH
        | MATCHER_AMBIGUOUS => CMD_ERR_AMBIGUOUS
        | MATCHER_EXCEED_ARGC_MAX => CMD_ERR_EXEED_ARGC_MAX
        | _ => CMD_ERR_INCOMPLETE
        end, default [] a).

(** The loop of [cmd_execute_command_real] over the words: an error, or the commands left. *)
Fixpoint select_loop (ws : list word) (cmd_vector : list (option element)) (filter : filter_type)
    (vline : list word) (index : Z) : option (Z + list (option element)) :=
  match ws with
  | [] => Some (inr cmd_vector)
  | command :: r =>
      '(ret, cs, m, matches) ← cmd_vector_filter cmd_vector filter vline index;
      if negb (ret =? CMD_SUCCESS) then Some (inl ret)
      else if bool_decide (m = vararg_match) then Some (inr cs)
      else
        let '(ret, cs) := is_cmd_ambiguous cs command matches m in
        if ret =? 1 then Some (inl CMD_ERR_AMBIGUOUS)
        else if ret =? 2 then Some (inl CMD_ERR_NO_MATCH)
        else select_loop r cs filter vline (index + 1)
  end.

(** The last complete command, how many there are, and how many incomplete ones. *)
Fixpoint count_loop (cmds : list (option element)) (vline : list word) (me : option element)
    (matched incomplete : Z) : option (option element * Z * Z) :=
  match cmds with
  | [] => Some (me, matched, incomplete)
  | None :: r => count_loop r vline me matched incomplete
  | Some e :: r =>
      c ← cmd_is_complete e vline;
      if c : bool then count_loop r vline (Some e) (matched + 1) incomplete
      else count_loop r vline me matched (incomplete + 1)
  end.

(** What [cmd_execute_command_real] does before it calls back: a result, or the command and its
    arguments. *)
Definition cmd_select (vline : list word) (filter : filter_type) (node : Z)
    : option (Z + element * list word) :=
  cmd_vector ← cmd_node_vector node;
  sel ← select_loop vline cmd_vector filter vline 0;
  match sel with
  | inl ret => Some (inl ret)
  | inr cs =>
      '(me, matched, incomplete) ← count_loop cs vline None 0 0;
      if matched =? 0 then
        Some (inl (if negb (incomplete =? 0) then CMD_ERR_INCOMPLETE else CMD_ERR_NO_MATCH))
      else if 1 <? matched then Some (inl CMD_ERR_AMBIGUOUS)
      else
        e ← me;
        '(ret, argv) ← cmd_parse e vline;
        if negb (ret =? CMD_SUCCESS) then Some (inl ret)
        else if negb (el_daemon e =? 0) then Some (inl CMD_SUCCESS_DAEMON)
        else Some (inr (e, argv))
  end.

Definition cmd_try_do_shortcut (first_word : word) : bool :=
  match first_word with Some w => str_eq (str "do") w | None => false end.
(** [shifted_vline]: the words behind the first. *)
Definition shifted (vline : list word) : list word := tail vline.

Section Callbacks.
(** The call through [matched_element->cb] with [argc], [argv], the element and the session. *)
Variable run_cb : C -> list word -> element -> vty -> option (Z * vty).

Definition cmd_execute_command_real (vline : list word) (filter : filter_type) (v : vty)
    : option (Z * vty) :=
  r ← cmd_select vline filter (node v);
  match r with
  | inl ret => Some (ret, v)
  | inr (e, argv) => run_cb (el_cb e) argv e v
  end.

Definition cmd_execute_command (vline : list word) (v : vty) : option (Z * vty) :=
  let onode := node v in
  w ← vline !! 0%nat;
  if cmd_try_do_shortcut w then
    '(ret, v) ← cmd_execute_command_real (shifted vline) FILTER_RELAXED v;
    Some (ret, set_node onode v)
  else cmd_execute_command_real vline FILTER_RELAXED v.
End Callbacks.

(** ** Completion *)

Definition cmd_entry_function (src : word) (t : cmd_token) : option (list Z) :=
  if TERMINAL_RECORD (terminal_of t) then None
  else
    match src with
    | None => cmd_of t
    | Some s => dst ← cmd_of t; if has_prefix s dst then Some dst else None
    end.

Definition cmd_unique_string (v : list (list Z)) (s : list Z) : bool := negb (bool_decide (s ∈ v)).

Fixpoint common_prefix (s1 s2 : list Z) : Z :=
  match s1, s2 with
  | c1 :: s1, c2 :: s2 => if c1 =? c2 then 1 + common_prefix s1 s2 else 0
  | _, _ => 0
  end.
Fixpoint lcd_loop (s1 : list Z) (matched : list (list Z)) (lcd : Z) : Z :=
  match matched with
  | [] => lcd
  | s2 :: r =>
      let j := common_prefix s1 s2 in
      lcd_loop s2 r (if lcd <? 0 then j else if j <? lcd then j else lcd)
  end.
Definition cmd_lcd (matched : list (list Z)) : Z :=
  match matched with
  | [] | [_] => 0
  | s1 :: r => lcd_loop s1 r (-1)
  end.

Definition completions (w : word) (matches : list (option (list cmd_token))) : list (list Z) :=
  foldl (fun v t => match cmd_entry_function w t with
                    | Some s => if cmd_unique_string v s then v ++ [s] else v
                    | None => v
                    end) [] (mjoin (omap id matches)).

(** The loop over the words; the last one is not checked for ambiguity. *)
Fixpoint complete_loop (ws : list word) (cmd_vector : list (option element)) (vline : list word)
    (index : Z) : option (Z + list (option (list cmd_token))) :=
  match ws with
  | [] => Some (inr [])
  | command :: r =>
      '(ret, cs, m, matches) ← cmd_vector_filter cmd_vector FILTER_RELAXED vline index;
      if negb (ret =? CMD_SUCCESS) then Some (inl ret)
      else
        match r with
        | [] => Some (inr matches)
        | _ =>
            let '(ret, cs) := is_cmd_ambiguous cs command matches m in
            if ret =? 1 then Some (inl CMD_ERR_AMBIGUOUS) else complete_loop r cs vline (index + 1)
        end
  end.

(** The status and the strings returned (up to the null pointer that ends them). *)
Definition cmd_complete_command_real (vline : list word) (v : vty) : option (Z * list (list Z)) :=
  cmd_vector ← cmd_node_vector (node v);
  match last vline with
  | None => Some (CMD_ERR_NO_MATCH, [])
  | Some w =>
      r ← complete_loop vline cmd_vector vline 0;
      match r with
      | inl ret => Some (ret, [])
      | inr matches =>
          match completions w matches with
          | [] => Some (match w with None => CMD_ERR_NOTHING_TODO | Some _ => CMD_ERR_NO_MATCH end, [])
          | [s] => Some (CMD_COMPLETE_FULL_MATCH, [s])
          | (s :: _) as matchvec =>
              let lcd := cmd_lcd matchvec in
              match w with
              | Some typed =>
                  if negb (lcd =? 0) && (zlen typed <? lcd)
                  then Some (CMD_COMPLETE_MATCH, [take (Z.to_nat lcd) s])
                  else Some (CMD_COMPLETE_LIST_MATCH, sort_by id matchvec)
              | None => Some (CMD_COMPLETE_LIST_MATCH, sort_by id matchvec)
              end
          end
      end
  end.

Definition cmd_complete_command_lib (vline : list word) (v : vty) : option (Z * list (list Z)) :=
  w ← vline !! 0%nat;
  cmd_complete_command_real (if cmd_try_do_shortcut w then shifted vline else vline) v.

(** ** Description *)

Definition desc_unique_string (v : list cmd_token) (s : list Z) : bool :=
  negb (bool_decide (Some s ∈ cmd_of <$> v)).

Definition cmd_entry_function_desc (src : word) (t : cmd_token) : option (list Z) :=
  let matches (m : match_type) := negb (bool_decide (m = no_match)) in
  dst ← cmd_of t;
  if match terminal_of t with
     | TERMINAL_VARARG | TERMINAL_OPTION | TERMINAL_VARIABLE => true
     | TERMINAL_RANGE => cmd_range_match dst src
     | TERMINAL_IPV6 => matches (cmd_ipv6_match inet_pton6 src)
     | TERMINAL_IPV6_PREFIX => matches (cmd_ipv6_prefix_match src)
     | TERMINAL_IPV4 => matches (cmd_ipv4_match src)
     | TERMINAL_IPV4_PREFIX => matches (cmd_ipv4_prefix_match src)
     | TERMINAL_LITERAL => match src with None => true | Some s => has_prefix s dst end
     | TERMINAL_BUG => false
     end
  then Some dst else None.

(** The loop over the words: a result, or the commands, matches and match type of the last. *)
Inductive described :=
| Status (ret : Z)
| Vararg (matches : list (option (list cmd_token)))
| Last (cmds : list (option element)) (matches : list (option (list cmd_token))) (m : match_type).
Fixpoint describe_loop (ws : list word) (cmd_vector : list (option element)) (vline : list word)
    (index : Z) : option described :=
  match ws with
  | [] => None
  | command :: r =>
      '(ret, cs, m, matches) ← cmd_vector_filter cmd_vector FILTER_RELAXED vline index;
      if negb (ret =? CMD_SUCCESS) then Some (Status ret)
      else
        match r with
        | [] => Some (Last cs matches m)
        | _ =>
            if bool_decide (m = vararg_match) then Some (Vararg matches)
            else
              let '(ret, cs) := is_cmd_ambiguous cs command matches m in
              if ret =? 1 then Some (Status CMD_ERR_AMBIGUOUS)
              else if ret =? 2 then Some (Status CMD_ERR_NO_MATCH)
              else describe_loop r cs vline (index + 1)
        end
  end.

Definition sort_tokens (ts : list cmd_token) : list cmd_token := sort_by (fun t => default [] (cmd_of t)) ts.

(** The tokens one command adds. *)
Definition describe_element (e : element) (ts : option (list cmd_token)) (vline : list word) (w : word)
    (m : match_type) (matchvec : list cmd_token) : option (list cmd_token) :=
  matchvec ←
    (if is_empty w then
       c ← cmd_is_complete e (vunset vline (length vline - 1));
       Some (if c && desc_unique_string matchvec command_cr && negb (bool_decide (m = vararg_match))
             then matchvec ++ [token_cr] else matchvec)
     else Some matchvec);
  Some (foldl (fun v t => match cmd_entry_function_desc w t with
                          | Some s => if desc_unique_string v s then v ++ [t] else v
                          | None => v
                          end) matchvec (default [] ts)).
Fixpoint describe_elements (cmds : list (option element)) (matches : list (option (list cmd_token)))
    (vline : list word) (w : word) (m : match_type) (found : Z) (matchvec : list cmd_token)
    : option (Z * list cmd_token) :=
  match cmds, matches with
  | Some e :: cs, ts :: ms =>
      matchvec ← describe_element e ts vline w m matchvec;
      describe_elements cs ms vline w m (found + 1) matchvec
  | None :: cs, _ :: ms => describe_elements cs ms vline w m found matchvec
  | _, _ => Some (found, matchvec)
  end.

Definition cmd_describe_command_real (vline : list word) (v : vty) : option (Z * list cmd_token) :=
  match last vline with
  | None => Some (CMD_ERR_NO_MATCH, [])
  | Some w =>
      cmd_vector ← cmd_node_vector (node v);
      d ← describe_loop vline cmd_vector vline 0;
      match d with
      | Status ret => Some (ret, [])
      | Vararg matches =>
          Some (CMD_SUCCESS, sort_tokens (mjoin (omap id matches) ++ [token_cr]))
      | Last cs matches m =>
          '(found, matchvec) ← describe_elements cs matches vline w m 0 [];
          let matchvec := if (found =? 0) && is_empty w then matchvec ++ [token_cr] else matchvec in
          match matchvec with
          | [] => Some (CMD_ERR_NO_MATCH, [])
          | _ => Some (CMD_SUCCESS, sort_tokens matchvec)
          end
      end
  end.

Definition cmd_describe_command (vline : list word) (v : vty) : option (Z * list cmd_token) :=
  w ← vline !! 0%nat;
  cmd_describe_command_real (if cmd_try_do_shortcut w then shifted vline else vline) v.

End Commands.

End VtyExec.
