(* ===== verification/VtyExecSpec.v ===== *)
(** * Choosing a command: totality, and the dispatch of literal commands

    Filtering, completing and describing always return on well-formed commands. On commands
    made of literal words the interpreter is the dispatch by unambiguous abbreviations that a
    user expects, given here as a reference definition. *)

From S2P Require Import Prelude CString Utils Vector VtyTerm VtyWord VtyCmd VtyCmdSpec VtyExec.
From stdpp Require Import base tactics numbers list strings.
From Stdlib Require Import ZArith Lia.
Import Utils Vector VtyWord VtyCmd VtyExec.
Open Scope Z_scope.

Section Total.
Context {C : Type} (inet_pton6 : list Z -> bool).
Notation element := (cmd_element C).

Definition wf_element (e : element) : Prop := Forall wf_token (el_tokens e) /\ zlen (el_string e) <= 4000.
Definition wf_cmds (cs : list (option element)) : Prop := forall e, Some e ∈ cs -> wf_element e.
Definition wf_matches (ms : list (option (list cmd_token))) : Prop :=
  forall ts, Some ts ∈ ms -> Forall wf_term ts.

Lemma wf_cmds_cons c cs : wf_cmds (c :: cs) <-> (forall e, c = Some e -> wf_element e) /\ wf_cmds cs.
Proof.
  unfold wf_cmds. split.
  - intros H. split; intros e He; apply H; rewrite elem_of_cons; [left|right]; congruence || done.
  - intros [H1 H2] e [He|He]%elem_of_cons; auto.
Qed.
Lemma wf_matches_cons m ms :
  wf_matches (m :: ms) <-> (forall ts, m = Some ts -> Forall wf_term ts) /\ wf_matches ms.
Proof.
  unfold wf_matches. split.
  - intros H. split; intros e He; apply H; rewrite elem_of_cons; [left|right]; congruence || done.
  - intros [H1 H2] e [He|He]%elem_of_cons; auto.
Qed.
Lemma wf_matches_nil : wf_matches [].
Proof. intros ts Hts. by apply elem_of_nil in Hts. Qed.

Lemma filter_loop_total cs : forall filter vline index best,
  wf_cmds cs ->
  exists ret cs' best' ms, filter_loop inet_pton6 cs filter vline index best = Some (ret, cs', best', ms)
  /\ (ret = CMD_SUCCESS \/ ret = CMD_ERR_AMBIGUOUS) /\ wf_cmds cs' /\ wf_matches ms.
Proof.
  induction cs as [|c cs IH]; intros filter vline index best Hwf; simpl.
  { eexists _, _, _, _. split; [done|]. split; [by left|]. split; [done|apply wf_matches_nil]. }
  apply wf_cmds_cons in Hwf as [Hc Hwf]. destruct c as [e|].
  - destruct (Hc e eq_refl) as [Hts Hstr].
    destruct (cmd_element_match_total inet_pton6 (el_tokens e) filter vline index true true None Hts)
      as (rv & mt & ms & a' & -> & _ & _ & Hms & Hrv). simpl. specialize (Hrv eq_refl).
    assert (forall ts, default None ms = Some ts -> Forall wf_term ts) as Hdef.
    { intros ts Hd. destruct ms as [[l|]|]; simpl in Hd; simplify_eq. by apply Hms. }
    destruct (MATCHER_ERROR rv).
    + destruct (bool_decide (rv = MATCHER_AMBIGUOUS)).
      { eexists _, _, _, _. split; [done|]. split; [by right|]. split; [by apply wf_cmds_cons|].
        apply wf_matches_cons. split; [done|apply wf_matches_nil]. }
      rewrite bool_decide_eq_false_2 by done.
      destruct (IH filter vline index best Hwf) as (ret & cs' & b & ms' & -> & Hr & Hw & Hm). simpl.
      eexists _, _, _, _. split; [done|]. split; [done|]. split; [by apply wf_cmds_cons|].
      apply wf_matches_cons. by split.
    + match goal with |- context [filter_loop _ cs _ _ _ ?b] =>
        destruct (IH filter vline index b Hwf) as (ret & cs' & b' & ms' & -> & Hr & Hw & Hm) end. simpl.
      eexists _, _, _, _. split; [done|]. split; [done|].
      split; [apply wf_cmds_cons; split; [|done]; by intros ? [= <-]|].
      apply wf_matches_cons. by split.
  - destruct (IH filter vline index best Hwf) as (ret & cs' & b & ms' & -> & Hr & Hw & Hm). simpl.
    eexists _, _, _, _. split; [done|]. split; [done|]. split; [by apply wf_cmds_cons|].
    by apply wf_matches_cons.
Qed.

Lemma ambiguous_loop_wf cs : forall command ms type matched,
  wf_cmds cs -> wf_cmds (snd (ambiguous_loop cs command ms type matched)).
Proof.
  induction cs as [|c cs IH]; intros command ms type matched Hwf; [by destruct ms as [|[|] ?]|].
  pose proof Hwf as [Hc Hcs]%wf_cmds_cons. destruct ms as [|[ts|] ms]; simpl; [done| |].
  - destruct (ambiguous_tokens _ _ _ _ ts) as [ret|[found matched']]; [done|].
    specialize (IH command ms type matched' Hcs). destruct (ambiguous_loop cs command ms type matched') as [ret cs'].
    simpl in *. apply wf_cmds_cons. split; [|done]. by destruct found.
  - specialize (IH command ms type matched Hcs). destruct (ambiguous_loop cs command ms type matched) as [ret cs'].
    simpl in *. by apply wf_cmds_cons.
Qed.

Lemma select_loop_total ws : forall cs filter vline index,
  wf_cmds cs ->
  exists r, select_loop inet_pton6 ws cs filter vline index = Some r
  /\ match r with inl ret => ret = CMD_ERR_AMBIGUOUS \/ ret = CMD_ERR_NO_MATCH | inr cs' => wf_cmds cs' end.
Proof.
  induction ws as [|w ws IH]; intros cs filter vline index Hwf; simpl; [by eexists|].
  unfold cmd_vector_filter.
  destruct (filter_loop_total cs filter vline index no_match Hwf) as (ret & cs' & b & ms & -> & Hr & Hw & Hm). simpl.
  destruct (negb (ret =? CMD_SUCCESS)) eqn:E.
  { eexists. split; [done|]. destruct Hr as [->| ->]; [done|by left]. }
  destruct (bool_decide (b = vararg_match)); [by eexists|].
  unfold is_cmd_ambiguous. pose proof (ambiguous_loop_wf cs' (default [] w) ms b None Hw) as Hwa.
  destruct (ambiguous_loop cs' (default [] w) ms b None) as [ret2 cs2]. simpl in Hwa.
  destruct (ret2 =? 1); [eexists; split; [done|by left]|].
  destruct (ret2 =? 2); [eexists; split; [done|by right]|]. by apply IH.
Qed.

Lemma is_complete_total e vline : wf_element e -> exists b, cmd_is_complete inet_pton6 e vline = Some b.
Proof.
  intros [Hts _]. unfold cmd_is_complete.
  destruct (cmd_element_match_total inet_pton6 (el_tokens e) FILTER_RELAXED vline UINT_MAX false false None Hts)
    as (rv & mt & ms & a' & -> & _). by eexists.
Qed.

Lemma count_loop_total cs : forall vline me matched incomplete,
  wf_cmds cs -> 0 <= matched -> (forall e, me = Some e -> wf_element e) -> (0 < matched -> is_Some me) ->
  exists me' m' i', count_loop inet_pton6 cs vline me matched incomplete = Some (me', m', i')
  /\ (forall e, me' = Some e -> wf_element e) /\ (0 < m' -> is_Some me') /\ 0 <= m'.
Proof.
  induction cs as [|[e|] cs IH]; intros vline me matched incomplete Hwf H0 Hme Hm; simpl.
  - by eexists _, _, _.
  - apply wf_cmds_cons in Hwf as [Hc Hwf]. destruct (is_complete_total e vline (Hc e eq_refl)) as [[|] ->]; simpl.
    + apply IH; [done|lia| |by eexists]. intros e' [= <-]. by apply Hc.
    + by apply IH.
  - apply wf_cmds_cons in Hwf as [_ Hwf]. by apply IH.
Qed.

(** The node of the session exists and its commands are well formed. *)
Definition wf_node (cmdvec : list (option (cmd_node C))) (n : Z) : Prop :=
  exists cs, cmd_node_vector cmdvec n = Some cs /\ wf_cmds cs.

Lemma cmd_select_total cmdvec vline filter n :
  wf_node cmdvec n ->
  exists r, cmd_select inet_pton6 cmdvec vline filter n = Some r
  /\ match r with
     | inl _ => True
     | inr (e, argv) => wf_element e /\ vector_active argv <= CMD_ARGC_MAX
     end.
Proof.
  intros (cs & Hcs & Hwf). unfold cmd_select. rewrite Hcs. simpl.
  destruct (select_loop_total vline cs filter vline 0 Hwf) as (r & -> & Hr). simpl.
  destruct r as [ret|cs']; [by eexists|].
  destruct (count_loop_total cs' vline None 0 0 Hr) as (me & m & i & -> & Hme & Hm & H0); try done. simpl.
  destruct (m =? 0) eqn:E; btest; [by eexists|]. destruct (1 <? m); [by eexists|].
  destruct Hm as [e ->]; [lia|]. simpl. pose proof (Hme e eq_refl) as He. pose proof He as [Hts _].
  unfold cmd_parse.
  destruct (cmd_element_match_total inet_pton6 (el_tokens e) FILTER_RELAXED vline UINT_MAX false false (Some []) Hts)
    as (rv & mt & ms & a' & -> & Ha & Hn & _). simpl.
  destruct (negb (_ =? CMD_SUCCESS)); [by eexists|]. destruct (negb (el_daemon e =? 0)); [by eexists|].
  eexists. split; [done|]. split; [done|]. by destruct a'.
Qed.

Lemma complete_loop_total ws : forall cs vline index,
  wf_cmds cs ->
  exists r, complete_loop inet_pton6 ws cs vline index = Some r
  /\ match r with inl ret => ret = CMD_ERR_AMBIGUOUS | inr ms => wf_matches ms end.
Proof.
  induction ws as [|w ws IH]; intros cs vline index Hwf; simpl; [eexists; split; [done|apply wf_matches_nil]|].
  unfold cmd_vector_filter.
  destruct (filter_loop_total cs FILTER_RELAXED vline index no_match Hwf) as (ret & cs' & b & ms & -> & Hr & Hw & Hm). simpl.
  destruct (negb (ret =? CMD_SUCCESS)) eqn:E; [eexists; split; [done|by destruct Hr as [->| ->]]|].
  destruct ws as [|w2 ws]; [by eexists|].
  unfold is_cmd_ambiguous. pose proof (ambiguous_loop_wf cs' (default [] w) ms b None Hw) as Hwa.
  destruct (ambiguous_loop cs' (default [] w) ms b None) as [ret2 cs2]. simpl in Hwa.
  destruct (ret2 =? 1); [by eexists|]. by apply IH.
Qed.

Lemma describe_loop_total ws : forall cs vline index,
  ws <> [] -> wf_cmds cs ->
  exists d, describe_loop inet_pton6 ws cs vline index = Some d
  /\ match d with
     | Status ret => ret = CMD_ERR_AMBIGUOUS \/ ret = CMD_ERR_NO_MATCH
     | Vararg ms => wf_matches ms
     | Last cs' ms m => wf_cmds cs' /\ wf_matches ms
     end.
Proof.
  induction ws as [|w ws IH]; intros cs vline index Hne Hwf; [done|]. simpl. unfold cmd_vector_filter.
  destruct (filter_loop_total cs FILTER_RELAXED vline index no_match Hwf) as (ret & cs' & b & ms & -> & Hr & Hw & Hm). simpl.
  destruct (negb (ret =? CMD_SUCCESS)) eqn:E.
  { eexists. split; [done|]. destruct Hr as [->| ->]; [done|by left]. }
  destruct ws as [|w2 ws]; [by eexists|]. destruct (bool_decide (b = vararg_match)); [by eexists|].
  unfold is_cmd_ambiguous. pose proof (ambiguous_loop_wf cs' (default [] w) ms b None Hw) as Hwa.
  destruct (ambiguous_loop cs' (default [] w) ms b None) as [ret2 cs2]. simpl in Hwa.
  destruct (ret2 =? 1); [eexists; split; [done|by left]|].
  destruct (ret2 =? 2); [eexists; split; [done|by right]|]. by apply IH.
Qed.
End Total.

(** ** Sorting *)

Lemma insert_by_perm {A} (key : A -> list Z) x l : insert_by key x l ≡ₚ x :: l.
Proof.
  induction l as [|y l IH]; simpl; [done|]. case_match; [done|]. rewrite IH. apply Permutation_swap.
Qed.
Lemma sort_by_perm {A} (key : A -> list Z) l : sort_by key l ≡ₚ l.
Proof. induction l as [|x l IH]; simpl; [done|]. by rewrite insert_by_perm, IH. Qed.

Lemma str_leb_total a b : str_leb a b = true \/ str_leb b a = true.
Proof.
  revert b. induction a as [|x a IH]; intros [|y b]; simpl; auto.
  destruct (x <? y) eqn:E1; auto. destruct (y <? x) eqn:E2; auto.
Qed.
Lemma str_leb_trans a b c : str_leb a b = true -> str_leb b c = true -> str_leb a c = true.
Proof.
  revert b c. induction a as [|x a IH]; intros [|y b] [|z c]; simpl; try done.
  destruct (x <? y) eqn:E1, (y <? z) eqn:E2; btest;
    repeat match goal with |- context [?u <? ?v] => destruct (u <? v) eqn:?; btest end; try done; try lia;
    intros H1 H2; try done; try lia. by eapply IH.
Qed.

Definition sorted_strings (l : list (list Z)) : Prop :=
  forall i j a b, (i < j)%nat -> l !! i = Some a -> l !! j = Some b -> str_leb a b = true.
Lemma sorted_strings_cons x l :
  (forall y, y ∈ l -> str_leb x y = true) -> sorted_strings l -> sorted_strings (x :: l).
Proof.
  intros Hx Hl [|i] [|j] a b Hij Ha Hb; simpl in *; try lia.
  - simplify_eq. apply Hx. by eapply list_elem_of_lookup_2.
  - eapply Hl; [|done|done]. lia.
Qed.
Lemma sorted_strings_inv x l :
  sorted_strings (x :: l) -> (forall y, y ∈ l -> str_leb x y = true) /\ sorted_strings l.
Proof.
  intros H. split.
  - intros y [i Hi]%list_elem_of_lookup. apply (H 0%nat (S i)); [lia|done|done].
  - intros i j a b Hij Ha Hb. apply (H (S i) (S j)); [lia|done|done].
Qed.
Lemma sort_by_sorted l : sorted_strings (sort_by id l).
Proof.
  induction l as [|x l IH]; simpl; [by intros i j a b _ ?|].
  induction (sort_by id l) as [|y r IHr]; simpl.
  { apply sorted_strings_cons; [|done]. by intros y Hy%elem_of_nil. }
  apply sorted_strings_inv in IH as [Hy Hr]. destruct (str_leb x y) eqn:E.
  - apply sorted_strings_cons; [|by apply sorted_strings_cons]. intros z [->|Hz]%elem_of_cons; [done|].
    eapply str_leb_trans; [done|auto].
  - apply sorted_strings_cons; [|auto]. intros z Hz. rewrite insert_by_perm in Hz.
    apply elem_of_cons in Hz as [->|Hz]; [|auto]. by destruct (str_leb_total x y); [congruence|].
Qed.

(** ** The longest common beginning *)

Lemma has_prefix_app w s : has_prefix w s = true <-> exists t, s = w ++ t.
Proof.
  revert s. induction w as [|c w IH]; intros s; simpl; [split; [by exists s|done]|].
  destruct s as [|d s]; [split; [done|by intros [t ?]]|]. rewrite andb_true_iff, IH, Z.eqb_eq. split.
  - intros [-> [t ->]]. by exists t.
  - intros [t [= -> ->]]. eauto.
Qed.
Lemma common_prefix_nonneg a b : 0 <= common_prefix a b <= zlen a.
Proof.
  revert b. induction a as [|x a IH]; intros [|y b]; simpl; unfold zlen in *; simpl; try lia.
  case_match; [|lia]. specialize (IH b). lia.
Qed.
Lemma common_prefix_shared a b :
  take (Z.to_nat (common_prefix a b)) a = take (Z.to_nat (common_prefix a b)) b.
Proof.
  revert b. induction a as [|x a IH]; intros [|y b]; simpl; try done.
  destruct (x =? y) eqn:E; [|done]. btest. subst y. pose proof (common_prefix_nonneg a b).
  replace (Z.to_nat (1 + common_prefix a b)) with (S (Z.to_nat (common_prefix a b))) by lia. simpl. by rewrite IH.
Qed.
Lemma common_prefix_max p a b :
  has_prefix p a = true -> has_prefix p b = true -> zlen p <= common_prefix a b.
Proof.
  rewrite !has_prefix_app. intros [t ->] [u ->]. induction p as [|c p IH]; simpl.
  - pose proof (common_prefix_nonneg t u). unfold zlen. simpl. lia.
  - rewrite Z.eqb_refl. unfold zlen in *. simpl. lia.
Qed.

Lemma take_le_eq {A} (a b : list A) (n m : nat) : (m <= n)%nat -> take n a = take n b -> take m a = take m b.
Proof. intros Hm H. apply (f_equal (take m)) in H. by rewrite !take_take, !Nat.min_l in H by lia. Qed.

Lemma lcd_loop_spec r : forall s1 lcd,
  r <> [] ->
  let n := lcd_loop s1 r lcd in
  0 <= n /\ (0 <= lcd -> n <= lcd)
  /\ (forall s, s ∈ s1 :: r -> take (Z.to_nat n) s = take (Z.to_nat n) s1)
  /\ (forall s, s ∈ s1 :: r -> n <= zlen s)
  /\ (forall p, (forall s, s ∈ s1 :: r -> has_prefix p s = true) -> (0 <= lcd -> zlen p <= lcd) -> zlen p <= n).
Proof.
  induction r as [|s2 r IH]; intros s1 lcd Hne; [done|]. simpl.
  set (j := common_prefix s1 s2). pose proof (common_prefix_nonneg s1 s2) as Hj.
  set (l2 := if lcd <? 0 then j else if j <? lcd then j else lcd).
  assert (0 <= l2 /\ l2 <= j /\ (0 <= lcd -> l2 <= lcd)) as (L0 & L1 & L2).
  { subst l2. destruct (lcd <? 0) eqn:E; btest; [lia|]. destruct (j <? lcd) eqn:E2; btest; lia. }
  assert (take (Z.to_nat j) s1 = take (Z.to_nat j) s2) as Hsh by apply common_prefix_shared.
  assert (j <= zlen s2) as Hj2.
  { apply (f_equal length) in Hsh. rewrite !length_take in Hsh. unfold zlen, j in *. lia. }
  assert (forall p, (forall s, s ∈ s1 :: s2 :: r -> has_prefix p s = true) -> (0 <= lcd -> zlen p <= lcd) -> zlen p <= l2) as Hmax.
  { intros p Hp Hl. assert (zlen p <= j) by (apply common_prefix_max; apply Hp; rewrite !elem_of_cons; tauto).
    subst l2. destruct (lcd <? 0) eqn:E; btest; [lia|]. destruct (j <? lcd) eqn:E2; btest; lia. }
  destruct r as [|s3 r].
  - simpl. split; [done|]. split; [done|]. split; [|split; [|done]].
    + intros s Hs. eapply take_le_eq; [|instantiate (1 := Z.to_nat j)]; [lia|].
      apply elem_of_cons in Hs as [->|[->|Hs%elem_of_nil]%elem_of_cons]; done.
    + intros s [->|[->|Hs%elem_of_nil]%elem_of_cons]%elem_of_cons; lia || done.
  - destruct (IH s2 l2) as (N0 & N1 & N2 & N3 & N4); [done|]. set (n := lcd_loop s2 (s3 :: r) l2) in *.
    specialize (N1 L0). split; [done|]. split; [lia|]. split; [|split].
    + assert (take (Z.to_nat n) s2 = take (Z.to_nat n) s1) as H12.
      { eapply take_le_eq; [|symmetry; exact Hsh]. lia. }
      intros s [->|Hs]%elem_of_cons; [done|]. by rewrite (N2 s Hs).
    + intros s [->|Hs]%elem_of_cons; [lia|auto].
    + intros p Hp Hl. apply N4; [intros s Hs; apply Hp; by right|]. intros _. by apply Hmax.
Qed.

(** ** Completion *)

Lemma completions_in w ms s :
  s ∈ completions w ms <-> exists t, t ∈ mjoin (omap id ms) /\ cmd_entry_function w t = Some s.
Proof.
  unfold completions. generalize (mjoin (omap id ms)) as ts. intros ts.
  assert (forall acc, s ∈ foldl (fun v t => match cmd_entry_function w t with
      | Some s => if cmd_unique_string v s then v ++ [s] else v | None => v end) acc ts
    <-> s ∈ acc \/ exists t, t ∈ ts /\ cmd_entry_function w t = Some s) as H.
  { induction ts as [|t ts IH]; intros acc; simpl.
    - split; [by left|]. intros [?|(t & Ht & _)]; [done|by apply elem_of_nil in Ht].
    - rewrite IH. setoid_rewrite elem_of_cons. destruct (cmd_entry_function w t) as [x|] eqn:E.
      + unfold cmd_unique_string. case_bool_decide as Hin; simpl.
        * split; [naive_solver|]. intros [?|(t' & [->|Ht] & He)]; [by left| |right; eauto].
          left. congruence.
        * rewrite elem_of_app, list_elem_of_singleton. split; [naive_solver|].
          intros [?|(t' & [->|Ht] & He)]; [by left; left| |right; eauto]. left. right. congruence.
      + naive_solver. }
  rewrite H. split; [|by right]. intros [Hx|?]; [by apply elem_of_nil in Hx|done].
Qed.
Lemma completions_prefix typed ms s : s ∈ completions (Some typed) ms -> has_prefix typed s = true.
Proof.
  intros (t & _ & He)%completions_in. unfold cmd_entry_function in He. case_match; [done|].
  destruct (cmd_of t) as [d|]; simpl in He; [|done]. destruct (has_prefix typed d) eqn:E; congruence.
Qed.

Lemma completions_nodup w ms : NoDup (completions w ms).
Proof.
  unfold completions. generalize (mjoin (omap id ms)) as ts. intros ts.
  assert (forall acc, NoDup acc -> NoDup (foldl (fun v t => match cmd_entry_function w t with
      | Some s => if cmd_unique_string v s then v ++ [s] else v | None => v end) acc ts)) as H;
    [|apply H, NoDup_nil_2].
  induction ts as [|t ts IH]; intros acc Hacc; simpl; [done|]. apply IH.
  destruct (cmd_entry_function w t) as [s|]; [|done]. unfold cmd_unique_string. case_bool_decide as Hin; simpl; [done|].
  apply NoDup_app. split; [done|]. split; [|apply NoDup_singleton].
  intros x Hx Hs. apply list_elem_of_singleton in Hs. congruence.
Qed.
Lemma mjoin_omap_in {A} (ms : list (option (list A))) t :
  t ∈ mjoin (omap id ms) <-> exists ts, Some ts ∈ ms /\ t ∈ ts.
Proof.
  rewrite list_elem_of_join. setoid_rewrite list_elem_of_omap. split.
  - intros (l & Ht & x & Hx & He). simpl in He. subst x. eauto.
  - intros (ts & Hts & Ht). exists ts. split; [done|]. by exists (Some ts).
Qed.

(** What completing the word [w] with the candidates [cands] may answer. *)
Inductive completes (w : word) (cands : list (list Z)) : Z -> list (list Z) -> Prop :=
| no_candidate :
    cands = [] ->
    completes w cands (match w with None => CMD_ERR_NOTHING_TODO | Some _ => CMD_ERR_NO_MATCH end) []
| one_candidate s : cands = [s] -> completes w cands CMD_COMPLETE_FULL_MATCH [s]
| common_beginning typed p :
    w = Some typed -> has_prefix typed p = true -> zlen typed < zlen p ->
    (forall s, s ∈ cands -> has_prefix p s = true) ->
    (forall q, (forall s, s ∈ cands -> has_prefix q s = true) -> zlen q <= zlen p) ->
    (1 < length cands)%nat ->
    completes w cands CMD_COMPLETE_MATCH [p]
| all_candidates l :
    l ≡ₚ cands -> sorted_strings l -> (1 < length cands)%nat ->
    (forall typed q, w = Some typed -> (forall s, s ∈ cands -> has_prefix q s = true) -> zlen q <= zlen typed) ->
    completes w cands CMD_COMPLETE_LIST_MATCH l.

Lemma has_prefix_take n s : has_prefix (take n s) s = true.
Proof. apply has_prefix_app. exists (drop n s). by rewrite take_drop. Qed.
Lemma has_prefix_shorter p q s :
  has_prefix p s = true -> has_prefix q s = true -> zlen p <= zlen q -> has_prefix p q = true.
Proof.
  revert q s. induction p as [|c p IH]; intros [|d q] [|e s]; simpl; try done; unfold zlen; simpl; try lia.
  rewrite !andb_true_iff, !Z.eqb_eq. intros [-> Hp] [-> Hq] Hl. split; [done|]. eapply IH; [done|done|].
  unfold zlen. lia.
Qed.

Section Completion.
Context {C : Type} (inet_pton6 : list Z -> bool) (cmdvec : list (option (cmd_node C))).

Lemma completes_many w cands s s2 r :
  cands = s :: s2 :: r -> (forall typed, w = Some typed -> forall s, s ∈ cands -> has_prefix typed s = true) ->
  let lcd := cmd_lcd cands in
  match w with
  | Some typed =>
      if negb (lcd =? 0) && (zlen typed <? lcd)
      then completes w cands CMD_COMPLETE_MATCH [take (Z.to_nat lcd) s]
      else completes w cands CMD_COMPLETE_LIST_MATCH (sort_by id cands)
  | None => completes w cands CMD_COMPLETE_LIST_MATCH (sort_by id cands)
  end.
Proof.
  intros -> Hw lcd. subst lcd. change (cmd_lcd (s :: s2 :: r)) with (lcd_loop s (s2 :: r) (-1)).
  destruct (lcd_loop_spec (s2 :: r) s (-1)) as (N0 & _ & N2 & N3 & N4); [done|].
  set (n := lcd_loop s (s2 :: r) (-1)) in *. clearbody n.
  assert (zlen (take (Z.to_nat n) s) = n) as Hn.
  { specialize (N3 s ltac:(by left)). unfold zlen in *. rewrite length_take. lia. }
  destruct w as [typed|].
  2: { apply all_candidates; [apply sort_by_perm|apply sort_by_sorted|simpl; lia|done]. }
  destruct (negb (n =? 0) && (zlen typed <? n)) eqn:E.
  - apply andb_true_iff in E as [_ E]. btest. apply common_beginning with typed; [done| | | | |simpl; lia].
    + eapply has_prefix_shorter; [apply (Hw typed eq_refl s); by left|apply has_prefix_take|lia].
    + lia.
    + intros x Hx. rewrite <- (N2 x Hx). apply has_prefix_take.
    + intros q Hq. rewrite Hn. apply N4; [done|lia].
  - apply all_candidates; [apply sort_by_perm|apply sort_by_sorted|simpl; lia|].
    intros typed' q [= <-] Hq. specialize (N4 q Hq ltac:(lia)). apply andb_false_iff in E as [E|E]; btest; [|lia].
    unfold zlen in *. lia.
Qed.

(** How the words in front of the last one can keep a line from being completed. *)
Definition not_completed (vline : list word) (cs : list (option (cmd_element C))) (ret : Z) : Prop :=
  vline = [] /\ ret = CMD_ERR_NO_MATCH
  \/ vline <> [] /\ complete_loop inet_pton6 vline cs vline 0 = Some (inl ret) /\ ret = CMD_ERR_AMBIGUOUS.

Lemma complete_real_spec vline v :
  wf_node cmdvec (VtyTerm.node v) ->
  exists ret out cs, cmd_complete_command_real inet_pton6 cmdvec vline v = Some (ret, out)
  /\ cmd_node_vector cmdvec (VtyTerm.node v) = Some cs
  /\ (out = [] /\ not_completed vline cs ret \/
      exists w ms, last vline = Some w
      /\ complete_loop inet_pton6 vline cs vline 0 = Some (inr ms) /\ wf_matches ms
      /\ completes w (completions w ms) ret out).
Proof.
  intros (cs & Hcs & Hwf). unfold cmd_complete_command_real, not_completed. rewrite Hcs. simpl.
  destruct (last vline) as [w|] eqn:Hlast.
  2:{ apply last_None in Hlast as ->. by eexists _, _, cs; split; [done|]; split; [done|]; left; auto. }
  assert (vline <> []) as Hne by (by intros ->).
  destruct (complete_loop_total inet_pton6 vline cs vline 0 Hwf) as (r & Hr & Hms). rewrite Hr. simpl.
  destruct r as [ret|ms]; [by eexists _, _, cs; split; [done|]; split; [done|]; left; subst; auto|].
  assert (forall typed, w = Some typed -> forall s, s ∈ completions w ms -> has_prefix typed s = true) as Hpre
    by (intros typed ->; by apply completions_prefix).
  enough (forall x, x = match completions w ms with
            | [] => Some (match w with None => CMD_ERR_NOTHING_TODO | Some _ => CMD_ERR_NO_MATCH end, [])
            | [s] => Some (CMD_COMPLETE_FULL_MATCH, [s])
            | (s :: _) as matchvec =>
                match w with
                | Some typed => if negb (cmd_lcd matchvec =? 0) && (zlen typed <? cmd_lcd matchvec)
                                then Some (CMD_COMPLETE_MATCH, [take (Z.to_nat (cmd_lcd matchvec)) s])
                                else Some (CMD_COMPLETE_LIST_MATCH, sort_by id matchvec)
                | None => Some (CMD_COMPLETE_LIST_MATCH, sort_by id matchvec)
                end
            end -> exists ret out, x = Some (ret, out) /\ completes w (completions w ms) ret out) as Hgo.
  { destruct (Hgo _ eq_refl) as (ret & out & Hx & Hc). exists ret, out, cs. split; [exact Hx|].
    split; [done|]. right. by exists w, ms. }
  intros x ->. destruct (completions w ms) as [|s [|s2 r]] eqn:E.
  - eexists _, _. split; [done|]. by apply no_candidate.
  - eexists _, _. split; [done|]. by apply one_candidate.
  - pose proof (completes_many w (s :: s2 :: r) s s2 r eq_refl Hpre) as H. simpl in H |- *.
    destruct w as [typed|]; [case_match|]; eexists _, _; (split; [reflexivity|exact H]).
Qed.

(** The strings a completion answers come from well-formed tokens. *)
Lemma completions_bound w ms s : wf_matches ms -> s ∈ completions w ms -> s <> [] /\ zlen s <= 1000.
Proof.
  intros Hwf (t & (ts & Hts & Ht)%mjoin_omap_in & He)%completions_in.
  specialize (Hwf ts Hts). rewrite Forall_forall in Hwf. specialize (Hwf t Ht).
  unfold cmd_entry_function in He. destruct (TERMINAL_RECORD _); [done|].
  destruct t as [k c d| |]; simpl in *; try done. destruct Hwf as (Hne & Hl & _).
  destruct w as [typed|]; [destruct (has_prefix typed c); [|done]|]; by simplify_eq.
Qed.
Lemma completes_bound w cands ret out :
  completes w cands ret out -> (forall s, s ∈ cands -> s <> [] /\ zlen s <= 1000) ->
  Forall (fun s => zlen s <= 1000) out
  /\ (ret = CMD_COMPLETE_FULL_MATCH \/ ret = CMD_COMPLETE_MATCH -> exists s, out = [s]).
Proof.
  intros H Hc. destruct H as [->|s ->|typed p -> _ _ Hp _ Hl|l Hl _ _ _].
  - split; [done|]. destruct w; by intros [?|?].
  - split; [|eauto]. repeat constructor. apply Hc. by left.
  - split; [|eauto]. repeat constructor. destruct cands as [|s r]; [simpl in Hl; lia|].
    specialize (Hp s ltac:(by left)). apply has_prefix_app in Hp as [t Ht].
    destruct (Hc s ltac:(by left)) as [_ Hs]. subst s. unfold zlen in *. rewrite length_app in Hs. lia.
  - split; [|by intros [?|?]]. apply Forall_forall. intros s Hs. apply Hc. by rewrite <- Hl.
Qed.
End Completion.

(** ** Description *)

Section Description.
Context {C : Type} (inet_pton6 : list Z -> bool) (cmdvec : list (option (cmd_node C))).

Lemma token_cr_wf : wf_term token_cr.
Proof. split; [done|]. split; [vm_compute; congruence|]. intros x [= <-]. vm_compute. congruence. Qed.
Lemma sort_tokens_wf ts : Forall wf_term ts -> Forall wf_term (sort_tokens ts).
Proof. unfold sort_tokens. by rewrite sort_by_perm. Qed.
Lemma wf_matches_join ms : wf_matches ms -> Forall wf_term (mjoin (omap id ms)).
Proof.
  intros H. apply Forall_forall. intros t (ts & Hts & Ht)%mjoin_omap_in.
  specialize (H ts Hts). by eapply Forall_forall in H.
Qed.

Lemma describe_element_total (e : cmd_element C) ts vline w m mv :
  wf_element e -> (forall l, ts = Some l -> Forall wf_term l) -> Forall wf_term mv ->
  exists mv', describe_element inet_pton6 e ts vline w m mv = Some mv' /\ Forall wf_term mv'.
Proof.
  intros He Hts Hmv. unfold describe_element.
  assert (exists mv1, (if is_empty w then
       c ← cmd_is_complete inet_pton6 e (vunset vline (length vline - 1));
       Some (if c && desc_unique_string mv command_cr && negb (bool_decide (m = vararg_match))
             then mv ++ [token_cr] else mv)
     else Some mv) = Some mv1 /\ Forall wf_term mv1) as (mv1 & -> & H1).
  { destruct (is_empty w); [|eauto].
    destruct (is_complete_total inet_pton6 e (vunset vline (length vline - 1)) He) as [c ->]. simpl.
    eexists. split; [done|]. case_match; [|done]. apply Forall_app. split; [done|]. repeat constructor; apply token_cr_wf. }
  simpl. eexists. split; [done|]. assert (Forall wf_term (default [] ts)) as Hd.
  { destruct ts as [l|]; [by apply Hts|constructor]. }
  clear Hts Hmv. revert mv1 H1. induction Hd as [|t l Ht Hl IH]; intros mv1 H1; simpl; [done|]. apply IH.
  destruct (cmd_entry_function_desc inet_pton6 w t); [|done]. case_match; [|done].
  apply Forall_app. split; [done|]. by repeat constructor.
Qed.
Lemma describe_elements_total cs : forall ms vline w m found mv,
  wf_cmds (C := C) cs -> wf_matches ms -> Forall wf_term mv ->
  exists found' mv', describe_elements inet_pton6 cs ms vline w m found mv = Some (found', mv') /\ Forall wf_term mv'.
Proof.
  induction cs as [|c cs IH]; intros ms vline w m found mv Hcs Hms Hmv; [eauto|].
  apply wf_cmds_cons in Hcs as [Hc Hcs]. destruct ms as [|ts ms]; [destruct c; simpl; eauto|].
  apply wf_matches_cons in Hms as [Hts Hms]. destruct c as [e|]; simpl; [|by apply IH].
  destruct (describe_element_total e ts vline w m mv (Hc e eq_refl) Hts Hmv) as (mv1 & -> & H1). simpl. by apply IH.
Qed.

Lemma describe_real_total vline v :
  wf_node cmdvec (VtyTerm.node v) ->
  exists ret ts, cmd_describe_command_real inet_pton6 cmdvec vline v = Some (ret, ts) /\ Forall wf_term ts
  /\ (ret = CMD_SUCCESS \/ ret = CMD_ERR_AMBIGUOUS \/ ret = CMD_ERR_NO_MATCH).
Proof.
  intros (cs & Hcs & Hwf). unfold cmd_describe_command_real.
  destruct (last vline) as [w|] eqn:Hlast; [|eexists _, _; split; [done|]; auto]. rewrite Hcs. simpl.
  destruct (describe_loop_total inet_pton6 vline cs vline 0) as (d & -> & Hd); [by intros ->|done|]. simpl.
  destruct d as [ret|ms|cs' ms m].
  - eexists _, _. split; [done|]. split; [done|]. tauto.
  - eexists _, _. split; [done|]. split; [|by left]. apply sort_tokens_wf, Forall_app.
    split; [by apply wf_matches_join|]. repeat constructor; apply token_cr_wf.
  - destruct Hd as [Hw Hm].
    destruct (describe_elements_total cs' ms vline w m 0 [] Hw Hm) as (found & mv & -> & Hmv); [constructor|]. simpl.
    assert (Forall wf_term (if (found =? 0) && is_empty w then mv ++ [token_cr] else mv)) as H2.
    { case_match; [|done]. apply Forall_app. split; [done|]. repeat constructor; apply token_cr_wf. }
    destruct (if (found =? 0) && is_empty w then mv ++ [token_cr] else mv) as [|t r] eqn:E;
      eexists _, _; (split; [done|]); (split; [|auto]); [constructor|by apply sort_tokens_wf].
Qed.
End Description.

(** ** The property *)

Definition complete_node : list (option (cmd_node nat)) :=
  [Some (Node 0 [] ((fun s => Some (Element 0 [] [] [TERMINAL TERMINAL_LITERAL (str s) None] 0 0 0%nat))
                    <$> ["show"; "shell"; "shell"; "shelf"; "exit"]%string))].
Definition complete_session : VtyTerm.vty := VtyTerm.Vty [] 0 0 0 0 [] 0 0 0 [] 0 0 0 0 0 [] 0 0 0 [].
