(* ===== verification/VtyDispatch.v ===== *)
(** * Commands made of words: the interpreter against a reference dispatch

    For commands whose tokens are literal words, choosing a command comes down to a short
    definition: every word typed must begin the word of the command at its place, a word typed in
    full wins over longer ones, and an abbreviation must stand for one word only. The token
    matchers, the filter with its best match and the check for ambiguities compute the same. *)

From S2P Require Import Prelude CString Utils Vector VtyTerm VtyWord VtyCmd VtyExec VtyExecSpec.
From stdpp Require Import base tactics numbers sets list strings.
From Stdlib Require Import ZArith Lia.
Import Utils Vector VtyWord VtyCmd VtyExec.
Open Scope Z_scope.

(** ** The reference *)

Section Reference.
Context {C : Type}.
Notation element := (cmd_element C).

(** The [k]th word of a command. *)
Definition text (e : element) (k : nat) : option (list Z) := el_tokens e !! k ≫= cmd_of.
Definition begins_with (w : list Z) (o : option (list Z)) : bool :=
  match o with Some s => has_prefix w s | None => false end.

(** The commands left behind the words from place [k] on. *)
Fixpoint dispatch_words (k : nat) (ws : list (list Z)) (cmds : list element) : Z + list element :=
  match ws with
  | [] => inr cmds
  | w :: r =>
      let named := filter (fun e => text e k = Some w) cmds in
      let begun := filter (fun e => begins_with w (text e k) = true) cmds in
      if bool_decide (named <> []) then dispatch_words (S k) r named
      else
        match begun with
        | [] => dispatch_words (S k) r []
        | e :: _ =>
            if bool_decide (Forall (fun e' => text e' k = text e k) begun)
            then dispatch_words (S k) r begun else inl CMD_ERR_AMBIGUOUS
        end
  end.

(** One command must have as many words as were typed. *)
Definition dispatch (ws : list (list Z)) (cmds : list element) : Z + element * list word :=
  match dispatch_words 0 ws cmds with
  | inl ret => inl ret
  | inr left_ =>
      match filter (fun e => length (el_tokens e) = length ws) left_ with
      | [] => inl (if bool_decide (left_ = []) then CMD_ERR_NO_MATCH else CMD_ERR_INCOMPLETE)
      | [e] => if el_daemon e =? 0 then inr (e, []) else inl CMD_SUCCESS_DAEMON
      | _ => inl CMD_ERR_AMBIGUOUS
      end
  end.

Definition literal_token (t : cmd_token) : Prop :=
  match t with TERMINAL TERMINAL_LITERAL _ _ => True | _ => False end.
Definition literal (e : element) : Prop := Forall literal_token (el_tokens e).
End Reference.

(** ** One command against the words *)

Lemma str_eq_refl s : str_eq s s = true.
Proof. unfold str_eq. by rewrite bool_decide_eq_true. Qed.
Lemma str_eq_sym' a b : str_eq a b = str_eq b a.
Proof. unfold str_eq. by apply bool_decide_ext. Qed.
Lemma has_prefix_refl s : has_prefix s s = true.
Proof. apply has_prefix_app. exists []. by rewrite app_nil_r. Qed.

(** The match of the word [w] with a literal. *)
Definition word_type (w : list Z) (t : cmd_token) : match_type :=
  if has_prefix w (default [] (cmd_of t))
  then if str_eq (default [] (cmd_of t)) w then exact_match else partly_match
  else no_match.
Lemma word_type_no w t : word_type w t = no_match <-> has_prefix w (default [] (cmd_of t)) = false.
Proof. unfold word_type. repeat case_match; done. Qed.

(** The token at place [n], if the words up to there begin the tokens. *)
Fixpoint follows (n : nat) (ts : list cmd_token) (ws : list (list Z)) {struct ts} : option cmd_token :=
  match ts, ws with
  | t :: ts, w :: ws =>
      if has_prefix w (default [] (cmd_of t)) then match n with O => Some t | S n => follows n ts ws end
      else None
  | _, _ => None
  end.
(** All tokens have their word. *)
Fixpoint covers (ts : list cmd_token) (ws : list (list Z)) : bool :=
  match ts, ws with
  | [], _ => true
  | _ :: _, [] => false
  | t :: ts, w :: ws => has_prefix w (default [] (cmd_of t)) && covers ts ws
  end.

Section Literals.
Context (inet_pton6 : list Z -> bool).

(** A matcher behind the words [pre]. *)
Definition behind (pre ws : list (list Z)) (idx : Z) (mt : option match_type)
    (mm : option (option (list cmd_token))) : cmd_matcher :=
  Matcher FILTER_RELAXED (Some <$> pre ++ ws) idx mt mm (Z.of_nat (length pre)).

Lemma behind_words_left pre ws idx mt mm :
  cmd_matcher_words_left (behind pre ws idx mt mm) = bool_decide (ws <> []).
Proof.
  unfold cmd_matcher_words_left, vector_active, behind. simpl. rewrite length_fmap, length_app.
  case_bool_decide as H; [apply Z.ltb_lt|apply Z.ltb_ge]; destruct ws; simpl; try done; try lia.
Qed.
Lemma behind_get_word pre w ws idx mt mm : cmd_matcher_get_word (behind pre (w :: ws) idx mt mm) = Some w.
Proof.
  unfold cmd_matcher_get_word, behind. simpl. unfold vlookup. rewrite list_lookup_fmap, lookup_app_r by lia.
  by rewrite Nat2Z.id, Nat.sub_diag.
Qed.

(** One turn of [element_loop] on a literal. *)
Lemma literal_turn t ts pre w ws idx mt mm a :
  literal_token t -> w <> [] ->
  element_loop inet_pton6 (t :: ts) (behind pre (w :: ws) idx mt mm) a
  = if has_prefix w (default [] (cmd_of t))
    then
      if idx =? Z.of_nat (length pre)
      then Some (Some MATCHER_OK,
                 Matcher FILTER_RELAXED (Some <$> pre ++ w :: ws) idx
                   (old ← mt; Some (if match_value old <? match_value (word_type w t) then word_type w t else old))
                   (v ← mm; Some (Some (default [] v ++ [t]))) (Z.of_nat (length pre) + 1), a)
      else if idx <? Z.of_nat (length pre) + 1
      then Some (Some MATCHER_OK, behind (pre ++ [w]) ws idx mt mm, a)
      else element_loop inet_pton6 ts (behind (pre ++ [w]) ws idx mt mm) a
    else Some (Some MATCHER_NO_MATCH, behind pre (w :: ws) idx mt mm, a).
Proof.
  intros Ht Hw. destruct t as [[] c d| |]; try done.
  assert (token_match inet_pton6 (TERMINAL TERMINAL_LITERAL c d) FILTER_RELAXED (Some w)
          = word_type w (TERMINAL TERMINAL_LITERAL c d)) as Htm.
  { unfold token_match, word_type. simpl. by destruct w. }
  cbn [element_loop]. unfold cmd_matcher_match_terminal. rewrite behind_words_left, behind_get_word.
  rewrite bool_decide_eq_true_2 by done. cbn [negb]. cbv iota.
  change (m_filter (behind pre (w :: ws) idx mt mm)) with FILTER_RELAXED. rewrite Htm. cbn [cmd_of default].
  destruct (has_prefix w c) eqn:E.
  2: { rewrite bool_decide_eq_true_2 by (by rewrite word_type_no). simpl. by rewrite E. }
  rewrite bool_decide_eq_false_2 by (rewrite word_type_no; simpl; congruence). simpl. rewrite E.
  unfold cmd_matcher_record_match. simpl. rewrite Z.eqb_sym. destruct (idx =? Z.of_nat (length pre)) eqn:E2; btest; simpl.
  - assert ((idx <? Z.of_nat (length pre) + 1) = true) as -> by (apply Z.ltb_lt; lia). done.
  - unfold behind, set_word_index. simpl. rewrite <- app_assoc, length_app. simpl.
    by replace (Z.of_nat (length pre + 1)) with (Z.of_nat (length pre) + 1) by lia.
Qed.
Lemma literal_turn_end t ts pre idx mt mm a :
  literal_token t ->
  element_loop inet_pton6 (t :: ts) (behind pre [] idx mt mm) a
  = Some (Some MATCHER_INCOMPLETE, behind pre [] idx mt mm, a).
Proof.
  intros Ht. destruct t as [[] c d| |]; try done. simpl. unfold cmd_matcher_match_terminal.
  by rewrite behind_words_left.
Qed.

(** Up to the word at place [n]. *)
Lemma literal_loop_index n : forall ts pre ws idx mt mm a,
  Forall literal_token ts -> Forall (fun w => w <> []) ws -> idx = Z.of_nat (length pre + n) ->
  match follows n ts ws with
  | Some t => exists w m, ws !! n = Some w
     /\ element_loop inet_pton6 ts (behind pre ws idx mt mm) a = Some (Some MATCHER_OK, m, a)
     /\ m_match_type m = (old ← mt; Some (if match_value old <? match_value (word_type w t) then word_type w t else old))
     /\ m_match m = (v ← mm; Some (Some (default [] v ++ [t])))
  | None => exists ret m, element_loop inet_pton6 ts (behind pre ws idx mt mm) a = Some (ret, m, a)
     /\ m_match m = mm
     /\ (ret = Some MATCHER_INCOMPLETE \/ ret = Some MATCHER_NO_MATCH \/
         ret = None /\ (length ts <= n \/ length ws <= n)%nat /\ word_index m = Z.of_nat (length pre + length ts)
         /\ (length ts <= length ws)%nat)
  end.
Proof.
  induction n as [|n IH]; intros [|t ts] pre ws idx mt mm a Hts Hws Hidx.
  1, 3: simpl; eexists _, _; split_and!; try done; right; right; simpl; split_and!; [done|lia|lia|lia].
  all: apply Forall_cons in Hts as [Ht Hts]; destruct ws as [|w ws];
    [simpl follows; rewrite literal_turn_end by done; eexists _, _; split_and!; try done; by left|].
  all: apply Forall_cons in Hws as [Hw Hws]; rewrite literal_turn by done; simpl follows;
    destruct (has_prefix w (default [] (cmd_of t))) eqn:E; [|eexists _, _; split_and!; try done; right; by left].
  - assert ((idx =? Z.of_nat (length pre)) = true) as -> by (apply Z.eqb_eq; lia).
    by eexists w, _.
  - assert ((idx =? Z.of_nat (length pre)) = false) as -> by (apply Z.eqb_neq; lia).
    assert ((idx <? Z.of_nat (length pre) + 1) = false) as -> by (apply Z.ltb_ge; lia).
    specialize (IH ts (pre ++ [w]) ws idx mt mm a Hts Hws). rewrite length_app in IH. simpl in IH.
    specialize (IH ltac:(lia)). destruct (follows n ts ws) as [t'|]; [done|].
    destruct IH as (ret & m & He & Hm & Hr). exists ret, m. split_and!; try done.
    destruct Hr as [?|[?|(? & ? & ? & ?)]]; [auto|auto|]. right; right. simpl. split_and!; [done|lia|lia|lia].
Qed.

(** Through all the words. *)
Lemma literal_loop_all ts : forall pre ws idx mt mm a,
  Forall literal_token ts -> Forall (fun w => w <> []) ws -> Z.of_nat (length pre + length ws) <= idx ->
  exists ret m, element_loop inet_pton6 ts (behind pre ws idx mt mm) a = Some (ret, m, a)
  /\ if covers ts ws then ret = None /\ word_index m = Z.of_nat (length pre + length ts) /\ (length ts <= length ws)%nat
     else ret = Some MATCHER_INCOMPLETE \/ ret = Some MATCHER_NO_MATCH.
Proof.
  induction ts as [|t ts IH]; intros pre ws idx mt mm a Hts Hws Hidx.
  { eexists _, _. split; [done|]. simpl. split_and!; [done|lia|lia]. }
  apply Forall_cons in Hts as [Ht Hts]. destruct ws as [|w ws].
  { rewrite literal_turn_end by done. eexists _, _. split; [done|]. by left. }
  apply Forall_cons in Hws as [Hw Hws]. rewrite literal_turn by done. simpl covers.
  destruct (has_prefix w (default [] (cmd_of t))) eqn:E; [|eexists _, _; split; [done|]; by right].
  simpl in Hidx. assert ((idx =? Z.of_nat (length pre)) = false) as -> by (apply Z.eqb_neq; lia).
  assert ((idx <? Z.of_nat (length pre) + 1) = false) as -> by (apply Z.ltb_ge; lia).
  specialize (IH (pre ++ [w]) ws idx mt mm a Hts Hws). rewrite length_app in IH. simpl in IH.
  destruct IH as (ret & m & He & Hr); [lia|]. exists ret, m. split; [done|]. simpl.
  destruct (covers ts ws); [|done]. destruct Hr as (? & ? & ?). split_and!; [done|lia|lia].
Qed.

Lemma follows_prefix n ts ws t w :
  follows n ts ws = Some t -> ws !! n = Some w -> has_prefix w (default [] (cmd_of t)) = true /\ ts !! n = Some t.
Proof.
  revert ts ws. induction n as [|n IH]; intros [|t' ts] [|w' ws]; simpl; try done; case_match; try done.
  - by intros [= ->] [= ->].
  - apply IH.
Qed.
Lemma follows_next n ts ws w :
  match n with O => True | S j => is_Some (follows j ts ws) end -> ws !! n = Some w ->
  follows n ts ws = (t ← ts !! n; if has_prefix w (default [] (cmd_of t)) then Some t else None).
Proof.
  revert ts ws. induction n as [|n IH]; intros [|t ts] [|w' ws]; simpl; try done.
  - by intros _ [= ->].
  - destruct n as [|n]; simpl in *.
    + destruct (has_prefix w' _); [|by intros [? ?]]. intros _ Hw. by apply (IH ts ws).
    + destruct (has_prefix w' _); [|by intros [? ?]]. intros Hs Hw. by apply IH.
Qed.
Lemma follows_covers n ts ws :
  match n with O => True | S j => is_Some (follows j ts ws) end -> length ws = n -> length ts = n -> covers ts ws = true.
Proof.
  revert ts ws. induction n as [|n IH]; intros [|t ts] [|w ws] Hs Hl Hl2; simpl in *; try done; try lia.
  destruct (has_prefix w (default [] (cmd_of t))); [|by destruct Hs]. simpl. apply IH; [|lia|lia]. by destruct n.
Qed.

Definition init_behind ws idx (wt wm : bool) :
  cmd_matcher_init FILTER_RELAXED (Some <$> ws) idx wt wm
  = behind [] ws idx (if wt then Some no_match else None) (if wm then Some None else None) := eq_refl.

Lemma words_nonempty (ws : list (list Z)) k w :
  Forall (fun w => w <> []) ws -> ws !! k = Some w -> is_empty (vlookup (Some <$> ws) k) = false.
Proof.
  intros Hws Hk. unfold vlookup. rewrite list_lookup_fmap, Hk. simpl.
  assert (w <> []) by (by eapply Forall_lookup_1 in Hws). by destruct w.
Qed.

Lemma literal_match ts ws k :
  Forall literal_token ts -> Forall (fun w => w <> []) ws -> (k < length ws)%nat ->
  match follows k ts ws with
  | Some t => exists w, ws !! k = Some w
      /\ cmd_element_match inet_pton6 ts FILTER_RELAXED (Some <$> ws) (Z.of_nat k) true true None
         = Some (MATCHER_OK, Some (word_type w t), Some (Some [t]), None)
  | None => exists rv mt,
      cmd_element_match inet_pton6 ts FILTER_RELAXED (Some <$> ws) (Z.of_nat k) true true None
      = Some (rv, mt, Some None, None) /\ (rv = MATCHER_INCOMPLETE \/ rv = MATCHER_NO_MATCH)
  end.
Proof.
  intros Hts Hws Hk. unfold cmd_element_match. rewrite init_behind.
  match goal with |- context [(fun _ => []) <$> ?a] => change ((fun _ => []) <$> a) with (None : args) end.
  pose proof (literal_loop_index k ts [] ws (Z.of_nat k) (Some no_match) (Some None) None Hts Hws eq_refl) as H.
  destruct (follows k ts ws) as [t|] eqn:Ef.
  - destruct H as (w & m & Hw & -> & Ht & Hm). exists w. split; [done|]. simpl. rewrite Ht, Hm. simpl.
    destruct (follows_prefix _ _ _ _ _ Ef Hw) as [Hp _]. unfold word_type. rewrite Hp. by destruct (str_eq _ w).
  - destruct H as (ret & m & -> & Hm & Hr). simpl. eexists _, _. rewrite Hm. split; [done|].
    destruct Hr as [->|[->|(-> & Hn & Hw & Hl)]]; [by left|by right|]. right.
    unfold vector_active. rewrite length_fmap, Hw. simpl.
    assert ((Z.of_nat (length ws) <=? Z.of_nat (length ts)) = false) as -> by (apply Z.leb_gt; lia).
    destruct (lookup_lt_is_Some_2 ws (length ts)) as [w Hlk]; [lia|].
    rewrite Nat2Z.id, (words_nonempty ws _ w) by done. by rewrite andb_false_r.
Qed.

Lemma literal_match_all ts ws a :
  Forall literal_token ts -> Forall (fun w => w <> []) ws -> Z.of_nat (length ws) <= UINT_MAX ->
  exists rv mt ms, cmd_element_match inet_pton6 ts FILTER_RELAXED (Some <$> ws) UINT_MAX false false a
    = Some (rv, mt, ms, (fun _ => []) <$> a)
  /\ (rv = MATCHER_COMPLETE <-> covers ts ws = true /\ length ts = length ws).
Proof.
  intros Hts Hws Hl. unfold cmd_element_match. rewrite init_behind.
  destruct (literal_loop_all ts [] ws UINT_MAX None None ((fun _ => []) <$> a) Hts Hws) as (ret & m & -> & Hr); [simpl; lia|].
  simpl. eexists _, _, _. split; [done|]. unfold vector_active. rewrite length_fmap.
  destruct (covers ts ws).
  - destruct Hr as (-> & -> & Hle). simpl. destruct (Z.of_nat (length ws) <=? Z.of_nat (length ts)) eqn:E; btest.
    { split; [|done]. intros _. split; [done|lia]. }
    destruct (lookup_lt_is_Some_2 ws (length ts)) as [w Hlk]; [lia|].
    rewrite Nat2Z.id, (words_nonempty ws _ w) by done. rewrite andb_false_r. split; [done|]. intros [_ ?]. lia.
  - destruct Hr as [->| ->]; split; by try intros [? _].
Qed.

(** ** The filter and the check for ambiguities *)

Context {C : Type}.
Notation element := (cmd_element C).
Implicit Types (e : element) (cs : list (option element)).

Section Place.
Variables (ws : list (list Z)) (k : nat) (w : list Z).
Hypothesis (Hws : Forall (fun w => w <> []) ws) (Hw : ws !! k = Some w).

Definition at_place (c : option element) : option cmd_token := c ≫= fun e => follows k (el_tokens e) ws.
Definition kept (c : option element) : option element := c ≫= fun e => (fun _ => e) <$> follows k (el_tokens e) ws.
Definition best_step (best mt : match_type) : match_type :=
  if match_value best <? match_value mt then mt else best.

Lemma literal_filter cs : forall best,
  (forall e, Some e ∈ cs -> literal e) ->
  filter_loop inet_pton6 cs FILTER_RELAXED (Some <$> ws) (Z.of_nat k) best
  = Some (CMD_SUCCESS, kept <$> cs, foldl best_step best (word_type w <$> omap at_place cs),
          (fun c => (fun t => [t]) <$> at_place c) <$> cs).
Proof.
  induction cs as [|c cs IH]; intros best Hlit; [done|].
  assert (forall e, Some e ∈ cs -> literal e) as Hlit' by (intros e He; apply Hlit; by right).
  destruct c as [e|]; simpl; [|by rewrite IH].
  pose proof (literal_match (el_tokens e) ws k (Hlit e ltac:(by left)) Hws (lookup_lt_Some _ _ _ Hw)) as H.
  unfold at_place at 1 3, kept at 1. simpl. destruct (follows k (el_tokens e) ws) as [t|].
  - destruct H as (w' & Hw' & ->). rewrite Hw in Hw'. simplify_eq. simpl. rewrite IH by done. done.
  - destruct H as (rv & mt & -> & Hrv). simpl.
    assert (MATCHER_ERROR rv = true /\ rv <> MATCHER_AMBIGUOUS /\ rv <> MATCHER_EXCEED_ARGC_MAX) as (-> & H1 & H2)
      by (by destruct Hrv as [->| ->]).
    rewrite !bool_decide_eq_false_2 by done. by rewrite IH.
Qed.

Definition texts cs : list (list Z) := (fun t => default [] (cmd_of t)) <$> omap at_place cs.
Lemma texts_prefix cs s : s ∈ texts cs -> has_prefix w s = true.
Proof.
  intros (t & -> & (c & Hc & Ht)%list_elem_of_omap)%list_elem_of_fmap.
  destruct c as [e|]; simpl in Ht; [|done]. by eapply follows_prefix.
Qed.

(** The best match. *)
Lemma best_exact l best :
  best ∈ [no_match; partly_match; exact_match] -> Forall (fun m => m = partly_match \/ m = exact_match) l ->
  foldl best_step best l = if bool_decide (exact_match ∈ best :: l) then exact_match
                           else if bool_decide (partly_match ∈ best :: l) then partly_match else no_match.
Proof.
  revert best. induction l as [|m l IH]; intros best Hb Hl; simpl.
  - by repeat (apply elem_of_cons in Hb as [->|Hb]); [..|by apply elem_of_nil in Hb].
  - apply Forall_cons in Hl as [Hm Hl].
    rewrite IH; [|by repeat (apply elem_of_cons in Hb as [->|Hb]); destruct Hm as [->| ->]; set_solver|done].
    repeat (apply elem_of_cons in Hb as [->|Hb]); [..|by apply elem_of_nil in Hb]; destruct Hm as [->| ->];
      unfold best_step; simpl; repeat case_bool_decide; try done; set_solver.
Qed.
Lemma word_type_text c t :
  at_place c = Some t ->
  word_type w t = if str_eq (default [] (cmd_of t)) w then exact_match else partly_match.
Proof.
  intros Ht. unfold word_type. destruct c as [e|]; simpl in Ht; [|done].
  by destruct (follows_prefix _ _ _ _ _ Ht Hw) as [-> _].
Qed.
Lemma best_texts cs :
  foldl best_step no_match (word_type w <$> omap at_place cs)
  = if bool_decide (w ∈ texts cs) then exact_match else if bool_decide (texts cs <> []) then partly_match else no_match.
Proof.
  assert (forall t, t ∈ omap at_place cs -> exists c, at_place c = Some t) as Hex.
  { intros t (c & _ & Ht)%list_elem_of_omap. eauto. }
  rewrite best_exact; [|set_solver|].
  2: { apply Forall_fmap, Forall_forall. intros t [c Ht]%Hex. simpl. rewrite (word_type_text c t Ht).
       case_match; auto. }
  assert (exact_match ∈ no_match :: (word_type w <$> omap at_place cs) <-> w ∈ texts cs) as He.
  { unfold texts. rewrite elem_of_cons, !list_elem_of_fmap. split.
    - intros [?|(t & Ht & Hin)]; [done|]. exists t. split; [|done]. destruct (Hex t Hin) as [c Hc].
      rewrite (word_type_text c t Hc) in Ht. unfold str_eq in Ht. by case_bool_decide.
    - intros (t & Hwt & Hin). right. exists t. split; [|done]. destruct (Hex t Hin) as [c Hc].
      by rewrite (word_type_text c t Hc), <- Hwt, str_eq_refl. }
  rewrite (bool_decide_ext _ _ He). case_bool_decide as H1; [done|].
  assert (partly_match ∈ no_match :: (word_type w <$> omap at_place cs) <-> texts cs <> []) as Hp.
  { unfold texts in *. destruct (omap at_place cs) as [|t ts] eqn:Eo; [simpl; set_solver|].
    split; [done|]. intros _. destruct (Hex t ltac:(by left)) as [c Hc].
    apply elem_of_cons. right. apply elem_of_cons. left.
    rewrite (word_type_text c t Hc). case_match eqn:E; [|done]. exfalso. apply H1. simpl. unfold str_eq in E.
    apply bool_decide_eq_true in E. rewrite E. by left. }
  by rewrite (bool_decide_ext _ _ Hp).
Qed.

Notation records cs := ((fun c => (fun t => [t]) <$> at_place c) <$> cs).
Definition named_at (c : option element) : option element :=
  c ≫= fun e => t ← follows k (el_tokens e) ws; if str_eq w (default [] (cmd_of t)) then Some e else None.

Lemma kept_none c : at_place c = None -> kept c = None.
Proof. destruct c as [e|]; [|done]. unfold at_place, kept. simpl. by intros ->. Qed.
Lemma kept_some c t : at_place c = Some t -> kept c = c.
Proof. destruct c as [e|]; [|done]. unfold at_place, kept. simpl. by intros ->. Qed.
Lemma literal_at c t : (forall e, c = Some e -> literal e) -> at_place c = Some t ->
  exists s d, t = TERMINAL TERMINAL_LITERAL s d /\ has_prefix w s = true.
Proof.
  destruct c as [e|]; [|done]. intros Hl Ht. simpl in Ht. destruct (follows_prefix _ _ _ _ _ Ht Hw) as [Hp Hlk].
  specialize (Hl e eq_refl). eapply Forall_lookup_1 in Hl; [|done]. destruct t as [[] s d| |]; try done. eauto.
Qed.

Lemma ambiguous_exact cs : (forall e, Some e ∈ cs -> literal e) ->
  ambiguous_loop (kept <$> cs) w (records cs) exact_match None = (0, named_at <$> cs).
Proof.
  induction cs as [|c cs IH]; intros Hl; [done|]. rewrite !fmap_cons. simpl.
  assert (forall e, Some e ∈ cs -> literal e) as Hl' by (intros e He; apply Hl; by right).
  destruct (at_place c) as [t|] eqn:Et; simpl.
  - destruct (literal_at c t) as (s & d & -> & Hp); [|done|]; [intros e ->; apply Hl; by left|]. simpl.
    rewrite (IH Hl'), (kept_some c _ Et). destruct c as [e|]; [|done]. unfold named_at at 2. simpl in *. rewrite Et. simpl.
    rewrite str_eq_sym'. by destruct (str_eq _ _).
  - rewrite (IH Hl'), (kept_none c Et). destruct c as [e|]; [|done]. unfold named_at at 2. simpl in *. by rewrite Et.
Qed.
Definition same_text (matched : option (list Z)) (l : list (list Z)) : Prop :=
  match matched with Some x => Forall (eq x) l | None => forall a b, a ∈ l -> b ∈ l -> a = b end.
Lemma same_text_cons matched s l :
  same_text matched (s :: l) <-> (match matched with Some x => x = s | None => True end) /\ same_text (Some s) l.
Proof.
  destruct matched as [x|]; simpl.
  - rewrite Forall_cons. split; [intros [-> ?]|intros [-> ?]]; done.
  - rewrite Forall_forall. split.
    + intros H. split; [done|]. intros b Hb. apply H; set_solver.
    + intros [_ H] a b Ha Hb. apply elem_of_cons in Ha as [->|Ha], Hb as [->|Hb]; auto; [symmetry; auto|].
      rewrite <- (H a Ha). auto.
Qed.

Lemma ambiguous_partly cs : forall matched, (forall e, Some e ∈ cs -> literal e) ->
  (same_text matched (texts cs) ->
     ambiguous_loop (kept <$> cs) w (records cs) partly_match matched = (0, kept <$> cs))
  /\ (~ same_text matched (texts cs) ->
     fst (ambiguous_loop (kept <$> cs) w (records cs) partly_match matched) = 1).
Proof.
  induction cs as [|c cs IH]; intros matched Hl.
  { split; [done|]. intros []. destruct matched; simpl; [constructor|]. by intros a b Ha%elem_of_nil. }
  assert (forall e, Some e ∈ cs -> literal e) as Hl' by (intros e He; apply Hl; by right).
  unfold texts. rewrite !fmap_cons. simpl. destruct (at_place c) as [t|] eqn:Et; simpl.
  - destruct (literal_at c t) as (s & d & -> & Hp); [|done|]; [intros e ->; apply Hl; by left|]. simpl.
    rewrite Hp, same_text_cons. destruct (IH (Some s) Hl') as [IH1 IH2].
    destruct (match matched with Some x => str_eq x s | None => true end) eqn:Em; simpl.
    2: { split; [|done]. intros [Hm _]. destruct matched; [|done]. subst. by rewrite str_eq_refl in Em. }
    assert (match matched with Some x => x = s | None => True end) as Hm.
    { destruct matched; [|done]. by apply bool_decide_eq_true in Em. }
    rewrite (kept_some c _ Et) in *. split.
    + intros [_ Hs]. by rewrite IH1.
    + intros Hn. destruct (ambiguous_loop _ _ _ _ _) as [r cs2]. simpl in *. apply IH2. tauto.
  - rewrite (kept_none c Et). destruct (IH matched Hl') as [IH1 IH2]. split.
    + intros Hs. by rewrite IH1.
    + intros Hn. destruct (ambiguous_loop _ _ _ _ _) as [r cs2]. simpl in *. by apply IH2.
Qed.
Lemma ambiguous_none cs matched : texts cs = [] ->
  ambiguous_loop (kept <$> cs) w (records cs) no_match matched = (0, kept <$> cs).
Proof.
  unfold texts. induction cs as [|c cs IH]; [done|]. rewrite !fmap_cons. simpl. destruct (at_place c) eqn:E; simpl; [done|].
  intros H. by rewrite (IH H), (kept_none c E).
Qed.

(** The same on the commands that are there. *)
Definition reach (n : nat) (e : element) : Prop :=
  match n with O => True | S j => is_Some (follows j (el_tokens e) ws) end.
Definition ready (n : nat) cs : Prop := forall e, Some e ∈ cs -> literal e /\ reach n e.

Lemma ready_cons n c cs : ready n (c :: cs) <-> (forall e, c = Some e -> literal e /\ reach n e) /\ ready n cs.
Proof using Type.
  unfold ready. split.
  - intros H. split; intros e He; apply H; rewrite elem_of_cons; [left; congruence|by right].
  - intros [H1 H2] e [He|He]%elem_of_cons; auto.
Qed.

Lemma follows_text e :
  literal e -> reach k e ->
  match follows k (el_tokens e) ws with
  | Some t => text e k = cmd_of t /\ is_Some (cmd_of t) /\ begins_with w (text e k) = true
  | None => begins_with w (text e k) = false
  end.
Proof.
  intros Hl Hr. rewrite (follows_next k _ ws w Hr Hw). unfold text.
  destruct (el_tokens e !! k) as [t|] eqn:E; [|done]. simpl.
  assert (literal_token t) as Ht by (by eapply Forall_lookup_1 in Hl). destruct t as [[] s d| |]; try done. simpl.
  destruct (has_prefix w s) eqn:Ep; simpl; [|done]. by split_and!.
Qed.

Definition begun (es : list element) : list element := filter (fun e => begins_with w (text e k) = true) es.
Definition named (es : list element) : list element := filter (fun e => text e k = Some w) es.

Lemma kept_begun cs : ready k cs -> omap id (kept <$> cs) = begun (omap id cs).
Proof.
  induction cs as [|[e|] cs IH]; intros Hr; [done| |]; apply ready_cons in Hr as [He Hr]; [|by apply IH].
  destruct (He e eq_refl) as [Hl Hre]. pose proof (follows_text e Hl Hre) as H. rewrite fmap_cons. simpl.
  unfold kept at 1, begun. simpl. destruct (follows k _ ws) as [t|]; simpl.
  - rewrite filter_cons_True by tauto. f_equal. by apply IH.
  - rewrite filter_cons_False by congruence. by apply IH.
Qed.
Lemma named_named cs : ready k cs -> omap id (named_at <$> cs) = named (omap id cs).
Proof.
  induction cs as [|[e|] cs IH]; intros Hr; [done| |]; apply ready_cons in Hr as [He Hr]; [|by apply IH].
  destruct (He e eq_refl) as [Hl Hre]. pose proof (follows_text e Hl Hre) as H. rewrite fmap_cons. simpl.
  unfold named_at at 1, named. simpl. destruct (follows k _ ws) as [t|]; simpl.
  - destruct H as (Ht & [s Hs] & _). rewrite Hs in *. simpl. unfold str_eq. case_bool_decide as Hw2; simpl.
    + rewrite filter_cons_True by congruence. f_equal. by apply IH.
    + rewrite filter_cons_False by congruence. by apply IH.
  - rewrite filter_cons_False; [by apply IH|]. intros Ht. rewrite Ht in H. simpl in H.
    by rewrite has_prefix_refl in H.
Qed.
Lemma texts_begun cs : ready k cs -> Some <$> texts cs = (fun e => text e k) <$> begun (omap id cs).
Proof.
  unfold texts. induction cs as [|[e|] cs IH]; intros Hr; [done| |]; apply ready_cons in Hr as [He Hr]; [|by apply IH].
  destruct (He e eq_refl) as [Hl Hre]. pose proof (follows_text e Hl Hre) as H. simpl.
  unfold begun. destruct (follows k _ ws) as [t|]; simpl.
  - destruct H as (Ht & [s Hs] & Hb). rewrite filter_cons_True by done. simpl. rewrite Ht, Hs. simpl. f_equal.
    by apply IH.
  - rewrite filter_cons_False by congruence. by apply IH.
Qed.

Lemma ready_kept cs : ready k cs -> ready (S k) (kept <$> cs).
Proof.
  intros H e (c & Hc & Hin)%list_elem_of_fmap. destruct c as [e'|]; [|done]. unfold kept in Hc. simpl in Hc.
  destruct (follows k (el_tokens e') ws) eqn:E; simplify_eq/=. destruct (H e' Hin) as [Hl _]. split; [done|].
  simpl. by rewrite E.
Qed.
Lemma ready_named cs : ready k cs -> ready (S k) (named_at <$> cs).
Proof.
  intros H e (c & Hc & Hin)%list_elem_of_fmap. destruct c as [e'|]; [|done]. unfold named_at in Hc. simpl in Hc.
  destruct (follows k (el_tokens e') ws) eqn:E; simplify_eq/=. destruct (str_eq _ _); simplify_eq.
  destruct (H e' Hin) as [Hl _]. split; [done|]. simpl. by rewrite E.
Qed.

Lemma texts_named cs : ready k cs -> (w ∈ texts cs <-> named (omap id cs) <> []).
Proof.
  intros Hr. assert (w ∈ texts cs <-> Some w ∈ Some <$> texts cs) as ->.
  { rewrite list_elem_of_fmap. split; [by exists w|]. by intros (x & [= ->] & ?). }
  rewrite texts_begun by done. rewrite list_elem_of_fmap. split.
  - intros (e & Ht & He). unfold begun in He. apply list_elem_of_filter in He as [_ He]. intros Hn.
    assert (e ∈ named (omap id cs)) as Hin by (by apply list_elem_of_filter). rewrite Hn in Hin. by apply elem_of_nil in Hin.
  - intros Hn. destruct (named (omap id cs)) as [|e l] eqn:E; [done|].
    assert (e ∈ named (omap id cs)) as Hin by (rewrite E; by left). apply list_elem_of_filter in Hin as [Ht Hin].
    exists e. split; [done|]. apply list_elem_of_filter. split; [|done]. rewrite Ht. simpl. apply has_prefix_refl.
Qed.
Lemma texts_same cs e l : ready k cs -> begun (omap id cs) = e :: l ->
  same_text None (texts cs) <-> Forall (fun e' => text e' k = text e k) (begun (omap id cs)).
Proof.
  intros Hr Hb. pose proof (texts_begun cs Hr) as Ht. rewrite Forall_forall. simpl. split.
  - intros H e' He'. assert (forall x, x ∈ begun (omap id cs) -> exists s, text x k = Some s /\ s ∈ texts cs) as Hex.
    { intros x Hx. assert (text x k ∈ Some <$> texts cs) as Hin by (rewrite Ht; apply list_elem_of_fmap; eauto).
      apply list_elem_of_fmap in Hin as (s & ? & ?). eauto. }
    destruct (Hex e' He') as (a & -> & Ha). destruct (Hex e) as (b & -> & Hb'); [rewrite Hb; by left|]. f_equal. auto.
  - intros H. assert (forall s, s ∈ texts cs -> Some s = text e k) as Hs.
    { intros s Hs. assert (Some s ∈ Some <$> texts cs) as Hin by (apply list_elem_of_fmap; eauto). rewrite Ht in Hin.
      apply list_elem_of_fmap in Hin as (x & -> & Hx). auto. }
    intros a b Ha%Hs Hb'%Hs. congruence.
Qed.
End Place.

(** ** All the words *)

Lemma texts_empty ws k cs : Some <$> texts ws k cs = [] -> texts ws k cs = [].
Proof. by destruct (texts ws k cs). Qed.

Lemma select_literal ws' : forall ws k cs,
  Forall (fun w => w <> []) ws -> drop k ws = ws' -> ready ws k cs ->
  match dispatch_words k ws' (omap id cs) with
  | inl ret => select_loop inet_pton6 (Some <$> ws') cs FILTER_RELAXED (Some <$> ws) (Z.of_nat k) = Some (inl ret)
  | inr es => exists cs', select_loop inet_pton6 (Some <$> ws') cs FILTER_RELAXED (Some <$> ws) (Z.of_nat k) = Some (inr cs')
      /\ omap id cs' = es /\ ready ws (k + length ws') cs'
  end.
Proof.
  induction ws' as [|w ws' IH]; intros ws k cs Hws Hd Hr.
  { simpl. exists cs. by rewrite Nat.add_0_r. }
  assert (ws !! k = Some w) as Hw by (rewrite <- (Nat.add_0_r k), <- lookup_drop, Hd; done).
  assert (drop (S k) ws = ws') as Hd' by (by rewrite <- Nat.add_1_r, <- drop_drop, Hd).
  replace (k + length (w :: ws'))%nat with (S k + length ws')%nat by (simpl; lia).
  assert (forall e, Some e ∈ cs -> literal e) as Hlit by (intros e He; by apply Hr).
  rewrite fmap_cons. cbn [select_loop dispatch_words]. unfold cmd_vector_filter, is_cmd_ambiguous.
  rewrite (literal_filter ws k w) by done. cbn [mbind option_bind]. cbn [negb Z.eqb CMD_SUCCESS].
  change (default [] (Some w)) with w.
  rewrite (best_texts ws k w Hws Hw cs). change (filter _ (omap id cs)) with (named k w (omap id cs)) at 1.
  change (filter (fun e => begins_with w (text e k) = true) (omap id cs)) with (begun k w (omap id cs)).
  rewrite (bool_decide_ext _ _ (texts_named ws k w Hw cs Hr)).
  replace (Z.of_nat k + 1) with (Z.of_nat (S k)) by lia.
  destruct (decide (named k w (omap id cs) <> [])) as [Hn|Hn].
  - rewrite !(bool_decide_eq_true_2 (named k w (omap id cs) <> [])) by done.
    rewrite (bool_decide_eq_false_2 (exact_match = _)) by done. rewrite (ambiguous_exact ws k w Hw) by done. simpl.
    change (filter _ (omap id cs)) with (named k w (omap id cs)).
    rewrite <- (named_named ws k w Hw cs Hr). apply IH; [done|done|by apply ready_named].
  - rewrite !(bool_decide_eq_false_2 (named k w (omap id cs) <> [])) by done.
    pose proof (texts_begun ws k w Hw cs Hr) as Ht. destruct (begun k w (omap id cs)) as [|e l] eqn:Eb.
    + apply texts_empty in Ht. rewrite Ht. rewrite (bool_decide_eq_false_2 ([] <> [])) by (by intros []).
      rewrite (bool_decide_eq_false_2 (no_match = _)) by done. rewrite (ambiguous_none ws k w) by done. simpl.
      rewrite <- Eb, <- (kept_begun ws k w Hw cs Hr). apply IH; [done|done|by apply ready_kept].
    + rewrite (bool_decide_eq_true_2 (texts ws k cs <> [])) by (intros Hnil; by rewrite Hnil in Ht).
      rewrite (bool_decide_eq_false_2 (partly_match = _)) by done. rewrite <- Eb.
      destruct (ambiguous_partly ws k w Hws Hw cs None Hlit) as [Hsame Hdiff].
      pose proof (texts_same ws k w Hw cs e l Hr Eb) as Hiff. case_bool_decide as Hf.
      * rewrite Hsame by (by apply Hiff). simpl. rewrite <- (kept_begun ws k w Hw cs Hr).
        apply IH; [done|done|by apply ready_kept].
      * destruct (ambiguous_loop _ _ _ _ _) as [r cs2]. simpl in Hdiff. rewrite Hdiff by tauto. done.
Qed.

Lemma literal_complete ws e :
  literal e -> Forall (fun w => w <> []) ws -> Z.of_nat (length ws) <= UINT_MAX -> reach ws (length ws) e ->
  cmd_is_complete inet_pton6 e (Some <$> ws) = Some (bool_decide (length (el_tokens e) = length ws)).
Proof.
  intros Hl Hws Hn Hr. unfold cmd_is_complete.
  destruct (literal_match_all (el_tokens e) ws None Hl Hws Hn) as (rv & mt & ms & -> & Hrv). simpl. f_equal.
  apply bool_decide_ext. rewrite Hrv. split; [by intros [_ ?]|]. intros Hlen. split; [|done].
  by apply (follows_covers (length ws)).
Qed.
Lemma literal_parse ws e :
  literal e -> Forall (fun w => w <> []) ws -> Z.of_nat (length ws) <= UINT_MAX -> reach ws (length ws) e ->
  length (el_tokens e) = length ws -> cmd_parse inet_pton6 e (Some <$> ws) = Some (CMD_SUCCESS, []).
Proof.
  intros Hl Hws Hn Hr Hlen. unfold cmd_parse.
  destruct (literal_match_all (el_tokens e) ws (Some []) Hl Hws Hn) as (rv & mt & ms & -> & Hrv). simpl.
  assert (rv = MATCHER_COMPLETE) as ->; [|done]. apply Hrv. split; [|done]. by apply (follows_covers (length ws)).
Qed.

Lemma literal_count ws cs : forall me m i,
  Forall (fun w => w <> []) ws -> Z.of_nat (length ws) <= UINT_MAX -> ready ws (length ws) cs ->
  let full := filter (fun e => length (el_tokens e) = length ws) (omap id cs) in
  count_loop inet_pton6 cs (Some <$> ws) me m i
  = Some (match last full with Some e => Some e | None => me end, m + Z.of_nat (length full),
          i + Z.of_nat (length (omap id cs) - length full)).
Proof.
  intros me m i Hws Hn. revert me m i. induction cs as [|[e|] cs IH]; intros me m i Hr.
  - simpl. apply (f_equal Some), f_equal2; [apply f_equal2|]; [done|lia|lia].
  - apply ready_cons in Hr as [He Hr]. destruct (He e eq_refl) as [Hl Hre].
    change (omap id (Some e :: cs)) with (e :: omap id cs). cbn [count_loop].
    rewrite (literal_complete ws e Hl Hws Hn Hre). cbn [mbind option_bind].
    pose proof (length_filter (fun e => length (el_tokens e) = length ws) (omap id cs)) as Hle.
    destruct (decide (length (el_tokens e) = length ws)) as [Hlen|Hlen].
    + rewrite bool_decide_eq_true_2, IH by done. rewrite filter_cons_True by done. rewrite last_cons. cbn [length].
      apply (f_equal Some), f_equal2; [apply f_equal2|]; [by destruct (last _)|lia|lia].
    + rewrite bool_decide_eq_false_2, IH by done. rewrite filter_cons_False by done. cbn [length].
      apply (f_equal Some), f_equal2; [apply f_equal2|]; [done|lia|lia].
  - apply ready_cons in Hr as [_ Hr]. by apply IH.
Qed.

Lemma select_dispatch (cmdvec : list (option (cmd_node C))) ws n cs :
  cmd_node_vector cmdvec n = Some cs -> (forall e, Some e ∈ cs -> literal e) ->
  Forall (fun w => w <> []) ws -> Z.of_nat (length ws) <= UINT_MAX ->
  cmd_select inet_pton6 cmdvec (Some <$> ws) FILTER_RELAXED n = Some (dispatch ws (omap id cs)).
Proof.
  intros Hcs Hl Hws Hn. unfold cmd_select, dispatch. rewrite Hcs. simpl.
  assert (ready ws 0 cs) as Hr by (intros e He; split; [auto|done]).
  pose proof (select_literal ws ws 0 cs Hws eq_refl Hr) as H. change (Z.of_nat 0) with 0 in H.
  destruct (dispatch_words 0 ws (omap id cs)) as [ret|es]; [by rewrite H|].
  destruct H as (cs' & -> & <- & Hr'). simpl in Hr' |- *. rewrite literal_count by done. simpl.
  set (full := filter _ (omap id cs')).
  assert (forall e, e ∈ full -> literal e /\ reach ws (length ws) e /\ length (el_tokens e) = length ws) as Hfull.
  { intros e [Hlen (c & Hc & He)%list_elem_of_omap]%list_elem_of_filter. simpl in He. subst c.
    destruct (Hr' e Hc) as [? ?]. done. }
  destruct full as [|e [|e2 l]] eqn:Ef; simpl.
  - rewrite Nat.sub_0_r. destruct (omap id cs') as [|x l]; done.
  - destruct (Hfull e ltac:(by left)) as (He & Hre & Hlen). rewrite literal_parse by done. simpl.
    by destruct (el_daemon e =? 0).
  - match goal with |- context [1 <? ?x] => assert ((1 <? x) = true) as -> by (apply Z.ltb_lt; lia) end. done.
Qed.
End Literals.

Lemma execute_dispatch {C} inet_pton6 (cmdvec : list (option (cmd_node C))) run_cb l v cs :
  cmd_node_vector cmdvec (VtyTerm.node v) = Some cs -> (forall e, Some e ∈ cs -> literal e) ->
  Forall (fun w => w <> []) l -> Z.of_nat (length l) <= UINT_MAX ->
  cmd_execute_command_real inet_pton6 cmdvec run_cb (Some <$> l) FILTER_RELAXED v
  = match dispatch l (omap id cs) with
    | inl ret => Some (ret, v)
    | inr (e, argv) => run_cb (el_cb e) argv e v
    end.
Proof.
  intros Hcs Hl Hne Hlen. unfold cmd_execute_command_real. rewrite (select_dispatch inet_pton6 cmdvec l _ cs) by done.
  simpl. by destruct (dispatch l (omap id cs)) as [|[e argv]].
Qed.

(** C3. In a node whose commands are made of words, a line executes the command that the
    reference dispatch chooses: the one whose words, as many as were typed, begin with the words
    of the line, a word given in full being preferred and an abbreviation of two different words
    being ambiguous. Without such a command the line is unknown, incomplete or ambiguous and the
    session is left as it was. A first word [do] is dropped, and the node is then restored. *)
Theorem command_line_dispatch {C} inet_pton6 (cmdvec : list (option (cmd_node C))) run_cb w ws v cs :
  cmd_node_vector cmdvec (VtyTerm.node v) = Some cs -> (forall e, Some e ∈ cs -> literal e) ->
  Forall (fun w => w <> []) (w :: ws) -> Z.of_nat (length (w :: ws)) <= UINT_MAX ->
  let run l v := match dispatch l (omap id cs) with
                 | inl ret => Some (ret, v)
                 | inr (e, argv) => run_cb (el_cb e) argv e v
                 end in
  cmd_execute_command inet_pton6 cmdvec run_cb (Some <$> w :: ws) v
  = if str_eq (str "do") w
    then '(ret, v') ← run ws v; Some (ret, VtyTerm.set_node (VtyTerm.node v) v')
    else run (w :: ws) v.
Proof.
  intros Hcs Hl Hws Hn run.
  pose proof (fun l => execute_dispatch inet_pton6 cmdvec run_cb l v cs Hcs Hl) as Hrun. fold run in Hrun.
  unfold cmd_execute_command, shifted. rewrite fmap_cons. cbn [lookup list_lookup mbind option_bind tail cmd_try_do_shortcut].
  apply Forall_cons in Hws as [Hw Hws'].
  destruct (str_eq (str "do") w); [rewrite Hrun; [done|done|simpl in Hn; lia]|].
  change (Some w :: (Some <$> ws)) with (Some <$> w :: ws). apply Hrun; [by constructor|done].
Qed.

Definition word_command (l : list string) (cb : nat) : option (cmd_element nat) :=
  Some (Element 0 [] [] ((fun s => TERMINAL TERMINAL_LITERAL (str s) None) <$> l) 0 0 cb).
Definition word_node : list (option (cmd_element nat)) :=
  [word_command ["show"; "version"] 1; word_command ["show"; "vector"; "all"] 2; None;
   word_command ["exit"] 3; word_command ["ex"] 4].
Definition count_session : VtyTerm.vty :=
  VtyTerm.Vty [] 0 0 0 0 [] 0 0 0 [] 0 0 0 0 0 [] 0 0 0 [].
Lemma command_line_dispatch_witness :
  cmd_execute_command (fun _ => false) [Some (Node 0 [] word_node)]
    (fun cb argv _ v => Some (Z.of_nat cb, v)) (Some <$> [str "sh"; str "ver"]) count_session
  = Some (1, count_session).
Proof.
  rewrite (command_line_dispatch (fun _ => false) [Some (Node 0 [] word_node)]
    (fun cb argv _ v => Some (Z.of_nat cb, v)) (str "sh") [str "ver"] count_session word_node).
  - vm_compute. reflexivity.
  - reflexivity.
  - intros e He. unfold word_node, word_command in He.
    repeat (apply elem_of_cons in He as [He|He]); [..|by apply elem_of_nil in He]; simplify_eq; by repeat constructor.
  - by repeat constructor.
  - vm_compute. discriminate.
Defined.

(** The full word [ex] wins over [exit]; [show ve] stands for two words. *)
Example dispatch_exact : dispatch [str "ex"] (omap id word_node) = inr (Element 0 [] [] [TERMINAL TERMINAL_LITERAL (str "ex") None] 0 0 4%nat, []).
Proof. reflexivity. Qed.
Example dispatch_ambiguous : dispatch [str "show"; str "ve"] (omap id word_node) = inl CMD_ERR_AMBIGUOUS.
Proof. reflexivity. Qed.
Example dispatch_incomplete : dispatch [str "show"] (omap id word_node) = inl CMD_ERR_INCOMPLETE.
Proof. reflexivity. Qed.
