(* ===== verification/VtyFormat.v ===== *)
(** * The format of a command (opbox/vty.c)

    [cmd_parse_format] reads the text of a command, such as [show (ip|mac) NAME], into tokens.
    The parser appends to vectors it reaches through three pointers ([topvect], [intvect],
    [curvect]), so the vectors are in a store and the pointers are their numbers; a token refers
    to its vectors by number. [format_parser_error] only prints: [errors] collects the messages
    and the parser goes on. *)

From S2P Require Import Prelude CString Utils Vector VtyTerm VtyWord VtyCmd VtyExec.
From stdpp Require Import base tactics numbers list strings.
From Stdlib Require Import ZArith Lia.
Open Scope Z_scope.

Module VtyFormat.
Import Utils Vector VtyTerm VtyWord VtyCmd VtyExec.

(** ** The store *)

(** A token being built: [PMult] and [PKey] hold the numbers of [multiple] and [keyword]. *)
Inductive ptoken :=
| PTerm (terminal : cmd_terminal_type) (cmd : list Z) (desc : option (list Z))
| PMult (multiple : nat)
| PKey (keyword : nat).

(** [vecs]: the vectors of tokens; [kvecs]: the vectors of vectors (the field [keyword]). *)
Record format_parser_state := Fp {
  vecs : list (list ptoken);
  kvecs : list (list nat);
  topvect : nat;
  intvect : option nat;
  curvect : nat;
  cp : list Z;
  dp : option (list Z);
  in_keyword : Z;
  in_multiple : Z;
  just_read_word : Z;
  errors : list String.string
}.

Implicit Types (s : format_parser_state).
Definition set_vecs x s := Fp x (kvecs s) (topvect s) (intvect s) (curvect s) (cp s) (dp s)
  (in_keyword s) (in_multiple s) (just_read_word s) (errors s).
Definition set_kvecs x s := Fp (vecs s) x (topvect s) (intvect s) (curvect s) (cp s) (dp s)
  (in_keyword s) (in_multiple s) (just_read_word s) (errors s).
Definition set_intvect x s := Fp (vecs s) (kvecs s) (topvect s) x (curvect s) (cp s) (dp s)
  (in_keyword s) (in_multiple s) (just_read_word s) (errors s).
Definition set_curvect x s := Fp (vecs s) (kvecs s) (topvect s) (intvect s) x (cp s) (dp s)
  (in_keyword s) (in_multiple s) (just_read_word s) (errors s).
Definition set_cp x s := Fp (vecs s) (kvecs s) (topvect s) (intvect s) (curvect s) x (dp s)
  (in_keyword s) (in_multiple s) (just_read_word s) (errors s).
Definition set_dp x s := Fp (vecs s) (kvecs s) (topvect s) (intvect s) (curvect s) (cp s) x
  (in_keyword s) (in_multiple s) (just_read_word s) (errors s).
Definition set_in_keyword x s := Fp (vecs s) (kvecs s) (topvect s) (intvect s) (curvect s) (cp s) (dp s)
  x (in_multiple s) (just_read_word s) (errors s).
Definition set_in_multiple x s := Fp (vecs s) (kvecs s) (topvect s) (intvect s) (curvect s) (cp s) (dp s)
  (in_keyword s) x (just_read_word s) (errors s).
Definition set_just_read_word x s := Fp (vecs s) (kvecs s) (topvect s) (intvect s) (curvect s) (cp s) (dp s)
  (in_keyword s) (in_multiple s) x (errors s).
Definition format_parser_error s (message : String.string) : format_parser_state :=
  Fp (vecs s) (kvecs s) (topvect s) (intvect s) (curvect s) (cp s) (dp s)
    (in_keyword s) (in_multiple s) (just_read_word s) (errors s ++ [message]).
Definition error_if (b : bool) (message : String.string) s : format_parser_state :=
  if b then format_parser_error s message else s.

(** [vector_init], and [vector_set] on the vector number [v]: no token is a null pointer, so it
    appends ([vset_fmap_Some]). *)
Definition new_vec s : nat * format_parser_state := (length (vecs s), set_vecs (vecs s ++ [[]]) s).
Definition add_token (v : nat) (t : ptoken) s : format_parser_state :=
  set_vecs (alter (fun ts => ts ++ [t]) v (vecs s)) s.
Definition new_kvec (vs : list nat) s : nat * format_parser_state :=
  (length (kvecs s), set_kvecs (kvecs s ++ [vs]) s).

Definition flag (x : Z) : bool := negb (x =? 0).

(** ** The steps of the parser *)

Definition format_parser_begin_keyword s : format_parser_state :=
  let s := error_if (flag (in_keyword s) || flag (in_multiple s)) "Unexpected '{'" s in
  let s := set_in_keyword 1 (set_cp (tail (cp s)) s) in
  let '(keyword_vect, s) := new_vec s in
  let '(kv, s) := new_kvec [keyword_vect] s in
  set_curvect keyword_vect (add_token (curvect s) (PKey kv) s).

Definition format_parser_begin_multiple s : format_parser_state :=
  let s := error_if (in_keyword s =? 1) "Keyword starting with '('" s in
  let s := error_if (flag (in_multiple s)) "Nested group" s in
  let s := set_just_read_word 0 (set_in_multiple 1 (set_cp (tail (cp s)) s)) in
  let '(m, s) := new_vec s in
  let s := add_token (curvect s) (PMult m) s in
  let s := if negb (curvect s =? topvect s)%nat then set_intvect (Some (curvect s)) s else s in
  set_curvect m s.

Definition format_parser_end_keyword s : format_parser_state :=
  let s := error_if (flag (in_multiple s) || negb (flag (in_keyword s))) "Unexpected '}'" s in
  let s := error_if (in_keyword s =? 1) "Empty keyword group" s in
  set_curvect (topvect s) (set_in_keyword 0 (set_cp (tail (cp s)) s)).

Definition format_parser_desc_str s : option (list Z) * format_parser_state :=
  match dp s with
  | None => (None, s)
  | Some d =>
      match snd (span isspace d) with
      | [] => (None, s)
      | d =>
          let '(token, d) := span (fun c => negb ((c =? 13) || (c =? 10))) d in
          (Some token, set_dp (Some d) s)
      end
  end.

Definition format_parser_end_multiple s : format_parser_state :=
  let s := error_if (negb (flag (in_multiple s))) "Unexpected ')'" s in
  let s := error_if (bool_decide (default [] (vecs s !! curvect s) = [])) "Empty multiple section" s in
  let s := if negb (flag (just_read_word s)) then snd (format_parser_desc_str s) else s in
  let s := set_in_multiple 0 (set_cp (tail (cp s)) s) in
  set_curvect (match intvect s with Some v => v | None => topvect s end) s.

(** [None]: the last token of [topvect] has no vector of keywords. *)
Definition format_parser_handle_pipe s : option format_parser_state :=
  if flag (in_multiple s) then Some (set_cp (tail (cp s)) (set_just_read_word 0 s))
  else if flag (in_keyword s) then
    let s := set_cp (tail (cp s)) (set_in_keyword 1 s) in
    top ← vecs s !! topvect s;
    t ← last top;
    match t with
    | PKey kv =>
        let '(v, s) := new_vec s in
        Some (set_curvect v (set_kvecs (alter (fun vs => vs ++ [v]) kv (kvecs s)) s))
    | _ => None
    end
  else Some (format_parser_error s "Unexpected '|'").

Definition word_end (c : Z) : bool := elem c (13 :: 10 :: str "(){}|") || isspace c.
Definition terminal_kind (cmd : list Z) : cmd_terminal_type :=
  if str_eq cmd (str "A.B.C.D") then TERMINAL_IPV4
  else if str_eq cmd (str "A.B.C.D/M") then TERMINAL_IPV4_PREFIX
  else if str_eq cmd (str "X:X::X:X") then TERMINAL_IPV6
  else if str_eq cmd (str "X:X::X:X/M") then TERMINAL_IPV6_PREFIX
  else
    let c := char_at cmd in
    if c =? 91 then TERMINAL_OPTION
    else if c =? 46 then TERMINAL_VARARG
    else if c =? 60 then TERMINAL_RANGE
    else if (65 <=? c) && (c <=? 90) then TERMINAL_VARIABLE
    else TERMINAL_LITERAL.

Definition format_parser_read_word s : format_parser_state :=
  let '(cmd, rest) := span (fun c => negb (word_end c)) (cp s) in
  let s := set_cp rest s in
  let '(desc, s) := format_parser_desc_str s in
  let s := add_token (curvect s) (PTerm (terminal_kind cmd) cmd desc) s in
  let s := if in_keyword s =? 1 then set_in_keyword 2 s else s in
  set_just_read_word 1 s.

(** One turn of the loop of [cmd_parse_format]. *)
Inductive turn := Next (s : format_parser_state) | Return (s : format_parser_state) | Crash.
Definition format_turn s : turn :=
  let s := set_cp (snd (span isspace (cp s))) s in
  match cp s with
  | [] => Return (error_if (flag (in_keyword s) || flag (in_multiple s)) "Unclosed group/keyword" s)
  | c :: _ =>
      if c =? 123 then Next (format_parser_begin_keyword s)
      else if c =? 40 then Next (format_parser_begin_multiple s)
      else if c =? 125 then Next (format_parser_end_keyword s)
      else if c =? 41 then Next (format_parser_end_multiple s)
      else if c =? 124 then
        match format_parser_handle_pipe s with Some s => Next s | None => Crash end
      else Next (format_parser_read_word s)
  end.

(** The loop, at most [fuel] turns of it. *)
Inductive outcome := Parsed (s : format_parser_state) | Crashed | Running (s : format_parser_state).
Fixpoint format_loop (fuel : nat) s : outcome :=
  match fuel with
  | O => Running s
  | S fuel =>
      match format_turn s with
      | Next s => format_loop fuel s
      | Return s => Parsed s
      | Crash => Crashed
      end
  end.

Definition format_init (string : list Z) (descstr : option (list Z)) : format_parser_state :=
  Fp [[]] [] 0 None 0 string descstr 0 0 0 [].

(** ** The tokens *)

(** What the pointers lead to. A vector is made after the token that refers to it is placed in
    an older one, so that the number of vectors bounds the depth. *)
Fixpoint resolve (fuel : nat) s (v : nat) : list cmd_token :=
  match fuel with
  | O => []
  | S fuel =>
      (fun t => match t with
                | PTerm k c d => TERMINAL k c d
                | PMult m => MULTIPLE (resolve fuel s m)
                | PKey k => KEYWORD ((fun w => resolve fuel s w) <$> default [] (kvecs s !! k))
                end) <$> default [] (vecs s !! v)
  end.
Definition tokens_of s : list cmd_token := resolve (S (length (vecs s))) s (topvect s).

(** Every turn but the one at an unexpected bar takes a character. *)
Definition cmd_parse_format (string : list Z) (descstr : option (list Z)) : option (list cmd_token) :=
  match format_loop (S (length string)) (format_init string descstr) with
  | Parsed s => Some (tokens_of s)
  | _ => None
  end.

(** ** Nodes *)

Section Install.
Context {C : Type}.

(** [None]: the node does not exist. *)
Definition install_element (cmdvec : list (option (cmd_node C))) (ntype : Z) (e : cmd_element C)
    : option (Z * list (option (cmd_node C))) :=
  match vector_slot cmdvec ntype with
  | None => Some (-1, cmdvec)
  | Some n =>
      tokens ← match el_tokens e with [] => cmd_parse_format (el_string e) (Some (el_doc e)) | ts => Some ts end;
      let e := Element (el_node e) (el_string e) (el_doc e) tokens (el_attr e) (el_daemon e) (el_cb e) in
      Some (0, <[Z.to_nat ntype := Some (Node (cn_node n) (cn_prompt n) (vset (cn_vector n) (Some e)))]> cmdvec)
  end.

Definition install_node (cmdvec : list (option (cmd_node C))) (node : Z) (prompt : list Z)
    : list (option (cmd_node C)) :=
  vset_index cmdvec (Z.to_nat node) (Some (Node node prompt [])).

(** [vty_init] makes an empty vector of nodes; [vty_exit] does nothing. *)
Definition vty_init : list (option (cmd_node C)) := [].
End Install.

End VtyFormat.
