(* ===== verification/VtyFormatSpec.v ===== *)
(** * The format of a command: termination and round trip *)

From S2P Require Import Prelude CString Utils Vector VtyTerm VtyWord VtyCmd VtyExec VtyFormat.
From stdpp Require Import base tactics numbers list strings relations.
From Stdlib Require Import ZArith Lia.
Import Utils Vector VtyWord VtyCmd VtyFormat.
Open Scope Z_scope.

(** ** Termination *)

Implicit Types (s : format_parser_state).

(** The parser stands at a bar outside of every group. *)
Definition stuck s : Prop :=
  exists r, snd (span isspace (cp s)) = 124 :: r /\ in_multiple s = 0 /\ in_keyword s = 0.


Lemma error_if_cp b m s : cp (error_if b m s) = cp s.
Proof. by destruct b. Qed.
Lemma desc_str_cp s : cp (snd (format_parser_desc_str s)) = cp s.
Proof.
  unfold format_parser_desc_str. destruct (dp s) as [d|]; [|done].
  destruct (snd (span isspace d)); [done|]. by destruct (span _ _).
Qed.

Lemma read_word_cp s c r :
  cp s = c :: r -> word_end c = false -> (length (cp (format_parser_read_word s)) < length (cp s))%nat.
Proof.
  intros Hcp Hc. unfold format_parser_read_word. destruct (span _ (cp s)) as [w rest] eqn:E.
  assert (length rest < length (cp s))%nat as Hlt.
  { pose proof (span_app (fun c => negb (word_end c)) (cp s)) as Ha. rewrite E, Hcp in Ha.
    rewrite Hcp in E. simpl in E. rewrite Hc in E. simpl in E. destruct (span _ r). simplify_eq.
    rewrite Hcp. simpl. simpl in Ha. simplify_eq. rewrite length_app. lia. }
  pose proof (desc_str_cp (set_cp rest s)) as Hd. destruct (format_parser_desc_str _) as [d s1].
  simpl in *. case_match; simpl; congruence || by rewrite Hd.
Qed.

(** A turn takes a character, or the parser is stuck. *)
Lemma format_turn_progress s s' :
  format_turn s = Next s' -> stuck s \/ (length (cp s') < length (cp s))%nat.
Proof.
  unfold format_turn. pose proof (span_length isspace (cp s)) as Hle.
  destruct (snd (span isspace (cp s))) as [|c r] eqn:E; [done|]. simpl in Hle. cbn [cp set_cp].
  destruct (c =? 123) eqn:E1; [intros [= <-]; right; unfold format_parser_begin_keyword; simpl;
    rewrite error_if_cp; simpl; lia|].
  destruct (c =? 40) eqn:E2.
  { intros [= <-]. right. unfold format_parser_begin_multiple. simpl. destruct (negb _); simpl;
      rewrite !error_if_cp; simpl; lia. }
  destruct (c =? 125) eqn:E3; [intros [= <-]; right; unfold format_parser_end_keyword; simpl;
    rewrite !error_if_cp; simpl; lia|].
  destruct (c =? 41) eqn:E4.
  { intros [= <-]. right. unfold format_parser_end_multiple. simpl.
    destruct (negb _); simpl; rewrite ?desc_str_cp, !error_if_cp; simpl; lia. }
  destruct (c =? 124) eqn:E5.
  { unfold format_parser_handle_pipe. simpl. unfold flag.
    destruct (negb (in_multiple s =? 0)) eqn:Em; [intros [= <-]; right; simpl; lia|].
    destruct (negb (in_keyword s =? 0)) eqn:Ek.
    - destruct (vecs s !! topvect s) as [top|]; [|done]. simpl.
      destruct (last top) as [[| |kv]|]; simpl; try done. intros [= <-]. right. simpl. lia.
    - intros _. left. btest. exists r. split; [congruence|]. done. }
  intros [= <-]. right. eapply Nat.lt_le_trans; [eapply read_word_cp; [done|]|simpl; lia].
  pose proof (span_length isspace (cp s)). destruct (isspace c) eqn:Es.
  { exfalso. revert E Es. clear. induction (cp s) as [|x l IH]; [done|]. simpl.
    destruct (isspace x) eqn:Ex; [destruct (span isspace l); simpl in *; auto|].
    simpl. intros [= -> ->]. congruence. }
  unfold word_end. rewrite Es, orb_false_r. unfold elem. apply bool_decide_eq_false_2.
  intros Hin. btest. unfold isspace in Es. btest.
  change (str "(){}|") with [40; 41; 123; 125; 124] in Hin.
  repeat (apply elem_of_cons in Hin as [Hin|Hin]; [subst; simpl in *; congruence || lia|]).
  by apply elem_of_nil in Hin.
Qed.

Lemma stuck_forever fuel s : stuck s -> exists s', format_loop fuel s = Running s'.
Proof.
  revert s. induction fuel as [|fuel IH]; intros s Hs; simpl; [by exists s|].
  destruct Hs as (r & Hr & Hm & Hk). unfold format_turn. rewrite Hr. simpl.
  unfold format_parser_handle_pipe. simpl. rewrite Hm, Hk. simpl. apply IH.
  exists r. simpl. split; [done|]. done.
Qed.

Lemma format_loop_dichotomy fuel s :
  (length (cp s) < fuel)%nat ->
  (exists n s', forall k, format_loop (n + k) s = format_loop k s' /\ stuck s')
  \/ (exists o, (forall k, format_loop (fuel + k) s = o) /\ (forall s', o <> Running s')).
Proof.
  revert s. induction fuel as [|fuel IH]; intros s Hf; [lia|]. simpl.
  destruct (format_turn s) as [s1|s1|] eqn:E.
  - destruct (format_turn_progress s s1 E) as [Hs|Hlt].
    + left. exists 0%nat, s. done.
    + destruct (IH s1) as [(n & s' & Hn)|(o & Ho & Hr)]; [lia| |].
      * left. exists (S n), s'. intros k. simpl. by rewrite E.
      * right. by exists o.
  - right. by exists (Parsed s1).
  - right. by exists Crashed.
Qed.

(** A result does not depend on how many more turns there could be. *)
Lemma format_loop_stable k s o j :
  format_loop k s = o -> (forall s', o <> Running s') -> format_loop (k + j) s = o.
Proof.
  revert s. induction k as [|k IH]; intros s Ho Hr; simpl in *; [by destruct (Hr s)|].
  destruct (format_turn s); auto.
Qed.

(** A parser that returns does so within one turn per character. *)
Lemma cmd_parse_format_decided s n k s' :
  format_loop k s = Parsed s' -> (length (cp s) < n)%nat -> format_loop n s = Parsed s'.
Proof.
  intros Hk Hn. destruct (format_loop_dichotomy n s Hn) as [(m & s1 & Hm)|(o & Ho & Hr)].
  - exfalso. assert (format_loop (k + m) s = Parsed s') as H1 by (by apply format_loop_stable).
    rewrite Nat.add_comm in H1. rewrite (proj1 (Hm k)) in H1.
    destruct (stuck_forever k s1 (proj2 (Hm 0%nat))) as [s2 H2]. congruence.
  - pose proof (Ho k) as H1. rewrite Nat.add_comm in H1.
    rewrite (format_loop_stable k s _ n Hk) in H1 by done. specialize (Ho 0%nat).
    rewrite Nat.add_0_r in Ho. congruence.
Qed.

(** *** What becomes of a text *)

(** A reading of the text character by character, which keeps five facts about the parser: it is
    in a keyword, it is in a group, words go to the top vector, the last token of the top vector
    is a keyword, and there is a vector to return to after a group. *)
Record scan := Scan { sc_key : bool; sc_mul : bool; sc_top : bool; sc_last : bool; sc_int : bool }.
Inductive fate := Ends | Crashes | Hangs.
Fixpoint fate_of (z : scan) (text : list Z) : fate :=
  match text with
  | [] => Ends
  | c :: r =>
      let '(Scan key mul top last int) := z in
      if isspace c then fate_of z r
      else if c =? 123 then fate_of (Scan true mul false (if top then true else last) int) r
      else if c =? 40 then fate_of (Scan key true false (if top then false else last) (if top then int else true)) r
      else if c =? 125 then fate_of (Scan false mul true last int) r
      else if c =? 41 then fate_of (Scan key false (negb int) last int) r
      else if c =? 124 then
        if mul then fate_of z r
        else if key then if last then fate_of (Scan key mul false last int) r else Crashes
        else Hangs
      else fate_of (Scan key mul top (if top then false else last) int) r
  end.
Definition text_fate (string : list Z) : fate := fate_of (Scan false false true false false) string.

Definition is_key (t : option ptoken) : bool := match t with Some (PKey _) => true | _ => false end.
Record sees s (z : scan) : Prop := {
  se_key : flag (in_keyword s) = sc_key z;
  se_mul : flag (in_multiple s) = sc_mul z;
  se_top : (curvect s =? topvect s)%nat = sc_top z;
  se_cur : (curvect s < length (vecs s))%nat;
  se_last : is_key (vecs s !! topvect s ≫= last) = sc_last z;
  se_int : match intvect s with
           | Some v => sc_int z = true /\ v <> topvect s /\ (v < length (vecs s))%nat
           | None => sc_int z = false
           end;
  se_vec : (topvect s < length (vecs s))%nat
}.

Lemma sees_error_if b m s z : sees s z -> sees (error_if b m s) z.
Proof. destruct b; [|done]. intros []. by split. Qed.
(** The message of a check that fails, in [H] and in the goal. *)
Ltac pass_error H :=
  match type of H with sees ?s _ =>
    match goal with |- context [error_if ?b ?m s] =>
      apply (sees_error_if b m) in H; set (error_if b m s) in *;
      match type of H with sees ?s' _ => clearbody s'; clear s; rename s' into s end
    end
  end.
Lemma sees_cp x s z : sees s z -> sees (set_cp x s) z.
Proof. intros []. by split. Qed.
Lemma sees_read x s z : sees s z -> sees (set_just_read_word x s) z.
Proof. intros []. by split. Qed.
Lemma sees_kvecs x s z : sees s z -> sees (set_kvecs x s) z.
Proof. intros []. by split. Qed.
Lemma sees_desc s z : sees s z -> sees (snd (format_parser_desc_str s)) z.
Proof.
  intros []. unfold format_parser_desc_str. destruct (dp s) as [d|]; [|by split].
  destruct (snd (span isspace d)); [by split|]. destruct (span _ _). by split.
Qed.
Lemma sees_keyword x s key mul top last int :
  sees s (Scan key mul top last int) -> sees (set_in_keyword x s) (Scan (flag x) mul top last int).
Proof. intros []. by split. Qed.
Lemma sees_multiple x s key mul top last int :
  sees s (Scan key mul top last int) -> sees (set_in_multiple x s) (Scan key (flag x) top last int).
Proof. intros []. by split. Qed.
Lemma sees_goto_top s key mul top last int :
  sees s (Scan key mul top last int) -> sees (set_curvect (topvect s) s) (Scan key mul true last int).
Proof. intros []. split; simpl in *; try done. apply Nat.eqb_refl. Qed.

Lemma last_push (vs : list (list ptoken)) top cur t :
  (top < length vs)%nat ->
  is_key (alter (fun ts => ts ++ [t]) cur vs !! top ≫= last)
  = if (cur =? top)%nat then is_key (Some t) else is_key (vs !! top ≫= last).
Proof.
  intros Hl. destruct (Nat.eqb_spec cur top) as [->|Hne].
  - destruct (lookup_lt_is_Some_2 _ _ Hl) as [ts Hts]. rewrite list_lookup_alter_eq, Hts. simpl. by rewrite last_snoc.
  - by rewrite list_lookup_alter_ne.
Qed.
Lemma sees_token t s key mul top last int :
  sees s (Scan key mul top last int) ->
  sees (add_token (curvect s) t s) (Scan key mul top (if top then is_key (Some t) else last) int).
Proof.
  intros [H1 H2 H3 H4 H5 H6 H7]. simpl in *. split; simpl; try done; rewrite ?length_alter; try done.
  rewrite last_push by done. rewrite H3, H5. done.
Qed.
(** A new vector, to which the words go from now on. *)
Lemma sees_new_vec s z : sees s z -> sees (set_vecs (vecs s ++ [[]]) s) z.
Proof.
  intros [H1 H2 H3 H4 H5 H6 H7]. split; simpl; try done; rewrite ?length_app; simpl; try lia.
  - by rewrite lookup_app_l.
  - destruct (intvect s); [|done]. destruct H6 as (? & ? & ?). split_and!; try done. lia.
Qed.
Lemma sees_goto_new v s key mul top last int :
  sees s (Scan key mul top last int) -> (v < length (vecs s))%nat -> v <> topvect s ->
  sees (set_curvect v s) (Scan key mul false last int).
Proof. intros [H1 H2 H3 H4 H5 H6 H7] Hv Hne. split; simpl in *; try done. by apply Nat.eqb_neq. Qed.

Lemma begin_keyword_sees s key mul top last int :
  sees s (Scan key mul top last int) ->
  sees (format_parser_begin_keyword s) (Scan true mul false (if top then true else last) int).
Proof.
  intros H. unfold format_parser_begin_keyword. pass_error H. cbn [new_vec new_kvec].
  assert (sees (add_token (curvect s) (PKey (length (kvecs s)))
            (set_kvecs (kvecs s ++ [[length (vecs s)]])
               (set_vecs (vecs s ++ [[]]) (set_in_keyword 1 (set_cp (tail (cp s)) s)))))
            (Scan true mul top (if top then true else last) int)) as H2.
  { pose proof (sees_keyword 1 _ _ _ _ _ _ (sees_cp (tail (cp s)) _ _ H)) as H3.
    exact (sees_token (PKey (length (kvecs s))) _ _ _ _ _ _ (sees_kvecs _ _ _ (sees_new_vec _ _ H3))). }
  apply (sees_goto_new _ _ _ _ _ _ _ H2); pose proof (se_vec _ _ H); simpl; rewrite ?length_alter, ?length_app; simpl; lia.
Qed.
Lemma begin_multiple_sees s key mul top last int :
  sees s (Scan key mul top last int) ->
  sees (format_parser_begin_multiple s)
    (Scan key true false (if top then false else last) (if top then int else true)).
Proof.
  intros H. unfold format_parser_begin_multiple.
  pass_error H. pass_error H.
  cbn [new_vec]. set (s2 := set_just_read_word 0 _).
  assert (sees s2 (Scan key true top last int)) as H2
    by (apply (sees_read 0), (sees_multiple 1 _ key mul), sees_cp, H).
  pose proof (sees_token (PMult (length (vecs s2))) _ _ _ _ _ _ (sees_new_vec _ _ H2)) as H3.
  set (s3 := add_token _ _ _) in H3. change (add_token _ _ _) with s3.
  assert (length (vecs s3) = S (length (vecs s2))) as Hlen
    by (unfold s3; simpl; rewrite length_alter, length_app; simpl; lia).
  pose proof (se_top _ _ H3) as Htop. cbn [sc_top] in Htop. pose proof (se_vec _ _ H2) as Hv. rewrite Htop.
  destruct top; cbn [negb].
  - apply (sees_goto_new _ _ _ _ _ _ _ H3); [lia|]. change (topvect s3) with (topvect s2). lia.
  - assert (sees (set_intvect (Some (curvect s3)) s3) (Scan key true false last true)) as H4.
    { destruct H3 as [? ? ? ? ? ? ?]. split; simpl in *; try done. split_and!; try done. by apply Nat.eqb_neq. }
    apply (sees_goto_new _ _ _ _ _ _ _ H4); [simpl in *; lia|]. change (topvect (set_intvect _ s3)) with (topvect s2). lia.
Qed.
Lemma end_keyword_sees s key mul top last int :
  sees s (Scan key mul top last int) -> sees (format_parser_end_keyword s) (Scan false mul true last int).
Proof.
  intros H. unfold format_parser_end_keyword.
  pass_error H. pass_error H.
  exact (sees_goto_top _ _ _ _ _ _ (sees_keyword 0 _ _ _ _ _ _ (sees_cp (tail (cp s)) _ _ H))).
Qed.
Lemma end_multiple_sees s key mul top last int :
  sees s (Scan key mul top last int) -> sees (format_parser_end_multiple s) (Scan key false (negb int) last int).
Proof.
  intros H. unfold format_parser_end_multiple.
  pass_error H. pass_error H.
  set (s2 := if negb _ then _ else _).
  assert (sees s2 (Scan key mul top last int)) as H2 by (unfold s2; destruct (negb _); [by apply sees_desc|done]).
  clearbody s2. pose proof (sees_multiple 0 _ _ _ _ _ _ (sees_cp (tail (cp s2)) _ _ H2)) as H3.
  set (s3 := set_in_multiple 0 _) in *. pose proof (se_int _ _ H3) as Hi. simpl sc_int in Hi.
  destruct (intvect s3) as [v|].
  - destruct Hi as (-> & Hne & Hlt). by eapply sees_goto_new.
  - subst int. by eapply sees_goto_top.
Qed.
Lemma read_word_sees s key mul top last int :
  sees s (Scan key mul top last int) ->
  sees (format_parser_read_word s) (Scan key mul top (if top then false else last) int).
Proof.
  intros H. unfold format_parser_read_word. destruct (span _ (cp s)) as [w rest].
  pose proof (sees_desc _ _ (sees_cp rest _ _ H)) as H1. destruct (format_parser_desc_str _) as [d s1]. simpl in H1.
  apply sees_read. pose proof (sees_token (PTerm (terminal_kind w) w d) _ _ _ _ _ _ H1) as H2.
  destruct (in_keyword _ =? 1) eqn:E; [|done]. btest.
  pose proof (se_key _ _ H2) as Hk. rewrite E in Hk. simpl in Hk. subst key. by apply (sees_keyword 2) in H2.
Qed.
Lemma handle_pipe_sees s key mul top last int r :
  sees s (Scan key mul top last int) -> cp s = 124 :: r ->
  match format_parser_handle_pipe s with
  | Some s' => mul || key = true /\ cp s' = r /\ (mul = false -> last = true) /\ sees s' (Scan key mul (if mul then top else false) last int)
               \/ mul || key = false /\ s' = format_parser_error s "Unexpected '|'"
  | None => mul = false /\ key = true /\ last = false
  end.
Proof.
  intros H Hcp. unfold format_parser_handle_pipe. pose proof (se_mul _ _ H) as ->. pose proof (se_key _ _ H) as ->.
  simpl. destruct mul; [left; rewrite Hcp; split_and!; try done; by apply sees_cp, sees_read|].
  destruct key; [|by right]. pose proof (se_last _ _ H) as Hl. pose proof (se_vec _ _ H) as Hv. simpl in Hl |- *.
  destruct (lookup_lt_is_Some_2 _ _ Hv) as [ts Hts]. rewrite Hts in *. simpl in Hl |- *.
  destruct (list.last ts) as [[| |kv]|]; simpl in Hl |- *; subst last; try done.
  left. rewrite Hcp. split_and!; try done.
  pose proof (sees_new_vec _ _ (sees_keyword 1 _ _ _ _ _ _ (sees_cp (tail (cp s)) _ _ H))) as H2.
  apply (sees_kvecs (alter (fun vs => vs ++ [length (vecs s)]) kv (kvecs s))) in H2. rewrite Hcp in H2.
  apply (sees_goto_new _ _ _ _ _ _ _ H2); simpl; rewrite ?length_app; simpl; lia.
Qed.

Lemma fate_spaces z l : fate_of z (snd (span isspace l)) = fate_of z l.
Proof.
  induction l as [|c l IH]; [done|]. simpl. destruct (isspace c) eqn:E.
  - destruct (span isspace l) as [x y]. simpl in *. rewrite IH. by destruct z.
  - simpl. rewrite E. by destruct z.
Qed.
Definition after_word (z : scan) : scan :=
  Scan (sc_key z) (sc_mul z) (sc_top z) (if sc_top z then false else sc_last z) (sc_int z).
Lemma word_char c :
  word_end c = false ->
  isspace c = false /\ (c =? 123) = false /\ (c =? 40) = false /\ (c =? 125) = false /\ (c =? 41) = false /\ (c =? 124) = false.
Proof.
  unfold word_end, elem. intros [H1 H2]%orb_false_iff. apply bool_decide_eq_false in H1. split; [done|].
  change (str "(){}|") with [40; 41; 123; 125; 124] in H1. split_and!; apply Z.eqb_neq; intros ->; apply H1; set_solver.
Qed.
Lemma word_char_iff c :
  isspace c = false -> (c =? 123) = false -> (c =? 40) = false -> (c =? 125) = false -> (c =? 41) = false -> c <> 124 ->
  word_end c = false.
Proof.
  intros Hs H1 H2 H3 H4 H5. unfold word_end, elem. rewrite Hs, orb_false_r. apply bool_decide_eq_false_2. intros Hin.
  btest. unfold isspace in Hs. btest. change (str "(){}|") with [40; 41; 123; 125; 124] in Hin.
  repeat (apply elem_of_cons in Hin as [Hin|Hin]; [subst; simpl in *; congruence || lia|]). by apply elem_of_nil in Hin.
Qed.
Lemma fate_word_char z c r : word_end c = false -> fate_of z (c :: r) = fate_of (after_word z) r.
Proof. intros (Hs & H1 & H2 & H3 & H4 & H5)%word_char. destruct z. simpl. by rewrite Hs, H1, H2, H3, H4, H5. Qed.
Lemma after_word_twice z : after_word (after_word z) = after_word z.
Proof. by destruct z as [? ? [] ? ?]. Qed.
Lemma fate_word z l c r :
  l = c :: r -> word_end c = false ->
  fate_of z l = fate_of (after_word z) (snd (span (fun c => negb (word_end c)) l)).
Proof.
  intros -> Hc. rewrite fate_word_char by done. cbn [span]. rewrite Hc. cbn [negb].
  assert (fate_of (after_word z) r = fate_of (after_word z) (snd (span (fun c => negb (word_end c)) r))) as ->;
    [|by destruct (span _ r)].
  induction r as [|d r IH]; [done|]. cbn [span]. destruct (word_end d) eqn:Ed; [done|]. cbn [negb].
  rewrite fate_word_char, after_word_twice by done. by destruct (span _ r).
Qed.
Lemma read_word_rest s : cp (format_parser_read_word s) = snd (span (fun c => negb (word_end c)) (cp s)).
Proof.
  unfold format_parser_read_word. destruct (span _ (cp s)) as [w rest].
  pose proof (desc_str_cp (set_cp rest s)) as Hd. destruct (format_parser_desc_str _) as [d s1].
  simpl in *. by destruct (in_keyword s1 =? 1).
Qed.
Lemma begin_keyword_rest s : cp (format_parser_begin_keyword s) = tail (cp s).
Proof. unfold format_parser_begin_keyword. simpl. by rewrite error_if_cp. Qed.
Lemma begin_multiple_rest s : cp (format_parser_begin_multiple s) = tail (cp s).
Proof. unfold format_parser_begin_multiple. simpl. destruct (negb _); simpl; by rewrite !error_if_cp. Qed.
Lemma end_keyword_rest s : cp (format_parser_end_keyword s) = tail (cp s).
Proof. unfold format_parser_end_keyword. simpl. by rewrite !error_if_cp. Qed.
Lemma end_multiple_rest s : cp (format_parser_end_multiple s) = tail (cp s).
Proof. unfold format_parser_end_multiple. simpl. destruct (negb _); simpl; by rewrite ?desc_str_cp, !error_if_cp. Qed.

(** A parser at a bar outside of every group and keyword, and what it becomes: its message is
    added once for every turn and nothing else changes. *)
Definition at_bar s : Prop := (exists r, cp s = 124 :: r) /\ in_multiple s = 0 /\ in_keyword s = 0.
Definition complain (k : nat) s : format_parser_state :=
  Fp (vecs s) (kvecs s) (topvect s) (intvect s) (curvect s) (cp s) (dp s)
    (in_keyword s) (in_multiple s) (just_read_word s) (errors s ++ replicate k "Unexpected '|'"%string).

(** What a turn does with a state that the scan describes. *)
Lemma turn_fate s z :
  sees s z ->
  match format_turn s with
  | Next s' =>
      (at_bar (set_cp (snd (span isspace (cp s))) s) /\ s' = complain 1 (set_cp (snd (span isspace (cp s))) s)
       /\ fate_of z (cp s) = Hangs)
      \/ (exists z', sees s' z' /\ fate_of z' (cp s') = fate_of z (cp s) /\ (length (cp s') < length (cp s))%nat)
  | Return _ => fate_of z (cp s) = Ends
  | Crash => fate_of z (cp s) = Crashes
  end.
Proof.
  intros H. pose proof (span_length isspace (cp s)) as Hle. rewrite <- (fate_spaces z (cp s)). unfold format_turn.
  set (rest := snd (span isspace (cp s))) in *. set (s1 := set_cp rest s).
  assert (sees s1 z) as H1 by (by apply sees_cp). change (cp s1) with rest.
  destruct rest as [|c r] eqn:Er; [done|]. simpl in Hle.
  assert (isspace c = false) as Hsp.
  { clear -Er. subst rest. revert Er. induction (cp s) as [|x l IH]; simpl; [done|].
    destruct (isspace x) eqn:Ex; [destruct (span isspace l); exact IH|]. simpl. by intros [= -> _]. }
  clearbody rest. assert (cp s1 = c :: r) as Hcp by done. clearbody s1. destruct z as [key mul top last int].
  cbn [fate_of]. rewrite Hsp.
  destruct (c =? 123) eqn:E1.
  { right. eexists. split; [by eapply begin_keyword_sees|]. rewrite begin_keyword_rest, Hcp. split; [done|simpl; lia]. }
  destruct (c =? 40) eqn:E2.
  { right. eexists. split; [by eapply begin_multiple_sees|]. rewrite begin_multiple_rest, Hcp. split; [done|simpl; lia]. }
  destruct (c =? 125) eqn:E3.
  { right. eexists. split; [by eapply end_keyword_sees|]. rewrite end_keyword_rest, Hcp. split; [done|simpl; lia]. }
  destruct (c =? 41) eqn:E4.
  { right. eexists. split; [by eapply end_multiple_sees|]. rewrite end_multiple_rest, Hcp. split; [done|simpl; lia]. }
  destruct (c =? 124) eqn:E124; btest.
  - subst c. pose proof (handle_pipe_sees s1 key mul top last int r H1 Hcp) as Hp.
    destruct (format_parser_handle_pipe s1) as [s2|]; [|by destruct Hp as (-> & -> & ->)].
    destruct Hp as [(Hmk & Hr & Hl & H2)|[Hmk ->]].
    + right. eexists. split; [exact H2|]. rewrite Hr. split; [|lia]. destruct mul; [done|]. simpl in Hmk. subst key.
      by rewrite Hl.
    + left. apply orb_false_iff in Hmk as [-> ->]. pose proof (se_key _ _ H1). pose proof (se_mul _ _ H1).
      unfold flag in *. simpl in *. btest. split_and!; [|done|done]. split_and!; [by eexists|done|done].
  - right. eexists. split; [by apply read_word_sees, H1|]. rewrite read_word_rest, Hcp.
    assert (word_end c = false) as Hw by (apply word_char_iff; try done; by apply Z.eqb_neq).
    split; [|pose proof (read_word_cp s1 c r Hcp Hw) as Hlt; rewrite read_word_rest, Hcp in Hlt; simpl in *; lia].
    pose proof (fate_word_char (Scan key mul top last int) c r Hw) as Hf.
    rewrite (fate_word (Scan key mul top last int) (c :: r) c r eq_refl Hw) in Hf.
    unfold after_word in Hf. exact Hf.
Qed.

Lemma bar_spaces s : at_bar s -> snd (span isspace (cp s)) = cp s.
Proof. by intros ([r ->] & _). Qed.
Lemma complain_complain j k s : complain j (complain k s) = complain (k + j) s.
Proof. unfold complain. simpl. by rewrite <- app_assoc, replicate_add. Qed.
Lemma complain_forever k : forall s, at_bar s -> format_loop k s = Running (complain k s).
Proof.
  induction k as [|k IH]; intros s Hs; simpl.
  - unfold complain. simpl. rewrite app_nil_r. by destruct s.
  - pose proof Hs as ([r Hr] & Hm & Hk). unfold format_turn. rewrite (bar_spaces s Hs), Hr. simpl.
    unfold format_parser_handle_pipe. simpl. rewrite Hm, Hk. simpl.
    assert (format_parser_error (set_cp (124 :: r) s) "Unexpected '|'" = complain 1 s) as ->
      by (unfold complain, format_parser_error; simpl; by rewrite <- Hr).
    rewrite IH; [by rewrite complain_complain|]. split; [by exists r|done].
Qed.
Lemma loop_fate n : forall s z,
  sees s z -> (length (cp s) < n)%nat ->
  match fate_of z (cp s) with
  | Ends => exists s', forall k, format_loop (n + k) s = Parsed s'
  | Crashes => forall k, format_loop (n + k) s = Crashed
  | Hangs => exists m s', (m < n)%nat /\ at_bar s' /\
               forall k, format_loop (m + S k) s = Running (complain (S k) s')
  end.
Proof.
  induction n as [|n IH]; intros s z Hs Hn; [lia|]. pose proof (turn_fate s z Hs) as Ht. simpl.
  destruct (format_turn s) as [s1|s1|] eqn:Et.
  - destruct Ht as [(Hbar & -> & ->)|(z' & Hs' & <- & Hlt)].
    + eexists 0%nat, _. split; [lia|]. split; [exact Hbar|]. intros k. cbn [Nat.add format_loop]. rewrite Et.
      rewrite complain_forever; [by rewrite complain_complain|]. exact Hbar.
    + specialize (IH s1 z' Hs' ltac:(lia)). destruct (fate_of z' (cp s1)); [done|done|].
      destruct IH as (m & s' & Hm & Hb & Hk). exists (S m), s'. split; [lia|]. split; [done|]. intros k. simpl. by rewrite Et.
  - rewrite Ht. by exists s1.
  - by rewrite Ht.
Qed.

(** C37. What becomes of the format of a command is decided by a reading of its text, character by
    character, and in no other way. Either the parser ends after at most one turn per character
    and one more; or it crashes, at a bar in a keyword when the last token of the command is not
    a keyword; or it meets a bar outside of every group and keyword, after at most one turn per
    character, and from then on every turn prints its message again and changes nothing else, for
    ever. (The parser of the code only prints its errors and goes on.) *)
Theorem cmd_parse_format_terminates_or_never string descstr :
  let s := format_init string descstr in
  let n := S (length string) in
  match text_fate string with
  | Ends => exists s', forall k, format_loop (n + k) s = Parsed s'
  | Crashes => forall k, format_loop (n + k) s = Crashed
  | Hangs => exists m s', (m < n)%nat /\ at_bar s' /\
               forall k, format_loop (m + S k) s = Running (complain (S k) s')
  end.
Proof.
  intros s n. apply (loop_fate n s (Scan false false true false false)); [|unfold n, s; simpl; lia].
  split; simpl; done || lia.
Qed.

(** [a (b|c)] ends, [a|b] hangs, [(a{b)|c] crashes. *)
Lemma cmd_parse_format_terminates_or_never_witness :
  (exists s', format_loop 8 (format_init (str "a (b|c)") None) = Parsed s')
  /\ (exists m s', at_bar s' /\ forall k, format_loop (m + S k) (format_init (str "a|b") None) = Running (complain (S k) s'))
  /\ format_loop 9 (format_init (str "(a{b)|c") None) = Crashed.
Proof.
  pose proof (cmd_parse_format_terminates_or_never (str "a (b|c)") None) as H1.
  pose proof (cmd_parse_format_terminates_or_never (str "a|b") None) as H2.
  pose proof (cmd_parse_format_terminates_or_never (str "(a{b)|c") None) as H3.
  change (text_fate (str "a (b|c)")) with Ends in H1. change (text_fate (str "a|b")) with Hangs in H2.
  change (text_fate (str "(a{b)|c")) with Crashes in H3.
  destruct H1 as [s1 H1]. destruct H2 as (m & s2 & _ & Hb & H2). split; [|split].
  - exists s1. exact (H1 0%nat).
  - exists m, s2. split; [exact Hb|exact H2].
  - exact (H3 1%nat).
Defined.

(** ** Commands as a user writes them *)

(** Words, groups of alternatives, and keywords in any order, each with its arguments. *)
Inductive arg := AWord (w : list Z) | AGroup (ws : list (list Z)).
Inductive item := IArg (a : arg) | IKeys (ks : list (list Z * list arg)).

Fixpoint bars (l : list (list Z)) : list Z :=
  match l with [] => [] | [w] => w | w :: r => w ++ 124 :: bars r end.
Definition print_arg (a : arg) : list Z :=
  match a with AWord w => w | AGroup ws => 40 :: bars ws ++ [41] end.
Definition print_args (l : list arg) : list Z := mjoin ((fun a => 32 :: print_arg a) <$> l).
Definition print_key (k : list Z * list arg) : list Z := fst k ++ print_args (snd k).
Definition print_item (i : item) : list Z :=
  match i with IArg a => print_arg a | IKeys ks => 123 :: bars (print_key <$> ks) ++ [125] end.
Definition print_command (l : list item) : list Z := mjoin ((fun i => print_item i ++ [32]) <$> l).
Definition print_docs (ds : list (list Z)) : list Z := mjoin ((fun d => d ++ [10]) <$> ds).

(** The tokens it stands for; each word takes the next line of the description. *)
Definition word_token (w : list Z) (ds : list (list Z)) : cmd_token * list (list Z) :=
  (TERMINAL (terminal_kind w) w (head ds), tail ds).
Fixpoint thread {A B D} (f : A -> D -> B * D) (l : list A) (d : D) : list B * D :=
  match l with
  | [] => ([], d)
  | x :: r => let '(y, d) := f x d in let '(ys, d) := thread f r d in (y :: ys, d)
  end.
Lemma thread_cons {A B D} (f : A -> D -> B * D) x r d :
  thread f (x :: r) d = let '(y, d) := f x d in let '(ys, d) := thread f r d in (y :: ys, d).
Proof. done. Qed.
Definition arg_token (a : arg) (ds : list (list Z)) : cmd_token * list (list Z) :=
  match a with
  | AWord w => word_token w ds
  | AGroup ws => let '(ts, ds) := thread word_token ws ds in (MULTIPLE ts, ds)
  end.
Definition key_tokens (k : list Z * list arg) (ds : list (list Z)) : list cmd_token * list (list Z) :=
  let '(t, ds) := word_token (fst k) ds in
  let '(ts, ds) := thread arg_token (snd k) ds in (t :: ts, ds).
Definition item_token (i : item) (ds : list (list Z)) : cmd_token * list (list Z) :=
  match i with
  | IArg a => arg_token a ds
  | IKeys ks => let '(kws, ds) := thread key_tokens ks ds in (KEYWORD kws, ds)
  end.

Definition word_ok (w : list Z) : Prop := w <> [] /\ Forall (fun c => word_end c = false) w.
Definition arg_ok (a : arg) : Prop :=
  match a with AWord w => word_ok w | AGroup ws => ws <> [] /\ Forall word_ok ws end.
Definition key_ok (k : list Z * list arg) : Prop := word_ok (fst k) /\ Forall arg_ok (snd k).
Definition item_ok (i : item) : Prop :=
  match i with IArg a => arg_ok a | IKeys ks => ks <> [] /\ Forall key_ok ks end.
Definition doc_ok (d : list Z) : Prop :=
  d <> [] /\ Forall (fun c => c <> 10 /\ c <> 13) d /\ isspace (char_at d) = false.

(** No group at the top level behind keywords that have a group among their arguments. *)
Definition has_group (l : list arg) : bool := existsb (fun a => match a with AGroup _ => true | _ => false end) l.
Definition inner_group (i : item) : bool :=
  match i with IKeys ks => existsb (fun k => has_group (snd k)) ks | _ => false end.
Fixpoint groups_first (l : list item) : bool :=
  match l with
  | [] => true
  | i :: r => (if inner_group i then forallb (fun i => match i with IArg (AGroup _) => false | _ => true end) r
               else true) && groups_first r
  end.

(** ** Running the parser on printed text *)

Definition next s1 s2 : Prop := format_turn s1 = Next s2.
Notation runs := (rtc next).

Lemma runs_loop s1 s2 o : runs s1 s2 -> (exists k, format_loop k s2 = o) -> exists k, format_loop k s1 = o.
Proof.
  induction 1 as [s|s1 s s2 H _ IH]; [done|]. intros Ho. destruct (IH Ho) as [k Hk].
  exists (S k). simpl. by rewrite H.
Qed.

(** The description still to be read is [ds]. *)
Definition doc_is (d : option (list Z)) (ds : list (list Z)) : Prop :=
  exists x, d = Some x /\ snd (span isspace x) = print_docs ds.

Lemma doc_is_init ds : Forall doc_ok ds -> doc_is (Some (print_docs ds)) ds.
Proof.
  intros Hd. exists (print_docs ds). split; [done|]. destruct ds as [|d ds]; [done|].
  apply Forall_cons in Hd as [(Hne & _ & Hsp) _]. destruct d as [|c d]; [done|].
  unfold print_docs. simpl in *. by rewrite Hsp.
Qed.

Definition push (t : ptoken) (ts : list ptoken) : list ptoken := ts ++ [t].

(** The text behind a word. *)
Definition stops (rest : list Z) : Prop := rest = [] \/ word_end (char_at rest) = true.

Lemma skip_word w rest : word_ok w -> snd (span isspace (w ++ rest)) = w ++ rest.
Proof.
  intros [Hne Hw]. destruct w as [|c w]; [done|]. apply Forall_cons in Hw as [Hc _]. simpl.
  unfold word_end in Hc. apply orb_false_iff in Hc as [_ ->]. done.
Qed.

Lemma desc_str_next V K T I cur c d ik im j er ds :
  Forall doc_ok ds -> doc_is d ds ->
  exists d', doc_is d' (tail ds)
  /\ format_parser_desc_str (Fp V K T I cur c d ik im j er) = (head ds, Fp V K T I cur c d' ik im j er).
Proof.
  intros Hok (x & -> & Hx). unfold format_parser_desc_str. cbn [dp]. rewrite Hx. destruct ds as [|l ds].
  { exists (Some x). split; [by exists x|done]. }
  apply Forall_cons in Hok as [(Hne & Hnl & Hsp) Hok]. destruct l as [|y l]; [done|].
  assert (print_docs ((y :: l) :: ds) = (y :: l) ++ 10 :: print_docs ds) as ->
    by (unfold print_docs; simpl; by rewrite <- app_assoc).
  cbn [app]. change (y :: l ++ 10 :: print_docs ds) with ((y :: l) ++ 10 :: print_docs ds). rewrite span_stop.
  - exists (Some (10 :: print_docs ds)). split; [|done]. eexists. split; [done|]. simpl.
    destruct (doc_is_init ds Hok) as (? & [= <-] & Hi). destruct (span isspace (print_docs ds)). done.
  - intros z Hz. rewrite Forall_forall in Hnl. specialize (Hnl z Hz). btest.
    apply negb_true_iff, orb_false_iff. split; apply Z.eqb_neq; tauto.
  - done.
Qed.

Lemma word_end_specials c : word_end c = false -> c <> 123 /\ c <> 40 /\ c <> 125 /\ c <> 41 /\ c <> 124.
Proof.
  intros Hc. repeat split; intros ->; vm_compute in Hc; discriminate.
Qed.

Lemma turn_word V K T I cur w rest d ik im j er ds :
  word_ok w -> stops rest -> Forall doc_ok ds -> doc_is d ds ->
  exists d', doc_is d' (tail ds)
  /\ next (Fp V K T I cur (w ++ rest) d ik im j er)
          (Fp (alter (push (PTerm (terminal_kind w) w (head ds))) cur V) K T I cur rest d'
             (if ik =? 1 then 2 else ik) im 1 er).
Proof.
  intros Hw Hs Hok Hd. unfold next, format_turn. cbn [cp set_cp]. rewrite (skip_word w rest Hw).
  pose proof Hw as [Hne Hall]. destruct w as [|c w]; [done|]. pose proof Hall as [Hc _]%Forall_cons.
  destruct (word_end_specials c Hc) as (H1 & H2 & H3 & H4 & H5). cbn [app].
  replace (c =? 123) with false by lia. replace (c =? 40) with false by lia.
  replace (c =? 125) with false by lia. replace (c =? 41) with false by lia.
  replace (c =? 124) with false by lia. unfold format_parser_read_word, set_cp. cbn [cp vecs kvecs topvect intvect curvect dp in_keyword in_multiple just_read_word errors].
  rewrite app_comm_cons.
  assert (span (fun c => negb (word_end c)) ((c :: w) ++ rest) = (c :: w, rest)) as ->.
  { assert (forall x, x ∈ c :: w -> negb (word_end x) = true) as Hx.
    { intros x Hx. rewrite Forall_forall in Hall. by rewrite Hall. }
    destruct Hs as [->|Hs]; [rewrite app_nil_r; by apply span_all|].
    destruct rest as [|y rest]; [rewrite app_nil_r; by apply span_all|].
    apply span_stop; [done|]. simpl in Hs. by rewrite Hs. }
  destruct (desc_str_next V K T I cur rest d ik im j er ds Hok Hd) as (d' & Hd' & ->).
  exists d'. split; [done|]. unfold add_token, set_vecs. simpl. by destruct (ik =? 1).
Qed.

(** *** The store *)

Definition pword (w : list Z) (ds : list (list Z)) : ptoken * list (list Z) :=
  (PTerm (terminal_kind w) w (head ds), tail ds).

(** What a token of the store stands for: a word, a group in a vector from number [lo] on. *)
Definition dterm (p : ptoken) (t : cmd_token) : Prop :=
  exists k c d, p = PTerm k c d /\ t = TERMINAL k c d.
Definition darg (lo : nat) (V : list (list ptoken)) (p : ptoken) (t : cmd_token) : Prop :=
  dterm p t \/ exists m ps ts, p = PMult m /\ (lo <= m)%nat /\ V !! m = Some ps
                               /\ Forall2 dterm ps ts /\ t = MULTIPLE ts.
Definition dvec (V : list (list ptoken)) (v : nat) (ts : list cmd_token) : Prop :=
  (0 < v)%nat /\ exists ps, V !! v = Some ps /\ Forall2 (darg (S v) V) ps ts.
Definition ditem (V : list (list ptoken)) (K : list (list nat)) (p : ptoken) (t : cmd_token) : Prop :=
  darg 1 V p t \/ exists k vs kws, p = PKey k /\ K !! k = Some vs /\ t = KEYWORD kws
                                   /\ Forall2 (dvec V) vs kws.

(** Only the vector [cur] has changed. *)
Definition agree (cur : nat) (V V' : list (list ptoken)) : Prop :=
  forall i x, i <> cur -> V !! i = Some x -> V' !! i = Some x.

Lemma agree_refl cur V : agree cur V V.
Proof. by intros i x. Qed.
Lemma agree_trans cur V1 V2 V3 : agree cur V1 V2 -> agree cur V2 V3 -> agree cur V1 V3.
Proof. intros H1 H2 i x Hi Hx. auto. Qed.

Lemma darg_agree lo cur V V' p t :
  agree cur V V' -> (cur < lo \/ length V <= cur)%nat -> darg lo V p t -> darg lo V' p t.
Proof.
  intros Ha Hc [H|(m & ps & ts & -> & Hm & Hps & Hts)]; [by left|]. right. exists m, ps, ts.
  split; [done|]. split; [done|]. split; [|done]. apply Ha; [|done].
  apply lookup_lt_Some in Hps. lia.
Qed.
Lemma dargs_agree lo cur V V' ps ts :
  agree cur V V' -> (cur < lo \/ length V <= cur)%nat ->
  Forall2 (darg lo V) ps ts -> Forall2 (darg lo V') ps ts.
Proof. intros Ha Hc H. eapply Forall2_impl; [exact H|]. intros p t. by eapply darg_agree. Qed.
Lemma dvec_agree cur V V' v ts :
  agree cur V V' -> (cur = 0 \/ length V <= cur)%nat -> dvec V v ts -> dvec V' v ts.
Proof.
  intros Ha Hc (Hv & ps & Hps & Hts). split; [done|]. exists ps. split.
  - apply Ha; [|done]. apply lookup_lt_Some in Hps. lia.
  - eapply dargs_agree; [done| |done]. lia.
Qed.
Lemma darg_weaken lo lo' V p t : (lo' <= lo)%nat -> darg lo V p t -> darg lo' V p t.
Proof. intros Hl [H|(m & ps & ts & -> & Hm & Hr)]; [by left|]. right. exists m, ps, ts. split; [done|]. split; [lia|done]. Qed.

Lemma pwords_dterm ws ds :
  Forall2 dterm (fst (thread pword ws ds)) (fst (thread word_token ws ds))
  /\ snd (thread pword ws ds) = snd (thread word_token ws ds).
Proof.
  revert ds. induction ws as [|w ws IH]; intros ds; simpl; [by split|].
  destruct (IH (tail ds)) as [H1 H2].
  destruct (thread pword ws (tail ds)), (thread word_token ws (tail ds)). simpl in *.
  split; [|done]. constructor; [|done]. by eexists _, _, _.
Qed.

Lemma Forall_tail {A} (P : A -> Prop) l : Forall P l -> Forall P (tail l).
Proof. by destruct 1. Qed.
Lemma thread_docs ws ds : Forall doc_ok ds -> Forall doc_ok (snd (thread word_token ws ds)).
Proof.
  revert ds. induction ws as [|w ws IH]; intros ds Hd; simpl; [done|].
  specialize (IH (tail ds) (Forall_tail _ _ Hd)). by destruct (thread word_token ws (tail ds)).
Qed.

(** *** Groups *)

Lemma alter_push_push (cur : nat) (x y : list ptoken) (V : list (list ptoken)) :
  alter (fun ts => ts ++ y) cur (alter (fun ts => ts ++ x) cur V) = alter (fun ts => ts ++ (x ++ y)) cur V.
Proof.
  apply list_eq. intros i. destruct (decide (i = cur)) as [->|].
  - rewrite !list_lookup_alter_eq. destruct (V !! cur); simpl; [by rewrite app_assoc|done].
  - by rewrite !list_lookup_alter_ne by done.
Qed.

Lemma run_words V K T I m ws rest d ik j er ds :
  ws <> [] -> Forall word_ok ws -> ik <> 1 -> Forall doc_ok ds -> doc_is d ds ->
  exists d', doc_is d' (snd (thread word_token ws ds))
  /\ runs (Fp V K T I m (bars ws ++ 41 :: rest) d ik 1 j er)
          (Fp (alter (fun ts => ts ++ fst (thread pword ws ds)) m V) K T I m (41 :: rest) d' ik 1 1 er).
Proof.
  revert V d j ds. induction ws as [|w ws IH]; intros V d j ds Hne Hok Hik Hds Hd; [done|].
  apply Forall_cons in Hok as [Hw Hok]. destruct ws as [|w2 ws].
  - destruct (turn_word V K T I m w (41 :: rest) d ik 1 j er ds Hw) as (d' & Hd' & Hn); [by right|done|done|].
    exists d'. split; [done|]. apply rtc_once. replace (ik =? 1) with false in Hn by lia. exact Hn.
  - destruct (turn_word V K T I m w (124 :: bars (w2 :: ws) ++ 41 :: rest) d ik 1 j er ds Hw)
      as (d1 & Hd1 & Hn); [by right|done|done|]. replace (ik =? 1) with false in Hn by lia.
    destruct (IH (alter (push (PTerm (terminal_kind w) w (head ds))) m V) d1 0 (tail ds))
      as (d2 & Hd2 & Hr); try done; [by apply Forall_tail|].
    exists d2. split.
    { simpl. simpl in Hd2. by destruct (thread word_token ws (tail (tail ds))). }
    eapply rtc_l; [|eapply rtc_l; [|]].
    + simpl. rewrite <- app_assoc. exact Hn.
    + unfold next, format_turn. reflexivity.
    + eapply rtc_trans; [exact Hr|]. rewrite <- (app_nil_l (41 :: rest)) at 1.
      replace (alter (fun ts => ts ++ fst (thread pword (w2 :: ws) (tail ds))) m _)
        with (alter (fun ts => ts ++ fst (thread pword (w :: w2 :: ws) ds)) m V); [apply rtc_refl|].
      symmetry. etransitivity; [apply (alter_push_push m [_])|]. simpl.
      by destruct (thread pword ws (tail (tail ds))).
Qed.

Lemma agree_alter cur f V : agree cur V (alter f cur V).
Proof. intros i x Hi Hx. by rewrite list_lookup_alter_ne by done. Qed.
Lemma agree_app cur V W : agree cur V (V ++ W).
Proof. intros i x _ Hx. by apply lookup_app_l_Some. Qed.

Definition is_group (a : arg) : bool := match a with AGroup _ => true | _ => false end.

(** The pointers behind a group that was opened in vector [cur]. *)
Definition int_after (I : option nat) (cur : nat) (g : bool) : option nat :=
  if g && negb (cur =? 0)%nat then Some cur else I.

Lemma run_group V K I cur ws rest d ik j er ds :
  ws <> [] -> Forall word_ok ws -> ik <> 1 -> (cur < length V)%nat -> Forall doc_ok ds -> doc_is d ds ->
  exists d', doc_is d' (snd (thread word_token ws ds))
  /\ runs (Fp V K 0 I cur (40 :: bars ws ++ 41 :: rest) d ik 0 j er)
          (Fp (alter (push (PMult (length V))) cur V ++ [fst (thread pword ws ds)]) K 0
             (int_after I cur true) (default 0%nat (int_after I cur true)) rest d' ik 0 1 er).
Proof.
  intros Hne Hok Hik Hcur Hds Hd.
  set (V1 := alter (push (PMult (length V))) cur V).
  assert (length V1 = length V) as HL by (subst V1; apply length_alter).
  destruct (run_words (V1 ++ [[]]) K 0 (int_after I cur true) (length V) ws rest d ik 0 er ds)
    as (d' & Hd' & Hr); try done.
  exists d'. split; [done|]. eapply rtc_l; [|eapply rtc_trans; [exact Hr|apply rtc_once]].
  - unfold next, format_turn. cbn [cp VtyFormat.set_cp].
    change (snd (span isspace (40 :: bars ws ++ 41 :: rest))) with (40 :: bars ws ++ 41 :: rest).
    cbn -[Z.eqb bars alter]. unfold format_parser_begin_multiple. cbn -[Z.eqb bars alter].
    replace (ik =? 1) with false by lia. cbn -[bars alter].
    unfold new_vec, add_token, int_after. cbn -[bars alter].
    assert (alter (fun ts => ts ++ [PMult (length V)]) cur (V ++ [[]]) = V1 ++ [[]]) as HV
      by (apply alter_app_l; done).
    destruct (cur =? 0)%nat; cbn -[bars alter]; rewrite HV; reflexivity.
  - unfold next, format_turn. cbn [cp VtyFormat.set_cp]. cbn -[alter thread].
    unfold format_parser_end_multiple. cbn -[alter thread].
    assert (alter (fun ts => ts ++ fst (thread pword ws ds)) (length V) (V1 ++ [[]])
            = V1 ++ [fst (thread pword ws ds)]) as ->.
    { rewrite <- HL. rewrite <- (Nat.add_0_r (length V1)). by rewrite alter_app_r. }
    rewrite bool_decide_eq_false_2.
    + reflexivity.
    + rewrite lookup_app_r, HL, Nat.sub_diag by lia. destruct ws as [|w ws]; [done|]. simpl.
      by destruct (thread pword ws (tail ds)).
Qed.

(** One argument, read into the vector [cur]. *)
Lemma run_arg a V K I cur ts rest d ik j er ds :
  arg_ok a -> stops rest -> ik <> 1 -> V !! cur = Some ts -> (is_group a = true -> cur <> 0%nat \/ I = None) ->
  Forall doc_ok ds -> doc_is d ds ->
  exists V' d' p, runs (Fp V K 0 I cur (print_arg a ++ rest) d ik 0 j er)
                       (Fp V' K 0 (int_after I cur (is_group a)) cur rest d' ik 0 1 er)
  /\ doc_is d' (snd (arg_token a ds)) /\ Forall doc_ok (snd (arg_token a ds))
  /\ V' !! cur = Some (ts ++ [p]) /\ agree cur V V' /\ (length V <= length V')%nat
  /\ darg (S cur) V' p (fst (arg_token a ds)).
Proof.
  intros Hok Hst Hik Hcur Hg Hds Hd. pose proof (lookup_lt_Some _ _ _ Hcur) as Hlt. destruct a as [w|ws]; simpl.
  - destruct (turn_word V K 0 I cur w rest d ik 0 j er ds Hok Hst Hds Hd) as (d' & Hd' & Hn).
    replace (ik =? 1) with false in Hn by lia.
    eexists _, d', _. split; [apply rtc_once; exact Hn|]. split; [done|]. split; [by apply Forall_tail|].
    split; [by rewrite list_lookup_alter_eq, Hcur|]. split; [apply agree_alter|].
    split; [by rewrite length_alter|]. left. by eexists _, _, _.
  - destruct Hok as [Hne Hok].
    destruct (run_group V K I cur ws rest d ik j er ds Hne Hok Hik Hlt Hds Hd) as (d' & Hd' & Hr).
    destruct (pwords_dterm ws ds) as [Hdt Hsnd].
    pose proof (thread_docs ws ds Hds) as Htd. destruct (thread word_token ws ds) as [ts' ds'] eqn:E. simpl in *.
    set (V1 := alter (push (PMult (length V))) cur V) in *.
    assert (length V1 = length V) as HL by apply length_alter.
    exists (V1 ++ [fst (thread pword ws ds)]), d', (PMult (length V)).
    split. { rewrite <- app_assoc. cbn [app].
      replace (default 0%nat (int_after I cur true)) with cur in Hr; [exact Hr|].
      unfold int_after. destruct (cur =? 0)%nat eqn:E0; simpl; [|done]. apply Nat.eqb_eq in E0.
      destruct (Hg eq_refl) as [?| ->]; [done|]. by rewrite E0. }
    split; [done|]. split; [done|].
    split. { rewrite lookup_app_l by lia. unfold V1. by rewrite list_lookup_alter_eq, Hcur. }
    split. { eapply agree_trans; [apply agree_alter|apply agree_app]. }
    split; [rewrite length_app; lia|]. right. exists (length V), (fst (thread pword ws ds)), ts'.
    split; [done|]. split; [lia|]. split; [|done].
    rewrite lookup_app_r, HL, Nat.sub_diag by lia. done.
Qed.

(** A blank in front of the text changes nothing. *)
Lemma runs_blank V K T I cur c d ik im j er s' :
  runs (Fp V K T I cur c d ik im j er) s' -> vecs s' <> V ->
  runs (Fp V K T I cur (32 :: c) d ik im j er) s'.
Proof.
  intros Hr Hne. inversion Hr as [|? s1 ? Hn Hr']; subst; [by destruct Hne|].
  eapply rtc_l; [|exact Hr']. unfold next, format_turn in *. cbn [cp VtyFormat.set_cp] in *. simpl.
  destruct (span isspace c). exact Hn.
Qed.

Lemma alter_neq (V V' : list (list ptoken)) (cur : nat) ts x :
  V !! cur = Some ts -> V' !! cur = Some (ts ++ [x]) -> V' <> V.
Proof. intros H1 H2 ->. rewrite H1 in H2. injection H2 as H. apply (f_equal length) in H. rewrite length_app in H. simpl in H. lia. Qed.

Lemma stops_args l rest : stops rest -> stops (print_args l ++ rest).
Proof. intros Hs. destruct l; [done|]. by right. Qed.

Lemma int_after_twice I cur g1 g2 : int_after (int_after I cur g1) cur g2 = int_after I cur (g1 || g2).
Proof. unfold int_after. by destruct g1, g2, (cur =? 0)%nat. Qed.

(** The arguments of a keyword. *)
Lemma run_args l : forall V K I cur ts rest d ik j er ds,
  Forall arg_ok l -> stops rest -> ik <> 1 -> V !! cur = Some ts -> (0 < cur)%nat ->
  Forall doc_ok ds -> doc_is d ds ->
  exists V' d' j' ps, runs (Fp V K 0 I cur (print_args l ++ rest) d ik 0 j er)
                           (Fp V' K 0 (int_after I cur (has_group l)) cur rest d' ik 0 j' er)
  /\ doc_is d' (snd (thread arg_token l ds)) /\ Forall doc_ok (snd (thread arg_token l ds))
  /\ V' !! cur = Some (ts ++ ps) /\ agree cur V V' /\ (length V <= length V')%nat
  /\ Forall2 (darg (S cur) V') ps (fst (thread arg_token l ds)).
Proof.
  induction l as [|a l IH]; intros V K I cur ts rest d ik j er ds Hok Hst Hik Hcur H0 Hds Hd.
  { exists V, d, j, []. rewrite app_nil_r. unfold int_after. simpl. by repeat split; try apply agree_refl. }
  apply Forall_cons in Hok as [Ha Hok].
  destruct (run_arg a V K I cur ts (print_args l ++ rest) d ik j er ds Ha)
    as (V1 & d1 & p & Hr1 & Hd1 & Hds1 & Hcur1 & Hag1 & HL1 & Hp); try done;
    [by apply stops_args|intros _; left; lia|].
  destruct (arg_token a ds) as [t ds1] eqn:E1. simpl in Hd1, Hds1, Hp.
  destruct (IH V1 K (int_after I cur (is_group a)) cur (ts ++ [p]) rest d1 ik 1 er ds1)
    as (V2 & d2 & j2 & ps & Hr2 & Hd2 & Hds2 & Hcur2 & Hag2 & HL2 & Hps); try done.
  rewrite int_after_twice in Hr2.
  exists V2, d2, j2, (p :: ps). simpl. rewrite E1. destruct (thread arg_token l ds1) as [ts' ds'] eqn:E2.
  simpl in *. split; [|split; [done|split; [done|split; [|split; [|split; [lia|]]]]]].
  - unfold print_args. simpl. rewrite <- app_assoc. eapply rtc_trans; [|exact Hr2].
    apply runs_blank; [exact Hr1|]. simpl. by eapply alter_neq.
  - by rewrite Hcur2, <- app_assoc.
  - by eapply agree_trans.
  - constructor; [|done]. eapply darg_agree; [exact Hag2|left; lia|done].
Qed.

(** A keyword with its arguments, into the empty vector [cur]. *)
Lemma run_key k V K I cur rest d j er ds :
  key_ok k -> stops rest -> V !! cur = Some [] -> (0 < cur)%nat -> Forall doc_ok ds -> doc_is d ds ->
  exists V' d' j' ps, runs (Fp V K 0 I cur (print_key k ++ rest) d 1 0 j er)
                           (Fp V' K 0 (int_after I cur (has_group (snd k))) cur rest d' 2 0 j' er)
  /\ doc_is d' (snd (key_tokens k ds)) /\ Forall doc_ok (snd (key_tokens k ds))
  /\ V' !! cur = Some ps /\ agree cur V V' /\ (length V <= length V')%nat
  /\ Forall2 (darg (S cur) V') ps (fst (key_tokens k ds)).
Proof.
  intros [Hw Ha] Hst Hcur H0 Hds Hd. destruct k as [w l]. unfold print_key, key_tokens. cbn [fst snd] in *.
  destruct (turn_word V K 0 I cur w (print_args l ++ rest) d 1 0 j er ds Hw) as (d1 & Hd1 & Hn); try done;
    [by apply stops_args|].
  set (V1 := alter _ cur V) in Hn. set (p := PTerm _ _ _) in V1.
  assert (V1 !! cur = Some [p]) as Hcur1 by (unfold V1; by rewrite list_lookup_alter_eq, Hcur).
  destruct (run_args l V1 K I cur [p] rest d1 2 1 er (tail ds))
    as (V2 & d2 & j2 & ps & Hr2 & Hd2 & Hds2 & Hcur2 & Hag2 & HL2 & Hps); try done; [by apply Forall_tail|].
  simpl. destruct (thread arg_token l (tail ds)) as [ts' ds'] eqn:E. simpl in *.
  exists V2, d2, j2, (p :: ps). split; [|split; [done|split; [done|split; [done|split; [|split]]]]].
  - rewrite <- app_assoc. eapply rtc_l; [exact Hn|exact Hr2].
  - eapply agree_trans; [apply agree_alter|exact Hag2].
  - unfold V1 in HL2. rewrite length_alter in HL2. lia.
  - constructor; [|done]. left. by eexists _, _, _.
Qed.

Lemma turn_bar V K I cur rest d j er tops kv :
  V !! 0%nat = Some (tops ++ [PKey kv]) ->
  next (Fp V K 0 I cur (124 :: rest) d 2 0 j er)
       (Fp (V ++ [[]]) (alter (fun vs => vs ++ [length V]) kv K) 0 I (length V) rest d 1 0 j er).
Proof.
  intros HT. unfold next, format_turn. cbn [cp VtyFormat.set_cp].
  change (snd (span isspace (124 :: rest))) with (124 :: rest). cbn -[Z.eqb alter lookup].
  unfold format_parser_handle_pipe. cbn -[alter lookup]. rewrite HT. simpl. by rewrite last_snoc.
Qed.

(** The keywords behind an opening brace, up to the closing one. *)
Lemma run_keys ks : forall V K I cur vs tops kv rest d j er ds,
  ks <> [] -> Forall key_ok ks -> V !! cur = Some [] -> (0 < cur)%nat ->
  V !! 0%nat = Some (tops ++ [PKey kv]) -> K !! kv = Some (vs ++ [cur]) ->
  Forall doc_ok ds -> doc_is d ds ->
  exists V' K' I' d' j' vs',
    runs (Fp V K 0 I cur (bars (print_key <$> ks) ++ 125 :: rest) d 1 0 j er)
         (Fp V' K' 0 I' 0 rest d' 0 0 j' er)
  /\ doc_is d' (snd (thread key_tokens ks ds)) /\ Forall doc_ok (snd (thread key_tokens ks ds))
  /\ (existsb (fun k => has_group (snd k)) ks = false -> I' = I)
  /\ K' !! kv = Some (vs ++ vs') /\ (forall i x, i <> kv -> K !! i = Some x -> K' !! i = Some x)
  /\ agree cur V V' /\ (length V <= length V')%nat
  /\ Forall2 (dvec V') vs' (fst (thread key_tokens ks ds)).
Proof.
  induction ks as [|k ks IH]; intros V K I cur vs tops kv rest d j er ds Hne Hok Hcur H0 HT HK Hds Hd; [done|].
  apply Forall_cons in Hok as [Hk Hok].
  set (text := match ks with [] => 125 :: rest | _ => 124 :: bars (print_key <$> ks) ++ 125 :: rest end).
  assert (bars (print_key <$> (k :: ks)) ++ 125 :: rest = print_key k ++ text) as ->.
  { unfold text. destruct ks; [done|]. simpl. by rewrite <- !app_assoc. }
  destruct (run_key k V K I cur text d j er ds Hk)
    as (V1 & d1 & j1 & ps & Hr1 & Hd1 & Hds1 & Hcur1 & Hag1 & HL1 & Hps); try done.
  { unfold text. by right; destruct ks. }
  destruct (key_tokens k ds) as [kts ds1] eqn:E1. simpl in Hd1, Hds1, Hps.
  assert (V1 !! 0%nat = Some (tops ++ [PKey kv])) as HT1 by (apply Hag1; [lia|done]).
  destruct ks as [|k2 ks].
  - exists V1, K, (int_after I cur (has_group (snd k))), d1, j1, [cur]. simpl. rewrite E1. simpl.
    split; [|split; [done|split; [done|split; [|split; [done|split; [done|split; [done|split; [done|]]]]]]]].
    + eapply rtc_r; [exact Hr1|]. reflexivity.
    + rewrite orb_false_r. by intros ->.
    + constructor; [|done]. split; [done|]. by exists ps.
  - set (V2 := V1 ++ [[]]). set (K2 := alter (fun vs => vs ++ [length V1]) kv K).
    assert (length V1 <> cur /\ (0 < length V1)%nat) as [Hnc Hpos].
    { pose proof (lookup_lt_Some _ _ _ Hcur1). lia. }
    destruct (IH V2 K2 (int_after I cur (has_group (snd k))) (length V1) (vs ++ [cur]) tops kv rest d1 j1 er ds1)
      as (V3 & K3 & I3 & d3 & j3 & vs3 & Hr3 & Hd3 & Hds3 & HI3 & HK3 & HKo & Hag3 & HL3 & Hvs); try done.
    { unfold V2. by rewrite lookup_app_r, Nat.sub_diag by lia. }
    { unfold V2. by apply lookup_app_l_Some. }
    { unfold K2. by rewrite list_lookup_alter_eq, HK. }
    exists V3, K3, I3, d3, j3, (cur :: vs3). rewrite (thread_cons key_tokens k), E1.
    destruct (thread key_tokens (k2 :: ks) ds1) as [kws ds3] eqn:E3. cbn [fst snd] in *.
    assert (agree (length V1) V1 V3) as Hag13.
    { eapply agree_trans; [apply agree_app|exact Hag3]. }
    split; [|split; [done|split; [done|split; [|split; [|split; [|split; [|split]]]]]]].
    + eapply rtc_trans; [exact Hr1|]. eapply rtc_l; [|exact Hr3]. by apply (turn_bar _ _ _ _ _ _ _ _ tops).
    + intros He. apply orb_false_iff in He as [He1 He2]. rewrite (HI3 He2). by rewrite He1.
    + by rewrite HK3, <- app_assoc.
    + intros i x Hi Hx. apply HKo; [done|]. unfold K2. by rewrite list_lookup_alter_ne by done.
    + intros i x Hi Hx. apply Hag13; [|by apply Hag1]. apply lookup_lt_Some in Hx. lia.
    + unfold V2 in HL3. rewrite length_app in HL3. lia.
    + constructor; [|done]. eapply dvec_agree; [exact Hag13|right; lia|]. split; [done|]. by exists ps.
Qed.

(** *** Whole commands *)

Definition top_group (i : item) : bool := match i with IArg (AGroup _) => true | _ => false end.

Lemma run_item i V K I tops rest d j er ds :
  item_ok i -> stops rest -> V !! 0%nat = Some tops -> (top_group i = true -> I = None) ->
  Forall doc_ok ds -> doc_is d ds ->
  exists V' K' I' d' j' p,
    runs (Fp V K 0 I 0 (print_item i ++ rest) d 0 0 j er) (Fp V' K' 0 I' 0 rest d' 0 0 j' er)
  /\ doc_is d' (snd (item_token i ds)) /\ Forall doc_ok (snd (item_token i ds))
  /\ (inner_group i = false -> I' = I)
  /\ V' !! 0%nat = Some (tops ++ [p]) /\ agree 0 V V' /\ (length V <= length V')%nat
  /\ (forall k x, K !! k = Some x -> K' !! k = Some x)
  /\ ditem V' K' p (fst (item_token i ds)).
Proof.
  intros Hok Hst HT HI Hds Hd. destruct i as [a|ks]; simpl.
  - destruct (run_arg a V K I 0 tops rest d 0 j er ds Hok Hst)
      as (V1 & d1 & p & Hr & Hd1 & Hds1 & Hcur & Hag & HL & Hp); try done.
    { intros Hg. right. apply HI. by destruct a. }
    exists V1, K, I, d1, 1, p. split; [|split; [done|split; [done|split; [done|split; [done|split; [done|split; [done|split; [done|]]]]]]]].
    + replace (int_after I 0 (is_group a)) with I in Hr by (unfold int_after; by rewrite andb_false_r). exact Hr.
    + by left.
  - destruct Hok as [Hne Hok].
    set (V1 := alter (fun ts => ts ++ [PKey (length K)]) 0%nat (V ++ [[]])).
    pose proof (lookup_lt_Some _ _ _ HT) as HVpos.
    assert (length V1 = S (length V)) as HL1.
    { unfold V1. rewrite length_alter, length_app. simpl. lia. }
    destruct (run_keys ks V1 (K ++ [[length V]]) I (length V) [] tops (length K) rest d j er ds)
      as (V2 & K2 & I2 & d2 & j2 & vs & Hr & Hd2 & Hds2 & HI2 & HK2 & HKo & Hag & HL & Hvs); try done.
    { unfold V1. rewrite list_lookup_alter_ne by lia. by rewrite lookup_app_r, Nat.sub_diag by lia. }
    { unfold V1. rewrite list_lookup_alter_eq, lookup_app_l by lia. by rewrite HT. }
    { by rewrite lookup_app_r, Nat.sub_diag by lia. }
    destruct (thread key_tokens ks ds) as [kws ds2] eqn:E. cbn [fst snd] in *.
    exists V2, K2, I2, d2, j2, (PKey (length K)).
    split; [|split; [done|split; [done|split; [done|split; [|split; [|split; [lia|split]]]]]]].
    + rewrite <- app_assoc. eapply rtc_l; [|exact Hr]. reflexivity.
    + apply Hag; [lia|]. unfold V1. rewrite list_lookup_alter_eq, lookup_app_l by lia. by rewrite HT.
    + intros i x Hi Hx. apply Hag; [apply lookup_lt_Some in Hx; lia|]. unfold V1.
      rewrite list_lookup_alter_ne by done. by apply lookup_app_l_Some.
    + intros k x Hx. apply HKo; [apply lookup_lt_Some in Hx; lia|]. by apply lookup_app_l_Some.
    + right. exists (length K), vs, kws. done.
Qed.

Lemma ditem_agree V K V' K' p t :
  agree 0 V V' -> (forall k x, K !! k = Some x -> K' !! k = Some x) -> ditem V K p t -> ditem V' K' p t.
Proof.
  intros Ha HK [H|(k & vs & kws & -> & Hk & -> & Hvs)].
  - left. eapply darg_agree; [exact Ha|left; lia|done].
  - right. exists k, vs, kws. split; [done|]. split; [by apply HK|]. split; [done|].
    eapply Forall2_impl; [exact Hvs|]. intros v ts. apply (dvec_agree 0); [done|by left].
Qed.

Lemma stops_blank rest : stops (32 :: rest).
Proof. by right. Qed.

Lemma run_command l : forall V K I tops d j er ds,
  Forall item_ok l -> V !! 0%nat = Some tops -> groups_first l = true ->
  (I = None \/ forallb (fun i => negb (top_group i)) l = true) -> Forall doc_ok ds -> doc_is d ds ->
  exists V' K' I' d' j' ps rest,
    runs (Fp V K 0 I 0 (print_command l) d 0 0 j er) (Fp V' K' 0 I' 0 rest d' 0 0 j' er)
  /\ snd (span isspace rest) = [] /\ V' !! 0%nat = Some (tops ++ ps) /\ agree 0 V V'
  /\ (forall k x, K !! k = Some x -> K' !! k = Some x)
  /\ Forall2 (ditem V' K') ps (fst (thread item_token l ds)).
Proof.
  induction l as [|i l IH]; intros V K I tops d j er ds Hok HT Hgf HI Hds Hd.
  { exists V, K, I, d, j, [], []. rewrite app_nil_r. by repeat split; try apply agree_refl. }
  apply Forall_cons in Hok as [Hi Hok]. simpl in Hgf. apply andb_true_iff in Hgf as [Hg1 Hg2].
  destruct (run_item i V K I tops (32 :: print_command l) d j er ds Hi (stops_blank _) HT)
    as (V1 & K1 & I1 & d1 & j1 & p & Hr1 & Hd1 & Hds1 & HI1 & HT1 & Hag1 & _ & HK1 & Hp); try done.
  { intros Ht. destruct HI as [?|HI]; [done|]. simpl in HI. by rewrite Ht in HI. }
  destruct (item_token i ds) as [t ds1] eqn:E. cbn [fst snd] in *.
  destruct (IH V1 K1 I1 (tops ++ [p]) d1 j1 er ds1)
    as (V2 & K2 & I2 & d2 & j2 & ps & rest & Hr2 & Hrest & HT2 & Hag2 & HK2 & Hps); try done.
  { destruct (inner_group i).
    - right. rewrite <- Hg1. clear. induction l as [|[[|]|] l IH]; simpl; congruence.
    - rewrite HI1 by done. destruct HI as [?|HI]; [by left|]. right. by apply andb_true_iff in HI as [_ ?]. }
  assert (print_command (i :: l) = print_item i ++ 32 :: print_command l) as Hpr
    by (unfold print_command; simpl; by rewrite <- app_assoc).
  rewrite thread_cons, E. destruct l as [|i2 l].
  { exists V1, K1, I1, d1, j1, [p], [32]. rewrite Hpr. simpl. split; [exact Hr1|].
    repeat split; try done. by constructor. }
  assert (Forall2 (ditem V2 K2) (p :: ps) (t :: fst (thread item_token (i2 :: l) ds1))) as HF.
  { constructor; [|done]. by eapply ditem_agree. }
  assert (ps <> []) as Hpne.
  { intros ->. apply Forall2_nil_inv_l in Hps. rewrite thread_cons in Hps.
    destruct (item_token i2 ds1) as [? ds3]. by destruct (thread item_token l ds3). }
  exists V2, K2, I2, d2, j2, (p :: ps), rest. rewrite Hpr.
  split; [|split; [done|split; [by rewrite HT2, <- app_assoc|split; [by eapply agree_trans|split; [auto|]]]]].
  - eapply rtc_trans; [exact Hr1|]. apply runs_blank; [exact Hr2|]. simpl. intros ->. rewrite HT1 in HT2.
    injection HT2 as HT2. apply (f_equal length) in HT2. rewrite !length_app in HT2.
    destruct ps; [done|]. simpl in HT2. lia.
  - by destruct (thread item_token (i2 :: l) ds1).
Qed.

(** What a store means is what [resolve] reads from it. *)
Lemma fmap_Forall2 {A B} (f : A -> B) (R : A -> B -> Prop) l k :
  (forall x y, R x y -> f x = y) -> Forall2 R l k -> f <$> l = k.
Proof. intros Hf. induction 1; csimpl; [done|]. f_equal; [by apply Hf|done]. Qed.

Definition resolve_token (fuel : nat) s (t : ptoken) : cmd_token :=
  match t with
  | PTerm k c d => TERMINAL k c d
  | PMult m => MULTIPLE (resolve fuel s m)
  | PKey k => KEYWORD ((fun w => resolve fuel s w) <$> default [] (kvecs s !! k))
  end.
Lemma resolve_S fuel s v : resolve (S fuel) s v = resolve_token fuel s <$> default [] (vecs s !! v).
Proof. done. Qed.
Lemma resolve_term fuel s p t : dterm p t -> resolve_token fuel s p = t.
Proof. by intros (k & c & d & -> & ->). Qed.
Lemma resolve_arg fuel s lo p t : darg lo (vecs s) p t -> resolve_token (S fuel) s p = t.
Proof.
  intros [H|(m & ps & ts & -> & _ & Hm & Hts & ->)]; [by apply resolve_term|].
  unfold resolve_token. rewrite resolve_S, Hm. f_equal. eapply fmap_Forall2; [|exact Hts].
  intros x y. apply resolve_term.
Qed.
Lemma resolve_item fuel s p t : ditem (vecs s) (kvecs s) p t -> resolve_token (S (S fuel)) s p = t.
Proof.
  intros [H|(k & vs & kws & -> & Hk & -> & Hvs)]; [by eapply resolve_arg|].
  unfold resolve_token at 1. rewrite Hk. change (default [] (Some vs)) with vs. f_equal. eapply fmap_Forall2; [|exact Hvs].
  intros v ts (_ & ps & Hps & Hts). rewrite resolve_S, Hps. eapply fmap_Forall2; [|exact Hts].
  intros x y. apply resolve_arg.
Qed.

Lemma tokens_of_items s ps ts :
  topvect s = 0%nat -> vecs s !! 0%nat = Some ps -> Forall2 (ditem (vecs s) (kvecs s)) ps ts -> tokens_of s = ts.
Proof.
  intros HT HV Hps. unfold tokens_of. rewrite HT, resolve_S, HV. pose proof (lookup_lt_Some _ _ _ HV) as Hl.
  destruct (length (vecs s)) as [|[|n]] eqn:E; [lia| |].
  - (* one vector: words only *)
    eapply fmap_Forall2; [|exact Hps]. intros p t Hp.
    destruct Hp as [Hp|(k & vs & kws & -> & Hk & -> & Hvs)]; [by eapply resolve_arg|].
    unfold resolve_token. rewrite Hk. change (default [] (Some vs)) with vs. f_equal.
    eapply fmap_Forall2; [|exact Hvs]. intros v ts' (Hv & ps' & Hps' & _). apply lookup_lt_Some in Hps'. lia.
  - eapply fmap_Forall2; [|exact Hps]. intros p t. apply resolve_item.
Qed.

(** C8. Reading a command back: for every command made of words, groups of alternatives and
    keywords with arguments, printed with its description lines, [cmd_parse_format] returns the
    tokens the command stands for, each word with its kind and its line of the description. The
    words must be non-empty and free of blanks and of the six characters of the notation; no
    group may stand at the top level behind keywords that have a group among their arguments. *)
Theorem cmd_parse_format_roundtrip (l : list item) (ds : list (list Z)) :
  Forall item_ok l -> groups_first l = true -> Forall doc_ok ds ->
  cmd_parse_format (print_command l) (Some (print_docs ds)) = Some (fst (thread item_token l ds)).
Proof.
  intros Hok Hgf Hds.
  destruct (run_command l [[]] [] None [] (Some (print_docs ds)) 0 [] ds)
    as (V & K & I & d & j & ps & rest & Hr & Hrest & HT & _ & _ & Hps); try done; [by left|by apply doc_is_init|].
  set (s := format_init (print_command l) (Some (print_docs ds))).
  set (s' := Fp V K 0 I 0 rest d 0 0 j []) in *.
  destruct (runs_loop s s' (Parsed (VtyFormat.set_cp [] s')) Hr) as [k Hk].
  { exists 1%nat. simpl. unfold format_turn. cbn [cp VtyFormat.set_cp s']. rewrite Hrest. reflexivity. }
  unfold cmd_parse_format. fold s.
  rewrite (cmd_parse_format_decided s _ k _ Hk) by (simpl; lia).
  f_equal. by apply (tokens_of_items _ ps).
Qed.
Definition demo_command : list item :=
  [IArg (AWord (str "show")); IArg (AGroup [str "ip"; str "mac"]);
   IKeys [(str "limit", [AWord (str "<1-9>")]); (str "all", [])]; IArg (AWord (str "NAME"))].
Lemma cmd_parse_format_roundtrip_witness :
  print_command demo_command = str "show (ip|mac) {limit <1-9>|all} NAME "
  /\ cmd_parse_format (print_command demo_command) (Some (print_docs [str "Show"; str "Internet"]))
     = Some (fst (thread item_token demo_command [str "Show"; str "Internet"])).
Proof.
  split; [reflexivity|]. apply cmd_parse_format_roundtrip.
  - repeat (apply Forall_cons; split); try apply Forall_nil; repeat split; try discriminate;
      repeat (apply Forall_cons; split); try apply Forall_nil; repeat split; try discriminate;
      repeat (apply Forall_cons; split); try apply Forall_nil; repeat split; try discriminate;
      repeat (apply Forall_cons; split); try apply Forall_nil; repeat split; try discriminate;
      repeat (apply Forall_cons; split); try apply Forall_nil; reflexivity.
  - reflexivity.
  - repeat (apply Forall_cons; split); try apply Forall_nil; repeat split; try discriminate;
      repeat (apply Forall_cons; split); try apply Forall_nil; split; discriminate.
Defined.

(** Where the round trip stops: [intvect] still points to the vector of an earlier keyword when
    a group at the top level is closed, so that what follows becomes an argument of the keyword. *)
Lemma group_after_keywords_misplaced :
  cmd_parse_format (str "{a (x|y)} (z|w) b") None
  = Some [KEYWORD [[TERMINAL TERMINAL_LITERAL (str "a") None;
                    MULTIPLE [TERMINAL TERMINAL_LITERAL (str "x") None; TERMINAL TERMINAL_LITERAL (str "y") None];
                    TERMINAL TERMINAL_LITERAL (str "b") None]];
          MULTIPLE [TERMINAL TERMINAL_LITERAL (str "z") None; TERMINAL TERMINAL_LITERAL (str "w") None]].
Proof. reflexivity. Qed.
Lemma bar_outside_group_never_returns :
  forall k, exists s', format_loop k (format_init (str "a|b") None) = Running s'.
Proof.
  intros [|k]; [by eexists|].
  change (exists s', format_loop k (Fp [[PTerm TERMINAL_LITERAL [97] None]] [] 0 None 0 [124; 98] None 0 0 1 []) = Running s').
  apply stuck_forever. by exists [98].
Qed.
