(* ===== verification/Vty.v ===== *)
(** * Sessions (opbox/vty.c): from the bytes of a connection to commands

    [vty_read] takes the bytes that arrive through the telnet options and escape sequences to
    the editor, the interpreter and their output. *)

From S2P Require Import Prelude CString Utils Vector VtyTerm VtyWord VtyCmd VtyExec.
From stdpp Require Import base tactics numbers list strings.
From Stdlib Require Import ZArith Lia.
Open Scope Z_scope.

Module Vty.
Import Utils Vector VtyTerm VtyWord VtyCmd VtyExec.

(** [vty_out] with several pieces of text. *)
Definition outs (v : vty) (pieces : list (list Z)) : option vty := vty_out v (mjoin pieces).

(** ["%-*s"]. *)
Definition pad (width : Z) (s : list Z) : list Z := s ++ replicate (Z.to_nat (width - zlen s)) 32.
(** [token->cmd[0] == '.' ? token->cmd + 1 : token->cmd]. *)
Definition shown (cmd : list Z) : list Z := if char_at cmd =? 46 then tail cmd else cmd.

Section Session.
Context {C : Type}.
Variable inet_pton6 : list Z -> bool.
Variable cmdvec : list (option (cmd_node C)).
Variable run_cb : C -> list word -> cmd_element C -> vty -> option (Z * vty).

Notation prompt := (VtyExec.cmd_prompt cmdvec).

(** ** Execution *)

(** The argument [buf] is the buffer of the session. *)
Definition vty_command (v : vty) : option (Z * vty) :=
  s ← string_of (buf v);
  match cmd_make_strvec (Some s) with
  | None => Some (0, v)
  | Some vline =>
      '(ret, v) ← cmd_execute_command inet_pton6 cmdvec run_cb vline v;
      v ← (if ret =? CMD_WARNING then
             if vtype v =? VTY_FILE then outs v [str "Warning..."; VTY_NEWLINE v] else Some v
           else if ret =? CMD_ERR_AMBIGUOUS then outs v [str "% Ambiguous command."; VTY_NEWLINE v]
           else if ret =? CMD_ERR_NO_MATCH then
             s ← string_of (buf v); outs v [str "% Unknown command: "; s; VTY_NEWLINE v]
           else if ret =? CMD_ERR_INCOMPLETE then outs v [str "% Command incomplete."; VTY_NEWLINE v]
           else Some v);
      Some (ret, v)
  end.

Definition vty_execute (v : vty) : option (Z * vty) :=
  '(ret, v) ← vty_command v;
  v ← (if vtype v =? VTY_TERM then vty_hist_add v else Some v);
  v ← vty_clear_buf (set_len 0 (set_cp 0 v));
  v ← (if negb (status v =? VTY_CLOSE) then vty_prompt prompt v else Some v);
  Some (ret, v).

(** ** Completion *)

(** The words of the line, with an empty one behind a blank at its end. *)
Definition line_words (v : vty) : option (option (list word)) :=
  s ← string_of (buf v);
  match cmd_make_strvec (Some s) with
  | None => Some None
  | Some vline =>
      c ← char_of (buf v) (len v - 1);
      Some (Some (if isspace c then vset vline None else vline))
  end.

Definition redisplay (v : vty) : option vty := v ← vty_prompt prompt v; vty_redraw_line v.

Fixpoint print_list (i : nat) (matched : list (list Z)) (v : vty) : option vty :=
  match matched with
  | [] => Some v
  | s :: r =>
      v ← (if negb (i =? 0)%nat && (i mod 6 =? 0)%nat then vty_out v (VTY_NEWLINE v) else Some v);
      v ← outs v [pad 10 s; [32]];
      print_list (S i) r v
  end.

Definition vty_complete_command (v : vty) : option vty :=
  vl ← line_words v;
  match vl with
  | None => Some v
  | Some vline =>
      '(ret, matched) ← cmd_complete_command_lib inet_pton6 cmdvec vline v;
      v ← vty_out v (VTY_NEWLINE v);
      if ret =? CMD_ERR_AMBIGUOUS then
        v ← outs v [str "% Ambiguous command."; VTY_NEWLINE v]; redisplay v
      else if ret =? CMD_ERR_NO_MATCH then redisplay v
      else if ret =? CMD_COMPLETE_FULL_MATCH then
        v ← redisplay v;
        v ← vty_backward_pure_word v;
        m ← matched !! 0%nat;
        v ← vty_insert_word_overwrite v m;
        vty_self_insert v 32
      else if ret =? CMD_COMPLETE_MATCH then
        v ← redisplay v;
        v ← vty_backward_pure_word v;
        m ← matched !! 0%nat;
        vty_insert_word_overwrite v m
      else if ret =? CMD_COMPLETE_LIST_MATCH then
        v ← print_list 0 matched v;
        v ← vty_out v (VTY_NEWLINE v);
        redisplay v
      else if ret =? CMD_ERR_NOTHING_TODO then redisplay v
      else Some v
  end.

(** ** Description *)

(** The position of the last blank in [p[1..pos]], 0 if there is none. *)
Fixpoint fold_pos (p : list Z) (pos : nat) : nat :=
  match pos with
  | O => O
  | S n => if char_at (drop pos p) =? 32 then pos else fold_pos p n
  end.
(** The lines a description is folded into; a line takes at least two characters. *)
Fixpoint fold_lines (fuel : nat) (desc_width : nat) (p : list Z) : list (list Z) :=
  match fuel with
  | O => [p]
  | S fuel =>
      if (desc_width <? length p)%nat then
        match fold_pos p desc_width with
        | O => [p]
        | pos => take pos p :: fold_lines fuel desc_width (drop (S pos) p)
        end
      else [p]
  end.
Definition line_of (v : vty) (width : Z) (cmd desc : list Z) : list (list Z) :=
  [[32; 32]; pad width cmd; [32; 32]; desc; VTY_NEWLINE v].
Fixpoint print_fold (v : vty) (width : Z) (cmd : list Z) (ls : list (list Z)) : option vty :=
  match ls with
  | [] => Some v
  | d :: r => v ← outs v (line_of v width cmd d); print_fold v width [] r
  end.
Definition vty_describe_fold (v : vty) (cmd_width desc_width : Z) (cmd desc : list Z) : option vty :=
  let cmd := shown cmd in
  if desc_width <=? 0 then outs v (line_of v cmd_width cmd desc)
  else print_fold v cmd_width cmd (fold_lines (length desc) (Z.to_nat desc_width) desc).

Definition describe_token (v : vty) (width desc_width : Z) (t : cmd_token) : option vty :=
  cmd ← cmd_of t;
  match desc_of t with
  | None => outs v [[32; 32]; shown cmd; VTY_NEWLINE v]
  | Some desc =>
      if zlen desc <=? desc_width then outs v (line_of v width (shown cmd) desc)
      else vty_describe_fold v width desc_width cmd desc
  end.

Definition cmd_width (t : cmd_token) : option Z :=
  cmd ← cmd_of t;
  Some (match cmd with [] => 0 | c :: _ => if c =? 46 then zlen cmd - 1 else zlen cmd end).
Fixpoint max_width (ts : list cmd_token) (width : Z) : option Z :=
  match ts with
  | [] => Some width
  | t :: r => n ← cmd_width t; max_width r (Z.max width n)
  end.

(** The tokens but [<cr>], which comes last. *)
Fixpoint describe_tokens (ts : list cmd_token) (v : vty) (width desc_width : Z) (cr : option cmd_token)
    : option (option cmd_token * vty) :=
  match ts with
  | [] => Some (cr, v)
  | t :: r =>
      cmd ← cmd_of t;
      if bool_decide (cmd = []) then describe_tokens r v width desc_width cr
      else if str_eq cmd command_cr then describe_tokens r v width desc_width (Some t)
      else v ← describe_token v width desc_width t; describe_tokens r v width desc_width cr
  end.

Definition vty_describe_command (v : vty) : option vty :=
  vl ← line_words v;
  let vline := match vl with None => [None] | Some vline => vline end in
  '(ret, describe) ← cmd_describe_command inet_pton6 cmdvec vline v;
  v ← vty_out v (VTY_NEWLINE v);
  v ← (if ret =? CMD_ERR_AMBIGUOUS then outs v [str "% Ambiguous command."; VTY_NEWLINE v]
       else if ret =? CMD_ERR_NO_MATCH then outs v [str "% There is no matched command."; VTY_NEWLINE v]
       else if negb (ret =? CMD_SUCCESS) then None
       else
         w ← max_width describe 0;
         let desc_width := u32 (width v - (w + 6)) in
         '(cr, v) ← describe_tokens describe v w desc_width None;
         match cr with None => Some v | Some t => describe_token v w desc_width t end);
  redisplay v.

(** ** Input *)

(** A byte behind a lone escape character. *)
Definition pre_escape (c : Z) (v : vty) : option vty :=
  if c =? 91 then Some (set_escape VTY_ESCAPE v)
  else
    v ← (if c =? 98 then vty_backward_word v
         else if c =? 102 then vty_forward_word v
         else if c =? 100 then vty_forward_kill_word prompt v
         else if (c =? CONTROL 72) || (c =? 127) then vty_backward_kill_word prompt v
         else Some v);
    Some (set_escape VTY_NORMAL v).

(** A byte in normal mode; an escape character is handled by [vty_read]. *)
Definition normal_key (c : Z) (v : vty) : option vty :=
  if c =? CONTROL 65 then vty_beginning_of_line v
  else if c =? CONTROL 66 then Some (vty_backward_char v)
  else if c =? CONTROL 67 then Some v
  else if c =? CONTROL 68 then vty_delete_char prompt v
  else if c =? CONTROL 69 then vty_end_of_line v
  else if c =? CONTROL 70 then vty_forward_char v
  else if (c =? CONTROL 72) || (c =? 127) then vty_delete_backward_char prompt v
  else if c =? CONTROL 75 then vty_kill_line v
  else if c =? CONTROL 78 then vty_next_line v
  else if c =? CONTROL 80 then vty_previous_line v
  else if c =? CONTROL 84 then vty_transpose_chars v
  else if c =? CONTROL 85 then vty_kill_line_from_beginning v
  else if c =? CONTROL 86 then Some (set_escape VTY_LITERAL v)
  else if c =? CONTROL 87 then vty_backward_kill_word prompt v
  else if c =? CONTROL 90 then Some v
  else if (c =? 10) || (c =? 13) then
    v ← vty_out v (VTY_NEWLINE v); snd <$> vty_execute v
  else if c =? 9 then vty_complete_command v
  else if c =? 63 then vty_describe_command v
  else if (31 <? c) && (c <? 127) then vty_self_insert v c
  else Some v.

(** One turn of the loop of [vty_read] on the byte [c] followed by [next]: the session and
    whether the next byte is skipped. *)
Definition read_byte (c : Z) (next : list Z) (v : vty) : option (bool * vty) :=
  if (c =? IAC) && (iac v =? 0) then Some (false, set_iac 1 v)
  else
    let v := if c =? IAC then set_iac 0 v else v in
    if negb (iac_sb_in_progress v =? 0) && (iac v =? 0) then
      let v := if sb_len v <? zlen (sb_buf v)
               then set_sb_buf (<[Z.to_nat (sb_len v) := c]> (sb_buf v)) v else v in
      Some (false, set_sb_len (u64 (sb_len v + 1)) v)
    else if negb (iac v =? 0) then
      '(ret, v) ← vty_telnet_option v c;
      Some (negb (ret =? 0), set_iac 0 v)
    else if status v =? VTY_MORE then
      v ← (if (c =? CONTROL 67) || (c =? 113) || (c =? 81) then vty_prompt prompt v else Some v);
      Some (false, v)
    else if escape v =? VTY_ESCAPE then v ← vty_escape_map c v; Some (false, v)
    else if escape v =? VTY_LITERAL then
      v ← vty_self_insert v c; Some (false, set_escape VTY_NORMAL v)
    else if escape v =? VTY_PRE_ESCAPE then v ← pre_escape c v; Some (false, v)
    else if c =? 27 then
      match next with
      | 91 :: _ => Some (true, set_escape VTY_ESCAPE v)
      | _ => Some (false, set_escape VTY_PRE_ESCAPE v)
      end
    else v ← normal_key c v; Some (false, v).

Fixpoint vty_read (v : vty) (buf : list Z) : option vty :=
  match buf with
  | [] => Some v
  | c :: r =>
      '(skip, v) ← read_byte c r v;
      match skip, r with
      | true, _ :: r => vty_read v r
      | _, _ => vty_read v r
      end
  end.

(** ** The commands of a node *)

Fixpoint list_loop (cmds : list (option (cmd_element C))) (v : vty) : option vty :=
  match cmds with
  | [] => Some v
  | None :: r => list_loop r v
  | Some e :: r =>
      v ← (if negb ((el_attr e =? CMD_ATTR_DEPRECATED) || (el_attr e =? CMD_ATTR_HIDDEN))
           then outs v [[32; 32]; el_string e; VTY_NEWLINE v] else Some v);
      list_loop r v
  end.
Definition vty_list (v : vty) : option vty :=
  cmds ← cmd_node_vector cmdvec (node v); list_loop cmds v.

End Session.

End Vty.
