(* ===== verification/VtySpec.v ===== *)
(** * Sessions: any input is handled inside the session's arrays

    The invariant of a session, that every operation of the editor and of the interpreter keeps
    it, and that reading any bytes keeps it as well: no access leaves an array, no null pointer
    is followed, no loop runs on. *)

From S2P Require Import Prelude CString Utils Vector VtyTerm VtyTermSpec VtyWord VtyCmd VtyCmdSpec VtyExec VtyExecSpec Vty.
From stdpp Require Import base tactics numbers list strings.
From Stdlib Require Import ZArith Lia.
Import Utils Vector VtyTerm VtyWord VtyCmd VtyExec Vty.
Open Scope Z_scope.

(** ** Computations that return *)

Definition safe {A} (P : A -> Prop) (x : option A) : Prop := exists y, x = Some y /\ P y.
Lemma safe_some {A} (P : A -> Prop) y : P y -> safe P (Some y).
Proof. by exists y. Qed.
Lemma safe_bind {A B} (P : A -> Prop) (Q : B -> Prop) x (f : A -> option B) :
  safe P x -> (forall y, P y -> safe Q (f y)) -> safe Q (x ≫= f).
Proof. intros (y & -> & Hy) Hf. by apply Hf. Qed.
Lemma safe_weaken {A} (P Q : A -> Prop) x : safe P x -> (forall y, P y -> Q y) -> safe Q x.
Proof. intros (y & Hx & Hy) H. exists y. auto. Qed.

Section Session.
Context {C : Type} (inet_pton6 : list Z -> bool) (cmdvec : list (option (cmd_node C))).
Notation prompt := (VtyExec.cmd_prompt cmdvec).

(** ** The invariant *)

(** The lines of the history fit the buffer; the two positions are inside the ring; the host
    name fits its array. *)
Definition hist_ok (v : vty) : Prop :=
  length (hist v) = 20%nat /\ 0 <= hindex v < 20 /\ 0 <= hp v < 20
  /\ Forall (fun h => forall s, h = Some s -> zlen s < VTY_INPUT_BUF_SIZE) (hist v).
Definition session (v : vty) : Prop :=
  (exists l r, at_line v l r) /\ hist_ok v /\ length (sb_buf v) = 5%nat /\ 0 <= sb_len v
  /\ (zlen (hostname v) < 64 /\ prompt_ok prompt v) /\ wf_node cmdvec (node v).
Notation ok := (safe session).

Lemma session_frame v v' l r : session v -> at_line v' l r -> frame v' = frame v -> session v'.
Proof.
  intros (_ & Hh & Hsb & Hsl & Hp & Hn) Hl Hf. unfold frame in Hf. simplify_eq.
  unfold session, hist_ok, prompt_ok in *.
  repeat match goal with H : _ v' = _ v |- _ => rewrite H; clear H end. eauto 10.
Qed.
Lemma session_edits q v v' l r l' r' : session v -> edits q v v' l r l' r' -> session v'.
Proof. intros Hs (Hl & Hf & _). by eapply session_frame. Qed.
Lemma session_write v s : session v -> session (vty_write v s).
Proof. by intros H. Qed.

Lemma press_safe k v : session v -> ok (press prompt k v).
Proof.
  intros Hs. pose proof Hs as ((l & r & Hl) & _ & _ & _ & [_ Hp] & _).
  destruct (press_edits prompt k v l r Hl Hp) as (v' & -> & He). apply safe_some. by eapply session_edits.
Qed.
Lemma out_safe v s : session v -> zlen s < VTY_OUT_SIZE -> ok (vty_out v s).
Proof. intros Hs Hl. rewrite vty_out_ok by done. by apply safe_some. Qed.
Lemma newline_safe v : session v -> ok (vty_out v (VTY_NEWLINE v)).
Proof. intros Hs. apply out_safe; [done|apply VTY_NEWLINE_fits]. Qed.
Lemma prompt_safe v : session v -> ok (vty_prompt prompt v).
Proof.
  intros Hs. pose proof Hs as (_ & _ & _ & _ & [_ Hp] & _). destruct (prompt_writes prompt v Hp) as (s & -> & _).
  by apply safe_some.
Qed.

Lemma redraw_edits v l r :
  at_line v l r -> exists v', vty_redraw_line v = Some v' /\ at_line v' (l ++ r) [] /\ frame v' = frame v.
Proof.
  intros H. line_facts H. unfold vty_redraw_line. rewrite Hbuf, (app_assoc l r), (slice_front (l ++ r)) by zlia.
  rewrite bind_some. eexists. split; [done|]. split; [|done].
  split; [exists rest; simpl; by rewrite Hbuf, <- app_assoc|]. simpl. repeat split; try done; zlia.
Qed.
Lemma redisplay_safe v : session v -> ok (redisplay cmdvec v).
Proof.
  intros Hs. unfold redisplay. eapply safe_bind; [by apply prompt_safe|]. intros v1 H1.
  pose proof H1 as ((l & r & Hl) & _). destruct (redraw_edits v1 l r Hl) as (v' & -> & Hl' & Hf). apply safe_some.
  by eapply session_frame.
Qed.

(** ** The history *)

Lemma history_print_safe v : session v -> (exists line, hist_at v (hp v) = Some (Some line)) -> ok (vty_history_print v).
Proof.
  intros Hs [line Hh]. pose proof Hs as ((l & r & Hl) & (_ & _ & _ & Hf) & _).
  assert (zlen line < VTY_INPUT_BUF_SIZE) as Hlen.
  { unfold hist_at in Hh. case_match; [|done]. exact (Forall_lookup_1 _ _ _ _ Hf Hh line eq_refl). }
  destruct (history_print_edits v l r line Hl Hh Hlen) as (v' & -> & He). apply safe_some. by eapply session_edits.
Qed.
Lemma session_set_hp v i : session v -> 0 <= i < 20 -> session (set_hp i v).
Proof. intros (Hl & (H1 & H2 & _ & H4) & Hr) Hi. split; [exact Hl|]. split; [|exact Hr]. unfold hist_ok. simpl. tauto. Qed.
Lemma hist_at_ok v i : session v -> 0 <= i < 20 -> exists h, hist_at v i = Some h.
Proof.
  intros (_ & (Hl & _) & _) Hi. unfold hist_at. replace (0 <=? i) with true by lia.
  apply lookup_lt_is_Some_2. lia.
Qed.
Lemma recall_safe v i :
  session v -> 0 <= i < 20 ->
  ok (h ← hist_at v i; match h with None => Some v | Some _ => vty_history_print (set_hp i v) end).
Proof.
  intros Hs Hi. destruct (hist_at_ok v i Hs Hi) as [h Hh]. rewrite Hh, bind_some.
  destruct h as [line|]; [|by apply safe_some]. apply history_print_safe; [by apply session_set_hp|]. by exists line.
Qed.
Lemma previous_line_safe v : session v -> ok (vty_previous_line v).
Proof.
  intros Hs. unfold vty_previous_line. apply recall_safe; [done|].
  destruct Hs as (_ & (_ & _ & Hp & _) & _). unfold VTY_HIST_CMD_SIZE. case_match; btest; lia.
Qed.
Lemma next_line_safe v : session v -> ok (vty_next_line v).
Proof.
  intros Hs. unfold vty_next_line. case_match; [by apply safe_some|]. apply recall_safe; [done|].
  destruct Hs as (_ & (_ & _ & Hp & _) & _). unfold VTY_HIST_CMD_SIZE. case_match; btest; lia.
Qed.
Lemma hist_add_safe v : session v -> ok (vty_hist_add v).
Proof.
  intros Hs. pose proof Hs as ((l & r & Hl) & (H1 & H2 & H3 & H4) & Hrest). unfold vty_hist_add.
  case_match; [by apply safe_some|]. unfold VTY_HIST_CMD_SIZE.
  set (index := if negb (hindex v =? 0) then hindex v - 1 else 20 - 1).
  destruct (hist_at_ok v index Hs) as [h ->]; [subst index; case_match; btest; lia|]. rewrite bind_some.
  destruct (string_of_line v l r Hl) as [-> Hlen]. rewrite bind_some.
  case_bool_decide; [apply safe_some; by apply session_set_hp|].
  destruct (hist_at_ok v (hindex v) Hs H2) as [h' ->]. rewrite bind_some. apply safe_some.
  set (line := cstr (l ++ r ++ [0])) in *.
  assert (Forall (fun h => forall s, h = Some s -> zlen s < VTY_INPUT_BUF_SIZE)
            (<[Z.to_nat (hindex v) := Some line]> (hist v))) as Hf.
  { apply Forall_insert; [done|]. by intros s [= <-]. }
  cbn [hindex set_hindex set_hist]. destruct (hindex v + 1 =? 20) eqn:E; btest;
    unfold session, hist_ok; simpl; (split; [by exists l, r|]); (split; [|done]);
    rewrite length_insert; split_and!; done || lia.
Qed.

Lemma clear_buf_edits v l r :
  at_line v l r ->
  exists v', vty_clear_buf (set_len 0 (set_cp 0 v)) = Some v' /\ at_line v' [] [] /\ frame v' = frame v.
Proof.
  intros Hl. line_facts Hl. unfold vty_clear_buf. simpl. rewrite Hmax.
  unfold zeros. rewrite poke_front by (rewrite length_replicate; zlia). rewrite bind_some.
  eexists. split; [done|]. split; [|done]. rewrite length_replicate.
  replace (drop _ (buf v)) with (@nil Z) by (symmetry; apply drop_ge; zlia). rewrite app_nil_r.
  split; [by exists (replicate 1023 0)|]. simpl. repeat split; try done; zlia.
Qed.
Lemma clear_buf_safe v : session v -> ok (vty_clear_buf (set_len 0 (set_cp 0 v))).
Proof.
  intros Hs. pose proof Hs as ((l & r & Hl) & _). destruct (clear_buf_edits v l r Hl) as (v' & -> & H1 & H2).
  apply safe_some. by eapply session_frame.
Qed.

(** ** Telnet options and escape sequences *)

Lemma escape_map_safe c v : session v -> ok (vty_escape_map c v).
Proof.
  intros Hs. unfold vty_escape_map. eapply (safe_bind session); [|by intros y Hy; apply safe_some].
  repeat case_match; try (by apply safe_some).
  - by apply previous_line_safe.
  - by apply next_line_safe.
  - by apply (press_safe KForward).
  - by apply (press_safe KBackward).
Qed.
Lemma telnet_option_safe c v : session v -> safe (fun x => session (snd x)) (vty_telnet_option v c).
Proof.
  intros Hs. unfold vty_telnet_option. pose proof Hs as (Hl & Hh & Hsb & Hsl & Hr).
  case_match; [apply safe_some; split; [exact Hl|]; split; [exact Hh|]; split; [exact Hsb|]; split; [simpl; lia|exact Hr]|].
  case_match; [|by apply safe_some]. case_match; [by apply safe_some|].
  destruct (sb_buf v) as [|b0 [|b1 [|b2 [|b3 [|b4 [|]]]]]] eqn:E; simplify_eq/=.
  case_match; [by apply safe_some|]. case_match; [|by apply safe_some]. by apply safe_some.
Qed.
Lemma pre_escape_safe c v : session v -> ok (pre_escape cmdvec c v).
Proof.
  intros Hs. unfold pre_escape. case_match; [by apply safe_some|].
  eapply (safe_bind session); [|by intros y Hy; apply safe_some]. repeat case_match; try (by apply safe_some).
  - by apply (press_safe KBackwardWord).
  - by apply (press_safe KForwardWord).
  - by apply (press_safe KForwardKillWord).
  - by apply (press_safe KBackwardKillWord).
Qed.
End Session.

(** ** Commands *)

Section Commands.
Context {C : Type} (inet_pton6 : list Z -> bool) (cmdvec : list (option (cmd_node C))).
Variable run_cb : C -> list word -> cmd_element C -> vty -> option (Z * vty).
Notation prompt := (VtyExec.cmd_prompt cmdvec).
Notation session := (session cmdvec).
Notation ok := (safe session).

(** The callbacks keep the session, and its host name. *)
Definition callbacks_ok : Prop :=
  forall cb argv e v, session v -> wf_element e -> vector_active argv <= CMD_ARGC_MAX ->
  safe (fun x => session (snd x) /\ hostname (snd x) = hostname v) (run_cb cb argv e v).
Hypothesis Hcb : callbacks_ok.

Lemma execute_real_safe vline filter v :
  session v ->
  safe (fun x => session (snd x) /\ hostname (snd x) = hostname v)
    (cmd_execute_command_real inet_pton6 cmdvec run_cb vline filter v).
Proof.
  intros Hs. unfold cmd_execute_command_real. pose proof Hs as (_ & _ & _ & _ & _ & Hn).
  destruct (cmd_select_total inet_pton6 cmdvec vline filter (node v) Hn) as (r & -> & Hr). rewrite bind_some.
  destruct r as [ret|[e argv]]; [by apply safe_some|]. destruct Hr. by apply Hcb.
Qed.
Lemma execute_command_safe vline v :
  session v -> vline <> [] -> safe (fun x => session (snd x)) (cmd_execute_command inet_pton6 cmdvec run_cb vline v).
Proof.
  intros Hs Hne. destruct vline as [|w vline]; [done|]. unfold cmd_execute_command. simpl.
  case_match.
  - eapply safe_bind; [by apply execute_real_safe|]. intros [ret v'] [Hv' Hh]. apply safe_some. simpl in *.
    destruct Hv' as (Hl & Hhist & Hsb & Hsl & _ & _), Hs as (_ & _ & _ & _ & Hp & Hn).
    split; [exact Hl|]. split; [exact Hhist|]. split; [exact Hsb|]. split; [exact Hsl|]. split; [|exact Hn].
    unfold prompt_ok in *. simpl. by rewrite Hh.
  - eapply safe_weaken; [by apply execute_real_safe|]. by intros y [? _].
Qed.

Lemma strvec_words_ne fuel cp : strvec_words (S fuel) cp <> [].
Proof. simpl. destruct (span (fun c => negb (blank_char c)) cp) as [tok rest]. by case_match. Qed.
(** The fuel of [cmd_make_strvec] is enough: from a character of a word on, more changes nothing. *)
Lemma strvec_words_fuel k : forall f c cp,
  (length (c :: cp) <= f)%nat -> blank_char c = false ->
  strvec_words (f + k) (c :: cp) = strvec_words f (c :: cp).
Proof.
  induction f as [|f IH]; intros c cp Hf Hc; [simpl in Hf; lia|].
  cbn [Nat.add strvec_words span]. rewrite Hc. cbn [negb].
  pose proof (span_length (fun c => negb (blank_char c)) cp) as H1.
  destruct (span (fun c => negb (blank_char c)) cp) as [tok rest]. simpl in H1.
  pose proof (span_length blank_char rest) as H2. pose proof (span_stops blank_char rest) as H3.
  destruct (snd (span blank_char rest)) as [|c' rest']; [done|]. f_equal.
  apply IH; [simpl in *; lia|by eapply H3].
Qed.
Lemma make_strvec_ne s vline : cmd_make_strvec (Some s) = Some vline -> vline <> [] /\ s <> [].
Proof.
  unfold cmd_make_strvec. rewrite bind_some. destruct (snd (span isspace s)) as [|c cp] eqn:E; [done|].
  destruct ((c =? 33) || (c =? 35)); [done|].
  intros Hv. apply (inj Some) in Hv as <-. split; [apply strvec_words_ne|by intros ->].
Qed.

Lemma mjoin_zlen (l : list (list Z)) : zlen (mjoin l) = foldr (fun s n => zlen s + n) 0 l.
Proof. induction l as [|s l IH]; [done|]. simpl. by rewrite zlen_app, IH. Qed.
Lemma newline_zlen v : zlen (VTY_NEWLINE v) <= 2.
Proof. unfold VTY_NEWLINE. by case_match. Qed.
Lemma outs_safe v l : session v -> foldr (fun s n => zlen s + n) 0 l < VTY_OUT_SIZE -> ok (outs v l).
Proof. intros Hs Hl. apply out_safe; [done|]. by rewrite mjoin_zlen. Qed.

Lemma command_safe v : session v -> safe (fun x => session (snd x)) (vty_command inet_pton6 cmdvec run_cb v).
Proof.
  intros Hs. unfold vty_command. pose proof Hs as ((l & r & Hl) & _).
  destruct (string_of_line v l r Hl) as [-> _]. rewrite bind_some.
  destruct (cmd_make_strvec _) as [vline|] eqn:E; [|by apply safe_some].
  apply make_strvec_ne in E as [Hne _].
  eapply safe_bind; [by apply execute_command_safe|]. intros [ret v1] H1. simpl in H1.
  eapply (safe_bind session); [|by intros v2 H2; apply safe_some].
  pose proof (newline_zlen v1). unfold VTY_OUT_SIZE.
  repeat case_match; try (by apply safe_some); try (apply outs_safe; [done|]; unfold VTY_OUT_SIZE; simpl; vm_compute (zlen (str _)); lia).
  pose proof H1 as ((l1 & r1 & Hl1) & _). destruct (string_of_line v1 l1 r1 Hl1) as [-> Hz]. rewrite bind_some.
  apply outs_safe; [done|]. unfold VTY_OUT_SIZE, VTY_INPUT_BUF_SIZE in *. simpl. vm_compute (zlen (str _)). lia.
Qed.
Lemma execute_safe v : session v -> safe (fun x => session (snd x)) (vty_execute inet_pton6 cmdvec run_cb v).
Proof.
  intros Hs. unfold vty_execute. eapply safe_bind; [by apply command_safe|]. intros [ret v1] H1. simpl in H1.
  eapply (safe_bind session); [case_match; [by apply hist_add_safe|by apply safe_some]|]. intros v2 H2.
  eapply (safe_bind session); [by apply clear_buf_safe|]. intros v3 H3.
  eapply (safe_bind session); [case_match; [by apply prompt_safe|by apply safe_some]|]. intros v4 H4. by apply safe_some.
Qed.

(** ** Completion *)

Lemma vset_ne {A} (l : list (option A)) x : vset l x <> [].
Proof. by destruct l as [|[|] l]. Qed.
Lemma line_words_safe v :
  session v -> safe (fun o => forall vline, o = Some vline -> vline <> []) (line_words v).
Proof.
  intros ((l & r & Hl) & _). unfold line_words. destruct (string_of_line v l r Hl) as [-> _]. rewrite bind_some.
  destruct (cmd_make_strvec _) as [vline|] eqn:E; [|by apply safe_some].
  apply make_strvec_ne in E as [Hne Hs]. line_facts Hl.
  assert (exists m d, l ++ r = m ++ [d]) as (m & d & Hm).
  { apply zlen_snoc_inv. destruct l as [|x l]; [destruct r as [|x r]|]; [by vm_compute in Hs|zlia..]. }
  assert (char_of (buf v) (len v - 1) = Some d) as ->.
  { rewrite Hbuf, app_assoc, Hm, <- app_assoc. apply char_of_mid. apply (f_equal zlen) in Hm. zlia. }
  rewrite bind_some. apply safe_some. intros vline' [= <-]. case_match; [apply vset_ne|done].
Qed.

Lemma pad_zlen w s : zlen (pad w s) = Z.max w (zlen s).
Proof. unfold pad. zlen. pose proof (zlen_nonneg s). lia. Qed.
Lemma print_list_safe l : forall i v,
  session v -> Forall (fun s => zlen s <= 1000) l -> ok (print_list i l v).
Proof.
  induction l as [|s l IH]; intros i v Hs Hl; simpl; [by apply safe_some|]. apply Forall_cons in Hl as [H1 Hl].
  eapply (safe_bind session); [case_match; [by apply newline_safe|by apply safe_some]|]. intros v1 Hv1.
  eapply (safe_bind session); [|by intros v2 Hv2; apply IH].
  apply outs_safe; [done|]. simpl. rewrite pad_zlen. unfold VTY_OUT_SIZE. zlen. lia.
Qed.

Lemma insert_word_safe v s : session v -> zlen s <= 1000 -> ok (vty_insert_word_overwrite v s).
Proof.
  intros Hs Hl. pose proof Hs as ((l & r & H) & _). line_facts H. rewrite Hbuf in Hsz.
  unfold vty_insert_word_overwrite, VTY_INPUT_BUF_SIZE in *. rewrite Hmax, Hcp.
  pose proof (zlen_nonneg s). pose proof (zlen_nonneg l). pose proof (zlen_nonneg r). pose proof (zlen_nonneg rest).
  assert (s32 (zlen s) = zlen s) as -> by (apply s32_id; lia).
  set (n := Z.min (zlen s) (1024 - zlen l - 1)). assert (zlen l < 1024) by zlia.
  assert (0 <= n <= zlen s /\ n < 1024 - zlen l) as [Hn Hn2] by lia.
  destruct (n <? 0) eqn:E; btest; [lia|]. set (data := take (Z.to_nat n) s).
  assert (zlen data = n) as Hd by (subst data; unfold zlen in *; rewrite length_take; lia).
  set (tl := r ++ 0 :: rest) in *. assert (zlen tl = 1024 - zlen l) as Htl by zlia.
  destruct (drop (length data) tl) as [|x b] eqn:Edrop.
  { apply (f_equal length) in Edrop. rewrite length_drop in Edrop. simpl in Edrop. unfold zlen in *. lia. }
  rewrite Hbuf, <- (take_drop (length data) tl), Edrop.
  rewrite (poke_mid l (take (length data) tl) (x :: b) data); [|done|].
  2: { unfold zlen in *. rewrite length_take. lia. }
  rewrite bind_some. cbn [len set_len cp set_cp].
  replace (l ++ data ++ x :: b) with ((l ++ data) ++ [x] ++ b) by (by rewrite <- app_assoc).
  rewrite (poke_mid (l ++ data) [x] b [0]) by (zlen; lia || done). rewrite bind_some. apply safe_some.
  eapply (session_frame cmdvec v _ (l ++ data) []); [done| |done].
  apply (f_equal length) in Edrop. rewrite length_drop in Edrop. simpl in Edrop.
  split; [by exists b|]. simpl. unfold VTY_INPUT_BUF_SIZE. split_and!; try done; zlen; try lia. zlia.
Qed.

Lemma complete_command_safe v : session v -> ok (vty_complete_command inet_pton6 cmdvec v).
Proof.
  intros Hs. unfold vty_complete_command. eapply safe_bind; [by apply line_words_safe|]. intros o Ho.
  destruct o as [vline|]; [|by apply safe_some]. specialize (Ho vline eq_refl).
  destruct vline as [|w vline]; [done|]. unfold cmd_complete_command_lib. cbn [lookup list_lookup mbind option_bind].
  pose proof Hs as (_ & _ & _ & _ & _ & Hn).
  set (line := if cmd_try_do_shortcut w then _ else _). clearbody line.
  destruct (complete_real_spec inet_pton6 cmdvec line v Hn) as (ret & out & cs & -> & _ & Hout). cbn [mbind option_bind].
  assert (Forall (fun s => zlen s <= 1000) out
          /\ (ret = CMD_COMPLETE_FULL_MATCH \/ ret = CMD_COMPLETE_MATCH -> exists s, out = [s])) as [Hb Hone].
  { destruct Hout as [[-> Hr]|(w' & ms & _ & _ & Hms & Hc)].
    - split; [done|]. by destruct Hr as [[_ ->]|(_ & _ & ->)]; intros [?|?].
    - eapply completes_bound; [done|]. intros s. by apply completions_bound. }
  eapply (safe_bind session); [by apply newline_safe|]. intros v1 H1.
  pose proof (newline_zlen v1).
  assert (forall v, session v -> out <> [] -> ok (v ← vty_backward_pure_word v; m ← out !! 0%nat; vty_insert_word_overwrite v m))
    as Hins.
  { intros v2 H2 Hne. destruct out as [|s out']; [done|]. apply Forall_cons in Hb as [Hb _].
    unfold vty_backward_pure_word. pose proof H2 as ((l & r & Hl) & _).
    destruct (while_backward false v2 l r Hl) as (v3 & -> & He). rewrite bind_some. simpl.
    apply insert_word_safe; [|done]. by eapply session_edits. }
  destruct (ret =? CMD_ERR_AMBIGUOUS) eqn:E1.
  { eapply (safe_bind session); [|by intros; apply redisplay_safe]. apply outs_safe; [done|].
    unfold VTY_OUT_SIZE. simpl. vm_compute (zlen (str _)). lia. }
  destruct (ret =? CMD_ERR_NO_MATCH) eqn:E2; [by apply redisplay_safe|].
  destruct (ret =? CMD_COMPLETE_FULL_MATCH) eqn:E3; btest.
  { destruct Hone as [s ->]; [by left|]. eapply (safe_bind session); [by apply redisplay_safe|]. intros v2 H2.
    specialize (Hins v2 H2 ltac:(done)). destruct Hins as (v4 & Hv4 & H4).
    destruct (vty_backward_pure_word v2) as [v3|]; [|done]. rewrite bind_some in Hv4 |- *. simpl in Hv4 |- *.
    rewrite Hv4, bind_some. by apply (press_safe cmdvec (KInsert 32)). }
  destruct (ret =? CMD_COMPLETE_MATCH) eqn:E4; btest.
  { destruct Hone as [s ->]; [by right|]. eapply (safe_bind session); [by apply redisplay_safe|]. intros v2 H2.
    by apply Hins. }
  destruct (ret =? CMD_COMPLETE_LIST_MATCH) eqn:E5.
  { eapply (safe_bind session); [by apply print_list_safe|]. intros v2 H2.
    eapply (safe_bind session); [by apply newline_safe|]. intros v3 H3. by apply redisplay_safe. }
  case_match; [by apply redisplay_safe|by apply safe_some].
Qed.

(** ** Description *)

Lemma shown_zlen s : zlen (shown s) <= zlen s.
Proof. unfold shown. case_match; [|lia]. destruct s; [done|]. simpl. zlia. Qed.
Lemma line_of_safe v w cmd desc :
  session v -> w <= 1000 -> zlen cmd <= 1000 -> zlen desc <= 2000 -> ok (outs v (line_of v w cmd desc)).
Proof.
  intros Hs Hw Hc Hd. apply outs_safe; [done|]. unfold line_of, VTY_OUT_SIZE. simpl. rewrite pad_zlen.
  pose proof (newline_zlen v). zlen. lia.
Qed.
(** A line of a folded description takes two characters, so that their number is fuel enough. *)
Lemma fold_lines_fuel k dw : forall f p, (length p <= f)%nat -> fold_lines (f + k) dw p = fold_lines f dw p.
Proof.
  induction f as [|f IH]; intros p Hp.
  - assert (p = []) as -> by (destruct p; [done|simpl in Hp; lia]). by destruct k.
  - simpl. destruct (dw <? length p)%nat; [|done]. destruct (fold_pos p dw) as [|pos]; [done|]. f_equal.
    apply IH. rewrite length_drop. lia.
Qed.
Lemma fold_lines_zlen fuel dw : forall p l, l ∈ fold_lines fuel dw p -> zlen l <= zlen p.
Proof.
  induction fuel as [|fuel IH]; intros p l Hl; simpl in Hl; [apply list_elem_of_singleton in Hl as ->; lia|].
  destruct (dw <? length p)%nat; [|apply list_elem_of_singleton in Hl as ->; lia].
  destruct (fold_pos p dw) as [|pos]; [apply list_elem_of_singleton in Hl as ->; lia|].
  apply elem_of_cons in Hl as [->|Hl].
  - unfold zlen. rewrite length_take. lia.
  - apply IH in Hl. unfold zlen in *. rewrite length_drop in Hl. lia.
Qed.
Lemma print_fold_safe w ls : forall v cmd,
  session v -> w <= 1000 -> zlen cmd <= 1000 -> Forall (fun d => zlen d <= 2000) ls -> ok (print_fold v w cmd ls).
Proof.
  induction ls as [|d ls IH]; intros v cmd Hs Hw Hc Hl; simpl; [by apply safe_some|].
  apply Forall_cons in Hl as [Hd Hl]. eapply (safe_bind session); [by apply line_of_safe|].
  intros v1 H1. apply IH; [done|done|zlen; lia|done].
Qed.
Lemma describe_token_safe v w dw t : session v -> w <= 1000 -> wf_term t -> ok (describe_token v w dw t).
Proof.
  intros Hs Hw Ht. destruct t as [k c d| |]; try done. destruct Ht as (_ & Hc & Hd). unfold describe_token. simpl.
  pose proof (shown_zlen c). destruct d as [desc|].
  - specialize (Hd desc eq_refl). case_match; [apply line_of_safe; [done|done|lia|done]|].
    unfold vty_describe_fold. case_match; [apply line_of_safe; [done|done|lia|done]|].
    apply print_fold_safe; [done|done|lia|]. apply Forall_forall. intros l Hl%fold_lines_zlen. lia.
  - apply outs_safe; [done|]. pose proof (newline_zlen v). unfold VTY_OUT_SIZE. simpl. zlen. lia.
Qed.
Lemma max_width_safe ts : forall w, Forall wf_term ts -> w <= 1000 -> safe (fun w' => w' <= 1000) (max_width ts w).
Proof.
  induction ts as [|t ts IH]; intros w Hts Hw; simpl; [by apply safe_some|]. apply Forall_cons in Hts as [Ht Hts].
  destruct t as [k c d| |]; try done. destruct Ht as (_ & Hc & _). simpl. apply IH; [done|].
  destruct c as [|x c]; [lia|]. case_match; lia.
Qed.
Lemma describe_tokens_safe ts : forall v w dw cr,
  session v -> w <= 1000 -> Forall wf_term ts -> (forall t, cr = Some t -> wf_term t) ->
  safe (fun x => session (snd x) /\ forall t, fst x = Some t -> wf_term t) (describe_tokens ts v w dw cr).
Proof.
  induction ts as [|t ts IH]; intros v w dw cr Hs Hw Hts Hcr; simpl; [by apply safe_some|].
  apply Forall_cons in Hts as [Ht Hts]. pose proof Ht as Ht'. destruct t as [k c d| |]; try done. simpl.
  case_bool_decide; [by apply IH|]. case_match; [apply IH; try done; by intros t [= <-]|].
  eapply (safe_bind session); [by apply describe_token_safe|]. intros v1 H1. by apply IH.
Qed.
Lemma describe_command_safe v : session v -> ok (vty_describe_command inet_pton6 cmdvec v).
Proof.
  intros Hs. unfold vty_describe_command. eapply safe_bind; [by apply line_words_safe|]. intros o Ho.
  set (vline := match o with None => [None] | Some vline => vline end).
  assert (vline <> []) as Hne by (subst vline; destruct o; [by apply Ho|done]). clearbody vline.
  destruct vline as [|w vline]; [done|]. unfold cmd_describe_command. cbn [lookup list_lookup mbind option_bind].
  set (line := if cmd_try_do_shortcut w then _ else _). clearbody line. pose proof Hs as (_ & _ & _ & _ & _ & Hn).
  destruct (describe_real_total inet_pton6 cmdvec line v Hn) as (ret & ts & -> & Hts & Hret). cbn [mbind option_bind].
  eapply (safe_bind session); [by apply newline_safe|]. intros v1 H1. pose proof (newline_zlen v1).
  eapply (safe_bind session); [|by intros; apply redisplay_safe].
  assert (forall m, zlen m <= 1000 -> ok (outs v1 [m; VTY_NEWLINE v1])) as Hmsg.
  { intros m Hm. apply outs_safe; [done|]. unfold VTY_OUT_SIZE. simpl. lia. }
  destruct Hret as [->|[->| ->]]; simpl; [|apply Hmsg; by vm_compute..].
  eapply safe_bind; [apply max_width_safe; [done|lia]|]. intros w' Hw'.
  eapply safe_bind; [by apply describe_tokens_safe|]. intros [cr v2] [H2 Hcr]. simpl in *.
  destruct cr as [t|]; [|by apply safe_some]. apply describe_token_safe; auto.
Qed.

(** ** Input *)

Lemma normal_key_safe c v : session v -> ok (normal_key inet_pton6 cmdvec run_cb c v).
Proof.
  intros Hs. unfold normal_key.
  repeat first
    [ by apply safe_some
    | by apply (press_safe cmdvec KHome) | by apply (press_safe cmdvec KBackward)
    | by apply (press_safe cmdvec KDelete) | by apply (press_safe cmdvec KEnd)
    | by apply (press_safe cmdvec KForward) | by apply (press_safe cmdvec KBackspace)
    | by apply (press_safe cmdvec KKill) | by apply (press_safe cmdvec KTranspose)
    | by apply (press_safe cmdvec KKillAll) | by apply (press_safe cmdvec KBackwardKillWord)
    | by apply (press_safe cmdvec (KInsert c))
    | by apply previous_line_safe | by apply next_line_safe
    | by apply complete_command_safe | by apply describe_command_safe
    | match goal with |- safe _ (if ?b then _ else _) => destruct b end ].
  eapply (safe_bind session); [by apply newline_safe|]. intros v1 H1.
  destruct (execute_safe v1 H1) as ([ret v2] & -> & H2). by apply safe_some.
Qed.

Lemma read_byte_safe c next v :
  session v -> safe (fun x => session (snd x)) (read_byte inet_pton6 cmdvec run_cb c next v).
Proof.
  intros Hs. unfold read_byte. case_match; [by apply safe_some|].
  set (v0 := if c =? IAC then set_iac 0 v else v). assert (session v0) as H0 by (subst v0; by case_match).
  clearbody v0. clear Hs. pose proof H0 as (Hl & Hh & Hsb & Hsl & Hr).
  assert (forall x : option vty, ok x -> safe (fun x : bool * vty => session (snd x)) (v ← x; Some (false, v))) as Hret.
  { intros x Hx. eapply safe_bind; [done|]. intros y Hy. by apply safe_some. }
  repeat match goal with |- safe _ (if ?b then _ else _) => destruct b end.
  - apply safe_some. simpl.
    set (v1 := if sb_len v0 <? zlen (sb_buf v0) then _ else v0).
    assert (session v1) as (Hl1 & Hh1 & Hsb1 & Hsl1 & Hr1).
    { subst v1. case_match; [|done]. split; [exact Hl|]. split; [exact Hh|]. split; [by simpl; rewrite length_insert|].
      split; [exact Hsl|exact Hr]. }
    split; [exact Hl1|]. split; [exact Hh1|]. split; [exact Hsb1|]. split; [|exact Hr1]. simpl.
    destruct (u64_range (sb_len v1 + 1)). done.
  - eapply safe_bind; [by apply (telnet_option_safe cmdvec)|]. intros [ret v1] H1. by apply safe_some.
  - apply Hret. case_match; [by apply prompt_safe|by apply safe_some].
  - by apply Hret, escape_map_safe.
  - eapply (safe_bind session); [by apply (press_safe cmdvec (KInsert c))|]. intros v1 H1. by apply safe_some.
  - by apply Hret, pre_escape_safe.
  - repeat case_match; by apply safe_some.
  - by apply Hret, normal_key_safe.
Qed.
Lemma read_safe b : forall v, session v -> ok (vty_read inet_pton6 cmdvec run_cb v b).
Proof.
  induction b as [b IH] using (Wf_nat.induction_ltof1 _ (@length Z)). unfold Wf_nat.ltof in IH. intros v Hs.
  destruct b as [|c r]; simpl; [by apply safe_some|].
  eapply safe_bind; [by apply read_byte_safe|]. intros [skip v1] H1. simpl in H1.
  destruct skip, r as [|d r]; apply IH; simpl; try done; lia.
Qed.

Lemma list_loop_safe (cs : list (option (cmd_element C))) : forall v, session v -> wf_cmds cs -> ok (list_loop cs v).
Proof.
  induction cs as [|[e|] cs IH]; intros v Hs Hc; simpl; [by apply safe_some| |];
    apply wf_cmds_cons in Hc as [He Hc]; [|by apply IH].
  eapply (safe_bind session); [|by intros; apply IH]. case_match; [|by apply safe_some].
  apply outs_safe; [done|]. destruct (He e eq_refl) as [_ Hl]. pose proof (newline_zlen v). unfold VTY_OUT_SIZE.
  simpl. zlen. lia.
Qed.
Lemma list_safe v : session v -> ok (vty_list cmdvec v).
Proof.
  intros Hs. pose proof Hs as (_ & _ & _ & _ & _ & (cs & Hcs & Hwf)). unfold vty_list. rewrite Hcs, bind_some.
  by apply list_loop_safe.
Qed.
End Commands.

(** ** The window size *)

(** A byte of a telnet option, and the option that reports the size of the window. *)
Definition telnet_byte (c : Z) : list Z := if c =? IAC then [IAC; IAC] else [c].
Definition telnet_u16 (x : Z) : list Z := telnet_byte (x / 256) ++ telnet_byte (x mod 256).
Definition telnet_naws (w h : Z) : list Z :=
  [IAC; SB; TELOPT_NAWS] ++ telnet_u16 w ++ telnet_u16 h ++ [IAC; SE].

(** The session while an option is being read, and behind it. *)
Definition in_option (n : Z) (b : list Z) (v : vty) : vty :=
  set_sb_len n (set_sb_buf b (set_iac_sb_in_progress 1 (set_iac 0 v))).
Definition resized (w h : Z) (v : vty) : vty :=
  set_iac_sb_in_progress 0 (set_height h (set_width w
    (in_option 5 [TELOPT_NAWS; w / 256; w mod 256; h / 256; h mod 256] v))).

#[local] Arguments Z.ltb : simpl never.
#[local] Arguments zlen : simpl never.
#[local] Arguments u64 : simpl never.
#[local] Arguments Z.add : simpl never.

Section Naws.
Context {C : Type} (inet_pton6 : list Z -> bool) (cmdvec : list (option (cmd_node C))).
Variable run_cb : C -> list word -> cmd_element C -> vty -> option (Z * vty).
Notation vty_read := (vty_read inet_pton6 cmdvec run_cb).

Notation read_byte := (read_byte inet_pton6 cmdvec run_cb).
Lemma read_cons v c r v' : read_byte c r v = Some (false, v') -> vty_read v (c :: r) = vty_read v' r.
Proof. intros H. simpl. by rewrite H. Qed.
Lemma read_iac v r : iac v = 0 -> read_byte IAC r v = Some (false, set_iac 1 v).
Proof. intros H. unfold Vty.read_byte. by rewrite H. Qed.
Lemma read_stored n b v v0 c r :
  0 <= n < zlen b -> zlen b <= 5 -> (c =? IAC) && (iac v0 =? 0) = false ->
  (if c =? IAC then set_iac 0 v0 else v0) = in_option n b v ->
  read_byte c r v0 = Some (false, in_option (n + 1) (<[Z.to_nat n := c]> b) v).
Proof.
  intros Hn Hb Hc Hv. unfold Vty.read_byte. rewrite Hc, Hv.
  replace (negb (iac_sb_in_progress (in_option n b v) =? 0) && (iac (in_option n b v) =? 0)) with true by done.
  change (sb_len (in_option n b v)) with n. change (sb_buf (in_option n b v)) with b.
  replace (n <? zlen b) with true by (symmetry; apply Z.ltb_lt; lia). simpl. by rewrite u64_id by lia.
Qed.
Lemma option_byte n b v c rest :
  0 <= n < zlen b -> zlen b <= 5 ->
  vty_read (in_option n b v) (telnet_byte c ++ rest) = vty_read (in_option (n + 1) (<[Z.to_nat n := c]> b) v) rest.
Proof.
  intros Hn Hb. unfold telnet_byte. destruct (c =? IAC) eqn:E; cbn [app].
  - apply Z.eqb_eq in E. subst c. erewrite read_cons by (by apply read_iac).
    apply read_cons. by apply read_stored.
  - apply read_cons. apply read_stored; [done|done|by rewrite E|by rewrite E].
Qed.

Lemma u16_bytes x : Z.lor (Z.shiftl (x / 256) 8) (x mod 256) = x.
Proof.
  change 256 with (2 ^ 8). rewrite <- Z.shiftr_div_pow2, <- Z.land_ones by lia.
  apply Z.bits_inj'. intros n Hn. rewrite Z.lor_spec, Z.land_spec, Z.shiftl_spec by done.
  destruct (Z.ltb_spec n 8).
  - rewrite Z.ones_spec_low by lia. rewrite (Z.testbit_neg_r _ (n - 8)) by lia. by rewrite andb_true_r.
  - rewrite Z.ones_spec_high by lia. rewrite andb_false_r, orb_false_r, Z.shiftr_spec by lia. f_equal. lia.
Qed.

Lemma naws_read w h v rest :
  iac v = 0 -> iac_sb_in_progress v = 0 -> length (sb_buf v) = 5%nat ->
  vty_read v (telnet_naws w h ++ rest) = vty_read (resized w h v) rest.
Proof.
  intros Hi Hp Hsb. unfold telnet_naws, telnet_u16. rewrite <- !app_assoc. cbn [app].
  assert (vty_read v (IAC :: SB :: telnet_byte TELOPT_NAWS ++ telnet_byte (w / 256) ++ telnet_byte (w mod 256)
            ++ telnet_byte (h / 256) ++ telnet_byte (h mod 256) ++ IAC :: SE :: rest)
          = vty_read (resized w h v) rest) as H; [|exact H].
  destruct (sb_buf v) as [|b0 [|b1 [|b2 [|b3 [|b4 [|]]]]]] eqn:E; try done.
  transitivity (vty_read (in_option 0 [b0; b1; b2; b3; b4] v) (telnet_byte TELOPT_NAWS ++ telnet_byte (w / 256)
     ++ telnet_byte (w mod 256) ++ telnet_byte (h / 256) ++ telnet_byte (h mod 256) ++ IAC :: SE :: rest)).
  { destruct v; simpl in *. subst. reflexivity. }
  rewrite !option_byte by (unfold zlen; rewrite ?length_insert; simpl; lia). simpl.
  unfold read_byte. simpl. by rewrite !u16_bytes.
Qed.
End Naws.

(** ** Typing a line *)

(** Nothing but printable keys is expected to have a meaning of its own. *)
Definition normal_mode (v : vty) : Prop :=
  (escape v = 0 \/ escape v = VTY_NORMAL) /\ iac v = 0 /\ iac_sb_in_progress v = 0 /\ status v <> VTY_MORE.
Definition text_key (c : Z) : Prop := 31 < c < 127 /\ c <> 63.

Section Typing.
Context {C : Type} (inet_pton6 : list Z -> bool) (cmdvec : list (option (cmd_node C))).
Variable run_cb : C -> list word -> cmd_element C -> vty -> option (Z * vty).
Notation vty_read := (vty_read inet_pton6 cmdvec run_cb).
Notation read_byte := (read_byte inet_pton6 cmdvec run_cb).
Notation normal_key := (normal_key inet_pton6 cmdvec run_cb).

Lemma frame_mode v v' : frame v' = frame v -> normal_mode v -> normal_mode v'.
Proof. unfold frame, normal_mode. intros Hf. simplify_eq. repeat match goal with H : _ v' = _ v |- _ => rewrite H end. done. Qed.

Lemma read_byte_normal v c r :
  normal_mode v -> c <> IAC -> c <> 27 -> read_byte c r v = (v ← normal_key c v; Some (false, v)).
Proof.
  intros (He & Hi & Hsb & Hst) Hc H27. unfold Vty.read_byte.
  rewrite (proj2 (Z.eqb_neq c IAC)) by done. rewrite Hi, Hsb. simpl.
  rewrite (proj2 (Z.eqb_neq (status v) VTY_MORE)), (proj2 (Z.eqb_neq c 27)) by done.
  by destruct He as [->| ->].
Qed.
Lemma normal_key_text v c : text_key c -> normal_key c v = vty_self_insert v c.
Proof.
  intros [Hc Hq]. unfold Vty.normal_key, CONTROL.
  repeat match goal with |- context [c =? ?k] => rewrite (proj2 (Z.eqb_neq c k)) by lia end.
  simpl. replace (31 <? c) with true by (symmetry; apply Z.ltb_lt; lia).
  by replace (c <? 127) with true by (symmetry; apply Z.ltb_lt; lia).
Qed.

(** The characters of a text go into the line. *)
Lemma read_text s : forall v l rest,
  at_line v l [] -> normal_mode v -> Forall text_key s -> zlen l + zlen s < VTY_INPUT_BUF_SIZE ->
  exists v', vty_read v (s ++ rest) = vty_read v' rest /\ at_line v' (l ++ s) [] /\ frame v' = frame v.
Proof.
  induction s as [|c s IH]; intros v l rest Hl Hn Hs Hz.
  { exists v. by rewrite app_nil_r. }
  apply Forall_cons in Hs as [Hc Hs]. rewrite zlen_cons in Hz. pose proof (zlen_nonneg s).
  destruct (self_insert_edits v l [] c Hl) as (v1 & Hv1 & H1 & Hf1 & _); [rewrite zlen_nil; lia|].
  destruct (IH v1 (l ++ [c]) rest H1) as (v2 & Hv2 & H2 & Hf2).
  - by eapply frame_mode.
  - done.
  - zlen. lia.
  - exists v2. rewrite <- app_assoc in H2. split; [|split; [done|congruence]]. rewrite <- Hv2. cbn [app].
    apply read_cons. rewrite read_byte_normal; [|done|unfold text_key, IAC in *; lia|unfold text_key in *; lia].
    rewrite normal_key_text by done. by rewrite Hv1.
Qed.

(** The line break executes it. *)
Lemma read_return v rest :
  normal_mode v ->
  vty_read v (13 :: rest) = (v1 ← vty_out v (VTY_NEWLINE v); '(_, v2) ← vty_execute inet_pton6 cmdvec run_cb v1; vty_read v2 rest).
Proof.
  intros Hn. cbn [Vty.vty_read]. rewrite read_byte_normal by done.
  change (normal_key 13 v) with (v1 ← vty_out v (VTY_NEWLINE v); snd <$> vty_execute inet_pton6 cmdvec run_cb v1).
  rewrite vty_out_ok by apply VTY_NEWLINE_fits. rewrite !bind_some.
  by destruct (vty_execute _ _ _ _) as [[ret v2]|].
Qed.

Definition rest_frame (v : vty) :=
  (hostname v, fd v, status v, vtype v, node v, (buf v, cp v, len v, max v),
   (escape v, iac v, iac_sb_in_progress v, sb_buf v, sb_len v, width v, height v, out v)).
Lemma hist_add_frame v v' : vty_hist_add v = Some v' -> rest_frame v' = rest_frame v.
Proof.
  unfold vty_hist_add. destruct (len v =? 0); [by intros [= <-]|].
  set (i := if negb (hindex v =? 0) then _ else _). destruct (hist_at v i) as [h|]; [|done]. rewrite bind_some.
  destruct (string_of (buf v)) as [line|]; [|done]. rewrite bind_some.
  destruct (bool_decide _); [by intros [= <-]|]. destruct (hist_at v (hindex v)) as [h'|]; [|done].
  rewrite bind_some. cbn [hindex set_hindex set_hist]. intros Hv. apply (inj Some) in Hv as <-. by destruct (hindex v + 1 =? VTY_HIST_CMD_SIZE).
Qed.

(** Behind a command that succeeds the line is empty again; where the session is and whether it
    is closed is up to the command. *)
Lemma execute_idle v s words v1 :
  at_line v s [] -> no_nul s -> cmd_make_strvec (Some s) = Some words ->
  cmd_execute_command inet_pton6 cmdvec run_cb words v = Some (0, v1) ->
  session cmdvec v1 -> normal_mode v1 ->
  exists v', vty_execute inet_pton6 cmdvec run_cb v = Some (0, v') /\ session cmdvec v' /\ at_line v' [] []
  /\ normal_mode v' /\ node v' = node v1 /\ status v' = status v1.
Proof.
  intros Hl Hnul Hw Hexec Hs1 Hn1. unfold vty_execute, vty_command.
  destruct (string_of_line v s [] Hl) as [Hstr _]. rewrite Hstr, bind_some. rewrite app_nil_l.
  rewrite cstr_terminated by done. rewrite Hw, Hexec, bind_some. simpl.
  assert (exists v2, (if vtype v1 =? VTY_TERM then vty_hist_add v1 else Some v1) = Some v2 /\ session cmdvec v2
    /\ rest_frame v2 = rest_frame v1) as (v2 & -> & Hs2 & Hf2).
  { destruct (vtype v1 =? VTY_TERM); [|by exists v1]. destruct (hist_add_safe cmdvec v1 Hs1) as (v2 & Hv2 & Hs2).
    exists v2. split; [done|]. split; [done|]. by apply hist_add_frame. }
  rewrite bind_some. pose proof Hs2 as ((l2 & r2 & Hl2) & _).
  destruct (clear_buf_edits v2 l2 r2 Hl2) as (v3 & -> & Hl3 & Hf3). rewrite bind_some.
  pose proof (session_frame cmdvec v2 v3 [] [] Hs2 Hl3 Hf3) as Hs3.
  assert (node v3 = node v1 /\ status v3 = status v1 /\ normal_mode v3) as (Hnode & Hstat & Hmode).
  { assert (node v2 = node v1 /\ status v2 = status v1 /\ normal_mode v2) as (H1 & H2 & H3).
    { unfold rest_frame, normal_mode in *. simplify_eq.
      repeat match goal with H : _ v2 = _ v1 |- _ => rewrite H; clear H end. done. }
    pose proof (frame_mode v2 v3 Hf3 H3). unfold frame in Hf3. simplify_eq. split_and!; [congruence|congruence|done]. }
  destruct (negb (status v3 =? VTY_CLOSE)); simpl.
  - destruct (prompt_writes (VtyExec.cmd_prompt cmdvec) v3) as (p & -> & _); [apply Hs3|]. simpl.
    eexists. split; [done|]. by split_and!.
  - eexists. split; [done|]. by split_and!.
Qed.
End Typing.

(** ** The properties *)

(** C9. A session that satisfies its invariant satisfies it behind any bytes that arrive, if
    the callbacks of the commands keep it: every byte is handled (keys, escape sequences, telnet
    options, completion, description, execution), no array is left, no null pointer is followed,
    and every loop ends. *)
Theorem vty_read_keeps_session {C} inet_pton6 (cmdvec : list (option (cmd_node C))) run_cb v bytes :
  callbacks_ok cmdvec run_cb -> session cmdvec v ->
  exists v', vty_read inet_pton6 cmdvec run_cb v bytes = Some v' /\ session cmdvec v'.
Proof. intros Hcb Hs. by apply read_safe. Qed.

Definition demo_command (s : string) : cmd_element unit :=
  Element 0 (str s) [] [TERMINAL TERMINAL_LITERAL (str s) (Some (str "A command"))] 0 0 tt.
Definition demo_cmdvec : list (option (cmd_node unit)) :=
  [Some (Node 0 (str "%s> ") [Some (demo_command "show"); None; Some (demo_command "shell")])].
Lemma demo_session : session demo_cmdvec demo.
Proof.
  split; [exists [], []; apply vty_create_line|].
  split; [split; [done|]; split; [done|]; split; [done|]; by repeat constructor|].
  split; [done|]. split; [done|]. split; [split; [done|]|].
  - exists (str "%s> "), (str "opserver> "). split_and!; try done. by repeat constructor.
  - eexists. split; [done|]. intros e He.
    repeat (apply elem_of_cons in He as [He|He]); [..|by apply elem_of_nil in He]; simplify_eq;
      (split; [|by vm_compute]); repeat constructor; try done; by intros ? [= <-].
Qed.
Lemma vty_read_keeps_session_witness :
  exists v', vty_read (fun _ => false) demo_cmdvec (fun _ _ _ v => Some (0, v)) demo
               (str "sh" ++ [9; 63; 13; 27; 91; 65; 255; 250; 31]) = Some v' /\ session demo_cmdvec v'.
Proof.
  apply vty_read_keeps_session; [|apply demo_session].
  intros cb argv e v Hs _ _. by apply safe_some.
Defined.

(** The telnet option that reports a window of [w] columns and [h] lines, with the bytes 255
    doubled as the protocol asks, sets the width and the height to these numbers and leaves the
    line, the history and the output alone; the bytes behind it are read as usual. *)
Theorem naws_roundtrip {C} inet_pton6 (cmdvec : list (option (cmd_node C))) run_cb v w h rest :
  iac v = 0 -> iac_sb_in_progress v = 0 -> length (sb_buf v) = 5%nat ->
  exists v', vty_read inet_pton6 cmdvec run_cb v (telnet_naws w h ++ rest)
             = vty_read inet_pton6 cmdvec run_cb v' rest
  /\ width v' = w /\ height v' = h /\ iac v' = 0 /\ iac_sb_in_progress v' = 0 /\ length (sb_buf v') = 5%nat
  /\ (buf v', cp v', len v', hist v', hp v', hindex v', out v', escape v', node v', status v')
     = (buf v, cp v, len v, hist v, hp v, hindex v, out v, escape v, node v, status v).
Proof.
  intros Hi Hp Hsb. exists (resized w h v). split; [by apply naws_read|]. by split_and!.
Qed.
Lemma naws_roundtrip_witness :
  exists v', vty_read (fun _ => false) demo_cmdvec (fun _ _ _ v => Some (0, v)) demo (telnet_naws 255 65535) = Some v'
  /\ width v' = 255 /\ height v' = 65535.
Proof.
  destruct (naws_roundtrip (fun _ => false) demo_cmdvec (fun _ _ _ v => Some (0, v)) demo 255 65535 [])
    as (v' & H & Hw & Hh & _); [reflexivity..|].
  rewrite app_nil_r in H. exists v'. split; [exact H|]. split; assumption.
Defined.
