(* ===== verification/OpCli.v ===== *)
(** * The command line server (src/src/base/opcli.c, opbox/ptelnet.c)

    The nodes of the console and their default commands, the installation of commands with its
    check for duplicates, and the events of the server: a client connects, bytes arrive, a
    module installs a command. The table of a node is used through the interface of KeyTable.v.
    A result [None] is a null pointer that is followed, an access outside an array or a call
    that does not return. The mutexes make every event one step, but for a new connection, which
    takes two ([opcli_job_accept] and [opcli_job_greet]). *)

From S2P Require Import Prelude KeyTable CString Utils Vector VtyTerm VtyWord VtyCmd VtyExec VtyFormat Vty.
From stdpp Require Import base tactics numbers list strings.
From Stdlib Require Import ZArith Lia.
Open Scope Z_scope.

Module OpCli.
Import Utils Vector VtyTerm VtyWord VtyCmd VtyExec VtyFormat Vty.

(** ** Nodes *)

Definition node_view : Z := 0.
Definition node_enable : Z := 1.
Definition node_opmgr : Z := 2.
Definition node_op4g : Z := 3.
Definition node_max : Z := 4.

Record _node_prefix := NodePrefix {
  prefix : list Z;
  cmd_in_enable : option (list Z)
}.
Definition CMD_OPMGR_NAME : list Z := str "opmgr".
Definition HELP_OPMGR_NAME : list Z := str "opmgr module" ++ [10].
Definition CMD_OP4G_NAME : list Z := str "op4G".
Definition HELP_OP4G_NAME : list Z := str "op4G module" ++ [10].
Definition CLI_HOST : list Z := str "opserver".

Definition cli_prefix : list _node_prefix :=
  [NodePrefix (str "%s>") None;
   NodePrefix (str "%s#") None;
   NodePrefix (str "%s(opmgr)#") (Some CMD_OPMGR_NAME);
   NodePrefix (str "%s(op4g)#") (Some CMD_OP4G_NAME)].

(** ** Callbacks *)

(** The callbacks of this file by name; [M] names those of the modules. *)
Inductive callback (M : Type) :=
| cmd_node_exit | cmd_node_end | cmd_node_list | cmd_node_enable | cmd_node_enable_module
| module_cb (m : M).
Arguments cmd_node_exit {_}.
Arguments cmd_node_end {_}.
Arguments cmd_node_list {_}.
Arguments cmd_node_enable {_}.
Arguments cmd_node_enable_module {_}.
Arguments module_cb {_} _.

Definition run_cmd_node_exit (v : vty) : vty :=
  if node v =? node_view then set_status VTY_CLOSE v
  else if node v =? node_enable then set_node node_view v
  else if (node v =? node_opmgr) || (node v =? node_op4g) then set_node node_enable v
  else v.

(** The loop over [cli_prefix]; the last entry that matches counts. *)
Fixpoint enable_module_loop (ps : list _node_prefix) (i : Z) (name : list Z) (v : vty) : vty :=
  match ps with
  | [] => v
  | p :: r =>
      enable_module_loop r (i + 1) name
        (match cmd_in_enable p with
         | Some c => if str_eq name c then set_node i v else v
         | None => v
         end)
  end.

Section Cli.
Context {M : Type}.
Notation element := (cmd_element (callback M)).
Notation cmdvec_t := (list (option (cmd_node (callback M)))).
Variable run_module : M -> list word -> element -> vty -> option (Z * vty).

Definition run_cb (cmdvec : cmdvec_t) (cb : callback M) (argv : list word) (e : element) (v : vty)
    : option (Z * vty) :=
  match cb with
  | cmd_node_exit => Some (0, run_cmd_node_exit v)
  | cmd_node_end => Some (0, set_node node_view v)
  | cmd_node_list => v ← vty_list cmdvec v; Some (0, v)
  | cmd_node_enable => Some (0, set_node node_enable v)
  | cmd_node_enable_module => Some (0, enable_module_loop cli_prefix 0 (el_string e) v)
  | module_cb m => run_module m argv e v
  end.

Definition _cmd_in_node : list (list Z * list Z * callback M) :=
  [(str "exit", str "exit to preview node" ++ [10], cmd_node_exit);
   (str "end", str "end to first node" ++ [10], cmd_node_end);
   (str "list", str "list install cmd in this node" ++ [10], cmd_node_list)].
Definition _cmd_in_node_enable : list (list Z * list Z * callback M) :=
  [(CMD_OPMGR_NAME, HELP_OPMGR_NAME, cmd_node_enable_module);
   (CMD_OP4G_NAME, HELP_OP4G_NAME, cmd_node_enable_module)].

(** ** The table of a node *)

(** The loop of [node_hash] over the string, with [ret] and [n]. A character is signed. *)
Definition schar (c : Z) : Z := if c <? 128 then c else c - 256.
Fixpoint node_hash_loop (s : list Z) (ret n : Z) : Z :=
  match s with
  | [] => ret
  | c :: s =>
      let v := u64 (Z.lor n (schar c)) in
      let r := Z.land (Z.lxor (Z.shiftr v 2) v) 15 in
      let ret := Z.lor (u64 (Z.shiftl ret r)) (Z.shiftr ret (32 - r)) in
      let ret := Z.land ret 4294967295 in
      node_hash_loop s (Z.lxor ret (u64 (v * v))) (n + 256)
  end.
Definition node_hash (e : element) : Z :=
  let ret := node_hash_loop (el_string e) 0 256 in Z.lxor (Z.shiftr ret 16) ret.

(** [strcmp], of which only the sign is defined; a longer string is greater. *)
Fixpoint strcmp (a b : list Z) : Z :=
  match a, b with
  | [], [] => 0
  | x :: a, y :: b => if x =? y then strcmp a b else if x <? y then -1 else 1
  | [], _ :: _ => -1
  | _ :: _, [] => 1
  end.
Definition node_compare (e data : element) : Z :=
  Z.lor (strcmp (el_string e) (el_string data)) (if negb (el_node e =? el_node data) then 1 else 0).

(** What [node_compare] compares. *)
Definition node_key (e : element) : list Z * Z := (el_string e, el_node e).

Section Table.
Context {T : Type} `{!KeyTable T node_key}.

(** The parts of [struct _opcli_struct] that the commands use: the tables of the nodes (null
    before their node is set up) and the vector of nodes of vty.c. *)
Record _opcli_struct := Opcli {
  cmd_hash : list (option T);
  cmdvec : cmdvec_t
}.

Definition opcli_install_cmd_ex (node : Z) (cli_cmd : option element) (self : _opcli_struct)
    : option (Z * _opcli_struct) :=
  match cli_cmd with
  | None => Some (-1, self)
  | Some e =>
      if node_max <=? node then Some (-1, self)
      else
        h ← mjoin (cmd_hash self !! Z.to_nat node);
        let '(data, h) := kt_retrieve h e in
        match data with
        | Some _ => Some (-1, Opcli (<[Z.to_nat node := Some h]> (cmd_hash self)) (cmdvec self))
        | None =>
            let '(_, h) := kt_insert h e in
            '(ret, cmdvec) ← install_element (cmdvec self) node e;
            Some (ret, Opcli (<[Z.to_nat node := Some h]> (cmd_hash self)) cmdvec)
        end
  end.

(** [mem]: [calloc] and both calls of [strdup] succeed. The result of [install_element] is not
    looked at. *)
Definition new_element (node : Z) (cmd help : list Z) (cb : callback M) : element :=
  Element node cmd help [] 0 0 cb.
Definition opcli_install_cmd (mem : bool) (node : Z) (cmd help : option (list Z))
    (cb : option (callback M)) (self : _opcli_struct) : option (Z * _opcli_struct) :=
  match cmd, help, cb with
  | Some cmd, Some help, Some cb =>
      if node_max <=? node then Some (-1, self)
      else if negb mem then Some (-1, self)
      else
        let e := new_element node cmd help cb in
        h ← mjoin (cmd_hash self !! Z.to_nat node);
        let '(data, h) := kt_retrieve h e in
        match data with
        | Some _ => Some (-1, Opcli (<[Z.to_nat node := Some h]> (cmd_hash self)) (cmdvec self))
        | None =>
            let '(_, h) := kt_insert h e in
            '(_, cmdvec) ← install_element (cmdvec self) node e;
            Some (0, Opcli (<[Z.to_nat node := Some h]> (cmd_hash self)) cmdvec)
        end
  | _, _, _ => Some (-1, self)
  end.

(** A sequence of installations whose results are not looked at. *)
Fixpoint install_all (mem : bool) (node : Z) (l : list (list Z * list Z * callback M))
    (self : _opcli_struct) : option _opcli_struct :=
  match l with
  | [] => Some self
  | (cmd, help, cb) :: r =>
      '(_, self) ← opcli_install_cmd mem node (Some cmd) (Some help) (Some cb) self;
      install_all mem node r self
  end.
Definition install_default_cmd (mem : bool) (node_type : Z) (self : _opcli_struct)
    : option _opcli_struct :=
  self ← install_all mem node_type _cmd_in_node self;
  if node_type =? node_view then
    install_all mem node_type [(str "enable", str "into enable node" ++ [10], cmd_node_enable)] self
  else if node_type =? node_enable then install_all mem node_type _cmd_in_node_enable self
  else Some self.

(** The loop of [opcli_node_init] over the nodes from [i] on; [tables] is what [op_hash_new]
    returns for each of them. *)
Fixpoint node_init_loop (mem : bool) (tables : list (option T)) (ps : list _node_prefix) (i : nat)
    (self : _opcli_struct) : option (Z * _opcli_struct) :=
  match tables, ps with
  | None :: _, _ => Some (-1, self)
  | Some t :: ts, p :: ps =>
      let self := Opcli (<[i := Some t]> (cmd_hash self))
                    (install_node (cmdvec self) (Z.of_nat i) (prefix p)) in
      self ← install_default_cmd mem (Z.of_nat i) self;
      node_init_loop mem ts ps (S i) self
  | _, _ => Some (0, self)
  end.
(** The state that [calloc] and [vty_init] make; the mutex can be set up. *)
Definition opcli_new : _opcli_struct := Opcli (replicate (Z.to_nat node_max) None) vty_init.
Definition opcli_node_init (mem : bool) (tables : list (option T)) (self : _opcli_struct)
    : option (Z * _opcli_struct) :=
  node_init_loop mem tables cli_prefix 0 self.

End Table.

(** ** Clients *)

Record _cli_client := Client { cl_fd : Z; cl_vty : vty }.

(** arpa/telnet.h. *)
Definition WILL : Z := 251.
Definition DO : Z := 253.
Definition DONT : Z := 254.
Definition TELOPT_ECHO : Z := 1.
Definition TELOPT_SGA : Z := 3.
Definition TELOPT_LINEMODE : Z := 34.
Definition ptelnet_will_echo : list Z := [IAC; WILL; TELOPT_ECHO].
Definition ptelnet_will_suppress_go_ahead : list Z := [IAC; WILL; TELOPT_SGA].
Definition ptelnet_dont_linemode : list Z := [IAC; DONT; TELOPT_LINEMODE].
Definition ptelnet_do_window_size : list Z := [IAC; DO; TELOPT_NAWS].

(** [ok] says which of the four writes succeed; the first failure ends the function. *)
Fixpoint option_writes (strs : list (list Z)) (ok : list bool) (v : vty) : vty :=
  match strs, ok with
  | s :: strs, true :: ok => option_writes strs ok (vty_write v s)
  | _, _ => v
  end.
Definition opcli_option_init (ok : list bool) (v : vty) : vty :=
  option_writes [ptelnet_will_echo; ptelnet_will_suppress_go_ahead; ptelnet_dont_linemode;
                 ptelnet_do_window_size] ok v.

(** [opcli_out] with [s] the formatted text: the buffer holds 4095 characters and a terminator,
    but as many bytes are written as the whole text has. *)
Definition CLI_OUT_BUF_SIZE : Z := 4096.
Definition opcli_out (calloc : bool) (v : vty) (s : list Z) : option vty :=
  if negb calloc then Some v
  else if zlen s <? CLI_OUT_BUF_SIZE then Some (vty_write v s)
  else if zlen s =? CLI_OUT_BUF_SIZE
  then Some (vty_write v (take (Z.to_nat (CLI_OUT_BUF_SIZE - 1)) s ++ [0]))
  else None.

(** What the system calls of [opcli_job] return. *)
Record job_env := JobEnv {
  accept_ : Z;
  calloc_client : bool;
  event_new_ : bool;
  writes_ok : list bool;
  event_add_ : Z;
  pthread_kill_ : Z;
  calloc_out : bool
}.

(** [opcli_job] holds no lock, and from [event_add] on the thread of [opcli_job_thread] may handle
    the new client. So it comes in two parts: up to [event_add], and the rest.

    The first part: [clients] is [job.list], the newest client first, and the flag says whether the
    function goes on. [vty_mem]: whether [calloc] of [vty_new_init] succeeds; its result is used
    without a test. *)
Definition opcli_job_accept (vty_mem : bool) (env : job_env) (clients : list _cli_client)
    : option (list _cli_client * bool) :=
  let client_fd := accept_ env in
  if client_fd <? 0 then Some (clients, false)
  else if negb (calloc_client env) then Some (clients, false)
  else if negb vty_mem then None
  else
    let v := vty_create client_fd node_view CLI_HOST in
    if negb (event_new_ env) then Some (clients, false)
    else
      let v := opcli_option_init (writes_ok env) v in
      if event_add_ env <? 0 then Some (clients, false)
      else Some (Client client_fd v :: clients, true).
(** The second part: the signal and the prompt for the client, which is number [i] of the list by
    now, or has been released. *)
Definition opcli_job_greet (env : job_env) (cmdvec : cmdvec_t) (who : option nat) (clients : list _cli_client)
    : option (list _cli_client) :=
  if negb (pthread_kill_ env =? 0) then Some clients
  else
    i ← who;
    client ← clients !! i;
    p ← VtyExec.cmd_prompt cmdvec (node (cl_vty client));
    s ← format p [CLI_HOST];
    v ← opcli_out (calloc_out env) (cl_vty client) s;
    Some (<[i := Client (cl_fd client) v]> clients).
(** Both parts with nothing in between and memory for the session. *)
Definition opcli_job (env : job_env) (cmdvec : cmdvec_t) (clients : list _cli_client)
    : option (list _cli_client) :=
  '(clients, more) ← opcli_job_accept true env clients;
  if more : bool then opcli_job_greet env cmdvec (Some 0%nat) clients else Some clients.

Definition EV_READ : Z := 2.
Definition _CLI_BUF_REQ_SIZE : Z := 512.

(** The event of client number [i]: [read] returns [ret] and the bytes [data]. *)
Variable inet_pton6 : list Z -> bool.
Definition opcli_client_free (i : nat) (clients : list _cli_client) : list _cli_client := delete i clients.
Definition opcli_job_thread (cmdvec : cmdvec_t) (i : nat) (what ret : Z) (data : list Z)
    (clients : list _cli_client) : option (list _cli_client) :=
  client ← clients !! i;
  if ret <? 0 then Some clients
  else if (what =? EV_READ) && (ret =? 0) then Some (opcli_client_free i clients)
  else
    v ← vty_read inet_pton6 cmdvec (run_cb cmdvec) (cl_vty client) (take (Z.to_nat ret) data);
    if status v =? VTY_CLOSE then Some (opcli_client_free i clients)
    else Some (<[i := Client (cl_fd client) v]> clients).

End Cli.

End OpCli.
