(* ===== verification/OpCliSpec.v ===== *)
(** * The command line server: installation, navigation, the server's life

    The functions given to the hash table fit it; installing a command adds it unless its node
    has one of the same text; the nodes the server starts with; what the commands for moving
    between nodes do; and that no sequence of events leads out of the invariant. *)

From S2P Require Import Prelude KeyTable Hash HashSpec CString Utils Vector VtyTerm VtyTermSpec VtyWord VtyCmd VtyCmdSpec VtyExec VtyExecSpec VtyDispatch VtyFormat Vty VtySpec OpCli.
From stdpp Require Import base tactics numbers sets countable list strings relations.
From Stdlib Require Import ZArith Lia.
Import Utils Vector VtyTerm VtyWord VtyCmd VtyExec VtyFormat Vty OpCli.
Open Scope Z_scope.
Open Scope opsv_scope.

(** ** The functions for the table *)

Lemma strcmp_zero a b : strcmp a b = 0 <-> a = b.
Proof.
  revert b. induction a as [|x a IH]; intros [|y b]; simpl; try done. destruct (x =? y) eqn:E; btest.
  - subst y. rewrite IH. split; [by intros ->|by intros [= ->]].
  - destruct (x <? y); split; try done; congruence.
Qed.
Lemma node_compare_key {M} (e d : cmd_element (callback M)) : node_compare e d = 0 <-> node_key e = node_key d.
Proof.
  unfold node_compare, node_key. rewrite Z.lor_eq_0_iff, strcmp_zero.
  destruct (el_node e =? el_node d) eqn:E; btest; simpl; split; [by intros [-> _]; rewrite E|by intros [= -> _]|..];
    [by intros [_ ?]|by intros [= _ ?]].
Qed.
Lemma lxor_u64 a b : 0 <= a < W64 -> 0 <= b < W64 -> 0 <= Z.lxor a b < W64.
Proof.
  intros Ha Hb. assert (0 <= Z.lxor a b) as H0 by (apply Z.lxor_nonneg; lia). split; [done|].
  destruct (Z.eq_dec (Z.lxor a b) 0) as [->|Hne]; [done|]. change W64 with (2 ^ 64) in *.
  apply Z.log2_lt_pow2; [lia|]. pose proof (Z.log2_lxor a b ltac:(lia) ltac:(lia)) as Hl.
  assert (forall x, 0 <= x < 2 ^ 64 -> Z.log2 x < 64) as Hx.
  { intros x Hx. destruct (Z.eq_dec x 0) as [->|]; [done|]. apply Z.log2_lt_pow2; lia. }
  pose proof (Hx a Ha). pose proof (Hx b Hb). lia.
Qed.
Lemma node_hash_loop_range s : forall ret n, 0 <= ret < W64 -> 0 <= node_hash_loop s ret n < W64.
Proof.
  induction s as [|c s IH]; intros ret n Hr; simpl; [done|]. apply IH. apply lxor_u64; [|apply u64_range].
  split.
  - apply Z.land_nonneg. right. lia.
  - change 4294967295 with (Z.ones 32). rewrite Z.land_ones by lia.
    eapply Z.lt_trans; [apply Z.mod_pos_bound; lia|done].
Qed.
(** The hash value depends on the text, and the comparison on the text and the node. *)
#[export] Instance node_hash_key {M} :
  OpHash.HashKey (A := cmd_element (callback M)) node_hash node_compare node_key.
Proof.
  constructor.
  - apply node_compare_key.
  - intros e d [= Hs _]. unfold node_hash. by rewrite Hs.
  - intros e. unfold node_hash. pose proof (node_hash_loop_range (el_string e) 0 256 ltac:(done)) as Hr.
    apply lxor_u64; [|done]. rewrite Z.shiftr_div_pow2 by lia.
    split; [apply Z.div_pos; lia|]. eapply Z.le_lt_trans; [apply Z.div_le_upper_bound; [lia|]|apply Hr]. lia.
Qed.

(** ** The invariant of the nodes *)

Section Nodes.
Context {M T : Type} `{!KeyTable T (node_key (M := M)), !KeyTableLaws T (node_key (M := M))}.
Notation element := (cmd_element (callback M)).
Notation console := (_opcli_struct (M := M) (T := T)).
Implicit Types (self : console) (e : element) (t : T).

Definition prompt_text (i : nat) : option (list Z) := prefix <$> cli_prefix !! i.

(** The table of node [i] holds the commands of the node under their keys. *)
Record node_ok (i : nat) t (n : cmd_node (callback M)) : Prop := {
  no_table : kt_wf t;
  no_prompt : prompt_text i = Some (cn_prompt n);
  no_slots : forall c, c ∈ cn_vector n -> is_Some c;
  no_commands : forall e, Some e ∈ cn_vector n -> wf_element e /\ el_node e = Z.of_nat i;
  no_keys : node_key <$> omap id (cn_vector n) ≡ₚ node_key <$> kt_items t
}.
(** The first [k] nodes are set up. *)
Definition nodes_ok (k : nat) self : Prop :=
  (k <= 4)%nat /\ length (cmd_hash self) = 4%nat /\ length (cmdvec self) = k
  /\ forall i, (i < k)%nat -> exists t n,
       cmd_hash self !! i = Some (Some t) /\ cmdvec self !! i = Some (Some n) /\ node_ok i t n.

Definition commands self (i : nat) : list element :=
  match cmdvec self !! i with Some (Some n) => omap id (cn_vector n) | _ => [] end.
Definition parsed (ts : list cmd_token) e : element :=
  Element (el_node e) (el_string e) (el_doc e) ts (el_attr e) (el_daemon e) (el_cb e).

Lemma slots_some (l : list (option element)) :
  (forall c, c ∈ l -> is_Some c) -> Some <$> omap id l = l.
Proof.
  induction l as [|[x|] l IH]; intros H; [done| |].
  - simpl. f_equal. apply IH. intros c Hc. apply H. by right.
  - destruct (H None) as [? ?]; [by left|done].
Qed.

Lemma update_nodes_ok k i self t' n' :
  nodes_ok k self -> (i < k)%nat -> node_ok i t' n' ->
  nodes_ok k (Opcli (<[i := Some t']> (cmd_hash self)) (<[i := Some n']> (cmdvec self))).
Proof.
  intros (Hk & Hh & Hv & Hn) Hi Hok. split; [done|]. split; [by simpl; rewrite length_insert|].
  split; [by simpl; rewrite length_insert|]. intros j Hj. simpl. destruct (decide (j = i)) as [->|Hne].
  - exists t', n'. rewrite !list_lookup_insert_eq by lia. done.
  - rewrite !list_lookup_insert_ne by done. by apply Hn.
Qed.
Lemma update_table_ok k i self t' n :
  nodes_ok k self -> (i < k)%nat -> cmdvec self !! i = Some (Some n) -> node_ok i t' n ->
  nodes_ok k (Opcli (<[i := Some t']> (cmd_hash self)) (cmdvec self)).
Proof.
  intros H Hi Hn Hok. pose proof (update_nodes_ok k i self t' n H Hi Hok) as H2.
  by rewrite (list_insert_id (cmdvec self) i (Some n)) in H2.
Qed.

(** Looking a command up in the table of its node tells whether the node has its text. *)
Lemma lookup_spec i t n e :
  node_ok i t n -> el_node e = Z.of_nat i ->
  let fresh := bool_decide (el_string e ∉ el_string <$> omap id (cn_vector n)) in
  exists t1, kt_retrieve t e = (fst (kt_retrieve t e), t1) /\ node_ok i t1 n
  /\ bool_decide (fst (kt_retrieve t e) = None) = fresh
  /\ (fresh = true -> forall x, x ∈ kt_items t1 -> node_key x <> node_key e).
Proof.
  intros [Hwf Hpr Hsl Hcmd Hkeys] Hnode fresh. destruct (kt_retrieve_law t e Hwf) as (Hwf1 & Hit1 & Hret).
  destruct (kt_retrieve t e) as [data t1]. simpl in *. exists t1. split; [done|].
  split; [constructor; try done; by rewrite Hit1|]. rewrite Hit1. subst fresh. split.
  - apply bool_decide_ext. split.
    + intros ->. intros (y & Hy & Hyin)%list_elem_of_fmap.
      assert (node_key y ∈ node_key <$> kt_items t) as Hx by (rewrite <- Hkeys; by apply list_elem_of_fmap_2).
      apply list_elem_of_fmap in Hx as (x & Hx & Hxin). apply (Hret x Hxin). rewrite <- Hx. unfold node_key.
      apply list_elem_of_omap in Hyin as (c & Hc & Hcy). simpl in Hcy. subst c. destruct (Hcmd y Hc) as [_ Hyn].
      by rewrite Hy, Hyn, Hnode.
    + intros Hf. destruct data as [x|]; [|done]. destruct Hf. destruct Hret as [Hx Hkx].
      assert (node_key x ∈ node_key <$> omap id (cn_vector n)) as Hin by (rewrite Hkeys; by apply list_elem_of_fmap_2).
      apply list_elem_of_fmap in Hin as (y & Hy & Hyin). rewrite Hkx in Hy. unfold node_key in Hy. simplify_eq.
      apply list_elem_of_fmap. eauto.
  - intros Hf%bool_decide_eq_true x Hx Hk. apply Hf.
    assert (node_key x ∈ node_key <$> omap id (cn_vector n)) as Hin by (rewrite Hkeys; by apply list_elem_of_fmap_2).
    apply list_elem_of_fmap in Hin as (y & Hy & Hyin). rewrite Hk in Hy. unfold node_key in Hy. simplify_eq.
    apply list_elem_of_fmap. eauto.
Qed.

Lemma node_ok_add i t t2 n e :
  node_ok i t n -> wf_element e -> el_node e = Z.of_nat i -> kt_wf t2 ->
  node_key <$> kt_items t2 ≡ₚ node_key e :: (node_key <$> kt_items t) ->
  node_ok i t2 (Node (cn_node n) (cn_prompt n) (cn_vector n ++ [Some e])).
Proof.
  intros [Hwf Hpr Hsl Hcmd Hkeys] He Hn Hwf2 Hk. constructor; simpl; try done.
  - intros c [Hc|Hc%list_elem_of_singleton]%elem_of_app; [auto|]. subst c. by eexists.
  - intros y [Hy|Hy%list_elem_of_singleton]%elem_of_app; [auto|]. by injection Hy as ->.
  - rewrite omap_app, fmap_app, Hk, Hkeys. simpl. by rewrite Permutation_app_comm.
Qed.

(** Installing a command whose text can be parsed into well-formed tokens. *)
Lemma install_ex_spec k i self e ts :
  nodes_ok k self -> (i < k)%nat -> el_node e = Z.of_nat i -> el_tokens e = [] ->
  cmd_parse_format (el_string e) (Some (el_doc e)) = Some ts -> Forall wf_token ts -> zlen (el_string e) <= 4000 ->
  Z.of_nat (length (commands self i)) < kt_room ->
  let fresh := bool_decide (el_string e ∉ el_string <$> commands self i) in
  exists self', opcli_install_cmd_ex (Z.of_nat i) (Some e) self = Some (if fresh then 0 else -1, self')
  /\ nodes_ok k self'
  /\ forall j, commands self' j = if fresh && (j =? i)%nat then commands self i ++ [parsed ts e] else commands self j.
Proof.
  intros Hok Hi Hnode Htok Hparse Hts Hlen Hroom fresh. pose proof Hok as (Hk & Hh & Hv & Hall).
  destruct (Hall i Hi) as (t & n & Ht & Hn & Hno).
  assert (commands self i = omap id (cn_vector n)) as Hci by (unfold commands; by rewrite Hn).
  unfold opcli_install_cmd_ex. assert ((node_max <=? Z.of_nat i) = false) as -> by (apply Z.leb_gt; unfold node_max; lia).
  rewrite Nat2Z.id, Ht. change (mjoin (Some (Some t))) with (Some t). rewrite bind_some.
  destruct (lookup_spec i t n e Hno Hnode) as (t1 & -> & Hno1 & Hf & Hnew). rewrite <- Hci in Hf, Hnew. fold fresh in Hf, Hnew.
  destruct (fst (kt_retrieve t e)) as [x|]; simpl in Hf; rewrite <- Hf in *; clear Hf.
  { eexists. split; [done|]. split; [|done]. by eapply update_table_ok. }
  pose proof Hno1 as [Hwf1 _ Hsl _ Hk1].
  destruct (kt_insert_fresh t1 e Hwf1) as [Hwf2 Hit2]; [|auto|].
  { apply Permutation_length in Hk1. rewrite !length_fmap in Hk1. by rewrite <- Hk1, <- Hci. }
  destruct (kt_insert t1 e) as [old t2]. simpl in Hwf2, Hit2 |- *.
  unfold install_element, vector_slot. replace (0 <=? Z.of_nat i) with true by lia.
  unfold vlookup. rewrite Nat2Z.id, Hn. simpl. rewrite Htok, Hparse, bind_some, vset_full by done.
  eexists. split; [done|]. split.
  - apply update_nodes_ok; [done|done|]. eapply (node_ok_add i t1 t2 n (parsed ts e)); [done|by split|done|done|].
    by rewrite Hit2.
  - intros j. unfold commands. simpl. destruct (j =? i)%nat eqn:E.
    + apply Nat.eqb_eq in E. subst j. rewrite list_lookup_insert_eq by lia. simpl. by rewrite omap_app, Hn.
    + apply Nat.eqb_neq in E. by rewrite list_lookup_insert_ne by done.
Qed.

(** [opcli_install_cmd] is [opcli_install_cmd_ex] on a new element. *)
Lemma install_cmd_ex k i self cmd help cb :
  nodes_ok k self -> (i < k)%nat ->
  opcli_install_cmd true (Z.of_nat i) (Some cmd) (Some help) (Some cb) self
  = opcli_install_cmd_ex (Z.of_nat i) (Some (new_element (Z.of_nat i) cmd help cb)) self.
Proof.
  intros (Hk & _ & _ & Hall) Hi. destruct (Hall i Hi) as (t & n & Ht & Hn & _).
  unfold opcli_install_cmd, opcli_install_cmd_ex. destruct (node_max <=? Z.of_nat i); [done|]. simpl negb. cbv iota.
  rewrite Nat2Z.id, Ht. change (mjoin (Some (Some t))) with (Some t). rewrite !bind_some.
  destruct (kt_retrieve t _) as [[x|] t1]; [done|]. destruct (kt_insert t1 _) as [old t2].
  unfold install_element, vector_slot. replace (0 <=? Z.of_nat i) with true by lia.
  unfold vlookup. rewrite Nat2Z.id, Hn. simpl. by destruct (cmd_parse_format cmd (Some help)).
Qed.

(** ** The nodes the server starts with *)

Definition entry : Type := list Z * list Z * callback M.
Definition parse_entry (i : nat) (x : entry) : element :=
  let '(cmd, help, cb) := x in
  parsed (default [] (cmd_parse_format cmd (Some help))) (new_element (Z.of_nat i) cmd help cb).
Definition entry_ok (x : entry) : Prop :=
  let '(cmd, help, cb) := x in
  exists ts, cmd_parse_format cmd (Some help) = Some ts /\ Forall wf_token ts /\ zlen cmd <= 4000.
Definition entry_name (x : entry) : list Z := fst (fst x).

Lemma install_all_spec k i l : forall self,
  nodes_ok k self -> (i < k)%nat -> Forall entry_ok l -> NoDup (entry_name <$> l) ->
  (forall x, x ∈ l -> entry_name x ∉ el_string <$> commands self i) ->
  Z.of_nat (length (commands self i) + length l) < kt_room ->
  exists self', install_all true (Z.of_nat i) l self = Some self' /\ nodes_ok k self'
  /\ forall j, commands self' j = if (j =? i)%nat then commands self i ++ (parse_entry i <$> l) else commands self j.
Proof.
  induction l as [|[[cmd help] cb] l IH]; intros self Hok Hi Hl Hnd Hnew Hroom.
  { exists self. split; [done|]. split; [done|]. intros j. destruct (j =? i)%nat eqn:E; [|done].
    apply Nat.eqb_eq in E. subst j. by rewrite app_nil_r. }
  apply Forall_cons in Hl as [(ts & Hts & Hwf & Hlen) Hl]. rewrite fmap_cons in Hnd. apply NoDup_cons in Hnd as [Hni Hnd].
  cbn [install_all]. rewrite (install_cmd_ex k) by done. simpl in Hroom.
  destruct (install_ex_spec k i self (new_element (Z.of_nat i) cmd help cb) ts) as (self1 & -> & Hok1 & Hc1);
    try done; [lia|].
  rewrite bool_decide_eq_true_2 in Hc1 by (apply (Hnew (cmd, help, cb)); by left). simpl in Hc1.
  pose proof (Hc1 i) as Hci. rewrite Nat.eqb_refl in Hci. rewrite bind_some.
  destruct (IH self1) as (self2 & -> & Hok2 & Hc2); try done.
  - intros x Hx. rewrite Hci, fmap_app. simpl. intros [Hin|Hin%list_elem_of_singleton]%elem_of_app.
    + apply (Hnew x); [by right|done].
    + apply Hni, list_elem_of_fmap. exists x. split; [symmetry; exact Hin|done].
  - rewrite Hci, length_app. simpl. lia.
  - exists self2. split; [done|]. split; [done|]. intros j. rewrite Hc2. destruct (j =? i)%nat eqn:E.
    + rewrite Hci, fmap_cons, <- app_assoc. simpl. by rewrite Hts.
    + by rewrite Hc1, E.
Qed.

Definition default_entries (i : nat) : list entry :=
  _cmd_in_node ++
  match i with
  | 0%nat => [(str "enable", str "into enable node" ++ [10], cmd_node_enable)]
  | 1%nat => _cmd_in_node_enable
  | _ => []
  end.
Lemma default_entries_ok i : Forall entry_ok (default_entries i) /\ NoDup (entry_name <$> default_entries i)
  /\ (length (default_entries i) <= 5)%nat.
Proof.
  assert (forall x : entry, x ∈ default_entries 0 ++ default_entries 1 -> entry_ok x) as Hok.
  { intros x Hx. repeat (apply elem_of_cons in Hx as [->|Hx]); [..|by apply elem_of_nil in Hx];
      (eexists; split; [vm_compute; reflexivity|]; split; [|by vm_compute]); repeat constructor; try done;
      intros ? [= <-]; by vm_compute. }
  destruct i as [|[|i]].
  all: split; [apply Forall_forall; intros x Hx; apply Hok, elem_of_app|].
  1: by left.
  2: by right.
  3: { unfold default_entries in Hx. rewrite app_nil_r in Hx. left. unfold default_entries. apply elem_of_app. by left. }
  all: split; [by apply (bool_decide_unpack _)|simpl; lia].
Qed.

Lemma commands_fresh_node k self t p :
  nodes_ok k self -> (k < 4)%nat -> kt_wf t -> kt_items t = [] -> prompt_text k = Some p ->
  let self' := Opcli (<[k := Some t]> (cmd_hash self)) (install_node (cmdvec self) (Z.of_nat k) p) in
  nodes_ok (S k) self' /\ forall j, commands self' j = commands self j.
Proof.
  intros (Hk & Hh & Hv & Hall) Hlt Ht Hi Hp self'.
  assert (cmdvec self' = cmdvec self ++ [Some (Node (Z.of_nat k) p [])]) as Hcv.
  { subst self'. simpl. unfold install_node, vset_index. rewrite Nat2Z.id, decide_False by lia. by rewrite Hv, Nat.sub_diag. }
  split.
  - split; [lia|]. split; [by simpl; rewrite length_insert|]. rewrite Hcv. split; [rewrite length_app; simpl; lia|].
    intros j Hj. simpl. destruct (decide (j = k)) as [->|Hne].
    + exists t, (Node (Z.of_nat k) p []). rewrite list_lookup_insert_eq by lia. split; [done|].
      split; [by rewrite lookup_app_r, Hv, Nat.sub_diag by lia|].
      constructor; simpl; try done; [by intros c ?%elem_of_nil|by intros e ?%elem_of_nil|by rewrite Hi].
    + rewrite list_lookup_insert_ne by done. rewrite lookup_app_l by lia. apply Hall. lia.
  - intros j. unfold commands. rewrite Hcv. destruct (decide (j < k)%nat) as [Hj|Hj].
    + by rewrite lookup_app_l by lia.
    + rewrite lookup_app_r by lia. rewrite (lookup_ge_None_2 (cmdvec self)) by lia.
      by destruct (j - length (cmdvec self))%nat as [|[|]].
Qed.

Lemma default_cmd_spec k self i :
  nodes_ok k self -> (i < k)%nat -> commands self i = [] ->
  exists self', install_default_cmd true (Z.of_nat i) self = Some self' /\ nodes_ok k self'
  /\ forall j, commands self' j = if (j =? i)%nat then parse_entry i <$> default_entries i else commands self j.
Proof.
  intros Hok Hi Hc. pose proof (default_entries_ok i) as (Hall & Hnd & Hlen).
  unfold default_entries in Hall, Hnd, Hlen.
  set (more := match i with 0%nat => _ | S _ => _ end) in Hall, Hnd, Hlen.
  apply Forall_app in Hall as [Ha1 Ha2]. rewrite fmap_app in Hnd. apply NoDup_app in Hnd as (Hn1 & Hdis & Hn2).
  rewrite length_app in Hlen.
  destruct (install_all_spec k i _cmd_in_node self) as (self1 & Hs1 & Hok1 & Hc1); try done.
  { intros x _. rewrite Hc. by intros ?%elem_of_nil. }
  { rewrite Hc. simpl. unfold kt_room. lia. }
  destruct (install_all_spec k i more self1) as (self2 & Hs2 & Hok2 & Hc2); try done.
  { intros x Hx. rewrite Hc1, Nat.eqb_refl, Hc. intros Hin. apply (Hdis (entry_name x)); [|by apply list_elem_of_fmap_2].
    rewrite app_nil_l, <- list_fmap_compose in Hin. apply list_elem_of_fmap in Hin as (y & -> & Hy).
    apply list_elem_of_fmap. exists y. split; [|done]. by destruct y as [[??]?]. }
  { rewrite Hc1, Nat.eqb_refl, Hc, app_nil_l, length_fmap. unfold kt_room. eapply Z.le_lt_trans; [apply inj_le, Hlen|done]. }
  exists self2. split; [|split; [done|]].
  - unfold install_default_cmd. rewrite Hs1, bind_some. unfold node_view, node_enable. subst more.
    destruct i as [|[|i]]; [exact Hs2|exact Hs2|]. simpl in Hs2.
    assert ((Z.of_nat (S (S i)) =? 0) = false) as -> by (apply Z.eqb_neq; lia).
    assert ((Z.of_nat (S (S i)) =? 1) = false) as -> by (apply Z.eqb_neq; lia). done.
  - intros j. rewrite Hc2. destruct (j =? i)%nat eqn:E; [|by rewrite Hc1, E].
    rewrite Hc1, Nat.eqb_refl, Hc, app_nil_l, <- fmap_app. done.
Qed.

Lemma node_init_spec tables : forall k self,
  nodes_ok k self -> (k + length tables = 4)%nat ->
  Forall (fun o => exists t, o = Some t /\ kt_wf t /\ kt_items t = []) tables ->
  (forall j, commands self j = if (j <? k)%nat then parse_entry j <$> default_entries j else []) ->
  exists self', node_init_loop true tables (drop k cli_prefix) k self = Some (0, self') /\ nodes_ok 4 self'
  /\ forall j, commands self' j = if (j <? 4)%nat then parse_entry j <$> default_entries j else [].
Proof.
  induction tables as [|o tables IH]; intros k self Hok Hlen Ht Hc.
  { simpl in Hlen. assert (k = 4%nat) as -> by lia. by exists self. }
  apply Forall_cons in Ht as [(t & -> & Hwf & Hi) Ht]. simpl in Hlen.
  destruct (lookup_lt_is_Some_2 cli_prefix k) as [p Hp]; [simpl; lia|].
  rewrite (drop_S _ _ _ Hp). cbn [node_init_loop].
  destruct (commands_fresh_node k self t (prefix p) Hok) as [Hok1 Hc1]; [lia|done|done|by unfold prompt_text; rewrite Hp|].
  destruct (default_cmd_spec (S k) _ k Hok1) as (self2 & -> & Hok2 & Hc2); [lia| |].
  { rewrite Hc1, Hc. destruct (k <? k)%nat eqn:E; [|done]. apply Nat.ltb_lt in E. lia. }
  rewrite bind_some. apply IH; [done|lia|done|].
  intros j. rewrite Hc2. destruct (j =? k)%nat eqn:E.
  - apply Nat.eqb_eq in E. subst j. by replace (k <? S k)%nat with true by (symmetry; apply Nat.ltb_lt; lia).
  - apply Nat.eqb_neq in E. rewrite Hc1, Hc. destruct (j <? k)%nat eqn:E1, (j <? S k)%nat eqn:E2; try done.
    + apply Nat.ltb_lt in E1. apply Nat.ltb_ge in E2. lia.
    + apply Nat.ltb_ge in E1. apply Nat.ltb_lt in E2. lia.
Qed.
Lemma opcli_init_spec tables :
  length tables = 4%nat -> Forall (fun o => exists t, o = Some t /\ kt_wf t /\ kt_items t = []) tables ->
  exists self, opcli_node_init true tables opcli_new = Some (0, self) /\ nodes_ok 4 self
  /\ forall j, commands self j = if (j <? 4)%nat then parse_entry j <$> default_entries j else [].
Proof.
  intros Hl Ht. apply (node_init_spec tables 0 opcli_new); [|done|done|done].
  split; [lia|]. split; [done|]. split; [done|]. intros i Hi. lia.
Qed.
End Nodes.

(** ** Sessions of the console *)

Lemma prompt_format i h p :
  prompt_text i = Some p ->
  exists suf, format p [h] = Some (h ++ suf) /\ Forall printable suf /\ zlen suf <= 10.
Proof.
  unfold prompt_text. destruct i as [|[|[|[|i]]]]; simpl; intros [= <-].
  all: eexists; split; [reflexivity|]; split; [|by vm_compute]; repeat constructor; by vm_compute.
Qed.

Section Console.
Context {M T : Type} `{!KeyTable T (node_key (M := M)), !KeyTableLaws T (node_key (M := M))}.
Context (inet_pton6 : list Z -> bool).
Context (run_module : M -> list word -> cmd_element (callback M) -> vty -> option (Z * vty)).
Notation console := (_opcli_struct (M := M) (T := T)).
Notation run_cb := (run_cb run_module).
Implicit Types (self : console).

Lemma node_slot self i :
  nodes_ok 4 self -> 0 <= i < 4 ->
  exists t n, vector_slot (cmdvec self) i = Some n /\ node_ok (Z.to_nat i) t n
  /\ omap id (cn_vector n) = commands self (Z.to_nat i).
Proof.
  intros (_ & _ & _ & Hall) Hi. destruct (Hall (Z.to_nat i)) as (t & n & _ & Hn & Hok); [lia|].
  exists t, n. unfold vector_slot, vlookup, commands. replace (0 <=? i) with true by lia. by rewrite Hn.
Qed.

(** In a console a session is its arrays, a host name that can be printed, and one of the
    nodes. *)
Lemma session_console self v :
  nodes_ok 4 self ->
  session (cmdvec self) v <->
  (exists l r, at_line v l r) /\ hist_ok v /\ length (sb_buf v) = 5%nat /\ 0 <= sb_len v
  /\ zlen (hostname v) < 64 /\ Forall printable (hostname v) /\ 0 <= node v < 4.
Proof.
  intros Hok. split.
  - intros (Hl & Hh & Hsb & Hsl & [Hz (p & s & Hp & Hs & _ & Hpr)] & (cs & Hcs & _)).
    assert (0 <= node v < 4) as Hn.
    { unfold cmd_node_vector, vector_slot, vlookup in Hcs. destruct (0 <=? node v) eqn:E; btest; [|done].
      destruct Hok as (_ & _ & Hlen & _). destruct (cmdvec self !! Z.to_nat (node v)) eqn:E2; [|done].
      apply lookup_lt_Some in E2. lia. }
    split_and!; try done; try lia. destruct (node_slot self (node v) Hok Hn) as (t & n & Hslot & Hno & _).
    unfold VtyExec.cmd_prompt in Hp. rewrite Hslot in Hp. simpl in Hp. injection Hp as <-.
    destruct (prompt_format _ (hostname v) _ (no_prompt _ _ _ Hno)) as (suf & Hf & _). rewrite Hf in Hs.
    injection Hs as <-. by apply Forall_app in Hpr as [? _].
  - intros (Hl & Hh & Hsb & Hsl & Hz & Hpr & Hn). split_and!; try done.
    + destruct (node_slot self (node v) Hok Hn) as (t & n & Hslot & Hno & _).
      destruct (prompt_format _ (hostname v) _ (no_prompt _ _ _ Hno)) as (suf & Hf & Hps & Hzs).
      exists (cn_prompt n), (hostname v ++ suf). unfold VtyExec.cmd_prompt. rewrite Hslot. split; [done|].
      split; [done|]. split; [unfold VTY_OUT_SIZE; zlen; lia|]. by apply Forall_app.
    + destruct (node_slot self (node v) Hok Hn) as (t & n & Hslot & Hno & _).
      exists (cn_vector n). unfold cmd_node_vector. rewrite Hslot. split; [done|]. intros e He. by apply (no_commands _ _ _ Hno).
Qed.
Lemma session_set_node self v i :
  nodes_ok 4 self -> session (cmdvec self) v -> 0 <= i < 4 -> session (cmdvec self) (set_node i v).
Proof.
  intros Hok. rewrite !session_console by done. intros (Hl & Hh & Hsb & Hsl & Hz & Hpr & _) Hi. split; [exact Hl|]. split; [exact Hh|]. split_and!; done || apply Hi.
Qed.

(** The callbacks of the modules keep sessions. *)
Definition modules_ok : Prop :=
  forall (cmdvec : list (option (cmd_node (callback M)))) m argv e v, session cmdvec v -> wf_element e -> vector_active argv <= CMD_ARGC_MAX ->
  safe (fun x => session cmdvec (snd x) /\ hostname (snd x) = hostname v) (run_module m argv e v).

Lemma enable_module_keeps self name ps : forall i v,
  nodes_ok 4 self -> session (cmdvec self) v -> 0 <= i -> i + Z.of_nat (length ps) <= 4 ->
  session (cmdvec self) (enable_module_loop ps i name v) /\ hostname (enable_module_loop ps i name v) = hostname v.
Proof.
  induction ps as [|p ps IH]; intros i v Hok Hs H0 Hi; [done|]. cbn [enable_module_loop length] in *.
  destruct (cmd_in_enable p) as [c|]; [destruct (str_eq name c)|]; try (apply IH; [done|done|lia|lia]).
  apply (IH (i + 1) (set_node i v)); [done|apply session_set_node; [done|done|lia]|lia|lia].
Qed.
Lemma out_host v s v' : vty_out v s = Some v' -> hostname v' = hostname v.
Proof. unfold vty_out. destruct (_ <? _); [by intros [= <-]|]. destruct (_ =? _); [by intros [= <-]|done]. Qed.
Lemma list_loop_host (cs : list (option (cmd_element (callback M)))) : forall v v',
  list_loop cs v = Some v' -> hostname v' = hostname v.
Proof.
  induction cs as [|[e|] cs IH]; intros v v' H; simpl in H; [by simplify_eq| |by apply IH].
  destruct (negb _); [|by apply IH]. destruct (outs v _) as [v1|] eqn:E; simpl in H; [|done].
  apply out_host in E. apply IH in H. congruence.
Qed.
(** So do those of the console, which discharges what [vty_read] asks for. *)
Lemma run_cb_ok self : modules_ok -> nodes_ok 4 self -> callbacks_ok (cmdvec self) (run_cb (cmdvec self)).
Proof.
  intros Hm Hok cb argv e v Hs He Ha. pose proof Hs as Hc. rewrite session_console in Hc by done.
  destruct Hc as (_ & _ & _ & _ & _ & _ & Hn).
  assert (forall i, 0 <= i < 4 -> session (cmdvec self) (set_node i v)) as Hset by (intros; by apply session_set_node).
  destruct cb; cbn [OpCli.run_cb].
  - apply safe_some. unfold run_cmd_node_exit. repeat case_match; simpl; (split; [|done]); try done; apply Hset; done.
  - apply safe_some. split; [|done]. by apply Hset.
  - destruct (list_safe (cmdvec self) v Hs) as (v' & Hv & Hs'). rewrite Hv. apply safe_some. split; [done|].
    unfold vty_list in Hv. destruct (cmd_node_vector _ _); [|done]. by apply list_loop_host in Hv.
  - apply safe_some. split; [|done]. by apply Hset.
  - apply safe_some. exact (enable_module_keeps self (el_string e) cli_prefix 0 v Hok Hs ltac:(lia) ltac:(simpl; lia)).
  - by apply Hm.
Qed.

(** ** Moving between the nodes *)

Definition default_commands (i : nat) : list (cmd_element (callback M)) := parse_entry i <$> default_entries i.

(** The execution of a line of one word. *)
Definition exec self (w : list Z) (v : vty) : option (Z * vty) :=
  cmd_execute_command inet_pton6 (cmdvec self) (run_cb (cmdvec self)) [Some w] v.

Lemma default_literal i : Forall literal (default_commands i).
Proof. by destruct i as [|[|i]]; repeat constructor. Qed.
Lemma exec_dispatch self w v :
  nodes_ok 4 self -> 0 <= node v < 4 -> commands self (Z.to_nat (node v)) = default_commands (Z.to_nat (node v)) ->
  w <> [] -> str_eq (str "do") w = false ->
  exec self w v = match dispatch [w] (default_commands (Z.to_nat (node v))) with
                  | inl ret => Some (ret, v)
                  | inr (e, argv) => run_cb (cmdvec self) (el_cb e) argv e v
                  end.
Proof.
  intros Hok Hn Hc Hw Hdo. destruct (node_slot self (node v) Hok Hn) as (t & n & Hslot & Hno & Hcm).
  unfold exec, cmd_execute_command. cbn [lookup list_lookup mbind option_bind cmd_try_do_shortcut]. rewrite Hdo. change [Some w] with (Some <$> [w]).
  rewrite <- Hc, <- Hcm. apply execute_dispatch.
  - unfold cmd_node_vector. by rewrite Hslot.
  - intros e He. pose proof (default_literal (Z.to_nat (node v))) as Hl. rewrite <- Hc, <- Hcm in Hl.
    rewrite Forall_forall in Hl. apply Hl. apply list_elem_of_omap. by exists (Some e).
  - by repeat constructor.
  - by vm_compute.
Qed.

(** The console as [opcli_node_init] leaves it. *)
Definition started self : Prop :=
  nodes_ok 4 self /\ forall j, (j < 4)%nat -> commands self j = default_commands j.

Definition node_above (v : vty) : vty :=
  if node v =? node_view then set_status VTY_CLOSE v
  else if node v =? node_enable then set_node node_view v else set_node node_enable v.

Ltac by_node v Hn :=
  let H := fresh in
  assert (node v = 0 \/ node v = 1 \/ node v = 2 \/ node v = 3) as H by lia;
  destruct H as [H|[H|[H|H]]]; rewrite ?H; vm_compute Z.to_nat;
  match goal with |- context [dispatch ?a ?b] =>
    let x := eval vm_compute in (dispatch a b) in replace (dispatch a b) with x by (vm_compute; reflexivity)
  end;
  cbv iota beta; cbn [OpCli.run_cb el_cb]; unfold run_cmd_node_exit; rewrite ?H; reflexivity.

Lemma exec_exit self v : started self -> 0 <= node v < 4 -> exec self (str "exit") v = Some (0, node_above v).
Proof.
  intros [Hok Hc] Hn. rewrite exec_dispatch; [|done|done|apply Hc; lia|done|done].
  unfold node_above. by_node v Hn.
Qed.
Lemma exec_end self v : started self -> 0 <= node v < 4 -> exec self (str "end") v = Some (0, set_node node_view v).
Proof.
  intros [Hok Hc] Hn. rewrite exec_dispatch; [|done|done|apply Hc; lia|done|done].
  by_node v Hn.
Qed.
Lemma exec_enable self v : started self -> 0 <= node v < 4 ->
  exec self (str "enable") v = if node v =? node_view then Some (0, set_node node_enable v) else Some (CMD_ERR_NO_MATCH, v).
Proof.
  intros [Hok Hc] Hn. rewrite exec_dispatch; [|done|done|apply Hc; lia|done|done].
  by_node v Hn.
Qed.
Lemma exec_opmgr self v : started self -> 0 <= node v < 4 ->
  exec self CMD_OPMGR_NAME v = if node v =? node_enable then Some (0, set_node node_opmgr v) else Some (CMD_ERR_NO_MATCH, v).
Proof.
  intros [Hok Hc] Hn. rewrite exec_dispatch; [|done|done|apply Hc; lia|done|done].
  by_node v Hn.
Qed.
Lemma exec_op4g self v : started self -> 0 <= node v < 4 ->
  exec self CMD_OP4G_NAME v = if node v =? node_enable then Some (0, set_node node_op4g v) else Some (CMD_ERR_NO_MATCH, v).
Proof.
  intros [Hok Hc] Hn. rewrite exec_dispatch; [|done|done|apply Hc; lia|done|done].
  by_node v Hn.
Qed.

(** A line [exit] typed into an empty line. *)
Definition exit_line : list Z := str "exit" ++ [13].
Definition idle (v : vty) : Prop := at_line v [] [] /\ normal_mode v.

Lemma exit_read self v :
  started self -> session (cmdvec self) v -> idle v ->
  exists v', vty_read inet_pton6 (cmdvec self) (run_cb (cmdvec self)) v exit_line = Some v'
  /\ session (cmdvec self) v' /\ idle v' /\ node v' = node (node_above v) /\ status v' = status (node_above v).
Proof.
  intros Hst Hs [Hl Hn]. pose proof Hst as [Hok _]. unfold exit_line.
  destruct (read_text inet_pton6 (cmdvec self) (run_cb (cmdvec self)) (str "exit") v [] [13] Hl Hn)
    as (v1 & -> & Hl1 & Hf1); [by repeat constructor|by vm_compute|].
  pose proof (session_frame _ _ _ _ _ Hs Hl1 Hf1) as Hs1. pose proof (frame_mode _ _ Hf1 Hn) as Hn1.
  rewrite read_return by done. rewrite vty_out_ok by apply VTY_NEWLINE_fits. rewrite bind_some.
  set (v2 := vty_write v1 (VTY_NEWLINE v1)).
  assert (session (cmdvec self) v2 /\ normal_mode v2 /\ at_line v2 (str "exit") []
          /\ node v2 = node v /\ status v2 = status v) as (Hs2 & Hn2 & Hl2 & Hnode & Hstat).
  { unfold frame in Hf1. by simplify_eq. }
  clearbody v2. pose proof Hs2 as Hc. rewrite session_console in Hc by done. destruct Hc as (_ & _ & _ & _ & _ & _ & Hr).
  destruct (execute_idle inet_pton6 (cmdvec self) (run_cb (cmdvec self)) v2 (str "exit") [Some (str "exit")] (node_above v2))
    as (v3 & -> & Hs3 & Hl3 & Hn3 & Hnd3 & Hst3).
  - done.
  - intros x Hx. by repeat (apply elem_of_cons in Hx as [->|Hx]); [..|by apply elem_of_nil in Hx].
  - reflexivity.
  - by apply exec_exit.
  - unfold node_above. repeat case_match; [done|by apply session_set_node|by apply session_set_node].
  - destruct Hn2 as (He & Hi & Hsb & Hm). unfold node_above. by repeat case_match.
  - exists v3. split; [done|]. split; [done|]. split; [done|]. rewrite Hnd3, Hst3. unfold node_above. rewrite Hnode.
    by repeat case_match.
Qed.

(** The same input, [n] times. *)
Fixpoint send_exit (n : nat) self (i : nat) (clients : list _cli_client) : option (list _cli_client) :=
  match n with
  | O => Some clients
  | S n =>
      clients ← opcli_job_thread run_module inet_pton6 (cmdvec self) i EV_READ 5 exit_line clients;
      send_exit n self i clients
  end.
Lemma exit_input self i clients c :
  started self -> clients !! i = Some c -> session (cmdvec self) (cl_vty c) -> idle (cl_vty c) ->
  status (cl_vty c) <> VTY_CLOSE ->
  let r := opcli_job_thread run_module inet_pton6 (cmdvec self) i EV_READ 5 exit_line clients in
  if node (cl_vty c) =? node_view then r = Some (delete i clients)
  else exists v', r = Some (<[i := Client (cl_fd c) v']> clients)
       /\ session (cmdvec self) v' /\ idle v' /\ status v' <> VTY_CLOSE
       /\ node v' = if node (cl_vty c) =? node_enable then node_view else node_enable.
Proof.
  intros Hst Hc Hs Hi Hclose r. destruct (exit_read self (cl_vty c) Hst Hs Hi) as (v' & Hv & Hs' & Hi' & Hnode & Hstat).
  subst r. unfold opcli_job_thread. rewrite Hc, bind_some.
  replace (5 <? 0) with false by done. replace ((EV_READ =? EV_READ) && (5 =? 0)) with false by done.
  replace (take (Z.to_nat 5) exit_line) with exit_line by done. rewrite Hv, bind_some.
  unfold node_above in *. destruct (node (cl_vty c) =? node_view) eqn:E; [by rewrite Hstat|].
  exists v'. rewrite Hstat. destruct (node (cl_vty c) =? node_enable); simpl in *;
    rewrite (proj2 (Z.eqb_neq (status (cl_vty c)) VTY_CLOSE)) by done; split_and!; try done; congruence.
Qed.

(** How many lines [exit] it takes to leave from a node. *)
(** The nodes above a node, from the nearest to the first. *)
Definition nodes_above (n : Z) : list Z :=
  if n =? node_view then [] else if n =? node_enable then [node_view] else [node_enable; node_view].
Lemma exits_climb path : forall self i clients c,
  started self -> clients !! i = Some c -> session (cmdvec self) (cl_vty c) -> idle (cl_vty c) ->
  status (cl_vty c) <> VTY_CLOSE -> nodes_above (node (cl_vty c)) = path ->
  (forall k n, path !! k = Some n ->
     exists v', send_exit (S k) self i clients = Some (<[i := Client (cl_fd c) v']> clients)
     /\ node v' = n /\ status v' <> VTY_CLOSE /\ idle v')
  /\ send_exit (S (length path)) self i clients = Some (delete i clients).
Proof.
  induction path as [|p path IH]; intros self i clients c Hst Hc Hs Hi Hcl Hp;
    pose proof (exit_input self i clients c Hst Hc Hs Hi Hcl) as H; cbn [send_exit]; unfold nodes_above in Hp;
    destruct (node (cl_vty c) =? node_view) eqn:E; try done.
  - rewrite H. split; [|done]. intros k n. by rewrite lookup_nil.
  - by destruct (node (cl_vty c) =? node_enable).
  - destruct H as (v' & -> & Hs' & Hi' & Hcl' & Hn'). rewrite bind_some.
    destruct (IH self i (<[i := Client (cl_fd c) v']> clients) (Client (cl_fd c) v')) as [Hpath Hlast]; try done.
    { apply list_lookup_insert_eq. by eapply lookup_lt_Some. }
    { simpl. rewrite Hn'. by destruct (node (cl_vty c) =? node_enable); injection Hp as <- <-. }
    split.
    + intros [|k] n; simpl.
      * intros [= <-]. exists v'. split; [done|]. split_and!; try done. rewrite Hn'.
        by destruct (node (cl_vty c) =? node_enable); injection Hp as <- _.
      * intros Hk. destruct (Hpath k n Hk) as (v2 & Hr & Hv). exists v2. split; [|done].
        cbn [send_exit cl_fd] in Hr. rewrite Hr. by rewrite list_insert_insert_eq.
    + cbn [length]. rewrite Hlast. f_equal. rewrite !delete_take_drop. by rewrite take_insert_ge, drop_insert_lt by lia.
Qed.

(** ** The life of the server *)

Record server := Server { sv_self : console; sv_clients : list _cli_client }.

Inductive cli_event :=
| Install (mem : bool) (n : Z) (cmd help : option (list Z)) (cb : option (callback M))
| Connect (env : job_env)
| Input (i : nat) (what ret : Z) (data : list Z).

Definition handle (ev : cli_event) (s : server) : option server :=
  match ev with
  | Install mem n cmd help cb =>
      '(_, self) ← opcli_install_cmd mem n cmd help cb (sv_self s); Some (Server self (sv_clients s))
  | Connect env => cs ← opcli_job env (cmdvec (sv_self s)) (sv_clients s); Some (Server (sv_self s) cs)
  | Input i what ret data =>
      cs ← opcli_job_thread run_module inet_pton6 (cmdvec (sv_self s)) i what ret data (sv_clients s);
      Some (Server (sv_self s) cs)
  end.

(** Commands have a text that can be parsed; input comes from clients that are there. *)
Definition admissible (ev : cli_event) (s : server) : Prop :=
  match ev with
  | Install mem n cmd help cb =>
      0 <= n /\ (forall c h b, cmd = Some c -> help = Some h -> cb = Some b -> entry_ok (c, h, b))
      /\ Z.of_nat (length (commands (sv_self s) (Z.to_nat n))) < kt_room
  | Connect _ => True
  | Input i _ _ _ => (i < length (sv_clients s))%nat
  end.

Definition client_ok self (c : _cli_client) : Prop :=
  session (cmdvec self) (cl_vty c) /\ status (cl_vty c) <> VTY_CLOSE.
Definition server_ok (s : server) : Prop :=
  nodes_ok 4 (sv_self s) /\ Forall (client_ok (sv_self s)) (sv_clients s).

Lemma clients_move self self' clients :
  nodes_ok 4 self -> nodes_ok 4 self' -> Forall (client_ok self) clients -> Forall (client_ok self') clients.
Proof.
  intros H H' Hc. eapply Forall_impl; [exact Hc|]. intros c [Hs Hcl]. split; [|done].
  rewrite session_console in Hs |- * by done. done.
Qed.
Lemma write_write v a b : vty_write (vty_write v a) b = vty_write v (a ++ b).
Proof. unfold vty_write. simpl. by rewrite app_assoc. Qed.
Lemma option_writes_shape strs : forall ok v, exists o, option_writes strs ok v = vty_write v o.
Proof.
  induction strs as [|s strs IH]; intros [|[] ok] v; simpl; try (exists []; unfold vty_write; rewrite app_nil_r; by destruct v).
  destruct (IH ok (vty_write v s)) as [o ->]. exists (s ++ o). unfold vty_write. simpl. by rewrite app_assoc.
Qed.
Lemma accept_client_ok self env clients :
  nodes_ok 4 self -> Forall (client_ok self) clients ->
  exists cs more, opcli_job_accept true env clients = Some (cs, more) /\ Forall (client_ok self) cs
  /\ if more : bool then exists c, cs = c :: clients else cs = clients.
Proof.
  intros Hok Hc. unfold opcli_job_accept. cbn [negb]. repeat (case_match; [by eexists _, _|]).
  eexists _, _. split; [done|]. split; [|by eexists]. constructor; [|done].
  destruct (option_writes_shape [ptelnet_will_echo; ptelnet_will_suppress_go_ahead; ptelnet_dont_linemode; ptelnet_do_window_size]
    (writes_ok env) (vty_create (accept_ env) node_view CLI_HOST)) as [o Ho]. unfold opcli_option_init. rewrite Ho.
  split; [|done]. apply session_console; [done|]. split; [exists [], []; apply vty_create_line|].
  split; [split; [done|]; split; [done|]; split; [done|]; by repeat constructor|].
  split; [done|]. split; [done|]. split; [done|]. split; [by repeat constructor|done].
Qed.
(** The prompt of a client that is there, whatever it did in between. *)
Lemma greet_ok self env i clients :
  nodes_ok 4 self -> Forall (client_ok self) clients -> (i < length clients)%nat ->
  exists cs, opcli_job_greet env (cmdvec self) (Some i) clients = Some cs /\ Forall (client_ok self) cs
  /\ length cs = length clients.
Proof.
  intros Hok Hc Hi. unfold opcli_job_greet. case_match; [by eexists|]. rewrite bind_some.
  destruct (lookup_lt_is_Some_2 _ _ Hi) as [c Hl]. rewrite Hl, bind_some.
  destruct (Forall_lookup_1 _ _ _ _ Hc Hl) as [Hs Hcl].
  assert (0 <= node (cl_vty c) < 4) as Hn by (by apply (session_console self _ Hok) in Hs as (_ & _ & _ & _ & _ & _ & Hn)).
  destruct (node_slot self _ Hok Hn) as (t & n & Hslot & Hno & _). unfold VtyExec.cmd_prompt. rewrite Hslot. simpl.
  destruct (prompt_format _ CLI_HOST _ (no_prompt _ _ _ Hno)) as (suf & -> & _ & Hz). rewrite bind_some.
  assert (forall v, client_ok self (Client (cl_fd c) v) -> exists cs, Some (<[i := Client (cl_fd c) v]> clients) = Some cs
    /\ Forall (client_ok self) cs /\ length cs = length clients) as Hdone.
  { intros v Hv. eexists. split; [done|]. split; [by apply Forall_insert|by rewrite length_insert]. }
  unfold opcli_out. case_match; [by apply Hdone|].
  assert ((zlen (CLI_HOST ++ suf) <? CLI_OUT_BUF_SIZE) = true) as ->.
  { apply Z.ltb_lt. unfold CLI_OUT_BUF_SIZE. rewrite zlen_app. change (zlen CLI_HOST) with 8. lia. }
  rewrite bind_some. apply Hdone. by split.
Qed.
Lemma job_ok self env clients :
  nodes_ok 4 self -> Forall (client_ok self) clients ->
  safe (Forall (client_ok self)) (opcli_job env (cmdvec self) clients).
Proof.
  intros Hok Hc. unfold opcli_job. destruct (accept_client_ok self env clients Hok Hc) as (cs & more & -> & Hcs & Hm).
  rewrite bind_some. destruct more; [|by apply safe_some]. destruct Hm as [c ->].
  destruct (greet_ok self env 0 (c :: clients) Hok Hcs) as (cs & -> & Hcs' & _); [simpl; lia|]. by apply safe_some.
Qed.
Lemma thread_ok self i what ret data clients :
  modules_ok -> nodes_ok 4 self -> Forall (client_ok self) clients -> (i < length clients)%nat ->
  safe (Forall (client_ok self)) (opcli_job_thread run_module inet_pton6 (cmdvec self) i what ret data clients).
Proof.
  intros Hm Hok Hc Hi. unfold opcli_job_thread. destruct (lookup_lt_is_Some_2 _ _ Hi) as [c Hl]. rewrite Hl, bind_some.
  assert (Forall (client_ok self) (delete i clients)) as Hdel by (by apply Forall_delete).
  case_match; [by apply safe_some|]. case_match; [by apply safe_some|].
  pose proof (Forall_lookup_1 _ _ _ _ Hc Hl) as [Hs _].
  eapply safe_bind; [apply (read_safe inet_pton6 (cmdvec self)); [by apply run_cb_ok|exact Hs]|].
  intros v Hv. destruct (status v =? VTY_CLOSE) eqn:E; [by apply safe_some|]. btest. apply safe_some.
  by apply Forall_insert.
Qed.
Lemma install_ok mem n cmd help cb s :
  server_ok s -> admissible (Install mem n cmd help cb) s ->
  safe (fun x => nodes_ok 4 (snd x)) (opcli_install_cmd mem n cmd help cb (sv_self s)).
Proof.
  intros [Hok _] (Hn & He & Hroom).
  destruct cmd as [c|], help as [h|], cb as [b|]; try by apply safe_some.
  destruct (node_max <=? n) eqn:E; [unfold opcli_install_cmd; rewrite E; by apply safe_some|].
  destruct mem; [|unfold opcli_install_cmd; rewrite E; by apply safe_some].
  unfold node_max in E. btest. replace n with (Z.of_nat (Z.to_nat n)) by lia.
  rewrite (install_cmd_ex 4) by (done || lia). destruct (He c h b eq_refl eq_refl eq_refl) as (ts & Hts & Hwf & Hz).
  destruct (install_ex_spec 4 (Z.to_nat n) (sv_self s) (new_element (Z.of_nat (Z.to_nat n)) c h b) ts)
    as (self' & -> & Hok' & _); try done; [lia|]. by apply safe_some.
Qed.
Lemma handle_ok ev s : modules_ok -> server_ok s -> admissible ev s -> safe server_ok (handle ev s).
Proof.
  intros Hm Hs Ha. pose proof Hs as [Hok Hc]. destruct ev as [mem n cmd help cb|env|i what ret data]; simpl.
  - eapply safe_bind; [by apply install_ok|]. intros [ret self'] Hok'. apply safe_some. split; [done|].
    by eapply clients_move; [exact Hok| |].
  - eapply safe_bind; [by apply job_ok|]. intros cs Hcs. by apply safe_some.
  - eapply safe_bind; [by apply thread_ok|]. intros cs Hcs. by apply safe_some.
Qed.

Inductive reachable : server -> Prop :=
| reach_start tables self :
    length tables = 4%nat -> Forall (fun o => exists t, o = Some t /\ kt_wf t /\ kt_items t = []) tables ->
    opcli_node_init true tables opcli_new = Some (0, self) -> reachable (Server self [])
| reach_step s ev s' : reachable s -> admissible ev s -> handle ev s = Some s' -> reachable s'.
Lemma reachable_ok s : modules_ok -> reachable s -> server_ok s.
Proof.
  intros Hm Hr. induction Hr as [tables self Hl Ht Hi|s ev s' _ IH Ha Hh].
  - destruct (opcli_init_spec tables Hl Ht) as (self' & Hi' & Hok & _). rewrite Hi in Hi'. simplify_eq. by split.
  - destruct (handle_ok ev s Hm IH Ha) as (s2 & Hs2 & Hok). by rewrite Hh in Hs2; simplify_eq.
Qed.
End Console.

(** *** Between the two parts of a connection *)

(** The thread of the clients and the modules may act between the two parts of [opcli_job]; as long
    as they leave the new client in the list, its prompt is printed. *)
Theorem greeting_between {M T : Type} `{!KeyTable T (node_key (M := M)), !KeyTableLaws T (node_key (M := M))}
    inet_pton6 run_module env (s : server (M := M) (T := T)) cs s' i :
  modules_ok run_module -> server_ok s -> opcli_job_accept true env (sv_clients s) = Some (cs, true) ->
  rtc (fun x y => exists ev, admissible ev x /\ handle inet_pton6 run_module ev x = Some y)
    (Server (sv_self s) cs) s' ->
  (i < length (sv_clients s'))%nat ->
  exists cs', opcli_job_greet env (cmdvec (sv_self s')) (Some i) (sv_clients s') = Some cs' /\ server_ok (Server (sv_self s') cs').
Proof.
  intros Hm [Hok Hc] Ha Hr Hi.
  destruct (accept_client_ok (sv_self s) env (sv_clients s) Hok Hc) as (cs1 & more & Ha1 & Hcs & _). simplify_eq.
  assert (server_ok (Server (sv_self s) cs)) as H0 by (by split).
  assert (server_ok s') as [Hok' Hc'].
  { clear Hi Ha. induction Hr as [|x y z (ev & Had & Hh) _ IH]; [done|]. apply IH.
    destruct (handle_ok inet_pton6 run_module ev x Hm H0 Had) as (y' & Hy & Hyok). by rewrite Hh in Hy; simplify_eq. }
  destruct (greet_ok (sv_self s') env i (sv_clients s') Hok' Hc' Hi) as (cs' & Hg & Hcs' & _). exists cs'. by split.
Qed.
(** A client that ends its connection in between is released before its prompt is printed: the
    second part uses memory that was freed. *)
Theorem greeting_after_free {M : Type} inet_pton6 run_module (cmdvec : list (option (cmd_node (callback M)))) env clients cs :
  opcli_job_accept true env clients = Some (cs, true) -> pthread_kill_ env = 0 ->
  opcli_job_thread run_module inet_pton6 cmdvec 0 EV_READ 0 [] cs = Some clients
  /\ opcli_job_greet env cmdvec None clients = None.
Proof.
  intros Ha Hk. unfold opcli_job_greet. rewrite Hk. split; [|done].
  unfold opcli_job_accept in Ha. repeat (case_match; [done|]). by injection Ha as <-.
Qed.
(** Without memory for the session [vty_new_init] follows a null pointer. *)
Theorem connection_without_memory env clients :
  0 <= accept_ env -> calloc_client env = true -> opcli_job_accept false env clients = None.
Proof. intros Ha Hc. unfold opcli_job_accept. rewrite (proj2 (Z.ltb_ge _ _)), Hc by done. done. Qed.

(** A text longer than the buffer is not cut: more bytes are written than the buffer has. *)
Lemma opcli_out_overreads v s : CLI_OUT_BUF_SIZE < zlen s -> opcli_out true v s = None.
Proof.
  intros H. unfold opcli_out. cbn [negb]. rewrite (proj2 (Z.ltb_ge _ _)) by lia.
  by rewrite (proj2 (Z.eqb_neq _ _)) by lia.
Qed.

(** ** The properties *)

Section Properties.
Context {M T : Type} `{!KeyTable T (node_key (M := M)), !KeyTableLaws T (node_key (M := M))}.
Implicit Types (self : _opcli_struct (M := M) (T := T)).

(** Installing a command whose text can be parsed: if its node has no command of the same
    text the call returns 0, the command is added behind those of the node with the tokens of
    its text, and nothing else changes; if it has one the call returns -1 and no node changes.
    Either way the nodes and their tables stay consistent. The table of a node is only used
    through its interface. *)
Theorem opcli_install_cmd_spec self i cmd help cb ts :
  nodes_ok 4 self -> (i < 4)%nat -> cmd_parse_format cmd (Some help) = Some ts -> Forall wf_token ts ->
  zlen cmd <= 4000 -> Z.of_nat (length (commands self i)) < kt_room ->
  let fresh := bool_decide (cmd ∉ el_string <$> commands self i) in
  exists self', opcli_install_cmd true (Z.of_nat i) (Some cmd) (Some help) (Some cb) self
                = Some (if fresh then 0 else -1, self')
  /\ nodes_ok 4 self'
  /\ forall j, commands self' j
       = if fresh && (j =? i)%nat
         then commands self i ++ [Element (Z.of_nat i) cmd help ts 0 0 cb] else commands self j.
Proof.
  intros Hok Hi Hp Hts Hz Hroom. rewrite (install_cmd_ex 4) by done.
  exact (install_ex_spec 4 i self (new_element (Z.of_nat i) cmd help cb) ts Hok Hi eq_refl eq_refl Hp Hts Hz Hroom).
Qed.

(** In the console as it starts, in every node, [exit] goes to the node above (from the first
    one it closes the session), [end] to the first node, [enable] from the first node to the
    second, and the names of the modules from there to their nodes; a name that is not a command
    of the node is an unknown command and leaves the session as it is. *)
Theorem console_navigation inet_pton6 run_module tables self v :
  length tables = 4%nat -> Forall (fun o => exists t : T, o = Some t /\ kt_wf t /\ kt_items t = []) tables ->
  opcli_node_init true tables opcli_new = Some (0, self) -> 0 <= node v < 4 ->
  let run w := exec inet_pton6 run_module self w v in
  let only n n' := if node v =? n then Some (0, set_node n' v) else Some (CMD_ERR_NO_MATCH, v) in
  run (str "exit") = Some (0, if node v =? node_view then set_status VTY_CLOSE v
                              else if node v =? node_enable then set_node node_view v else set_node node_enable v)
  /\ run (str "end") = Some (0, set_node node_view v)
  /\ run (str "enable") = only node_view node_enable
  /\ run (str "opmgr") = only node_enable node_opmgr
  /\ run (str "op4G") = only node_enable node_op4g.
Proof.
  intros Hl Ht Hi Hn run only. destruct (opcli_init_spec tables Hl Ht) as (self' & Hi' & Hok & Hc).
  rewrite Hi in Hi'. injection Hi' as <-.
  assert (started self) as Hst by (split; [done|]; intros j Hj; rewrite Hc; by rewrite (proj2 (Nat.ltb_lt j 4))).
  split_and!; [by apply exec_exit|by apply exec_end|by apply exec_enable|by apply exec_opmgr|by apply exec_op4g].
Qed.

(** C21. A client of the console as it starts that has nothing on its line leaves one node at a time:
    each line [exit] takes it to the next of the nodes above its node ([enable], then [view], from
    the node of a module), with the session open and an empty line, and the line after the last of
    them ends with the client removed. The other clients are untouched throughout. *)
Theorem exit_ends_session inet_pton6 run_module self i clients c :
  started self -> clients !! i = Some c -> session (cmdvec self) (cl_vty c) -> idle (cl_vty c) ->
  status (cl_vty c) <> VTY_CLOSE ->
  let path := nodes_above (node (cl_vty c)) in
  (forall k n, path !! k = Some n ->
     exists v', send_exit inet_pton6 run_module (S k) self i clients = Some (<[i := Client (cl_fd c) v']> clients)
     /\ node v' = n /\ status v' <> VTY_CLOSE /\ idle v')
  /\ send_exit inet_pton6 run_module (S (length path)) self i clients = Some (delete i clients).
Proof. intros Hst Hc Hs Hi Hcl path. by apply exits_climb. Qed.

(** C4. Whatever clients connect, send and type and whatever commands are installed in between,
    the nodes, their tables and the sessions of the clients stay well formed, and every further
    event is handled: no step is stuck on an array, a null pointer or a loop. This relies on the
    callbacks of the modules keeping sessions, on command texts that can be parsed, on the
    promises of the tables, on memory for a new session, and on the handler of a connection
    running to its end before the next event; [greeting_between], [greeting_after_free] and
    [connection_without_memory] say what happens otherwise. *)
Theorem server_never_stuck inet_pton6 run_module (s : server (M := M) (T := T)) :
  modules_ok run_module -> reachable inet_pton6 run_module s ->
  server_ok s /\ forall ev, admissible ev s -> exists s', handle inet_pton6 run_module ev s = Some s' /\ server_ok s'.
Proof.
  intros Hm Hr. pose proof (reachable_ok inet_pton6 run_module s Hm Hr) as Hok. split; [done|].
  intros ev Ha. by apply handle_ok.
Qed.
End Properties.

(** ** A concrete console on the hash tables *)

Definition demo_hash : option (OpHash.op_hash_st (cmd_element (callback unit))) :=
  OpHash.op_hash_new (Some node_hash) (Some node_compare) true true.
#[local] Instance demo_table : KeyTable (OpHash.op_hash_st (cmd_element (callback unit))) node_key :=
  op_hash_key_table node_key serving.
#[local] Instance demo_laws : KeyTableLaws (OpHash.op_hash_st (cmd_element (callback unit))) node_key :=
  op_hash_key_table_laws node_key serving serving_ptrdiff serving_small.
Definition demo_tables : list (option (OpHash.op_hash_st (cmd_element (callback unit)))) := replicate 4 demo_hash.
Lemma demo_tables_ok : Forall (fun o => exists t, o = Some t /\ kt_wf t /\ kt_items t = []) demo_tables.
Proof.
  apply Forall_replicate. destruct demo_hash as [t|] eqn:E; [|done]. exists t. split; [done|].
  destruct (wf_new 2048 1024 node_key ltac:(lia) ltac:(lia) node_hash node_compare t _ E) as (Hwf & Hi & _).
  by split.
Qed.
Lemma demo_started : exists self, opcli_node_init true demo_tables opcli_new = Some (0, self) /\ started self.
Proof.
  destruct (opcli_init_spec demo_tables eq_refl demo_tables_ok) as (self & Hi & Hok & Hc). exists self. split; [done|].
  split; [done|]. intros j Hj. rewrite Hc. by rewrite (proj2 (Nat.ltb_lt j 4)).
Qed.
Definition demo_module (_ : unit) (_ : list word) (_ : cmd_element (callback unit)) (v : vty) : option (Z * vty) := Some (0, v).
Lemma demo_module_ok : modules_ok demo_module.
Proof. intros cmdvec m argv e v Hs _ _. by apply safe_some. Qed.
Definition demo_client : _cli_client := Client 5 (vty_create 5 node_view CLI_HOST).
Lemma demo_client_ok (self : _opcli_struct (T := OpHash.op_hash_st (cmd_element (callback unit)))) :
  nodes_ok 4 self -> session (cmdvec self) (cl_vty demo_client).
Proof.
  intros Hok. apply session_console; [done|]. split; [exists [], []; apply vty_create_line|].
  split; [split; [done|]; split; [done|]; split; [done|]; by repeat constructor|].
  split; [done|]. split; [done|]. split; [done|]. split; [by repeat constructor|done].
Qed.
Definition cpu_help : list Z := str "show" ++ [10] ++ str " cpu" ++ [10] ++ str " usage" ++ [10].

Definition cpu_tokens : list cmd_token :=
  [TERMINAL TERMINAL_LITERAL (str "show") (Some (str "show"));
   TERMINAL TERMINAL_LITERAL (str "cpu") (Some (str "cpu"));
   TERMINAL TERMINAL_LITERAL (str "usage") (Some (str "usage"))].
Lemma cpu_parse : cmd_parse_format (str "show cpu usage") (Some cpu_help) = Some cpu_tokens.
Proof. vm_compute. reflexivity. Qed.
Lemma cpu_tokens_wf : Forall wf_token cpu_tokens.
Proof. repeat constructor; try done; intros ? [= <-]; by vm_compute. Qed.
Lemma cpu_fresh :
  bool_decide (str "show cpu usage" ∉ el_string <$> default_commands (M := unit) 2) = true.
Proof. vm_compute. reflexivity. Qed.

Lemma opcli_install_cmd_spec_witness :
  exists self self', opcli_node_init true demo_tables opcli_new = Some (0, self)
  /\ opcli_install_cmd true 2 (Some (str "show cpu usage")) (Some cpu_help) (Some (module_cb tt)) self = Some (0, self')
  /\ length (commands self' 2) = 4%nat.
Proof.
  destruct demo_started as (self & Hi & Hok & Hc). pose proof (Hc 2%nat ltac:(lia)) as Hc2.
  destruct (opcli_install_cmd_spec self 2 (str "show cpu usage") cpu_help (module_cb tt) cpu_tokens) as (self' & H & _ & Hc').
  - exact Hok.
  - lia.
  - apply cpu_parse.
  - apply cpu_tokens_wf.
  - vm_compute. discriminate.
  - rewrite Hc2. vm_compute. reflexivity.
  - rewrite Hc2, cpu_fresh in H, Hc'. exists self, self'. split; [exact Hi|]. split; [exact H|].
    rewrite (Hc' 2%nat). reflexivity.
Defined.

Lemma console_navigation_witness :
  exists self, opcli_node_init true demo_tables opcli_new = Some (0, self)
  /\ exec (fun _ => false) demo_module self (str "enable") (cl_vty demo_client)
     = Some (0, set_node node_enable (cl_vty demo_client)).
Proof.
  destruct demo_started as (self & Hi & _). exists self. split; [exact Hi|].
  destruct (console_navigation (fun _ => false) demo_module demo_tables self (cl_vty demo_client) eq_refl demo_tables_ok Hi)
    as (_ & _ & H & _); [change (0 <= 0 < 4); lia|]. exact H.
Defined.

(** A client in the node of a module: two lines go up, the third one leaves. *)
Lemma exit_ends_session_witness :
  exists (self : _opcli_struct (T := OpHash.op_hash_st (cmd_element (callback unit)))),
  let c := Client 5 (vty_create 5 node_op4g CLI_HOST) in
  (exists v', send_exit (fun _ => false) demo_module 1 self 0 [c] = Some [Client 5 v'] /\ node v' = node_enable)
  /\ (exists v', send_exit (fun _ => false) demo_module 2 self 0 [c] = Some [Client 5 v'] /\ node v' = node_view)
  /\ send_exit (fun _ => false) demo_module 3 self 0 [c] = Some [].
Proof.
  destruct demo_started as (self & _ & Hst). pose proof Hst as [Hok _]. exists self. intros c.
  assert (session (cmdvec self) (cl_vty c)) as Hs.
  { apply session_console; [done|]. split; [exists [], []; apply vty_create_line|].
    split; [split; [done|]; split; [done|]; split; [done|]; by repeat constructor|].
    split; [done|]. split; [done|]. split; [done|]. split; [by repeat constructor|done]. }
  destruct (exit_ends_session (fun _ => false) demo_module self 0 [c] c Hst eq_refl Hs) as [Hpath Hend].
  - split; [apply vty_create_line|]. split; [by left|]. done.
  - done.
  - split; [|split; [|exact Hend]].
    + destruct (Hpath 0%nat node_enable eq_refl) as (v' & H & Hn & _). exists v'. split; [exact H|exact Hn].
    + destruct (Hpath 1%nat node_view eq_refl) as (v' & H & Hn & _). exists v'. split; [exact H|exact Hn].
Defined.

Lemma server_never_stuck_witness :
  exists self, opcli_node_init true demo_tables opcli_new = Some (0, self)
  /\ exists s', handle (fun _ => false) demo_module (Connect (JobEnv 5 true true [true; true; true; true] 0 0 true))
                  (Server self []) = Some s' /\ server_ok s'.
Proof.
  destruct demo_started as (self & Hi & _). exists self. split; [exact Hi|].
  destruct (server_never_stuck (fun _ => false) demo_module (Server self [])) as [_ H].
  - apply demo_module_ok.
  - exact (reach_start _ _ demo_tables self eq_refl demo_tables_ok Hi).
  - apply H. exact I.
Defined.
