(* ===== verification/OpFile.v ===== *)
(** * The file service (src/src/module/opfile/opfile.c, opfile_text.c)

    The service recognises the type of a file by its contents: expressions are read from an XML
    document into a table of opbox/hash.c under their numbers, compiled by a matcher of
    regular expressions, and a buffer is given the type of the longest expression that matches.
    The libraries it calls are arguments: the document as the XML reader returns it, the
    compiled database [DB] with [hs_compile_multi], and what [hs_scan] reports for a buffer.
    Memory of the pool is a list of answers and the number of blocks that are not released yet.
    A result [None] is an access outside an array or through a null pointer. *)

From S2P Require Import Prelude Bytes CString Utils Hash.
From stdpp Require Import base tactics numbers list strings.
From Stdlib Require Import ZArith Lia.
Open Scope Z_scope.

Module OpFile.
Import OpHash Utils.

(** ** File types *)

Definition FILE_TYPE_unknow : Z := 0.
Definition FILE_TYPE_rar : Z := 1.
Definition FILE_TYPE_pdf : Z := 2.
Definition FILE_TYPE_zip : Z := 3.
Definition FILE_TYPE_elf : Z := 4.
Definition FILE_TYPE_jpeg : Z := 5.
Definition FILE_TYPE_jpg : Z := 6.
Definition FILE_TYPE_lua : Z := 7.
Definition FILE_TYPE_mk : Z := 8.
Definition FILE_TYPE_db : Z := 9.
Definition FILE_TYPE_docx : Z := 10.
Definition FILE_TYPE_xlsx : Z := 11.
Definition FILE_TYPE_pptx : Z := 12.
Definition FILE_TYPE_visio : Z := 13.
Definition FILE_TYPE_max : Z := 14.

Record file_type_map := TypeMap { tm_file_type : Z; tm_ext : option (list Z) }.

(** [magic_file_type], by index; the slot of [FILE_TYPE_unknow] is zero. *)
Definition magic_file_type : list file_type_map :=
  [TypeMap 0 None;
   TypeMap FILE_TYPE_zip (Some (str "rar"));
   TypeMap FILE_TYPE_pdf (Some (str "pdf"));
   TypeMap FILE_TYPE_zip (Some (str "zip"));
   TypeMap FILE_TYPE_zip (Some (str "elf"));
   TypeMap FILE_TYPE_zip (Some (str "jpeg"));
   TypeMap FILE_TYPE_zip (Some (str "jpg"));
   TypeMap FILE_TYPE_zip (Some (str "lua"));
   TypeMap FILE_TYPE_zip (Some (str "mk"));
   TypeMap FILE_TYPE_zip (Some (str "db"));
   TypeMap FILE_TYPE_zip (Some (str "docx"));
   TypeMap FILE_TYPE_zip (Some (str "xlsx"));
   TypeMap FILE_TYPE_zip (Some (str "pptx"));
   TypeMap FILE_TYPE_zip (Some (str "vd"))].

(** The converters of [magic_file_text], by index. *)
Inductive opfile_text_cb := pdf_to_text_cb.
Definition magic_file_text (file_type : Z) : option opfile_text_cb :=
  if file_type =? FILE_TYPE_pdf then Some pdf_to_text_cb else None.

(** ** Data *)

Definition OPFILE_MAX_CHECK_SIZE : Z := 8192.
Definition OPFILE_MAX_HS_SCAN : Z := 20.
Definition OPFILE_SUPPORT_MAX_EXPRESS_SIZE : Z := 10000.
Definition OPFILE_EXPRESS_SIZE : Z := 256.
Definition EXT_SIZE : Z := 64.
Definition DESC_SIZE : Z := 256.
Definition HS_FLAG_DOTALL : Z := 2.
Definition HS_SUCCESS : Z := 0.
Definition HS_SCAN_TERMINATED : Z := -3.

Record file_magic := Magic {
  ext : list Z;
  express : list Z;
  desc : list Z;
  express_id : Z;
  file_type : Z
}.
(** [struct file_magic_ex]: the slots of [magic] that are set. *)
Record file_magic_ex := MagicEx { magic : list (option file_magic); matched_num : Z }.
Record file_ext_info := ExtInfo { fi_type : Z; fi_ext : list Z; fi_desc : list Z }.
Record file_to_text := FileText { text : option (list Z); size : Z; flag_encrypt : Z }.

Definition zeros (n : Z) : list Z := replicate (Z.to_nat n) 0.
Definition magic_zero : file_magic :=
  Magic (zeros EXT_SIZE) (zeros OPFILE_EXPRESS_SIZE) (zeros DESC_SIZE) 0 0.

(** [op_strlcpy] to a field of [n] bytes. *)
Definition copy_to (d : list Z) (s : list Z) (n : Z) : option (list Z) :=
  '(d', _) ← op_strlcpy (Some d) (Some s) n; d'.

(** ** Memory of the pool *)

(** The answers [op_calloc] gives, and how many blocks are in use. *)
Record mem := Mem { answers : list bool; blocks : Z }.
Definition op_calloc (m : mem) : bool * mem :=
  match answers m with
  | true :: r => (true, Mem r (blocks m + 1))
  | _ :: r => (false, Mem r (blocks m))
  | [] => (false, m)
  end.
Definition op_free (m : mem) : mem := Mem (answers m) (blocks m - 1).

(** ** The table *)

Definition file_magic_hash (m : file_magic) : Z := u32 (express_id m).
Definition file_magic_compare (src dest : file_magic) : Z :=
  if express_id src =? express_id dest then 0 else 1.

(** ** The document *)

(** A node of the document: whether it is an element, its name, its attributes, its content and
    its children. *)
Inductive xml_node :=
  XNode (is_element : bool) (name : list Z) (props : list (list Z * list Z))
        (content : option (list Z)) (children : list xml_node).
Definition x_content (n : xml_node) : option (list Z) := let 'XNode _ _ _ c _ := n in c.
Definition x_children (n : xml_node) : list xml_node := let 'XNode _ _ _ _ c := n in c.
(** [xmlStrcasecmp(a, b) == 0]. *)
Definition strcaseeq (a b : list Z) : bool := bool_decide (tolower <$> a = tolower <$> b).
Definition is_named (s : list Z) (n : xml_node) : bool :=
  let 'XNode e name _ _ _ := n in e && strcaseeq name s.
(** [xmlGetProp]. *)
Definition xmlGetProp (n : xml_node) (s : list Z) : option (list Z) :=
  let 'XNode _ _ props _ _ := n in
  (fun x => snd (snd x)) <$> list_find (fun p => fst p = s) props.

(** The type of an extension: the loop over [magic_file_type]. *)
Fixpoint type_loop (ts : list file_type_map) (ext : list Z) : Z :=
  match ts with
  | [] => FILE_TYPE_unknow
  | t :: r =>
      match tm_ext t with
      | None => type_loop r ext
      | Some e => if bool_decide (ext = e) then tm_file_type t else type_loop r ext
      end
  end.

Section Service.
Context {DB : Type}.
(** Whether hash.c gets the memory it asks for: its array, and the node of an expression. *)
Variable realloc : Z -> bool.
Variable calloc_node : Z -> bool.
(** [hs_compile_multi] on the expressions, their flags and their numbers. *)
Variable hs_compile_multi : list (option (list Z)) -> list Z -> list Z -> option DB.
(** The numbers [hs_scan] reports for a buffer, in order, or its failure (anything but
    [HS_SUCCESS] and [HS_SCAN_TERMINATED]). *)
Variable hs_matches : option DB -> list Z -> option (list Z).

(** [struct opfile_info]. *)
Record opfile_info := Opfile {
  magic_hash : option (op_hash_st file_magic);
  db : option DB
}.
Definition set_table (o : opfile_info) (t : op_hash_st file_magic) : opfile_info := Opfile (Some t) (db o).

(** ** Reading the expressions *)

(** One expression of a magic with extension [e]: its entry with the number [id]. [None] as the
    entry is a content that is missing. *)
Definition fill_magic (e : list Z) (n : xml_node) (id : Z) : option (option file_magic) :=
  x ← copy_to (ext magic_zero) e EXT_SIZE;
  match x_content n with
  | None => Some None
  | Some content =>
      c ← copy_to (express magic_zero) content OPFILE_EXPRESS_SIZE;
      d ← match xmlGetProp n (str "desc") with
          | Some d => copy_to (desc magic_zero) d DESC_SIZE
          | None => Some (desc magic_zero)
          end;
      Some (Some (Magic x c d id (type_loop magic_file_type (cstr x))))
  end.

(** The loop over the children of a magic, with the table, the next number and the memory;
    [true] is a jump to [failed]. *)
Fixpoint express_loop (children : list xml_node) (e : list Z) (t : op_hash_st file_magic) (id : Z) (m : mem)
    : option (bool * op_hash_st file_magic * Z * mem) :=
  match children with
  | [] => Some (false, t, id, m)
  | n :: r =>
      if negb (is_named (str "express") n) then express_loop r e t id m
      else
        let '(ok, m) := op_calloc m in
        if negb ok then Some (true, t, id, m)
        else
          o ← fill_magic e n id;
          match o with
          | None => Some (true, t, id, op_free m)
          | Some mg =>
              let id := u32 (id + 1) in
              let '(found, t) := op_hash_retrieve t mg in
              match found with
              | Some _ => Some (true, t, id, op_free m)
              | None =>
                  let '(_, t) := op_hash_insert realloc (calloc_node (express_id mg)) t mg in
                  express_loop r e t id m
              end
          end
  end.

Fixpoint magic_loop (nodes : list xml_node) (t : op_hash_st file_magic) (id : Z) (m : mem)
    : option (bool * op_hash_st file_magic * Z * mem) :=
  match nodes with
  | [] => Some (false, t, id, m)
  | n :: r =>
      if negb (is_named (str "magic") n) then magic_loop r t id m
      else
        match xmlGetProp n (str "ext") with
        | None => Some (true, t, id, m)
        | Some e =>
            '(failed, t, id, m) ← express_loop (x_children n) e t id m;
            if failed : bool then Some (true, t, id, m) else magic_loop r t id m
        end
  end.

(** [doc]: the document [xmlReadFile] returns, with its root element. *)
Definition opfile_parse_magic (doc : option (option xml_node)) (o : opfile_info) (m : mem)
    : option (Z * opfile_info * mem) :=
  match doc with
  | Some (Some root) =>
      t ← magic_hash o;
      '(failed, t, _, m) ← magic_loop (x_children root) t 100 m;
      Some (if failed : bool then -1 else 0, set_table o t, m)
  | _ => Some (-1, o, m)
  end.

(** ** Compiling them *)

Record hs_pack_struct := Pack {
  p_express : list (option (list Z));
  p_express_id : list Z;
  p_flag : list Z;
  num : Z;
  pindex : Z
}.
Definition hs_magic_pack (mg : file_magic) (p : hs_pack_struct) : hs_pack_struct :=
  if num p <=? pindex p then p
  else
    let i := Z.to_nat (pindex p) in
    Pack (<[i := Some (cstr (express mg))]> (p_express p)) (<[i := express_id mg]> (p_express_id p))
         (<[i := HS_FLAG_DOTALL]> (p_flag p)) (num p) (u32 (pindex p + 1)).

(** [scratch]: whether [hs_alloc_scratch] succeeds. *)
Definition opfile_hs_compile (scratch : bool) (o : opfile_info) (m : mem) : Z * opfile_info * mem :=
  let hash_num := u32 (op_hash_num_items (magic_hash o)) in
  if OPFILE_SUPPORT_MAX_EXPRESS_SIZE <? hash_num then (-1, o, m)
  else
    let '(ok1, m) := op_calloc m in
    if negb ok1 then (-1, o, m)
    else
      let '(ok2, m) := op_calloc m in
      if negb ok2 then (-1, o, op_free m)
      else
        let '(ok3, m) := op_calloc m in
        if negb ok3 then (-1, o, op_free (op_free m))
        else
          let n := Z.to_nat hash_num in
          let p := op_hash_doall_arg (magic_hash o) hs_magic_pack
                     (Pack (replicate n None) (replicate n 0) (replicate n 0) hash_num 0) in
          match hs_compile_multi (p_express p) (p_flag p) (p_express_id p) with
          | None => (-1, o, op_free (op_free m))
          | Some d =>
              let o := Opfile (magic_hash o) (Some d) in
              if negb scratch then (-1, o, op_free (op_free m)) else (0, o, op_free (op_free m))
          end.

(** ** Recognising a buffer *)

(** The callback of [hs_scan]; the entry looked up only has its number. *)
Definition opfile_magic_hs_process (id : Z) (h : option (op_hash_st file_magic)) (x : file_magic_ex)
    : option (Z * option (op_hash_st file_magic) * file_magic_ex) :=
  t ← h;
  let '(mg, t) := op_hash_retrieve t (Magic [] [] [] id 0) in
  if OPFILE_MAX_HS_SCAN <=? matched_num x then Some (HS_SCAN_TERMINATED, Some t, x)
  else Some (HS_SUCCESS, Some t, MagicEx (magic x ++ [mg]) (u32 (matched_num x + 1))).

(** [hs_scan] calls it for each match until it returns something else than 0. *)
Fixpoint scan_loop (ids : list Z) (h : option (op_hash_st file_magic)) (x : file_magic_ex)
    : option (option (op_hash_st file_magic) * file_magic_ex) :=
  match ids with
  | [] => Some (h, x)
  | id :: r =>
      '(ret, h, x) ← opfile_magic_hs_process id h x;
      if ret =? 0 then scan_loop r h x else Some (h, x)
  end.

(** The loop that looks for the longest expression, from the entry found so far. *)
Fixpoint longest_loop (ms : list (option file_magic)) (best : file_magic) : file_magic :=
  match ms with
  | [] => best
  | None :: r => longest_loop r best
  | Some mg :: r =>
      longest_loop r (if zlen (cstr (express best)) <? zlen (cstr (express mg)) then mg else best)
  end.

(** [o]: what [self] points to. The answer is [None] where the code returns a null pointer. *)
Definition opfile_check_mem (file_buf : list Z) (size : Z) (o : option opfile_info) (m : mem)
    : option (option file_ext_info * option opfile_info * mem) :=
  match o with
  | None => Some (None, o, m)
  | Some info =>
      let '(ok, m) := op_calloc m in
      if negb ok then Some (None, o, m)
      else
        let '(ok, m) := op_calloc m in
        if negb ok then Some (None, o, op_free m)
        else
          let hs_check_size := if OPFILE_MAX_CHECK_SIZE <? size then OPFILE_MAX_CHECK_SIZE else size in
          if zlen file_buf <? hs_check_size then None
          else
            match hs_matches (db info) (take (Z.to_nat hs_check_size) file_buf) with
            | None => Some (None, o, op_free m)
            | Some ids =>
                '(h, x) ← scan_loop ids (magic_hash info) (MagicEx [] 0);
                let o := Some (Opfile h (db info)) in
                match magic x with
                | Some first :: r =>
                    let mg := longest_loop r first in
                    e ← copy_to (zeros EXT_SIZE) (cstr (ext mg)) EXT_SIZE;
                    d ← copy_to (zeros DESC_SIZE) (cstr (desc mg)) DESC_SIZE;
                    Some (Some (ExtInfo (file_type mg) e d), o, op_free m)
                | _ => Some (None, o, op_free m)
                end
            end
  end.

(** What [access], [open] and [read] answer for the path, and the bytes read. *)
Record path_env := PathEnv { access_ok : bool; open_ok : bool; read_ret : Z; read_data : list Z }.
Definition opfile_check_path (file_path : option path_env) (o : option opfile_info) (m : mem)
    : option (option file_ext_info * option opfile_info * mem) :=
  match file_path with
  | None => Some (None, o, m)
  | Some env =>
      if negb (access_ok env) then Some (None, o, m)
      else
        let '(ok, m) := op_calloc m in
        if negb ok then Some (None, o, m)
        else if negb (open_ok env) then Some (None, o, op_free m)
        else
          let size := read_ret env in
          if size <=? 0 then Some (None, o, op_free m)
          else
            buf ← poke (zeros OPFILE_MAX_CHECK_SIZE) (take (Z.to_nat size) (read_data env));
            '(file, o, m) ← opfile_check_mem buf (u32 size) o m;
            Some (file, o, op_free m)
  end.

(** ** Converting to text *)

Definition pdf_to_text (m : mem) : option file_to_text * mem :=
  let '(ok, m) := op_calloc m in
  (if ok then Some (FileText None 0 0) else None, m).
Definition run_text_cb (cb : opfile_text_cb) (file_buf : list Z) (size : Z) (m : mem)
    : option file_to_text * mem :=
  match cb with pdf_to_text_cb => pdf_to_text m end.

Definition known_type (file_type : Z) : bool := (FILE_TYPE_unknow <? file_type) && (file_type <? FILE_TYPE_max).
Definition opfile_to_text (file_buf : list Z) (size file_type : Z) (o : option opfile_info) (m : mem)
    : option (option file_to_text * option opfile_info * mem) :=
  if known_type file_type then
    match magic_file_text file_type with
    | None => Some (None, o, m)
    | Some cb => let '(t, m) := run_text_cb cb file_buf size m in Some (t, o, m)
    end
  else
    '(info, o, m) ← opfile_check_mem file_buf size o m;
    match info with
    | None => Some (None, o, m)
    | Some info =>
        let m := op_free m in
        if negb (known_type (fi_type info)) then Some (None, o, m)
        else
          match magic_file_text (fi_type info) with
          | None => Some (None, o, m)
          | Some cb => let '(t, m) := run_text_cb cb file_buf size m in Some (t, o, m)
          end
    end.

(** What [stat] and [open] answer, and the contents of the file, of which at most [st_size]
    bytes are read. *)
Record stat_env := StatEnv { stat_size : option Z; text_open_ok : bool; contents : list Z }.
Definition opfile_to_text_path (env : stat_env) (file_type : Z) (o : option opfile_info) (m : mem)
    : option (option file_to_text * option opfile_info * mem) :=
  match stat_size env with
  | None => Some (None, o, m)
  | Some st_size =>
      let '(ok, m) := op_calloc m in
      if negb ok then Some (None, o, m)
      else if negb (text_open_ok env) then Some (None, o, op_free m)
      else
        file ← poke (zeros st_size) (take (Z.to_nat st_size) (contents env));
        '(t, o, m) ← opfile_to_text file (u32 st_size) file_type o m;
        Some (t, o, op_free m)
  end.

(** ** Starting the service *)

(** What the calls of [opfile_init] answer: the two allocations of the table, the path in the
    configuration (if the file can be read, if it has the entry), the document and the
    scratch space. *)
Record init_env := InitEnv {
  new_ok : bool * bool;
  conf : option (option (list Z));
  xmlReadFile : list Z -> option (option xml_node);
  scratch_ok : bool
}.
(** The pointer returned is null or not; [self] is set as soon as its memory is there, and is
    not reset by a failure. *)
Definition opfile_init (env : init_env) (m : mem) : option (bool * option opfile_info * mem) :=
  let '(ok, m) := op_calloc m in
  if negb ok then Some (false, None, m)
  else
    match op_hash_new (Some file_magic_hash) (Some file_magic_compare) (fst (new_ok env)) (snd (new_ok env)) with
    | None => Some (false, Some (Opfile None None), m)
    | Some t =>
        let o := Opfile (Some t) None in
        match conf env with
        | Some (Some path) =>
            p ← copy_to (zeros 128) path 128;
            '(ret, o, m) ← opfile_parse_magic (xmlReadFile env (cstr p)) o m;
            if ret <? 0 then Some (false, Some o, m)
            else
              let '(ret, o, m) := opfile_hs_compile (scratch_ok env) o m in
              Some (negb (ret <? 0), Some o, m)
        | _ => Some (false, Some o, m)
        end
    end.
End Service.
End OpFile.
