(* ===== verification/OpFileSpec.v ===== *)
(** * The file service: reading the expressions, recognising a buffer

    The table after reading a document holds its expressions, numbered in order; the arrays
    given to the compiler are these expressions; and a buffer gets the type of the first of the
    longest expressions among the first twenty reported. *)

From S2P Require Import Prelude KeyTable Bytes CString Utils Hash HashSpec OpFile.
From stdpp Require Import base tactics numbers list strings.
From Stdlib Require Import ZArith Lia.
Import OpHash Utils OpFile.
Open Scope Z_scope.
Open Scope opsv_scope.

(** ** What a document says *)

(** An expression of the document, with the extension of its magic. *)
Record sign := Sign { s_ext : list Z; s_express : list Z; s_desc : option (list Z) }.

Definition node_signs (e : list Z) (children : list xml_node) : list sign :=
  omap (fun n => if is_named (str "express") n
                 then c ← x_content n; Some (Sign e c (xmlGetProp n (str "desc"))) else None) children.
Definition doc_signs (nodes : list xml_node) : list sign :=
  mjoin ((fun n => if is_named (str "magic") n
                   then match xmlGetProp n (str "ext") with
                        | Some e => node_signs e (x_children n) | None => [] end
                   else []) <$> nodes).

Definition sign_ok (s : sign) : Prop :=
  no_nul (s_ext s) /\ no_nul (s_express s) /\ no_nul (default [] (s_desc s)).
(** Every magic has an extension and every expression a content. *)
Definition express_ok (n : xml_node) : Prop := is_named (str "express") n = true -> is_Some (x_content n).
Definition magic_ok (n : xml_node) : Prop :=
  is_named (str "magic") n = true -> is_Some (xmlGetProp n (str "ext")) /\ Forall express_ok (x_children n).

(** The entry of an expression: the texts cut to their fields, the type of the extension. *)
Record recorded (s : sign) (mg : file_magic) : Prop := {
  r_ext : cstr (ext mg) = take 63 (s_ext s);
  r_express : cstr (express mg) = take 255 (s_express s);
  r_desc : cstr (desc mg) = take 255 (default [] (s_desc s));
  r_type : file_type mg = type_loop magic_file_type (take 63 (s_ext s))
}.
(** The table holds the expressions [l] under the numbers from 100 on. *)
Definition holds (t : op_hash_st file_magic) (l : list sign) : Prop :=
  hash_wf 1024 express_id t
  /\ exists ms, items t ≡ₚ ms /\ Forall2 recorded l ms /\ express_id <$> ms = seqZ 100 (Z.of_nat (length l)).

#[export] Instance file_magic_key : HashKey file_magic_hash file_magic_compare express_id.
Proof.
  constructor.
  - intros x y. unfold file_magic_compare. destruct (express_id x =? express_id y) eqn:E; btest; done.
  - intros x y Hk. unfold file_magic_hash. by rewrite Hk.
  - intros x. unfold file_magic_hash. pose proof (u32_range (express_id x)). lia.
Qed.

(** ** Reading *)

Lemma copy_to_ok d s n :
  no_nul s -> 0 < n <= zlen d -> n < 2147483648 ->
  exists d', copy_to d s n = Some d' /\ cstr d' = take (Z.to_nat (n - 1)) s.
Proof.
  intros Hs Hn Hb. destruct (op_strlcpy_fits d s n Hs Hn Hb) as (d' & k & Hc & _ & _ & _ & Hd).
  exists d'. unfold copy_to. by rewrite Hc.
Qed.

Lemma fill_magic_ok e n c id :
  let s := Sign e c (xmlGetProp n (str "desc")) in
  x_content n = Some c -> sign_ok s ->
  exists mg, fill_magic e n id = Some (Some mg) /\ recorded s mg /\ express_id mg = id.
Proof.
  intros s Hc (He & Hx & Hd). unfold fill_magic. rewrite Hc. simpl in He, Hx, Hd.
  destruct (copy_to_ok (ext magic_zero) e EXT_SIZE He) as (x & -> & Ex); [done|done|]. rewrite bind_some.
  destruct (copy_to_ok (express magic_zero) c OPFILE_EXPRESS_SIZE Hx) as (y & -> & Ey); [done|done|]. rewrite bind_some.
  assert (exists z, match xmlGetProp n (str "desc") with
                    | Some d => copy_to (desc magic_zero) d DESC_SIZE
                    | None => Some (desc magic_zero)
                    end = Some z /\ cstr z = take 255 (default [] (xmlGetProp n (str "desc")))) as (z & -> & Ez).
  { destruct (xmlGetProp n (str "desc")) as [d|]; [by apply copy_to_ok|by eexists]. }
  rewrite bind_some. eexists. split; [done|]. split; [|done]. constructor; simpl; [done|done|done|].
  by rewrite Ex.
Qed.

Section Service.
Context {DB : Type} (realloc : Z -> bool).
Context (Hptrdiff : forall n, realloc n = true -> n < 9223372036854775808)
        (Hserves : forall n, n < W32 -> realloc n = true).
Notation granted := (fun _ : Z => true).

Lemma holds_length t l : holds t l -> num_items t = Z.of_nat (length l) /\ length (items t) = length l.
Proof.
  intros (Hwf & ms & Hp & Hf & _). rewrite (wf_items _ _ _ Hwf), Hp. by rewrite (Forall2_length _ _ _ Hf).
Qed.

(** A new number is not found and its entry is added. *)
Lemma holds_add t l s mg :
  holds t l -> recorded s mg -> express_id mg = 100 + Z.of_nat (length l) ->
  Z.of_nat (length l) < 134217728 ->
  exists t1 t2, op_hash_retrieve t mg = (None, t1)
  /\ snd (op_hash_insert realloc true t1 mg) = t2 /\ holds t2 (l ++ [s]).
Proof.
  intros Hh Hr Hid Hl. pose proof Hh as (Hwf & ms & Hp & Hf & Hids).
  assert (forall x, x ∈ items t -> express_id x <> express_id mg) as Hfr.
  { intros x Hx Hk. assert (express_id x ∈ express_id <$> ms) as Hin by (apply list_elem_of_fmap_2; by rewrite <- Hp).
    rewrite Hids, elem_of_seqZ in Hin. lia. }
  destruct (op_hash_retrieve t mg) as [r t1] eqn:E1. exists t1, (snd (op_hash_insert realloc true t1 mg)).
  apply (retrieve_items 1024 express_id) in E1 as (Hwf1 & Hb & _ & _ & Hret); [|done..].
  assert (items t1 = items t) as Hi by (unfold items; by rewrite Hb).
  destruct r as [x|]; [by destruct Hret; destruct (Hfr x)|]. split; [done|]. split; [done|].
  pose proof (op_hash_key_table_laws express_id realloc Hptrdiff Hserves) as Hlaws.
  destruct (kt_insert_fresh (KeyTable0 := op_hash_key_table express_id realloc) t1 mg) as [Hw Hitems].
  - exact Hwf1.
  - simpl. rewrite Hi, (proj2 (holds_length t l Hh)). done.
  - simpl. by rewrite Hi.
  - simpl in Hw, Hitems. split; [done|]. exists (ms ++ [mg]). split; [|split].
    + rewrite Hitems, Hi, Hp. by rewrite Permutation_app_comm.
    + by apply Forall2_app; [|constructor].
    + rewrite fmap_app, Hids, length_app. cbn [length fmap list_fmap]. rewrite Hid.
      rewrite Nat2Z.inj_add, seqZ_app by lia. done.
Qed.

(** The memory grants the next [k] requests. *)
Definition grants (k : nat) (rest : list bool) (m : mem) : Prop := answers m = replicate k true ++ rest.
Lemma grants_calloc k rest m :
  grants (S k) rest m -> op_calloc m = (true, Mem (replicate k true ++ rest) (blocks m + 1)).
Proof. intros H. unfold op_calloc. by rewrite H. Qed.

Lemma express_loop_ok e rest children : forall l t m,
  let new := node_signs e children in
  holds t l -> Z.of_nat (length (l ++ new)) <= 134217728 -> Forall express_ok children ->
  Forall sign_ok new -> grants (length new) rest m ->
  exists t', express_loop realloc granted children e t (100 + Z.of_nat (length l)) m
             = Some (false, t', 100 + Z.of_nat (length (l ++ new)), Mem rest (blocks m + Z.of_nat (length new)))
  /\ holds t' (l ++ new).
Proof.
  induction children as [|n r IH]; intros l t m new Hh Hb Hc Hs Hg.
  - exists t. subst new. simpl in *. rewrite app_nil_r. split; [|done]. destruct m as [a b]. unfold grants in Hg.
    simpl in Hg. subst a. by rewrite Z.add_0_r.
  - apply Forall_cons in Hc as [Hn Hc]. subst new. cbn [express_loop].
    change (node_signs e (n :: r)) with
      (omap (fun n => if is_named (str "express") n
                 then c ← x_content n; Some (Sign e c (xmlGetProp n (str "desc"))) else None) (n :: r)) in *.
    cbn [omap list_omap] in *. destruct (is_named (str "express") n) eqn:E; cbn [negb]; [|by apply IH].
    destruct (Hn E) as [c Hcon]. rewrite Hcon in *. cbn [mbind option_bind] in *.
    change (omap _ r) with (node_signs e r) in *.
    apply Forall_cons in Hs as [Hs1 Hs]. cbn [length] in Hg. rewrite (grants_calloc _ _ _ Hg). cbn [negb].
    destruct (fill_magic_ok e n c (100 + Z.of_nat (length l)) Hcon Hs1) as (mg & -> & Hr & Hid). rewrite bind_some.
    rewrite length_app in Hb. simpl in Hb.
    destruct (holds_add t l _ mg Hh Hr Hid ltac:(lia)) as (t1 & t2 & -> & Hi & Hh2).
    destruct (op_hash_insert realloc true t1 mg) as [x t2']. simpl in Hi. subst t2'.
    rewrite u32_id by lia.
    replace (100 + Z.of_nat (length l) + 1) with (100 + Z.of_nat (length (l ++ [Sign e c (xmlGetProp n (str "desc"))])))
      by (rewrite length_app; simpl; lia).
    destruct (IH (l ++ [Sign e c (xmlGetProp n (str "desc"))]) t2
                (Mem (replicate (length (node_signs e r)) true ++ rest) (blocks m + 1)) Hh2) as (t' & Ht' & Hh');
      [rewrite !length_app; simpl; lia|done|done|done|].
    exists t'. rewrite Ht'. rewrite <- app_assoc in Hh' |- *. split; [|done]. do 3 f_equal. simpl. lia.
Qed.

Lemma magic_loop_ok rest nodes : forall l t m,
  let new := doc_signs nodes in
  holds t l -> Z.of_nat (length (l ++ new)) <= 134217728 -> Forall magic_ok nodes ->
  Forall sign_ok new -> grants (length new) rest m ->
  exists t', magic_loop realloc granted nodes t (100 + Z.of_nat (length l)) m
             = Some (false, t', 100 + Z.of_nat (length (l ++ new)), Mem rest (blocks m + Z.of_nat (length new)))
  /\ holds t' (l ++ new).
Proof.
  induction nodes as [|n r IH]; intros l t m new Hh Hb Hc Hs Hg.
  - exists t. subst new. simpl in *. rewrite app_nil_r. split; [|done]. destruct m as [a b]. unfold grants in Hg.
    simpl in Hg. subst a. by rewrite Z.add_0_r.
  - apply Forall_cons in Hc as [Hn Hc]. subst new. cbn [magic_loop].
    change (doc_signs (n :: r)) with
      ((if is_named (str "magic") n
        then match xmlGetProp n (str "ext") with Some e => node_signs e (x_children n) | None => [] end
        else []) ++ doc_signs r) in *.
    destruct (is_named (str "magic") n) eqn:E; cbn [negb]; [|by apply IH].
    destruct (Hn E) as [[e He] Hx]. rewrite He in *. apply Forall_app in Hs as [Hs1 Hs].
    unfold grants in Hg. rewrite length_app, replicate_add, <- app_assoc in Hg.
    rewrite !length_app in Hb.
    destruct (express_loop_ok e (replicate (length (doc_signs r)) true ++ rest) (x_children n) l t m Hh) as (t1 & -> & H1); [rewrite length_app; lia|done|done|exact Hg|].
    rewrite bind_some. destruct (IH _ t1 (Mem (replicate (length (doc_signs r)) true ++ rest)
                (blocks m + Z.of_nat (length (node_signs e (x_children n))))) H1)
      as (t' & Ht' & Hh'); [rewrite !length_app; lia|done|done|done|].
    exists t'. rewrite Ht'. rewrite app_assoc. split; [|done]. do 2 f_equal. simpl. rewrite length_app. f_equal. lia.
Qed.

(** ** Compiling *)

(** A traversal with any function is a fold over the items in the order of the traversal. *)
Lemma doall_chain_fold {A S} (f : A -> S -> S) c : forall acc s,
  doall_chain f c (foldr f s acc) = foldr f s (doall_chain cons c acc).
Proof. induction c as [|x c IH]; intros acc s; simpl; [done|]. by rewrite <- IH. Qed.
Lemma doall_from_fold {A S} (f : A -> S -> S) bs i : forall acc s,
  doall_from f bs i (foldr f s acc) = foldr f s (doall_from cons bs i acc).
Proof. induction i as [|i IH]; intros acc s; simpl; [done|]. by rewrite doall_chain_fold, IH. Qed.

(** The arrays with the first entries [ms] of [num] packed. *)
Definition packed (n : nat) (ms : list file_magic) : hs_pack_struct :=
  Pack (((fun m => Some (cstr (express m))) <$> ms) ++ replicate (n - length ms) None)
       ((express_id <$> ms) ++ replicate (n - length ms) 0)
       (replicate (length ms) HS_FLAG_DOTALL ++ replicate (n - length ms) 0)
       (Z.of_nat n) (Z.of_nat (length ms)).
Lemma insert_next {A} (l : list A) (x y : A) k i :
  i = length l -> <[i := y]> (l ++ replicate (S k) x) = (l ++ [y]) ++ replicate k x.
Proof. intros ->. rewrite <- (Nat.add_0_r (length l)), insert_app_r. simpl. by rewrite <- app_assoc. Qed.
Lemma pack_next n ms m :
  (length ms < n)%nat -> Z.of_nat n < W32 -> hs_magic_pack m (packed n ms) = packed n (ms ++ [m]).
Proof.
  intros Hl Hn. unfold hs_magic_pack. cbn [num pindex packed]. rewrite (proj2 (Z.leb_gt _ _)) by lia.
  unfold packed. cbn [p_express p_express_id p_flag]. rewrite length_app. simpl length.
  rewrite Nat2Z.id, u32_id by lia. replace (n - length ms)%nat with (S (n - (length ms + 1))) by lia.
  rewrite !insert_next by (by rewrite ?length_fmap, ?length_replicate).
  rewrite !fmap_app, replicate_add. f_equal. lia.
Qed.
Lemma pack_all n order : forall ms,
  (length ms + length order <= n)%nat -> Z.of_nat n < W32 ->
  foldr hs_magic_pack (packed n ms) order = packed n (ms ++ reverse order).
Proof.
  induction order as [|m order IH]; intros ms Hl Hn; simpl in *; [by rewrite app_nil_r|].
  rewrite IH by lia. rewrite pack_next; [|rewrite length_app, length_reverse; lia|done].
  by rewrite reverse_cons, app_assoc.
Qed.

(** The service as it runs: the table holds the expressions [l], and the database was compiled
    from them. *)
Definition serves (hs_compile_multi : list (option (list Z)) -> list Z -> list Z -> option DB)
    (o : opfile_info (DB := DB)) (l : list sign) : Prop :=
  exists t d ms, magic_hash o = Some t /\ holds t l /\ db o = Some d /\ ms ≡ₚ items t
  /\ hs_compile_multi ((fun m => Some (cstr (express m))) <$> ms) (replicate (length ms) HS_FLAG_DOTALL)
       (express_id <$> ms) = Some d.

(** The arrays handed to the compiler: the expressions of [l] with their numbers, in the order of
    the table, each with the flag that a dot matches a newline. *)
Definition arrays_of (l : list sign) (es : list (option (list Z))) (fs ids : list Z) : Prop :=
  zip ids es ≡ₚ zip (seqZ 100 (Z.of_nat (length l))) ((fun s => Some (take 255 (s_express s))) <$> l)
  /\ length es = length ids /\ fs = replicate (length l) HS_FLAG_DOTALL.
Lemma zip_fmap {A B C} (f : A -> B) (g : A -> C) (l : list A) : zip (f <$> l) (g <$> l) = (fun x => (f x, g x)) <$> l.
Proof. induction l as [|x l IH]; [done|]. simpl. f_equal. exact IH. Qed.
Lemma holds_arrays t l ms :
  holds t l -> ms ≡ₚ items t ->
  arrays_of l ((fun m => Some (cstr (express m))) <$> ms) (replicate (length ms) HS_FLAG_DOTALL) (express_id <$> ms).
Proof.
  intros Hh Hms. pose proof (holds_length t l Hh) as [_ Hlen]. destruct Hh as (_ & ms' & Hp & Hf & Hids).
  split; [|split; [by rewrite !length_fmap|by rewrite Hms, Hlen]].
  rewrite zip_fmap, Hms, Hp, <- zip_fmap, Hids. clear Hids Hp Hms Hlen.
  assert ((fun m => Some (cstr (express m))) <$> ms' = (fun s => Some (take 255 (s_express s))) <$> l) as ->; [|done].
  induction Hf as [|s m l ms' Hr _ IH]; [done|]. rewrite !fmap_cons, IH, (r_express _ _ Hr). done.
Qed.

(** The arrays are made and handed to the compiler: where it accepts them and there is scratch
    space the service runs on what it made, and otherwise it does not. *)
Lemma hs_compile_ok hs_compile_multi scratch t l rest m :
  holds t l -> Z.of_nat (length l) <= OPFILE_SUPPORT_MAX_EXPRESS_SIZE -> grants 3 rest m ->
  exists es fs ids, arrays_of l es fs ids
  /\ match hs_compile_multi es fs ids with
     | Some d => exists o, opfile_hs_compile hs_compile_multi scratch (Opfile (Some t) None) m
                           = (if scratch : bool then 0 else -1, o, Mem rest (blocks m + 1))
               /\ db o = Some d /\ serves hs_compile_multi o l
     | None => opfile_hs_compile hs_compile_multi scratch (Opfile (Some t) None) m
               = (-1, Opfile (Some t) None, Mem rest (blocks m + 1))
     end.
Proof.
  intros Hh Hl Hg. destruct (holds_length t l Hh) as [Hn Hni]. unfold OPFILE_SUPPORT_MAX_EXPRESS_SIZE in *.
  destruct (op_hash_doall_visits_all express_id t (proj1 Hh)) as (_ & Hall & _).
  unfold opfile_hs_compile. cbn [magic_hash op_hash_num_items]. rewrite Hn, u32_id by lia.
  rewrite (proj2 (Z.ltb_ge _ _)) by (unfold OPFILE_SUPPORT_MAX_EXPRESS_SIZE; lia).
  rewrite (grants_calloc 2 rest m Hg). cbn [negb].
  rewrite (grants_calloc 1 rest) by done. cbn [negb]. rewrite (grants_calloc 0 rest) by done. cbn [negb blocks].
  rewrite Nat2Z.id.
  set (order := op_hash_doall_arg (Some t) cons []) in *.
  assert (op_hash_doall_arg (Some t) hs_magic_pack (packed (length l) []) = packed (length l) (reverse order)) as Hp.
  { unfold op_hash_doall_arg, doall_util_fn in *.
    rewrite (doall_from_fold hs_magic_pack (b t) _ [] (packed (length l) [])). fold order.
    rewrite pack_all; [done| |lia]. simpl. rewrite Hall. lia. }
  unfold packed in Hp at 1. cbn [fmap list_fmap app length replicate] in Hp. rewrite Nat.sub_0_r in Hp.
  change (Z.of_nat 0) with 0 in Hp. rewrite Hp.
  assert (length (reverse order) = length l) as Hlen by (rewrite length_reverse, Hall; lia).
  assert (reverse order ≡ₚ items t) as Hperm by (by rewrite reverse_Permutation).
  unfold packed. cbn [p_express p_flag p_express_id]. rewrite Hlen, Nat.sub_diag. cbn [replicate]. rewrite !app_nil_r.
  pose proof (holds_arrays t l (reverse order) Hh Hperm) as Harr. rewrite Hlen in Harr.
  eexists _, _, _. split; [exact Harr|].
  assert (forall x y : Z * opfile_info (DB := DB), x = y ->
    (x, op_free (op_free (Mem ([] ++ rest) (blocks m + 1 + 1 + 1)))) = (y, Mem rest (blocks m + 1))) as Hmem.
  { intros x y ->. unfold op_free. simpl. do 2 f_equal. lia. }
  destruct (hs_compile_multi _ _ _) as [d|] eqn:Hd; [|by apply Hmem].
  exists (Opfile (Some t) (Some d)). split; [destruct scratch; by apply Hmem|]. split; [done|].
  exists t, d, (reverse order). rewrite Hlen. split_and!; try done.
Qed.

(** ** Recognising *)

(** The expression with the number [id]. *)
Definition numbered (l : list sign) (id : Z) (s : sign) : Prop :=
  100 <= id /\ l !! Z.to_nat (id - 100) = Some s.

Lemma holds_items t t' l : holds t l -> hash_wf 1024 express_id t' -> items t' = items t -> holds t' l.
Proof. intros (_ & ms & Hms) Hwf Hi. split; [done|]. exists ms. by rewrite Hi. Qed.
Lemma holds_lookup t l id :
  holds t l -> 100 <= id < 100 + Z.of_nat (length l) ->
  exists mg t' s, op_hash_retrieve t (Magic [] [] [] id 0) = (Some mg, t') /\ hash_wf 1024 express_id t'
  /\ items t' = items t /\ numbered l id s /\ recorded s mg.
Proof.
  intros (Hwf & ms & Hp & Hf & Hids) Hid.
  assert (express_id <$> ms !! Z.to_nat (id - 100) = Some id) as Hn.
  { rewrite <- list_lookup_fmap, Hids. rewrite lookup_seqZ_lt by lia. f_equal. lia. }
  destruct (ms !! Z.to_nat (id - 100)) as [mg|] eqn:Em; [|done]. injection Hn as Hn.
  destruct (Forall2_lookup_r _ _ _ _ _ Hf Em) as (s & Hs & Hr).
  destruct (op_hash_retrieve t (Magic [] [] [] id 0)) as [r t'] eqn:E.
  pose proof (retrieve_items 1024 express_id ltac:(lia) t _ _ _ Hwf E) as (Hwf' & Hb & _ & _ & Hret).
  assert (items t' = items t) as Hi by (unfold items; by rewrite Hb).
  assert (mg ∈ items t) as Hin by (rewrite Hp; by eapply list_elem_of_lookup_2).
  destruct r as [x|]; [|by destruct (Hret mg)]. destruct Hret as [Hx Hk]. simpl in Hk.
  assert (x = mg) as ->.
  { apply (kt_key_inj (KeyTable0 := op_hash_key_table express_id realloc)
             (KeyTableLaws0 := op_hash_key_table_laws express_id realloc Hptrdiff Hserves) t); try done. by rewrite Hk. }
  exists mg, t', s. split_and!; try done. split; [lia|done].
Qed.

Lemma scan_ok l ids : forall t x,
  holds t l -> matched_num x = Z.of_nat (length (magic x)) -> (length (magic x) <= 20)%nat ->
  (forall id, id ∈ ids -> 100 <= id < 100 + Z.of_nat (length l)) ->
  exists t' mgs sl, scan_loop ids (Some t) x = Some (Some t', MagicEx (magic x ++ (Some <$> mgs)) (Z.of_nat (length (magic x) + length mgs)))
  /\ holds t' l /\ items t' = items t
  /\ Forall2 (numbered l) (take (20 - length (magic x)) ids) sl /\ Forall2 recorded sl mgs.
Proof.
  induction ids as [|id ids IH]; intros t x Hh Hm Hl Hids; cbn [scan_loop].
  - exists t, [], []. rewrite take_nil. simpl. rewrite app_nil_r, Nat.add_0_r, <- Hm. by destruct x.
  - unfold opfile_magic_hs_process. rewrite !bind_some.
    destruct (holds_lookup t l id Hh) as (mg & t1 & s & -> & Hwf & Hi & Hs & Hr); [apply Hids; by left|].
    pose proof (holds_items t t1 l Hh Hwf Hi) as Hh1.
    unfold OPFILE_MAX_HS_SCAN. destruct (20 <=? matched_num x) eqn:E; btest; rewrite bind_some.
    + exists t1, [], []. replace (20 - length (magic x))%nat with 0%nat by lia. simpl.
      rewrite app_nil_r, Nat.add_0_r, <- Hm. by destruct x.
    + cbn [Z.eqb HS_SUCCESS].
      destruct (IH t1 (MagicEx (magic x ++ [Some mg]) (u32 (matched_num x + 1)))) as (t' & mgs & sl & Hsc & Hh' & Hi' & Hf1 & Hf2).
      * done.
      * simpl. rewrite u32_id, length_app by lia. simpl. lia.
      * simpl. rewrite length_app. simpl. lia.
      * intros i ?. apply Hids. by right.
      * exists t', (mg :: mgs), (s :: sl). cbn [magic] in *. rewrite Hsc, length_app in *.
        replace (20 - length (magic x))%nat with (S (20 - (length (magic x) + length [Some mg])))%nat by (simpl; lia).
        split; [|split; [done|]; split; [congruence|]; split; by constructor].
        rewrite fmap_cons, <- app_assoc. cbn [length app]. do 3 f_equal. lia.
Qed.

(** The first of the longest of [l]. *)
Definition first_longest {A} (len : A -> Z) (l : list A) (a : A) : Prop :=
  exists k, l !! k = Some a /\ forall j x, l !! j = Some x -> len x <= len a /\ ((j < k)%nat -> len x < len a).
Definition express_len (mg : file_magic) : Z := zlen (cstr (express mg)).
Definition sign_len (s : sign) : Z := zlen (take 255 (s_express s)).

Lemma longest_spec ms : forall pre best,
  first_longest express_len pre best -> first_longest express_len (pre ++ ms) (longest_loop (Some <$> ms) best).
Proof.
  induction ms as [|m ms IH]; intros pre best Hb; simpl; [by rewrite app_nil_r|].
  change (pre ++ m :: ms) with (pre ++ [m] ++ ms). rewrite app_assoc. apply IH.
  fold (express_len best) (express_len m). destruct Hb as (k & Hk & Hmax).
  pose proof (lookup_lt_Some _ _ _ Hk) as Hlt. destruct (express_len best <? express_len m) eqn:E; btest.
  - exists (length pre). split; [by rewrite lookup_app_r, Nat.sub_diag|]. intros j x Hj.
    apply lookup_app_Some in Hj as [Hj|[Hge Hj]].
    + apply Hmax in Hj as [? _]. split; [lia|]. intros _. lia.
    + apply list_lookup_singleton_Some in Hj as [? <-]. split; [lia|]. lia.
  - exists k. split; [by apply lookup_app_l_Some|]. intros j x Hj.
    apply lookup_app_Some in Hj as [Hj|[Hge Hj]]; [by apply Hmax|].
    apply list_lookup_singleton_Some in Hj as [? <-]. split; [lia|]. lia.
Qed.
Lemma longest_sign sl mgs mg :
  Forall2 recorded sl mgs -> first_longest express_len mgs mg ->
  exists s, first_longest sign_len sl s /\ recorded s mg.
Proof.
  intros Hf (k & Hk & Hmax). destruct (Forall2_lookup_r _ _ _ _ _ Hf Hk) as (s & Hs & Hr).
  exists s. split; [|done]. exists k. split; [done|]. intros j x Hj.
  destruct (Forall2_lookup_l _ _ _ _ _ Hf Hj) as (m & Hm & Hrm). specialize (Hmax j m Hm).
  unfold express_len in Hmax. rewrite (r_express _ _ Hr), (r_express _ _ Hrm) in Hmax. exact Hmax.
Qed.
End Service.

(** ** The properties *)

Section Properties.
Context {DB : Type} (realloc : Z -> bool)
        (hs_compile_multi : list (option (list Z)) -> list Z -> list Z -> option DB)
        (hs_matches : option DB -> list Z -> option (list Z)).
(** The C allocator refuses requests above [PTRDIFF_MAX] and serves small ones; the matcher only
    reports numbers it was given. *)
Context (Hptrdiff : forall n, realloc n = true -> n < 9223372036854775808)
        (Hserves : forall n, n < W32 -> realloc n = true)
        (Hreports : forall es fs ids d buf reported, hs_compile_multi es fs ids = Some d ->
           hs_matches (Some d) buf = Some reported -> forall id, id ∈ reported -> id ∈ ids).

Lemma serves_reports o l buf reported id :
  serves hs_compile_multi o l -> hs_matches (db o) buf = Some reported -> id ∈ reported ->
  100 <= id < 100 + Z.of_nat (length l).
Proof using Hreports.
  intros (t & d & ms & _ & (_ & ms' & Hp & _ & Hids) & Hd & Hms & Hc) Hr Hid. rewrite Hd in Hr.
  pose proof (Hreports _ _ _ _ _ _ Hc Hr id Hid) as Hin.
  rewrite Hms, Hp, Hids, elem_of_seqZ in Hin. done.
Qed.

Lemma check_mem_ok o l buf sz rest m :
  serves hs_compile_multi o l -> 0 <= sz <= zlen buf -> grants 2 rest m ->
  exists res o', opfile_check_mem hs_matches buf sz (Some o) m = Some (res, Some o', Mem rest (blocks m + 1))
  /\ serves hs_compile_multi o' l
  /\ match hs_matches (db o) (take (Z.to_nat (Z.min sz OPFILE_MAX_CHECK_SIZE)) buf) with
     | Some (id :: ids) =>
         exists sl s info, Forall2 (numbered l) (take 20 (id :: ids)) sl /\ first_longest sign_len sl s
         /\ res = Some info /\ fi_type info = type_loop magic_file_type (take 63 (s_ext s))
         /\ cstr (fi_ext info) = take 63 (s_ext s) /\ cstr (fi_desc info) = take 255 (default [] (s_desc s))
     | _ => res = None
     end.
Proof using Hptrdiff Hserves Hreports.
  intros Hs Hsz Hg. unfold opfile_check_mem. rewrite (grants_calloc 1 rest m Hg). cbn [negb].
  rewrite (grants_calloc 0 rest) by done. cbn [negb blocks]. change (replicate 0 true ++ rest) with rest.
  replace (if OPFILE_MAX_CHECK_SIZE <? sz then OPFILE_MAX_CHECK_SIZE else sz) with (Z.min sz OPFILE_MAX_CHECK_SIZE)
    by (destruct (OPFILE_MAX_CHECK_SIZE <? sz) eqn:E; btest; lia).
  rewrite (proj2 (Z.ltb_ge _ _)) by lia. set (data := take _ buf).
  assert (op_free (Mem rest (blocks m + 1 + 1)) = Mem rest (blocks m + 1)) as Hfree
    by (unfold op_free; simpl; f_equal; lia).
  destruct (hs_matches (db o) data) as [reported|] eqn:Er; [|by eexists _, o; rewrite Hfree].
  pose proof (fun id => serves_reports o l data reported id Hs Er) as Hids.
  destruct Hs as (t & d & ms & Ht & Hh & Hd & Hms & Hc). rewrite Ht.
  destruct (scan_ok realloc Hptrdiff Hserves l reported t (MagicEx [] 0) Hh)
    as (t' & mgs & sl & -> & Hh' & Hi & Hf1 & Hf2); [done|simpl; lia|done|]. rewrite bind_some. cbn [magic length] in *.
  assert (serves hs_compile_multi (Opfile (Some t') (db o)) l) as Hs' by (exists t', d, ms; by rewrite Hi).
  change ([] ++ (Some <$> mgs)) with (Some <$> mgs). change (take (20 - 0) reported) with (take 20 reported) in Hf1.
  destruct reported as [|id ids].
  { apply Forall2_nil_inv_l in Hf1 as ->. apply Forall2_nil_inv_l in Hf2 as ->. simpl.
    eexists _, _. by rewrite Hfree. }
  destruct mgs as [|mg mgs]; [apply Forall2_nil_inv_r in Hf2 as ->; by apply Forall2_nil_inv_r in Hf1|].
  rewrite fmap_cons.
  assert (first_longest express_len [mg] mg) as H1.
  { exists 0%nat. split; [done|]. intros j x Hj. apply list_lookup_singleton_Some in Hj as [-> <-]. lia. }
  destruct (longest_sign sl (mg :: mgs) _ Hf2 (longest_spec mgs [mg] mg H1)) as (s & Hls & Hr).
  set (best := longest_loop (Some <$> mgs) mg) in *.
  destruct (copy_to_ok (zeros EXT_SIZE) (cstr (ext best)) EXT_SIZE) as (e & -> & He); [apply cstr_no_nul|done|done|].
  destruct (copy_to_ok (zeros DESC_SIZE) (cstr (desc best)) DESC_SIZE) as (f & -> & Hfd); [apply cstr_no_nul|done|done|].
  rewrite !bind_some, Hfree. eexists _, _. split; [done|]. split; [exact Hs'|].
  exists sl, s. eexists. split; [done|]. split; [done|]. split; [done|]. cbn [fi_type fi_ext fi_desc].
  rewrite (r_type _ _ Hr), He, Hfd, (r_ext _ _ Hr), (r_desc _ _ Hr), !take_take. done.
Qed.

(** What [opfile_init] gives: it runs on the database the compiler makes of the arrays, or does
    not run. *)
Definition started (env : init_env) (l : list sign) (made : option DB) (r : option (bool * option (opfile_info (DB := DB)) * mem)) : Prop :=
  exists o m', r = Some (bool_decide (is_Some made) && scratch_ok env, Some o, m')
  /\ db o = made /\ (is_Some made -> serves hs_compile_multi o l).

Lemma init_serves env path root rest m :
  let l := doc_signs (x_children root) in
  new_ok env = (true, true) -> conf env = Some (Some path) -> no_nul path ->
  xmlReadFile env (take 127 path) = Some (Some root) ->
  Forall magic_ok (x_children root) -> Forall sign_ok l ->
  Z.of_nat (length l) <= OPFILE_SUPPORT_MAX_EXPRESS_SIZE -> grants (1 + length l + 3) rest m ->
  exists es fs ids, arrays_of l es fs ids
  /\ started env l (hs_compile_multi es fs ids) (opfile_init realloc (fun _ => true) hs_compile_multi env m).
Proof using Hptrdiff Hserves.
  intros l Hn Hc Hp Hx Hm Hs Hl Hg. unfold OPFILE_SUPPORT_MAX_EXPRESS_SIZE in *. unfold opfile_init.
  rewrite (grants_calloc (length l + 3) rest m Hg). cbn [negb]. rewrite Hn, Hc. cbn [fst snd].
  destruct (op_hash_new (Some file_magic_hash) (Some file_magic_compare) true true) as [t|] eqn:Et; [|done].
  destruct (wf_new 2048 1024 express_id ltac:(lia) ltac:(lia) _ _ t _ Et) as (Hwf & Hi & _).
  destruct (copy_to_ok (zeros 128) path 128 Hp) as (q & -> & Hq); [done|done|]. rewrite bind_some, Hq.
  change (Z.to_nat (128 - 1)) with 127%nat. rewrite Hx. cbn [opfile_parse_magic magic_hash]. rewrite bind_some.
  assert (holds t []) as Hh0 by (split; [done|]; exists []; by rewrite Hi).
  destruct (magic_loop_ok realloc Hptrdiff Hserves (replicate 3 true ++ rest) (x_children root) [] t
              (Mem (replicate (length l + 3) true ++ rest) (blocks m + 1)) Hh0) as (t' & Hml & Hh);
    [fold l; simpl; lia|done|done|unfold grants; simpl; fold l; by rewrite replicate_add, <- app_assoc|].
  change (100 + Z.of_nat (length (@nil sign))) with 100 in Hml. rewrite Hml, !bind_some. fold l in Hh |- *.
  cbn [Z.ltb Z.compare set_table db app] in Hh |- *.
  destruct (hs_compile_ok hs_compile_multi (scratch_ok env) t' l rest (Mem (replicate 3 true ++ rest) (blocks m + 1 + Z.of_nat (length l))) Hh)
    as (es & fs & ids & Harr & Hres); [done|done|]. exists es, fs, ids. split; [done|].
  unfold set_table. cbn [db blocks]. destruct (hs_compile_multi es fs ids) as [d|] eqn:Ed.
  - destruct Hres as (o & Ho & Hdb & Hos). rewrite Ho. eexists o, _. split; [destruct (scratch_ok env); reflexivity|done].
  - rewrite Hres. eexists _, _. split; [reflexivity|]. split; [done|]. by intros [? ?].
Qed.

(** C19. The file service recognises files by their contents. Started with memory on a document whose
    magics have extensions and whose expressions have contents, 10000 at most, it hands the
    compiler of expressions exactly the expressions of the document (cut to 255 characters), under
    the numbers from 100 on in their order; if the compiler refuses them, or there is no scratch
    space for the matcher, the start fails, and otherwise the service serves these expressions.
    From then on every buffer is looked at up to its first 8192 bytes; it gets the extension, the
    description and the type of the first of the longest expressions among the first twenty the
    matcher reports, and no answer if none is reported. The memory in use grows by one block either
    way: the answer, or the list of matches, which is not released when there is no answer. The
    matcher is only assumed to report numbers it was given. *)
Theorem opfile_recognises env path root rest m :
  let l := doc_signs (x_children root) in
  new_ok env = (true, true) -> conf env = Some (Some path) -> no_nul path ->
  xmlReadFile env (take 127 path) = Some (Some root) ->
  Forall magic_ok (x_children root) -> Forall sign_ok l ->
  Z.of_nat (length l) <= OPFILE_SUPPORT_MAX_EXPRESS_SIZE -> grants (1 + length l + 3) rest m ->
  (exists es fs ids, arrays_of l es fs ids
     /\ started env l (hs_compile_multi es fs ids) (opfile_init realloc (fun _ => true) hs_compile_multi env m))
  /\ forall o buf sz rest m,
     serves hs_compile_multi o l -> 0 <= sz <= zlen buf -> grants 2 rest m ->
     exists res o', opfile_check_mem hs_matches buf sz (Some o) m = Some (res, Some o', Mem rest (blocks m + 1))
     /\ serves hs_compile_multi o' l
     /\ match hs_matches (db o) (take (Z.to_nat (Z.min sz OPFILE_MAX_CHECK_SIZE)) buf) with
        | Some (id :: ids) =>
            exists sl s info, Forall2 (numbered l) (take 20 (id :: ids)) sl /\ first_longest sign_len sl s
            /\ res = Some info /\ fi_type info = type_loop magic_file_type (take 63 (s_ext s))
            /\ cstr (fi_ext info) = take 63 (s_ext s) /\ cstr (fi_desc info) = take 255 (default [] (s_desc s))
        | _ => res = None
        end.
Proof using Hptrdiff Hserves Hreports.
  intros l Hn Hc Hp Hx Hm Hs Hl Hg. split; [by apply (init_serves env path root rest m)|].
  intros o buf sz rest' m'. apply check_mem_ok.
Qed.
End Properties.

(** ** A concrete service *)

(** A matcher of literal texts: it reports the expressions a buffer begins with. *)
Notation demo_db := (list (option (list Z) * Z)).
Definition demo_compile (es : list (option (list Z))) (fs ids : list Z) : option demo_db := Some (zip es ids).
Definition demo_matches (d : option demo_db) (buf : list Z) : option (list Z) :=
  match d with
  | None => None
  | Some d => Some (snd <$> filter (fun p => (fun e => take (length e) buf) <$> fst p = fst p) d)
  end.
Lemma demo_reports es fs ids d buf reported :
  demo_compile es fs ids = Some d -> demo_matches (Some d) buf = Some reported ->
  forall id, id ∈ reported -> id ∈ ids.
Proof.
  intros [= <-] [= <-] id ([e i] & -> & [_ Hin]%list_elem_of_filter)%list_elem_of_fmap.
  by eapply elem_of_zip_r.
Qed.
Definition demo_express (text desc : string) : xml_node :=
  XNode true (str "express") [(str "desc", str desc)] (Some (str text)) [].
Definition demo_root : xml_node :=
  XNode true (str "root") [] None
    [XNode false (str "text") [] None [];
     XNode true (str "magic") [(str "ext", str "pdf")] None [demo_express "%PDF" "Portable document"];
     XNode true (str "Magic") [(str "ext", str "zip")] None
       [demo_express "PK" "Archive"; demo_express "PKZIP" "Spanned archive"]].
Definition demo_env : init_env :=
  InitEnv (true, true) (Some (Some (str "/etc/magic.xml"))) (fun _ => Some (Some demo_root)) true.
Definition demo_mem (n : nat) : mem := Mem (replicate n true) 0.

(** What the matcher reports for a buffer after a start. *)
Definition demo_reported (r : option (bool * option (opfile_info (DB := demo_db)) * mem)) (buf : list Z) : option (list Z) :=
  match r with Some (_, Some o, _) => demo_matches (db o) buf | _ => None end.
Definition demo_buf : list Z := str "PKZIP contents".
Lemma demo_reported_both b o m' :
  opfile_init serving (fun _ => true) demo_compile demo_env (demo_mem 7) = Some (b, Some o, m') ->
  demo_matches (db o) demo_buf = Some [102; 101].
Proof.
  intros Ho.
  assert (demo_reported (opfile_init serving (fun _ => true) demo_compile demo_env (demo_mem 7)) demo_buf
          = Some [102; 101]) as H by (vm_compute; reflexivity).
  rewrite Ho in H. exact H.
Qed.
Notation demo_signs := (doc_signs (x_children demo_root)).
Lemma demo_magics : Forall magic_ok (x_children demo_root).
Proof.
  apply Forall_cons; split; [intros H; discriminate H|].
  do 2 (apply Forall_cons; split;
          [intros _; split; [eexists; reflexivity|];
           repeat (apply Forall_cons; split; [intros _; eexists; reflexivity|]); apply Forall_nil; exact I|]).
  apply Forall_nil; exact I.
Qed.
Lemma demo_signs_ok : Forall sign_ok demo_signs.
Proof. repeat constructor; intros x Hx; repeat (apply elem_of_cons in Hx as [->|Hx]; [discriminate|]); inversion Hx. Qed.
Lemma demo_path_ok : no_nul (str "/etc/magic.xml").
Proof. intros x Hx; repeat (apply elem_of_cons in Hx as [->|Hx]; [discriminate|]); inversion Hx. Qed.
(** Of the two the longer one is chosen, in either order. *)
Lemma demo_longest sl s :
  Forall2 (numbered demo_signs) [102; 101] sl -> first_longest sign_len sl s ->
  s = Sign (str "zip") (str "PKZIP") (Some (str "Spanned archive")).
Proof.
  intros Hnum Hbest. apply Forall2_cons_inv_l in Hnum as (s1 & sl1 & [_ H1] & Hnum & ->).
  apply Forall2_cons_inv_l in Hnum as (s2 & sl2 & [_ H2] & Hnum & ->). apply Forall2_nil_inv_l in Hnum as ->.
  vm_compute in H1, H2. injection H1 as <-. injection H2 as <-.
  destruct Hbest as ([|[|k]] & Hk & Hmax); [|destruct (Hmax 0%nat _ eq_refl) as [_ Hlt]|discriminate Hk].
  - by injection Hk as <-.
  - injection Hk as <-. specialize (Hlt ltac:(lia)). vm_compute in Hlt. discriminate Hlt.
Qed.

(** A buffer that begins with two of the expressions is recognised by the longer one. *)
Lemma opfile_recognises_witness :
  exists o m' info o', opfile_init serving (fun _ => true) demo_compile demo_env (demo_mem 7) = Some (true, Some o, m')
  /\ opfile_check_mem demo_matches demo_buf 14 (Some o) (demo_mem 2) = Some (Some info, Some o', Mem [] 1)
  /\ fi_type info = FILE_TYPE_zip /\ cstr (fi_ext info) = str "zip" /\ cstr (fi_desc info) = str "Spanned archive".
Proof.
  destruct (opfile_recognises serving demo_compile demo_matches serving_ptrdiff serving_small demo_reports
              demo_env (str "/etc/magic.xml") demo_root [] (demo_mem 7) eq_refl eq_refl demo_path_ok eq_refl
              demo_magics demo_signs_ok ltac:(vm_compute; discriminate) eq_refl)
    as [(es & fs & ids & _ & o & m' & Ho & _ & Hos) Hcheck].
  specialize (Hos (ex_intro _ _ eq_refl)). rewrite bool_decide_eq_true_2 in Ho by (by eexists).
  pose proof (demo_reported_both _ _ _ Ho) as Hrep.
  destruct (Hcheck o demo_buf 14 [] (demo_mem 2) Hos ltac:(vm_compute; split; discriminate) eq_refl) as (res & o' & Hc & _ & Hr).
  assert (take (Z.to_nat (Z.min 14 OPFILE_MAX_CHECK_SIZE)) demo_buf = demo_buf) as Hall by (vm_compute; reflexivity).
  rewrite Hall, Hrep in Hr. destruct Hr as (sl & s & info & Hnum & Hbest & -> & Ht & He & Hd).
  rewrite (demo_longest sl s Hnum Hbest) in Ht, He, Hd.
  exists o, m', info, o'. split; [exact Ho|]. split; [exact Hc|]. split; [exact Ht|]. split; [exact He|exact Hd].
Defined.
(** The same service run: the buffer is an archive. *)
Definition demo_run (buf : list Z) : option (option (Z * list Z * list Z)) :=
  match opfile_init serving (fun _ => true) demo_compile demo_env (demo_mem 7) with
  | Some (_, o, _) =>
      match opfile_check_mem demo_matches buf (zlen buf) o (demo_mem 2) with
      | Some (Some i, _, _) => Some (Some (fi_type i, cstr (fi_ext i), cstr (fi_desc i)))
      | Some (None, _, _) => Some None
      | None => None
      end
  | None => None
  end.
Lemma demo_check :
  demo_run (str "PKZIP contents") = Some (Some (FILE_TYPE_zip, str "zip", str "Spanned archive")).
Proof. vm_compute. reflexivity. Qed.

(** Every extension but [pdf] that the table knows has the type of an archive. *)
Lemma magic_file_type_mostly_zip e :
  e ∈ omap tm_ext magic_file_type ->
  type_loop magic_file_type e = if bool_decide (e = str "pdf") then FILE_TYPE_pdf else FILE_TYPE_zip.
Proof. intros H. repeat (apply elem_of_cons in H as [->|H]; [reflexivity|]). by apply elem_of_nil in H. Qed.
(** A failed start leaves [self] set. *)
Lemma failed_start_leaves_self realloc calloc_node (hs : list (option (list Z)) -> list Z -> list Z -> option nat) env a m :
  conf env = None -> new_ok env = (true, true) ->
  exists o m', opfile_init realloc calloc_node hs env (Mem (true :: a) m) = Some (false, Some o, m').
Proof. intros Hc Hn. unfold opfile_init. simpl. rewrite Hc, Hn. by eexists _, _. Qed.
