(* ===== verification/OpMemReport.v ===== *)
(** * The reports of the memory pool (src/src/base/opmem.c)

    [op_mem_information] and [op_mem_father_node_information] print the state of the pool into
    a buffer of the caller. The buffer is a list of bytes; a result [None] is a write outside
    of it. *)

From S2P Require Import Prelude Bytes CString Utils OpMem Pdu.
From stdpp Require Import base tactics numbers list gmap strings.
From Stdlib Require Import ZArith Lia.
Open Scope Z_scope.

Module OpMemReport.
Import Utils OpMem Pdu.

(** ** Formats *)

(** [%<w>s]. *)
Definition padl (w : nat) (s : list Z) : list Z := replicate (w - length s) 32 ++ s.
(** [%u] and [%llu]: twenty digits are enough for 64 bits; [%d]. *)
Definition fmt_u (n : Z) : list Z := dec_digits 20 n.
Definition fmt_d (n : Z) : list Z := if n <? 0 then 45 :: fmt_u (- n) else fmt_u n.
(** [%p]. *)
Fixpoint hex_lower (fuel : nat) (n : Z) : list Z :=
  match fuel with
  | O => []
  | S f =>
      let d := n mod 16 in
      (if n <? 16 then [] else hex_lower f (n / 16)) ++ [if d <? 10 then 48 + d else 87 + d]
  end.
Definition fmt_p (n : Z) : list Z := if n =? 0 then str "(nil)" else str "0x" ++ hex_lower 16 n.
Definition crlf : list Z := [13; 10].

(** ** Printing into a buffer *)

(** [ret = snprintf(buf + index, size - index, ...); index += ret]. *)
Definition put (size : Z) (text : list Z) (st : list Z * Z) : option (list Z * Z) :=
  '(buf, ret) ← snprintf_at (fst st) (snd st) (size - snd st) text;
  Some (buf, snd st + ret).
(** The calls that are made only while there is room. *)
Fixpoint put_checked (size : Z) (texts : list (list Z)) (st : list Z * Z) : option (list Z * Z) :=
  match texts with
  | [] => Some st
  | t :: r => if size - snd st <=? 0 then Some st else st ← put size t st; put_checked size r st
  end.
Section Report.
Context {T : Type}.

(** The names of [op_mem_ele]; the entry [OP_MEM_ELE_NO] has none. *)
Definition ele_names : list (list Z) :=
  str <$> [""; "16B pool"; "32B pool"; "64B pool"; "128B pool"; "256B pool"; "512B pool"; "1kB pool";
           "2kB pool"; "4kB pool"; "8kB pool"; "16kB pool"; "64kB pool"; "512kB pool"; "1mB pool";
           "system"]%string.

Definition ele_line (name : list Z) (e : mem_alloc_ele) : list Z :=
  let size := u32 (ele_size e) in
  let used_num := u32 (can_used_num e) in
  str "[" ++ padl 10 name ++ str "] ele size(B): " ++ padl 10 (fmt_u size)
  ++ str ", all_num: " ++ padl 10 (fmt_d (s32 (all_num e)))
  ++ str ", can_used_num: " ++ padl 10 (fmt_d (s32 used_num))
  ++ str ", total size: " ++ padl 10 (fmt_u (u32 (size * used_num))) ++ str "B, op_malloc_num : "
  ++ padl 10 (fmt_u (op_malloc_num e)) ++ str ", op_free_num:" ++ padl 10 (fmt_u (op_free_num e)) ++ crlf.
(** The entries between [OP_MEM_ELE_NO] and [op_MEM_ELE_SYS]. *)
Definition ele_lines (m : op_mem_info T) : list (list Z) :=
  take (op_MEM_ELE_SYS - 1) (drop (OP_MEM_ELE_NO + 1) (zip_with ele_line ele_names (op_mem_ele m))).

Definition total_line (sep : string) (name : string) (n : Z) : list Z :=
  str "[" ++ padl 30 (str name) ++ str "]" ++ str sep ++ padl 10 (fmt_u n) ++ str "B" ++ crlf.
Definition pool_head : list Z := str "===============memory pool ==============" ++ crlf.
Definition system_head : list Z := str "===============system memory ==============" ++ crlf.
Definition report_lines (m : op_mem_info T) : list (list Z) :=
  let s := statistic m in
  ele_lines m
  ++ [total_line ": " "pool alloc total size" (pool_alloc s);
      total_line ": " "pool alloc used total size" (pool_alloc_used s);
      total_line ": " "pool alloc noused total size" (pool_alloc_noused s);
      system_head;
      total_line " : " "system alloc total size" (system_alloc s);
      total_line " : " "system alloc used total size" (system_alloc_used s)].

Definition op_mem_information (buf : option (list Z)) (size : Z) (self : option (op_mem_info T))
    : option (option (list Z) * Z) :=
  match buf, self with
  | Some b, Some m =>
      if size <=? 0 then Some (buf, 0)
      else
        st ← put size pool_head (b, 0);
        '(b, index) ← put_checked size (report_lines m) st;
        Some (Some b, index)
  | _, _ => Some (buf, 0)
  end.

(** ** The father nodes *)

Definition father_head : list Z := str "===============memory father_node pool ==============" ++ crlf.
Definition father_none : list Z := str "===============no father node infrmation ==============" ++ crlf.
Definition father_total_head : list Z :=
  str "===============total father_node pool information==============" ++ crlf.
Definition father_line (addr : Z) (f : mem_father_node) : list Z :=
  str "father:" ++ padl 10 (fmt_p addr) ++ str ", size = " ++ padl 10 (fmt_u (father_size f))
  ++ str "B, used_size=" ++ padl 10 (fmt_u (used_size f)) ++ str "B, type="
  ++ (if father_type f =? OPMEM_CAN_FREE then str "can free" else str "can not free") ++ crlf.
Definition father_total (total_size total_used_size : Z) : list Z :=
  str "all size = " ++ padl 10 (fmt_u total_size) ++ str "B,all_used_size=" ++ padl 10 (fmt_u total_used_size)
  ++ str "B" ++ crlf.

(** The loop over [father_node_list], with both totals. *)
Fixpoint father_loop (m : op_mem_info T) (size : Z) (addrs : list Z) (total used : Z) (st : list Z * Z)
    : option (list Z * Z * Z * Z) :=
  match addrs with
  | [] => Some (st, total, used)
  | a :: r =>
      f ← fathers m !! a;
      st ← put size (father_line a f) st;
      father_loop m size r (u64 (total + father_size f)) (u64 (used + used_size f)) st
  end.
Definition op_mem_father_node_information (buf : list Z) (size : Z) (m : op_mem_info T)
    : option (list Z * Z) :=
  st ← put size father_head (buf, 0);
  match father_node_list m with
  | [] => put size father_none st
  | addrs =>
      '(st, total, used) ← father_loop m size addrs 0 0 st;
      st ← put size father_total_head st;
      put size (father_total total used) st
  end.
End Report.

(** ** What is printed *)

(** [buf] holds the text [full], cut to [size] bytes with its terminator, and is [buf0] behind
    them. *)
Definition printed (size : Z) (buf0 : list Z) (full buf : list Z) : Prop :=
  length buf = length buf0 /\ drop (Z.to_nat size) buf = drop (Z.to_nat size) buf0
  /\ exists rest, buf = take (Z.to_nat (size - 1)) full ++ 0 :: rest.

Lemma put_ok size buf0 pre rest text :
  let buf := pre ++ rest in
  zlen pre < size <= zlen buf -> size < W64 -> length buf = length buf0 ->
  drop (Z.to_nat size) buf = drop (Z.to_nat size) buf0 ->
  exists buf', put size text (buf, zlen pre) = Some (buf', zlen (pre ++ text)) /\ printed size buf0 (pre ++ text) buf'.
Proof.
  intros buf Hs H64 Hl Hd. subst buf. unfold put, snprintf_at, zlen in *. cbn [fst snd].
  rewrite length_app in Hs, Hl |- *.
  rewrite (proj2 (Z.leb_le 0 _)), (proj2 (Z.leb_le (Z.of_nat (length pre)) _)) by lia. cbn [andb].
  rewrite u64_id by lia. rewrite (proj2 (Z.eqb_neq _ _)) by lia.
  rewrite Nat2Z.id, take_app_length, drop_app_length.
  set (t := take _ text). assert (length t <= Z.to_nat (size - Z.of_nat (length pre) - 1))%nat as Ht
    by (subst t; rewrite length_take; lia).
  destruct (poke_ok rest (t ++ [0])) as [-> Hp]; [rewrite length_app; simpl; lia|].
  rewrite !bind_some, (length_app pre text), Nat2Z.inj_add. eexists. split; [reflexivity|]. split; [|split].
  - rewrite length_app, Hp. exact Hl.
  - rewrite <- Hd. rewrite !drop_app, !length_app. simpl length.
    rewrite !(drop_ge pre), !(drop_ge t) by lia. rewrite drop_drop. cbn [app]. rewrite drop_ge by (simpl; lia).
    cbn [app]. f_equal. lia.
  - rewrite length_app. simpl length. exists (drop (length t + 1) rest).
    rewrite take_app, (take_ge pre) by lia. rewrite <- !app_assoc. do 2 f_equal. subst t. f_equal. lia.
Qed.

Lemma put_checked_ok size buf0 texts : forall full buf,
  0 < size <= zlen buf0 -> size < W64 -> printed size buf0 full buf ->
  exists buf' k, put_checked size texts (buf, zlen full) = Some (buf', k)
  /\ printed size buf0 (full ++ concat texts) buf'
  /\ (zlen (full ++ concat texts) < size -> k = zlen (full ++ concat texts)).
Proof.
  induction texts as [|t r IH]; intros full buf Hs H64 (Hl & Hd & rest & Hb); cbn [put_checked concat].
  - exists buf, (zlen full). rewrite app_nil_r. split; [done|]. split; [|done]. split; [done|]. split; [done|by exists rest].
  - cbn [snd]. destruct (size - zlen full <=? 0) eqn:E; btest.
    + exists buf, (zlen full). split; [done|]. unfold zlen in *. split.
      * split; [done|]. split; [done|]. exists rest. rewrite take_app_le by lia. done.
      * rewrite length_app. lia.
    + rewrite take_ge in Hb by (unfold zlen in *; lia). subst buf.
      destruct (put_ok size buf0 full (0 :: rest) t) as (buf' & -> & Hp); [unfold zlen in *; lia|done..|].
      rewrite bind_some. rewrite app_assoc. apply IH; [done|done|exact Hp].
Qed.

(** [op_mem_information] stays in the buffer it is given: whatever the state of the pool, the
    buffer holds the report, cut to its size, and its terminator; if the report fits, its
    length is returned. *)
Theorem op_mem_information_fits {T} (m : op_mem_info T) buf size :
  0 < size <= zlen buf -> size < W64 ->
  let report := pool_head ++ concat (report_lines m) in
  exists buf' k, op_mem_information (Some buf) size (Some m) = Some (Some buf', k)
  /\ printed size buf report buf' /\ (zlen report < size -> k = zlen report).
Proof.
  intros Hs H64 report. unfold op_mem_information. rewrite (proj2 (Z.leb_gt _ _)) by lia.
  destruct (put_ok size buf [] buf pool_head) as (b1 & Hp & H1); [change (zlen (@nil Z)) with 0; simpl; lia|done..|].
  change (zlen (@nil Z)) with 0 in Hp. simpl in Hp. rewrite Hp, bind_some.
  destruct (put_checked_ok size buf (report_lines m) ([] ++ pool_head) b1 Hs H64 H1) as (b2 & k & Hk & H2 & H3).
  simpl in Hk. rewrite Hk, bind_some. by exists b2, k.
Qed.

(** [op_mem_father_node_information] does not: when the lines of the fathers do not fit, what is
    printed behind them leaves the buffer. *)
Lemma put_overflows size buf index text :
  zlen buf < index -> put size text (buf, index) = None.
Proof.
  intros H. unfold put, snprintf_at. cbn [fst snd]. rewrite (proj2 (Z.leb_gt index (zlen buf))) by done.
  by rewrite andb_false_r.
Qed.
Lemma put_shape size text st st' :
  put size text st = Some st' -> snd st' = snd st + zlen text /\ zlen (fst st') = zlen (fst st).
Proof.
  destruct st as [buf i]. unfold put, snprintf_at. cbn [fst snd].
  destruct ((0 <=? i) && (i <=? zlen buf)) eqn:E; [|done]. apply andb_true_iff in E as [E1 E2]. btest.
  destruct (u64 (size - i) =? 0); [by intros [= <-]|]. unfold poke. case_decide as Hd; [|done]. cbn [mbind option_bind].
  intros [= <-]. cbn [fst snd]. split; [done|]. unfold zlen in *.
  rewrite length_drop in Hd. rewrite !length_app, !length_drop, length_take in *. rewrite ?length_app in *. rewrite !length_take. simpl length in *. lia.
Qed.
Definition father_lines {T} (m : op_mem_info T) (addrs : list Z) : list Z :=
  concat (omap (fun a => father_line a <$> fathers m !! a) addrs).
Lemma father_lines_cons {T} (m : op_mem_info T) a f r :
  fathers m !! a = Some f -> father_lines m (a :: r) = father_line a f ++ father_lines m r.
Proof. intros Hf. unfold father_lines. cbn [omap list_omap]. by rewrite Hf. Qed.
Lemma father_loop_shape {T} (m : op_mem_info T) size addrs : forall total used st st' t u,
  father_loop m size addrs total used st = Some (st', t, u) ->
  snd st' = snd st + zlen (father_lines m addrs) /\ zlen (fst st') = zlen (fst st).
Proof.
  induction addrs as [|a r IH]; intros total used st st' t u; cbn [father_loop].
  - intros [= -> _ _]. unfold father_lines. simpl. split; [change (zlen (@nil Z)) with 0; lia|done].
  - destruct (fathers m !! a) as [f|] eqn:Ef; [|done]. cbn [mbind option_bind].
    destruct (put size (father_line a f) st) as [st1|] eqn:Ep; [|done]. cbn [mbind option_bind].
    intros H. apply put_shape in Ep as [E1 E2]. apply IH in H as [H1 H2]. rewrite H1, H2, E1, E2. split; [|done].
    rewrite (father_lines_cons m a f r Ef). unfold zlen. rewrite length_app. lia.
Qed.
Theorem op_mem_father_node_information_overflows {T} (m : op_mem_info T) buf :
  father_node_list m <> [] -> zlen buf < zlen (father_head ++ father_lines m (father_node_list m)) ->
  op_mem_father_node_information buf (zlen buf) m = None.
Proof.
  intros Hne Hl. unfold op_mem_father_node_information.
  destruct (put (zlen buf) father_head (buf, 0)) as [st|] eqn:E; [|done]. cbn [mbind option_bind].
  apply put_shape in E as [E1 E2]. cbn [fst snd] in *.
  destruct (father_node_list m) as [|a r] eqn:Ef; [done|].
  destruct (father_loop m (zlen buf) (a :: r) 0 0 st) as [[[[b i] t] u]|] eqn:E3; [|done]. cbn [mbind option_bind].
  apply father_loop_shape in E3 as [E4 E5]. cbn [fst snd] in *.
  rewrite put_overflows; [done|]. unfold zlen in *. rewrite length_app in Hl. lia.
Qed.
End OpMemReport.
