(* ===== verification/OpMgr.v ===== *)
(** * The manager (src/src/module/opmgr/opmgr.c, opmgr_cmd.c)

    The processor usage computed from two readings of /proc/stat, its transfer through a local
    call, and the two commands of the console. A [float] is a number of the Standard Library's
    [SpecFloat] with 24 bits, a [double] one with 53; in memory it is its 32 bits. The contents
    of /proc/stat and of uninitialised arrays are arguments. A result [None] is an access
    outside an array. *)

From S2P Require Import Prelude KeyTable Bytes CString Utils OpRpc Pdu OpMem OpMemReport VtyTerm VtyWord VtyCmd VtyExec VtyFormat OpCli.
From stdpp Require Import base tactics numbers list strings.
From Stdlib Require Import ZArith Lia SpecFloat.
Open Scope Z_scope.

Module OpMgr.
Import Utils Pdu OpMemReport VtyTerm VtyWord VtyCmd VtyExec VtyFormat OpCli.

(** ** float and double *)

Notation float := spec_float.
Definition round32 (n e : Z) : float := binary_normalize 24 128 n e false.
Definition round64 (n e : Z) : float := binary_normalize 53 1024 n e false.
(** The same number with the other precision. *)
Definition convert (norm : Z -> Z -> float) (f : float) : float :=
  match f with S754_finite s m e => norm (if s then Z.neg m else Z.pos m) e | f => f end.
(** [(a - b) / total * 100.0] for [unsigned int] [a], [b] and [float] [total], with the product
    a [double]. *)
Definition percent (x total : float) : float :=
  convert round32 (SFmul 53 1024 (convert round64 (SFdiv 24 128 x total)) (round64 100 0)).
Definition share (a b : Z) (total : float) : float := percent (round32 (u32 (a - b)) 0) total.

(** ** Readings of /proc/stat *)

Record proc_cpu_info := Proc {
  p_name : list Z;
  p_user : Z; p_nice : Z; p_system : Z; p_idle : Z; p_iowait : Z; p_irq : Z; p_softirq : Z;
  p_steal : Z; p_guest : Z
}.
Definition CPU_NAME_SIZE : Z := 64.
Definition sizeof_proc_cpu_info : Z := 100.

(** [fgets(buf, k + 1, file)]: at most [k] characters, up to the end of the line. *)
Fixpoint fgets (k : nat) (file : list Z) : list Z * list Z :=
  match k, file with
  | S k, c :: r => if c =? 10 then ([c], r) else let '(l, r) := fgets k r in (c :: l, r)
  | _, _ => ([], file)
  end.

(** The conversions [%u] of [sscanf], at most [n], up to the first that fails. *)
Fixpoint scan_counts (n : nat) (s : list Z) : list Z :=
  match n with
  | O => []
  | S n =>
      let s := snd (span isspace s) in
      let '(v, rest) := strtoul s in
      if bool_decide (rest = s) then [] else u32 v :: scan_counts n rest
  end.
Definition set_counts (i : proc_cpu_info) (name : list Z) (cs : list Z) : proc_cpu_info :=
  let at_ k old := default old (cs !! k) in
  Proc name (at_ 0%nat (p_user i)) (at_ 1%nat (p_nice i)) (at_ 2%nat (p_system i)) (at_ 3%nat (p_idle i))
       (at_ 4%nat (p_iowait i)) (at_ 5%nat (p_irq i)) (at_ 6%nat (p_softirq i)) (at_ 7%nat (p_steal i))
       (at_ 8%nat (p_guest i)).
(** [sscanf(buf, "%s %u ...", ...)]: the number of conversions and the entry behind them. *)
Definition sscanf_cpu (line : list Z) (i : proc_cpu_info) : option (Z * proc_cpu_info) :=
  let '(word, rest) := span (fun c => negb (isspace c)) (snd (span isspace line)) in
  match word with
  | [] => Some (-1, i)
  | _ =>
      name ← poke (p_name i) (word ++ [0]);
      let cs := scan_counts 9 rest in
      Some (1 + zlen cs, set_counts i name cs)
  end.

(** The loop of [_get_cpu_info] from line [i] on, [n] lines; a line that cannot be read ends it. *)
Fixpoint cpu_lines (n i : nat) (file : list Z) (info : list proc_cpu_info) : option (list proc_cpu_info) :=
  match n with
  | O => Some info
  | S n =>
      match file with
      | [] => Some info
      | _ =>
          let '(line, file) := fgets 127 file in
          e ← info !! i;
          '(ret, e) ← sscanf_cpu (cstr (line ++ [0])) e;
          let info := <[i := e]> info in
          if negb (ret =? 10) then Some info else cpu_lines n (S i) file info
      end
  end.
(** [file]: what the pipe gives, if [popen] succeeds. *)
Definition _get_cpu_info (file : option (list Z)) (info : list proc_cpu_info) (cpu_num : Z)
    : option (list proc_cpu_info) :=
  match file with
  | None => Some info
  | Some f => cpu_lines (Z.to_nat (cpu_num + 1)) 0 f info
  end.

(** ** Usage *)

Record cpu_info_usage := Usage {
  cpu_name : list Z;
  user : float; nice : float; system : float; idle : float; iowait : float; irq : float;
  softirq : float; steal : float; guest : float; cpu_use : float
}.
Definition MAX_CPU_CORE : Z := 64.
(** [struct cpu_info], whose array has [MAX_CPU_CORE + 1] entries. *)
Record cpu_info := CpuInfo { cpu_num : Z; usage : list cpu_info_usage }.

Definition ticks (i : proc_cpu_info) : Z :=
  u32 (p_user i + p_nice i + p_system i + p_idle i + p_iowait i + p_irq i + p_softirq i + p_steal i + p_guest i).
Definition usage_of (pre after : proc_cpu_info) (u : cpu_info_usage) : option cpu_info_usage :=
  let total := convert round32 (SFmul 53 1024 (round64 (u32 (ticks after - ticks pre)) 0) (round64 1 0)) in
  src ← read_cstr (p_name pre);
  '(name, _) ← op_strlcpy (Some (cpu_name u)) (Some src) CPU_NAME_SIZE;
  name ← name;
  Some (Usage name
    (share (p_user after) (p_user pre) total) (share (p_nice after) (p_nice pre) total)
    (share (p_system after) (p_system pre) total) (idle u) (share (p_iowait after) (p_iowait pre) total)
    (share (p_irq after) (p_irq pre) total) (share (p_softirq after) (p_softirq pre) total)
    (share (p_steal after) (p_steal pre) total) (share (p_guest after) (p_guest pre) total)
    (percent (SFsub 24 128 total (round32 (u32 (p_idle after - p_idle pre)) 0)) total)).

(** The loop over the processors from [i] on, [n] of them. *)
Fixpoint usage_loop (n i : nat) (pre after : list proc_cpu_info) (us : list cpu_info_usage)
    : option (list cpu_info_usage) :=
  match n with
  | O => Some us
  | S n =>
      p ← pre !! i; a ← after !! i; u ← us !! i;
      u ← usage_of p a u;
      usage_loop n (S i) pre after (<[i := u]> us)
  end.

(** [stat1], [stat2]: the two readings, half a second apart; [raw1], [raw2]: what the arrays on
    the stack, of [cpu_num + 1] entries, hold before. *)
Definition _get_cpu_info_by_file (stat1 stat2 : option (list Z)) (raw1 raw2 : list proc_cpu_info)
    (us : list cpu_info_usage) (cpu_num : Z) : option (Z * list cpu_info_usage) :=
  let buf_size := s32 (sizeof_proc_cpu_info * cpu_num + 1) in
  if 4096 <? 2 * buf_size then Some (-1, us)
  else
    pre ← _get_cpu_info stat1 raw1 cpu_num;
    after ← _get_cpu_info stat2 raw2 cpu_num;
    us ← usage_loop (Z.to_nat (cpu_num + 1)) 0 pre after us;
    Some (0, us).

(** The timer, every two seconds. *)
Definition _mgr_cpu_usage_period (stat1 stat2 : option (list Z)) (raw1 raw2 : list proc_cpu_info)
    (info : cpu_info) : option cpu_info :=
  '(_, us) ← _get_cpu_info_by_file stat1 stat2 raw1 raw2 (usage info) (cpu_num info);
  Some (CpuInfo (cpu_num info) us).

(** The part of [opmgr_init] that sets up the usage: [procs] is [get_nprocs()]. *)
Definition cpu_usage_init (procs : Z) (stat1 stat2 : option (list Z)) (raw1 raw2 : list proc_cpu_info)
    (info : cpu_info) : option cpu_info :=
  let n := if MAX_CPU_CORE <? procs then MAX_CPU_CORE else procs in
  '(_, us) ← _get_cpu_info_by_file stat1 stat2 raw1 raw2 (usage info) n;
  Some (CpuInfo n us).

(** ** The usage in memory *)

(** The 32 bits of a float; the NaN is the one the processor makes. *)
Definition float_bits (f : float) : Z :=
  let sign (s : bool) := if s then 2147483648 else 0 in
  match f with
  | S754_zero s => sign s
  | S754_infinity s => sign s + 2139095040
  | S754_nan => 4290772992
  | S754_finite s m e =>
      sign s + (if Z.pos m <? 8388608 then Z.pos m else (e + 150) * 8388608 + (Z.pos m - 8388608))
  end.
Definition usage_bytes (u : cpu_info_usage) : list Z :=
  cpu_name u ++ concat (le32 <$> (float_bits <$>
    [user u; nice u; system u; idle u; iowait u; irq u; softirq u; steal u; guest u; cpu_use u])).
Definition sizeof_usage : Z := 104.
Definition sizeof_cpu_info : Z := 6764.
Definition cpu_info_bytes (i : cpu_info) : list Z := le32 (u32 (cpu_num i)) ++ concat (usage_bytes <$> usage i).

(** ** The handlers *)

Section Handlers.
Context {T : Type}.

(** What the handlers read: the usage and the pool. *)
Record world := World { w_cpu : cpu_info; w_pool : option (OpMem.op_mem_info T) }.
(** A handler that leaves an array makes the world [None]. *)
Notation handler := (OpRpc.local_cb (option world)).

Definition bus_get_cpu_usage : handler := fun w req req_size response res_size =>
  match w with
  | None => (0, response, None)
  | Some x =>
      match memlcpy response (u32 res_size) (Some (cpu_info_bytes (w_cpu x))) sizeof_cpu_info with
      | Some (response, ret) => (ret, response, w)
      | None => (0, response, None)
      end
  end.
Definition bus_get_mem_pool_infrmation : handler := fun w req req_size response res_size =>
  match w with
  | None => (0, response, None)
  | Some x =>
      match op_mem_information response res_size (w_pool x) with
      | Some (response, ret) => (ret, response, w)
      | None => (0, response, None)
      end
  end.
(** A null response or pool is followed here. *)
Definition bus_get_mem_pool_father_node_infrmation : handler := fun w req req_size response res_size =>
  match w, response, w ≫= w_pool with
  | Some x, Some buf, Some m =>
      match op_mem_father_node_information buf res_size m with
      | Some (buf, ret) => (ret, Some buf, w)
      | None => (0, response, None)
      end
  | _, _, _ => (0, response, None)
  end.

Definition rpc_tipc_module_opserver : Z := 1001.
Definition tipc_opserver_cup_usage : Z := 1.
Definition tipc_opserver_show_mem_poll : Z := 2.
Definition tipc_opserver_show_mem_poll_father_node : Z := 5.

(** The local half of [_mgr_rpc_register]. *)
Definition _mgr_rpc_register (self : option (OpRpc.op_local_rpc (option world)))
    : option (OpRpc.op_local_rpc (option world)) :=
  let self := snd (OpRpc.op_local_register tipc_opserver_cup_usage bus_get_cpu_usage self) in
  let self := snd (OpRpc.op_local_register tipc_opserver_show_mem_poll bus_get_mem_pool_infrmation self) in
  snd (OpRpc.op_local_register tipc_opserver_show_mem_poll_father_node bus_get_mem_pool_father_node_infrmation self).

(** ** The commands *)

(** [%-<w>s]. *)
Definition padr (w : nat) (s : list Z) : list Z := s ++ replicate (w - length s) 32.
(** [%.2f] of the float with these bits. *)
Definition fmt_2f (bits : Z) : list Z :=
  let sign := if 2147483648 <=? bits then str "-" else [] in
  let e := bits / 8388608 mod 256 in
  let f := bits mod 8388608 in
  if e =? 255 then sign ++ (if f =? 0 then str "inf" else str "nan")
  else
    let m := if e =? 0 then f else f + 8388608 in
    let k := (if e =? 0 then 1 else e) - 150 in
    let n := if 0 <=? k then 100 * m * 2 ^ k else round_even (100 * m) (2 ^ (- k)) in
    sign ++ dec_digits 50 (n / 100) ++ str "." ++ [48 + n mod 100 / 10; 48 + n mod 10].

(** A field of [usage[i]] in a buffer that holds a [struct cpu_info]. *)
Definition float_at (buf : list Z) (i off : Z) : option Z :=
  of_le32 <$> slice buf (4 + sizeof_usage * i + off) 4.
Definition usage_line (buf : list Z) (i : Z) : option (list Z) :=
  name ← slice buf (4 + sizeof_usage * i) (zlen buf - (4 + sizeof_usage * i)) ≫= read_cstr;
  user ← float_at buf i 64; nice ← float_at buf i 68; system ← float_at buf i 72;
  iowait ← float_at buf i 80; steal ← float_at buf i 92; cpu_use ← float_at buf i 100;
  Some (padr 6 name ++ str "    " ++ padr 6 (fmt_2f user) ++ str "      " ++ padr 6 (fmt_2f nice) ++ str "      "
        ++ padr 7 (fmt_2f system) ++ str "      " ++ padr 7 (fmt_2f iowait) ++ str "      "
        ++ padr 6 (fmt_2f steal) ++ str "      " ++ padr 6 (fmt_2f cpu_use) ++ crlf).
Definition usage_head : list Z :=
  str "name      %user       %nice       %system      %iowait      %steal      %usage" ++ crlf.

(** The loop of the command from line [i] on, [n] lines. *)
Fixpoint usage_lines (calloc : bool) (n : nat) (i : Z) (buf : list Z) (v : vty) : option vty :=
  match n with
  | O => Some v
  | S n =>
      line ← usage_line buf i;
      v ← opcli_out calloc v line;
      usage_lines calloc n (i + 1) buf v
  end.

(** A local call with a buffer of [size] zeros, of which [size - 1] are offered. *)
Definition local_query (local : option (OpRpc.op_local_rpc (option world))) (w : world) (type size : Z)
    : option (list Z) :=
  let '(_, response, w) :=
    OpRpc.op_local_send_ex local (Some w) rpc_tipc_module_opserver type None 0
      (Some (replicate (Z.to_nat size) 0)) (size - 1) in
  _ ← w; response.

Inductive opmgr_cb := cmd_mgr_cpu_usage | cmd_mem_pool_information.

(** The two callbacks of opmgr_cmd.c; [calloc]: whether [opcli_out] gets its buffer. *)
Definition run_cmd_mgr_cpu_usage (calloc : bool) (local : option (OpRpc.op_local_rpc (option world))) (w : world)
    (v : vty) : option (Z * vty) :=
  buf ← local_query local w tipc_opserver_cup_usage 2048;
  v ← opcli_out calloc v usage_head;
  n ← of_le32 <$> slice buf 0 4;
  v ← usage_lines calloc (Z.to_nat (s32 n + 1)) 0 buf v;
  Some (0, v).
Definition run_cmd_mem_pool_information (calloc : bool) (local : option (OpRpc.op_local_rpc (option world)))
    (w : world) (v : vty) : option (Z * vty) :=
  buf ← local_query local w tipc_opserver_show_mem_poll 4096;
  text ← read_cstr buf;
  v ← opcli_out calloc v (text ++ crlf);
  Some (0, v).
Definition run_opmgr (calloc : bool) (local : option (OpRpc.op_local_rpc (option world))) (w : world)
    (cb : opmgr_cb) (argv : list word) (e : cmd_element (callback opmgr_cb)) (v : vty) : option (Z * vty) :=
  match cb with
  | cmd_mgr_cpu_usage => run_cmd_mgr_cpu_usage calloc local w v
  | cmd_mem_pool_information => run_cmd_mem_pool_information calloc local w v
  end.
End Handlers.

(** [opmgr_cmd] and its installation in the console. *)
Definition opmgr_cmd : list (list Z * list Z * callback opmgr_cb) :=
  [(str "show cpu usage", str "show" ++ [10] ++ str " cpu" ++ [10] ++ str " usage" ++ [10],
    module_cb cmd_mgr_cpu_usage);
   (str "show memory pool information",
    str "show" ++ [10] ++ str " memory " ++ [10] ++ str " pool" ++ [10] ++ str " information" ++ [10],
    module_cb cmd_mem_pool_information)].
Definition opmgr_cmd_init {T} `{!KeyTable T (node_key (M := opmgr_cb))} :=
  install_all (T := T) true node_opmgr opmgr_cmd.
End OpMgr.
