(* ===== verification/OpMgrSpec.v ===== *)
(** * The manager: its commands in the console

    What the local calls of the two commands return, that the report of the pool is printed
    whatever the state of the pool, up to how many processors the usage can be printed, and
    that the console with these commands is never stuck. *)

From S2P Require Import Prelude KeyTable Hash HashSpec Bytes CString Utils OpRpc Pdu OpMem OpMemReport Vector VtyTerm VtyTermSpec VtyWord VtyCmd VtyCmdSpec VtyExec VtyExecSpec VtyDispatch VtyFormat Vty VtySpec OpCli OpCliSpec OpMgr.
From stdpp Require Import base tactics numbers list strings.
From Stdlib Require Import ZArith Lia SpecFloat.
Import Utils Pdu OpMemReport Vector VtyTerm VtyWord VtyCmd VtyExec VtyFormat Vty OpCli OpMgr.
Open Scope Z_scope.
Open Scope opsv_scope.

(** ** Local calls *)

Section Queries.
Context {T : Type}.
Implicit Types (w : world (T := T)) (local : option (OpRpc.op_local_rpc (option (world (T := T))))).

(** The table of handlers as the manager leaves it after a start for the server's module. *)
Definition registered local : Prop :=
  local = _mgr_rpc_register (snd (OpRpc.op_local_init true 0 0 rpc_tipc_module_opserver None)).

(** A call of a type runs the handler of the type. *)
Lemma query_handler local w type size h :
  registered local ->
  (exists l, local = Some l /\ OpRpc.local_cbs l !! Z.to_nat type = Some (Some h)) -> 0 <= type < OpRpc.RPC_MAX_ELEMENT ->
  local_query local w type size
  = let '(_, response, w') := h (Some w) None 0 (Some (replicate (Z.to_nat size) 0)) (size - 1) in _ ← w'; response.
Proof.
  intros Hr (l & -> & Hh) Ht. unfold local_query, OpRpc.op_local_send_ex, OpRpc.op_local_send_common.
  assert (option_map OpRpc.local_module (Some l) = Some rpc_tipc_module_opserver) as Hm by (rewrite Hr; reflexivity).
  injection Hm as ->.
  rewrite Z.eqb_refl. cbn [negb]. rewrite (proj2 (Z.leb_gt _ _)) by lia. rewrite Hh.
  change (s32 0) with 0. by destruct (h _ _ _ _ _) as [[ret response] w'].
Qed.
Lemma query_cpu local w size :
  registered local ->
  local_query local w tipc_opserver_cup_usage size
  = let '(_, response, w') := bus_get_cpu_usage (Some w) None 0 (Some (replicate (Z.to_nat size) 0)) (size - 1) in
    _ ← w'; response.
Proof. intros Hr. apply query_handler; [done| |done]. rewrite Hr. eexists. split; reflexivity. Qed.
Lemma query_pool local w size :
  registered local ->
  local_query local w tipc_opserver_show_mem_poll size
  = let '(_, response, w') := bus_get_mem_pool_infrmation (Some w) None 0 (Some (replicate (Z.to_nat size) 0)) (size - 1) in
    _ ← w'; response.
Proof. intros Hr. apply query_handler; [done| |done]. rewrite Hr. eexists. split; reflexivity. Qed.

(** ** The report of the pool *)

Lemma read_cstr_terminated s rest : no_nul s -> read_cstr (s ++ 0 :: rest) = Some s.
Proof.
  intros Hs. unfold read_cstr. rewrite bool_decide_eq_true_2 by (apply elem_of_app; right; by left).
  by rewrite cstr_app.
Qed.
Lemma cstr_length b : zlen (cstr b) <= zlen b.
Proof.
  unfold cstr, zlen. pose proof (span_app (fun c => negb (c =? 0)) b) as H. destruct (span _ b) as [x y]. subst b.
  simpl. rewrite length_app. lia.
Qed.
Lemma opcli_out_small calloc v s : zlen s <= CLI_OUT_BUF_SIZE -> exists o, opcli_out calloc v s = Some (vty_write v o).
Proof.
  intros Hs. unfold opcli_out. destruct calloc; cbn [negb].
  - destruct (zlen s <? CLI_OUT_BUF_SIZE) eqn:E; [by exists s|]. btest. rewrite (proj2 (Z.eqb_eq _ _)) by lia. by eexists.
  - exists []. unfold vty_write. rewrite app_nil_r. by destruct v.
Qed.

Lemma pool_command_out calloc local w v m :
  registered local -> w_pool w = Some m ->
  exists o, run_cmd_mem_pool_information calloc local w v = Some (0, vty_write v o).
Proof.
  intros Hl Hw. unfold run_cmd_mem_pool_information. rewrite query_pool by done.
  unfold bus_get_mem_pool_infrmation. rewrite Hw.
  destruct (op_mem_information_fits m (replicate (Z.to_nat 4096) 0) (4096 - 1)) as (buf & k & -> & (Hlen & _ & rest & Hb) & _);
    [by vm_compute|done|].
  rewrite !bind_some. rewrite length_replicate in Hlen.
  assert (0 ∈ buf) as H0 by (rewrite Hb; apply elem_of_app; right; by left).
  unfold read_cstr. rewrite bool_decide_eq_true_2 by done. rewrite bind_some.
  destruct (opcli_out_small calloc v (cstr buf ++ crlf)) as [o Ho].
  - assert (zlen (cstr buf) <= 4094) as Hc.
    { rewrite Hb. set (full := take _ _). transitivity (zlen full).
      - unfold cstr, zlen. clear -full. induction full as [|c f IH]; simpl; [done|].
        destruct (c =? 0); simpl; [lia|]. destruct (span _ _). simpl in *. lia.
      - unfold full, zlen. rewrite length_take. lia. }
    unfold zlen in *. rewrite length_app. simpl. unfold CLI_OUT_BUF_SIZE. lia.
  - rewrite Ho. by exists o.
Qed.

(** ** The usage of the processors *)

Definition info_ok (i : cpu_info) : Prop :=
  0 <= cpu_num i <= MAX_CPU_CORE /\ length (usage i) = 65%nat
  /\ Forall (fun u => length (cpu_name u) = 64%nat) (usage i).

Lemma usage_bytes_length u : length (cpu_name u) = 64%nat -> length (usage_bytes u) = 104%nat.
Proof. intros H. unfold usage_bytes. rewrite length_app, H. reflexivity. Qed.
Lemma concat_length {A} n (ls : list (list A)) : Forall (fun l => length l = n) ls -> length (concat ls) = (length ls * n)%nat.
Proof. induction 1 as [|l ls Hl _ IH]; simpl; [done|]. rewrite length_app, Hl, IH. done. Qed.
Lemma info_bytes_length i : info_ok i -> zlen (cpu_info_bytes i) = sizeof_cpu_info.
Proof.
  intros (_ & Hl & Hn). unfold cpu_info_bytes, zlen. rewrite length_app, (concat_length 104).
  - rewrite length_fmap, Hl. reflexivity.
  - apply Forall_fmap. eapply Forall_impl; [exact Hn|]. intros u Hu. by apply usage_bytes_length.
Qed.

(** The command sees the first 2047 bytes of the structure, which has 6764. *)
Lemma query_cpu_bytes local w :
  registered local -> info_ok (w_cpu w) ->
  local_query local w tipc_opserver_cup_usage 2048 = Some (take 2047 (cpu_info_bytes (w_cpu w)) ++ [0]).
Proof.
  intros Hr Hi. rewrite query_cpu by done. unfold bus_get_cpu_usage. change (u32 (2048 - 1)) with 2047.
  pose proof (info_bytes_length _ Hi) as Hl. set (bs := cpu_info_bytes (w_cpu w)) in *. unfold memlcpy, memset0.
  change (2047 =? 0) with false. cbv iota.
  destruct (poke_ok (replicate (Z.to_nat 2048) 0) (replicate (Z.to_nat 2047) 0)) as [-> _]; [rewrite !length_replicate; lia|].
  change (if sizeof_cpu_info <? 2047 then sizeof_cpu_info else 2047) with 2047. rewrite Hl.
  change (sizeof_cpu_info <? 2047) with false. cbv iota.
  unfold zlen, sizeof_cpu_info in Hl. assert (length (take (Z.to_nat 2047) bs) = 2047%nat) as Ht by (rewrite length_take; lia).
  match goal with |- context [poke ?d _] => destruct (poke_ok d (take (Z.to_nat 2047) bs)) as [-> _] end;
    [rewrite Ht, length_app, length_drop, !length_replicate; lia|].
  rewrite Ht. cbn [mbind option_bind]. do 2 f_equal.
Qed.
Lemma query_cpu_num i : info_ok i ->
  of_le32 <$> slice (take 2047 (cpu_info_bytes i) ++ [0]) 0 4 = Some (cpu_num i).
Proof.
  intros Hi. pose proof Hi as (Hn & _). pose proof (info_bytes_length _ Hi) as Hl. unfold MAX_CPU_CORE in Hn.
  unfold slice, zlen, sizeof_cpu_info in *. rewrite length_app, length_take. cbn [andb Z.leb Z.compare].
  rewrite (proj2 (Z.leb_le (0 + 4) _)) by (simpl length; lia).
  rewrite drop_0, take_app_le, take_take by (rewrite length_take; lia). unfold cpu_info_bytes.
  rewrite take_app_le by (by vm_compute; lia). replace (take _ (le32 _)) with (le32 (u32 (cpu_num i))) by reflexivity.
  change (Some (of_le32 (le32 (u32 (cpu_num i)))) = Some (cpu_num i)). by rewrite u32_id, of_le32_le32 by lia.
Qed.

Lemma dec_digits_length f n : (length (dec_digits f n) <= f)%nat.
Proof. revert n. induction f as [|f IH]; intros n; simpl; [lia|]. case_match; simpl; [lia|]. rewrite length_app. specialize (IH (n / 10)). simpl. lia. Qed.
Lemma fmt_2f_length b : (length (fmt_2f b) <= 60)%nat.
Proof.
  unfold fmt_2f. set (sign := if 2147483648 <=? b then _ else _).
  assert (length sign <= 1)%nat as Hs by (subst sign; case_match; simpl; lia). clearbody sign.
  case_match; rewrite !length_app; [case_match; simpl; lia|].
  match goal with |- context [dec_digits 50 ?n] => pose proof (dec_digits_length 50 n) as Hd; set (x := dec_digits 50 n) in * end.
  clearbody x. simpl length. lia.
Qed.
Lemma padr_length k s n : (length s <= n)%nat -> (length (padr k s) <= n + k)%nat.
Proof. intros H. unfold padr. rewrite length_app, length_replicate. lia. Qed.

Lemma slice_some b i n : 0 <= i -> 0 <= n -> i + n <= zlen b -> exists s, slice b i n = Some s.
Proof.
  intros Hi Hn Hb. unfold slice. rewrite (proj2 (Z.leb_le 0 i)), (proj2 (Z.leb_le 0 n)), (proj2 (Z.leb_le (i + n) _)) by done.
  by eexists.
Qed.
Lemma float_at_some b i off : 0 <= i -> 0 <= off -> 4 + 104 * i + off + 4 <= zlen b -> exists x, float_at b i off = Some x.
Proof.
  intros Hi Ho Hb. unfold float_at, sizeof_usage. destruct (slice_some b (4 + 104 * i + off) 4) as [s ->]; [lia..|]. by eexists.
Qed.
(** A line can be printed when its entry is inside the buffer, and not when its last field ends
    behind it. *)
Lemma usage_line_some b i :
  zlen (b ++ [0]) = 2048 -> 0 <= i -> 4 + 104 * (i + 1) <= 2048 ->
  exists s, usage_line (b ++ [0]) i = Some s /\ zlen s <= CLI_OUT_BUF_SIZE.
Proof.
  intros Hb Hi Hlast. unfold usage_line.
  assert (exists name, slice (b ++ [0]) (4 + sizeof_usage * i) (zlen (b ++ [0]) - (4 + sizeof_usage * i)) ≫= read_cstr = Some name
          /\ zlen name <= 2048) as (name & -> & Hname).
  { unfold slice, sizeof_usage. rewrite (proj2 (Z.leb_le 0 (4 + 104 * i))), (proj2 (Z.leb_le 0 (_ - _))), (proj2 (Z.leb_le (_ + _) _)) by lia.
    cbn [andb mbind option_bind]. rewrite take_ge by (rewrite length_drop; unfold zlen in *; lia).
    unfold zlen in Hb. rewrite length_app in Hb. simpl in Hb. rewrite drop_app_le by lia.
    unfold read_cstr. rewrite bool_decide_eq_true_2 by (apply elem_of_app; right; by left). eexists. split; [done|].
    etransitivity; [apply cstr_length|]. unfold zlen. rewrite length_app, length_drop. simpl. lia. }
  rewrite bind_some.
  destruct (float_at_some (b ++ [0]) i 64) as [x1 ->]; [lia..|]. destruct (float_at_some (b ++ [0]) i 68) as [x2 ->]; [lia..|].
  destruct (float_at_some (b ++ [0]) i 72) as [x3 ->]; [lia..|]. destruct (float_at_some (b ++ [0]) i 80) as [x4 ->]; [lia..|].
  destruct (float_at_some (b ++ [0]) i 92) as [x5 ->]; [lia..|]. destruct (float_at_some (b ++ [0]) i 100) as [x6 ->]; [lia..|].
  rewrite !bind_some. eexists. split; [reflexivity|].
  assert (forall x, length (padr 6 (fmt_2f x)) <= 66)%nat as H6 by (intros x; apply (padr_length 6 (fmt_2f x) 60), fmt_2f_length).
  assert (forall x, length (padr 7 (fmt_2f x)) <= 67)%nat as H7 by (intros x; apply (padr_length 7 (fmt_2f x) 60), fmt_2f_length).
  pose proof (padr_length 6 name 2048 ltac:(unfold zlen in *; lia)) as Hn.
  pose proof (H6 x1); pose proof (H6 x2); pose proof (H7 x3); pose proof (H7 x4); pose proof (H6 x5); pose proof (H6 x6).
  set (y0 := padr 6 name) in *. set (y1 := padr 6 (fmt_2f x1)) in *. set (y2 := padr 6 (fmt_2f x2)) in *.
  set (y3 := padr 7 (fmt_2f x3)) in *. set (y4 := padr 7 (fmt_2f x4)) in *. set (y5 := padr 6 (fmt_2f x5)) in *.
  set (y6 := padr 6 (fmt_2f x6)) in *. clearbody y0 y1 y2 y3 y4 y5 y6.
  unfold zlen, CLI_OUT_BUF_SIZE. rewrite !length_app. simpl length. lia.
Qed.
Lemma usage_line_none b i : 0 <= i -> zlen b < 4 + 104 * (i + 1) -> usage_line b i = None.
Proof.
  intros Hi Hb. unfold usage_line. assert (float_at b i 100 = None) as ->.
  { unfold float_at, slice, sizeof_usage. rewrite (proj2 (Z.leb_gt (4 + 104 * i + 100 + 4) _)) by lia. by rewrite andb_false_r. }
  repeat match goal with |- context [?x ≫= _] => destruct x; [cbn [mbind option_bind]|done] end; done.
Qed.

Lemma usage_lines_some calloc b n : forall i v,
  zlen (b ++ [0]) = 2048 -> 0 <= i -> 4 + 104 * (i + Z.of_nat n) <= 2048 ->
  exists o, usage_lines calloc n i (b ++ [0]) v = Some (vty_write v o).
Proof.
  induction n as [|n IH]; intros i v Hb Hi Hn; cbn [usage_lines].
  - exists []. unfold vty_write. rewrite app_nil_r. by destruct v.
  - destruct (usage_line_some b i Hb Hi ltac:(lia)) as (s & -> & Hs). rewrite bind_some.
    destruct (opcli_out_small calloc v s Hs) as [o1 ->]. rewrite bind_some.
    destruct (IH (i + 1) (vty_write v o1)) as [o2 ->]; [done|lia|lia|].
    exists (o1 ++ o2). unfold vty_write, set_out. by destruct v; simpl; rewrite app_assoc.
Qed.
Lemma usage_lines_none calloc b n : forall i v j,
  0 <= i <= j -> j < i + Z.of_nat n -> usage_line b j = None -> usage_lines calloc n i b v = None.
Proof.
  induction n as [|n IH]; intros i v j Hi Hj Hl; [lia|]. cbn [usage_lines].
  destruct (decide (i = j)) as [->|Hne]; [by rewrite Hl|].
  destruct (usage_line b i); [|done]. rewrite bind_some. destruct (opcli_out calloc v _); [|done]. rewrite bind_some.
  apply (IH (i + 1) _ j); [lia|lia|done].
Qed.

(** [show cpu usage]: with at most 18 processors the command prints and returns; from 19 on it
    reads behind its buffer. *)
Lemma cpu_command_out calloc local w v :
  registered local -> info_ok (w_cpu w) ->
  if cpu_num (w_cpu w) <? 19 then exists o, run_cmd_mgr_cpu_usage calloc local w v = Some (0, vty_write v o)
  else run_cmd_mgr_cpu_usage calloc local w v = None.
Proof.
  intros Hr Hi. unfold run_cmd_mgr_cpu_usage. rewrite (query_cpu_bytes local w Hr Hi), bind_some.
  destruct (opcli_out_small calloc v usage_head) as [o1 ->]; [by vm_compute|]. rewrite bind_some, (query_cpu_num _ Hi), bind_some.
  assert (zlen (take 2047 (cpu_info_bytes (w_cpu w)) ++ [0]) = 2048) as Hb.
  { pose proof (info_bytes_length _ Hi) as Hl. unfold zlen, sizeof_cpu_info in *. rewrite length_app, length_take. change (length [0]) with 1%nat. lia. }
  pose proof Hi as (Hn & _). unfold MAX_CPU_CORE in Hn. rewrite s32_id by lia.
  destruct (cpu_num (w_cpu w) <? 19) eqn:E; btest.
  - destruct (usage_lines_some calloc (take 2047 (cpu_info_bytes (w_cpu w))) (Z.to_nat (cpu_num (w_cpu w) + 1)) 0 (vty_write v o1) Hb)
      as [o2 ->]; [lia|lia|]. exists (o1 ++ o2). unfold vty_write, set_out. by destruct v; simpl; rewrite app_assoc.
  - rewrite (usage_lines_none calloc _ _ 0 _ 19); [done|lia|lia|]. apply usage_line_none; lia.
Qed.
End Queries.

(** ** The console with the manager *)

Section Console.
Context {P T : Type} `{!KeyTable T (node_key (M := opmgr_cb)), !KeyTableLaws T (node_key (M := opmgr_cb))}.
Implicit Types (w : world (T := P)) (local : option (OpRpc.op_local_rpc (option (world (T := P)))))
  (self : _opcli_struct (M := opmgr_cb) (T := T)).

(** What the commands of the manager need: the pool is there, and there are not more processors
    than the buffer of the command takes. *)
Definition manager_ok local w : Prop :=
  registered local /\ info_ok (w_cpu w) /\ cpu_num (w_cpu w) <= 18 /\ is_Some (w_pool w).

Lemma manager_modules_ok calloc local w : manager_ok local w -> modules_ok (run_opmgr calloc local w).
Proof.
  intros (Hr & Hi & Hn & [m Hp]) cmdvec cb argv e v Hs _ _. destruct cb; cbn [run_opmgr].
  - pose proof (cpu_command_out calloc local w v Hr Hi) as H. rewrite (proj2 (Z.ltb_lt _ _)) in H by lia.
    destruct H as [o ->]. apply safe_some. split; [by apply session_write|done].
  - destruct (pool_command_out calloc local w v m Hr Hp) as [o ->]. apply safe_some. split; [by apply session_write|done].
Qed.

Definition manager_commands : list (cmd_element (callback opmgr_cb)) :=
  default_commands 2 ++ (parse_entry 2 <$> opmgr_cmd).
Lemma manager_literal : Forall literal manager_commands.
Proof. vm_compute. repeat constructor. Qed.
Lemma manager_entries_ok : Forall entry_ok opmgr_cmd.
Proof.
  apply Forall_cons; split; [|apply Forall_singleton]; (eexists; split; [vm_compute; reflexivity|]);
    (split; [|by vm_compute]); repeat constructor; try done; by intros ? [= <-].
Qed.

Lemma manager_install self :
  started self ->
  exists self', opmgr_cmd_init self = Some self' /\ nodes_ok 4 self' /\ commands self' 2 = manager_commands.
Proof.
  intros [Hok Hc]. destruct (install_all_spec 4 2 opmgr_cmd self Hok) as (self' & Hi & Hok' & Hc').
  - lia.
  - apply manager_entries_ok.
  - by apply (bool_decide_unpack _); vm_compute.
  - intros x Hx. rewrite (Hc 2%nat) by lia. apply (bool_decide_unpack _).
    repeat (apply elem_of_cons in Hx as [->|Hx]; [by vm_compute|]). by apply elem_of_nil in Hx.
  - rewrite (Hc 2%nat) by lia. by vm_compute.
  - exists self'. split; [exact Hi|]. split; [done|]. rewrite Hc'. cbn [Nat.eqb]. by rewrite (Hc 2%nat) by lia.
Qed.

(** The callback a line runs, and the lines of the two commands. *)
Definition picks (l : list (list Z)) : option (callback opmgr_cb) :=
  match dispatch l manager_commands with inr (e, _) => Some (el_cb e) | inl _ => None end.
Lemma picks_cpu : picks (str <$> ["show"; "cpu"; "usage"]%string) = Some (module_cb cmd_mgr_cpu_usage).
Proof. vm_compute. reflexivity. Qed.
Lemma picks_pool :
  picks (str <$> ["show"; "memory"; "pool"; "information"]%string) = Some (module_cb cmd_mem_pool_information).
Proof. vm_compute. reflexivity. Qed.
Lemma manager_runs inet_pton6 run_module self v l cb :
  nodes_ok 4 self -> commands self 2 = manager_commands -> node v = node_opmgr ->
  Forall (fun x => x <> []) l -> picks l = Some (module_cb cb) -> Z.of_nat (length l) <= UINT_MAX ->
  exists argv e, cmd_execute_command_real inet_pton6 (cmdvec self) (run_cb run_module (cmdvec self)) (Some <$> l) FILTER_RELAXED v
  = run_module cb argv e v.
Proof.
  intros Hok Hc Hn Hl Hd Hlen. destruct (node_slot self (node v) Hok) as (t & n & Hslot & Hno & Hcm); [rewrite Hn; by vm_compute|].
  rewrite Hn in Hcm. change (Z.to_nat node_opmgr) with 2%nat in Hcm. rewrite Hc in Hcm.
  rewrite (execute_dispatch inet_pton6 (cmdvec self) _ l v (cn_vector n)); [|unfold cmd_node_vector; by rewrite Hslot| |done|done].
  - rewrite Hcm. unfold picks in Hd. destruct (dispatch l manager_commands) as [|[e argv]]; [done|]. injection Hd as Hd.
    exists argv, e. by rewrite Hd.
  - intros x Hx. pose proof manager_literal as Hlit. rewrite <- Hcm, Forall_forall in Hlit. apply Hlit.
    apply list_elem_of_omap. by exists (Some x).
Qed.

(** C29. The console with the manager. After the start of the console and of the manager the
    node of the manager has the two commands of opmgr_cmd.c, and the lines [show cpu usage] and
    [show memory pool information] run them. With at most 18 processors, whatever the usage and
    the state of the pool are, every event of the console (installations, connections, input) is
    handled and keeps the nodes, their tables and the sessions well formed: both commands return.
    This discharges what the console asks of the callbacks of a module. *)
Theorem manager_console_safe inet_pton6 tables self :
  length tables = 4%nat -> Forall (fun o => exists t : T, o = Some t /\ kt_wf t /\ kt_items t = []) tables ->
  opcli_node_init true tables opcli_new = Some (0, self) ->
  (exists self', opmgr_cmd_init self = Some self' /\ server_ok (Server self' [])
     /\ forall run_module v, node v = node_opmgr ->
        let run := fun l v => cmd_execute_command_real inet_pton6 (cmdvec self') (run_cb run_module (cmdvec self'))
                                (Some <$> (str <$> l)) FILTER_RELAXED v in
        (exists argv e, run ["show"; "cpu"; "usage"]%string v = run_module cmd_mgr_cpu_usage argv e v)
        /\ exists argv e, run ["show"; "memory"; "pool"; "information"]%string v = run_module cmd_mem_pool_information argv e v)
  /\ forall calloc local w s ev, manager_ok local w -> server_ok (M := opmgr_cb) (T := T) s -> admissible ev s ->
     exists s', handle inet_pton6 (run_opmgr calloc local w) ev s = Some s' /\ server_ok s'.
Proof.
  intros Hl Ht Hi. destruct (opcli_init_spec tables Hl Ht) as (self0 & Hi' & Hok & Hc). rewrite Hi in Hi'. injection Hi' as <-.
  assert (started self) as Hst by (split; [done|]; intros j Hj; rewrite Hc; by rewrite (proj2 (Nat.ltb_lt j 4))). split.
  - destruct (manager_install self Hst) as (self' & Hm & Hok' & Hc'). exists self'. split; [done|]. split; [by split|].
    intros run_module v Hn run.
    split; (eapply manager_runs; [done|done|done| |apply picks_cpu || apply picks_pool|by vm_compute]);
      repeat (apply Forall_cons; split; [discriminate|]); apply Forall_nil; done.
  - intros calloc local w s ev Hm Hs Ha. apply handle_ok; [by apply manager_modules_ok|done|done].
Qed.
End Console.

(** ** Limits of the usage *)

(** From 21 processors on the usage is never computed. *)
Lemma usage_not_computed stat1 stat2 raw1 raw2 us n :
  20 < n <= MAX_CPU_CORE -> _get_cpu_info_by_file stat1 stat2 raw1 raw2 us n = Some (-1, us).
Proof.
  intros Hn. unfold MAX_CPU_CORE in Hn. unfold _get_cpu_info_by_file, sizeof_proc_cpu_info. rewrite s32_id by lia.
  by rewrite (proj2 (Z.ltb_lt _ _)) by lia.
Qed.
(** From 19 processors on the command reads behind its buffer. *)
Lemma cpu_command_overreads {P} calloc local (w : world (T := P)) v :
  registered local -> info_ok (w_cpu w) -> 19 <= cpu_num (w_cpu w) ->
  run_cmd_mgr_cpu_usage calloc local w v = None.
Proof.
  intros Hr Hi Hn. pose proof (cpu_command_out calloc local w v Hr Hi) as H.
  by rewrite (proj2 (Z.ltb_ge _ _)) in H by lia.
Qed.
(** Two equal readings make a usage that is not a number. *)
Lemma idle_usage_nan i u u' : usage_of i i u = Some u' -> cpu_use u' = S754_nan /\ user u' = S754_nan.
Proof.
  unfold usage_of, share. rewrite !Z.sub_diag. change (u32 0) with 0.
  destruct (read_cstr (p_name i)); [|done]. cbn [mbind option_bind].
  destruct (op_strlcpy _ _ _) as [[[name|] k]|]; [|done..]. cbn [mbind option_bind]. by intros [= <-].
Qed.

(** ** A concrete console *)

Notation mgr_table := (OpHash.op_hash_st (cmd_element (callback opmgr_cb))).
Definition mgr_hash : option mgr_table := OpHash.op_hash_new (Some node_hash) (Some node_compare) true true.
#[local] Instance mgr_key_table : KeyTable mgr_table node_key := op_hash_key_table node_key serving.
#[local] Instance mgr_key_laws : KeyTableLaws mgr_table node_key :=
  op_hash_key_table_laws node_key serving serving_ptrdiff serving_small.
Definition mgr_tables : list (option mgr_table) := replicate 4 mgr_hash.
Lemma mgr_tables_ok : Forall (fun o => exists t, o = Some t /\ kt_wf t /\ kt_items t = []) mgr_tables.
Proof.
  apply Forall_replicate. destruct mgr_hash as [t|] eqn:E; [|done]. exists t. split; [done|].
  destruct (wf_new 2048 1024 node_key ltac:(lia) ltac:(lia) node_hash node_compare t _ E) as (Hwf & Hi & _).
  by split.
Qed.
Definition mgr_world : world (T := unit) :=
  World (CpuInfo 4 (replicate 65 (Usage (replicate 64 0) S754_nan S754_nan S754_nan S754_nan S754_nan S754_nan
                                     S754_nan S754_nan S754_nan S754_nan)))
        (Some (OpMem.OpMemInfo tt (OpMem.OpMemStatistic 0 0 0 0 0 0) [] ∅ [] (fun _ => 0) [])).
Definition mgr_local : option (OpRpc.op_local_rpc (option (world (T := unit)))) :=
  _mgr_rpc_register (snd (OpRpc.op_local_init true 0 0 rpc_tipc_module_opserver None)).

(** The start, and a client that connects. *)
Definition mgr_accepted : job_env := JobEnv 7 true true [true; true; true; true] 0 0 true.
Lemma manager_console_safe_witness :
  exists self self', opcli_node_init true mgr_tables opcli_new = Some (0, self) /\ opmgr_cmd_init self = Some self'
  /\ exists s', handle (fun _ => false) (run_opmgr true mgr_local mgr_world) (Connect mgr_accepted) (Server self' []) = Some s'.
Proof.
  destruct (opcli_init_spec mgr_tables eq_refl mgr_tables_ok) as (self & Hi & _ & _).
  destruct (manager_console_safe (P := unit) (fun _ => false) mgr_tables self eq_refl mgr_tables_ok Hi)
    as [(self' & Hm & Hs & _) Hstep].
  exists self, self'. split; [exact Hi|]. split; [exact Hm|].
  destruct (Hstep true mgr_local mgr_world (Server self' []) (Connect mgr_accepted)) as (s' & Hs' & _).
  - split; [reflexivity|]. split; [|split; [discriminate|eexists; reflexivity]].
    split; [split; discriminate|]. split; [reflexivity|]. apply Forall_replicate. reflexivity.
  - exact Hs.
  - exact I.
  - exists s'. exact Hs'.
Defined.
