(* ===== verification/ULoop.v ===== *)
(** * The event loop (src/src/opbox/uloop.c, uloop.h; the epoll variant)

    Timers, child processes and descriptors, the loop that serves them, and the signal handlers
    that wake it. A structure of a client is known by its address; [None] is an access to a
    structure that is not there (never allocated, or freed) or outside the array of fetched
    events. Callbacks run client code, which calls the operations of the loop, runs the loop
    again, or returns: the functions that call a callback are frames on a stack of control, and
    [step] runs the frame on top with one input, which is what the system answers or what the
    client does next. *)

From S2P Require Import Prelude.
From stdpp Require Import base tactics numbers list gmap.
From Stdlib Require Import ZArith Lia.
Open Scope Z_scope.

Module ULoop.

(** ** Timers *)

Record timeval := Tv { tv_sec : Z; tv_usec : Z }.
(** The fields [pending], [cb] (whether there is one) and [time] of a [struct uloop_timeout]. *)
Record uloop_timeout := Timeout { t_pending : bool; t_cb : bool; t_time : timeval }.
(** The list [timeouts], by address, and the structures of the clients. *)
Record timers := Timers { timeouts : list Z; t_obj : gmap Z uloop_timeout }.

Definition tv_diff (t1 t2 : timeval) : Z :=
  s32 ((tv_sec t1 - tv_sec t2) * 1000 + Z.quot (tv_usec t1 - tv_usec t2) 1000).

(** The list with [p] in front of the first timer that is due after [time]. *)
Fixpoint insert_timeout (obj : gmap Z uloop_timeout) (p : Z) (time : timeval) (l : list Z)
    : option (list Z) :=
  match l with
  | [] => Some [p]
  | tmp :: r =>
      t ← obj !! tmp;
      if 0 <? tv_diff (t_time t) time then Some (p :: tmp :: r)
      else r' ← insert_timeout obj p time r; Some (tmp :: r')
  end.

Definition uloop_timeout_add (p : Z) (ts : timers) : option (Z * timers) :=
  t ← t_obj ts !! p;
  if t_pending t then Some (-1, ts)
  else
    l ← insert_timeout (t_obj ts) p (t_time t) (timeouts ts);
    Some (0, Timers l (<[p := Timeout true (t_cb t) (t_time t)]> (t_obj ts))).

Definition uloop_timeout_cancel (p : Z) (ts : timers) : option (Z * timers) :=
  t ← t_obj ts !! p;
  if t_pending t then
    Some (0, Timers (filter (.≠ p) (timeouts ts))
                    (<[p := Timeout false (t_cb t) (t_time t)]> (t_obj ts)))
  else Some (-1, ts).

(** [now] with [msecs] added, the microseconds brought back below or at one second. *)
Definition after (now : timeval) (msecs : Z) : timeval :=
  let sec := tv_sec now + Z.quot msecs 1000 in
  let usec := tv_usec now + Z.rem msecs 1000 * 1000 in
  if 1000000 <? usec then Tv (sec + 1) (usec - 1000000) else Tv sec usec.

(** [now] is what [uloop_gettime] reads. *)
Definition uloop_timeout_set (now : timeval) (p msecs : Z) (ts : timers) : option (Z * timers) :=
  t ← t_obj ts !! p;
  ts ← (if t_pending t then snd <$> uloop_timeout_cancel p ts else Some ts);
  t ← t_obj ts !! p;
  uloop_timeout_add p
    (Timers (timeouts ts) (<[p := Timeout (t_pending t) (t_cb t) (after now msecs)]> (t_obj ts))).

Definition uloop_timeout_remaining (now : timeval) (p : Z) (ts : timers) : option Z :=
  t ← t_obj ts !! p;
  if t_pending t then Some (tv_diff (t_time t) now) else Some (-1).

Definition uloop_get_next_timeout (tv : timeval) (ts : timers) : option Z :=
  match timeouts ts with
  | [] => Some (-1)
  | p :: _ =>
      t ← t_obj ts !! p;
      let diff := tv_diff (t_time t) tv in
      Some (if diff <? 0 then 0 else diff)
  end.

(** Each timer of the list is cancelled; the next one was read before. *)
Fixpoint clear_timeouts_loop (l : list Z) (ts : timers) : option timers :=
  match l with
  | [] => Some ts
  | p :: r => '(_, ts) ← uloop_timeout_cancel p ts; clear_timeouts_loop r ts
  end.
Definition uloop_clear_timeouts (ts : timers) : option timers := clear_timeouts_loop (timeouts ts) ts.

(** ** Processes *)

Record uloop_process := Process { p_pending : bool; p_pid : Z }.
Record procs := Procs { processes : list Z; p_obj : gmap Z uloop_process }.

Fixpoint insert_process (obj : gmap Z uloop_process) (p pid : Z) (l : list Z) : option (list Z) :=
  match l with
  | [] => Some [p]
  | tmp :: r =>
      q ← obj !! tmp;
      if pid <? p_pid q then Some (p :: tmp :: r)
      else r' ← insert_process obj p pid r; Some (tmp :: r')
  end.

Definition uloop_process_add (p : Z) (ps : procs) : option (Z * procs) :=
  q ← p_obj ps !! p;
  if p_pending q then Some (-1, ps)
  else
    l ← insert_process (p_obj ps) p (p_pid q) (processes ps);
    Some (0, Procs l (<[p := Process true (p_pid q)]> (p_obj ps))).

Definition uloop_process_delete (p : Z) (ps : procs) : option (Z * procs) :=
  q ← p_obj ps !! p;
  if p_pending q then
    Some (0, Procs (filter (.≠ p) (processes ps)) (<[p := Process false (p_pid q)]> (p_obj ps)))
  else Some (-1, ps).

Fixpoint clear_processes_loop (l : list Z) (ps : procs) : option procs :=
  match l with
  | [] => Some ps
  | p :: r => '(_, ps) ← uloop_process_delete p ps; clear_processes_loop r ps
  end.
Definition uloop_clear_processes (ps : procs) : option procs := clear_processes_loop (processes ps) ps.

(** What the field [next] of a process leads to: the process after it, the head of the list
    ([HEAD]), or nothing ([NIL]) for one that is not in the list. *)
Definition HEAD : Z := 0.
Definition NIL : Z := -1.
Fixpoint next_process (p : Z) (l : list Z) : Z :=
  match l with
  | [] => NIL
  | q :: r => if q =? p then default HEAD (head r) else next_process p r
  end.

(** ** Descriptors *)

Definition ULOOP_READ : Z := 1.
Definition ULOOP_WRITE : Z := 2.
Definition ULOOP_EDGE_TRIGGER : Z := 4.
Definition ULOOP_BLOCKING : Z := 8.
Definition ULOOP_EVENT_BUFFERED : Z := 16.
Definition ULOOP_ERROR_CB : Z := 64.
Definition ULOOP_EVENT_MASK : Z := Z.lor ULOOP_READ ULOOP_WRITE.
Definition ULOOP_MAX_EVENTS : Z := 10.
Definition EPOLLIN : Z := 1.
Definition EPOLLOUT : Z := 4.
Definition EPOLLERR : Z := 8.
Definition EPOLLHUP : Z := 16.
Definition EPOLLRDHUP : Z := 8192.
Definition EPOLLET : Z := 2147483648.
(** [x & mask] as a condition. *)
Definition has (x mask : Z) : bool := negb (Z.land x mask =? 0).

(** The fields of a [struct uloop_fd]; [f_cb]: it has a callback. *)
Record uloop_fd := Fd { f_cb : bool; f_fd : Z; eof : bool; error : bool; registered : bool; flags : Z }.

(** The descriptors of the clients; the kernel's side: what [poll_fd] watches (the address and
    the events given for a descriptor) and which descriptors do not block; the fetched events
    [cur_fds] (the address, 0 for none, and the events), of which those from [cur_fd] on,
    [cur_nfds] of them, are still to be handled; and the frames [fd_stack] of the callbacks that
    are running, the innermost first. *)
Record fds := Fds {
  f_obj : gmap Z uloop_fd;
  poll_fd : Z; ep : gmap Z (Z * Z); nonblock : gset Z;
  cur_fds : list (Z * Z); cur_fd : Z; cur_nfds : Z;
  fd_stack : list (Z * Z)
}.
Definition with_obj (f : gmap Z uloop_fd -> gmap Z uloop_fd) (e : fds) : fds :=
  Fds (f (f_obj e)) (poll_fd e) (ep e) (nonblock e) (cur_fds e) (cur_fd e) (cur_nfds e) (fd_stack e).
Definition with_ep (k : gmap Z (Z * Z)) (e : fds) : fds :=
  Fds (f_obj e) (poll_fd e) k (nonblock e) (cur_fds e) (cur_fd e) (cur_nfds e) (fd_stack e).
Definition with_poll (fd : Z) (k : gmap Z (Z * Z)) (e : fds) : fds :=
  Fds (f_obj e) fd k (nonblock e) (cur_fds e) (cur_fd e) (cur_nfds e) (fd_stack e).
Definition with_nonblock (n : gset Z) (e : fds) : fds :=
  Fds (f_obj e) (poll_fd e) (ep e) n (cur_fds e) (cur_fd e) (cur_nfds e) (fd_stack e).
Definition with_cur (c : list (Z * Z)) (i n : Z) (e : fds) : fds :=
  Fds (f_obj e) (poll_fd e) (ep e) (nonblock e) c i n (fd_stack e).
Definition with_stack (s : list (Z * Z)) (e : fds) : fds :=
  Fds (f_obj e) (poll_fd e) (ep e) (nonblock e) (cur_fds e) (cur_fd e) (cur_nfds e) s.

Definition poll_events (fl : Z) : Z :=
  Z.lor (Z.lor (if has fl ULOOP_READ then Z.lor EPOLLIN EPOLLRDHUP else 0)
               (if has fl ULOOP_WRITE then EPOLLOUT else 0))
        (if has fl ULOOP_EDGE_TRIGGER then EPOLLET else 0).

(** [r] is the answer of [epoll_ctl] to an addition or modification. *)
Definition register_poll (r p fl : Z) (e : fds) : option (Z * fds) :=
  f ← f_obj e !! p;
  let e := with_obj (insert p (Fd (f_cb f) (f_fd f) (eof f) (error f) (registered f) (u8 fl))) e in
  Some (r, if r <? 0 then e else with_ep (<[f_fd f := (p, poll_events fl)]> (ep e)) e).

(** Afterwards the kernel does not watch the descriptor: [epoll_ctl] refuses [EPOLL_CTL_DEL]
    only where it does not. *)
Definition __uloop_fd_delete (r p : Z) (e : fds) : option (Z * fds) :=
  f ← f_obj e !! p;
  let e := with_obj (insert p (Fd (f_cb f) (f_fd f) (eof f) (error f) (registered f) 0)) e in
  Some (r, with_ep (delete (f_fd f) (ep e)) e).

(** The first frame of [p]: its descriptor is cleared where [events] is negative, otherwise the
    events are added to it. *)
Fixpoint stack_event (p events : Z) (s : list (Z * Z)) : bool * list (Z * Z) :=
  match s with
  | [] => (false, [])
  | (q, ev) :: r =>
      if q =? p then
        (true, (if events <? 0 then (0, ev) else (q, Z.lor ev (Z.lor events ULOOP_EVENT_BUFFERED))) :: r)
      else let '(b, r) := stack_event p events r in (b, (q, ev) :: r)
  end.
Definition uloop_fd_stack_event (p events : Z) (e : fds) : option (bool * fds) :=
  f ← f_obj e !! p;
  if negb (has (flags f) ULOOP_EDGE_TRIGGER) then Some (false, e)
  else let '(b, s) := stack_event p events (fd_stack e) in Some (b, with_stack s e).

(** The events still to be handled that are for [p] lose their descriptor. *)
Definition clear_fetched (p : Z) (e : fds) : option fds :=
  let i := Z.to_nat (cur_fd e) in
  let n := Z.to_nat (cur_nfds e) in
  if Nat.leb (i + n) (length (cur_fds e)) then
    Some (with_cur (take i (cur_fds e)
                    ++ ((fun c => if fst c =? p then (0, snd c) else c) <$> take n (drop i (cur_fds e)))
                    ++ drop (i + n) (cur_fds e)) (cur_fd e) (cur_nfds e) e)
  else None.

Definition uloop_fd_delete (r p : Z) (e : fds) : option (Z * fds) :=
  e ← clear_fetched p e;
  f ← f_obj e !! p;
  if negb (registered f) then Some (0, e)
  else
    let e := with_obj (insert p (Fd (f_cb f) (f_fd f) (eof f) (error f) false (flags f))) e in
    '(_, e) ← uloop_fd_stack_event p (-1) e;
    __uloop_fd_delete r p e.

Definition uloop_fd_add (r p fl : Z) (e : fds) : option (Z * fds) :=
  if negb (has fl (Z.lor ULOOP_READ ULOOP_WRITE)) then uloop_fd_delete r p e
  else
    f ← f_obj e !! p;
    let e := if negb (registered f) && negb (has fl ULOOP_BLOCKING)
             then with_nonblock ({[f_fd f]} ∪ nonblock e) e else e in
    '(ret, e) ← register_poll r p fl e;
    if ret <? 0 then Some (ret, e)
    else
      f ← f_obj e !! p;
      Some (ret, with_obj (insert p (Fd (f_cb f) (f_fd f) false false true (flags f))) e).

(** One event as [epoll_wait] reports it: [data.ptr], [events], and the answer of [epoll_ctl]
    should the descriptor be deleted. *)
Record epoll_event := Ev { ev_ptr : Z; ev_events : Z; ev_ctl : Z }.

Definition set_error (p : Z) (e : fds) : option fds :=
  f ← f_obj e !! p;
  Some (with_obj (insert p (Fd (f_cb f) (f_fd f) (eof f) true (registered f) (flags f))) e).
Definition set_eof (p : Z) (e : fds) : option fds :=
  f ← f_obj e !! p;
  Some (with_obj (insert p (Fd (f_cb f) (f_fd f) true (error f) (registered f) (flags f))) e).
Definition set_cur (n : Z) (c : Z * Z) (e : fds) : option fds :=
  if Nat.ltb (Z.to_nat n) (length (cur_fds e))
  then Some (with_cur (<[Z.to_nat n := c]> (cur_fds e)) (cur_fd e) (cur_nfds e) e) else None.

(** The turn of the loop for the event number [n]. *)
Definition fetch_one (n : Z) (ev : epoll_event) (e : fds) : option fds :=
  let old := default 0 (snd <$> cur_fds e !! Z.to_nat n) in
  e ← set_cur n (ev_ptr ev, old) e;
  if ev_ptr ev =? 0 then Some e
  else
    e ← (if has (ev_events ev) (Z.lor EPOLLERR EPOLLHUP) then
           e ← set_error (ev_ptr ev) e;
           f ← f_obj e !! ev_ptr ev;
           if negb (has (flags f) ULOOP_ERROR_CB)
           then snd <$> uloop_fd_delete (ev_ctl ev) (ev_ptr ev) e else Some e
         else Some e);
    if negb (has (ev_events ev) (Z.lor (Z.lor (Z.lor EPOLLRDHUP EPOLLIN) EPOLLOUT) (Z.lor EPOLLERR EPOLLHUP)))
    then set_cur n (0, old) e
    else
      e ← (if has (ev_events ev) EPOLLRDHUP then set_eof (ev_ptr ev) e else Some e);
      set_cur n (ev_ptr ev, Z.lor (if has (ev_events ev) EPOLLIN then ULOOP_READ else 0)
                                  (if has (ev_events ev) EPOLLOUT then ULOOP_WRITE else 0)) e.
Fixpoint fetch_loop (n : Z) (evs : list epoll_event) (e : fds) : option fds :=
  match evs with
  | [] => Some e
  | ev :: r => e ← fetch_one n ev e; fetch_loop (n + 1) r e
  end.
(** [answer]: what [epoll_wait] returns, [None] for an error. *)
Definition uloop_fetch_events (answer : option (list epoll_event)) (e : fds) : option (Z * fds) :=
  match answer with
  | None => Some (-1, e)
  | Some evs => e ← fetch_loop 0 evs e; Some (Z.of_nat (length evs), e)
  end.

(** The fetched events up to the first whose callback is to be called: its descriptor is put on
    the stack, and is the result with its events. *)
Fixpoint events_loop (fuel : nat) (e : fds) : option (option (Z * Z) * fds) :=
  match fuel with
  | O => Some (None, e)
  | S fuel =>
      if negb (0 <? cur_nfds e) then Some (None, e)
      else
        c ← cur_fds e !! Z.to_nat (cur_fd e);
        let '(p, events) := (c : Z * Z) in
        let e := with_cur (cur_fds e) (cur_fd e + 1) (cur_nfds e - 1) e in
        if p =? 0 then events_loop fuel e
        else
          f ← f_obj e !! p;
          if negb (f_cb f) then events_loop fuel e
          else
            '(buffered, e) ← uloop_fd_stack_event p events e;
            if buffered : bool then events_loop fuel e
            else Some (Some (p, events), with_stack ((p, 0) :: fd_stack e) e)
  end.
(** [answer] is used where no fetched event is left. The loop takes one turn for each. *)
Definition uloop_run_events (answer : option (list epoll_event)) (e : fds)
    : option (option (Z * Z) * fds) :=
  e ← (if cur_nfds e =? 0 then
         '(n, e) ← uloop_fetch_events answer (with_cur (cur_fds e) 0 (cur_nfds e) e);
         Some (with_cur (cur_fds e) (cur_fd e) (if n <? 0 then 0 else n) e)
       else Some e);
  events_loop (Z.to_nat (cur_nfds e)) e.

(** ** Signals *)

Definition SIGINT : Z := 2.
Definition SIGPIPE : Z := 13.
Definition SIGTERM : Z := 15.
Definition SIGCHLD : Z := 17.
Inductive handler := SIG_DFL | SIG_IGN | uloop_handle_sigint | uloop_sigchld | other (n : Z).
#[export] Instance handler_eq_dec : EqDecision handler.
Proof. solve_decision. Defined.

(** The dispositions of the process, and the variables [old_sigint], [old_sigterm] and
    [old_sigchld] by their signal. *)
Record signals := Signals { disp : gmap Z handler; old : gmap Z handler }.
Definition disposition (n : Z) (d : gmap Z handler) : handler := default SIG_DFL (d !! n).

Definition uloop_install_handler (signum : Z) (h : handler) (add : bool) (s : signals) : signals :=
  let cur := disposition signum (disp s) in
  if add then
    if bool_decide (cur = SIG_DFL)
    then Signals (<[signum := h]> (disp s)) (<[signum := cur]> (old s)) else s
  else if bool_decide (cur = h)
  then Signals (<[signum := disposition signum (old s)]> (disp s)) (old s) else s.

(** The handlers are pointers and [SIG_DFL] is the null one: [new_handler] is set in the first
    case only. *)
Definition uloop_ignore_signal (signum : Z) (ignore : bool) (s : signals) : signals :=
  let cur := disposition signum (disp s) in
  let new_handler := if ignore then if bool_decide (cur = SIG_DFL) then SIG_IGN else SIG_DFL
                     else SIG_DFL in
  if bool_decide (new_handler = SIG_DFL) then s
  else Signals (<[signum := new_handler]> (disp s)) (old s).

Definition uloop_setup_signals (handle_sigchld add : bool) (s : signals) : signals :=
  let s := uloop_install_handler SIGINT uloop_handle_sigint add s in
  let s := uloop_install_handler SIGTERM uloop_handle_sigint add s in
  let s := if handle_sigchld then uloop_install_handler SIGCHLD uloop_sigchld add s else s in
  uloop_ignore_signal SIGPIPE add s.

(** ** The loop *)

(** The variables of the file. [WAKER] is the address of [waker_fd], [pipe_len] the number of
    bytes in the pipe, and [opened] the descriptors the loop has open. *)
Definition WAKER : Z := 1.
Record uloop := ULoop {
  tms : timers; prs : procs; fdv : fds; sig : signals;
  waker_pipe : Z; pipe_len : Z; opened : gset Z;
  cancelled : bool; status : Z; sigchld : bool; handle_sigchld : bool; depth : Z
}.
Definition with_tms t u :=
  ULoop t (prs u) (fdv u) (sig u) (waker_pipe u) (pipe_len u) (opened u)
        (cancelled u) (status u) (sigchld u) (handle_sigchld u) (depth u).
Definition with_prs p u :=
  ULoop (tms u) p (fdv u) (sig u) (waker_pipe u) (pipe_len u) (opened u)
        (cancelled u) (status u) (sigchld u) (handle_sigchld u) (depth u).
Definition with_fdv f u :=
  ULoop (tms u) (prs u) f (sig u) (waker_pipe u) (pipe_len u) (opened u)
        (cancelled u) (status u) (sigchld u) (handle_sigchld u) (depth u).
Definition with_sig s u :=
  ULoop (tms u) (prs u) (fdv u) s (waker_pipe u) (pipe_len u) (opened u)
        (cancelled u) (status u) (sigchld u) (handle_sigchld u) (depth u).
Definition with_waker w n o u :=
  ULoop (tms u) (prs u) (fdv u) (sig u) w n o
        (cancelled u) (status u) (sigchld u) (handle_sigchld u) (depth u).
Definition with_run c s g d u :=
  ULoop (tms u) (prs u) (fdv u) (sig u) (waker_pipe u) (pipe_len u) (opened u)
        c s g (handle_sigchld u) d.

(** [uloop_init_pollfd]; [fd] is the answer of [epoll_create]. *)
Definition uloop_init_pollfd (fd : Z) (u : uloop) : Z * uloop :=
  if 0 <=? poll_fd (fdv u) then (0, u)
  else if fd <? 0 then (-1, with_fdv (with_poll fd ∅ (fdv u)) u)
  else (0, with_waker (waker_pipe u) (pipe_len u) ({[fd]} ∪ opened u)
                      (with_fdv (with_poll fd ∅ (fdv u)) u)).

Definition waker_consume (u : uloop) : uloop := with_waker (waker_pipe u) 0 (opened u) u.

(** [fds] is the answer of [pipe], [r] that of [epoll_ctl], which is not looked at. *)
Definition waker_init (fds : option (Z * Z)) (r : Z) (u : uloop) : option (Z * uloop) :=
  if 0 <=? waker_pipe u then Some (0, u)
  else
    match fds with
    | None => Some (-1, u)
    | Some (fd0, fd1) =>
        f ← f_obj (fdv u) !! WAKER;
        let e := with_nonblock ({[fd0; fd1]} ∪ nonblock (fdv u)) (fdv u) in
        let e := with_obj (insert WAKER (Fd true fd0 (eof f) (error f) (registered f) (flags f))) e in
        '(_, e) ← uloop_fd_add r WAKER ULOOP_READ e;
        Some (0, with_waker fd1 0 ({[fd0; fd1]} ∪ opened u) (with_fdv e u))
    end.

Definition close_fd (fd : Z) (u : uloop) : uloop :=
  with_waker (waker_pipe u) (pipe_len u) (opened u ∖ {[fd]})
             (with_fdv (with_nonblock (nonblock (fdv u) ∖ {[fd]}) (fdv u)) u).

(** The two halves of [uloop_done] that close the descriptors of the loop. *)
Definition poll_done (u : uloop) : uloop :=
  if 0 <=? poll_fd (fdv u)
  then with_fdv (with_poll (-1) ∅ (fdv u)) (close_fd (poll_fd (fdv u)) u) else u.
Definition waker_done (r : Z) (u : uloop) : option uloop :=
  if 0 <=? waker_pipe u then
    '(_, e) ← uloop_fd_delete r WAKER (fdv u);
    f ← f_obj e !! WAKER;
    let u := close_fd (f_fd f) (close_fd (waker_pipe u) (with_fdv e u)) in
    Some (with_waker (-1) (pipe_len u) (opened u) u)
  else Some u.

Definition uloop_done (r : Z) (u : uloop) : option uloop :=
  let u := with_sig (uloop_setup_signals (handle_sigchld u) false (sig u)) u in
  u ← waker_done r (poll_done u);
  t ← uloop_clear_timeouts (tms u);
  p ← uloop_clear_processes (prs u);
  Some (with_prs p (with_tms t u)).

(** [fd], [fds] and [r]: the answers of [epoll_create], [pipe] and [epoll_ctl]. *)
Definition uloop_init (fd : Z) (fds : option (Z * Z)) (r : Z) (u : uloop) : option (Z * uloop) :=
  let '(ret, u) := uloop_init_pollfd fd u in
  if ret <? 0 then Some (-1, u)
  else
    '(ret, u) ← waker_init fds r u;
    if ret <? 0 then u ← uloop_done r u; Some (-1, u)
    else Some (0, with_sig (uloop_setup_signals (handle_sigchld u) true (sig u)) u).

(** [ok]: the [write] that was not interrupted wrote its byte. *)
Definition uloop_signal_wake (ok : bool) (u : uloop) : uloop :=
  if ok then with_waker (waker_pipe u) (pipe_len u + 1) (opened u) u else u.
(** The handlers [uloop_handle_sigint] and [uloop_sigchld]. *)
Definition handle_signal (h : handler) (signo : Z) (ok : bool) (u : uloop) : uloop :=
  match h with
  | uloop_handle_sigint => uloop_signal_wake ok (with_run true signo (sigchld u) (depth u) u)
  | uloop_sigchld => uloop_signal_wake ok (with_run (cancelled u) (status u) true (depth u) u)
  | _ => u
  end.

Definition uloop_end (u : uloop) : uloop := with_run true (status u) (sigchld u) (depth u) u.
Definition uloop_cancelling (u : uloop) : bool := (0 <? depth u) && cancelled u.

(** *** Client code *)

(** What a client does in one go: it allocates a structure and fills it, calls an operation
    (with the answers of the system the operation asks for), or gives a structure up, which is
    the operation that takes it out of the loop and then [free]. *)
Inductive call :=
  | NewTimeout (p : Z) (cb : bool)
  | TimeoutSet (now : timeval) (p msecs : Z)
  | TimeoutAdd (p : Z) (time : timeval)
  | TimeoutCancel (p : Z)
  | DestroyTimeout (p : Z)
  | NewProcess (p pid : Z)
  | ProcessAdd (p : Z)
  | ProcessDelete (p : Z)
  | DestroyProcess (p : Z)
  | NewFd (p fd : Z) (cb : bool)
  | FdAdd (r p fl : Z)
  | FdDelete (r p : Z)
  | DestroyFd (r p : Z)
  | End_
  | Init (fd : Z) (pipe : option (Z * Z)) (r : Z)
  | Done (r : Z).

Definition on_tms (f : timers -> option (Z * timers)) (u : uloop) : option uloop :=
  '(_, t) ← f (tms u); Some (with_tms t u).
Definition on_prs (f : procs -> option (Z * procs)) (u : uloop) : option uloop :=
  '(_, p) ← f (prs u); Some (with_prs p u).
Definition on_fdv (f : fds -> option (Z * fds)) (u : uloop) : option uloop :=
  '(_, e) ← f (fdv u); Some (with_fdv e u).

Definition exec (c : call) (u : uloop) : option uloop :=
  match c with
  | NewTimeout p cb =>
      Some (with_tms (Timers (timeouts (tms u)) (<[p := Timeout false cb (Tv 0 0)]> (t_obj (tms u)))) u)
  | TimeoutSet now p ms => on_tms (uloop_timeout_set now p ms) u
  | TimeoutAdd p time =>
      t ← t_obj (tms u) !! p;
      on_tms (uloop_timeout_add p)
        (with_tms (Timers (timeouts (tms u))
                     (<[p := Timeout (t_pending t) (t_cb t) time]> (t_obj (tms u)))) u)
  | TimeoutCancel p => on_tms (uloop_timeout_cancel p) u
  | DestroyTimeout p =>
      u ← on_tms (uloop_timeout_cancel p) u;
      Some (with_tms (Timers (timeouts (tms u)) (delete p (t_obj (tms u)))) u)
  | NewProcess p pid =>
      Some (with_prs (Procs (processes (prs u)) (<[p := Process false pid]> (p_obj (prs u)))) u)
  | ProcessAdd p => on_prs (uloop_process_add p) u
  | ProcessDelete p => on_prs (uloop_process_delete p) u
  | DestroyProcess p =>
      u ← on_prs (uloop_process_delete p) u;
      Some (with_prs (Procs (processes (prs u)) (delete p (p_obj (prs u)))) u)
  | NewFd p fd cb =>
      Some (with_fdv (with_obj (insert p (Fd cb fd false false false 0)) (fdv u)) u)
  | FdAdd r p fl => on_fdv (uloop_fd_add r p fl) u
  | FdDelete r p => on_fdv (uloop_fd_delete r p) u
  | DestroyFd r p =>
      u ← on_fdv (uloop_fd_delete r p) u;
      Some (with_fdv (with_obj (delete p) (fdv u)) u)
  | End_ => Some (uloop_end u)
  | Init fd pipe r => '(_, u) ← uloop_init fd pipe r u; Some u
  | Done r => uloop_done r u
  end.

(** *** Control *)

Inductive callback := Main | CbTimeout (p : Z) | CbProcess (p ret : Z) | CbFd (p events : Z).
(** The functions under way: client code; [uloop_run_timeout] at the condition of its loop, at
    the test of [do_sigchld], and at the second test of [uloop_cancelled]; the loops of
    [uloop_process_timeouts] and [uloop_handle_processes]; the list loop of the latter, about
    to look at the process [q]; and [uloop_run_events] when the callback of [p] has returned. *)
Inductive frame :=
  | Client (c : callback)
  | RunLoop (timeout : Z)
  | RunSig (timeout : Z)
  | RunPoll (timeout : Z)
  | RunTimeouts (tv : timeval)
  | RunProcs
  | ProcIter (pid ret q : Z)
  | RunEvents (p : Z).

(** What happens next: the function on top goes on by itself ([Next]); it reads the clock; it
    reaps a child ([eintr]: the call was interrupted); it reads the clock and waits for events;
    the client calls, runs the loop or returns; or a signal is delivered. *)
Inductive input :=
  | Next
  | Clock (tv : timeval)
  | Waitpid (pid ret : Z) (eintr : bool)
  | Wait (tv : timeval) (answer : option (list epoll_event))
  | Call (c : call)
  | Run (timeout : Z)
  | Return
  | Signal (signo : Z) (ok : bool).

Definition state : Type := uloop * list frame.

Definition run_begin (u : uloop) : uloop := with_run false 0 (sigchld u) (depth u + 1) u.
Definition run_end (u : uloop) : uloop := with_run (cancelled u) (status u) (sigchld u) (depth u - 1) u.

(** The time [uloop_run_timeout] gives to [uloop_run_events]. *)
Definition poll_timeout (timeout : Z) (tv : timeval) (u : uloop) : option Z :=
  next_time ← uloop_get_next_timeout tv (tms u);
  Some (if (0 <=? timeout) && (timeout <? next_time) then timeout else next_time).

Definition process_timeouts (tv : timeval) (u : uloop) (fs : list frame) : option state :=
  match timeouts (tms u) with
  | [] => Some (u, fs)
  | p :: _ =>
      t ← t_obj (tms u) !! p;
      if 0 <? tv_diff (t_time t) tv then Some (u, fs)
      else
        u ← on_tms (uloop_timeout_cancel p) u;
        Some (u, if t_cb t then Client (CbTimeout p) :: RunTimeouts tv :: fs else RunTimeouts tv :: fs)
  end.

Definition process_iter (pid ret q : Z) (u : uloop) (fs : list frame) : option state :=
  if q =? HEAD then Some (u, fs)
  else
    p ← p_obj (prs u) !! q;
    let tmp := next_process q (processes (prs u)) in
    if p_pid p <? pid then Some (u, ProcIter pid ret tmp :: fs)
    else if pid <? p_pid p then Some (u, fs)
    else
      u ← on_prs (uloop_process_delete q) u;
      Some (u, Client (CbProcess q ret) :: ProcIter pid ret tmp :: fs).

(** The call of the callback of [p], which for [waker_fd] is [waker_consume]. *)
Definition call_fd (p events : Z) (u : uloop) (fs : list frame) : option state :=
  f ← f_obj (fdv u) !! p;
  if negb (f_cb f) then None
  else if p =? WAKER then Some (waker_consume u, RunEvents p :: fs)
  else Some (u, Client (CbFd p events) :: RunEvents p :: fs).

Definition poll_step (timeout : Z) (tv : timeval) (answer : option (list epoll_event)) (u : uloop)
    (fs : list frame) : option state :=
  _ ← poll_timeout timeout tv u;
  '(cb, e) ← uloop_run_events answer (fdv u);
  let u := with_fdv e u in
  match cb with
  | None => Some (u, RunLoop timeout :: fs)
  | Some (p, events) => call_fd p events u (RunLoop timeout :: fs)
  end.

(** The condition of the inner loop of [uloop_run_events], and what follows it. *)
Definition events_done (p : Z) (u : uloop) (fs : list frame) : option state :=
  match fd_stack (fdv u) with
  | [] => None
  | (q, ev) :: s =>
      let events := Z.land ev ULOOP_EVENT_MASK in
      if negb (q =? 0) && negb (events =? 0)
      then call_fd p events (with_fdv (with_stack ((q, 0) :: s) (fdv u)) u) fs
      else Some (with_fdv (with_stack s (fdv u)) u, fs)
  end.

Definition step (i : input) (st : state) : option state :=
  let '(u, fs) := st in
  match i, fs with
  | Signal signo ok, _ => Some (handle_signal (disposition signo (disp (sig u))) signo ok u, fs)
  | Call c, Client _ :: _ => u ← exec c u; Some (u, fs)
  | Run t, Client _ :: _ => Some (run_begin u, RunLoop t :: fs)
  | Return, Client _ :: fs => Some (u, fs)
  | Next, RunLoop t :: fs' => if cancelled u then Some (run_end u, fs') else Some (u, fs)
  | Clock tv, RunLoop t :: fs' =>
      if cancelled u then Some (u, fs) else Some (u, RunTimeouts tv :: RunSig t :: fs')
  | Next, RunTimeouts tv :: fs' => process_timeouts tv u fs'
  | Next, RunSig t :: fs' =>
      if sigchld u
      then Some (with_run (cancelled u) (status u) false (depth u) u, RunProcs :: RunPoll t :: fs')
      else Some (u, RunPoll t :: fs')
  | Waitpid pid ret eintr, RunProcs :: fs' =>
      if (pid <? 0) && eintr then Some (u, fs)
      else if pid <=? 0 then Some (u, fs')
      else Some (u, ProcIter pid ret (default HEAD (head (processes (prs u)))) :: fs)
  | Next, ProcIter pid ret q :: fs' => process_iter pid ret q u fs'
  | Next, RunPoll t :: fs' => if cancelled u then Some (run_end u, fs') else Some (u, fs)
  | Wait tv answer, RunPoll t :: fs' =>
      if cancelled u then Some (u, fs) else poll_step t tv answer u fs'
  | Next, RunEvents p :: fs' => events_done p u fs'
  | _, _ => Some (u, fs)
  end.

Fixpoint steps (ins : list input) (st : state) : option state :=
  match ins with
  | [] => Some st
  | i :: ins => st ← step i st; steps ins st
  end.

(** The variables before anything is called. *)
Definition start : uloop :=
  ULoop (Timers [] ∅) (Procs [] ∅)
        (Fds {[WAKER := Fd true (-1) false false false 0]} (-1) ∅ ∅ (replicate 10 (0, 0)) 0 0 [])
        (Signals ∅ ∅) (-1) 0 ∅ false 0 false true 0.
End ULoop.
