(* ===== verification/ULoopSpec.v ===== *)
(** * Properties of the event loop

    The timers are kept in order up to a millisecond and served on time; the loop never touches
    a structure a client has freed, whatever its callbacks do and however they nest; and
    [uloop_done] undoes [uloop_init]. *)

From S2P Require Import Prelude ULoop.
From stdpp Require Import base tactics numbers list gmap.
From Stdlib Require Import ZArith Lia Sorted.
Open Scope Z_scope.
Import ULoop.

(** ** Timers *)

(** A time in microseconds. *)
Definition us (t : timeval) : Z := tv_sec t * 1000000 + tv_usec t.
Definition due (obj : gmap Z uloop_timeout) (p : Z) : Z := from_option (us ∘ t_time) 0 (obj !! p).
(** Twelve days: differences of twice this fit in the [int] that [tv_diff] returns. *)
Definition WINDOW : Z := 1073741000000.
Definition near (t1 t2 : timeval) : Prop := Z.abs (us t1 - us t2) <= 2 * WINDOW.

(** The members of the list are the pending timers, each once. *)
Definition timers_wf (ts : timers) : Prop :=
  NoDup (timeouts ts) /\
  forall p, p ∈ timeouts ts <-> exists t, t_obj ts !! p = Some t /\ t_pending t = true.
(** One timer may stand before another only if it is due less than a millisecond later. *)
Definition ordered (l : list Z) : Prop := StronglySorted (fun a b => a < b + 1000) l.
Definition timers_ok (ts : timers) : Prop :=
  timers_wf ts /\ ordered (due (t_obj ts) <$> timeouts ts).

Lemma tv_diff_near t1 t2 :
  near t1 t2 -> Z.abs (1000 * tv_diff t1 t2 - (us t1 - us t2)) < 1000.
Proof.
  unfold near, us, WINDOW, tv_diff. intros H.
  pose proof (Z.quot_rem' (tv_usec t1 - tv_usec t2) 1000) as E.
  assert (Z.abs (Z.rem (tv_usec t1 - tv_usec t2) 1000) < 1000)
    by (pose proof (Z.rem_bound_abs (tv_usec t1 - tv_usec t2) 1000); lia).
  rewrite s32_id; lia.
Qed.
Lemma tv_diff_later t1 t2 : near t1 t2 -> 0 < tv_diff t1 t2 -> us t2 < us t1.
Proof. intros H%tv_diff_near ?. lia. Qed.
Lemma tv_diff_not_later t1 t2 : near t1 t2 -> ~ 0 < tv_diff t1 t2 -> us t1 < us t2 + 1000.
Proof. intros H%tv_diff_near ?. lia. Qed.

Lemma after_us now ms : us (after now ms) = us now + 1000 * ms.
Proof.
  unfold after, us. pose proof (Z.quot_rem' ms 1000). bcase; simpl; lia.
Qed.

Lemma due_lookup obj p t : obj !! p = Some t -> due obj p = us (t_time t).
Proof. unfold due. by intros ->. Qed.
Lemma due_insert_ne obj p q t : p <> q -> due (<[p := t]> obj) q = due obj q.
Proof. intros. unfold due. by rewrite lookup_insert_ne. Qed.
Lemma due_insert obj p t : due (<[p := t]> obj) p = us (t_time t).
Proof. unfold due. by rewrite lookup_insert_eq. Qed.

Lemma ordered_insert l1 l2 x :
  ordered (l1 ++ l2) -> Forall (fun a => a < x + 1000) l1 -> Forall (fun b => x < b + 1000) l2 ->
  ordered (l1 ++ x :: l2).
Proof.
  unfold ordered. induction l1 as [|a l1 IH]; simpl; intros Hs H1 H2; [by constructor|].
  apply StronglySorted_inv in Hs as [Hs Ha]. apply Forall_cons in H1 as [Hax H1].
  constructor; [by apply IH|]. apply Forall_app in Ha as [Ha1 Ha2].
  apply Forall_app; split; [done|]. by constructor.
Qed.

Lemma insert_timeout_split obj p time l :
  (forall q, q ∈ l -> exists t, obj !! q = Some t /\ near (t_time t) time) ->
  ordered (due obj <$> l) ->
  exists l1 l2, insert_timeout obj p time l = Some (l1 ++ p :: l2) /\ l = l1 ++ l2 /\
    Forall (fun a => a < us time + 1000) (due obj <$> l1) /\
    Forall (fun b => us time < b + 1000) (due obj <$> l2).
Proof.
  induction l as [|q l IH]; simpl; intros Hn Hs; [exists [], []; by repeat constructor|].
  destruct (Hn q) as (t & Ht & Hnear); [left|]. rewrite Ht, bind_some.
  apply StronglySorted_inv in Hs as [Hs Hq]. rewrite (due_lookup _ _ _ Ht) in Hq.
  bcase.
  - exists [], (q :: l). repeat split; simpl; [constructor|]. rewrite (due_lookup _ _ _ Ht).
    pose proof (tv_diff_later _ _ Hnear ltac:(done)).
    constructor; [lia|]. eapply Forall_impl; [exact Hq|]. simpl. intros; lia.
  - destruct IH as (l1 & l2 & E & -> & H1 & H2); [intros; apply Hn; by right|done|].
    rewrite E, bind_some. exists (q :: l1), l2. repeat split; simpl; [|done].
    constructor; [|done]. rewrite (due_lookup _ _ _ Ht). apply tv_diff_not_later; [done|lia].
Qed.

Lemma ordered_sublist l k : l `sublist_of` k -> ordered k -> ordered l.
Proof.
  unfold ordered. induction 1 as [|x l k Hl IH|x l k Hl IH]; intros Hs.
  - constructor.
  - apply StronglySorted_inv in Hs as [Hs Hx]. constructor; [by apply IH|].
    rewrite Forall_forall in Hx |- *. intros y Hy. apply Hx.
    by eapply elem_of_sublist.
  - apply StronglySorted_inv in Hs as [Hs _]. by apply IH.
Qed.

(** *** Shape: what every operation keeps, on any times *)

Lemma insert_timeout_shape obj p time l l' :
  insert_timeout obj p time l = Some l' -> exists l1 l2, l' = l1 ++ p :: l2 /\ l = l1 ++ l2.
Proof.
  revert l'. induction l as [|q l IH]; simpl; intros l' H; [exists [], []; naive_solver|].
  destruct (obj !! q) as [t|]; [rewrite bind_some in H|done].
  destruct (0 <? _); [exists [], (q :: l); naive_solver|].
  destruct (insert_timeout obj p time l) as [l''|]; [|done]. simplify_eq/=.
  destruct (IH _ eq_refl) as (l1 & l2 & -> & ->). by exists (q :: l1), l2.
Qed.
Lemma insert_timeout_total obj p time l :
  (forall q, q ∈ l -> is_Some (obj !! q)) -> is_Some (insert_timeout obj p time l).
Proof.
  induction l as [|q l IH]; simpl; intros Hl; [done|].
  destruct (Hl q) as [t ->]; [left|]. rewrite bind_some. bcase; [done|].
  destruct IH as [l' ->]; [|done]. intros; apply Hl; by right.
Qed.

Lemma timers_wf_obj ts q : timers_wf ts -> q ∈ timeouts ts -> is_Some (t_obj ts !! q).
Proof. intros [_ Hm] (t & -> & _)%Hm. done. Qed.

(** A structure that is not pending is replaced, or a pending one leaves the list. *)
Lemma timers_wf_drop ts p t :
  timers_wf ts -> t_pending t = false ->
  timers_wf (Timers (filter (.≠ p) (timeouts ts)) (<[p := t]> (t_obj ts))).
Proof.
  intros [Hnd Hm] Hp. split; simpl; [by apply NoDup_filter|].
  intros q. rewrite list_elem_of_filter, Hm. destruct (decide (q = p)) as [->|Hne].
  - rewrite lookup_insert_eq. naive_solver congruence.
  - rewrite lookup_insert_ne by done. naive_solver.
Qed.
Lemma timers_wf_same ts p t :
  timers_wf ts -> p ∉ timeouts ts -> t_pending t = false ->
  timers_wf (Timers (timeouts ts) (<[p := t]> (t_obj ts))).
Proof.
  intros Hw Hn Hp. pose proof (timers_wf_drop ts p t Hw Hp) as H.
  rewrite filter_keeps_all in H; [done|]. intros x Hx ->. done.
Qed.
Lemma timers_wf_delete ts p :
  timers_wf ts -> p ∉ timeouts ts -> timers_wf (Timers (timeouts ts) (delete p (t_obj ts))).
Proof.
  intros [Hnd Hm] Hn. split; simpl; [done|]. intros q. rewrite Hm.
  destruct (decide (q = p)) as [->|Hne]; [|by rewrite lookup_delete_ne].
  rewrite lookup_delete_eq. rewrite Hm in Hn. naive_solver.
Qed.
Lemma not_pending_not_listed ts p t :
  timers_wf ts -> t_obj ts !! p = Some t -> t_pending t = false -> p ∉ timeouts ts.
Proof. intros [_ Hm] Ht Hp (t' & Ht' & Hp')%Hm. congruence. Qed.

Lemma timeout_add_shape p ts r ts' :
  timers_wf ts -> uloop_timeout_add p ts = Some (r, ts') ->
  ts' = ts \/ exists t l1 l2, t_obj ts !! p = Some t /\ t_pending t = false /\
    insert_timeout (t_obj ts) p (t_time t) (timeouts ts) = Some (l1 ++ p :: l2) /\
    timeouts ts = l1 ++ l2 /\
    ts' = Timers (l1 ++ p :: l2) (<[p := Timeout true (t_cb t) (t_time t)]> (t_obj ts)).
Proof.
  intros Hw. unfold uloop_timeout_add. intros H.
  destruct (t_obj ts !! p) as [t|] eqn:Ht; [|done]. rewrite bind_some in H.
  destruct (t_pending t) eqn:Hp; [by simplify_eq; left|].
  destruct (insert_timeout _ _ _ _) as [l|] eqn:E; [|done]. simplify_eq/=. right.
  destruct (insert_timeout_shape _ _ _ _ _ E) as (l1 & l2 & -> & El). by exists t, l1, l2.
Qed.
Lemma timeout_add_wf p ts r ts' :
  timers_wf ts -> uloop_timeout_add p ts = Some (r, ts') -> timers_wf ts'.
Proof.
  intros Hw H. destruct (timeout_add_shape _ _ _ _ Hw H) as [->|(t & l1 & l2 & Ht & Hp & _ & El & ->)];
    [done|].
  pose proof (not_pending_not_listed _ _ _ Hw Ht Hp) as Hn. destruct Hw as [Hnd Hm].
  rewrite El in Hn, Hnd, Hm.
  split; simpl.
  - apply NoDup_app in Hnd as (H1 & H2 & H3). apply NoDup_app. set_solver by eauto using NoDup_cons_2.
  - intros q. specialize (Hm q). rewrite elem_of_app in Hm |- *. rewrite elem_of_cons.
    destruct (decide (q = p)) as [->|Hne].
    + rewrite lookup_insert_eq. naive_solver.
    + rewrite lookup_insert_ne by done. naive_solver.
Qed.
Lemma timeout_add_total p ts :
  timers_wf ts -> is_Some (t_obj ts !! p) -> is_Some (uloop_timeout_add p ts).
Proof.
  intros Hw [t Ht]. unfold uloop_timeout_add. rewrite Ht, bind_some. bcase; [done|].
  destruct (insert_timeout_total (t_obj ts) p (t_time t) (timeouts ts)) as [l ->]; [|done].
  intros q. by apply timers_wf_obj.
Qed.

(** Cancelling, as a whole. *)
Lemma timeout_cancel_spec p ts t :
  timers_wf ts -> t_obj ts !! p = Some t ->
  exists r, uloop_timeout_cancel p ts =
    Some (r, Timers (filter (.≠ p) (timeouts ts)) (<[p := Timeout false (t_cb t) (t_time t)]> (t_obj ts))).
Proof.
  intros Hw Ht. unfold uloop_timeout_cancel. rewrite Ht, bind_some.
  destruct (t_pending t) eqn:Hp; [by eexists|]. exists (-1). do 2 f_equal.
  destruct ts as [l obj]; simpl in *. f_equal.
  - symmetry. apply filter_keeps_all. intros x Hx ->.
    by apply (not_pending_not_listed _ _ _ Hw Ht Hp).
  - symmetry. apply insert_id. rewrite Ht. by destruct t; simpl in *; subst.
Qed.

Lemma timeout_set_spec now p ms ts t :
  timers_wf ts -> t_obj ts !! p = Some t ->
  uloop_timeout_set now p ms ts =
    uloop_timeout_add p (Timers (filter (.≠ p) (timeouts ts))
                           (<[p := Timeout false (t_cb t) (after now ms)]> (t_obj ts))).
Proof.
  intros Hw Ht. unfold uloop_timeout_set. rewrite Ht, bind_some.
  destruct (timeout_cancel_spec p ts t Hw Ht) as [r E].
  destruct (t_pending t) eqn:Hp.
  - rewrite E. simpl. rewrite lookup_insert_eq, bind_some. simpl. by rewrite insert_insert_eq.
  - rewrite bind_some, Ht, bind_some, Hp. do 2 f_equal. symmetry. apply filter_keeps_all.
    intros x Hx ->. by apply (not_pending_not_listed _ _ _ Hw Ht Hp).
Qed.

(** *** Order *)

(** Any change of one timer that takes it out of the list keeps the order of the rest. *)
Lemma timers_ordered_drop ts p obj :
  ordered (due (t_obj ts) <$> timeouts ts) ->
  (forall q, q <> p -> due obj q = due (t_obj ts) q) ->
  ordered (due obj <$> filter (.≠ p) (timeouts ts)).
Proof.
  intros Ho Hd. eapply ordered_sublist; [|exact Ho].
  rewrite (list_fmap_ext (due obj) (due (t_obj ts))).
  - apply fmap_sublist, sublist_filter.
  - intros i q Hq. apply Hd. apply list_elem_of_lookup_2, list_elem_of_filter in Hq. naive_solver.
Qed.
Lemma timers_ok_drop ts p t :
  timers_ok ts -> t_pending t = false ->
  timers_ok (Timers (filter (.≠ p) (timeouts ts)) (<[p := t]> (t_obj ts))).
Proof.
  intros [Hw Ho] Hp. split; [by apply timers_wf_drop|]. simpl.
  apply timers_ordered_drop; [done|]. intros; by rewrite due_insert_ne.
Qed.
Lemma timers_ok_delete ts p :
  timers_ok ts -> p ∉ timeouts ts -> timers_ok (Timers (timeouts ts) (delete p (t_obj ts))).
Proof.
  intros [Hw Ho] Hn. split; [by apply timers_wf_delete|]. simpl.
  rewrite <- (filter_keeps_all (.≠ p) (timeouts ts)) by (by intros x Hx ->).
  apply timers_ordered_drop; [done|]. intros q Hq. unfold due. by rewrite lookup_delete_ne.
Qed.

Definition all_near (time : timeval) (ts : timers) : Prop :=
  forall q t, q ∈ timeouts ts -> t_obj ts !! q = Some t -> near (t_time t) time.

Lemma timeout_add_ok p ts r ts' :
  timers_ok ts -> (forall t, t_obj ts !! p = Some t -> all_near (t_time t) ts) ->
  uloop_timeout_add p ts = Some (r, ts') -> timers_ok ts'.
Proof.
  intros [Hw Ho] Hn H. split; [by eapply timeout_add_wf|].
  destruct (timeout_add_shape _ _ _ _ Hw H) as [->|(t & l1 & l2 & Ht & Hp & Ei & El & ->)]; [done|].
  pose proof (not_pending_not_listed _ _ _ Hw Ht Hp) as Hnl.
  destruct (insert_timeout_split (t_obj ts) p (t_time t) (timeouts ts)) as (k1 & k2 & E & Ek & H1 & H2).
  { intros q Hq. destruct (timers_wf_obj _ _ Hw Hq) as [tq Hq'].
    exists tq. split; [done|]. by apply (Hn t Ht q). }
  { done. }
  rewrite Ei in E. simplify_eq. simpl.
  assert (Hd : forall k, k ⊆ timeouts ts -> due (<[p:=Timeout true (t_cb t) (t_time t)]> (t_obj ts)) <$> k
                                            = due (t_obj ts) <$> k).
  { intros k Hk. apply list_fmap_ext. intros i q Hq%list_elem_of_lookup_2. apply due_insert_ne.
    intros <-. by apply Hnl, Hk. }
  rewrite E, fmap_app, fmap_cons, due_insert. cbn [t_time].
  rewrite !Hd by (rewrite Ek; set_solver).
  apply ordered_insert; [|exact H1|exact H2]. by rewrite <- fmap_app, <- Ek.
Qed.

Lemma clear_timeouts_spec l ts :
  timers_wf ts -> (forall q, q ∈ l -> is_Some (t_obj ts !! q)) ->
  exists ts', clear_timeouts_loop l ts = Some ts' /\ timers_wf ts' /\ (timers_ok ts -> timers_ok ts') /\
    timeouts ts' = filter (.∉ l) (timeouts ts).
Proof.
  revert ts. induction l as [|p l IH]; simpl; intros ts Hk Hl.
  - exists ts. split_and!; try done. symmetry. apply filter_keeps_all. set_solver.
  - destruct (Hl p) as [t Ht]; [left|].
    destruct (timeout_cancel_spec p ts t Hk Ht) as [r ->]. simpl.
    destruct (IH (Timers (filter (.≠ p) (timeouts ts))
      (<[p := Timeout false (t_cb t) (t_time t)]> (t_obj ts)))) as (ts' & -> & Hw' & Hk' & El).
    + by apply timers_wf_drop.
    + simpl. intros q Hq. apply elem_of_dom. rewrite dom_insert. apply elem_of_union_r, elem_of_dom.
      apply Hl. by right.
    + exists ts'. split_and!; [done|done| |].
      * intros Hok. by apply Hk', timers_ok_drop.
      * rewrite El. simpl. rewrite list_filter_filter. apply list_filter_iff. set_solver.
Qed.

(** ** What clients, the kernel and the clock may do *)

(** The process the loop over the processes will look at when the callback returns. *)
Definition held (fs : list frame) : option Z :=
  match fs with
  | ProcIter _ _ q :: _ | Client _ :: ProcIter _ _ q :: _ => Some q
  | _ => None
  end.
Definition edge (f : uloop_fd) : Prop := has (flags f) ULOOP_EDGE_TRIGGER = true.

(** An edge-triggered descriptor is not made level-triggered while its callback runs, and
    [epoll_ctl] does not refuse a new one that is to be edge-triggered. *)
Definition add_ok (r p fl : Z) (f : uloop_fd) (e : fds) : Prop :=
  has fl (Z.lor ULOOP_READ ULOOP_WRITE) = true ->
  (edge f -> p ∈ (fd_stack e).*1 -> has fl ULOOP_EDGE_TRIGGER = true) /\
  (r < 0 -> registered f = false -> has fl ULOOP_EDGE_TRIGGER = false).

(** A client uses structures it has allocated, at addresses that were free; it does not add a
    pending timer by hand; it leaves [waker_fd] alone; it does not take away the process the
    loop will look at next; it sets the loop up and takes it down outside of all callbacks. *)
Definition call_ok (c : call) (u : uloop) (fs : list frame) : Prop :=
  match c with
  | NewTimeout p _ => 0 < p /\ t_obj (tms u) !! p = None
  | TimeoutSet _ p _ | TimeoutCancel p | DestroyTimeout p => is_Some (t_obj (tms u) !! p)
  | TimeoutAdd p _ => exists t, t_obj (tms u) !! p = Some t /\ t_pending t = false
  | NewProcess p _ => 0 < p /\ p_obj (prs u) !! p = None
  | ProcessAdd p => is_Some (p_obj (prs u) !! p)
  | ProcessDelete p | DestroyProcess p => is_Some (p_obj (prs u) !! p) /\ held fs <> Some p
  | NewFd p _ _ => 0 < p /\ f_obj (fdv u) !! p = None
  | FdDelete _ p | DestroyFd _ p => p <> WAKER /\ is_Some (f_obj (fdv u) !! p)
  | FdAdd r p fl => p <> WAKER /\ exists f, f_obj (fdv u) !! p = Some f /\
      add_ok r p fl f (fdv u)
  | End_ => True
  | Init _ pipe _ => fs = [Client Main] /\ forall a b, pipe = Some (a, b) -> 0 <= a /\ 0 <= b
  | Done _ => fs = [Client Main]
  end.
(** Moreover no loop is run from the callback of a process; and the kernel reports at most as
    many events as it was asked for, of descriptors it was told to watch. *)
Definition input_ok (i : input) (st : state) : Prop :=
  match i, snd st with
  | Call c, fs => call_ok c (fst st) fs
  | Run _, Client _ :: ProcIter _ _ _ :: _ => False
  | Wait _ (Some evs), _ =>
      (length evs <= 10)%nat /\
      Forall (fun ev => exists fd m, ep (fdv (fst st)) !! fd = Some (ev_ptr ev, m)) evs
  | _, _ => True
  end.
(** Timers are set for less than twelve days, and none is further from the clock. *)
Definition timely (i : input) (st : state) : Prop :=
  match i, snd st with
  | Call (TimeoutSet now _ ms), _ =>
      Z.abs (1000 * ms) <= WINDOW /\
      forall q, q ∈ timeouts (tms (fst st)) -> Z.abs (due (t_obj (tms (fst st))) q - us now) <= WINDOW
  | Call (TimeoutAdd _ time), _ => all_near time (tms (fst st))
  | Next, RunTimeouts tv :: _ => all_near tv (tms (fst st))
  | Wait tv _, _ => all_near tv (tms (fst st))
  | _, _ => True
  end.

Inductive reach (ok : input -> state -> Prop) : state -> Prop :=
  | reach_start : reach ok (start, [Client Main])
  | reach_step i st st' : reach ok st -> ok i st -> step i st = Some st' -> reach ok st'.

(** ** The timers of a reachable state *)

Lemma timeout_set_ok now p ms ts r ts' :
  timers_ok ts -> Z.abs (1000 * ms) <= WINDOW ->
  (forall q, q ∈ timeouts ts -> Z.abs (due (t_obj ts) q - us now) <= WINDOW) ->
  uloop_timeout_set now p ms ts = Some (r, ts') -> timers_ok ts'.
Proof.
  intros Hk Hms Hn H. destruct (t_obj ts !! p) as [t|] eqn:Ht; [|by unfold uloop_timeout_set in H; rewrite Ht in H].
  rewrite (timeout_set_spec _ _ _ _ _ (proj1 Hk) Ht) in H.
  revert H. apply timeout_add_ok; [by apply timers_ok_drop|]. simpl.
  intros t' Ht'. rewrite lookup_insert_eq in Ht'. simplify_eq/=.
  intros q tq Hq Hq'. simpl in *. apply list_elem_of_filter in Hq as [Hne Hq].
  rewrite lookup_insert_ne in Hq' by done. specialize (Hn q Hq).
  rewrite (due_lookup _ _ _ Hq') in Hn. unfold near. rewrite after_us. lia.
Qed.

Lemma timeout_cancel_ok p ts r ts' :
  timers_ok ts -> uloop_timeout_cancel p ts = Some (r, ts') -> timers_ok ts'.
Proof.
  intros Hk H. destruct (t_obj ts !! p) as [t|] eqn:Ht;
    [|by unfold uloop_timeout_cancel in H; rewrite Ht in H].
  destruct (timeout_cancel_spec p ts t (proj1 Hk) Ht) as [r' E]. rewrite E in H. simplify_eq.
  by apply timers_ok_drop.
Qed.

(** Opens the first step of a computation that succeeded. *)
Ltac mopen H :=
  let x := fresh "x" in let E := fresh "E" in
  apply bind_Some in H; destruct H as (x & E & H);
  lazymatch type of x with (_ * _)%type => destruct x | _ => idtac end; simpl in H.

Lemma on_tms_ok f u u' :
  (forall r ts', f (tms u) = Some (r, ts') -> timers_ok ts') ->
  on_tms f u = Some u' -> timers_ok (tms u').
Proof. intros Hf H. unfold on_tms in H. mopen H. simplify_eq/=. eauto. Qed.
Lemma on_prs_frame f u u' :
  on_prs f u = Some u' -> exists r p', f (prs u) = Some (r, p') /\ u' = with_prs p' u.
Proof. intros H. unfold on_prs in H. mopen H. simplify_eq/=. eauto. Qed.
Lemma on_fdv_frame f u u' :
  on_fdv f u = Some u' -> exists r e', f (fdv u) = Some (r, e') /\ u' = with_fdv e' u.
Proof. intros H. unfold on_fdv in H. mopen H. simplify_eq/=. eauto. Qed.
Lemma handle_signal_frame h signo ok u :
  tms (handle_signal h signo ok u) = tms u /\ prs (handle_signal h signo ok u) = prs u /\
  fdv (handle_signal h signo ok u) = fdv u /\ waker_pipe (handle_signal h signo ok u) = waker_pipe u.
Proof. destruct h, ok; done. Qed.

Lemma clear_timeouts_all ts :
  timers_wf ts -> exists ts', uloop_clear_timeouts ts = Some ts' /\ timers_wf ts' /\
    (timers_ok ts -> timers_ok ts') /\ timeouts ts' = [].
Proof.
  intros Hk. destruct (clear_timeouts_spec (timeouts ts) ts Hk) as (ts' & E & Hw' & Hk' & El).
  { intros q. by apply timers_wf_obj. }
  exists ts'. split_and!; [done..|]. rewrite El. apply filter_keeps_none. naive_solver.
Qed.

Lemma done_timers_ok r u u' : timers_ok (tms u) -> uloop_done r u = Some u' -> timers_ok (tms u').
Proof.
  intros Hk H. unfold uloop_done in H. mopen H.
  assert (Et : tms x = tms u).
  { unfold waker_done, poll_done in E.
    destruct (0 <=? waker_pipe _); [mopen E; mopen E|]; simplify_eq; simpl; by bcase. }
  mopen H. mopen H. simplify_eq/=. rewrite Et in E0.
  destruct (clear_timeouts_all (tms u) (proj1 Hk)) as (ts' & E' & _ & Hk' & _). simplify_eq. by apply Hk'.
Qed.
Lemma init_timers_ok fd pipe r u n u' :
  timers_ok (tms u) -> uloop_init fd pipe r u = Some (n, u') -> timers_ok (tms u').
Proof.
  intros Hk H. unfold uloop_init in H.
  destruct (uloop_init_pollfd fd u) as [ret v] eqn:Ev.
  assert (Etv : tms v = tms u) by (unfold uloop_init_pollfd in Ev; repeat case_match; by simplify_eq).
  destruct (ret <? 0); [simplify_eq; by rewrite Etv|]. mopen H.
  assert (Etw : tms u0 = tms v).
  { unfold waker_init in E. destruct (0 <=? waker_pipe v); [by simplify_eq|].
    destruct pipe as [[]|]; [mopen E; mopen E|]; by simplify_eq. }
  destruct (z <? 0); [mopen H|]; simplify_eq/=; [|by rewrite Etw, Etv].
  eapply done_timers_ok; [|exact E0]. by rewrite Etw, Etv.
Qed.

Lemma exec_timers_ok c u fs u' :
  timers_ok (tms u) -> call_ok c u fs -> timely (Call c) (u, fs) -> exec c u = Some u' ->
  timers_ok (tms u').
Proof.
  intros Hk Hc Ht H.
  assert (Hp : forall p t, t_obj (tms u) !! p = Some t -> t_pending t = false -> p ∉ timeouts (tms u)).
  { intros p t. apply not_pending_not_listed, Hk. }
  assert (Hsame : forall p t, p ∉ timeouts (tms u) -> t_pending t = false ->
    timers_ok (Timers (timeouts (tms u)) (<[p := t]> (t_obj (tms u))))).
  { intros p t Hn Hpt. rewrite <- (filter_keeps_all (.≠ p) (timeouts (tms u))) by (by intros x Hx ->).
    by apply timers_ok_drop. }
  destruct c; simpl in *;
    try (apply on_prs_frame in H as (? & ? & ? & ->); done);
    try (apply on_fdv_frame in H as (? & ? & ? & ->); done); simplify_eq/=; try done.
  - apply Hsame; [|done]. intros (t & Ht' & _)%Hk. naive_solver.
  - eapply on_tms_ok; [|exact H]. intros r' ts' E. destruct Ht. by eapply timeout_set_ok.
  - destruct Hc as (t & Et & Hpt). rewrite Et in H. simpl in H.
    eapply on_tms_ok; [|exact H]. simpl. intros r' ts'. apply timeout_add_ok.
    + apply Hsame; [by eapply Hp|by rewrite Hpt].
    + simpl. intros t'. rewrite lookup_insert_eq. intros [= <-] q tq Hq Hq'. simpl in *.
      rewrite lookup_insert_ne in Hq'; [by apply (Ht q)|]. intros ->. by eapply Hp.
  - eapply on_tms_ok; [|exact H]. intros r' ts'. by apply timeout_cancel_ok.
  - mopen H. simplify_eq/=. unfold on_tms in E. mopen E. simplify_eq/=.
    destruct Hc as [t' Et]. destruct (timeout_cancel_spec p (tms u) t' (proj1 Hk) Et) as [r' E'].
    simplify_eq. apply timers_ok_delete; [by apply timers_ok_drop|]. simpl.
    rewrite list_elem_of_filter. naive_solver.
  - mopen H. simplify_eq/=. apply on_prs_frame in E as (? & ? & ? & ->). done.
  - mopen H. simplify_eq/=. apply on_fdv_frame in E as (? & ? & ? & ->). done.
  - mopen H. simplify_eq/=. by eapply init_timers_ok.
  - by eapply done_timers_ok.
Qed.

Lemma call_fd_frame p ev u fs u' fs' :
  call_fd p ev u fs = Some (u', fs') ->
  tms u' = tms u /\ prs u' = prs u /\ fdv u' = fdv u /\ waker_pipe u' = waker_pipe u.
Proof. intros H. unfold call_fd in H. mopen H. repeat case_match; by simplify_eq. Qed.

Lemma step_timers_ok i st st' :
  timers_ok (tms (fst st)) -> input_ok i st -> timely i st -> step i st = Some st' ->
  timers_ok (tms (fst st')).
Proof.
  destruct st as [u fs], st' as [u' fs']. intros Hk Hi Ht H. simpl in *.
  destruct i; simpl in H;
    lazymatch goal with
    | H : match fs with _ => _ end = _ |- _ => destruct fs as [|[] fs]; simplify_eq/=; try done
    | _ => idtac
    end.
  - by case_match; simplify_eq.
  - by case_match; simplify_eq.
  - by case_match; simplify_eq.
  - unfold process_timeouts in H. destruct (timeouts (tms u)) as [|p l]; [by simplify_eq|].
    mopen H. case_match; [by simplify_eq|]. mopen H. simplify_eq/=.
    eapply on_tms_ok; [|exact E0]. intros r ts'. by apply timeout_cancel_ok.
  - unfold process_iter in H. case_match; [by simplify_eq|]. mopen H.
    case_match; [by simplify_eq|]. case_match; [by simplify_eq|]. mopen H. simplify_eq/=.
    by apply on_prs_frame in E0 as (? & ? & _ & ->).
  - unfold events_done in H. destruct (fd_stack (fdv u)) as [|[] ?]; [done|].
    case_match; [|by simplify_eq]. apply call_fd_frame in H as (-> & _). done.
  - by case_match; simplify_eq.
  - by repeat case_match; simplify_eq.
  - case_match; [by simplify_eq|]. unfold poll_step in H. mopen H. mopen H.
    destruct o as [[]|]; [|by simplify_eq]. apply call_fd_frame in H as (-> & _). done.
  - mopen H. simplify_eq/=. by eapply exec_timers_ok.
  - simplify_eq/=. by rewrite (proj1 (handle_signal_frame _ _ _ _)).
Qed.

Lemma reach_timers_ok st :
  reach (fun i st => input_ok i st /\ timely i st) st -> timers_ok (tms (fst st)).
Proof.
  induction 1 as [|i st st' _ IH [Hi Ht] Hs]; [|by eapply step_timers_ok].
  split; [split|]; simpl; [constructor| |constructor].
  intros p. rewrite elem_of_nil, lookup_empty. naive_solver.
Qed.

Lemma ordered_first obj p l q : ordered (due obj <$> p :: l) -> q ∈ p :: l -> due obj p < due obj q + 1000.
Proof.
  intros [_ Ha]%StronglySorted_inv [->|Hq]%elem_of_cons; [lia|].
  rewrite Forall_forall in Ha. apply Ha. by apply list_elem_of_fmap_2.
Qed.

Lemma process_timeouts_spec tv u fs :
  timers_ok (tms u) -> all_near tv (tms u) ->
  exists st', process_timeouts tv u fs = Some st' /\
    ((exists p t, t_obj (tms u) !! p = Some t /\ p ∈ timeouts (tms u) /\ us (t_time t) < us tv + 1000 /\
        (forall q, q ∈ timeouts (tms u) -> due (t_obj (tms u)) p < due (t_obj (tms u)) q + 1000) /\
        timeouts (tms (fst st')) = filter (.≠ p) (timeouts (tms u)) /\
        snd st' = (if t_cb t then [Client (CbTimeout p)] else []) ++ RunTimeouts tv :: fs) \/
     (st' = (u, fs) /\ forall q, q ∈ timeouts (tms u) -> us tv < due (t_obj (tms u)) q + 1000)).
Proof.
  intros [Hw Ho] Hn. unfold process_timeouts. destruct (timeouts (tms u)) as [|p l] eqn:El.
  { exists (u, fs). split; [done|]. right. split; [done|]. intros q []%elem_of_nil. }
  assert (Hp : p ∈ timeouts (tms u)) by (rewrite El; left).
  destruct (timers_wf_obj _ _ Hw Hp) as [t Ht]. rewrite Ht, bind_some.
  pose proof (Hn p t Hp Ht) as Hnp.
  bcase.
  - exists (u, fs). split; [done|]. right. split; [done|]. intros q Hq.
    pose proof (ordered_first _ _ _ _ Ho Hq) as Hf. rewrite (due_lookup _ _ _ Ht) in Hf.
    pose proof (tv_diff_later _ _ Hnp ltac:(done)). lia.
  - unfold on_tms. destruct (timeout_cancel_spec p (tms u) t Hw Ht) as [r ->]. simpl.
    eexists. split; [done|]. left. exists p, t. simpl. rewrite El in *. split_and!; try done.
    + apply tv_diff_not_later; [done|lia].
    + intros q Hq. by eapply ordered_first.
    + by destruct (t_cb t).
Qed.

Lemma poll_timeout_spec timeout tv u :
  timers_ok (tms u) -> all_near tv (tms u) ->
  exists w, poll_timeout timeout tv u = Some w /\
    (timeouts (tms u) = [] -> w = -1) /\
    (forall q, q ∈ timeouts (tms u) ->
       0 <= w /\ us tv + 1000 * w < Z.max (us tv) (due (t_obj (tms u)) q) + 2000).
Proof.
  intros [Hw Ho] Hn. unfold poll_timeout, uloop_get_next_timeout.
  destruct (timeouts (tms u)) as [|p l] eqn:El.
  { exists (-1). simpl. split_and!; [|done|intros q []%elem_of_nil].
    by destruct (0 <=? timeout) eqn:E, (timeout <? -1) eqn:E'; btest; simpl; try lia. }
  assert (Hp : p ∈ timeouts (tms u)) by (rewrite El; left).
  destruct (timers_wf_obj _ _ Hw Hp) as [t Ht]. rewrite Ht. simpl.
  pose proof (tv_diff_near _ _ (Hn p t Hp Ht)) as Hd.
  eexists. split_and!; [done|done|]. intros q Hq.
  pose proof (ordered_first _ _ _ _ Ho Hq) as Hf. rewrite (due_lookup _ _ _ Ht) in Hf.
  destruct (tv_diff (t_time t) tv <? 0) eqn:E1; btest;
    destruct (0 <=? timeout) eqn:E2; btest; simpl; repeat bcase; lia.
Qed.

(** C14. The timers of the loop are served in order and on time. Over any run in which clients
    keep to the rules, set timers for less than twelve days and leave none that long overdue,
    with callbacks that set, cancel and free timers and run the loop again: the list holds
    exactly the pending timers, each once, and one stands before another only if it is due less
    than a millisecond later. A turn of [uloop_process_timeouts] takes out and calls a timer
    that is due within less than a millisecond, before which no other is due by a millisecond
    or more, or it ends, and then no timer is overdue by a millisecond. The time the loop
    then waits is over less than two milliseconds after any timer is due, and without a limit
    only where there is no timer. *)
Theorem uloop_timers_timely u fs :
  reach (fun i st => input_ok i st /\ timely i st) (u, fs) ->
  timers_ok (tms u) /\
  (forall tv fs1, fs = RunTimeouts tv :: fs1 -> all_near tv (tms u) ->
    exists st', step Next (u, fs) = Some st' /\
    ((exists p t, t_obj (tms u) !! p = Some t /\ p ∈ timeouts (tms u) /\ us (t_time t) < us tv + 1000 /\
        (forall q, q ∈ timeouts (tms u) -> due (t_obj (tms u)) p < due (t_obj (tms u)) q + 1000) /\
        timeouts (tms (fst st')) = filter (.≠ p) (timeouts (tms u)) /\
        snd st' = (if t_cb t then [Client (CbTimeout p)] else []) ++ fs) \/
     (st' = (u, fs1) /\ forall q, q ∈ timeouts (tms u) -> us tv < due (t_obj (tms u)) q + 1000))) /\
  (forall timeout tv, all_near tv (tms u) ->
    exists w, poll_timeout timeout tv u = Some w /\
      (timeouts (tms u) = [] -> w = -1) /\
      (forall q, q ∈ timeouts (tms u) ->
         0 <= w /\ us tv + 1000 * w < Z.max (us tv) (due (t_obj (tms u)) q) + 2000)).
Proof.
  intros Hr. pose proof (reach_timers_ok _ Hr) as Hk. simpl in Hk. split_and!; [done| |].
  - intros tv fs1 -> Hn. by apply process_timeouts_spec.
  - intros timeout tv Hn. by apply poll_timeout_spec.
Qed.

(** Runs given by their inputs. *)
Fixpoint allowed (ok : input -> state -> Prop) (ins : list input) (st : state) : Prop :=
  match ins with
  | [] => True
  | i :: ins => ok i st /\ match step i st with Some st => allowed ok ins st | None => True end
  end.
Lemma reach_steps ok ins st st' :
  reach ok st -> allowed ok ins st -> steps ins st = Some st' -> reach ok st'.
Proof.
  revert st. induction ins as [|i ins IH]; simpl; intros st Hr Ha Hs; [by simplify_eq|].
  destruct Ha as [Hi Ha]. destruct (step i st) as [st1|] eqn:E; [|done]. simpl in Hs.
  eapply IH; [by eapply reach_step|done|done].
Qed.

Lemma allow_step ok i ins st st' :
  step i st = Some st' -> ok i st -> allowed ok ins st' -> allowed ok (i :: ins) st.
Proof. intros E Hi Ha. simpl. by rewrite E. Qed.
Ltac allow :=
  repeat match goal with
  | |- allowed _ [] _ => exact I
  | |- allowed _ (?i :: ?r) ?st =>
      let x := eval vm_compute in (step i st) in
      lazymatch x with Some ?st' => apply (allow_step _ i r st st'); [vm_compute; reflexivity| |] end
  end.

(** The rules at a given state. *)
Ltac allow_rule :=
  lazy [input_ok call_ok timely fst snd tms prs fdv t_obj timeouts p_obj processes];
  repeat match goal with
  | |- _ /\ _ => split
  | |- is_Some _ => eexists
  | |- forall q, q ∈ _ -> _ =>
      let Hq := fresh in
      intros ? Hq; repeat (apply elem_of_cons in Hq as [->|Hq]); try (by apply elem_of_nil in Hq)
  | |- _ <-> _ => fail 1
  | |- _ -> _ => intro; simplify_eq
  | |- forall _, _ => intro
  end; try (vm_compute; done).

(** Two timers are set, the loop is run, and six milliseconds later the first is due. *)
Definition two_timers : list input :=
  [Call (Init 3 (Some (4, 5)) 0); Call (NewTimeout 100 true); Call (NewTimeout 101 true);
   Call (TimeoutSet (Tv 10 0) 101 500); Call (TimeoutSet (Tv 10 0) 100 5); Run (-1); Clock (Tv 10 6000)].
Definition two_timers_state : state := default (start, []) (steps two_timers (start, [Client Main])).

Lemma two_timers_reach : reach (fun i st => input_ok i st /\ timely i st) two_timers_state.
Proof.
  apply (reach_steps _ two_timers (start, [Client Main])); [constructor| |vm_compute; reflexivity].
  unfold two_timers, start. allow; allow_rule.
Qed.

Lemma uloop_timers_timely_witness :
  timers_ok (tms (fst two_timers_state)) /\ timeouts (tms (fst two_timers_state)) = [100; 101].
Proof.
  split; [|vm_compute; reflexivity].
  pose proof two_timers_reach as H. rewrite (surjective_pairing two_timers_state) in H.
  exact (proj1 (uloop_timers_timely _ _ H)).
Defined.
