(* ===== verification/ULoopSafety.v ===== *)
(** * The event loop never touches what a client has freed

    The invariant of the descriptors, of the processes and of the stack of control, and its
    preservation by every step; then what [uloop_done] gives back, and runs in which a client
    breaks a rule. *)

From S2P Require Import Prelude ULoop ULoopSpec.
From stdpp Require Import base tactics numbers list gmap.
From Stdlib Require Import ZArith Lia Sorted.
Open Scope Z_scope.
Import ULoop.

(** ** The stack of running callbacks *)

(** A frame with events kept for it is of a live, edge-triggered descriptor, and no frame nearer
    to the top is of the same one. *)
Definition stack_ok (obj : gmap Z uloop_fd) (s : list (Z * Z)) : Prop :=
  Forall (fun a => a.1 <> 0 -> a.2 <> 0 -> exists f, obj !! a.1 = Some f /\ f_cb f = true /\ edge f) s /\
  StronglySorted (fun a b => a.1 = b.1 -> b.1 <> 0 -> b.2 = 0) s.
(** No events are kept for [p]. *)
Definition quiet (p : Z) (s : list (Z * Z)) : Prop := Forall (fun a => a.1 = p -> a.2 = 0) s.
(** Each frame is as it was or has lost its descriptor. *)
Definition cleared (s s' : list (Z * Z)) : Prop := Forall2 (fun a b => b = a \/ b = (0, a.2)) s s'.

Lemma cleared_refl s : cleared s s.
Proof. induction s; constructor; [by left|done]. Qed.

Lemma stack_ok_change obj obj' p s :
  stack_ok obj s -> quiet p s -> (forall q, q <> p -> obj' !! q = obj !! q) -> stack_ok obj' s.
Proof.
  intros [Hf Hs] Hq Ho. split; [|done]. unfold quiet in Hq. rewrite Forall_forall in Hf, Hq |- *.
  intros a Ha H1 H2. rewrite Ho; [by apply Hf|]. intros E. by apply H2, Hq.
Qed.
Lemma stack_ok_mono obj obj' s :
  stack_ok obj s ->
  (forall q f, obj !! q = Some f -> f_cb f = true -> edge f ->
     exists f', obj' !! q = Some f' /\ f_cb f' = true /\ edge f') ->
  stack_ok obj' s.
Proof.
  intros [Hf Hs] Ho. split; [|done]. eapply Forall_impl; [exact Hf|]. simpl.
  intros a H H1 H2. destruct (H H1 H2) as (f & Hl & Hc & He). by eapply Ho.
Qed.

Lemma stack_ok_clear obj p s :
  stack_ok obj s -> p <> 0 ->
  stack_ok obj (stack_event p (-1) s).2 /\ quiet p (stack_event p (-1) s).2 /\
  cleared s (stack_event p (-1) s).2.
Proof.
  intros [Hf Hs] Hp. induction s as [|[q ev] s IH]; simpl; [by repeat constructor|].
  apply Forall_cons in Hf as [Hq Hf]. apply StronglySorted_inv in Hs as [Hs Ha].
  bcase; simpl.
  - subst q. split_and!.
    + split; [constructor; [simpl; done|done]|]. constructor; [done|].
      eapply Forall_impl; [exact Ha|]. simpl. intros b _ E1 E2. by rewrite <- E1 in E2.
    + constructor; [simpl; congruence|]. eapply Forall_impl; [exact Ha|]. simpl.
      intros b H E. apply H; congruence.
    + constructor; [by right|apply cleared_refl].
  - destruct (stack_event p (-1) s) as [b s'] eqn:E. simpl in *.
    destruct IH as ([Hf' Hs'] & Hq' & Hc); [done..|]. split_and!.
    + split; [by constructor|]. constructor; [done|]. clear -Ha Hc.
      induction Hc as [|x y s s' Hxy Hc IH]; [constructor|]. apply Forall_cons in Ha as [Hx Ha].
      constructor; [|by apply IH]. destruct Hxy as [->| ->]; [done|]. simpl. intros E1 E2. by rewrite <- E1 in E2.
    + constructor; [simpl; congruence|done].
    + constructor; [by left|done].
Qed.

Lemma stack_event_touched p ev s :
  0 <= ev -> Forall2 (fun a b => b = a \/ a.1 = p /\ b.1 = p) s (stack_event p ev s).2.
Proof.
  intros Hev. induction s as [|[q e] s IH]; simpl; [constructor|]. bcase; simpl.
  - subst q. rewrite (proj2 (Z.ltb_ge ev 0)) by done. constructor; [by right|].
    clear. induction s; constructor; [by left|done].
  - destruct (stack_event p ev s); simpl in *. constructor; [by left|done].
Qed.
Lemma stack_event_fst p ev s : 0 <= ev -> (stack_event p ev s).2.*1 = s.*1.
Proof.
  intros Hev. pose proof (stack_event_touched p ev s Hev) as H.
  revert H. generalize (stack_event p ev s).2. clear. intros s' H.
  induction H as [|a b s s' Hab _ IH]; [done|]. rewrite !fmap_cons, IH. f_equal. destruct Hab; intuition congruence.
Qed.

Lemma stack_ok_add obj p ev s f :
  stack_ok obj s -> p <> 0 -> 0 <= ev -> obj !! p = Some f -> f_cb f = true -> edge f ->
  stack_ok obj (stack_event p ev s).2 /\
  ((stack_event p ev s).1 = false -> p ∉ s.*1 /\ (stack_event p ev s).2 = s).
Proof.
  intros [Hf Hs] Hp Hev Ho Hc He. induction s as [|[q e] s IH]; simpl.
  { split_and!; [by repeat constructor|]. set_solver. }
  apply Forall_cons in Hf as [Hq Hf]. apply StronglySorted_inv in Hs as [Hs Ha].
  pose proof (stack_event_touched p ev s Hev) as Ht.
  bcase; simpl.
  - subst q. rewrite (proj2 (Z.ltb_ge ev 0)) by done. split; [|done].
    split; [constructor; [by eauto|done]|]. constructor; [done|]. exact Ha.
  - destruct (stack_event p ev s) as [b s'] eqn:E. simpl in *.
    destruct IH as ([Hf' Hs'] & Hb); [done..|]. split.
    + split; [by constructor|]. constructor; [done|]. clear -Ha Ht Heqb.
      induction Ht as [|x y s s' Hxy Ht IH]; [constructor|]. apply Forall_cons in Ha as [Hx Ha].
      constructor; [|by apply IH]. destruct Hxy as [->|[_ Ey]]; [done|]. simpl. congruence.
    + intros ->. destruct Hb as [Hb ->]; [done|]. split; [|done]. set_solver.
Qed.

(** ** Descriptors *)

Definition window (e : fds) : list (Z * Z) :=
  take (Z.to_nat (cur_nfds e)) (drop (Z.to_nat (cur_fd e)) (cur_fds e)).
(** An event is of a live descriptor, or has lost it. *)
Definition live (obj : gmap Z uloop_fd) (c : Z * Z) : Prop := c.1 <> 0 -> is_Some (obj !! c.1).

Record fds_ok (e : fds) : Prop := FdsOk {
  fo_len : length (cur_fds e) = 10%nat;
  fo_cur : 0 <= cur_fd e /\ 0 <= cur_nfds e /\ cur_fd e + cur_nfds e <= 10;
  fo_window : Forall (live (f_obj e)) (window e);
  fo_events : Forall (fun c => 0 <= c.2) (cur_fds e);
  fo_ep : forall fd p m, ep e !! fd = Some (p, m) ->
    exists f, f_obj e !! p = Some f /\ f_fd f = fd /\ registered f = true;
  fo_edge : forall p f, f_obj e !! p = Some f -> registered f = false -> ~ edge f;
  fo_stack : stack_ok (f_obj e) (fd_stack e);
  fo_waker : exists f, f_obj e !! WAKER = Some f /\ f_cb f = true;
  fo_null : f_obj e !! 0 = None
}.

Lemma window_bound e : fds_ok e -> (Z.to_nat (cur_fd e) + Z.to_nat (cur_nfds e) <= 10)%nat.
Proof. intros [_ ? _ _ _ _ _ _ _]. lia. Qed.

Lemma clear_fetched_spec p e :
  fds_ok e -> p <> 0 -> exists c, clear_fetched p e = Some (with_cur c (cur_fd e) (cur_nfds e) e) /\
    length c = 10%nat /\ Forall (fun c => 0 <= c.2) c /\
    Forall (fun c => live (f_obj e) c /\ c.1 <> p) (window (with_cur c (cur_fd e) (cur_nfds e) e)) /\
    (cur_nfds e = 0 -> c = cur_fds e).
Proof.
  intros Hok Hp. pose proof (window_bound _ Hok) as Hb. destruct Hok as [Hl _ Hw He _ _ _ _ _].
  unfold clear_fetched. rewrite (proj2 (Nat.leb_le _ _)) by (rewrite Hl; lia).
  eexists. split; [done|].
  set (i := Z.to_nat (cur_fd e)) in *. set (n := Z.to_nat (cur_nfds e)) in *.
  unfold window in *. simpl. fold i n in Hw |- *. split_and!.
  - rewrite !length_app, length_fmap, !length_take, !length_drop. lia.
  - rewrite <- (take_drop i (cur_fds e)), <- (take_drop n (drop i (cur_fds e))) in He.
    apply Forall_app in He as [H1 H2]. apply Forall_app in H2 as [H2 H3].
    rewrite drop_drop in H3. apply Forall_app; split; [done|]. apply Forall_app; split; [|done].
    apply Forall_fmap. eapply Forall_impl; [exact H2|]. simpl. intros [] ?. by bcase.
  - rewrite drop_app_length' by (rewrite length_take; lia).
    rewrite take_app_length' by (rewrite length_fmap, length_take, length_drop; lia).
    apply Forall_fmap. eapply Forall_impl; [exact Hw|]. intros [q ev] Hq. simpl.
    bcase; simpl; [split; [by intros []|done]|]. by split.
  - intros E0. assert (n = 0%nat) as -> by lia. simpl. rewrite Nat.add_0_r. apply take_drop.
Qed.

Lemma edge_dec f : edge f \/ ~ edge f.
Proof. unfold edge. destruct (has _ _); [by left|by right]. Qed.
Lemma quiet_level obj p f s : stack_ok obj s -> p <> 0 -> obj !! p = Some f -> ~ edge f -> quiet p s.
Proof.
  intros [Hf _] Hp Ho He. eapply Forall_impl; [exact Hf|]. simpl. intros a H <-.
  destruct (decide (a.2 = 0)) as [|Hn]; [done|]. destruct (H Hp Hn) as (f' & ? & _ & ?). naive_solver congruence.
Qed.

(** What an operation on [p] leaves of the descriptors: the structure of [p] changes, frames
    lose it, events lose it. *)
Lemma fds_ok_replace e e' p f f' :
  fds_ok e -> p <> 0 -> f_obj e !! p = Some f -> f_obj e' = <[p := f']> (f_obj e) ->
  f_cb f' = f_cb f -> (registered f' = false -> ~ edge f') ->
  length (cur_fds e') = 10%nat -> cur_fd e' = cur_fd e -> cur_nfds e' = cur_nfds e ->
  Forall (live (f_obj e)) (window e') -> Forall (fun c => 0 <= c.2) (cur_fds e') ->
  (forall fd q m, ep e' !! fd = Some (q, m) ->
     q <> p /\ ep e !! fd = Some (q, m) \/ q = p /\ f_fd f' = fd /\ registered f' = true) ->
  stack_ok (f_obj e') (fd_stack e') -> fds_ok e'.
Proof.
  intros [Hl Hc Hw Hev Hep Hed Hst Hwk Hnl] Hp Hf Ho Hcb Hre Hl' Ec En Hw' Hev' Hep' Hst'.
  assert (Hlive : forall c, live (f_obj e) c -> live (f_obj e') c).
  { intros c H Hn. rewrite Ho. destruct (decide (c.1 = p)) as [->|?];
      [by rewrite lookup_insert_eq|rewrite lookup_insert_ne by done; by apply H]. }
  split; [done|by rewrite Ec, En| |done| | |done| |].
  - eapply Forall_impl; [exact Hw'|]. exact Hlive.
  - intros fd q m H. rewrite Ho. destruct (Hep' _ _ _ H) as [[Hne Hq]|(-> & <- & Hr)].
    + rewrite lookup_insert_ne by done. by eapply Hep.
    + exists f'. by rewrite lookup_insert_eq.
  - intros q g. rewrite Ho. destruct (decide (q = p)) as [->|?];
      [rewrite lookup_insert_eq; naive_solver|rewrite lookup_insert_ne by done; by apply Hed].
  - rewrite Ho. destruct (decide (p = WAKER)) as [->|?];
      [rewrite lookup_insert_eq; naive_solver congruence|by rewrite lookup_insert_ne].
  - rewrite Ho. by rewrite lookup_insert_ne.
Qed.

Lemma fd_delete_spec r p e f :
  fds_ok e -> p <> 0 -> f_obj e !! p = Some f ->
  exists n e' f', uloop_fd_delete r p e = Some (n, e') /\ fds_ok e' /\
    f_obj e' = <[p := f']> (f_obj e) /\ f_cb f' = f_cb f /\ f_fd f' = f_fd f /\ registered f' = false /\
    cleared (fd_stack e) (fd_stack e') /\ quiet p (fd_stack e') /\
    Forall (fun c => c.1 <> p) (window e') /\ (forall fd q m, ep e' !! fd = Some (q, m) -> q <> p) /\
    cur_fd e' = cur_fd e /\ cur_nfds e' = cur_nfds e /\ (cur_nfds e = 0 -> cur_fds e' = cur_fds e).
Proof.
  intros Hok Hp Hf. destruct (clear_fetched_spec p e Hok Hp) as (c & Ec & Hlc & Hev & Hw & H0).
  apply Forall_and in Hw as [Hw1 Hw2]. pose proof (fo_stack _ Hok) as Hst.
  unfold uloop_fd_delete. rewrite Ec, bind_some. simpl. rewrite Hf, bind_some.
  destruct (registered f) eqn:Hr; simpl.
  - unfold uloop_fd_stack_event. simpl. rewrite lookup_insert_eq. simpl.
    assert (exists s', (if negb (has (flags f) ULOOP_EDGE_TRIGGER) then fd_stack e
                        else (stack_event p (-1) (fd_stack e)).2) = s' /\
      stack_ok (f_obj e) s' /\ quiet p s' /\ cleared (fd_stack e) s') as (s' & Es & Hs1 & Hs2 & Hs3).
    { destruct (has (flags f) ULOOP_EDGE_TRIGGER) eqn:He; simpl; (eexists; split; [done|]).
      - by apply stack_ok_clear.
      - split_and!; [done| |apply cleared_refl]. eapply quiet_level; [done..|]. unfold edge. congruence. }
    set (f' := Fd (f_cb f) (f_fd f) (eof f) (error f) false 0).
    exists r, (with_ep (delete (f_fd f) (ep e)) (with_stack s'
           (with_obj (insert p f') (with_cur c (cur_fd e) (cur_nfds e) e)))), f'.
    split.
    { destruct (negb _) eqn:He; simpl; [|destruct (stack_event _ _ _) as [b' s''] eqn:E; simpl];
        unfold __uloop_fd_delete, with_obj, with_ep, with_stack; simpl; rewrite lookup_insert_eq; simpl;
        rewrite insert_insert_eq; simplify_eq/=; done. }
    split_and!; simpl; try done.
    + eapply (fds_ok_replace e _ p f f'); simpl; try done.
      * intros fd q m Hd. apply lookup_delete_Some in Hd as [Hne Hd].
        left. split; [|done]. intros ->. destruct (fo_ep _ Hok _ _ _ Hd) as (g & Hg & Eg & _). congruence.
      * eapply stack_ok_change; [exact Hs1|exact Hs2|]. intros q Hq. by rewrite lookup_insert_ne.
    + intros fd q m Hd ->. apply lookup_delete_Some in Hd as [Hne Hd].
      destruct (fo_ep _ Hok _ _ _ Hd) as (g & Hg & Eg & _). congruence.
  - assert (He : ~ edge f) by by eapply fo_edge.
    exists 0, (with_cur c (cur_fd e) (cur_nfds e) e), f. split_and!; simpl; try done.
    + eapply (fds_ok_replace e _ p f f); simpl; try done.
      * by rewrite insert_id.
      * intros fd q m Hd. left. split; [|done]. intros ->.
        destruct (fo_ep _ Hok _ _ _ Hd) as (g & Hg & Eg & ?). congruence.
    + by rewrite insert_id.
    + apply cleared_refl.
    + by eapply quiet_level.
    + intros fd q m Hd ->. destruct (fo_ep _ Hok _ _ _ Hd) as (g & Hg & Eg & ?). congruence.
Qed.

Lemma has_u8_edge fl : has (u8 fl) ULOOP_EDGE_TRIGGER = has fl ULOOP_EDGE_TRIGGER.
Proof.
  unfold has, u8. change 256 with (2 ^ 8). rewrite <- Z.land_ones by done.
  by rewrite <- Z.land_assoc.
Qed.

Lemma fd_add_spec r p fl e f :
  fds_ok e -> p <> 0 -> f_obj e !! p = Some f -> add_ok r p fl f e ->
  exists n e' f', uloop_fd_add r p fl e = Some (n, e') /\ fds_ok e' /\
    f_obj e' = <[p := f']> (f_obj e) /\ f_cb f' = f_cb f /\ f_fd f' = f_fd f /\
    cleared (fd_stack e) (fd_stack e').
Proof.
  intros Hok Hp Hf Hadd. unfold uloop_fd_add.
  destruct (has fl (Z.lor ULOOP_READ ULOOP_WRITE)) eqn:Hrw; simpl.
  2:{ destruct (fd_delete_spec r p e f Hok Hp Hf) as (n & e' & f' & E & H). exists n, e', f'. naive_solver. }
  destruct (Hadd Hrw) as [Hlev Href]. rewrite Hf, bind_some.
  set (e1 := if negb (registered f) && negb (has fl ULOOP_BLOCKING)
             then with_nonblock ({[f_fd f]} ∪ nonblock e) e else e).
  assert (H1 : f_obj e1 = f_obj e /\ ep e1 = ep e /\ cur_fds e1 = cur_fds e /\ cur_fd e1 = cur_fd e /\
               cur_nfds e1 = cur_nfds e /\ fd_stack e1 = fd_stack e) by (subst e1; by bcase).
  destruct H1 as (Eo & Ee & Ecf & Ec & En & Es).
  unfold register_poll. rewrite Eo, Hf. simpl.
  set (g := Fd (f_cb f) (f_fd f) (eof f) (error f) (registered f) (u8 fl)).
  assert (Hst : forall f', f_cb f' = f_cb f -> flags f' = u8 fl ->
    stack_ok (<[p := f']> (f_obj e)) (fd_stack e)).
  { intros f' Ecb Efl. pose proof (fo_stack _ Hok) as Hst.
    destruct (decide (p ∈ (fd_stack e).*1)) as [Hin|Hin].
    - eapply stack_ok_mono; [exact Hst|]. intros q h Hq Hcb Hed.
      destruct (decide (q = p)) as [->|Hne]; [|rewrite lookup_insert_ne by done; eauto].
      simplify_eq. rewrite lookup_insert_eq. exists f'. split_and!; [done|congruence|].
      unfold edge. rewrite Efl, has_u8_edge. by apply Hlev.
    - eapply (stack_ok_change _ _ p); [exact Hst| |intros q Hq; by rewrite lookup_insert_ne].
      apply Forall_forall. intros a Ha <-. destruct Hin. by apply list_elem_of_fmap_2. }
  assert (Hwin : window e1 = window e) by (unfold window; by rewrite Ecf, Ec, En).
  assert (Hepne : forall fd q m, ep e !! fd = Some (q, m) ->
    q <> p /\ ep e !! fd = Some (q, m) \/ q = p /\ f_fd f = fd /\ registered f = true).
  { intros fd q m Hd. destruct (decide (q = p)) as [->|]; [right|by left].
    destruct (fo_ep _ Hok _ _ _ Hd) as (h & Hh & ? & ?). by simplify_eq. }
  destruct (r <? 0) eqn:Hr; btest; simpl.
  - exists r, (with_obj (insert p g) e1), g. split_and!; try done; simpl.
    + eapply (fds_ok_replace e _ p f g); try done; simpl.
      * by rewrite Eo.
      * intros Hre. unfold edge. simpl. rewrite has_u8_edge. simpl in Hre. by rewrite Href.
      * by rewrite Ecf, (fo_len _ Hok).
      * change (Forall (live (f_obj e)) (window e1)). rewrite Hwin. apply Hok.
      * rewrite Ecf. apply Hok.
      * by rewrite Ee.
      * rewrite Eo, Es. by apply Hst.
    + by rewrite Eo.
    + rewrite Es. apply cleared_refl.
  - rewrite lookup_insert_eq. simpl.
    set (g' := Fd (f_cb f) (f_fd f) false false true (u8 fl)).
    eexists r, _, g'. split; [done|]. split_and!; try done; simpl.
    + eapply (fds_ok_replace e _ p f g'); try done; simpl.
      * by rewrite Eo, insert_insert_eq.
      * by rewrite Ecf, (fo_len _ Hok).
      * change (Forall (live (f_obj e)) (window e1)). rewrite Hwin. apply Hok.
      * rewrite Ecf. apply Hok.
      * intros fd q m. rewrite Ee. destruct (decide (fd = f_fd f)) as [->|Hne].
        -- rewrite lookup_insert_eq. intros [= <- <-]. by right.
        -- rewrite lookup_insert_ne by done. intros Hd. destruct (Hepne _ _ _ Hd) as [|(-> & ? & ?)]; [by left|].
           by destruct Hne.
      * rewrite Eo, Es, insert_insert_eq. by apply Hst.
    + by rewrite Eo, insert_insert_eq.
    + rewrite Es. apply cleared_refl.
Qed.

(** *** Fetching *)

Lemma fds_ok_field e p f f' :
  fds_ok e -> p <> 0 -> f_obj e !! p = Some f ->
  f_cb f' = f_cb f -> f_fd f' = f_fd f -> registered f' = registered f -> flags f' = flags f ->
  fds_ok (with_obj (insert p f') e).
Proof.
  intros Hok Hp Hf Hcb Hfd Hr Hfl. eapply (fds_ok_replace e _ p f f'); simpl; try done; try apply Hok.
  - intros Hre. unfold edge. rewrite Hfl. eapply (fo_edge _ Hok); [done|congruence].
  - intros fd q m Hd. destruct (decide (q = p)) as [->|]; [right|by left].
    destruct (fo_ep _ Hok _ _ _ Hd) as (h & Hh & ? & ?). simplify_eq. by rewrite Hfd, Hr.
  - eapply stack_ok_mono; [apply Hok|]. intros q h Hq Hc He.
    destruct (decide (q = p)) as [->|Hne]; [|rewrite lookup_insert_ne by done; eauto].
    simplify_eq. rewrite lookup_insert_eq. exists f'. split_and!; [done|congruence|]. unfold edge. by rewrite Hfl.
Qed.

(** A descriptor that is not registered stays so. *)
Definition keeps_unregistered (o o' : gmap Z uloop_fd) : Prop :=
  forall p f, o !! p = Some f -> registered f = false -> exists f', o' !! p = Some f' /\ registered f' = false.
Lemma keeps_insert o o' p f f' :
  keeps_unregistered o o' -> o' !! p = Some f -> (registered f = false -> registered f' = false) ->
  keeps_unregistered o (<[p := f']> o').
Proof.
  intros H Hp Hr q g Hq Hg. destruct (H q g Hq Hg) as (g' & Hg' & ?).
  destruct (decide (q = p)) as [->|Hne]; [rewrite lookup_insert_eq|rewrite lookup_insert_ne by done; by eauto].
  simplify_eq. eauto.
Qed.

(** The state of the loop over the events: none is to be handled yet, and the first [n] are
    filled in. *)
Record fetching (n : Z) (e0 e : fds) : Prop := Fetching {
  fe_ok : fds_ok e;
  fe_cur : cur_nfds e = 0 /\ cur_fd e = 0;
  fe_live : Forall (live (f_obj e)) (take (Z.to_nat n) (cur_fds e));
  fe_dom : forall p, is_Some (f_obj e !! p) <-> is_Some (f_obj e0 !! p);
  fe_reg : keeps_unregistered (f_obj e0) (f_obj e);
  fe_stack : cleared (fd_stack e0) (fd_stack e)
}.

Lemma is_Some_insert (m : gmap Z uloop_fd) p f q :
  is_Some (m !! p) -> is_Some (<[p := f]> m !! q) <-> is_Some (m !! q).
Proof.
  intros Hp. destruct (decide (q = p)) as [->|Hne];
    [by rewrite lookup_insert_eq; naive_solver|by rewrite lookup_insert_ne].
Qed.

Lemma cleared_trans s1 s2 s3 : cleared s1 s2 -> cleared s2 s3 -> cleared s1 s3.
Proof.
  intros H. revert s3. induction H as [|a b s s' Hab H IH]; intros s3 H3.
  - by apply Forall2_nil_inv_l in H3 as ->; constructor.
  - apply Forall2_cons_inv_l in H3 as (c & s4 & Hbc & H3 & ->). constructor; [|by apply IH].
    destruct Hab as [->| ->]; [done|]. by destruct Hbc as [->| ->]; right.
Qed.

Lemma fetching_field n e0 e p f f' :
  fetching n e0 e -> p <> 0 -> f_obj e !! p = Some f ->
  f_cb f' = f_cb f -> f_fd f' = f_fd f -> registered f' = registered f -> flags f' = flags f ->
  fetching n e0 (with_obj (insert p f') e).
Proof.
  intros [Hok Hc Hl Hd Hk Hs] Hp Hf ? ? ? ?. split; [by eapply fds_ok_field|done| | | |done]; simpl.
  - eapply Forall_impl; [exact Hl|]. intros c Hlc Hn. apply is_Some_insert; [by eexists|by apply Hlc].
  - intros q. rewrite is_Some_insert by (by eexists). apply Hd.
  - eapply keeps_insert; [done|done|congruence].
Qed.

Lemma set_cur_spec n m e0 e q ev :
  fetching n e0 e -> 0 <= m < 10 -> 0 <= ev -> n = m \/ n = m + 1 -> (q <> 0 -> is_Some (f_obj e !! q)) ->
  exists e', set_cur m (q, ev) e = Some e' /\ fetching (m + 1) e0 e' /\ f_obj e' = f_obj e.
Proof.
  intros [Hok [Hc1 Hc2] Hl Hd Hk Hs] Hm Hev Hn Hq. pose proof (fo_len _ Hok) as Hlen.
  unfold set_cur. rewrite (proj2 (Nat.ltb_lt _ _)) by lia. eexists. split; [done|]. split; [|done].
  split; [|done| |done|done|done]; simpl.
  - destruct Hok as [Hl' Hcur Hw He Hep Hed Hst Hwk Hnl]. split; try done; simpl.
    + by rewrite length_insert.
    + unfold window. simpl. by rewrite Hc1.
    + by apply Forall_insert.
  - rewrite Z2Nat.inj_add by lia. change (Z.to_nat 1) with 1%nat.
    rewrite Nat.add_1_r, (take_S_r _ _ (q, ev)) by (apply list_lookup_insert_eq; lia).
    rewrite take_insert_ge by lia. apply Forall_app. split; [|by constructor].
    eapply Forall_take in Hl. rewrite take_take in Hl.
    replace (Z.to_nat m `min` Z.to_nat n)%nat with (Z.to_nat m) in Hl by lia. exact Hl.
Qed.

Lemma fetching_delete n e0 e r p f :
  fetching n e0 e -> p <> 0 -> f_obj e !! p = Some f ->
  exists k e', uloop_fd_delete r p e = Some (k, e') /\ fetching n e0 e' /\ is_Some (f_obj e' !! p).
Proof.
  intros [Hok [Hc1 Hc2] Hl Hd Hk Hs] Hp Hf.
  destruct (fd_delete_spec r p e f Hok Hp Hf)
    as (k & e' & f' & E & Hok' & Eo & _ & _ & Hreg & Hcl & _ & _ & _ & Ec & En & Ecf).
  exists k, e'. split; [done|]. specialize (Ecf Hc1). split; [split; [done|by rewrite Ec, En| | | |]|].
  - rewrite Ecf, Eo. eapply Forall_impl; [exact Hl|]. intros c Hlc Hn.
    apply is_Some_insert; [by eexists|by apply Hlc].
  - intros q. rewrite Eo, is_Some_insert by (by eexists). apply Hd.
  - rewrite Eo. by eapply keeps_insert.
  - by eapply cleared_trans.
  - rewrite Eo, lookup_insert_eq. by eexists.
Qed.

Lemma lor_nonneg_if (a b : bool) x y : 0 <= x -> 0 <= y ->
  0 <= Z.lor (if a then x else 0) (if b then y else 0).
Proof. intros. apply Z.lor_nonneg. destruct a, b; lia. Qed.

Lemma fetch_one_spec n e0 e ev :
  fetching n e0 e -> 0 <= n < 10 -> is_Some (f_obj e !! ev_ptr ev) ->
  exists e', fetch_one n ev e = Some e' /\ fetching (n + 1) e0 e'.
Proof.
  intros Hfe Hn Hp. unfold fetch_one. set (p := ev_ptr ev) in *.
  set (old := default 0 _). pose proof (fe_ok _ _ _ Hfe) as Hok.
  assert (Hp0 : p <> 0) by (intros Ep; rewrite Ep, (fo_null _ Hok) in Hp; by destruct Hp).
  assert (Hold : 0 <= old).
  { unfold old. destruct (cur_fds e !! Z.to_nat n) as [[a b]|] eqn:Ec; simpl; [|lia].
    pose proof (Forall_lookup_1 _ _ _ _ (fo_events _ Hok) Ec). done. }
  destruct (set_cur_spec n n e0 e p old Hfe Hn Hold ltac:(by left) ltac:(done)) as (e1 & -> & Hf1 & Eo1).
  rewrite bind_some, (proj2 (Z.eqb_neq p 0)) by done.
  rewrite <- Eo1 in Hp. destruct Hp as [f Hf].
  assert (exists e2, (if has (ev_events ev) (Z.lor EPOLLERR EPOLLHUP) then
           e ← set_error p e1; f ← f_obj e !! p;
           if negb (has (flags f) ULOOP_ERROR_CB)
           then snd <$> uloop_fd_delete (ev_ctl ev) p e else Some e
         else Some e1) = Some e2 /\ fetching (n + 1) e0 e2 /\ is_Some (f_obj e2 !! p))
    as (e2 & -> & Hf2 & Hp2).
  { destruct (has (ev_events ev) _); [|by eauto]. unfold set_error. rewrite Hf. simpl. rewrite lookup_insert_eq. simpl.
    set (f' := Fd _ _ _ _ _ _). pose proof (fetching_field _ _ _ p f f' Hf1 Hp0 Hf eq_refl eq_refl eq_refl eq_refl) as Hf1'.
    assert (Hl : f_obj (with_obj (insert p f') e1) !! p = Some f') by apply lookup_insert_eq.
    bcase; [|eexists; split; [done|]; split; [done|by eexists]].
    destruct (fetching_delete _ _ _ (ev_ctl ev) p f' Hf1' Hp0 Hl) as (k & e2 & -> & ? & ?). by exists e2. }
  rewrite bind_some. destruct (negb (has (ev_events ev) _)).
  { destruct (set_cur_spec (n + 1) n e0 e2 0 old Hf2 Hn Hold ltac:(by right) ltac:(done)) as (e3 & -> & ? & _). eauto. }
  assert (exists e3, (if has (ev_events ev) EPOLLRDHUP then set_eof p e2 else Some e2) = Some e3 /\
    fetching (n + 1) e0 e3 /\ is_Some (f_obj e3 !! p)) as (e3 & -> & Hf3 & Hp3).
  { destruct (has (ev_events ev) EPOLLRDHUP); [|by eauto]. destruct Hp2 as [g Hg]. unfold set_eof. rewrite Hg. simpl.
    eexists. split; [done|]. split; [by eapply fetching_field|]. simpl. rewrite lookup_insert_eq. by eexists. }
  rewrite bind_some.
  edestruct (set_cur_spec (n + 1) n e0 e3 p) as (e4 & -> & ? & _);
    [done|done|apply lor_nonneg_if; done|by right|done|]. eauto.
Qed.

Lemma fetch_loop_spec evs n e0 e :
  fetching n e0 e -> 0 <= n -> n + Z.of_nat (length evs) <= 10 ->
  Forall (fun ev => is_Some (f_obj e0 !! ev_ptr ev)) evs ->
  exists e', fetch_loop n evs e = Some e' /\ fetching (n + Z.of_nat (length evs)) e0 e'.
Proof.
  revert n e. induction evs as [|ev evs IH]; simpl; intros n e Hf Hn Hle Hev.
  { exists e. by rewrite Z.add_0_r. }
  apply Forall_cons in Hev as [Hp Hev].
  destruct (fetch_one_spec n e0 e ev Hf ltac:(lia)) as (e1 & -> & Hf1); [by apply (fe_dom _ _ _ Hf)|].
  rewrite bind_some. destruct (IH (n + 1) e1 Hf1) as (e2 & -> & Hf2); [lia|lia|done|].
  exists e2. split; [done|]. by replace (n + Z.of_nat (S (length evs))) with (n + 1 + Z.of_nat (length evs)) by lia.
Qed.

(** *** Handling *)

Lemma fds_ok_stack e s : fds_ok e -> stack_ok (f_obj e) s -> fds_ok (with_stack s e).
Proof. intros [] Hs. by split. Qed.

Lemma next_event e :
  fds_ok e -> 0 < cur_nfds e ->
  exists p ev, cur_fds e !! Z.to_nat (cur_fd e) = Some (p, ev) /\ live (f_obj e) (p, ev) /\ 0 <= ev /\
    fds_ok (with_cur (cur_fds e) (cur_fd e + 1) (cur_nfds e - 1) e).
Proof.
  intros Hok Hn. pose proof (fo_cur _ Hok) as Hc. pose proof (fo_len _ Hok) as Hl.
  destruct (cur_fds e !! Z.to_nat (cur_fd e)) as [[p ev]|] eqn:Ec.
  2:{ apply lookup_ge_None in Ec. lia. }
  assert (Hw : window e = (p, ev) :: window (with_cur (cur_fds e) (cur_fd e + 1) (cur_nfds e - 1) e)).
  { unfold window. simpl. rewrite (drop_S _ _ _ Ec).
    replace (Z.to_nat (cur_nfds e)) with (S (Z.to_nat (cur_nfds e - 1))) by lia.
    replace (Z.to_nat (cur_fd e + 1)) with (S (Z.to_nat (cur_fd e))) by lia. done. }
  pose proof (fo_window _ Hok) as Hlive. rewrite Hw in Hlive. apply Forall_cons in Hlive as [Hp Hrest].
  exists p, ev. split_and!; [done|done| |].
  - exact (Forall_lookup_1 _ _ _ _ (fo_events _ Hok) Ec).
  - destruct Hok. split; simpl; try done. lia.
Qed.

Lemma fd_stack_event_spec p ev e f :
  fds_ok e -> p <> 0 -> 0 <= ev -> f_obj e !! p = Some f -> f_cb f = true ->
  exists b s, uloop_fd_stack_event p ev e = Some (b, with_stack s e) /\ fds_ok (with_stack s e) /\
    s.*1 = (fd_stack e).*1 /\ (b = false -> s = fd_stack e /\ quiet p s).
Proof.
  intros Hok Hp Hev Hf Hcb. unfold uloop_fd_stack_event. rewrite Hf, bind_some.
  destruct (has (flags f) ULOOP_EDGE_TRIGGER) eqn:He; simpl.
  - destruct (stack_ok_add (f_obj e) p ev (fd_stack e) f) as [Hs Hb]; [apply Hok|done..|].
    pose proof (stack_event_fst p ev (fd_stack e) Hev) as Efst.
    destruct (stack_event p ev (fd_stack e)) as [b s]. simpl in *.
    exists b, s. split_and!; [done|by apply fds_ok_stack|done|]. intros ->. destruct Hb as [Hin ->]; [done|].
    split; [done|]. apply Forall_forall. intros a Ha <-. destruct Hin. by apply list_elem_of_fmap_2.
  - exists false, (fd_stack e). split_and!; [by destruct e|by apply fds_ok_stack, Hok|done|]. intros _.
    split; [done|]. eapply quiet_level; [apply Hok|done|done|]. unfold edge. congruence.
Qed.

Lemma events_loop_spec fuel e :
  fds_ok e ->
  exists cb e', events_loop fuel e = Some (cb, e') /\ fds_ok e' /\ f_obj e' = f_obj e /\
    match cb with
    | None => (fd_stack e').*1 = (fd_stack e).*1
    | Some (p, _) => (fd_stack e').*1 = p :: (fd_stack e).*1 /\ p <> 0 /\
        exists f, f_obj e !! p = Some f /\ f_cb f = true
    end.
Proof.
  revert e. induction fuel as [|fuel IH]; simpl; intros e Hok; [by exists None, e|].
  destruct (0 <? cur_nfds e) eqn:Hn; btest; simpl; [|by exists None, e].
  destruct (next_event e Hok Hn) as (p & ev & -> & Hlive & Hev & Hok1). rewrite bind_some.
  set (e1 := with_cur _ _ _ e) in *.
  bcase; [by apply (IH e1)|]. destruct (Hlive ltac:(done)) as [f Hf]. simpl in Hf. rewrite Hf, bind_some.
  destruct (f_cb f) eqn:Hcb; simpl; [|by apply (IH e1)].
  destruct (fd_stack_event_spec p ev e1 f) as (b & s & -> & Hok2 & Es & Hb); [done..|].
  rewrite bind_some. destruct b.
  - destruct (IH _ Hok2) as (cb & e' & -> & Hok' & Eo & Hcbs). exists cb, e'. split_and!; [done|done|done|].
    simpl in Hcbs. rewrite Es in Hcbs. destruct cb as [[]|]; done.
  - destruct Hb as [-> Hq]; [done|]. eexists _, _. split; [done|]. simpl. split_and!; [|done|done|done|by eauto].
    apply fds_ok_stack; [done|]. simpl. pose proof (fo_stack _ Hok) as [H1 H2]. split.
    + constructor; [simpl; done|done].
    + constructor; [done|]. eapply Forall_impl; [exact Hq|]. simpl. intros a Ha E _. by apply Ha.
Qed.

Lemma fds_ok_cur e n :
  fds_ok e -> 0 <= n <= 10 -> cur_fd e = 0 -> Forall (live (f_obj e)) (take (Z.to_nat n) (cur_fds e)) ->
  fds_ok (with_cur (cur_fds e) (cur_fd e) n e).
Proof.
  intros [] Hn E0 Hl. split; simpl; try done; [lia|]. unfold window. simpl. by rewrite E0.
Qed.

(** The stack of frames of a state after the fetching, which may have cleared some. *)
Definition forgets (l l' : list Z) : Prop := Forall2 (fun p q => q = p \/ q = 0) l l'.
Lemma cleared_forgets s s' : cleared s s' -> forgets s.*1 s'.*1.
Proof. intros H. apply Forall2_fmap. eapply Forall2_impl; [exact H|]. intros a b [->| ->]; [by left|by right]. Qed.
Lemma forgets_refl l : forgets l l.
Proof. induction l; constructor; [by left|done]. Qed.

Lemma forgets_trans l1 l2 l3 : forgets l1 l2 -> forgets l2 l3 -> forgets l1 l3.
Proof.
  intros H. revert l3. induction H as [|a b l l' Hab H IH]; intros l3 H3.
  - by apply Forall2_nil_inv_l in H3 as ->; constructor.
  - apply Forall2_cons_inv_l in H3 as (c & l4 & Hbc & H3 & ->). constructor; [|by apply IH]. naive_solver.
Qed.

Lemma run_events_spec answer e :
  fds_ok e ->
  (forall evs, answer = Some evs -> (length evs <= 10)%nat /\ Forall (fun ev => is_Some (f_obj e !! ev_ptr ev)) evs) ->
  exists cb e', uloop_run_events answer e = Some (cb, e') /\ fds_ok e' /\
    keeps_unregistered (f_obj e) (f_obj e') /\
    match cb with
    | None => forgets (fd_stack e).*1 (fd_stack e').*1
    | Some (p, _) => exists l, (fd_stack e').*1 = p :: l /\ forgets (fd_stack e).*1 l /\ p <> 0 /\
        exists f, f_obj e' !! p = Some f /\ f_cb f = true
    end.
Proof.
  intros Hok Ha. unfold uloop_run_events.
  assert (exists e1, (if cur_nfds e =? 0 then
         '(n, e) ← uloop_fetch_events answer (with_cur (cur_fds e) 0 (cur_nfds e) e);
         Some (with_cur (cur_fds e) (cur_fd e) (if n <? 0 then 0 else n) e)
       else Some e) = Some e1 /\ fds_ok e1 /\ keeps_unregistered (f_obj e) (f_obj e1) /\
       forgets (fd_stack e).*1 (fd_stack e1).*1) as (e1 & -> & Hok1 & Hk1 & Hs1).
  { assert (Hid : keeps_unregistered (f_obj e) (f_obj e)) by (intros p f; eauto).
    bcase; [|exists e; split_and!; [done|done|done|apply forgets_refl]].
    set (e0 := with_cur (cur_fds e) 0 (cur_nfds e) e).
    assert (Hok0 : fds_ok e0).
    { subst e0. destruct Hok. split; simpl; try done; [lia|]. unfold window. simpl. by rewrite Heqb. }
    destruct answer as [evs|]; simpl.
    - destruct (Ha evs eq_refl) as [Hlen Hev].
      destruct (fetch_loop_spec evs 0 e0 e0) as (e1 & -> & [Hok1 [Hc1 Hc2] Hl _ Hk Hs]); [|lia|lia|done|].
      { split; [done|done|constructor|done|done|apply cleared_refl]. }
      simpl. rewrite (proj2 (Z.ltb_ge (Z.of_nat (length evs)) 0)) by lia.
      eexists. split_and!; [done| | |].
      + apply fds_ok_cur; [done|lia|done|]. by rewrite Z.add_0_l in Hl.
      + done.
      + simpl. by apply (cleared_forgets _ _ Hs).
    - eexists. split_and!; [done| |done|apply forgets_refl].
      apply (fds_ok_cur e0 0 Hok0); [lia|done|]. constructor. }
  rewrite bind_some. destruct (events_loop_spec (Z.to_nat (cur_nfds e1)) e1 Hok1) as (cb & e' & -> & Hok' & Eo & Hcb).
  exists cb, e'. split_and!; [done|done|by rewrite Eo|]. destruct cb as [[p ev]|].
  - destruct Hcb as (E & Hp & f & Hf & Hc). eexists. split; [exact E|]. split_and!; [done|done|].
    exists f. by rewrite Eo.
  - by rewrite Hcb.
Qed.

(** ** Processes *)

Definition procs_wf (ps : procs) : Prop :=
  NoDup (processes ps) /\
  (forall p, p ∈ processes ps <-> exists q, p_obj ps !! p = Some q /\ p_pending q = true) /\
  (forall p, is_Some (p_obj ps !! p) -> 0 < p).

Lemma procs_wf_obj ps p : procs_wf ps -> p ∈ processes ps -> is_Some (p_obj ps !! p).
Proof. intros (_ & Hm & _) (q & -> & _)%Hm. done. Qed.
Lemma procs_not_listed ps p q :
  procs_wf ps -> p_obj ps !! p = Some q -> p_pending q = false -> p ∉ processes ps.
Proof. intros (_ & Hm & _) Hq Hp (q' & Hq' & Hp')%Hm. congruence. Qed.

Lemma procs_wf_drop ps p q :
  procs_wf ps -> p_pending q = false -> 0 < p ->
  procs_wf (Procs (filter (.≠ p) (processes ps)) (<[p := q]> (p_obj ps))).
Proof.
  intros (Hnd & Hm & Hp) Hq H0. split_and!; simpl; [by apply NoDup_filter| |].
  - intros r. rewrite list_elem_of_filter, Hm. destruct (decide (r = p)) as [->|Hne].
    + rewrite lookup_insert_eq. naive_solver congruence.
    + rewrite lookup_insert_ne by done. naive_solver.
  - intros r. destruct (decide (r = p)) as [->|Hne]; [done|]. rewrite lookup_insert_ne by done. apply Hp.
Qed.
Lemma procs_wf_new ps p q :
  procs_wf ps -> p_obj ps !! p = None -> p_pending q = false -> 0 < p ->
  procs_wf (Procs (processes ps) (<[p := q]> (p_obj ps))).
Proof.
  intros Hw Hn Hq H0. pose proof (procs_wf_drop ps p q Hw Hq H0) as H.
  rewrite filter_keeps_all in H; [done|]. intros x Hx ->. destruct (procs_wf_obj _ _ Hw Hx). congruence.
Qed.
Lemma procs_wf_delete ps p :
  procs_wf ps -> p ∉ processes ps -> procs_wf (Procs (processes ps) (delete p (p_obj ps))).
Proof.
  intros (Hnd & Hm & Hp) Hn. split_and!; simpl; [done| |].
  - intros q. rewrite Hm. destruct (decide (q = p)) as [->|Hne]; [|by rewrite lookup_delete_ne].
    rewrite lookup_delete_eq. rewrite Hm in Hn. naive_solver.
  - intros q [x [_ Hx]%lookup_delete_Some]. apply Hp. by eexists.
Qed.

Lemma insert_process_spec obj p pid l :
  (forall q, q ∈ l -> is_Some (obj !! q)) ->
  exists l1 l2, insert_process obj p pid l = Some (l1 ++ p :: l2) /\ l = l1 ++ l2.
Proof.
  induction l as [|q l IH]; simpl; intros Hl; [by exists [], []|].
  destruct (Hl q) as [x ->]; [left|]. rewrite bind_some. bcase; [by exists [], (q :: l)|].
  destruct IH as (l1 & l2 & -> & ->); [intros; apply Hl; by right|]. by exists (q :: l1), l2.
Qed.
Lemma process_add_spec p ps :
  procs_wf ps -> is_Some (p_obj ps !! p) ->
  exists r ps', uloop_process_add p ps = Some (r, ps') /\ procs_wf ps' /\ processes ps ⊆ processes ps'.
Proof.
  intros Hw [q Hq]. unfold uloop_process_add. rewrite Hq, bind_some.
  destruct (p_pending q) eqn:Hp; [by eauto|].
  destruct (insert_process_spec (p_obj ps) p (p_pid q) (processes ps)) as (l1 & l2 & -> & El).
  { intros x. by apply procs_wf_obj. }
  rewrite bind_some. eexists _, _. split; [done|]. simpl. rewrite El. split; [|set_solver].
  pose proof (procs_not_listed _ _ _ Hw Hq Hp) as Hn. destruct Hw as (Hnd & Hm & H0).
  rewrite El in Hn, Hnd, Hm. split_and!; simpl.
  - apply NoDup_app in Hnd as (H1 & H2 & H3). apply NoDup_app. set_solver by eauto using NoDup_cons_2.
  - intros r. specialize (Hm r). rewrite elem_of_app in Hm |- *. rewrite elem_of_cons.
    destruct (decide (r = p)) as [->|Hne].
    + rewrite lookup_insert_eq. naive_solver.
    + rewrite lookup_insert_ne by done. naive_solver.
  - intros r. destruct (decide (r = p)) as [->|Hne]; [intros _; apply H0; by eexists|].
    rewrite lookup_insert_ne by done. apply H0.
Qed.
Lemma process_delete_spec p ps q :
  procs_wf ps -> p_obj ps !! p = Some q ->
  exists r, uloop_process_delete p ps =
    Some (r, Procs (filter (.≠ p) (processes ps)) (<[p := Process false (p_pid q)]> (p_obj ps))).
Proof.
  intros Hw Hq. unfold uloop_process_delete. rewrite Hq, bind_some.
  destruct (p_pending q) eqn:Hp; [by eexists|]. exists (-1). do 2 f_equal. destruct ps as [l obj]; simpl in *. f_equal.
  - symmetry. apply filter_keeps_all. intros x Hx ->. by apply (procs_not_listed _ _ _ Hw Hq Hp).
  - symmetry. apply insert_id. rewrite Hq. by destruct q; simpl in *; subst.
Qed.
Lemma clear_processes_all ps :
  procs_wf ps -> exists ps', uloop_clear_processes ps = Some ps' /\ procs_wf ps' /\ processes ps' = [].
Proof.
  intros Hw. unfold uloop_clear_processes.
  assert (H : forall l ps, procs_wf ps -> (forall q, q ∈ l -> is_Some (p_obj ps !! q)) ->
    exists ps', clear_processes_loop l ps = Some ps' /\ procs_wf ps' /\ processes ps' = filter (.∉ l) (processes ps)).
  { clear. intros l. induction l as [|p l IH]; simpl; intros ps Hw Hl.
    - exists ps. split_and!; try done. symmetry. apply filter_keeps_all. set_solver.
    - destruct (Hl p) as [q Hq]; [left|]. destruct (process_delete_spec p ps q Hw Hq) as [r ->]. simpl.
      assert (0 < p) by (apply Hw; by eexists).
      edestruct (IH (Procs (filter (.≠ p) (processes ps)) (<[p := Process false (p_pid q)]> (p_obj ps))))
        as (ps' & -> & Hw' & El).
      + by apply procs_wf_drop.
      + simpl. intros x Hx. apply elem_of_dom. rewrite dom_insert. apply elem_of_union_r, elem_of_dom, Hl. by right.
      + exists ps'. split_and!; [done|done|]. rewrite El. simpl. rewrite list_filter_filter.
        apply list_filter_iff. set_solver. }
  destruct (H (processes ps) ps Hw) as (ps' & E & Hw' & El).
  { intros q. by apply procs_wf_obj. }
  exists ps'. split_and!; [done..|]. rewrite El. apply filter_keeps_none. naive_solver.
Qed.

Lemma next_process_spec p l :
  NoDup l -> p ∈ l -> next_process p l = HEAD \/ next_process p l ∈ l /\ next_process p l <> p.
Proof.
  induction 1 as [|q l Hq Hnd IH]; [by intros []%elem_of_nil|].
  intros [->|Hp]%elem_of_cons; simpl.
  - rewrite Z.eqb_refl. destruct l as [|r l]; simpl; [by left|]. right. set_solver.
  - bcase; [by subst|]. destruct (IH Hp) as [->|[? ?]]; [by left|]. right. set_solver.
Qed.

(** ** The invariant of a state *)

Definition fd_frames (fs : list frame) : list Z :=
  omap (fun f => match f with RunEvents p => Some p | _ => None end) fs.
Definition no_iter (fs : list frame) : Prop :=
  Forall (fun f => match f with ProcIter _ _ _ => False | _ => True end) fs.
(** A list loop over the processes is on top or just under the callback it called, and the
    process it will look at next is still in the list. *)
Definition iter_ok (ps : procs) (fs : list frame) : Prop :=
  match fs with
  | ProcIter _ _ q :: r | Client _ :: ProcIter _ _ q :: r => (q = HEAD \/ q ∈ processes ps) /\ no_iter r
  | _ => no_iter fs
  end.

Record inv (st : state) : Prop := Inv {
  i_tms : timers_wf (tms st.1);
  i_prs : procs_wf (prs st.1);
  i_fds : fds_ok (fdv st.1);
  i_stack : forgets (fd_frames st.2) (fd_stack (fdv st.1)).*1;
  i_iter : iter_ok (prs st.1) st.2;
  i_waker : waker_pipe st.1 < 0 -> exists f, f_obj (fdv st.1) !! WAKER = Some f /\ registered f = false
}.

Lemma iter_ok_mono ps ps' fs :
  iter_ok ps fs -> (forall q, held fs = Some q -> q ∈ processes ps -> q ∈ processes ps') -> iter_ok ps' fs.
Proof. intros H Hm. destruct fs as [|[] [|[] fs]]; simpl in *; naive_solver. Qed.
Lemma no_iter_ok ps fs : no_iter fs -> iter_ok ps fs.
Proof.
  intros H. destruct fs as [|[] [|[] fs]]; unfold no_iter in *; simpl; try exact H;
    rewrite ?Forall_cons in H; tauto.
Qed.
Lemma iter_ok_tail ps f fs :
  iter_ok ps (f :: fs) -> (forall c, f <> Client c) -> no_iter fs.
Proof.
  intros H Hc. destruct f; simpl in H; unfold no_iter in *; rewrite ?Forall_cons in H; try tauto.
  by destruct (Hc c).
Qed.

(** *** What the parts of a state may be replaced with *)

Lemma inv_tms u fs t : inv (u, fs) -> timers_wf t -> inv (with_tms t u, fs).
Proof. intros [] Ht. by split. Qed.
Lemma inv_prs u fs p :
  inv (u, fs) -> procs_wf p -> (forall q, held fs = Some q -> q ∈ processes (prs u) -> q ∈ processes p) ->
  inv (with_prs p u, fs).
Proof. intros [] Hp Hm. split; try done. simpl in *. by eapply iter_ok_mono. Qed.
Lemma inv_fdv u fs e :
  inv (u, fs) -> fds_ok e -> forgets (fd_stack (fdv u)).*1 (fd_stack e).*1 ->
  (waker_pipe u < 0 -> f_obj e !! WAKER = f_obj (fdv u) !! WAKER) -> inv (with_fdv e u, fs).
Proof.
  intros [Ht Hp Hf Hs Hi Hw] He Hst Hwk. split; try done; simpl in *.
  - by eapply forgets_trans.
  - intros H. rewrite Hwk by done. by apply Hw.
Qed.

Lemma fds_ok_nonblock e n : fds_ok e -> fds_ok (with_nonblock n e).
Proof. intros []. by split. Qed.
Lemma fds_ok_poll e fd : fds_ok e -> fds_ok (with_poll fd ∅ e).
Proof. intros []. by split. Qed.

Lemma inv_close fd u fs : inv (u, fs) -> inv (close_fd fd u, fs).
Proof. intros [H1 H2 H3 H4 H5 H6]. split; try done. by apply fds_ok_nonblock. Qed.
Lemma inv_waker u fs w n o :
  inv (u, fs) -> (w < 0 -> exists f, f_obj (fdv u) !! WAKER = Some f /\ registered f = false) ->
  inv (with_waker w n o u, fs).
Proof. intros [] Hw. by split. Qed.

Lemma poll_done_spec u fs :
  inv (u, fs) -> inv (poll_done u, fs) /\ poll_fd (fdv (poll_done u)) < 0 /\
    f_obj (fdv (poll_done u)) = f_obj (fdv u) /\ waker_pipe (poll_done u) = waker_pipe u /\
    sig (poll_done u) = sig u /\
    (0 <= poll_fd (fdv u) -> opened (poll_done u) = opened u ∖ {[poll_fd (fdv u)]}).
Proof.
  intros Hi. unfold poll_done. bcase; [|split_and!; try done; lia].
  split_and!; try done. apply inv_fdv; [by apply inv_close| |apply forgets_refl|done].
  apply fds_ok_poll, Hi.
Qed.

Lemma fd_delete_poll r p e k e' : uloop_fd_delete r p e = Some (k, e') -> poll_fd e' = poll_fd e.
Proof.
  intros E. unfold uloop_fd_delete in E. mopen E. unfold clear_fetched in E0. case_match; [|done]. simplify_eq/=.
  mopen E. case_match; [by simplify_eq|]. mopen E. unfold uloop_fd_stack_event in E1. mopen E1.
  unfold __uloop_fd_delete in E. mopen E. simplify_eq/=.
  case_match; [|destruct (stack_event _ _ _)]; by simplify_eq.
Qed.

Lemma waker_done_spec r u fs :
  inv (u, fs) ->
  exists u', waker_done r u = Some u' /\ inv (u', fs) /\ poll_fd (fdv u') = poll_fd (fdv u) /\
    waker_pipe u' < 0 /\ sig u' = sig u /\
    (forall f, f_obj (fdv u) !! WAKER = Some f -> 0 <= waker_pipe u ->
       opened u' = opened u ∖ {[waker_pipe u]} ∖ {[f_fd f]}) /\
    (waker_pipe u < 0 -> opened u' = opened u).
Proof.
  intros Hi. unfold waker_done. bcase; [|exists u; split_and!; try done; intros; simpl in *; lia].
  destruct (fo_waker _ (i_fds _ Hi)) as (f & Hf & Hcb). simpl in Hf.
  destruct (fd_delete_spec r WAKER (fdv u) f (i_fds _ Hi) ltac:(done) Hf)
    as (k & e' & f' & E & Hok' & Eo & _ & Efd & Hr & Hcl & _ & _ & _ & _).
  rewrite E. simpl. rewrite Eo, lookup_insert_eq. simpl. eexists. split; [done|]. split_and!; simpl; try done.
  - apply inv_waker; [|intros _; simpl; exists f'; by rewrite Eo, lookup_insert_eq].
    apply inv_close, inv_close, inv_fdv; [done|done|by apply cleared_forgets|lia].
  - by apply fd_delete_poll in E.
  - intros g Hg _. simplify_eq. by rewrite Efd.
  - lia.
Qed.

(** [uloop_done], outside of the loop over the processes. *)
Lemma done_spec r u fs :
  inv (u, fs) -> held fs = None ->
  exists u', uloop_done r u = Some u' /\ inv (u', fs) /\ timeouts (tms u') = [] /\ processes (prs u') = [] /\
    poll_fd (fdv u') < 0 /\ waker_pipe u' < 0 /\
    sig u' = uloop_setup_signals (handle_sigchld u) false (sig u) /\
    (forall f, f_obj (fdv u) !! WAKER = Some f -> 0 <= poll_fd (fdv u) -> 0 <= waker_pipe u ->
       opened u' = opened u ∖ {[poll_fd (fdv u)]} ∖ {[waker_pipe u]} ∖ {[f_fd f]}) /\
    (0 <= poll_fd (fdv u) -> waker_pipe u < 0 -> opened u' = opened u ∖ {[poll_fd (fdv u)]}).
Proof.
  intros Hinv Hh. unfold uloop_done.
  set (u1 := with_sig _ u). assert (Hi1 : inv (u1, fs)) by (by destruct Hinv; split).
  destruct (poll_done_spec u1 fs Hi1) as (Hi2 & Hp2 & Eo2 & Ew2 & Es2 & Ep2).
  destruct (waker_done_spec r _ fs Hi2) as (u3 & -> & Hi3 & Hp3 & Hw3 & Es3 & Eop3 & Eop3').
  rewrite bind_some.
  destruct (clear_timeouts_all (tms u3) (i_tms _ Hi3)) as (t' & -> & Ht' & _ & Et'). rewrite bind_some.
  destruct (clear_processes_all (prs u3) (i_prs _ Hi3)) as (p' & -> & Hp' & Epr). rewrite bind_some.
  eexists. split; [done|]. split_and!; simpl; try done.
  - apply inv_prs; [by apply inv_tms|done|]. intros q Hq. congruence.
  - by rewrite Hp3.
  - by rewrite Es3, Es2.
  - intros f Hf H1 H2. rewrite (Eop3 f); [by rewrite Ep2, Ew2|by rewrite Eo2|by rewrite Ew2].
  - intros H1 H2. rewrite Eop3'; [by rewrite Ep2|by rewrite Ew2].
Qed.

Lemma fd_add_poll r p fl e k e' : uloop_fd_add r p fl e = Some (k, e') -> poll_fd e' = poll_fd e.
Proof.
  intros E. unfold uloop_fd_add in E. case_match; [by apply fd_delete_poll in E|]. mopen E.
  apply bind_Some in E as ([k1 e1] & Hreg & E).
  assert (Ep : poll_fd e1 = poll_fd e).
  { unfold register_poll in Hreg. mopen Hreg. simplify_eq. repeat case_match; simplify_eq/=; done. }
  rewrite <- Ep. case_match; [|mopen E]; by simplify_eq.
Qed.

Lemma waker_init_spec pipe r u fs :
  inv (u, fs) -> (forall a b, pipe = Some (a, b) -> 0 <= a /\ 0 <= b) ->
  exists n u', waker_init pipe r u = Some (n, u') /\ inv (u', fs) /\ sig u' = sig u /\
    poll_fd (fdv u') = poll_fd (fdv u) /\
    (waker_pipe u < 0 -> forall a b, pipe = Some (a, b) ->
       n = 0 /\ waker_pipe u' = b /\ opened u' = {[a; b]} ∪ opened u /\
       exists f, f_obj (fdv u') !! WAKER = Some f /\ f_fd f = a) /\
    (waker_pipe u < 0 -> pipe = None -> n = -1 /\ u' = u).
Proof.
  intros Hi Hpipe. unfold waker_init.
  bcase; [exists 0, u; split_and!; try done; intros; simpl in *; lia|].
  destruct pipe as [[a b]|]; [|by exists (-1), u].
  destruct (Hpipe a b eq_refl) as [Ha Hb].
  destruct (i_waker _ Hi ltac:(done)) as (f & Hf & Hr). simpl in Hf. rewrite Hf, bind_some.
  destruct (fo_waker _ (i_fds _ Hi)) as (f2 & Hf2 & Hcb). simpl in Hf2. simplify_eq.
  set (g := Fd true a (eof f) (error f) (registered f) (flags f)).
  set (e1 := with_obj (insert WAKER g) _).
  assert (Hne : ~ edge f) by (by eapply (fo_edge _ (i_fds _ Hi))).
  assert (Hok1 : fds_ok e1).
  { eapply (fds_ok_replace (fdv u) e1 WAKER f g); try done; try apply (i_fds _ Hi).
    - intros fd q m Hd. left. split; [|done]. intros ->.
      destruct (fo_ep _ (i_fds _ Hi) _ _ _ Hd) as (h & Hh & _ & ?). simpl in Hh. congruence.
    - simpl. eapply stack_ok_change; [apply (i_fds _ Hi)| |intros q Hq; by rewrite lookup_insert_ne].
      by eapply quiet_level; [apply (i_fds _ Hi)|..]. }
  destruct (fd_add_spec r WAKER ULOOP_READ e1 g Hok1) as (k & e2 & f' & E & Hok2 & Eo & _ & Efd & Hcl);
    [done|apply lookup_insert_eq|intros _; by split|].
  assert (Ep : poll_fd e2 = poll_fd (fdv u)) by (by apply fd_add_poll in E).
  rewrite E. simpl. eexists _, _. split; [done|]. split_and!; simpl; try done.
  - destruct Hi as [H1 H2 H3 H4 H5 H6]. split; try done; simpl; [|lia].
    eapply forgets_trans; [exact H4|]. by apply (cleared_forgets _ _ Hcl).
  - intros _ a' b' [= <- <-]. split_and!; try done. exists f'. by rewrite Eo, lookup_insert_eq.
Qed.

Lemma init_spec fd pipe r u fs :
  inv (u, fs) -> held fs = None -> (forall a b, pipe = Some (a, b) -> 0 <= a /\ 0 <= b) ->
  exists n u', uloop_init fd pipe r u = Some (n, u') /\ inv (u', fs) /\
    (0 <= fd -> poll_fd (fdv u) < 0 -> waker_pipe u < 0 -> forall a b, pipe = Some (a, b) ->
       n = 0 /\ poll_fd (fdv u') = fd /\ waker_pipe u' = b /\ opened u' = {[a; b]} ∪ ({[fd]} ∪ opened u) /\
       handle_sigchld u' = handle_sigchld u /\
       sig u' = uloop_setup_signals (handle_sigchld u) true (sig u) /\
       exists f, f_obj (fdv u') !! WAKER = Some f /\ f_fd f = a) /\
    (0 <= fd -> poll_fd (fdv u) < 0 -> waker_pipe u < 0 -> pipe = None ->
       n = -1 /\ opened u' = ({[fd]} ∪ opened u) ∖ {[fd]}).
Proof.
  intros Hi Hh Hpipe. unfold uloop_init.
  destruct (uloop_init_pollfd fd u) as [ret u1] eqn:E1.
  assert (Hi1 : inv (u1, fs) /\ (0 <= fd -> poll_fd (fdv u) < 0 -> ret = 0 /\ poll_fd (fdv u1) = fd /\
    waker_pipe u1 = waker_pipe u /\ opened u1 = {[fd]} ∪ opened u /\ sig u1 = sig u /\
    handle_sigchld u1 = handle_sigchld u)).
  { unfold uloop_init_pollfd in E1.
    assert (Hpf : forall e fd, fdv u = e -> inv (with_fdv (with_poll fd ∅ e) u, fs)).
    { intros e fd' <-. apply inv_fdv; [done|apply fds_ok_poll, Hi|apply forgets_refl|done]. }
    repeat case_match; simplify_eq; btest; (split; [|intros; try lia]); try done; try (by apply Hpf).
    apply inv_waker; [by apply Hpf|]. apply (i_waker _ Hi). }
  destruct Hi1 as [Hi1 Hs1].
  destruct (ret <? 0) eqn:Hr; btest.
  { exists (-1), u1. split_and!; try done; intros H1 H2; destruct (Hs1 H1 H2); lia. }
  destruct (waker_init_spec pipe r u1 fs Hi1 Hpipe) as (n & u2 & E2 & Hi2 & Es2 & Ep2 & Hs2 & Hs2'). rewrite E2. simpl.
  destruct (n <? 0) eqn:Hn; btest.
  - destruct (done_spec r u2 fs Hi2 Hh) as (u3 & -> & Hi3 & _ & _ & _ & _ & _ & _ & Eop). simpl.
    exists (-1), u3. split_and!; try done.
    + intros H1 H2 H3 a b Hp. destruct (Hs1 H1 H2) as (_ & _ & Ew & _). destruct (Hs2 ltac:(lia) a b Hp). lia.
    + intros H1 H2 H3 Hp. destruct (Hs1 H1 H2) as (_ & Epf & Ew & Eo & _). split; [done|].
      destruct (Hs2' ltac:(lia) Hp) as [_ ->]. rewrite Eop by lia. by rewrite Eo, Epf.
  - eexists 0, _. split; [done|]. split; [by destruct Hi2; split|]. simpl. split.
    2:{ intros H1 H2 H3 Hp. destruct (Hs1 H1 H2) as (_ & _ & Ew & _). destruct (Hs2' ltac:(lia) Hp). lia. }
    intros H1 H2 H3 a b Hp. destruct (Hs1 H1 H2) as (_ & Ep & Ew & Eo & Es & Eh).
    destruct (Hs2 ltac:(lia) a b Hp) as (_ & Ew' & Eo' & f & Hf & Ef).
    assert (Eh' : handle_sigchld u2 = handle_sigchld u1).
    { clear -E2. unfold waker_init in E2. destruct (0 <=? waker_pipe u1); [by simplify_eq|].
      destruct pipe as [[]|]; [mopen E2; mopen E2|]; by simplify_eq. }
    split_and!; try done; [by rewrite Ep2| |by rewrite Eh', Eh|by rewrite Eh', Eh, Es2, Es|by exists f].
    by rewrite Eo', Eo.
Qed.

Lemma elem_of_head_default (l : list Z) : default HEAD (head l) = HEAD \/ default HEAD (head l) ∈ l.
Proof. destruct l; simpl; [by left|right; left]. Qed.

(** Allocating and freeing a descriptor. *)
Lemma fds_ok_new e p fd cb :
  fds_ok e -> p <> 0 -> f_obj e !! p = None -> fds_ok (with_obj (insert p (Fd cb fd false false false 0)) e).
Proof.
  intros [Hl Hc Hw Hev Hep Hed Hst Hwk Hnl] Hp Hn.
  assert (Hm : forall q f, f_obj e !! q = Some f -> <[p := Fd cb fd false false false 0]> (f_obj e) !! q = Some f).
  { intros q f Hq. rewrite lookup_insert_ne; [done|]. intros ->. congruence. }
  split; simpl; try done.
  - eapply Forall_impl; [exact Hw|]. intros c Hlc H0. destruct (Hlc H0) as [f Hf]. simpl. rewrite (Hm _ _ Hf). by eexists.
  - intros fd' q m Hd. destruct (Hep _ _ _ Hd) as (f & Hf & ?). exists f. by rewrite (Hm _ _ Hf).
  - intros q f. destruct (decide (q = p)) as [->|?]; [|rewrite lookup_insert_ne by done; by apply Hed].
    rewrite lookup_insert_eq. by intros [= <-].
  - eapply stack_ok_mono; [exact Hst|]. intros q f Hq. rewrite (Hm _ _ Hq). by eauto.
  - destruct Hwk as (f & Hf & ?). exists f. by rewrite (Hm _ _ Hf).
  - by rewrite lookup_insert_ne.
Qed.
Lemma fds_ok_remove e p :
  fds_ok e -> p <> WAKER -> quiet p (fd_stack e) -> Forall (fun c => c.1 <> p) (window e) ->
  (forall fd q m, ep e !! fd = Some (q, m) -> q <> p) -> fds_ok (with_obj (delete p) e).
Proof.
  intros [Hl Hc Hw Hev Hep Hed Hst Hwk Hnl] Hp Hq Hwp Hepp. split; simpl; try done.
  - unfold window in *. simpl.
    rewrite Forall_forall in Hw, Hwp |- *. intros c Hin H0. simpl. rewrite lookup_delete_ne; [by apply Hw|].
    intros E. by apply (Hwp c Hin).
  - intros fd q m Hd. rewrite lookup_delete_ne; [by eapply Hep|]. intros E. by eapply Hepp.
  - intros q f [_ H]%lookup_delete_Some. by eapply Hed.
  - eapply stack_ok_change; [exact Hst|exact Hq|]. intros q Hne. by rewrite lookup_delete_ne.
  - by rewrite lookup_delete_ne.
  - apply lookup_delete_None. by right.
Qed.

Lemma exec_inv c u fs : inv (u, fs) -> call_ok c u fs -> exists u', exec c u = Some u' /\ inv (u', fs).
Proof.
  intros Hi Hc. pose proof (i_tms _ Hi) as Ht. pose proof (i_prs _ Hi) as Hp. pose proof (i_fds _ Hi) as Hf.
  simpl in Ht, Hp, Hf.
  assert (Hwk : forall p e f', f_obj e = <[p := f']> (f_obj (fdv u)) -> p <> WAKER ->
    waker_pipe u < 0 -> f_obj e !! WAKER = f_obj (fdv u) !! WAKER).
  { intros p e f' -> Hne _. by rewrite lookup_insert_ne. }
  assert (Hnz : forall p, is_Some (f_obj (fdv u) !! p) -> p <> 0).
  { intros p [f Hpf] ->. by rewrite (fo_null _ Hf) in Hpf. }
  destruct c; simpl in *; unfold on_tms, on_prs, on_fdv.
  - destruct Hc as [H0 Hn]. eexists. split; [done|]. apply inv_tms; [done|]. apply timers_wf_same; [done| |done].
    intros Hin. destruct (timers_wf_obj _ _ Ht Hin). congruence.
  - destruct Hc as [t Et]. rewrite (timeout_set_spec _ _ _ _ _ Ht Et).
    pose proof (timers_wf_drop _ p (Timeout false (t_cb t) (after now msecs)) Ht eq_refl) as Hw.
    destruct (timeout_add_total p _ Hw) as [[r ts'] E]; [by simpl; rewrite lookup_insert_eq|].
    rewrite E. simpl. eexists. split; [done|]. apply inv_tms; [done|]. by eapply timeout_add_wf.
  - destruct Hc as (t & Et & Hpt). rewrite Et, bind_some, Hpt. simpl.
    assert (Hw : timers_wf (Timers (timeouts (tms u)) (<[p:=Timeout false (t_cb t) time]> (t_obj (tms u))))).
    { apply timers_wf_same; [done| |done]. by eapply not_pending_not_listed. }
    edestruct (timeout_add_total p _ Hw) as [[r ts'] E]; [by simpl; rewrite lookup_insert_eq|].
    rewrite E. simpl. eexists. split; [done|]. apply inv_tms; [by apply inv_tms|].
    by eapply timeout_add_wf.
  - destruct Hc as [t Et]. destruct (timeout_cancel_spec p _ t Ht Et) as [r ->]. simpl. eexists. split; [done|].
    apply inv_tms; [done|]. by apply timers_wf_drop.
  - destruct Hc as [t Et]. destruct (timeout_cancel_spec p _ t Ht Et) as [r ->]. simpl. eexists. split; [done|].
    pose proof (timers_wf_drop _ p (Timeout false (t_cb t) (t_time t)) Ht eq_refl) as Hw.
    apply inv_tms; [by apply inv_tms|]. apply (timers_wf_delete _ p Hw).
    simpl. rewrite list_elem_of_filter. naive_solver.
  - destruct Hc as [H0 Hn]. eexists. split; [done|]. apply inv_prs; [done|by apply procs_wf_new|done].
  - destruct (process_add_spec p _ Hp Hc) as (r & ps' & -> & Hw & Hs). simpl. eexists. split; [done|].
    apply inv_prs; [done|done|]. intros q _. apply Hs.
  - destruct Hc as [[q Eq] Hh]. destruct (process_delete_spec p _ q Hp Eq) as [r ->]. simpl. eexists. split; [done|].
    apply inv_prs; [done|apply procs_wf_drop; [done|done|apply Hp; by eexists]|].
    simpl. intros x Hx. rewrite list_elem_of_filter. naive_solver congruence.
  - destruct Hc as [[q Eq] Hh]. destruct (process_delete_spec p _ q Hp Eq) as [r ->]. simpl. eexists. split; [done|].
    assert (0 < p) by (apply Hp; by eexists).
    pose proof (procs_wf_drop _ p (Process false (p_pid q)) Hp eq_refl ltac:(done)) as Hw.
    apply inv_prs; [apply inv_prs; [done|done|]|apply (procs_wf_delete _ p Hw)|done];
      simpl; [intros x Hx; rewrite list_elem_of_filter; naive_solver congruence|].
    rewrite list_elem_of_filter. naive_solver.
  - destruct Hc as [H0 Hn]. eexists. split; [done|].
    assert (p <> WAKER) by (intros ->; destruct (fo_waker _ Hf) as (f & Hwf & _); congruence).
    apply inv_fdv; [done|apply fds_ok_new; [done|lia|done]|apply forgets_refl|].
    intros _. simpl. by rewrite lookup_insert_ne.
  - destruct Hc as (Hne & f & Ef & Hadd).
    destruct (fd_add_spec r p fl (fdv u) f Hf (Hnz _ ltac:(by eexists)) Ef Hadd)
      as (k & e' & f' & -> & Hok' & Eo & _ & _ & Hcl). simpl. eexists. split; [done|].
    apply inv_fdv; [done|done|by apply cleared_forgets|by eapply Hwk].
  - destruct Hc as (Hne & f & Ef).
    destruct (fd_delete_spec r p (fdv u) f Hf (Hnz _ ltac:(by eexists)) Ef)
      as (k & e' & f' & -> & Hok' & Eo & _ & _ & _ & Hcl & _). simpl. eexists. split; [done|].
    apply inv_fdv; [done|done|by apply cleared_forgets|by eapply Hwk].
  - destruct Hc as (Hne & f & Ef).
    destruct (fd_delete_spec r p (fdv u) f Hf (Hnz _ ltac:(by eexists)) Ef)
      as (k & e' & f' & -> & Hok' & Eo & _ & _ & _ & Hcl & Hq & Hw & Hep & _). simpl. eexists. split; [done|].
    apply inv_fdv; [apply inv_fdv; [done|done|by apply cleared_forgets|by eapply Hwk]|
                    by apply fds_ok_remove|apply forgets_refl|].
    intros _. simpl. by rewrite lookup_delete_ne.
  - eexists. split; [done|]. by destruct Hi; split.
  - destruct Hc as [-> Hpipe].
    destruct (init_spec fd pipe r u _ Hi eq_refl Hpipe) as (n & u' & -> & Hi' & _). by exists u'.
  - subst fs. destruct (done_spec r u _ Hi eq_refl) as (u' & -> & Hi' & _). by exists u'.
Qed.

Lemma inv_control u fs fs' :
  inv (u, fs) -> fd_frames fs' = fd_frames fs -> iter_ok (prs u) fs' -> inv (u, fs').
Proof. intros [] Hf Hi. split; try done. simpl in *. by rewrite Hf. Qed.
Lemma inv_run u fs c s g d : inv (u, fs) -> inv (with_run c s g d u, fs).
Proof. intros []. by split. Qed.
Lemma inv_signal h signo ok u fs : inv (u, fs) -> inv (handle_signal h signo ok u, fs).
Proof.
  intros Hi. assert (Hw : forall u, inv (u, fs) -> inv (uloop_signal_wake ok u, fs)).
  { intros v Hv. unfold uloop_signal_wake. destruct ok; [|done]. apply inv_waker; [done|apply (i_waker _ Hv)]. }
  destruct h; try done; by apply Hw, inv_run.
Qed.

(** The callback of a descriptor is called: its frame and the frame of control match. *)
Lemma call_fd_inv p ev u fs f :
  inv (u, RunEvents p :: fs) -> no_iter fs -> f_obj (fdv u) !! p = Some f -> f_cb f = true ->
  exists st', call_fd p ev u fs = Some st' /\ inv st'.
Proof.
  intros Hi Hn Hf Hcb. unfold call_fd. rewrite Hf, bind_some, Hcb. simpl.
  assert (no_iter (RunEvents p :: fs)) by (by constructor).
  bcase; (eexists; split; [done|]).
  - unfold waker_consume. apply inv_waker; [done|apply (i_waker _ Hi)].
  - eapply inv_control; [exact Hi|done|]. apply no_iter_ok. by constructor.
Qed.

Lemma poll_step_inv t tv answer u fs :
  inv (u, RunPoll t :: fs) -> no_iter fs -> input_ok (Wait tv answer) (u, RunPoll t :: fs) ->
  exists st', poll_step t tv answer u fs = Some st' /\ inv st'.
Proof.
  intros Hi Hn Hok. unfold poll_step.
  assert (exists w, poll_timeout t tv u = Some w) as [w ->].
  { unfold poll_timeout, uloop_get_next_timeout. destruct (timeouts (tms u)) as [|p l] eqn:El; [by eexists|].
    destruct (timers_wf_obj _ p (i_tms _ Hi)) as [x Hx]; [simpl; rewrite El; left|]. simpl in Hx. rewrite Hx. by eexists. }
  rewrite bind_some.
  destruct (run_events_spec answer (fdv u) (i_fds _ Hi)) as (cb & e' & -> & Hok' & Hk & Hcb).
  { intros evs ->. destruct Hok as [Hlen Hev]. split; [done|]. eapply Forall_impl; [exact Hev|].
    intros ev (fd & m & Hd). destruct (fo_ep _ (i_fds _ Hi) _ _ _ Hd) as (f & Hf & _). by eexists. }
  rewrite bind_some. destruct Hi as [H1 H2 H3 H4 H5 H6]. simpl in *.
  assert (Hw : waker_pipe u < 0 -> exists f, f_obj e' !! WAKER = Some f /\ registered f = false).
  { intros Hw. destruct (H6 Hw) as (f & Hf & Hr). by apply (Hk _ f). }
  destruct cb as [[p ev]|].
  - destruct Hcb as (l & El & Hl & Hp & f & Hf & Hc).
    eapply call_fd_inv; [|by constructor|done|done].
    split; simpl; try done; [|by repeat constructor]. rewrite El. constructor; [by left|]. by eapply forgets_trans.
  - eexists. split; [done|]. split; simpl; try done; [by eapply forgets_trans|by constructor].
Qed.

Lemma process_timeouts_inv tv u fs :
  inv (u, RunTimeouts tv :: fs) -> no_iter fs ->
  exists st', process_timeouts tv u fs = Some st' /\ inv st'.
Proof.
  intros Hi Hn. assert (Hpop : inv (u, fs)) by (by eapply inv_control; [exact Hi|done|apply no_iter_ok]).
  unfold process_timeouts. destruct (timeouts (tms u)) as [|p l] eqn:El; [by eexists|].
  destruct (timers_wf_obj _ p (i_tms _ Hi)) as [t Ht]; [simpl; rewrite El; left|]. simpl in Ht. rewrite Ht, bind_some.
  bcase; [by eexists|]. unfold on_tms. destruct (timeout_cancel_spec p (tms u) t (i_tms _ Hi) Ht) as [r ->]. simpl.
  eexists. split; [done|]. apply inv_tms; [|apply timers_wf_drop; [apply (i_tms _ Hi)|done]].
  destruct (t_cb t); [|done]. eapply inv_control; [exact Hi|done|]. apply no_iter_ok. by repeat constructor.
Qed.

Lemma process_iter_inv pid ret q u fs :
  inv (u, ProcIter pid ret q :: fs) -> exists st', process_iter pid ret q u fs = Some st' /\ inv st'.
Proof.
  intros Hi. pose proof (i_prs _ Hi) as Hp. destruct (i_iter _ Hi) as [Hq Hn]. simpl in Hp, Hq.
  assert (Hpop : inv (u, fs)) by (by eapply inv_control; [exact Hi|done|apply no_iter_ok]).
  unfold process_iter. bcase; [by eexists|]. destruct Hq as [|Hq]; [done|].
  destruct (procs_wf_obj _ _ Hp Hq) as [p Ep]. rewrite Ep, bind_some.
  pose proof (next_process_spec q _ (proj1 Hp) Hq) as Hnext. set (tmp := next_process q (processes (prs u))) in *.
  bcase; [|bcase; [by eexists|]].
  - eexists. split; [done|]. eapply inv_control; [exact Hi|done|]. simpl. split; [naive_solver|done].
  - unfold on_prs. destruct (process_delete_spec q _ p Hp Ep) as [r ->]. simpl. eexists. split; [done|].
    assert (0 < q) by (apply Hp; by eexists).
    destruct Hi as [H1 H2 H3 H4 H5 H6]. split; simpl; try done; [by apply procs_wf_drop|].
    split; [|done]. rewrite list_elem_of_filter. naive_solver.
Qed.

Lemma events_done_inv p u fs :
  inv (u, RunEvents p :: fs) -> no_iter fs -> exists st', events_done p u fs = Some st' /\ inv st'.
Proof.
  intros Hi Hn. unfold events_done. pose proof (i_stack _ Hi) as Hs. pose proof (i_fds _ Hi) as Hf. simpl in Hs, Hf.
  destruct (fd_stack (fdv u)) as [|[q ev] s] eqn:Es; [by inversion Hs|].
  apply Forall2_cons in Hs as [Hq Hs]. simpl in Hq.
  pose proof (fo_stack _ Hf) as [H1 H2]. rewrite Es in H1, H2.
  apply Forall_cons in H1 as [Hq1 H1]. apply StronglySorted_inv in H2 as [H2 Ha].
  destruct Hi as [I1 I2 I3 I4 I5 I6]. simpl in *.
  bcase; btest.
  - destruct Hq as [->|]; [|done].
    assert (Hev : ev <> 0) by (intros ->; done).
    destruct (Hq1 ltac:(done) Hev) as (f & Hpf & Hcb & _).
    eapply call_fd_inv; [|done|exact Hpf|done].
    split; simpl; try done; [|by constructor; [left|]].
    apply fds_ok_stack; [done|]. split; [by constructor|]. by constructor.
  - eexists. split; [done|]. split; simpl; try done; [|by apply no_iter_ok].
    by apply fds_ok_stack.
Qed.

Lemma step_inv i st : inv st -> input_ok i st -> exists st', step i st = Some st' /\ inv st'.
Proof.
  destruct st as [u fs]. intros Hi Hok.
  assert (Hsame : exists st', Some (u, fs) = Some st' /\ inv st') by eauto.
  destruct i; simpl; try (destruct fs as [|f fs]; [done|];
    assert (Ht : (forall c, f <> Client c) -> no_iter fs) by (by apply (iter_ok_tail (prs u)), (i_iter _ Hi));
    destruct f; try done).
  - bcase; [|done]. eexists. split; [done|]. apply inv_run. eapply inv_control; [exact Hi|done|]. by apply no_iter_ok, Ht.
  - specialize (Ht ltac:(done)). bcase; (eexists; split; [done|]).
    + apply inv_run. eapply inv_control; [exact Hi|done|]. apply no_iter_ok. by repeat constructor.
    + eapply inv_control; [exact Hi|done|]. apply no_iter_ok. by repeat constructor.
  - bcase; [|done]. eexists. split; [done|]. apply inv_run. eapply inv_control; [exact Hi|done|]. by apply no_iter_ok, Ht.
  - by apply process_timeouts_inv, Ht.
  - by apply process_iter_inv.
  - by apply events_done_inv, Ht.
  - specialize (Ht ltac:(done)). bcase; [done|]. eexists. split; [done|].
    eapply inv_control; [exact Hi|done|]. apply no_iter_ok. by repeat constructor.
  - specialize (Ht ltac:(done)). bcase; [done|]. bcase; (eexists; split; [done|]).
    + eapply inv_control; [exact Hi|done|]. by apply no_iter_ok.
    + eapply inv_control; [exact Hi|done|]. split; [apply elem_of_head_default|by constructor].
  - bcase; [done|]. apply (poll_step_inv _ tv); [done|by apply Ht|done].
  - destruct (exec_inv c u _ Hi Hok) as (u' & -> & Hi'). by eexists.
  - eexists. split; [done|]. apply inv_run. eapply inv_control; [exact Hi|done|]. simpl in Hok.
    pose proof (i_iter _ Hi) as Hit. destruct fs as [|[] fs]; simpl in *; try done; by constructor.
  - eexists. split; [done|]. eapply inv_control; [exact Hi|done|].
    pose proof (i_iter _ Hi) as Hit. destruct fs as [|[] fs]; simpl in *; try done;
      try (apply Forall_cons in Hit as [_ Hit]; exact Hit).
    apply Forall_cons in Hit as [_ Hit]. by apply (no_iter_ok (prs u) (Client c0 :: fs)).
  - eexists. split; [done|]. by apply inv_signal.
Qed.

Lemma inv_start : inv (start, [Client Main]).
Proof.
  split; simpl; try done.
  - split; simpl; [constructor|]. intros p. rewrite elem_of_nil, lookup_empty. naive_solver.
  - split_and!; [constructor| |]; simpl; intros p; rewrite lookup_empty; [|by intros []].
    rewrite elem_of_nil. naive_solver.
  - split; simpl; try done.
    + by repeat constructor.
    + intros p f Hp Hr. apply lookup_singleton_Some in Hp as [_ <-]. done.
    + by repeat constructor.
    + exists (Fd true (-1) false false false 0). by rewrite lookup_singleton_eq.
  - by constructor.
  - by repeat constructor.
  - intros _. exists (Fd true (-1) false false false 0). by rewrite lookup_singleton_eq.
Qed.
Lemma reach_inv st : reach input_ok st -> inv st.
Proof.
  induction 1 as [|i st st' _ IH Hi Hs]; [apply inv_start|].
  destruct (step_inv i st IH Hi) as (st2 & E & H2). congruence.
Qed.

(** The structure a callback is called with. *)
Definition callback_live (c : callback) (u : uloop) : Prop :=
  match c with
  | Main => True
  | CbTimeout p => is_Some (t_obj (tms u) !! p)
  | CbProcess p _ => is_Some (p_obj (prs u) !! p)
  | CbFd p _ => is_Some (f_obj (fdv u) !! p)
  end.

Lemma call_fd_live p ev u fs u' c fs' :
  call_fd p ev u fs = Some (u', Client c :: fs') -> callback_live c u'.
Proof. intros H. unfold call_fd in H. mopen H. repeat case_match; simplify_eq/=. by eexists. Qed.


(** ** [uloop_done] undoes [uloop_init] *)

Lemma disposition_insert n m h d :
  disposition n (<[m := h]> d) = if decide (n = m) then h else disposition n d.
Proof.
  unfold disposition. case_decide as E; [subst; by rewrite lookup_insert_eq|by rewrite lookup_insert_ne].
Qed.

(** None of the signals is handled by the loop yet. *)
Definition foreign (s : signals) : Prop :=
  forall n, disposition n (disp s) <> uloop_handle_sigint /\ disposition n (disp s) <> uloop_sigchld.

(** What is known of one signal, and how the operations change it. *)
Definition view (n : Z) (s : signals) : handler * handler := (disposition n (disp s), disposition n (old s)).
Definition install_view (h : handler) (add : bool) (v : handler * handler) : handler * handler :=
  if add then if bool_decide (v.1 = SIG_DFL) then (h, v.1) else v
  else if bool_decide (v.1 = h) then (v.2, v.2) else v.
Definition ignore_view (ignore : bool) (v : handler * handler) : handler * handler :=
  if ignore && bool_decide (v.1 = SIG_DFL) then (SIG_IGN, v.2) else v.

Lemma install_handler_view n m h add s :
  view n (uloop_install_handler m h add s) = if decide (n = m) then install_view h add (view n s) else view n s.
Proof.
  unfold uloop_install_handler, install_view, view. destruct (decide (n = m)) as [->|Hne].
  - destruct add; simpl; repeat case_bool_decide; simpl; rewrite ?disposition_insert, ?decide_True by done; congruence.
  - destruct add; case_bool_decide; simpl; rewrite ?disposition_insert, ?(decide_False _ _ Hne); done.
Qed.
Lemma ignore_signal_view n m ignore s :
  view n (uloop_ignore_signal m ignore s) = if decide (n = m) then ignore_view ignore (view n s) else view n s.
Proof.
  unfold uloop_ignore_signal, ignore_view, view. destruct (decide (n = m)) as [->|Hne].
  - destruct ignore; simpl; repeat case_bool_decide; simpl; rewrite ?disposition_insert, ?decide_True by done;
      congruence.
  - destruct ignore; simpl; repeat case_bool_decide; simpl; rewrite ?disposition_insert, ?(decide_False _ _ Hne); done.
Qed.

Lemma setup_signals_view n c add s :
  view n (uloop_setup_signals c add s) =
    if decide (n = SIGINT \/ n = SIGTERM) then install_view uloop_handle_sigint add (view n s)
    else if decide (n = SIGCHLD) then if c then install_view uloop_sigchld add (view n s) else view n s
    else if decide (n = SIGPIPE) then ignore_view add (view n s) else view n s.
Proof.
  unfold uloop_setup_signals. rewrite ignore_signal_view.
  destruct c; rewrite !install_handler_view; unfold SIGINT, SIGTERM, SIGCHLD, SIGPIPE;
    repeat case_decide; subst; try done; try lia; naive_solver.
Qed.

Lemma signals_restored n c s :
  foreign s ->
  disposition n (disp (uloop_setup_signals c false (uloop_setup_signals c true s))) =
    if decide (n = SIGPIPE /\ disposition n (disp s) = SIG_DFL) then SIG_IGN else disposition n (disp s).
Proof.
  intros Hf. destruct (Hf n) as [H1 H2].
  change (disposition n (disp ?x)) with (view n x).1. rewrite !setup_signals_view.
  unfold install_view, ignore_view, view in *. simpl.
  unfold SIGINT, SIGTERM, SIGCHLD, SIGPIPE.
  destruct c; repeat case_decide; simpl; repeat case_bool_decide; simpl in *; try done; intuition (lia || congruence).
Qed.

(** C28. Taking the loop down undoes setting it up. From any state outside of callbacks in which
    the loop is down, with new descriptors from the system and no signal handled by the loop:
    [uloop_init] followed by [uloop_done] leaves the same descriptors open and every signal but
    SIGPIPE with the handler it had, no timer and no process pending, and the loop down again;
    SIGPIPE, where it had the default, stays ignored. Where the pipe cannot be made,
    [uloop_init] fails and leaves no descriptor of its own open. *)
Theorem uloop_init_done_roundtrip u fd a b r r' :
  reach input_ok (u, [Client Main]) -> poll_fd (fdv u) < 0 -> waker_pipe u < 0 ->
  0 <= fd -> 0 <= a -> 0 <= b -> fd ∉ opened u -> a ∉ opened u -> b ∉ opened u -> foreign (sig u) ->
  (exists u1 u2, uloop_init fd (Some (a, b)) r u = Some (0, u1) /\ uloop_done r' u1 = Some u2 /\
     opened u2 = opened u /\
     (forall n, disposition n (disp (sig u2)) =
        if decide (n = SIGPIPE /\ disposition n (disp (sig u)) = SIG_DFL) then SIG_IGN
        else disposition n (disp (sig u))) /\
     timeouts (tms u2) = [] /\ processes (prs u2) = [] /\ poll_fd (fdv u2) < 0 /\ waker_pipe u2 < 0) /\
  (exists u3, uloop_init fd None r u = Some (-1, u3) /\ opened u3 = opened u).
Proof.
  intros Hr Hp Hw H0 H1 H2 N0 N1 N2 Hs. pose proof (reach_inv _ Hr) as Hi. split.
  - destruct (init_spec fd (Some (a, b)) r u _ Hi eq_refl) as (n & u1 & E1 & Hi1 & Hok & _); [naive_solver|].
    destruct (Hok H0 Hp Hw a b eq_refl) as (-> & Ep & Ew & Eo & Eh & Es & f & Hf & Ef).
    destruct (done_spec r' u1 _ Hi1 eq_refl) as (u2 & E2 & _ & Et & Epr & Hp2 & Hw2 & Es2 & Eo2 & _).
    exists u1, u2. split_and!; try done.
    + rewrite (Eo2 f) by (done || lia). rewrite Ep, Ew, Ef, Eo. set_solver.
    + intros n. rewrite Es2, Es, Eh. by apply signals_restored.
  - destruct (init_spec fd None r u _ Hi eq_refl) as (n & u3 & E3 & _ & _ & Hno); [naive_solver|].
    destruct (Hno H0 Hp Hw eq_refl) as [-> Eo]. exists u3. split; [done|]. rewrite Eo. set_solver.
Qed.

Lemma uloop_init_done_roundtrip_witness :
  exists u1 u2, uloop_init 3 (Some (4, 5)) 0 start = Some (0, u1) /\ uloop_done 0 u1 = Some u2 /\ opened u2 = ∅.
Proof.
  destruct (uloop_init_done_roundtrip start 3 4 5 0 0 (reach_start input_ok)) as [(u1 & u2 & E1 & E2 & E3 & _) _];
    [reflexivity|reflexivity|lia|lia|lia|set_solver|set_solver|set_solver| |].
  - intros n. unfold disposition. simpl. by rewrite lookup_empty.
  - by exists u1, u2.
Defined.

(** ** Runs *)

(** A descriptor becomes readable; its callback frees it and returns. *)
Definition self_destruct : list input :=
  [Call (Init 3 (Some (4, 5)) 0); Call (NewFd 200 9 true); Call (FdAdd 0 200 ULOOP_READ); Run (-1);
   Clock (Tv 10 0); Next; Next; Wait (Tv 10 0) (Some [Ev 200 EPOLLIN 0]); Call (DestroyFd 0 200); Return].
Definition self_destruct_state : state := default (start, []) (steps self_destruct (start, [Client Main])).
Lemma self_destruct_reach : reach input_ok self_destruct_state.
Proof.
  apply (reach_steps _ self_destruct (start, [Client Main])); [constructor| |vm_compute; reflexivity].
  unfold self_destruct, start. allow; allow_rule.
  - eexists. split; [vm_compute; reflexivity|]. intros _. split; [|done]. intros _ Hin. by apply elem_of_nil in Hin.
  - simpl. lia.
  - constructor; [|constructor]. exists 9, 8193. vm_compute. reflexivity.
Qed.

(** *** What the rules exclude *)

(** The callback of a process frees the process after it: the loop goes on to read the freed
    one. *)
Lemma next_process_use_after_free :
  steps [Call (NewProcess 300 50); Call (NewProcess 301 51); Call (ProcessAdd 300); Call (ProcessAdd 301);
         Call (Init 3 (Some (4, 5)) 0); Run (-1); Signal SIGCHLD true; Clock (Tv 10 0); Next; Next;
         Waitpid 50 0 false; Next; Call (DestroyProcess 301); Return; Next] (start, [Client Main]) = None.
Proof. vm_compute. reflexivity. Qed.

(** The callback of an edge-triggered descriptor runs the loop again, in which the descriptor
    becomes readable once more; it then makes the descriptor level-triggered and frees it. The
    event kept for it is given to the freed structure. *)
Lemma edge_to_level_use_after_free :
  steps [Call (Init 3 (Some (4, 5)) 0); Call (NewFd 200 9 true);
         Call (FdAdd 0 200 (Z.lor ULOOP_READ ULOOP_EDGE_TRIGGER)); Run (-1);
         Clock (Tv 10 0); Next; Next; Wait (Tv 10 0) (Some [Ev 200 EPOLLIN 0]);
         Run (-1); Clock (Tv 10 0); Next; Next; Wait (Tv 10 0) (Some [Ev 200 EPOLLIN 0]);
         Signal SIGINT true; Next;
         Call (FdAdd 0 200 ULOOP_READ); Call (DestroyFd 0 200); Return; Next] (start, [Client Main]) = None.
Proof. vm_compute. reflexivity. Qed.

(** A timer set for the longest time stands in front of one that is overdue, which then waits
    for it. *)
Lemma far_timer_hides_overdue :
  exists st, steps [Call (Init 3 (Some (4, 5)) 0); Call (NewTimeout 100 true); Call (NewTimeout 101 true);
     Call (TimeoutSet (Tv 10 0) 100 5); Call (TimeoutSet (Tv 12 0) 101 2147483647); Run (-1);
     Clock (Tv 12 0); Next; Next] (start, [Client Main]) = Some st /\
   timeouts (tms st.1) = [101; 100] /\ st.2 = [RunPoll (-1); Client Main] /\
   poll_timeout (-1) (Tv 12 0) st.1 = Some 2147483647.
Proof. eexists. split; [vm_compute; reflexivity|]. vm_compute. by split_and!. Qed.

(** A limit on the waiting time is not used where no timer is pending. *)
Lemma run_timeout_waits_forever t tv u :
  timeouts (tms u) = [] -> 0 <= t -> poll_timeout t tv u = Some (-1).
Proof.
  intros El Ht. unfold poll_timeout, uloop_get_next_timeout. rewrite El. simpl.
  by rewrite (proj2 (Z.ltb_ge t (-1))), andb_false_r by lia.
Qed.
