(* ===== verification/Usock.v ===== *)
(** * Sockets (src/src/opbox/usock.c, usock.h)

    Opening a socket to or for a name. The kernel's side is the table of open sockets with what
    was done to them; the answers of the system are consumed in order from lists in the world:
    one [attempt] for each socket asked for (the descriptor, the results of [bind], [listen] and
    [connect], and [errno]), one answer for each [poll] and one reading of the clock. A result
    [None] is a [poll] that never returns. *)

From S2P Require Import Prelude CString.
From stdpp Require Import base tactics numbers list gmap.
From Stdlib Require Import ZArith Lia.
Open Scope Z_scope.

Module Usock.

Definition USOCK_TCP : Z := 0.
Definition USOCK_UDP : Z := 1.
Definition USOCK_SERVER : Z := 256.
Definition USOCK_NOCLOEXEC : Z := 512.
Definition USOCK_NONBLOCK : Z := 1024.
Definition USOCK_NUMERIC : Z := 2048.
Definition USOCK_IPV6ONLY : Z := 8192.
Definition USOCK_IPV4ONLY : Z := 16384.
Definition USOCK_UNIX : Z := 32768.
Definition AF_UNSPEC : Z := 0.
Definition AF_UNIX : Z := 1.
Definition AF_INET : Z := 2.
Definition AF_INET6 : Z := 10.
Definition SOCK_STREAM : Z := 1.
Definition SOCK_DGRAM : Z := 2.
Definition AI_PASSIVE : Z := 1.
Definition AI_NUMERICHOST : Z := 4.
Definition AI_ADDRCONFIG : Z := 32.
Definition POLLOUT : Z := 4.
Definition EINTR : Z := 4.
Definition EAGAIN : Z := 11.
Definition EINPROGRESS : Z := 115.
Definition flag (type f : Z) : bool := negb (Z.land type f =? 0).

(** A socket: its kind, its flags, and what was done to it. *)
Record sock := Sock {
  s_family : Z; s_type : Z; s_cloexec : bool; s_nonblock : bool;
  s_bound : option (list Z); s_listen : bool; s_peer : option (list Z)
}.
Record attempt := Attempt { a_sock : Z; a_bind : Z; a_listen : Z; a_connect : Z; a_errno : Z }.
Record timespec := Ts { ts_sec : Z; ts_nsec : Z }.
Record world := World {
  net : gmap Z sock;
  attempts : list attempt;
  polls : list (Z * list Z);
  clocks : list timespec
}.
Definition with_net (n : gmap Z sock) (w : world) : world := World n (attempts w) (polls w) (clocks w).
Definition set_sock (fd : Z) (f : sock -> sock) (w : world) : world := with_net (alter f fd (net w)) w.
Definition close (fd : Z) (w : world) : world := with_net (delete fd (net w)) w.
(** The answers to the next attempt; a system without any refuses to make a socket. *)
Definition next_attempt (w : world) : attempt * world :=
  match attempts w with
  | [] => (Attempt (-1) (-1) (-1) (-1) 0, w)
  | a :: r => (a, World (net w) r (polls w) (clocks w))
  end.
Definition clock_gettime (w : world) : timespec * world :=
  match clocks w with
  | [] => (Ts 0 0, w)
  | t :: r => (t, World (net w) (attempts w) (polls w) r)
  end.

Definition usock_set_flags (fd type : Z) (w : world) : world :=
  let w := if negb (flag type USOCK_NOCLOEXEC)
           then set_sock fd (fun s => Sock (s_family s) (s_type s) true (s_nonblock s) (s_bound s) (s_listen s) (s_peer s)) w
           else w in
  if flag type USOCK_NONBLOCK
  then set_sock fd (fun s => Sock (s_family s) (s_type s) (s_cloexec s) true (s_bound s) (s_listen s) (s_peer s)) w
  else w.

Definition bind_to (sa : list Z) (s : sock) : sock :=
  Sock (s_family s) (s_type s) (s_cloexec s) (s_nonblock s) (Some sa) (s_listen s) (s_peer s).
Definition listening (s : sock) : sock :=
  Sock (s_family s) (s_type s) (s_cloexec s) (s_nonblock s) (s_bound s) true (s_peer s).
Definition connected (sa : list Z) (s : sock) : sock :=
  Sock (s_family s) (s_type s) (s_cloexec s) (s_nonblock s) (s_bound s) (s_listen s) (Some sa).

(** A connection under way is one with its peer. *)
Definition usock_connect (type : Z) (sa : list Z) (family socktype : Z) (server : bool) (w : world)
    : Z * world :=
  let '(a, w) := next_attempt w in
  let fd := a_sock a in
  if fd <? 0 then (-1, w)
  else
    let w := with_net (<[fd := Sock family socktype false false None false None]> (net w)) w in
    let w := usock_set_flags fd type w in
    if server then
      if a_bind a =? 0 then
        let w := set_sock fd (bind_to sa) w in
        if negb (socktype =? SOCK_STREAM) then (fd, w)
        else if a_listen a =? 0 then (fd, set_sock fd listening w)
        else (-1, close fd w)
      else (-1, close fd w)
    else if (a_connect a =? 0) || (a_errno a =? EINPROGRESS) then (fd, set_sock fd (connected sa) w)
    else (-1, close fd w).

Definition socktype_of (type : Z) : Z :=
  if Z.land type 255 =? USOCK_TCP then SOCK_STREAM else SOCK_DGRAM.

(** The size of [sun_path]. *)
Definition SUN_PATH : Z := 108.
Definition usock_unix (type : Z) (host : list Z) (w : world) : Z * world :=
  if SUN_PATH <=? Z.of_nat (length host) then (-1, w)
  else usock_connect type host AF_UNIX (socktype_of type) (flag type USOCK_SERVER) w.

Record addrinfo := AddrInfo { ai_family : Z; ai_addr : list Z }.

(** The result with what is copied to [*addr]. *)
Fixpoint usock_inet_notimeout (type : Z) (result : list addrinfo) (w : world) : Z * option (list Z) * world :=
  match result with
  | [] => (-1, None, w)
  | rp :: r =>
      let '(fd, w) := usock_connect type (ai_addr rp) (ai_family rp) (socktype_of type) (flag type USOCK_SERVER) w in
      if 0 <=? fd then (fd, Some (ai_addr rp), w) else usock_inet_notimeout type r w
  end.

(** [poll]: its result, the events returned for each descriptor. *)
Definition poll (w : world) : option (Z * list Z * world) :=
  match polls w with
  | [] => None
  | (ret, ev) :: r => Some (ret, ev, World (net w) (attempts w) r (clocks w))
  end.

(** The instant [timeout] milliseconds after [ts]. *)
Definition deadline (ts : timespec) (timeout : Z) : timespec :=
  let nsec := ts_nsec ts + Z.rem timeout 1000 * 1000000 in
  let '(sec, nsec) := if 1000000000 <? nsec then (ts_sec ts + 1, nsec - 1000000000) else (ts_sec ts, nsec) in
  Ts (sec + Z.quot timeout 1000) nsec.
Fixpoint poll_loop (fuel : nat) (ts : timespec) (timeout : Z) (ev : list Z) (w : world)
    : option (Z * list Z * world) :=
  match fuel with
  | O => None
  | S fuel =>
      '(ret, ev, w) ← poll w;
      if ret =? EAGAIN then poll_loop fuel ts timeout ev w
      else if negb (ret =? EINTR) then Some (ret, ev, w)
      else
        let '(cur, w) := clock_gettime w in
        let timeout := (ts_sec ts - ts_sec cur) * 1000 + Z.quot (ts_nsec ts - ts_nsec cur) 1000000 in
        if timeout <=? 0 then Some (0, ev, w) else poll_loop fuel ts timeout ev w
  end.
(** One turn for each answer of [poll]. *)
Definition poll_restart (timeout : Z) (w : world) : option (Z * list Z * world) :=
  let '(ts, w) := clock_gettime w in
  poll_loop (length (polls w)) (deadline ts timeout) timeout [] w.

(** The first address of a family. *)
Definition first_of (family : Z) (l : list addrinfo) : option addrinfo :=
  head (filter (fun rp => ai_family rp = family) l).

(** The hints for [getaddrinfo]: family, type and flags. *)
Definition hints (type : Z) : Z * Z * Z :=
  (if flag type USOCK_IPV6ONLY then AF_INET6 else if flag type USOCK_IPV4ONLY then AF_INET else AF_UNSPEC,
   socktype_of type,
   Z.lor (Z.lor AI_ADDRCONFIG (if flag type USOCK_SERVER then AI_PASSIVE else 0))
         (if flag type USOCK_NUMERIC then AI_NUMERICHOST else 0)).

(** From [out] on: the other sockets are closed, the socket blocks again unless asked not to. *)
Definition close_other (fd sock : Z) (w : world) : world :=
  if (0 <=? fd) && negb (fd =? sock) then close fd w else w.
Definition inet_out (type : Z) (fd0 fd1 fd : Z) (rp : option addrinfo) (w : world) : Z * option (list Z) * world :=
  let w := close_other fd1 fd (close_other fd0 fd w) in
  let w := if negb (flag type USOCK_NONBLOCK)
           then set_sock fd (fun s => Sock (s_family s) (s_type s) (s_cloexec s) false (s_bound s) (s_listen s) (s_peer s)) w
           else w in
  (fd, if 0 <=? fd then ai_addr <$> rp else None, w).
Definition revents (i : nat) (ev : list Z) : Z := default 0 (ev !! i).

(** From [wait] on. [v6], [v4]: the addresses still tried; the polled part of [pfds] begins with
    the second element where there is no [v6]. *)
Definition inet_wait (type fd0 fd1 timeout : Z) (v6 v4 : option addrinfo) (w : world)
    : option (Z * option (list Z) * world) :=
  '(_, ev, w) ← poll_restart timeout w;
  let n := ((if v6 then 1 else 0) + (if v4 then 1 else 0))%nat in
  let off := if v6 then 0%nat else 1%nat in
  let rev i := if Nat.leb off i && Nat.ltb i (off + n) then revents (i - off) ev else 0 in
  if flag (rev 0%nat) POLLOUT then Some (inet_out type fd0 fd1 fd0 v6 w)
  else if flag (rev 1%nat) POLLOUT then Some (inet_out type fd0 fd1 fd1 v4 w)
  else Some (inet_out type fd0 fd1 (-1) None w).

(** From [try_v4] on. *)
Definition inet_try_v4 (type fd0 timeout : Z) (v6 v4 : option addrinfo) (w : world)
    : option (Z * option (list Z) * world) :=
  match v4 with
  | None => inet_wait type fd0 (-1) timeout v6 v4 w
  | Some rp =>
      let '(fd1, w) := usock_connect (Z.lor type USOCK_NONBLOCK) (ai_addr rp) (ai_family rp) (socktype_of type)
                         (flag type USOCK_SERVER) w in
      if fd1 <? 0 then
        if v6 then inet_wait type fd0 fd1 timeout v6 None w
        else Some (inet_out type fd0 fd1 (-1) None w)
      else inet_wait type fd0 fd1 timeout v6 v4 w
  end.

(** [found]: the answer of [getaddrinfo], given the host, the service and the hints. *)
Definition usock_inet_timeout (found : option (list addrinfo)) (type timeout : Z) (w : world)
    : option (Z * option (list Z) * world) :=
  match found with
  | None => Some (-1, None, w)
  | Some result =>
      if (timeout <=? 0) || flag type USOCK_SERVER then Some (usock_inet_notimeout type result w)
      else
        match first_of AF_INET6 result, first_of AF_INET result with
        | None, None => Some (inet_out type (-1) (-1) (-1) None w)
        | None, v4 => inet_try_v4 type (-1) timeout None v4 w
        | Some rp, v4 =>
            let '(fd0, w) := usock_connect (Z.lor type USOCK_NONBLOCK) (ai_addr rp) (ai_family rp) (socktype_of type)
                               (flag type USOCK_SERVER) w in
            if fd0 <? 0 then inet_try_v4 type fd0 timeout None v4 w
            else if 300 <? timeout then
              '(ret, _, w) ← poll_restart 300 w;
              if ret =? 1 then Some (inet_out type fd0 (-1) fd0 (Some rp) w)
              else inet_try_v4 type fd0 (timeout - 300) (Some rp) v4 w
            else inet_try_v4 type fd0 (timeout - 300) (Some rp) v4 w
        end
  end.

(** [usock_inet] is [usock_inet_timeout] without a time; it always returns. *)
Definition usock_inet (found : option (list addrinfo)) (type : Z) (w : world) : Z * option (list Z) * world :=
  match found with None => (-1, None, w) | Some result => usock_inet_notimeout type result w end.

Definition usock_port (port : Z) : option (list Z) :=
  if (port <? 0) || (65535 <? port) then None else Some (take 6 (dec_digits 10 port)).

Definition usock (found : option (list addrinfo)) (type : Z) (host : list Z) (w : world) : Z * world :=
  let '(fd, w) := if flag type USOCK_UNIX then usock_unix type host w
                  else let '(fd, _, w) := usock_inet found type w in (fd, w) in
  if fd <? 0 then (-1, w) else (fd, w).

(** [res] is the answer of [poll]. *)
Definition usock_wait_ready (res : Z) : Z := if res <=? 0 then 0 else 1.
End Usock.

Import Usock.

(** ** What opening a socket does *)

(** The calls of an attempt all succeed. *)
Definition works (type : Z) (a : attempt) : bool :=
  (0 <=? a_sock a) &&
  if flag type USOCK_SERVER
  then (a_bind a =? 0) && (negb (socktype_of type =? SOCK_STREAM) || (a_listen a =? 0))
  else (a_connect a =? 0) || (a_errno a =? EINPROGRESS).
(** The socket asked for: of the family of the address, with the flags of [type], bound to the
    address and listening where it is a stream, or connecting to it. *)
Definition opened_for (type : Z) (rp : addrinfo) (s : sock) : Prop :=
  s_family s = ai_family rp /\ s_type s = socktype_of type /\
  s_cloexec s = negb (flag type USOCK_NOCLOEXEC) /\ s_nonblock s = flag type USOCK_NONBLOCK /\
  if flag type USOCK_SERVER
  then s_bound s = Some (ai_addr rp) /\ s_listen s = (socktype_of type =? SOCK_STREAM)
  else s_peer s = Some (ai_addr rp).

Lemma alter_insert_eq {A} (f : A -> A) i x (m : gmap Z A) : alter f i (<[i := x]> m) = <[i := f x]> m.
Proof.
  apply map_eq. intros j. destruct (decide (j = i)) as [->|Hne].
  - by rewrite lookup_alter_eq, !lookup_insert_eq.
  - by rewrite lookup_alter_ne, !lookup_insert_ne.
Qed.

Lemma usock_connect_spec type rp w a r :
  attempts w = a :: r -> (0 <= a_sock a -> net w !! a_sock a = None) ->
  let '(fd, w') := usock_connect type (ai_addr rp) (ai_family rp) (socktype_of type) (flag type USOCK_SERVER) w in
  attempts w' = r /\ polls w' = polls w /\ clocks w' = clocks w /\
  if works type a
  then fd = a_sock a /\ exists s, net w' = <[fd := s]> (net w) /\ opened_for type rp s
  else fd = -1 /\ net w' = net w.
Proof.
  intros Ea Hf. unfold usock_connect, next_attempt, works, opened_for. rewrite Ea.
  destruct (a_sock a <? 0) eqn:Es; btest.
  { by rewrite (proj2 (Z.leb_gt 0 (a_sock a))) by done. }
  rewrite (proj2 (Z.leb_le 0 (a_sock a))) by done. simpl. specialize (Hf ltac:(done)).
  assert (Hd : forall s, delete (a_sock a) (<[a_sock a := s]> (net w)) = net w).
  { intros s. by rewrite delete_insert_id. }
  unfold usock_set_flags, close, set_sock, with_net.
  destruct (flag type USOCK_NOCLOEXEC), (flag type USOCK_NONBLOCK), (flag type USOCK_SERVER); simpl;
    repeat (bcase; simpl); rewrite ?alter_insert_eq, ?Hd; simpl;
    try (split_and!; [done..|]; eexists; split; [done|]; simpl; split_and!; done);
    try (by split_and!).
  all: split_and!; [done..|]; eexists; split; [done|]; simpl; split_and!; try done; symmetry;
    by first [apply Z.eqb_eq|apply Z.eqb_neq].
Qed.

Lemma usock_connect_none type sa fam st srv w :
  attempts w = [] -> usock_connect type sa fam st srv w = (-1, w).
Proof. intros E. unfold usock_connect, next_attempt. by rewrite E. Qed.

(** The attempt number [i] is the first that works. *)
Definition first_works (type : Z) (l : list attempt) (i : nat) (a : attempt) : Prop :=
  l !! i = Some a /\ works type a = true /\ forall j b, (j < i)%nat -> l !! j = Some b -> works type b = false.

Lemma inet_notimeout_spec type result w :
  Forall (fun a => net w !! a_sock a = None) (attempts w) ->
  let '(fd, addr, w') := usock_inet_notimeout type result w in
  (fd = -1 /\ addr = None /\ net w' = net w /\
     forall i a, (i < length result)%nat -> attempts w !! i = Some a -> works type a = false) \/
  (exists i rp a s, result !! i = Some rp /\ first_works type (attempts w) i a /\
     fd = a_sock a /\ addr = Some (ai_addr rp) /\ net w' = <[fd := s]> (net w) /\ opened_for type rp s).
Proof.
  revert w. induction result as [|rp result IH]; simpl; intros w Hf.
  { left. split_and!; try done. intros; lia. }
  destruct (attempts w) as [|a r] eqn:Ea.
  { rewrite usock_connect_none by done. simpl. specialize (IH w). rewrite Ea in IH. specialize (IH Hf).
    destruct (usock_inet_notimeout type result w) as [[fd addr] w'].
    destruct IH as [(-> & -> & -> & _)|(i & rp' & b & s & _ & [H _] & _)]; [by left|]. by rewrite lookup_nil in H. }
  apply Forall_cons in Hf as [Ha Hr].
  pose proof (usock_connect_spec type rp w a r Ea (fun _ => Ha)) as Hc.
  destruct (usock_connect _ _ _ _ _ w) as [fd w1]. destruct Hc as (Er & _ & _ & Hc).
  destruct (works type a) eqn:Hw.
  - destruct Hc as (-> & s & En & Hs).
    assert (0 <= a_sock a) by (unfold works in Hw; btest; done).
    rewrite (proj2 (Z.leb_le 0 (a_sock a))) by done. right.
    exists 0%nat, rp, a, s. split_and!; try done. split_and!; try done. intros; lia.
  - destruct Hc as [-> En]. simpl. specialize (IH w1). rewrite Er, En in IH. specialize (IH Hr).
    destruct (usock_inet_notimeout type result w1) as [[fd addr] w'].
    destruct IH as [(-> & -> & -> & Hno)|(i & rp' & b & s & Hi & (Hb1 & Hb2 & Hb3) & -> & -> & -> & Hs)].
    + left. split_and!; try done. intros [|i] b Hi Hb; simplify_eq/=; [done|]. eapply (Hno i); [lia|done].
    + right. exists (S i), rp', b, s. split_and!; try done. split_and!; try done.
      intros [|j] c Hj Hcj; simplify_eq/=; [done|]. eapply (Hb3 j); [lia|done].
Qed.

Lemma flag_lor a b f : Z.land b f = 0 -> flag (Z.lor a b) f = flag a f.
Proof. intros H. unfold flag. by rewrite Z.land_lor_distr_l, H, Z.lor_0_r. Qed.
Lemma socktype_nonblock type : socktype_of (Z.lor type USOCK_NONBLOCK) = socktype_of type.
Proof. unfold socktype_of. rewrite Z.land_lor_distr_l. simpl. by rewrite Z.lor_0_r. Qed.

(** A connecting socket as [usock_inet_timeout] makes it, and as it hands it out. *)
Definition connecting (type : Z) (nonblock : bool) (sa : list Z) (s : sock) : Prop :=
  s_type s = socktype_of type /\ s_cloexec s = negb (flag type USOCK_NOCLOEXEC) /\
  s_nonblock s = nonblock /\ s_peer s = Some sa.

Lemma connect_nonblock type rp w :
  flag type USOCK_SERVER = false ->
  (forall a r, attempts w = a :: r -> 0 <= a_sock a -> net w !! a_sock a = None) ->
  let '(fd, w') := usock_connect (Z.lor type USOCK_NONBLOCK) (ai_addr rp) (ai_family rp) (socktype_of type)
                     (flag type USOCK_SERVER) w in
  attempts w' = tail (attempts w) /\
  (fd = -1 /\ net w' = net w \/
   0 <= fd /\ net w !! fd = None /\ (exists a, head (attempts w) = Some a /\ fd = a_sock a) /\
     exists s, net w' = <[fd := s]> (net w) /\ connecting type true (ai_addr rp) s).
Proof.
  intros Hs Hf. destruct (attempts w) as [|a r] eqn:Ea.
  { rewrite usock_connect_none by done. rewrite Ea. split; [done|]. by left. }
  pose proof (usock_connect_spec (Z.lor type USOCK_NONBLOCK) rp w a r Ea (Hf a r eq_refl)) as H.
  rewrite socktype_nonblock, (flag_lor type USOCK_NONBLOCK USOCK_SERVER) in H by done.
  destruct (usock_connect _ _ _ _ _ w) as [fd w']. destruct H as (Er & _ & _ & H). split; [done|].
  destruct (works _ a) eqn:Hw; [|by left]. destruct H as (-> & s & En & Hop). right.
  assert (0 <= a_sock a) by (unfold works in Hw; btest; done).
  split_and!; [done|by apply (Hf a r)|by exists a|]. exists s. split; [done|].
  destruct Hop as (_ & H2 & H3 & H4 & H5). rewrite socktype_nonblock in H2.
  rewrite (flag_lor type USOCK_NONBLOCK USOCK_NOCLOEXEC) in H3 by done.
  rewrite (flag_lor type USOCK_NONBLOCK USOCK_SERVER), Hs in H5 by done.
  split_and!; try done. rewrite H4. unfold flag. rewrite Z.land_lor_distr_l.
  apply negb_true_iff, Z.eqb_neq. intros E%Z.lor_eq_0_iff. by destruct E.
Qed.

Lemma poll_restart_net timeout w ret ev w' :
  poll_restart timeout w = Some (ret, ev, w') -> net w' = net w /\ attempts w' = attempts w.
Proof.
  unfold poll_restart. destruct (clock_gettime w) as [ts w1] eqn:E1.
  assert (H1 : net w1 = net w /\ attempts w1 = attempts w).
  { unfold clock_gettime in E1. destruct (clocks w); by simplify_eq. }
  destruct H1 as [<- <-]. generalize (deadline ts timeout), (length (polls w1)), (@nil Z). clear.
  intros ts fuel. revert timeout w1. induction fuel as [|fuel IH]; simpl; intros timeout w ev0 H; [done|].
  apply bind_Some in H as ([[r e] w1] & E & H). unfold poll in E. destruct (polls w) as [|[]]; simplify_eq.
  destruct (r =? EAGAIN); [by apply IH in H|]. destruct (negb (r =? EINTR)); [by simplify_eq|].
  unfold clock_gettime in H. destruct (clocks w); simpl in H; (case_match; [by simplify_eq|by apply IH in H]).
Qed.

Definition add_sock (fd : Z) (s : sock) (m : gmap Z sock) : gmap Z sock := if 0 <=? fd then <[fd := s]> m else m.
(** The sockets of both families beside those open before. *)
Record both (base : gmap Z sock) (type : Z) (v6 v4 : option addrinfo) (fd0 fd1 : Z) (w : world) : Prop := Both {
  b_net : exists s0 s1, net w = add_sock fd1 s1 (add_sock fd0 s0 base) /\
    (0 <= fd0 -> exists rp, v6 = Some rp /\ connecting type true (ai_addr rp) s0) /\
    (0 <= fd1 -> exists rp, v4 = Some rp /\ connecting type true (ai_addr rp) s1);
  b_new0 : 0 <= fd0 -> base !! fd0 = None;
  b_new1 : 0 <= fd1 -> base !! fd1 = None;
  b_diff : 0 <= fd0 -> 0 <= fd1 -> fd0 <> fd1;
  b_bad : forall fd, fd < 0 -> base !! fd = None
}.
(** The result: no socket, or one more, to an address of the list. *)
Definition one_more (base : gmap Z sock) (type : Z) (l : list addrinfo) (r : Z * option (list Z) * world) : Prop :=
  let '(fd, addr, w) := r in
  fd < 0 /\ addr = None /\ net w = base \/
  0 <= fd /\ base !! fd = None /\ exists rp s, rp ∈ l /\ addr = Some (ai_addr rp) /\
    net w = <[fd := s]> base /\ connecting type (flag type USOCK_NONBLOCK) (ai_addr rp) s.

Lemma connecting_out type s sa :
  connecting type true sa s ->
  connecting type (flag type USOCK_NONBLOCK) sa
    (if negb (flag type USOCK_NONBLOCK)
     then Sock (s_family s) (s_type s) (s_cloexec s) false (s_bound s) (s_listen s) (s_peer s) else s).
Proof. intros (H1 & H2 & H3 & H4). destruct (flag type USOCK_NONBLOCK); by split_and!. Qed.

Lemma delete_add_sock fd s m : (0 <= fd -> m !! fd = None) -> 0 <= fd -> delete fd (add_sock fd s m) = m.
Proof. intros H H0. unfold add_sock. rewrite (proj2 (Z.leb_le 0 fd)) by done. apply delete_insert_id. auto. Qed.
Lemma alter_missing {A} (f : A -> A) i (m : gmap Z A) : m !! i = None -> alter f i m = m.
Proof.
  intros H. apply map_eq. intros j. destruct (decide (j = i)) as [->|?];
    [by rewrite lookup_alter_eq, H|by rewrite lookup_alter_ne].
Qed.

Lemma add_sock_neg fd s m : fd < 0 -> add_sock fd s m = m.
Proof. intros H. unfold add_sock. by rewrite (proj2 (Z.leb_gt 0 fd)). Qed.
Lemma add_sock_pos fd s m : 0 <= fd -> add_sock fd s m = <[fd := s]> m.
Proof. intros H. unfold add_sock. by rewrite (proj2 (Z.leb_le 0 fd)). Qed.

Lemma close_others base type v6 v4 fd0 fd1 fd w :
  both base type v6 v4 fd0 fd1 w -> fd < 0 \/ fd = fd0 \/ fd = fd1 ->
  exists s, net (close_other fd1 fd (close_other fd0 fd w)) = add_sock fd s base /\
    (0 <= fd -> base !! fd = None) /\
    (fd = fd0 -> 0 <= fd -> exists rp, v6 = Some rp /\ connecting type true (ai_addr rp) s) /\
    (fd = fd1 -> 0 <= fd -> exists rp, v4 = Some rp /\ connecting type true (ai_addr rp) s).
Proof.
  intros [(s0 & s1 & En & H0 & H1) N0 N1 Hd Hb] Hfd.
  exists (if fd =? fd0 then s0 else s1). unfold close_other, close.
  destruct (0 <=? fd0) eqn:E0, (0 <=? fd1) eqn:E1; btest;
    rewrite ?(add_sock_pos fd0), ?(add_sock_pos fd1), ?(add_sock_neg fd0), ?(add_sock_neg fd1) in En by done; simpl.
  all: destruct (fd =? fd0) eqn:E2, (fd =? fd1) eqn:E3; btest; subst;
    rewrite ?Z.eqb_refl, ?(proj2 (Z.eqb_neq fd0 _)), ?(proj2 (Z.eqb_neq fd1 _)) by congruence; simpl.
  all: (split; [|split_and!; intros; subst; try done; try lia; auto]).
  all: rewrite ?En, ?add_sock_pos, ?add_sock_neg by lia.
  all: try done; try lia.
  all: try (exfalso; intuition lia).
  all: try (assert (fd1 <> fd0) by (apply not_eq_sym, Hd; done)).
  all: rewrite ?(delete_insert_ne _ fd0 fd1) by done.
  all: rewrite ?(delete_insert_id base fd0) by auto.
  all: by rewrite ?delete_insert_id by (rewrite ?lookup_insert_ne by done; auto).
Qed.

Lemma inet_out_spec base type l v6 v4 fd0 fd1 fd rp w :
  both base type v6 v4 fd0 fd1 w -> (forall r, v6 = Some r -> r ∈ l) -> (forall r, v4 = Some r -> r ∈ l) ->
  fd < 0 \/ fd = fd0 /\ rp = v6 \/ fd = fd1 /\ rp = v4 ->
  one_more base type l (inet_out type fd0 fd1 fd rp w).
Proof.
  intros Hb H6 H4 Hfd.
  destruct (close_others _ _ _ _ _ _ fd _ Hb) as (s & En & Hn & P0 & P1); [tauto|].
  pose proof (b_bad _ _ _ _ _ _ _ Hb) as Hbad.
  unfold inet_out, one_more. set (w1 := close_other _ _ _) in *.
  destruct (0 <=? fd) eqn:E; btest.
  - right. split_and!; [done|by apply Hn|].
    assert (exists r, r ∈ l /\ rp = Some r /\ connecting type true (ai_addr r) s) as (r & Hr & -> & Hc).
    { destruct Hfd as [?|[[-> ->]|[-> ->]]]; [lia| |];
        [destruct (P0 eq_refl E) as (r & -> & ?)|destruct (P1 eq_refl E) as (r & -> & ?)]; eauto. }
    exists r, (if negb (flag type USOCK_NONBLOCK)
          then Sock (s_family s) (s_type s) (s_cloexec s) false (s_bound s) (s_listen s) (s_peer s) else s).
    split_and!; [done|done| |by apply connecting_out].
    rewrite add_sock_pos in En by done.
    destruct (flag type USOCK_NONBLOCK); simpl; [done|]. by rewrite En, alter_insert_eq.
  - left. split_and!; [done|done|]. rewrite add_sock_neg in En by done.
    destruct (flag type USOCK_NONBLOCK); simpl; [done|]. rewrite En. apply alter_missing, Hbad. done.
Qed.

Lemma both_net base type v6 v4 fd0 fd1 w w' :
  both base type v6 v4 fd0 fd1 w -> net w' = net w -> both base type v6 v4 fd0 fd1 w'.
Proof. intros [] E. split; try done. by rewrite E. Qed.

Lemma inet_wait_spec base type l fd0 fd1 timeout v6 v4 v4' w r :
  both base type v6 v4 fd0 fd1 w -> (forall r, v6 = Some r -> r ∈ l) -> (forall r, v4 = Some r -> r ∈ l) ->
  v4' = v4 \/ v4' = None /\ v6 <> None ->
  inet_wait type fd0 fd1 timeout v6 v4' w = Some r -> one_more base type l r.
Proof.
  intros Hb H6 H4 Hv E. unfold inet_wait in E. apply bind_Some in E as ([[ret ev] w1] & Ep & E).
  apply poll_restart_net in Ep as [En _].
  assert (Hb1 := both_net _ _ _ _ _ _ _ w1 Hb En).
  destruct (flag _ POLLOUT); [|destruct (flag _ POLLOUT) eqn:E1]; injection E as <-.
  - eapply inet_out_spec; eauto.
  - destruct Hv as [->|[-> Hv]]; [eapply inet_out_spec; eauto|]. by destruct v6.
  - eapply inet_out_spec; eauto. left. lia.
Qed.

Lemma inet_try_v4_spec base type l fd0 timeout v6 v4 w r :
  flag type USOCK_SERVER = false ->
  both base type v6 v4 fd0 (-1) w -> (forall r, v6 = Some r -> r ∈ l) -> (forall r, v4 = Some r -> r ∈ l) ->
  (fd0 < 0 -> v6 = None) ->
  (forall a q, attempts w = a :: q -> 0 <= a_sock a -> base !! a_sock a = None /\ (0 <= fd0 -> a_sock a <> fd0)) ->
  inet_try_v4 type fd0 timeout v6 v4 w = Some r -> one_more base type l r.
Proof.
  intros Hs Hb H6 H4 Hv Hf E. unfold inet_try_v4 in E. destruct v4 as [rp|].
  2:{ eapply inet_wait_spec; [exact Hb|done|done|by left|exact E]. }
  destruct (b_net _ _ _ _ _ _ _ Hb) as (s0 & s1 & En & P0 & _). rewrite add_sock_neg in En by lia.
  pose proof (connect_nonblock type rp w Hs) as Hc.
  destruct (usock_connect _ _ _ _ _ w) as [fd1 w1].
  destruct Hc as (_ & Hc).
  { intros a q Ea Ha. destruct (Hf a q Ea Ha) as [F1 F2]. rewrite En.
    destruct (decide (0 <= fd0)); [|by rewrite add_sock_neg by lia].
    rewrite add_sock_pos, lookup_insert_ne; [done|by apply not_eq_sym, F2|done]. }
  assert (Hb1 : both base type v6 (Some rp) fd0 fd1 w1).
  { destruct Hb as [_ N0 _ _ Hbad]. destruct Hc as [[-> En1]|(Hp & Hnone & (a & Ha & ->) & s & En1 & Hcon)].
    - split; try done; try lia. exists s0, s0. split_and!; [by rewrite add_sock_neg, En1 by lia|done|lia].
    - destruct (attempts w) as [|a' q] eqn:Ea; simplify_eq/=. destruct (Hf a q eq_refl Hp) as [F1 F2].
      split; try done; [|try (intros ? _ E'; by apply F2)..].
      exists s0, s. split_and!; [by rewrite add_sock_pos, En1, En by lia|done|by eauto]. }
  destruct (fd1 <? 0) eqn:E1.
  - destruct v6 as [r6|].
    + eapply inet_wait_spec; [exact Hb1|done|done|right; done|exact E].
    + injection E as <-. eapply inet_out_spec; [exact Hb1|done|done|left; lia].
  - eapply inet_wait_spec; [exact Hb1|done|done|by left|exact E].
Qed.

Lemma first_of_elem family l rp : first_of family l = Some rp -> rp ∈ l.
Proof.
  unfold first_of. intros H. destruct (filter _ l) as [|x k] eqn:E; simplify_eq/=.
  assert (Hx : rp ∈ filter (fun rp => ai_family rp = family) l) by (rewrite E; left).
  by apply list_elem_of_filter in Hx as [_ ?].
Qed.

(** The descriptors the system gives for the first two sockets are not open. *)
Definition fresh_pair (type : Z) (w : world) : Prop :=
  (forall a q, attempts w = a :: q -> 0 <= a_sock a -> net w !! a_sock a = None) /\
  (forall a b q, attempts w = a :: b :: q -> 0 <= a_sock b ->
     net w !! a_sock b = None /\ (works (Z.lor type USOCK_NONBLOCK) a = true -> a_sock a <> a_sock b)) /\
  (forall fd, fd < 0 -> net w !! fd = None).

Lemma inet_timeout_spec result type timeout w r :
  flag type USOCK_SERVER = false -> 0 < timeout -> fresh_pair type w ->
  usock_inet_timeout (Some result) type timeout w = Some r -> one_more (net w) type result r.
Proof.
  intros Hs Ht (F1 & F2 & F3) E. unfold usock_inet_timeout in E.
  assert (Ec : (timeout <=? 0) || flag type USOCK_SERVER = false) by (rewrite Hs; by apply orb_false_iff; rewrite Z.leb_gt).
  rewrite Ec in E.
  pose proof (first_of_elem AF_INET6 result) as H6. pose proof (first_of_elem AF_INET result) as H4.
  assert (Hb0 : forall v6 v4, both (net w) type v6 v4 (-1) (-1) w).
  { intros v6 v4. split; try done; try lia. exists (Sock 0 0 false false None false None), (Sock 0 0 false false None false None).
    split_and!; [by rewrite !add_sock_neg by lia|lia|lia]. }
  destruct (first_of AF_INET6 result) as [r6|].
  - pose proof (connect_nonblock type r6 w Hs F1) as Hc.
    destruct (attempts w) as [|a q] eqn:Ea.
    { rewrite usock_connect_none in E, Hc by done. simpl in E.
      eapply inet_try_v4_spec; [done|apply Hb0|..|exact E]; try done. intros a q Ea'. congruence. }
    pose proof (usock_connect_spec (Z.lor type USOCK_NONBLOCK) r6 w a q Ea (F1 a q eq_refl)) as Hw.
    rewrite socktype_nonblock, (flag_lor type USOCK_NONBLOCK USOCK_SERVER) in Hw by done.
    destruct (usock_connect _ _ _ _ _ w) as [fd0 w1]. destruct Hc as [Eq Hc]. destruct Hw as (_ & _ & _ & Hw).
    assert (Hb1 : forall v4, both (net w) type (Some r6) v4 fd0 (-1) w1).
    { intros v4. destruct Hc as [[-> En]|(Hp & Hn & _ & s & En & Hcon)].
      - eapply both_net; [apply Hb0|done].
      - split; try done; try lia. exists s, s. split_and!; [|by eauto|lia].
        by rewrite (add_sock_neg (-1)), add_sock_pos by lia. }
    assert (Hf : forall a0 q0, attempts w1 = a0 :: q0 -> 0 <= a_sock a0 ->
      net w !! a_sock a0 = None /\ (0 <= fd0 -> a_sock a0 <> fd0)).
    { intros b q0 Eb Hpb. rewrite Eq in Eb. simpl in Eb. subst q. destruct (F2 a b q0 eq_refl Hpb) as [G1 G2].
      split; [done|]. intros Hp0. destruct (works _ a); [|lia]. destruct Hw as [-> _]. by apply not_eq_sym, G2. }
    destruct (fd0 <? 0) eqn:E0; btest.
    + destruct Hc as [[-> En]|(Hp & _)]; [|lia]. revert E.
      apply (inet_try_v4_spec (net w) type result (-1) timeout None (first_of AF_INET result) w1 r Hs);
        [by eapply both_net; [apply Hb0|]|done|exact H4|done|done].
    + assert (Hgo : forall timeout w2, net w2 = net w1 -> attempts w2 = attempts w1 ->
        inet_try_v4 type fd0 timeout (Some r6) (first_of AF_INET result) w2 = Some r -> one_more (net w) type result r).
      { intros t2 w2 En2 Ea2 E2. revert E2.
        apply (inet_try_v4_spec (net w) type result fd0 t2 (Some r6) (first_of AF_INET result) w2 r Hs).
        - by eapply both_net; [apply Hb1|].
        - intros x [= <-]. by apply H6.
        - exact H4.
        - lia.
        - by rewrite Ea2. }
      destruct (300 <? timeout); [|by eapply Hgo].
      apply bind_Some in E as ([[ret ev] w2] & Ep & E). apply poll_restart_net in Ep as [En2 Ea2].
      destruct (ret =? 1); [|by eapply Hgo]. injection E as <-.
      apply (inet_out_spec _ _ _ (Some r6) None); [by eapply both_net; [apply Hb1|]| |done|by right; left].
      intros x [= <-]. by apply H6.
  - destruct (first_of AF_INET result) as [r4|].
    + eapply inet_try_v4_spec; [done|apply Hb0|..|exact E]; try done. intros a q Ea Hp. split; [by eapply F1|lia].
    + injection E as <-. eapply inet_out_spec; [apply (Hb0 None None)|done|done|left; lia].
Qed.

(** C25. Opening a socket leaves open the socket asked for and no other. [usock], for any type,
    name and answers of the system, either fails, and then no socket is left open, or returns a
    descriptor that was not open before, of a socket with the kind and flags of [type], bound to
    an address of the name and listening where it is a stream, or connecting to it: to the
    address of the first attempt that works, which there is whenever one works. With a time limit
    [usock_inet_timeout] tries one address of each family at once: when it returns, at most one
    of the two sockets is left, and it blocks unless it was asked not to. *)
Theorem usock_opens_one found type host w :
  Forall (fun a => net w !! a_sock a = None) (attempts w) ->
  (let '(fd, w') := usock found type host w in
   fd = -1 /\ net w' = net w /\
     (flag type USOCK_UNIX = false -> forall result i a, found = Some result -> (i < length result)%nat ->
        attempts w !! i = Some a -> works type a = false) \/
   0 <= fd /\ net w !! fd = None /\ exists rp s, net w' = <[fd := s]> (net w) /\ opened_for type rp s /\
     if flag type USOCK_UNIX
     then ai_family rp = AF_UNIX /\ ai_addr rp = host /\ Z.of_nat (length host) < SUN_PATH
     else exists result i a, found = Some result /\ result !! i = Some rp /\
            first_works type (attempts w) i a /\ fd = a_sock a) /\
  (forall result timeout r, found = Some result -> flag type USOCK_SERVER = false -> 0 < timeout ->
     fresh_pair type w -> usock_inet_timeout found type timeout w = Some r -> one_more (net w) type result r).
Proof.
  intros Hf. split.
  2:{ intros result timeout r -> Hs Ht Hp. by apply inet_timeout_spec. }
  assert (Hfresh : forall i a, attempts w !! i = Some a -> net w !! a_sock a = None).
  { intros i a Ha. exact (Forall_lookup_1 _ _ _ _ Hf Ha). }
  assert (Hpos : forall a, works type a = true -> 0 <= a_sock a).
  { intros a Ha. unfold works in Ha. btest. done. }
  unfold usock. destruct (flag type USOCK_UNIX).
  - unfold usock_unix. destruct (SUN_PATH <=? _) eqn:El; btest; [by left|].
    destruct (attempts w) as [|a q] eqn:Ea; [rewrite usock_connect_none by done; by left|].
    pose proof (usock_connect_spec type (AddrInfo AF_UNIX host) w a q Ea (fun _ => Hfresh 0%nat a eq_refl)) as Hc.
    simpl in Hc. destruct (usock_connect _ _ _ _ _ w) as [fd w']. destruct Hc as (_ & _ & _ & Hc).
    destruct (works type a) eqn:Hw; [|destruct Hc as [-> ?]; by left].
    destruct Hc as (-> & s & En & Hs). pose proof (Hpos a Hw).
    rewrite (proj2 (Z.ltb_ge (a_sock a) 0)) by done. right. split_and!; [done|by apply (Hfresh 0%nat)|].
    by exists (AddrInfo AF_UNIX host), s.
  - unfold usock_inet. destruct found as [result|]; [|left; by split_and!].
    pose proof (inet_notimeout_spec type result w Hf) as Hc.
    destruct (usock_inet_notimeout type result w) as [[fd addr] w'].
    destruct Hc as [(-> & _ & En & Hno)|(i & rp & a & s & Hi & Hw & -> & _ & En & Hs)].
    + left. split_and!; try done. intros _ result' i a [= <-]. apply Hno.
    + destruct Hw as (Ha & Hw & Hfirst). pose proof (Hpos a Hw).
      rewrite (proj2 (Z.ltb_ge (a_sock a) 0)) by done. right. split_and!; [done|by eapply Hfresh|].
      exists rp, s. split_and!; [done|done|]. by exists result, i, a.
Qed.

(** A server: the first address is taken, the second is free. *)
Definition busy_then_free : world :=
  World ∅ [Attempt 5 (-1) 0 0 98; Attempt 5 0 0 0 0] [] [].
Definition two_addresses : list addrinfo := [AddrInfo AF_INET [1]; AddrInfo AF_INET [2]].
Lemma usock_opens_one_witness :
  exists w' rp s, usock (Some two_addresses) (Z.lor USOCK_IPV4ONLY USOCK_SERVER) [] busy_then_free = (5, w') /\
    net w' = <[5 := s]> ∅ /\ opened_for (Z.lor USOCK_IPV4ONLY USOCK_SERVER) rp s.
Proof.
  pose proof (usock_opens_one (Some two_addresses) (Z.lor USOCK_IPV4ONLY USOCK_SERVER) [] busy_then_free) as [H _].
  { by repeat constructor. }
  destruct (usock _ _ _ _) as [fd w'] eqn:E.
  assert (fd = 5) as -> by (vm_compute in E; by simplify_eq).
  destruct H as [[? _]|(_ & _ & rp & s & En & Hs & _)]; [done|]. by exists w', rp, s.
Defined.

(** *** What the code does not do *)

(** [poll] answers at most the number of descriptors, and so no error number: its first answer
    is the result, also where a signal interrupted it. *)
Lemma poll_restart_once timeout w ret ev r :
  polls w = (ret, ev) :: r -> ret <= 2 ->
  exists w', poll_restart timeout w = Some (ret, ev, w') /\ polls w' = r.
Proof.
  intros Ep Hr. unfold poll_restart. destruct (clock_gettime w) as [ts w1] eqn:Ec.
  assert (E1 : polls w1 = polls w) by (unfold clock_gettime in Ec; destruct (clocks w); by simplify_eq).
  rewrite E1, Ep. simpl. unfold poll. rewrite E1, Ep. simpl. unfold EAGAIN, EINTR.
  rewrite (proj2 (Z.eqb_neq ret 11)), (proj2 (Z.eqb_neq ret 4)) by lia. by eexists.
Qed.
(** A limit of less than 300 milliseconds becomes negative, which is no limit, once a socket of
    the first family is connecting. *)
Lemma short_limit_negative :
  usock_inet_timeout (Some [AddrInfo AF_INET6 [6]]) USOCK_TCP 200 (World ∅ [Attempt 5 0 0 (-1) EINPROGRESS] [] [])
  = let '(fd0, w) := usock_connect USOCK_NONBLOCK [6] AF_INET6 SOCK_STREAM false
                       (World ∅ [Attempt 5 0 0 (-1) EINPROGRESS] [] []) in
    inet_try_v4 USOCK_TCP fd0 (-100) (Some (AddrInfo AF_INET6 [6])) None w.
Proof. reflexivity. Qed.
(** A connection of the first family that is refused within the first 300 milliseconds is
    returned as if it had been made: [poll] counts it as ready. *)
Lemma refused_is_returned :
  exists w', usock_inet_timeout (Some [AddrInfo AF_INET6 [6]; AddrInfo AF_INET [4]]) USOCK_TCP 1000
    (World ∅ [Attempt 5 0 0 (-1) EINPROGRESS; Attempt 6 0 0 0 0] [(1, [28])] [Ts 0 0]) = Some (5, Some [6], w').
Proof. by eexists. Qed.
