(* ===== verification/OpSql.v ===== *)
(** * The database layer (src/src/base/opsql.c, opsql.h)

    The ODBC driver manager and the allocator it is used beside are parameters: the class [Odbc]
    has one operation for each call the code makes, on a state of their own, and [OdbcLaws] what
    their documentation says of statement handles and blocks. A handle 0 is null. *)

From S2P Require Import Prelude CString Utils.
From stdpp Require Import base tactics numbers list gmap strings.
From Stdlib Require Import ZArith Lia SpecFloat.
Open Scope Z_scope.

(** A value stored in the variable bound to a column. *)
Inductive cell := CChar (s : list Z) | CDouble (f : spec_float) | CInteger (n : Z).

Class Odbc (D : Type) := {
  sys_calloc : D -> option Z * D;
  sys_free : Z -> D -> D;
  sql_alloc_env : D -> Z * D;
  sql_set_version : D -> Z * D;
  sql_alloc_dbc : D -> Z * D;
  sql_connect : D -> Z * D;
  sql_disconnect : D -> D;
  (** [SQLGetConnectAttr(SQL_ATTR_CONNECTION_DEAD)]: the result and the attribute. *)
  sql_connection_dead : D -> Z * Z * D;
  (** The result and what is stored in [*OutputHandle]. *)
  sql_alloc_stmt : D -> Z * Z * D;
  sql_free_stmt : Z -> D -> D;
  sql_set_scrollable : Z -> D -> D;
  sql_bind_col : Z -> Z -> Z -> Z -> D -> Z * D;
  sql_exec_direct : Z -> list Z -> D -> Z * D;
  sql_row_count : Z -> D -> Z * Z * D;
  (** The result and the values stored, by column; none for a column that is null or not bound. *)
  sql_fetch : Z -> D -> Z * gmap Z cell * D;
  sql_fetch_scroll : Z -> Z -> D -> Z * gmap Z cell * D
}.

(** Statement handles: those allocated and not freed; blocks: those [calloc] returned and [free]
    was not called on. A call that makes no handle stores the null one. *)
Class OdbcLaws (D : Type) `{!Odbc D} := {
  stmts : D -> gset Z;
  blocks : D -> gset Z;
  alloc_stmt_ok : forall d rc h d', sql_alloc_stmt d = (rc, h, d') ->
    blocks d' = blocks d /\
    if (rc =? 0) || (rc =? 1) then h <> 0 /\ h ∉ stmts d /\ stmts d' = {[h]} ∪ stmts d
    else h = 0 /\ stmts d' = stmts d;
  free_stmt_ok : forall h d, stmts (sql_free_stmt h d) = stmts d ∖ {[h]} /\ blocks (sql_free_stmt h d) = blocks d;
  calloc_ok : forall d m d', sys_calloc d = (m, d') ->
    stmts d' = stmts d /\ match m with Some p => p <> 0 /\ p ∉ blocks d /\ blocks d' = {[p]} ∪ blocks d
                          | None => blocks d' = blocks d end;
  free_ok : forall p d, blocks (sys_free p d) = blocks d ∖ {[p]} /\ stmts (sys_free p d) = stmts d;
  frame_ok : forall d,
    (stmts (snd (sql_connect d)) = stmts d /\ blocks (snd (sql_connect d)) = blocks d) /\
    (stmts (sql_disconnect d) = stmts d /\ blocks (sql_disconnect d) = blocks d) /\
    (stmts (snd (sql_connection_dead d)) = stmts d /\ blocks (snd (sql_connection_dead d)) = blocks d) /\
    (forall h, stmts (sql_set_scrollable h d) = stmts d /\ blocks (sql_set_scrollable h d) = blocks d) /\
    (forall h c t n, stmts (snd (sql_bind_col h c t n d)) = stmts d /\ blocks (snd (sql_bind_col h c t n d)) = blocks d) /\
    (forall h s, stmts (snd (sql_exec_direct h s d)) = stmts d /\ blocks (snd (sql_exec_direct h s d)) = blocks d) /\
    (forall h, stmts (snd (sql_row_count h d)) = stmts d /\ blocks (snd (sql_row_count h d)) = blocks d) /\
    (forall h, stmts (snd (sql_fetch h d)) = stmts d /\ blocks (snd (sql_fetch h d)) = blocks d) /\
    (forall h r, stmts (snd (sql_fetch_scroll h r d)) = stmts d /\ blocks (snd (sql_fetch_scroll h r d)) = blocks d)
}.

Module OpSql.

Definition SQL_SUCCESS : Z := 0.
Definition SQL_SUCCESS_WITH_INFO : Z := 1.
Definition SQL_CD_TRUE : Z := 1.
Definition OPSQL_CHAR : Z := 1.
Definition OPSQL_INTEGER : Z := 4.
Definition OPSQL_DOUBLE : Z := 8.
Definition OPSQL_LEN : Z := 1024.
(** [rcode != SQL_SUCCESS && rcode != SQL_SUCCESS_WITH_INFO], negated. *)
Definition good (rcode : Z) : bool := (rcode =? SQL_SUCCESS) || (rcode =? SQL_SUCCESS_WITH_INFO).

(** [snprintf] of a text into an array of [size] bytes, as a string. *)
Definition clip (size : Z) (text : list Z) : list Z := take (Z.to_nat (size - 1)) text.

Section Sql.
Context {D : Type} `{!Odbc D}.

(** [None]: [free] is called on a pointer that [calloc] did not return. *)
Definition opsql_alloc (d : D) : option (Z * D) :=
  let '(m, d) := sys_calloc d in
  match m with
  | None => Some (0, d)
  | Some stmt =>
      let '(rcode, status, d) := sql_connection_dead d in
      if negb (good rcode) then Some (0, sys_free stmt d)
      else
        let '(rcode, d) := if status =? SQL_CD_TRUE then sql_connect (sql_disconnect d) else (SQL_SUCCESS, d) in
        if negb (good rcode) then Some (0, sys_free stmt d)
        else
          let '(rcode, stmt, d) := sql_alloc_stmt d in
          if negb (good rcode) then if stmt =? 0 then Some (0, d) else None
          else Some (stmt, sql_set_scrollable stmt d)
  end.

Definition opsql_free (handle : Z) (d : D) : D := sql_free_stmt handle d.

Definition opsql_bind_col (handle col type param_size : Z) (d : D) : Z * D :=
  let '(rcode, d) := sql_bind_col handle col type param_size d in
  (if negb (good rcode) then -1 else 0, d).

(** The number of rows is converted to [int]. *)
Definition opsql_query (handle : Z) (sql : list Z) (d : D) : Z * D :=
  let '(rcode, d) := sql_exec_direct handle sql d in
  if negb (good rcode) then (-1, d)
  else
    let '(rcode, row_count, d) := sql_row_count handle d in
    if negb (good rcode) then (-1, d) else (s32 row_count, d).

Definition opsql_exe (handle : Z) (sql : list Z) (d : D) : Z * D :=
  let '(rcode, d) := sql_exec_direct handle sql d in
  (if negb (good rcode) then -1 else 0, d).

(** The handle is freed where the statement succeeded. *)
Definition opsql_exe_single (sql : list Z) (d : D) : option (Z * D) :=
  '(handle, d) ← opsql_alloc d;
  if handle =? 0 then Some (-1, d)
  else
    let '(rcode, d) := opsql_exe handle sql d in
    if negb (good rcode) then Some (-1, d) else Some (0, opsql_free handle d).

Definition opsql_fetch (handle : Z) (d : D) : Z * gmap Z cell * D :=
  let '(rcode, row, d) := sql_fetch handle d in
  (if negb (good rcode) then -1 else 0, row, d).
Definition opsql_fetch_scroll (handle row : Z) (d : D) : Z * gmap Z cell * D :=
  let '(rcode, vals, d) := sql_fetch_scroll handle row d in
  (if negb (good rcode) then -1 else 0, vals, d).

(** [calloc] and the pthread calls as answers; [conf]: the loaded dictionary, with the value of
    [opsql:path]. The result, [self] (the field [path]) and the variables set. *)
Record opsql_init_env := OpsqlInitEnv { oi_calloc : bool; oi_conf : option (option (list Z)); oi_attr : Z; oi_lock : Z }.
Definition opsql_init (e : opsql_init_env) (d : D)
    : bool * option (list Z) * list (list Z * list Z) * D :=
  if negb (oi_calloc e) then (false, None, [], d)
  else
    match oi_conf e with
    | None | Some None => (false, Some [], [], d)
    | Some (Some s) =>
        let path := clip 128 s in
        let env := [(str "ODBCSYSINI", path); (str "ODBCINI", clip 240 (path ++ str "/odbc.ini"))] in
        let '(r, d) := sql_alloc_env d in
        if negb (good r) then (false, Some path, env, d)
        else
          let '(r, d) := sql_set_version d in
          if negb (good r) then (false, Some path, env, d)
          else
            let '(r, d) := sql_alloc_dbc d in
            if negb (good r) then (false, Some path, env, d)
            else
              let '(r, d) := sql_connect d in
              if negb (good r) then (false, Some path, env, d)
              else if negb (oi_attr e =? 0) then (false, Some path, env, d)
              else if negb (oi_lock e =? 0) then (false, Some path, env, d)
              else (true, Some path, env, d)
    end.
End Sql.
End OpSql.
