(* ===== verification/Op4g.v ===== *)
(** * Messages of the 4G module (src/src/module/op4g/op4g.c, op4g_bus.c)

    Sending a message, and the call that sends a random quotation from the database. What is
    handed to the modem ([U9300]) is kept as a list of phone numbers and texts. *)

From S2P Require Import Prelude CString OpSql OpRpc.
From stdpp Require Import base tactics numbers list gmap strings.
From Stdlib Require Import ZArith Lia.
Open Scope Z_scope.

Module Op4g.
Import OpSql.

(** [up]: [self] is set, that is, the module was initialised. *)
Record radio := Radio { up : bool; sent : list (list Z * list Z) }.

Definition op4g_send_message (phone_num message : list Z) (r : radio) : radio :=
  if up r then Radio true (sent r ++ [(phone_num, message)]) else r.
(** [text]: the format with its arguments. *)
Definition op4g_send_message_ex (phone_num text : list Z) (r : radio) : radio :=
  op4g_send_message phone_num (clip 1024 text) r.

Definition phone : list Z := str "18519127396".

Section Quotes.
Context {D : Type} `{!Odbc D}.

(** A [char] array of [size] bytes after a fetch, given its string before. *)
Definition stored_char (size : Z) (before : list Z) (c : option cell) : list Z :=
  match c with Some (CChar s) => clip size s | _ => before end.

Definition quotes_sql : list Z := str "select quotations,name from quotes;".
Definition quote_text (quota nm : list Z) : list Z :=
  quota ++ str " --- " ++ nm ++ str " 【" ++ str "露国宠儿" ++ str "】".

(** [rnd] is what [rand] returns. *)
Definition _4g_send_quotes (rnd : Z) (d : D) (r : radio) : option (Z * D * radio) :=
  '(handle, d) ← opsql_alloc d;
  if handle =? 0 then Some (0, d, r)
  else
    let '(count, d) := opsql_query handle quotes_sql d in
    if count <=? 0 then Some (0, opsql_free handle d, r)
    else
      let '(_, d) := opsql_bind_col handle 1 OPSQL_CHAR 400 d in
      let '(_, d) := opsql_bind_col handle 2 OPSQL_CHAR 64 d in
      let index := Z.rem rnd count + 1 in
      let '(ret, row, d) := opsql_fetch_scroll handle index d in
      if ret <? 0 then Some (0, opsql_free handle d, r)
      else
        let short_message := clip 1024 (quote_text (stored_char 400 [] (row !! 1)) (stored_char 64 [] (row !! 2))) in
        Some (0, opsql_free handle d, op4g_send_message phone short_message r).

Definition tipc_opserver_send_quotes : Z := 3.
(** The local half of [op4g_rpc_register]; the handler answers nothing. *)
Definition op4g_rpc_register (rnd : Z) (self : option (OpRpc.op_local_rpc (option (D * radio))))
    : option (OpRpc.op_local_rpc (option (D * radio))) :=
  snd (OpRpc.op_local_register tipc_opserver_send_quotes
    (fun w _ _ response _ =>
       match w ≫= fun x => _4g_send_quotes rnd (fst x) (snd x) with
       | Some (ret, d, r) => (ret, response, Some (d, r))
       | None => (0, response, None)
       end) self).
End Quotes.
End Op4g.
