(* ===== verification/Spider.v ===== *)
(** * The stock monitor (src/src/module/spider/spider.c)

    The list of stocks loaded from the database, and the call that compares the last closing
    price of each with its limits and sends a message where one is reached. A [double] is a
    [spec_float] with 53 bits. The pool the entries come from is that of [OpMem]. A result
    [None] is a [free] of memory that [calloc] did not return. *)

From S2P Require Import Prelude KeyTable CString OpMem OpSql Op4g OpRpc.
From stdpp Require Import base tactics numbers list gmap strings.
From Stdlib Require Import ZArith Lia SpecFloat.
Open Scope Z_scope.

Module Spider.
Import OpSql Op4g.

Definition STAT_BUY : Z := 0.
Definition STAT_SALE : Z := 1.
Record monitor := Monitor {
  m_ptr : Z; stock_code : list Z; m_name : list Z;
  buy_price : spec_float; sale_price : spec_float; stat : Z
}.
Definition with_stat (s : Z) (m : monitor) : monitor :=
  Monitor (m_ptr m) (stock_code m) (m_name m) (buy_price m) (sale_price m) s.
Definition sizeof_monitor : Z := 80.

(** [%lf] of a [double]. *)
Definition fmt_lf (f : spec_float) : list Z :=
  match f with
  | S754_zero s => (if s then str "-" else []) ++ str "0.000000"
  | S754_infinity s => (if s then str "-" else []) ++ str "inf"
  | S754_nan => str "nan"
  | S754_finite s m e =>
      let n := if 0 <=? e then 1000000 * Z.pos m * 2 ^ e else round_even (1000000 * Z.pos m) (2 ^ (- e)) in
      let frac := n mod 1000000 in
      (if s then str "-" else []) ++ dec_digits 400 (n / 1000000) ++ str "."
      ++ ((fun k => 48 + frac / 10 ^ k mod 10) <$> [5; 4; 3; 2; 1; 0])
  end.

(** ** The texts *)

Definition select_sql (code : list Z) : list Z :=
  clip OPSQL_LEN (str "select closing_price from stock_info where stock_code='" ++ code
                  ++ str "' order by sdate desc limit 1;").
Definition update_sql (st : Z) (code : list Z) : list Z :=
  clip OPSQL_LEN (str "update stock_spider set sta='" ++ dec_digits 10 st ++ str "' where stock_code='" ++ code ++ str "';").
Definition message_text (what : list Z) (m : monitor) (closing_price : spec_float) : list Z :=
  what ++ str ": " ++ stock_code m ++ str "(" ++ m_name m ++ str ")， 上一交易日收盘价:" ++ fmt_lf closing_price
  ++ str " 【露国宠儿】".
Definition buy_text : monitor -> spec_float -> list Z := message_text (str "购买股票").
Definition sale_text : monitor -> spec_float -> list Z := message_text (str "出售股票").

Section Check.
Context {D : Type} `{!Odbc D}.

(** The database and the modem. *)
Definition env : Type := D * radio.

(** One of the two notices: the new state is kept whatever happens next; the result says
    whether the loop goes on. *)
Definition notify (new : Z) (text : monitor -> spec_float -> list Z) (closing_price : spec_float)
    (item : monitor) (e : env) : option (bool * monitor * env) :=
  let item := with_stat new item in
  '(ret, d) ← opsql_exe_single (update_sql new (stock_code item)) (fst e);
  if ret <? 0 then Some (false, item, (d, snd e))
  else Some (true, item, (d, op4g_send_message_ex phone (text item closing_price) (snd e))).

Definition decide_stock (closing_price : spec_float) (item : monitor) (e : env)
    : option (bool * monitor * env) :=
  '(go, item, e) ← (if SFleb closing_price (buy_price item) && negb (stat item =? STAT_SALE)
                    then notify STAT_SALE buy_text closing_price item e else Some (true, item, e));
  if negb go then Some (false, item, e)
  else if SFleb (sale_price item) closing_price && negb (stat item =? STAT_BUY)
  then notify STAT_BUY sale_text closing_price item e
  else Some (true, item, e).

(** [closing_price] keeps its value from the stock before where a fetch stores none; [handle]
    is the variable of that name. *)
Fixpoint check_loop (l : list monitor) (handle : Z) (closing_price : spec_float) (e : env)
    : option (list monitor * Z * env) :=
  match l with
  | [] => Some ([], handle, e)
  | item :: r =>
      '(handle, d) ← opsql_alloc (fst e);
      if handle =? 0 then Some (item :: r, handle, (d, snd e))
      else
        let '(count, d) := opsql_query handle (select_sql (stock_code item)) d in
        if count <=? 0 then
          '(r, handle, e) ← check_loop r handle closing_price (d, snd e); Some (item :: r, handle, e)
        else
          let '(_, d) := opsql_bind_col handle 1 OPSQL_DOUBLE 8 d in
          let '(ret, row, d) := opsql_fetch_scroll handle count d in
          let closing_price := match row !! 1 with Some (CDouble f) => f | _ => closing_price end in
          if ret <? 0 then Some (item :: r, handle, (d, snd e))
          else
            '(go, item, e) ← decide_stock closing_price item (d, snd e);
            if negb go then Some (item :: r, handle, e)
            else
              let e := (opsql_free handle (fst e), snd e) in
              '(r, handle, e) ← check_loop r 0 closing_price e;
              Some (item :: r, handle, e)
  end.

(** The list of stocks after the call, the database and the modem; the call answers 0. *)
Definition spider_check_stock (l : list monitor) (e : env) : option (Z * list monitor * env) :=
  match l with
  | [] => Some (0, l, e)
  | _ =>
      '(l, handle, e) ← check_loop l 0 (S754_zero false) e;
      Some (0, l, if handle =? 0 then e else (opsql_free handle (fst e), snd e))
  end.

Definition tipc_opserver_check_stock : Z := 4.
(** The local half of [spider_bus_register]. *)
Definition spider_bus_register (self : option (OpRpc.op_local_rpc (option (list monitor * env))))
    : option (OpRpc.op_local_rpc (option (list monitor * env))) :=
  snd (OpRpc.op_local_register tipc_opserver_check_stock
    (fun w _ _ response _ =>
       match w ≫= fun x => spider_check_stock (fst x) (snd x) with
       | Some (ret, l, e) => (ret, response, Some (l, e))
       | None => (0, response, None)
       end) self).

(** ** Loading *)

Context {T : Type} `{!KeyTable T OpMem.ptr}.

(** The variables bound to the columns. *)
Record row_vars := RowVars { v_code : list Z; v_note : list Z; v_buy : spec_float; v_sale : spec_float; v_status : Z }.
Definition stored_double (before : spec_float) (c : option cell) : spec_float :=
  match c with Some (CDouble f) => f | _ => before end.
Definition stored_int (before : Z) (c : option cell) : Z :=
  match c with Some (CInteger n) => s32 n | _ => before end.
Definition store_row (row : gmap Z cell) (v : row_vars) : row_vars :=
  RowVars (stored_char 20 (v_code v) (row !! 1)) (stored_char 20 (v_note v) (row !! 4))
          (stored_double (v_buy v) (row !! 2)) (stored_double (v_sale v) (row !! 3))
          (stored_int (v_status v) (row !! 5)).
Definition load_sql : list Z := str "select stock_code,buy_price,sale_price,note,sta from stock_spider;".

(** [allocs]: what the allocator answers the pool in each of its calls. *)
Fixpoint load_loop (n : nat) (handle : Z) (v : row_vars) (l : list monitor) (allocs : list (list (option Z)))
    (pool : option (OpMem.op_mem_info T)) (d : D) : list monitor * option (OpMem.op_mem_info T) * D :=
  match n with
  | O => (l, pool, d)
  | S n =>
      let '(ret, row, d) := opsql_fetch handle d in
      let v := store_row row v in
      if ret <? 0 then (l, pool, d)
      else
        match OpMem.op_calloc (default [] (head allocs)) 1 sizeof_monitor pool with
        | (None, pool) => (l, pool, d)
        | (Some p, pool) =>
            load_loop n handle v
              (l ++ [Monitor p (clip 20 (v_code v)) (clip 20 (v_note v)) (v_buy v) (v_sale v) (v_status v)])
              (tail allocs) pool d
        end
  end.

(** [None]: the entry that is taken off is given to [free], though it came from the pool. *)
Definition spider_stock_load (l : list monitor) (allocs : list (list (option Z))) (pool : option (OpMem.op_mem_info T)) (d : D)
    : option (list monitor * option (OpMem.op_mem_info T) * D) :=
  match l with
  | _ :: _ => None
  | [] =>
      '(handle, d) ← opsql_alloc d;
      if handle =? 0 then Some (l, pool, d)
      else
        let '(count, d) := opsql_query handle load_sql d in
        if count <=? 0 then Some (l, pool, opsql_free handle d)
        else
          let '(_, d) := opsql_bind_col handle 1 OPSQL_CHAR 20 d in
          let '(_, d) := opsql_bind_col handle 2 OPSQL_DOUBLE 8 d in
          let '(_, d) := opsql_bind_col handle 3 OPSQL_DOUBLE 8 d in
          let '(_, d) := opsql_bind_col handle 4 OPSQL_CHAR 20 d in
          let '(_, d) := opsql_bind_col handle 5 OPSQL_INTEGER 4 d in
          let '(l, pool, d) := load_loop (Z.to_nat count) handle (RowVars [] [] (S754_zero false) (S754_zero false) 0)
                                 l allocs pool d in
          Some (l, pool, opsql_free handle d)
  end.
End Check.
End Spider.
