(* ===== verification/SpiderSpec.v ===== *)
(** * Properties of the database layer and of the stock monitor *)

From S2P Require Import Prelude KeyTable CString OpMem OpSql Op4g OpRpc Spider.
From stdpp Require Import base tactics numbers list gmap strings.
From Stdlib Require Import ZArith Lia SpecFloat.
Open Scope Z_scope.
Import OpSql Op4g Spider.

(** ** Handles *)

Section Handles.
Context {D : Type} `{!Odbc D} `{!OdbcLaws D}.

Ltac frame d := let H := fresh "F" in pose proof (frame_ok d) as H; destruct H as (?&?&?&?&?&?&?&?&?).

(** A handle is new, and costs the block that was meant to hold it. *)
Lemma opsql_alloc_spec d :
  exists h d', opsql_alloc d = Some (h, d') /\
    (h = 0 /\ stmts d' = stmts d \/
     h <> 0 /\ h ∉ stmts d /\ stmts d' = {[h]} ∪ stmts d /\ exists p, p ∉ blocks d /\ blocks d' = {[p]} ∪ blocks d).
Proof.
  unfold opsql_alloc. destruct (sys_calloc d) as [m d1] eqn:E1. pose proof (calloc_ok _ _ _ E1) as [S1 B1].
  destruct m as [p|]; [|eexists _, _; split; [done|]; by left]. destruct B1 as (_ & Hp & B1).
  destruct (sql_connection_dead d1) as [[rc st] d2] eqn:E2.
  assert (F2 : stmts d2 = stmts d1 /\ blocks d2 = blocks d1) by (frame d1; rewrite E2 in *; done).
  destruct F2 as [S2 B2]. destruct (good rc); simpl.
  2:{ eexists _, _. split; [done|]. left. destruct (free_ok p d2) as [_ ->]. by rewrite S2, S1. }
  destruct (if st =? SQL_CD_TRUE then sql_connect (sql_disconnect d2) else (SQL_SUCCESS, d2)) as [rc3 d3] eqn:E3.
  assert (F3 : stmts d3 = stmts d2 /\ blocks d3 = blocks d2).
  { destruct (st =? SQL_CD_TRUE); [|by simplify_eq]. frame (sql_disconnect d2). frame d2. rewrite E3 in *. simpl in *.
    intuition congruence. }
  destruct F3 as [S3 B3]. destruct (good rc3); simpl.
  2:{ eexists _, _. split; [done|]. left. destruct (free_ok p d3) as [_ ->]. by rewrite S3, S2, S1. }
  destruct (sql_alloc_stmt d3) as [[rc4 h] d4] eqn:E4. pose proof (alloc_stmt_ok _ _ _ _ E4) as [B4 S4].
  unfold good, SQL_SUCCESS, SQL_SUCCESS_WITH_INFO. destruct ((rc4 =? 0) || (rc4 =? 1)); simpl.
  - destruct S4 as (Hh & Hn & S4). frame d4. eexists _, _. split; [done|]. right.
    destruct (H2 h) as [-> ->]. rewrite S4, S3, S2, S1, B4, B3, B2, B1 in *. split_and!; try done. by exists p.
  - destruct S4 as [-> S4]. simpl. eexists _, _. split; [done|]. left. by rewrite S4, S3, S2, S1.
Qed.

Lemma opsql_query_stmts h q d : stmts (snd (opsql_query h q d)) = stmts d.
Proof.
  unfold opsql_query. pose proof (frame_ok d) as (_ & _ & _ & _ & _ & F & _). destruct (F h q) as [E _].
  destruct (sql_exec_direct h q d) as [rc d1].
  destruct (good rc); simpl; [|done]. pose proof (frame_ok d1) as (_ & _ & _ & _ & _ & _ & F1 & _). destruct (F1 h) as [E1 _]. destruct (sql_row_count h d1) as [[rc2 n] d2].
  destruct (good rc2); simpl in *; congruence.
Qed.
Lemma opsql_bind_stmts h c t n d : stmts (snd (opsql_bind_col h c t n d)) = stmts d.
Proof.
  unfold opsql_bind_col. pose proof (frame_ok d) as (_ & _ & _ & _ & F & _). destruct (F h c t n) as [E _]. by destruct (sql_bind_col h c t n d).
Qed.
Lemma opsql_fetch_stmts h d : stmts (snd (opsql_fetch h d)) = stmts d.
Proof.
  unfold opsql_fetch. pose proof (frame_ok d) as (_ & _ & _ & _ & _ & _ & _ & F & _). destruct (F h) as [E _]. by destruct (sql_fetch h d) as [[]].
Qed.
Lemma opsql_fetch_scroll_stmts h n d : stmts (snd (opsql_fetch_scroll h n d)) = stmts d.
Proof.
  unfold opsql_fetch_scroll. pose proof (frame_ok d) as (_ & _ & _ & _ & _ & _ & _ & _ & F). destruct (F h n) as [E _]. by destruct (sql_fetch_scroll h n d) as [[]].
Qed.
Lemma opsql_free_stmts h d d0 : stmts d = {[h]} ∪ stmts d0 -> h ∉ stmts d0 -> stmts (opsql_free h d) = stmts d0.
Proof. intros E Hn. unfold opsql_free. rewrite (proj1 (free_stmt_ok h d)), E. set_solver. Qed.

Lemma length_clip n s : 0 < n -> Z.of_nat (length (clip n s)) < n.
Proof. intros Hn. unfold clip. rewrite length_take. lia. Qed.
Lemma length_stored n c : 0 < n -> Z.of_nat (length (stored_char n [] c)) < n.
Proof. intros Hn. unfold stored_char. destruct c as [[]|]; simpl; try lia. by apply length_clip. Qed.

(** Sending a quotation frees its handle on every path, whatever the database answers, and sends
    at most one message, which is not cut off. *)
Theorem send_quotes_balanced rnd d r :
  exists d' r', _4g_send_quotes rnd d r = Some (0, d', r') /\ stmts d' = stmts d /\
    (r' = r \/ exists quota nm, r' = op4g_send_message phone (quote_text quota nm) r).
Proof.
  unfold _4g_send_quotes. destruct (opsql_alloc_spec d) as (h & d1 & -> & H). cbn [mbind option_bind].
  destruct H as [[-> E]|(Hh & Hn & E & _)]; [by eexists _, _; split; [done|]; split; [done|]; left|].
  rewrite (proj2 (Z.eqb_neq h 0)) by done.
  destruct (opsql_query h quotes_sql d1) as [n d2] eqn:E2. pose proof (opsql_query_stmts h quotes_sql d1) as S2. rewrite E2 in S2.
  destruct (n <=? 0).
  { eexists _, _. split; [done|]. split; [|by left]. apply opsql_free_stmts; [simpl in *; congruence|done]. }
  destruct (opsql_bind_col h 1 OPSQL_CHAR 400 d2) as [x d3] eqn:E3. pose proof (opsql_bind_stmts h 1 OPSQL_CHAR 400 d2) as S3. rewrite E3 in S3.
  destruct (opsql_bind_col h 2 OPSQL_CHAR 64 d3) as [y d4] eqn:E4. pose proof (opsql_bind_stmts h 2 OPSQL_CHAR 64 d3) as S4. rewrite E4 in S4.
  destruct (opsql_fetch_scroll h (Z.rem rnd n + 1) d4) as [[ret row] d5] eqn:E5.
  pose proof (opsql_fetch_scroll_stmts h (Z.rem rnd n + 1) d4) as S5. rewrite E5 in S5.
  assert (Hf : stmts (opsql_free h d5) = stmts d) by (apply opsql_free_stmts; [simpl in *; congruence|done]).
  destruct (ret <? 0); (eexists _, _; split; [done|]; split; [done|]); [by left|]. right.
  eexists _, _. f_equal. unfold clip at 1. apply take_ge.
  pose proof (length_stored 400 (row !! 1) ltac:(lia)). pose proof (length_stored 64 (row !! 2) ltac:(lia)).
  unfold quote_text. rewrite !length_app. cbn [length str fmap list_fmap String.list_ascii_of_string]. lia.
Qed.

(** Loading into an empty list frees its handle on every path; the texts of each stock fit their
    arrays. *)
Theorem stock_load_balanced {T} `{!KeyTable T OpMem.ptr} allocs (pool : option (OpMem.op_mem_info T)) d :
  exists l pool' d', spider_stock_load [] allocs pool d = Some (l, pool', d') /\ stmts d' = stmts d /\
    Forall (fun m => (length (stock_code m) < 20)%nat /\ (length (m_name m) < 20)%nat) l.
Proof.
  assert (Hloop : forall n h v l allocs (pool : option (OpMem.op_mem_info T)) d,
    Forall (fun m => (length (stock_code m) < 20)%nat /\ (length (m_name m) < 20)%nat) l ->
    let '(l', _, d') := load_loop n h v l allocs pool d in
    stmts d' = stmts d /\ Forall (fun m => (length (stock_code m) < 20)%nat /\ (length (m_name m) < 20)%nat) l').
  { clear. induction n as [|n IH]; simpl; intros h v l allocs pool d Hl; [done|].
    pose proof (opsql_fetch_stmts h d) as Sf. destruct (opsql_fetch h d) as [[ret row] d1]. simpl in Sf.
    destruct (ret <? 0); [done|].
    destruct (OpMem.op_calloc _ 1 sizeof_monitor pool) as [[p|] pool']; [|done].
    match goal with |- context [load_loop n h ?v' ?l' ?a' ?q' ?e'] => specialize (IH h v' l' a' q' e') end.
    destruct (load_loop n h _ _ _ _ _) as [[l' q'] d'].
    destruct IH as [E Hl']; [|by rewrite E]. apply Forall_app. split; [done|]. constructor; [|done]. simpl.
    split; unfold clip; rewrite length_take; lia. }
  unfold spider_stock_load. destruct (opsql_alloc_spec d) as (h & d1 & -> & H). cbn [mbind option_bind].
  destruct H as [[-> E]|(Hh & Hn & E & _)]; [eexists _, _, _; split; [done|]; by split|].
  rewrite (proj2 (Z.eqb_neq h 0)) by done.
  destruct (opsql_query h load_sql d1) as [n d2] eqn:E2. pose proof (opsql_query_stmts h load_sql d1) as S2. rewrite E2 in S2.
  destruct (n <=? 0).
  { eexists _, _, _. split; [done|]. split; [|constructor]. apply opsql_free_stmts; [simpl in *; congruence|done]. }
  repeat match goal with |- context [opsql_bind_col h ?c ?t ?k ?e] =>
    let S := fresh "S" in pose proof (opsql_bind_stmts h c t k e) as S;
    destruct (opsql_bind_col h c t k e) end.
  match goal with |- context [load_loop ?n h ?v ?l ?a ?q ?e] => pose proof (Hloop n h v l a q e ltac:(constructor)) as Hl;
    destruct (load_loop n h v l a q e) as [[l' q'] d'] end.
  destruct Hl as [Sl Hl]. eexists _, _, _. split; [done|]. split; [|done].
  apply opsql_free_stmts; [simpl in *; congruence|done].
Qed.
End Handles.

(** ** The check *)

(** A database that answers: memory and statements are to be had, the connection is alive and,
    with a statement that is allocated, updates succeed and the question for the last closing
    price of a stock gives one row with the price. *)
Class Market (D : Type) `{!Odbc D} `{!OdbcLaws D} := {
  price : D -> list Z -> spec_float;
  mk_calloc : forall d, exists p d', sys_calloc d = (Some p, d') /\ price d' = price d;
  mk_alive : forall d, exists d', sql_connection_dead d = (0, 0, d') /\ price d' = price d;
  mk_stmt : forall d, exists h d', sql_alloc_stmt d = (0, h, d') /\ price d' = price d;
  mk_scroll : forall h d, price (sql_set_scrollable h d) = price d;
  mk_free : forall h d, price (sql_free_stmt h d) = price d;
  mk_update : forall h st code d, h ∈ stmts d -> exists d', sql_exec_direct h (update_sql st code) d = (0, d') /\ price d' = price d;
  mk_select : forall h code d, h ∈ stmts d -> exists d1 d2 rc d3 row d4,
    sql_exec_direct h (select_sql code) d = (0, d1) /\ sql_row_count h d1 = (0, 1, d2) /\
    sql_bind_col h 1 OPSQL_DOUBLE 8 d2 = (rc, d3) /\ sql_fetch_scroll h 1 d3 = (0, row, d4) /\
    row !! 1 = Some (CDouble (price d code)) /\ price d4 = price d
}.

(** What a price does to a stock: its new state, and the notices. *)
Definition wants_buy (px : spec_float) (m : monitor) : bool := SFleb px (buy_price m) && negb (stat m =? STAT_SALE).
Definition wants_sale (px : spec_float) (m : monitor) : bool := SFleb (sale_price m) px && negb (stat m =? STAT_BUY).
Definition after_buy (px : spec_float) (m : monitor) : monitor := if wants_buy px m then with_stat STAT_SALE m else m.
Definition after_check (px : spec_float) (m : monitor) : monitor :=
  if wants_sale px (after_buy px m) then with_stat STAT_BUY m else after_buy px m.
(** [true]: a notice to buy. *)
Definition kinds (px : spec_float) (m : monitor) : list bool :=
  (if wants_buy px m then [true] else []) ++ (if wants_sale px (after_buy px m) then [false] else []).
Definition notices (px : spec_float) (m : monitor) : list (list Z) :=
  (fun k : bool => clip 1024 ((if k then buy_text else sale_text) m px)) <$> kinds px m.
Definition send_all (texts : list (list Z)) (r : radio) : radio :=
  if up r then Radio true (sent r ++ (pair phone <$> texts)) else r.

Lemma send_all_nil r : send_all [] r = r.
Proof. destruct r as [[] s]; unfold send_all; simpl; [by rewrite app_nil_r|done]. Qed.
Lemma send_all_app a b r : send_all (a ++ b) r = send_all b (send_all a r).
Proof. destruct r as [[] s]; unfold send_all; simpl; [|done]. by rewrite fmap_app, app_assoc. Qed.
Lemma send_one text r : op4g_send_message_ex phone text r = send_all [clip 1024 text] r.
Proof. by destruct r as [[] s]. Qed.

Section Check.
Context {D : Type} `{!Odbc D} `{!OdbcLaws D} `{!Market D}.

Lemma alloc_market d :
  exists h d', opsql_alloc d = Some (h, d') /\ h <> 0 /\ h ∉ stmts d /\ stmts d' = {[h]} ∪ stmts d /\
    price d' = price d.
Proof.
  destruct (opsql_alloc_spec d) as (h & d' & E & Hh). exists h, d'. unfold opsql_alloc in E.
  destruct (mk_calloc d) as (p & d1 & E1 & P1). rewrite E1 in E.
  destruct (mk_alive d1) as (d2 & E2 & P2). rewrite E2 in E. simpl in E.
  destruct (mk_stmt d2) as (h' & d3 & E3 & P3). rewrite E3 in E. simpl in E. injection E as <- <-.
  assert (h' <> 0) by (by apply alloc_stmt_ok in E3 as [_ [? _]]).
  destruct Hh as [[? _]|(_ & Hn & Hs & _)]; [done|]. split_and!; try done.
  - unfold opsql_alloc. rewrite E1, E2. simpl. by rewrite E3.
  - by rewrite mk_scroll, P3, P2, P1.
Qed.
Lemma free_market h d d0 :
  stmts d = {[h]} ∪ stmts d0 -> h ∉ stmts d0 -> stmts (opsql_free h d) = stmts d0 /\ price (opsql_free h d) = price d.
Proof. intros E Hn. unfold opsql_free. rewrite (proj1 (free_stmt_ok h d)), E, mk_free. split; [set_solver|done]. Qed.

Lemma update_market st code d :
  exists d', opsql_exe_single (update_sql st code) d = Some (0, d') /\ stmts d' = stmts d /\ price d' = price d.
Proof.
  destruct (alloc_market d) as (h & d1 & E & Hh & Hn & Es & Ep). unfold opsql_exe_single. rewrite E. simpl.
  rewrite (proj2 (Z.eqb_neq h 0)) by done. unfold opsql_exe.
  destruct (mk_update h st code d1) as (d2 & E2 & P2); [set_solver|]. rewrite E2. simpl.
  assert (Es2 : stmts d2 = stmts d1).
  { pose proof (frame_ok d1) as (_ & _ & _ & _ & _ & F & _). destruct (F h (update_sql st code)) as [F1 _].
    by rewrite E2 in F1. }
  destruct (free_market h d2 d) as [F1 F2]; [by rewrite Es2|done|].
  eexists. split; [done|]. split; [done|]. by rewrite F2, P2, Ep.
Qed.

Lemma notify_market new text px m d r :
  exists d', notify new text px m (d, r)
             = Some (true, with_stat new m, (d', op4g_send_message_ex phone (text (with_stat new m) px) r)) /\
    stmts d' = stmts d /\ price d' = price d.
Proof.
  unfold notify. simpl. destruct (update_market new (stock_code m) d) as (d' & -> & ? & ?). simpl. by exists d'.
Qed.

Lemma decide_market px m d r :
  exists d', decide_stock px m (d, r) = Some (true, after_check px m, (d', send_all (notices px m) r)) /\
    stmts d' = stmts d /\ price d' = price d.
Proof.
  unfold decide_stock, notices, kinds, after_check, after_buy. fold (wants_buy px m).
  destruct (wants_buy px m).
  - destruct (notify_market STAT_SALE buy_text px m d r) as (d1 & -> & S1 & P1). simpl.
    fold (wants_sale px (with_stat STAT_SALE m)). change (SFleb (sale_price m) px && true) with (wants_sale px (with_stat STAT_SALE m)).
    destruct (wants_sale px (with_stat STAT_SALE m)).
    + destruct (notify_market STAT_BUY sale_text px (with_stat STAT_SALE m) d1
        (op4g_send_message_ex phone (buy_text (with_stat STAT_SALE m) px) r)) as (d2 & -> & S2 & P2).
      exists d2. split_and!; [|congruence|congruence]. rewrite !send_one, <- send_all_app. done.
    + exists d1. by rewrite send_one.
  - simpl. fold (wants_sale px m). destruct (wants_sale px m).
    + destruct (notify_market STAT_BUY sale_text px m d r) as (d1 & -> & S1 & P1). exists d1. by rewrite send_one.
    + exists d. by rewrite send_all_nil.
Qed.

Lemma select_market h code d :
  h ∈ stmts d -> exists d1 d2 d3 row rc, opsql_query h (select_sql code) d = (1, d1) /\
    opsql_bind_col h 1 OPSQL_DOUBLE 8 d1 = (rc, d2) /\ opsql_fetch_scroll h 1 d2 = (0, row, d3) /\
    row !! 1 = Some (CDouble (price d code)) /\ price d3 = price d /\ stmts d3 = stmts d.
Proof.
  intros Hh. destruct (mk_select h code d Hh) as (e1 & e2 & rc & e3 & row & e4 & E1 & E2 & E3 & E4 & Er & Ep).
  exists e2, e3, e4, row, (if negb (good rc) then -1 else 0).
  unfold opsql_query, opsql_bind_col, opsql_fetch_scroll. rewrite E1. simpl. rewrite E2. simpl. rewrite E3, E4.
  split_and!; try done.
  pose proof (frame_ok d) as (_ & _ & _ & _ & _ & F1 & _). destruct (F1 h (select_sql code)) as [G1 _]. rewrite E1 in G1.
  pose proof (frame_ok e1) as (_ & _ & _ & _ & _ & _ & F2 & _). destruct (F2 h) as [G2 _]. rewrite E2 in G2.
  pose proof (frame_ok e2) as (_ & _ & _ & _ & F3 & _). destruct (F3 h 1 OPSQL_DOUBLE 8) as [G3 _]. rewrite E3 in G3.
  pose proof (frame_ok e3) as (_ & _ & _ & _ & _ & _ & _ & _ & F4). destruct (F4 h 1) as [G4 _]. rewrite E4 in G4.
  simpl in *. congruence.
Qed.

Lemma check_loop_market l px0 d r :
  exists d', check_loop l 0 px0 (d, r)
    = Some ((fun m => after_check (price d (stock_code m)) m) <$> l, 0,
            (d', send_all (concat ((fun m => notices (price d (stock_code m)) m) <$> l)) r)) /\
    stmts d' = stmts d /\ price d' = price d.
Proof.
  revert px0 d r. induction l as [|m l IH]; intros px0 d r.
  { exists d. simpl. by rewrite send_all_nil. }
  cbn [check_loop fst snd]. destruct (alloc_market d) as (h & d1 & E & Hh & Hn & Es & Ep). rewrite E. cbn [mbind option_bind].
  rewrite (proj2 (Z.eqb_neq h 0)) by done.
  destruct (select_market h (stock_code m) d1) as (d2 & d3 & d4 & row & rc & E2 & E3 & E4 & Er & Ep4 & Es4);
    [set_solver|].
  rewrite E2. cbn [Z.leb Z.compare]. rewrite E3, E4, Er. cbn [Z.ltb Z.compare]. rewrite Ep.
  destruct (decide_market (price d (stock_code m)) m d4 r) as (d5 & E5 & Es5 & Ep5).
  rewrite E5. cbn [mbind option_bind negb fst snd].
  destruct (free_market h d5 d) as [Fs Fp]; [by rewrite Es5, Es4|done|].
  destruct (IH (price d (stock_code m)) (opsql_free h d5) (send_all (notices (price d (stock_code m)) m) r))
    as (d6 & E6 & Es6 & Ep6).
  assert (Hp : price (opsql_free h d5) = price d) by (by rewrite Fp, Ep5, Ep4).
  rewrite E6, Hp. cbn [mbind option_bind]. exists d6. split_and!; [|congruence|congruence].
  simpl. by rewrite send_all_app.
Qed.
End Check.

(** *** Alternation *)

(** No price is both low enough to buy and high enough to sell. *)
Lemma SFleb_between a b c : SFleb c a = true -> SFleb a b = true -> SFltb b c = false.
Proof.
  unfold SFleb, SFltb, SFcompare.
  destruct a as [sa|sa| |sa ma ea], b as [sb|sb| |sb mb eb], c as [sc|sc| |sc mc ec]; try done;
    repeat match goal with s : bool |- _ => destruct s end; try done;
    repeat match goal with |- context [Z.compare ?x ?y] => destruct (Z.compare_spec x y) end;
    try done; try (exfalso; lia);
    repeat match goal with |- context [Pos.compare_cont Eq ?x ?y] =>
      change (Pos.compare_cont Eq x y) with (Pos.compare x y); destruct (Pos.compare_spec x y) end;
    try done; exfalso; lia.
Qed.

(** The notices for one stock under a sequence of closing prices. *)
Fixpoint kinds_over (pxs : list spec_float) (m : monitor) : list bool :=
  match pxs with [] => [] | px :: r => kinds px m ++ kinds_over r (after_check px m) end.
Fixpoint alternates (k : bool) (l : list bool) : Prop :=
  match l with [] => True | x :: r => x = k /\ alternates (negb k) r end.

Lemma kinds_one px m :
  SFltb (buy_price m) (sale_price m) = true -> stat m = STAT_BUY \/ stat m = STAT_SALE ->
  (kinds px m = [] /\ after_check px m = m) \/
  (stat m = STAT_BUY /\ kinds px m = [true] /\ after_check px m = with_stat STAT_SALE m) \/
  (stat m = STAT_SALE /\ kinds px m = [false] /\ after_check px m = with_stat STAT_BUY m).
Proof.
  intros Hlt Hst. pose proof (SFleb_between px (buy_price m) (sale_price m)) as Hb.
  unfold kinds, after_check, after_buy, wants_buy, wants_sale.
  destruct Hst as [E|E]; rewrite E; simpl;
    destruct (SFleb px (buy_price m)) eqn:E1; simpl; rewrite ?E; simpl;
    destruct (SFleb (sale_price m) px) eqn:E2; simpl; auto 6;
    rewrite (Hb eq_refl eq_refl) in Hlt; done.
Qed.
Lemma kinds_alternate pxs m :
  SFltb (buy_price m) (sale_price m) = true -> stat m = STAT_BUY \/ stat m = STAT_SALE ->
  alternates (stat m =? STAT_BUY) (kinds_over pxs m).
Proof.
  revert m. induction pxs as [|px pxs IH]; intros m Hlt Hst; simpl; [done|].
  destruct (kinds_one px m Hlt Hst) as [[-> ->]|[(E & -> & ->)|(E & -> & ->)]]; [by apply IH| |];
    rewrite E; simpl; (split; [done|]).
  - apply (IH (with_stat STAT_SALE m)); [done|by right].
  - apply (IH (with_stat STAT_BUY m)); [done|by left].
Qed.

(** C18. The stock monitor notifies of exactly what the prices call for. With a database that
    answers, one check of any list of stocks leaves each with the state its closing price calls
    for and hands the modem, in the order of the list, the notices of each stock: one to buy
    where the price is at or below the buying price and no purchase is noted, one to sell where
    it is at or above the selling price and a purchase is noted; every statement handle is freed
    again. Over any sequence of closing prices, a stock whose buying price is below its selling
    price is notified of alternately, beginning with the kind its state calls for. *)
Theorem spider_check_exact {D : Type} `{!Odbc D} `{!OdbcLaws D} `{!Market D} (l : list monitor) (d : D) (r : radio) :
  (exists d', spider_check_stock l (d, r)
     = Some (0, (fun m => after_check (price d (stock_code m)) m) <$> l,
             (d', send_all (concat ((fun m => notices (price d (stock_code m)) m) <$> l)) r)) /\
     stmts d' = stmts d /\ price d' = price d) /\
  (forall m pxs, SFltb (buy_price m) (sale_price m) = true -> stat m = STAT_BUY \/ stat m = STAT_SALE ->
     alternates (stat m =? STAT_BUY) (kinds_over pxs m)).
Proof.
  split; [|intros; by apply kinds_alternate].
  destruct l as [|m l]; [exists d; simpl; by rewrite send_all_nil|].
  destruct (check_loop_market (m :: l) (S754_zero false) d r) as (d' & E & Es & Ep).
  exists d'. split; [|done]. unfold spider_check_stock. by rewrite E.
Qed.

(** ** A database in memory *)

(** Prices by stock, the statements allocated, the blocks, and the last text of each statement. *)
Record ledger := Ledger {
  l_prices : list (list Z * spec_float); l_stmts : gset Z; l_blocks : gset Z; l_last : gmap Z (list Z)
}.
Definition quote (text : list Z) (ps : list (list Z * spec_float)) : option spec_float :=
  snd <$> head (filter (fun p => select_sql (fst p) = text) ps).
Definition next_id (s : gset Z) : Z := fresh ({[0]} ∪ s).

Definition SQL_INVALID_HANDLE : Z := -2.

(** [rows]: the number of rows of an answer; [rc]: the result of executing a text with a statement
    that is allocated, others are invalid; [null]: the
    value of a price that is not there, if any. *)
Definition ledger_driver (rows : Z) (rc : list Z -> Z) (null : option spec_float) : Odbc ledger := {|
  sys_calloc d := let p := next_id (l_blocks d) in (Some p, Ledger (l_prices d) (l_stmts d) ({[p]} ∪ l_blocks d) (l_last d));
  sys_free p d := Ledger (l_prices d) (l_stmts d) (l_blocks d ∖ {[p]}) (l_last d);
  sql_alloc_env d := (0, d); sql_set_version d := (0, d); sql_alloc_dbc d := (0, d);
  sql_connect d := (0, d); sql_disconnect d := d; sql_connection_dead d := (0, 0, d);
  sql_alloc_stmt d := let h := next_id (l_stmts d) in (0, h, Ledger (l_prices d) ({[h]} ∪ l_stmts d) (l_blocks d) (l_last d));
  sql_free_stmt h d := Ledger (l_prices d) (l_stmts d ∖ {[h]}) (l_blocks d) (l_last d);
  sql_set_scrollable h d := d;
  sql_bind_col h c t n d := (0, d);
  sql_exec_direct h s d := (if bool_decide (h ∈ l_stmts d) then rc s else SQL_INVALID_HANDLE, Ledger (l_prices d) (l_stmts d) (l_blocks d) (<[h := s]> (l_last d)));
  sql_row_count h d := (0, rows, d);
  sql_fetch h d := (0, ∅, d);
  sql_fetch_scroll h r d :=
    (0, match quote (default [] (l_last d !! h)) (l_prices d), null with
        | Some f, _ | None, Some f => {[1 := CDouble f]}
        | None, None => ∅
        end, d)
|}.
#[export] Instance ledger_odbc : Odbc ledger := ledger_driver 1 (fun _ => 0) (Some (S754_zero false)).

Lemma next_id_spec s : next_id s <> 0 /\ next_id s ∉ s.
Proof. pose proof (is_fresh ({[0]} ∪ s)) as H. unfold next_id. set_solver. Qed.

#[export] Program Instance ledger_laws : OdbcLaws ledger := {| stmts := l_stmts; blocks := l_blocks |}.
Next Obligation. intros d rc h d' [= <- <- <-]. simpl. destruct (next_id_spec (l_stmts d)). by split_and!. Qed.
Next Obligation. done. Qed.
Next Obligation. intros d m d' [= <- <-]. simpl. destruct (next_id_spec (l_blocks d)). by split_and!. Qed.
Next Obligation. done. Qed.
Next Obligation. intros d. by split_and!. Qed.

#[export] Program Instance ledger_market : Market ledger := {| price d code := default (S754_zero false) (quote (select_sql code) (l_prices d)) |}.
Next Obligation. intros d. by eexists _, _. Qed.
Next Obligation. intros d. by eexists. Qed.
Next Obligation. intros d. by eexists _, _. Qed.
Next Obligation. done. Qed.
Next Obligation. done. Qed.
Next Obligation. intros h st code d Hh. simpl in *. rewrite bool_decide_eq_true_2 by done. by eexists. Qed.
Next Obligation.
  intros h code d Hh. simpl in *. rewrite bool_decide_eq_true_2 by done.
  eexists _, _, _, _, _, _. split_and!; try done. simpl.
  rewrite lookup_insert_eq. simpl. destruct (quote _ _); simpl; by rewrite lookup_singleton_eq.
Qed.

Definition double (n : Z) : spec_float := binary_normalize 53 1024 n 0 false.
Definition stock_a : monitor := Monitor 1 (str "600000") (str "A") (double 10) (double 20) STAT_BUY.
Definition stock_b : monitor := Monitor 2 (str "600001") (str "B") (double 10) (double 20) STAT_SALE.
Definition today : ledger :=
  Ledger [(str "600000", double 9); (str "600001", double 21)] ∅ ∅ ∅.

Lemma spider_check_exact_witness :
  (exists d', spider_check_stock [stock_a; stock_b] (today, Radio true [])
     = Some (0, [with_stat STAT_SALE stock_a; with_stat STAT_BUY stock_b],
             (d', Radio true [(phone, str "购买股票: 600000(A)， 上一交易日收盘价:9.000000 【露国宠儿】");
                              (phone, str "出售股票: 600001(B)， 上一交易日收盘价:21.000000 【露国宠儿】")])) /\
     stmts d' = ∅) /\
  alternates true (kinds_over [double 9; double 8] stock_a).
Proof.
  destruct (spider_check_exact [stock_a; stock_b] today (Radio true [])) as [(d' & E & Es & _) Ha]. split.
  - exists d'. split; [|exact Es]. rewrite E. vm_compute. reflexivity.
  - apply (Ha stock_a); [vm_compute; reflexivity|by left].
Defined.

(** ** What the code does not do *)

(** The block allocated for a handle is lost: the handle replaces its address, and freeing the
    handle does not free it. *)
Lemma opsql_alloc_loses_block {D} `{!Odbc D} `{!OdbcLaws D} (d : D) h d' :
  opsql_alloc d = Some (h, d') -> h <> 0 ->
  exists p, p ∉ blocks d /\ blocks (opsql_free h d') = {[p]} ∪ blocks d.
Proof.
  intros E Hh. destruct (opsql_alloc_spec d) as (h2 & d2 & E2 & H). rewrite E in E2. simplify_eq.
  destruct H as [[? _]|(_ & _ & _ & p & Hp & Hb)]; [done|]. exists p. unfold opsql_free.
  by rewrite (proj2 (free_stmt_ok h2 d2)).
Qed.
(** The handle of a stock without a price is lost when the next stock is looked at. *)
Lemma empty_answer_loses_handle :
  exists l d r, @spider_check_stock ledger (ledger_driver 0 (fun _ => 0) None) [stock_a; stock_b] (today, Radio true [])
                = Some (0, l, (d, r)) /\ size (l_stmts d) = 1%nat.
Proof. eexists _, _, _. split; vm_compute; reflexivity. Qed.
(** Where the update of the database fails, the stock is noted as notified of, though no notice
    was sent, and the handle of the update is lost; later checks send nothing. *)
Lemma failed_update_loses_notice :
  exists d, @spider_check_stock ledger (ledger_driver 1 (fun s => if char_at s =? 117 then -1 else 0) None)
              [stock_a] (today, Radio true [])
            = Some (0, [with_stat STAT_SALE stock_a], (d, Radio true [])) /\ size (l_stmts d) = 1%nat /\
    exists d', spider_check_stock [with_stat STAT_SALE stock_a] (d, Radio true [])
               = Some (0, [with_stat STAT_SALE stock_a], (d', Radio true [])).
Proof. eexists. split_and!; [vm_compute; reflexivity|vm_compute; reflexivity|]. eexists. vm_compute. reflexivity. Qed.
(** A stock whose price is null is judged by the price of the stock before it. *)
Lemma null_price_uses_previous :
  exists d, @spider_check_stock ledger (ledger_driver 1 (fun _ => 0) None)
              [with_stat STAT_SALE stock_a; with_stat STAT_BUY (Monitor 2 (str "600009") (str "C") (double 10) (double 20) 0)]
              (today, Radio true [])
            = Some (0, [with_stat STAT_SALE stock_a; Monitor 2 (str "600009") (str "C") (double 10) (double 20) STAT_SALE],
                    (d, Radio true [(phone, str "购买股票: 600009(C)， 上一交易日收盘价:9.000000 【露国宠儿】")])).
Proof. eexists. vm_compute. reflexivity. Qed.
