(* ===== verification/LibTipc.v ===== *)
(** * The TIPC binding (src/src/base/libtipc.c, tipcc.h)

    The functions translate addresses between [struct tipc_addr] and the kernel's
    [struct sockaddr_tipc], open and close sockets, and talk to the topology server. The kernel
    is a list of answers for each kind of call; the calls made are kept in order with their
    arguments. A result [None] is an access outside of an array. *)

From S2P Require Import Prelude CString OpMemReport.
From stdpp Require Import base tactics numbers list gmap strings.
From Stdlib Require Import ZArith Lia.
Open Scope Z_scope.

Module LibTipc.

(** ** Addresses and calls *)

Record tipc_addr := Addr { a_type : Z; a_instance : Z; a_node : Z }.
(** The kernel's address: of a socket, of a service, of a range of instances with its scope. *)
Inductive sockaddr_tipc :=
  | SockId (ref node : Z)
  | SockName (type instance domain : Z)
  | SockRange (scope type lower upper : Z).

Definition SOCK_RDM : Z := 4.
Definition SOCK_SEQPACKET : Z := 5.
Definition O_NONBLOCK : Z := 2048.
Definition TIPC_CLUSTER_SCOPE : Z := 2.
Definition TIPC_NODE_SCOPE : Z := 3.
Definition TIPC_IMPORTANCE : Z := 127.
Definition TIPC_DEST_DROPPABLE : Z := 129.
Definition TIPC_GROUP_JOIN : Z := 135.
Definition TIPC_GROUP_LEAVE : Z := 136.
Definition TIPC_GROUP_LOOPBACK : Z := 1.
Definition TIPC_GROUP_MEMBER_EVTS : Z := 2.
Definition TIPC_CFG_SRV : Z := 0.
Definition TIPC_TOP_SRV : Z := 1.
Definition TIPC_LINK_STATE : Z := 2.
Definition TIPC_PUBLISHED : Z := 1.
Definition TIPC_SUBSCR_TIMEOUT : Z := 3.
Definition TIPC_SUB_PORTS : Z := 1.
Definition TIPC_SUB_SERVICE : Z := 2.
Definition TIPC_WAIT_FOREVER : Z := 4294967295.
Definition TIPC_ERRINFO : Z := 1.
Definition MSG_OOB : Z := 1.
Definition MSG_EOR : Z := 128.
Definition MSG_WAITALL : Z := 256.

(** [struct tipc_subscr] without the handle, which is not set; [struct tipc_event] without the
    part of the subscription that is not read. *)
Record tipc_subscr := Subscr { u_type : Z; u_lower : Z; u_upper : Z; u_timeout : Z; u_filter : Z }.
Record tipc_event := Event { e_event : Z; e_found : Z; e_ref : Z; e_node : Z; e_type : Z }.
Definition sizeof_subscr : Z := 28.
Definition sizeof_event : Z := 48.

Inductive sys :=
  | Socket (type : Z)
  | Close (sd : Z)
  | Getsockname (sd : Z)
  | Bind (sd : Z) (sa : sockaddr_tipc)
  | Connect (sd : Z) (sa : sockaddr_tipc)
  | Listen (sd backlog : Z)
  | Accept (sd : Z)
  | Setfl (sd fl : Z)
  | Setsockopt (sd opt : Z) (val : list Z)
  | Send (sd : Z) (msg : list Z)
  | Sendmsg (sd : Z) (msg : list Z)
  | Sendto (sd : Z) (msg : list Z) (sa : sockaddr_tipc)
  | Subscribe (sd : Z) (s : tipc_subscr)
  | Recv (sd flags : Z).

(** [own_node] is the variable of the file; [opened] the descriptors that are open; then the
    answers: of [socket], of [getsockname] and [accept] (the address), of [recv] on the topology
    server, and of the other calls; and the calls made so far. *)
Record world := World {
  own_node : Z; opened : gset Z;
  a_socket : list Z; a_name : list (option (Z * Z)); a_event : list (Z * tipc_event); a_ret : list Z;
  calls : list sys
}.

Definition called (c : sys) (w : world) : world :=
  World (own_node w) (opened w) (a_socket w) (a_name w) (a_event w) (a_ret w) (calls w ++ [c]).
Definition set_own_node (n : Z) (w : world) : world :=
  World n (opened w) (a_socket w) (a_name w) (a_event w) (a_ret w) (calls w).
(** Where no answer is left the call fails. *)
Definition socket (type : Z) (w : world) : Z * world :=
  let fd := default (-1) (head (a_socket w)) in
  (fd, called (Socket type)
         (World (own_node w) (if fd <? 0 then opened w else {[fd]} ∪ opened w) (tail (a_socket w)) (a_name w)
                (a_event w) (a_ret w) (calls w))).
Definition close (sd : Z) (w : world) : world :=
  called (Close sd) (World (own_node w) (opened w ∖ {[sd]}) (a_socket w) (a_name w) (a_event w) (a_ret w) (calls w)).
Definition getsockname (sd : Z) (w : world) : option (Z * Z) * world :=
  (default None (head (a_name w)),
   called (Getsockname sd) (World (own_node w) (opened w) (a_socket w) (tail (a_name w)) (a_event w) (a_ret w) (calls w))).
Definition syscall (c : sys) (w : world) : Z * world :=
  (default (-1) (head (a_ret w)),
   called c (World (own_node w) (opened w) (a_socket w) (a_name w) (a_event w) (tail (a_ret w)) (calls w))).
(** [recv] into a [struct tipc_event]. *)
Definition recv_event (sd : Z) (w : world) : Z * tipc_event * world :=
  (default (-1, Event 0 0 0 0 0) (head (a_event w)),
   called (Recv sd 0) (World (own_node w) (opened w) (a_socket w) (a_name w) (tail (a_event w)) (a_ret w) (calls w))).

(** ** Sockets *)

Definition tipc_socket (sk_type : Z) (w : world) : Z * world := socket sk_type w.
Definition tipc_close (sd : Z) (w : world) : world := close sd w.

(** The address is stored where the call succeeds; [addr]: whether the pointer is not null. *)
Definition tipc_sockaddr (sd : Z) (addr : bool) (w : world) : Z * option tipc_addr * world :=
  if negb addr then (-1, None, w)
  else
    match getsockname sd w with
    | (None, w) => (-1, None, w)
    | (Some (ref, node), w) => (0, Some (Addr 0 ref node), w)
    end.

Definition tipc_own_node (w : world) : Z * world :=
  if negb (own_node w =? 0) then (own_node w, w)
  else
    let '(sd, w) := tipc_socket SOCK_RDM w in
    let '(r, a, w) := tipc_sockaddr sd true w in
    let w := match a with Some a => if r =? 0 then set_own_node (a_node a) w else w | None => w end in
    let w := close sd w in
    (own_node w, w).
Definition node2scope (node : Z) (w : world) : Z * world :=
  let '(own, w) := tipc_own_node w in
  (if own =? node then TIPC_NODE_SCOPE else TIPC_CLUSTER_SCOPE, w).

(** [getfl]: the answer of [F_GETFL]. *)
Definition tipc_sock_non_block (getfl sd : Z) (w : world) : Z * world :=
  if getfl <? 0 then (-1, w)
  else
    let '(r, w) := syscall (Setfl sd O_NONBLOCK) w in
    (if r <? 0 then -1 else sd, w).
Definition tipc_sock_rejectable (sd : Z) (w : world) : Z * world :=
  syscall (Setsockopt sd TIPC_DEST_DROPPABLE [0]) w.
Definition tipc_sock_importance (sd priority : Z) (w : world) : Z * world :=
  syscall (Setsockopt sd TIPC_IMPORTANCE [priority]) w.

(** [scope && scope != tipc_own_node()]. *)
Definition foreign (scope : Z) (w : world) : bool * world :=
  if scope =? 0 then (false, w) else let '(own, w) := tipc_own_node w in (negb (scope =? own), w).
Definition tipc_bind (sd type lower upper scope : Z) (w : world) : Z * world :=
  let '(sc, w) := node2scope scope w in
  let '(no, w) := foreign scope w in
  if no then (-1, w) else syscall (Bind sd (SockRange sc type lower upper)) w.
Definition tipc_unbind (sd type lower upper : Z) (w : world) : Z * world :=
  syscall (Bind sd (SockRange (-1) type lower upper)) w.
Definition tipc_connect (sd : Z) (dst : option tipc_addr) (w : world) : Z * world :=
  match dst with
  | None => (-1, w)
  | Some d => syscall (Connect sd (SockName (a_type d) (a_instance d) (a_node d))) w
  end.
Definition tipc_listen (sd backlog : Z) (w : world) : Z * world := syscall (Listen sd backlog) w.

(** [peer]: what [accept] stores in [addr]. *)
Definition tipc_accept (sd : Z) (src : bool) (peer : Z * Z) (w : world) : Z * option tipc_addr * world :=
  let '(rc, w) := syscall (Accept sd) w in
  let w := if rc <? 0 then w
           else World (own_node w) ({[rc]} ∪ opened w) (a_socket w) (a_name w) (a_event w) (a_ret w) (calls w) in
  (rc, if src then Some (Addr 0 (fst peer) (snd peer)) else None, w).

Definition group_flags (events loopback : bool) : Z :=
  Z.lor (if loopback then TIPC_GROUP_LOOPBACK else 0) (if events then TIPC_GROUP_MEMBER_EVTS else 0).
Definition tipc_join (sd : Z) (m : tipc_addr) (events loopback : bool) (w : world) : Z * world :=
  let '(sc, w) := node2scope (a_node m) w in
  let '(no, w) := foreign (a_node m) w in
  if no then (-1, w)
  else syscall (Setsockopt sd TIPC_GROUP_JOIN [a_type m; a_instance m; sc; group_flags events loopback]) w.
Definition tipc_leave (sd : Z) (w : world) : Z * world := syscall (Setsockopt sd TIPC_GROUP_LEAVE []) w.

(** ** Messages *)

Definition tipc_send (sd : Z) (msg : list Z) (w : world) : Z * world := syscall (Send sd msg) w.
Definition tipc_sendmsg (sd : Z) (msg : list Z) (w : world) : Z * world := syscall (Sendmsg sd msg) w.
(** The address a message goes to. *)
Definition dest (d : tipc_addr) : sockaddr_tipc :=
  if negb (a_type d =? 0) then SockName (a_type d) (a_instance d) (a_node d)
  else SockId (a_instance d) (a_node d).
Definition tipc_sendto (sd : Z) (msg : list Z) (dst : option tipc_addr) (w : world) : Z * world :=
  match dst with None => (-1, w) | Some d => syscall (Sendto sd msg (dest d)) w end.
Definition tipc_mcast (sd : Z) (msg : list Z) (dst : option tipc_addr) (w : world) : Z * world :=
  match dst with
  | None => (-1, w)
  | Some d =>
      let '(no, w) := foreign (a_node d) w in
      if no then (-1, w)
      else
        let '(sc, w) := node2scope (a_node d) w in
        syscall (Sendto sd msg (SockRange sc (a_type d) (a_instance d) (a_instance d))) w
  end.
Definition tipc_recv (sd : Z) (waitall : bool) (w : world) : Z * world :=
  syscall (Recv sd (if waitall then MSG_WAITALL else 0)) w.

(** What [recvmsg] gives: its result, the bytes put into the buffer, the two source addresses
    (the second one where [msg_namelen] says so), the flags, and the control messages with
    their types and data. *)
Record recvmsg := RecvMsg {
  r_rc : Z; r_data : list Z; r_id : Z * Z; r_member : option (Z * Z); r_flags : Z; r_ctl : list (Z * list Z)
}.
(** What is left behind [sockid], [memberid], [err] and in [buf]. *)
Record received := Received { o_sock : option tipc_addr; o_member : option tipc_addr; o_err : option Z; o_buf : list Z }.
Definition int_at (i : nat) (data : list Z) : option Z :=
  l ← (if Nat.leb (i + 4) (length data) then Some (take 4 (drop i data)) else None);
  Some (s32 (foldr (fun b n => b + 256 * n) 0 l)).
Definition write_at0 (l buf : list Z) : option (list Z) :=
  if Nat.leb (length l) (length buf) then Some (l ++ drop (length l) buf) else None.
Definition msg_member (m : recvmsg) : tipc_addr :=
  match r_member m with Some (t, i) => Addr t i 0 | None => Addr 0 0 0 end.
(** A returned message: the code and the length, then the data in the next control message.
    [len] is unsigned, so a negative length counts as a large one. *)
Definition returned (m : recvmsg) (sd : Z) (buf : list Z) (sockid memberid err : bool) (info : list Z) (w : world)
    : option (Z * received * world) :=
  _err ← int_at 0 info;
  n ← int_at 4 info;
  let rc := Z.min (u64 n) (Z.of_nat (length buf)) in
  let data := default [] (snd <$> r_ctl m !! 1%nat) in
  buf ← (if Nat.leb (Z.to_nat rc) (length data) then write_at0 (take (Z.to_nat rc) data) buf else None);
  let '(_, own, w) := tipc_sockaddr sd sockid w in
  let sock := match own with Some a => Some a | None => if sockid then Some (Addr 0 (fst (r_id m)) (snd (r_id m))) else None end in
  let mem := if memberid then Some (msg_member m) else None in
  Some (if negb err && negb (_err =? 0) then 0 else rc,
        Received sock mem (if err then Some _err else None) buf, w).
Definition tipc_recvfrom (m : recvmsg) (sd : Z) (buf : list Z) (sockid memberid err : bool) (w : world)
    : option (Z * received * world) :=
  let rc := r_rc m in
  if rc <? 0 then Some (rc, Received None None None buf, w)
  else
    buf ← write_at0 (take (Z.to_nat rc) (r_data m)) buf;
    let mem := if memberid then Some (msg_member m) else None in
    let sock := if sockid then Some (Addr 0 (fst (r_id m)) (snd (r_id m))) else None in
    if negb (Z.land (r_flags m) MSG_OOB =? 0) then
      if negb (rc =? 0) then Some (-1, Received sock mem (if err then Some 0 else None) buf, w)
      else
        Some (0, Received sock mem
                   (if err then Some (if negb (Z.land (r_flags m) MSG_EOR =? 0) then -1 else 0) else None) buf, w)
    else
      match r_ctl m with
      | (t, info) :: _ =>
          if negb (t =? TIPC_ERRINFO) then Some (rc, Received sock mem (if err then Some 0 else None) buf, w)
          else returned m sd buf sockid memberid err info w
      | [] => Some (rc, Received sock mem (if err then Some 0 else None) buf, w)
      end.

(** ** The topology server *)

(** The socket is closed where the connection fails, and returned all the same. *)
Definition tipc_topsrv_conn (node : Z) (w : world) : Z * world :=
  let '(sd, w) := tipc_socket SOCK_SEQPACKET w in
  if sd <=? 0 then (sd, w)
  else
    let '(r, w) := tipc_connect sd (Some (Addr TIPC_TOP_SRV TIPC_TOP_SRV node)) w in
    (sd, if r <? 0 then tipc_close sd w else w).

Definition tipc_srv_subscr (sd type lower upper : Z) (all : bool) (expire : Z) (w : world) : Z * world :=
  let s := Subscr type lower upper (if expire <? 0 then TIPC_WAIT_FOREVER else expire)
                  (if all then TIPC_SUB_PORTS else TIPC_SUB_SERVICE) in
  let '(r, w) := syscall (Subscribe sd s) w in
  (if negb (r =? sizeof_subscr) then -1 else 0, w).

(** The result, and what is stored behind the pointers: the service, the socket, whether it is
    available, whether the subscription has expired; [None] where nothing is. *)
Record srv_evt := SrvEvt { v_srv : option tipc_addr; v_id : option tipc_addr; v_up : option bool; v_expired : option bool }.
Definition tipc_srv_evt (sd : Z) (w : world) : Z * srv_evt * world :=
  let '(r, e, w) := recv_event sd w in
  if negb (r =? sizeof_event) then (-1, SrvEvt None None None None, w)
  else if e_event e =? TIPC_SUBSCR_TIMEOUT then (0, SrvEvt None None None (Some true), w)
  else
    (0, SrvEvt (Some (Addr (e_type e) (e_found e) (e_node e))) (Some (Addr 0 (e_ref e) (e_node e)))
               (Some (e_event e =? TIPC_PUBLISHED)) (Some false), w).

(** The variables [up] and [expired] after the loop; [None]: it has not ended after [fuel] turns. *)
Fixpoint wait_loop (fuel : nat) (sd node : Z) (up expired : bool) (w : world) : option (bool * bool * world) :=
  match fuel with
  | O => None
  | S fuel =>
      let '(r, v, w) := tipc_srv_evt sd w in
      if negb (r =? 0) then Some (up, expired, w)
      else
        let up := default up (v_up v) in
        let expired := default expired (v_expired v) in
        if expired then Some (up, expired, w)
        else if negb (node =? 0) && negb (node =? default 0 (a_node <$> v_srv v)) then wait_loop fuel sd node up expired w
        else if up then Some (up, expired, w) else wait_loop fuel sd node up expired w
  end.
(** [None]: it has not returned after [fuel] turns of its loop. *)
Definition tipc_srv_wait (fuel : nat) (srv : tipc_addr) (wait : Z) (w : world) : option (bool * world) :=
  let '(sd, w) := tipc_topsrv_conn 0 w in
  if sd <? 0 then Some (false, w)
  else
    let '(r, w) := tipc_srv_subscr sd (a_type srv) (a_instance srv) (a_instance srv) false wait w in
    '(up, expired, w) ← (if negb (r =? 0) then Some (false, false, w)
                         else wait_loop fuel sd (a_node srv) false false w);
    Some (up && negb expired, close sd w).

Definition subscr_all (type node : Z) (w : world) : Z * world :=
  let '(sd, w) := tipc_topsrv_conn node w in
  if sd <=? 0 then (-1, w)
  else
    let '(r, w) := tipc_srv_subscr sd type 0 (u32 (Z.lnot 0)) true (s32 TIPC_WAIT_FOREVER) w in
    (if negb (r =? 0) then -1 else sd, w).
Definition tipc_neigh_subscr (node : Z) (w : world) : Z * world := subscr_all TIPC_CFG_SRV node w.
Definition tipc_link_subscr (node : Z) (w : world) : Z * world := subscr_all TIPC_LINK_STATE node w.

(** [stale]: what the variable [srv] of the function holds before; it is read even where the
    call stores nothing in it. *)
Definition tipc_neigh_evt (sd stale : Z) (w : world) : Z * Z * option bool * world :=
  let '(rc, v, w) := tipc_srv_evt sd w in
  (rc, default stale (a_instance <$> v_srv v), v_up v, w).
(** The two bearers, the neighbour and whether the link is up. *)
Definition tipc_link_evt (sd : Z) (w : world) : Z * option (Z * Z * Z * bool) * world :=
  let '(r, e, w) := recv_event sd w in
  if negb (r =? sizeof_event) then (-1, None, w)
  else (0, Some (Z.land (e_ref e) 65535, Z.land (Z.shiftr (e_ref e) 16) 65535, e_found e, e_event e =? TIPC_PUBLISHED), w).

(** ** Texts *)

Definition fmt_x (n : Z) : list Z := OpMemReport.hex_lower 16 n.
Definition pad0 (k : nat) (s : list Z) : list Z := replicate (k - length s) 48 ++ s.
Definition addr_text (a : tipc_addr) : list Z :=
  if negb (a_type a =? 0)
  then dec_digits 10 (a_type a) ++ str ":" ++ dec_digits 10 (a_instance a) ++ str "@" ++ fmt_x (a_node a)
  else str "0:" ++ pad0 10 (dec_digits 10 (a_instance a)) ++ str "@" ++ fmt_x (a_node a).
Definition range_text (type lower upper node : Z) : list Z :=
  dec_digits 10 type ++ str ":" ++ dec_digits 10 lower ++ str ":" ++ dec_digits 10 upper ++ str "@" ++ fmt_x node.
(** [snprintf(buf, len, ...)] and [buf\[len\] = 0]. *)
Definition print_to (text buf : list Z) (len : nat) : option (list Z) :=
  buf ← (match len with O => Some buf | S n => write_at0 (take n text ++ [0]) buf end);
  if Nat.ltb len (length buf) then Some (<[len := 0]> buf) else None.
Definition tipc_ntoa (a : tipc_addr) (buf : list Z) (len : nat) : option (list Z) := print_to (addr_text a) buf len.
Definition tipc_rtoa (type lower upper node : Z) (buf : list Z) (len : nat) : option (list Z) :=
  print_to (range_text type lower upper node) buf len.
End LibTipc.
