(* ===== verification/LibTipcSpec.v ===== *)
(** * The TIPC binding: waiting for a service, received messages, scopes and texts *)

From S2P Require Import Prelude CString OpMemReport LibTipc.
From stdpp Require Import base tactics numbers list gmap strings.
From Stdlib Require Import ZArith Lia.
Open Scope Z_scope.
Import LibTipc.

(** ** Waiting for a service *)

(** The events the topology server sends, as [recv] gives them. *)
Definition arrives (e : tipc_event) : Z * tipc_event := (sizeof_event, e).
(** The service has come up on the node asked for, 0 for any. *)
Definition comes_up (node : Z) (e : tipc_event) : bool :=
  (e_event e =? TIPC_PUBLISHED) && ((node =? 0) || (node =? e_node e)).
(** The event ends the wait. *)
Definition decisive (node : Z) (e : tipc_event) : bool :=
  (e_event e =? TIPC_SUBSCR_TIMEOUT) || comes_up node e.

(** [n] events are taken, one call each. *)
Definition took (n : nat) (sd : Z) (w : world) : world :=
  World (own_node w) (opened w) (a_socket w) (a_name w) (drop n (a_event w)) (a_ret w)
        (calls w ++ replicate n (Recv sd 0)).
Lemma took_0 sd w : took 0 sd w = w.
Proof. destruct w. unfold took. simpl. by rewrite drop_0, app_nil_r. Qed.
Lemma took_S n sd w : took (S n) sd w = took n sd (took 1 sd w).
Proof. destruct w as [? ? ? ? ev ? ?]. unfold took. simpl. rewrite <- app_assoc. f_equal. by destruct ev; rewrite ?drop_nil. Qed.

Lemma recv_event_took sd w :
  recv_event sd w = (default (-1, Event 0 0 0 0 0) (head (a_event w)), took 1 sd w).
Proof. destruct w as [? ? ? ? [|] ? ?]; done. Qed.

Lemma wait_loop_turn fuel sd node up w e r :
  a_event w = arrives e :: r ->
  wait_loop (S fuel) sd node up false w =
  if e_event e =? TIPC_SUBSCR_TIMEOUT then Some (up, true, took 1 sd w)
  else if comes_up node e then Some (true, false, took 1 sd w)
  else wait_loop fuel sd node (e_event e =? TIPC_PUBLISHED) false (took 1 sd w).
Proof.
  intros He. cbn [wait_loop]. unfold tipc_srv_evt, comes_up, TIPC_SUBSCR_TIMEOUT, TIPC_PUBLISHED.
  rewrite recv_event_took, He. cbn.
  destruct (e_event e =? 3) eqn:H3; cbn; [done|].
  by destruct (e_event e =? 1), (node =? 0), (node =? e_node e).
Qed.

Lemma wait_loop_decides sd node pre : forall fuel up w e post,
  a_event w = (arrives <$> pre) ++ arrives e :: post ->
  Forall (fun e => decisive node e = false) pre -> decisive node e = true ->
  (length pre < fuel)%nat ->
  exists up', wait_loop fuel sd node up false w = Some (up', negb (comes_up node e), took (S (length pre)) sd w)
    /\ up' && comes_up node e = comes_up node e.
Proof.
  induction pre as [|x pre IH]; intros fuel up w e post He Hpre Hd Hf;
    (destruct fuel as [|fuel]; [simpl in Hf; lia|]); simpl in He.
  - rewrite (wait_loop_turn _ _ _ _ _ _ _ He). unfold decisive in Hd.
    destruct (e_event e =? TIPC_SUBSCR_TIMEOUT) eqn:H3.
    + assert (comes_up node e = false) as ->.
      { unfold comes_up. apply Z.eqb_eq in H3. by rewrite H3. }
      exists up. by rewrite andb_false_r.
    + simpl in Hd. rewrite Hd. by exists true.
  - apply Forall_cons in Hpre as [Hx Hpre]. rewrite (wait_loop_turn _ _ _ _ _ _ _ He).
    unfold decisive in Hx. apply orb_false_iff in Hx as [-> ->].
    destruct (IH fuel (e_event x =? TIPC_PUBLISHED) (took 1 sd w) e post) as (up' & -> & Hu);
      [simpl; by rewrite He|done|done|simpl in Hf; lia|].
    exists up'. split; [|done]. simpl length. by rewrite (took_S (S (length pre))).
Qed.

(** An event is taken, or the receive fails. *)
Lemma srv_evt_took sd w :
  exists r v, tipc_srv_evt sd w = (r, v, took 1 sd w) /\ (a_event w = [] -> r = -1).
Proof.
  unfold tipc_srv_evt. rewrite recv_event_took. destruct (a_event w) as [|[n e] r]; simpl.
  - by eexists _, _.
  - repeat case_match; by eexists _, _.
Qed.

(** The loop ends after one receive for each event of the server and one more, and more turns
    would not change what it gives. *)
Lemma wait_loop_returns sd node m : forall up expired w,
  (length (a_event w) <= m)%nat ->
  exists up' expired' k, (k <= S (length (a_event w)))%nat /\
    forall fuel, (m < fuel)%nat -> wait_loop fuel sd node up expired w = Some (up', expired', took k sd w).
Proof.
  induction m as [|m IH]; intros up expired w Hm; destruct (srv_evt_took sd w) as (r & v & He & Hr).
  - exists up, expired, 1%nat. split; [lia|]. intros [|fuel] Hf; [lia|]. cbn [wait_loop]. rewrite He.
    rewrite Hr by (destruct (a_event w); [done|simpl in Hm; lia]). done.
  - assert (length (a_event (took 1 sd w)) <= m)%nat as Hm1 by (simpl; rewrite length_drop; lia).
    destruct (r =? 0) eqn:Er.
    2: { exists up, expired, 1%nat. split; [lia|]. intros [|fuel] Hf; [lia|]. cbn [wait_loop]. by rewrite He, Er. }
    assert (0 < length (a_event w))%nat as Hpos.
    { destruct (a_event w); [|simpl; lia]. rewrite Hr in Er by done. done. }
    destruct (default expired (v_expired v)) eqn:Ee.
    { eexists _, _, 1%nat. split; [lia|]. intros [|fuel] Hf; [lia|]. cbn [wait_loop]. by rewrite He, Er, Ee. }
    destruct (IH (default up (v_up v)) false (took 1 sd w) Hm1) as (u & x & k & Hk & Hloop).
    assert (k <= length (a_event w))%nat as Hk' by (simpl in Hk; rewrite length_drop in Hk; lia).
    destruct (negb (node =? 0) && negb (node =? default 0 (a_node <$> v_srv v))) eqn:En;
      [|destruct (default up (v_up v)) eqn:Eu].
    2: { eexists _, _, 1%nat. split; [lia|]. intros [|fuel] Hf; [lia|]. cbn [wait_loop]. by rewrite He, Er, Ee, En, Eu. }
    all: exists u, x, (S k); split; [lia|]; intros [|fuel] Hf; [lia|]; cbn [wait_loop]; rewrite He, Er, Ee, En, ?Eu;
      cbn [negb]; rewrite (took_S k); apply Hloop; lia.
Qed.

(** The subscription of [tipc_srv_wait]. *)
Definition wait_subscr (srv : tipc_addr) (wait : Z) : tipc_subscr :=
  Subscr (a_type srv) (a_instance srv) (a_instance srv) (if wait <? 0 then TIPC_WAIT_FOREVER else wait) TIPC_SUB_SERVICE.
Definition top_server (node : Z) : sockaddr_tipc := SockName TIPC_TOP_SRV TIPC_TOP_SRV node.

(** What each call leaves of the open descriptors. *)
Lemma conn_opened node w sd w' :
  tipc_topsrv_conn node w = (sd, w') ->
  match a_socket w with fd :: _ => fd ∉ opened w | [] => True end ->
  if sd <? 0 then opened w' = opened w
  else sd ∉ opened w /\ opened w' ∖ {[sd]} = opened w.
Proof.
  unfold tipc_topsrv_conn, tipc_socket, socket, tipc_connect, syscall, tipc_close, close.
  destruct (a_socket w) as [|fd r]; simpl; [by intros [= <- <-]|]. intros H Hf. revert H.
  destruct (fd <=? 0) eqn:H0; simpl.
  { intros [= <- <-]. simpl. destruct (fd <? 0) eqn:H1; [done|]. split; [done|]. set_solver. }
  case_match; intros [= <- <-]; simpl; rewrite (proj2 (Z.ltb_ge fd 0)) by lia; split; set_solver.
Qed.

Lemma conn_ok node w fd socks r rest :
  a_socket w = fd :: socks -> 0 < fd -> a_ret w = r :: rest -> 0 <= r ->
  tipc_topsrv_conn node w =
    (fd, World (own_node w) ({[fd]} ∪ opened w) socks (a_name w) (a_event w) rest
           (calls w ++ [Socket SOCK_SEQPACKET; Connect fd (top_server node)])).
Proof.
  intros Hs Hfd Hr H0. unfold tipc_topsrv_conn, tipc_socket, socket, tipc_connect, syscall, called. rewrite Hs. simpl. rewrite Hr. simpl.
  rewrite (proj2 (Z.leb_gt fd 0)), !(proj2 (Z.ltb_ge _ 0)) by lia. by rewrite <- app_assoc.
Qed.
Lemma subscr_ok sd type lower upper all expire w rest :
  a_ret w = sizeof_subscr :: rest ->
  tipc_srv_subscr sd type lower upper all expire w =
    (0, World (own_node w) (opened w) (a_socket w) (a_name w) (a_event w) rest
          (calls w ++ [Subscribe sd (Subscr type lower upper (if expire <? 0 then TIPC_WAIT_FOREVER else expire)
                                            (if all then TIPC_SUB_PORTS else TIPC_SUB_SERVICE))])).
Proof. intros Hr. unfold tipc_srv_subscr, syscall, called. by rewrite Hr. Qed.

(** How often an event was asked for. *)
Definition is_recv (c : sys) : bool := match c with Recv _ _ => true | _ => false end.
Definition receives (w : world) : nat := length (filter (fun c => is_recv c = true) (calls w)).
Lemma receives_called c w : is_recv c = false -> receives (called c w) = receives w.
Proof. intros H. unfold receives. simpl. rewrite filter_app, filter_cons_False by congruence. by rewrite app_nil_r. Qed.
Lemma receives_took k sd w : receives (took k sd w) = (receives w + k)%nat.
Proof.
  unfold receives. simpl. rewrite filter_app, length_app. f_equal.
  induction k as [|k IH]; [done|]. simpl replicate. rewrite filter_cons_True by done. simpl. by rewrite IH.
Qed.
Lemma conn_events node w sd w' :
  tipc_topsrv_conn node w = (sd, w') -> a_event w' = a_event w /\ receives w' = receives w.
Proof.
  unfold tipc_topsrv_conn, tipc_socket, socket, tipc_connect, syscall, tipc_close, close.
  intros H. repeat case_match; simplify_eq/=; (split; [done|]); unfold receives; simpl;
    by rewrite ?filter_app, ?length_app; simpl; rewrite ?Nat.add_0_r.
Qed.

(** C27. Waiting for a service. Where the topology server has finitely many events for the
    connection, after which receiving fails, [tipc_srv_wait] returns whatever the calls answer:
    its loop ends on its own after at most one receive more than there are events (with more
    turns allowed than that the result is the same), and what was open before is left open. Where
    the connection to the topology server works, it subscribes to the one instance of the service
    with the time limit, takes events up to the first that decides, and answers whether that
    event is the service coming up on the node asked for (on any, for node 0) and not the end of
    the time; events about other nodes and withdrawals do not decide. *)
Theorem tipc_srv_wait_exact srv wait w fd socks :
  a_socket w = fd :: socks -> fd ∉ opened w ->
  (exists b w', (forall fuel, (length (a_event w) < fuel)%nat -> tipc_srv_wait fuel srv wait w = Some (b, w'))
     /\ opened w' = opened w /\ (receives w' <= receives w + S (length (a_event w)))%nat)
  /\ forall fuel rest pre e post,
     0 < fd -> a_ret w = 0 :: sizeof_subscr :: rest ->
     a_event w = (arrives <$> pre) ++ arrives e :: post ->
     Forall (fun e => decisive (a_node srv) e = false) pre -> decisive (a_node srv) e = true ->
     (length pre < fuel)%nat ->
     tipc_srv_wait fuel srv wait w =
       Some (comes_up (a_node srv) e,
        World (own_node w) (opened w) socks (a_name w) post rest
          (calls w ++ [Socket SOCK_SEQPACKET; Connect fd (top_server 0); Subscribe fd (wait_subscr srv wait)]
                   ++ replicate (S (length pre)) (Recv fd 0) ++ [Close fd])).
Proof.
  intros Hs Hf. split.
  - unfold tipc_srv_wait. destruct (tipc_topsrv_conn 0 w) as [sd w1] eqn:Hc.
    destruct (conn_events _ _ _ _ Hc) as [He1 Hr1]. apply conn_opened in Hc; [|by rewrite Hs].
    destruct (sd <? 0); [eexists _, _; split; [done|]; split; [done|lia]|]. destruct Hc as [Hsd Hc].
    set (x := tipc_srv_subscr sd _ _ _ _ _ w1). destruct x as [r w2] eqn:Hb.
    assert (opened w2 = opened w1 /\ a_event w2 = a_event w1 /\ receives w2 = receives w1) as (H2 & He2 & Hr2).
    { subst x. unfold tipc_srv_subscr, syscall in Hb. injection Hb as _ <-. split; [done|]. split; [done|].
      by rewrite receives_called. }
    destruct (negb (r =? 0)).
    { eexists _, _. split; [done|]. rewrite <- Hc, <- H2. split; [done|]. unfold close. rewrite receives_called by done.
      change (receives w2 <= receives w + S (length (a_event w)))%nat. lia. }
    destruct (wait_loop_returns sd (a_node srv) (length (a_event w2)) false false w2 ltac:(lia)) as (up & ex & k & Hk & Hl).
    eexists _, _. split; [intros fuel Hfu; rewrite Hl, bind_some by (rewrite He2, He1; done); done|].
    rewrite <- Hc, <- H2. split; [done|]. unfold close. rewrite receives_called by done.
    change (receives (took k sd w2) <= receives w + S (length (a_event w)))%nat. rewrite receives_took.
    rewrite He2, He1 in Hk. lia.
  - intros fuel rest pre e post Hfd Hr He Hpre Hd Hfu. unfold tipc_srv_wait.
    rewrite (conn_ok 0 w fd socks 0 _ Hs Hfd Hr) by done. rewrite (proj2 (Z.ltb_ge fd 0)) by lia.
    rewrite (subscr_ok _ _ _ _ _ _ _ rest) by done. cbn [own_node opened a_socket a_name a_event calls].
    set (w1 := World _ _ _ _ _ _ _). change (negb (0 =? 0)) with false.
    destruct (wait_loop_decides fd (a_node srv) pre fuel false w1 e post) as (up & Hl & Hu); [done..|].
    rewrite Hl, bind_some.
    unfold close. simpl. rewrite He, negb_involutive, Hu. do 2 f_equal. unfold called. simpl. f_equal; [set_solver| |].
    + rewrite cons_middle, app_assoc, <- (fmap_snoc arrives). apply drop_app_length'. by rewrite length_fmap, length_app, Nat.add_comm.
    + by rewrite <- !app_assoc.
Qed.

(** A service that is up on node 7, then on node 5. *)
Definition two_nodes : world :=
  World 0 {[3]} [4] [] (arrives <$> [Event 1 200 9 7 1000; Event 1 200 8 5 1000; Event 3 0 0 0 1000]) [0; 28] [].
Lemma tipc_srv_wait_exact_witness :
  fst <$> tipc_srv_wait 2 (Addr 1000 200 5) 500 two_nodes = Some true
  /\ is_Some (tipc_srv_wait 4 (Addr 1000 200 5) 500 two_nodes).
Proof.
  destruct (tipc_srv_wait_exact (Addr 1000 200 5) 500 two_nodes 4 []) as [(b & w' & Hret & _) H]; [reflexivity|set_solver|].
  split.
  - rewrite (H 2%nat [] [Event 1 200 9 7 1000] (Event 1 200 8 5 1000) (arrives <$> [Event 3 0 0 0 1000]));
      [reflexivity|lia|reflexivity|reflexivity|by repeat constructor|reflexivity|simpl; lia].
  - exists (b, w'). apply Hret. simpl. lia.
Defined.

(** The variable [up] keeps what an event about another node has set: if the connection ends
    after such an event, the answer is yes. *)
Lemma wait_takes_other_node :
  fst <$> tipc_srv_wait 2 (Addr 1000 200 5) 500 (World 0 {[3]} [4] [] [arrives (Event 1 200 9 7 1000)] [0; 28] []) = Some true.
Proof. reflexivity. Qed.
(** A refused connection: the socket is returned though it is closed, subscribed on and closed
    again. *)
Lemma refused_closed_twice :
  let w := World 0 {[3]} [4] [] [] [-1; -1] [] in
  fst (tipc_topsrv_conn 0 w) = 4
  /\ (fun x => calls (snd x)) <$> tipc_srv_wait 1 (Addr 1000 200 5) 500 w =
     Some [Socket SOCK_SEQPACKET; Connect 4 (top_server 0); Close 4; Subscribe 4 (wait_subscr (Addr 1000 200 5) 500); Close 4].
Proof. split; reflexivity. Qed.
(** A subscription that fails leaves its socket open. *)
Lemma failed_subscription_leaks :
  let '(r, w) := tipc_neigh_subscr 0 (World 0 {[3]} [4] [] [] [0; -1] []) in r = -1 /\ opened w = {[4; 3]}.
Proof. split; reflexivity. Qed.

(** ** The scope of a name *)

(** The node a program runs on is asked for once; the socket of the question is closed. *)
Lemma own_node_spec w fd socks ref node names :
  a_socket w = fd :: socks -> a_name w = Some (ref, node) :: names -> fd ∉ opened w ->
  tipc_own_node w =
    if own_node w =? 0
    then (node, World node (opened w) socks names (a_event w) (a_ret w)
                  (calls w ++ [Socket SOCK_RDM; Getsockname fd; Close fd]))
    else (own_node w, w).
Proof.
  intros Hs Hn Hf. unfold tipc_own_node, tipc_socket, socket, tipc_sockaddr, getsockname, close, set_own_node, called.
  destruct (own_node w =? 0); simpl; [|done]. rewrite Hs, Hn. simpl. rewrite <- !app_assoc. do 2 f_equal.
  case_match; set_solver.
Qed.

(** Names are bound for the cluster with scope 0, for the node with its own number, and not at all
    with another one. *)
Theorem tipc_bind_scope sd type lower upper scope w r rest :
  own_node w <> 0 -> a_ret w = r :: rest ->
  tipc_bind sd type lower upper scope w =
    if (scope =? 0) || (scope =? own_node w)
    then (r, World (own_node w) (opened w) (a_socket w) (a_name w) (a_event w) rest
               (calls w ++ [Bind sd (SockRange (if scope =? 0 then TIPC_CLUSTER_SCOPE else TIPC_NODE_SCOPE) type lower upper)]))
    else (-1, w).
Proof.
  intros Ho Hr. unfold tipc_bind, node2scope, foreign, tipc_own_node, syscall, called.
  rewrite (proj2 (Z.eqb_neq _ _) Ho). simpl. destruct (Z.eqb_spec scope 0) as [->|Hs]; simpl.
  - rewrite (proj2 (Z.eqb_neq _ _) Ho), Hr. done.
  - rewrite (proj2 (Z.eqb_neq _ _) Ho). simpl. rewrite Z.eqb_sym. destruct (Z.eqb_spec (own_node w) scope); simpl; by rewrite ?Hr.
Qed.
(** Where the own node is not known, a name meant for the cluster is bound for the node only. *)
Lemma unknown_node_narrows :
  calls (snd (tipc_bind 5 1000 1 1 0 (World 0 ∅ [4] [] [] [0] []))) =
    [Socket SOCK_RDM; Getsockname 4; Close 4; Bind 5 (SockRange TIPC_NODE_SCOPE 1000 1 1)].
Proof. reflexivity. Qed.

(** ** Received messages *)

Lemma write_at0_fits l buf : (length l <= length buf)%nat -> write_at0 l buf = Some (l ++ drop (length l) buf).
Proof. intros H. unfold write_at0. by rewrite (proj2 (Nat.leb_le _ _) H). Qed.
Lemma write_at0_length l buf buf' : write_at0 l buf = Some buf' -> length buf' = length buf.
Proof.
  unfold write_at0. case_match eqn:H; [|done]. intros [= <-]. apply Nat.leb_le in H. rewrite length_app, length_drop. lia.
Qed.

(** The source of a message, where it is asked for. *)
Definition source (m : recvmsg) (sockid : bool) : option tipc_addr :=
  if sockid then Some (Addr 0 (fst (r_id m)) (snd (r_id m))) else None.
(** [recvmsg] fills the buffer with the message. *)
Definition fills (m : recvmsg) (buf : list Z) : Prop :=
  r_rc m = Z.of_nat (length (r_data m)) /\ (length (r_data m) <= length buf)%nat.

(** What the header promises of [tipc_recvfrom]: a message is in the buffer, with its source and
    no error; an event of a group gives 0 and tells a member that left by the error -1; of a
    message that was returned the buffer holds as much as fits, the error is the reason, and a
    caller that asks for no error gets 0. *)
Theorem tipc_recvfrom_cases (m : recvmsg) (sd : Z) (buf : list Z) (sockid memberid err : bool) (w : world) :
  fills m buf ->
  let mem := if memberid then Some (msg_member m) else None in
  let got := r_data m ++ drop (length (r_data m)) buf in
  (Z.land (r_flags m) MSG_OOB = 0 -> match head (r_ctl m) with Some (t, _) => t <> TIPC_ERRINFO | None => True end ->
   tipc_recvfrom m sd buf sockid memberid err w =
     Some (r_rc m, Received (source m sockid) mem (if err then Some 0 else None) got, w))
  /\ (Z.land (r_flags m) MSG_OOB <> 0 -> r_data m = [] ->
      tipc_recvfrom m sd buf sockid memberid err w =
        Some (0, Received (source m sockid) mem
                   (if err then Some (if Z.land (r_flags m) MSG_EOR =? 0 then 0 else -1) else None) buf, w))
  /\ (forall info t data more code,
      Z.land (r_flags m) MSG_OOB = 0 -> r_ctl m = (TIPC_ERRINFO, info) :: (t, data) :: more ->
      int_at 0 info = Some code -> int_at 4 info = Some (Z.of_nat (length data)) -> r_data m = [] -> code <> 0 ->
      exists o w', tipc_recvfrom m sd buf sockid memberid err w =
        Some (if err then Z.of_nat (length data `min` length buf) else 0, o, w')
        /\ o_buf o = take (length buf) data ++ drop (length data) buf
        /\ o_err o = (if err then Some code else None)).
Proof.
  intros [Hrc Hfit] mem got. unfold tipc_recvfrom.
  rewrite (proj2 (Z.ltb_ge (r_rc m) 0)) by lia. rewrite Hrc, Nat2Z.id, firstn_all, (write_at0_fits _ _ Hfit).
  split; [|split].
  - intros -> Hc. simpl. destruct (r_ctl m) as [|[t info] more]; [done|]. simpl in Hc.
    by rewrite (proj2 (Z.eqb_neq _ _) Hc).
  - intros Ho%Z.eqb_neq Hd. rewrite Ho, Hd. simpl. by destruct (Z.land (r_flags m) MSG_EOR =? 0).
  - intros info t data more code -> Hctl Hcode Hn Hd Hc%Z.eqb_neq. rewrite Hd, Hctl. simpl. unfold returned.
    rewrite Hcode, Hn, Hctl. simpl. rewrite drop_0.
    assert (u64 (Z.of_nat (length data)) = Z.of_nat (length data)) as ->.
    { apply Z.mod_small. revert Hn. unfold int_at. case_match; [|done]. simpl. intros [= Hn]. pose proof (s32_range (foldr (fun b n => b + 256 * n) 0 (take 4 (drop 4 info)))). lia. }
    rewrite <- Nat2Z.inj_min, Nat2Z.id. rewrite (proj2 (Nat.leb_le _ _)) by lia.
    rewrite write_at0_fits by (rewrite length_take; lia). simpl.
    destruct (tipc_sockaddr sd sockid w) as [[r own] w1]. rewrite Hc.
    assert (forall n : Z, (if negb err && negb false then 0 else n) = if err then n else 0) as -> by (by destruct err).
    eexists _, _. split; [done|]. split; [|done]. simpl.
    rewrite length_take. destruct (Nat.le_gt_cases (length data) (length buf)).
    + rewrite Nat.min_l, firstn_all, firstn_all2 by lia. simpl. f_equal. by rewrite Nat.min_id.
    + simpl. rewrite (Nat.min_r (length data)) by lia. rewrite Nat.min_l by lia. by rewrite !drop_ge by lia.
Qed.

(** ** Texts *)

(** The text is cut to the length given, which must leave a byte of the buffer behind it. *)
Theorem tipc_ntoa_text a buf n :
  (S n < length buf)%nat ->
  exists rest, tipc_ntoa a buf (S n) = Some (take n (addr_text a) ++ 0 :: rest) /\ length rest = (length buf - S (n `min` length (addr_text a)))%nat.
Proof.
  intros H. unfold tipc_ntoa, print_to. generalize (addr_text a). intros text.
  rewrite write_at0_fits by (rewrite length_app, length_take; simpl; lia). simpl.
  rewrite (proj2 (Nat.ltb_lt _ _)) by (rewrite length_app, length_drop, length_app, length_take; simpl; lia).
  rewrite <- app_assoc, insert_app_r_alt by (rewrite length_take; lia).
  assert (S n - length (take n text) = S (n - length (take n text)))%nat as -> by (rewrite length_take; lia). simpl.
  eexists. split; [reflexivity|]. rewrite length_insert, length_drop, length_app, length_take. simpl. lia.
Qed.
(** With the size of the buffer as the length, as for [snprintf], the terminator is stored behind
    the buffer. *)
Theorem tipc_ntoa_overflows a buf : tipc_ntoa a buf (length buf) = None.
Proof.
  unfold tipc_ntoa, print_to.
  destruct (match length buf with O => _ | S n => _ end) as [buf'|] eqn:Hw; [|done]. cbn [mbind option_bind].
  assert (length buf' = length buf) as -> by (revert Hw; case_match eqn:Hb; [by intros [= <-]|rewrite <- Hb; apply write_at0_length]).
  by rewrite Nat.ltb_irrefl.
Qed.
