(* ===== verification/OpLogStart.v ===== *)
(** * base/oplog.c: starting and stopping the log

    [oplog_init] acquires sockets, locks, an event base and threads in order and gives up at the
    first refusal, where [oplog_exit] releases what there is; [oplog_init_ex] and
    [oplog_print_ex] are the log for code that runs before or without it. The sockets and the
    answers for them are those of [Usock]; the other calls take their answers from a list. *)

From S2P Require Import Prelude Bytes CString Utils Pdu OpLog Usock.
From stdpp Require Import base tactics numbers list gmap strings.
From Stdlib Require Import ZArith Lia.
Open Scope Z_scope.

Module OpLogStart.

Inductive sync := SendAttr | SendLock | RecvAttr | RecvLock | RecvCondAttr | RecvCond.
Inductive thread := Routine | Disk (i : nat).
#[export] Instance thread_eq_dec : EqDecision thread.
Proof. solve_decision. Defined.

Definition LOG_DISK_THREAD_NUM : nat := 2.

(** The fields of [struct _oplog_struct_] that the two functions use; [base] and [ev]: the
    pointer is not null; [thread_id], [disk_thread_id]: the number is not 0. *)
Record log := Log {
  ip : Z; port : Z; root_path : list Z; sock_fd : Z; send_fd : Z; send_addr : Z * Z;
  base : bool; ev : bool; thread_id : bool; disk_thread_id : list bool
}.
Definition no_log : log := Log 0 0 [] 0 0 (0, 0) false false false [false; false].

(** What the process holds: its sockets, blocks of memory, event bases, events and threads, the
    synchronisation objects of the log that are initialised; and the variable [self]. *)
Record sys := Sys {
  socks : Usock.world; answers : list Z;
  blocks : Z; bases : Z; events : Z; threads : list thread; ready : list sync;
  self : option log
}.
Definition with_socks (w : Usock.world) (s : sys) : sys :=
  Sys w (answers s) (blocks s) (bases s) (events s) (threads s) (ready s) (self s).
Definition with_answers (l : list Z) (s : sys) : sys :=
  Sys (socks s) l (blocks s) (bases s) (events s) (threads s) (ready s) (self s).
Definition with_blocks (n : Z) (s : sys) : sys :=
  Sys (socks s) (answers s) n (bases s) (events s) (threads s) (ready s) (self s).
Definition with_bases (n : Z) (s : sys) : sys :=
  Sys (socks s) (answers s) (blocks s) n (events s) (threads s) (ready s) (self s).
Definition with_events (n : Z) (s : sys) : sys :=
  Sys (socks s) (answers s) (blocks s) (bases s) n (threads s) (ready s) (self s).
Definition with_threads (l : list thread) (s : sys) : sys :=
  Sys (socks s) (answers s) (blocks s) (bases s) (events s) l (ready s) (self s).
Definition with_ready (l : list sync) (s : sys) : sys :=
  Sys (socks s) (answers s) (blocks s) (bases s) (events s) (threads s) l (self s).
Definition with_self (o : option log) (s : sys) : sys :=
  Sys (socks s) (answers s) (blocks s) (bases s) (events s) (threads s) (ready s) o.

(** ** Code with [goto exit] *)

(** A piece of the function on the structure it fills and on the system; [false]: it goes to
    [exit]. *)
Definition code : Type := log * sys -> bool * (log * sys).
Definition seq (a b : code) : code := fun st => let '(ok, st) := a st in if ok then b st else (false, st).
#[local] Notation "a >>> b" := (seq a b) (at level 60, right associativity).
Definition skip : code := fun st => (true, st).
Definition on_log (f : log -> log) : code := fun '(l, s) => (true, (f l, s)).
(** The next answer; a system without any refuses. *)
Definition ask (s : sys) : Z * sys := (default (-1) (head (answers s)), with_answers (tail (answers s)) s).
(** A call that is refused with an answer other than 0. *)
Definition zero_or_exit (f : log * sys -> log * sys) : code := fun '(l, s) =>
  let '(r, s) := ask s in if r =? 0 then (true, f (l, s)) else (false, (l, s)).

(** ** oplog_init *)

(** The configuration: [oplog:log_ip], [oplog:log_port] (-1 where there is none) and
    [oplog:prog_log_path]. *)
Record conf := Conf { c_ip : option (list Z); c_port : Z; c_root : option (list Z) }.

Section Start.
(** [inet_addr], and the addresses [getaddrinfo] gives for the name and the port. *)
Context (inet_addr : list Z -> Z) (getaddrinfo : list Z -> list Z -> option (list Usock.addrinfo)).

Definition set_ip (n : Z) (l : log) : log :=
  Log n (port l) (root_path l) (sock_fd l) (send_fd l) (send_addr l) (base l) (ev l) (thread_id l) (disk_thread_id l).
Definition set_port (n : Z) (l : log) : log :=
  Log (ip l) n (root_path l) (sock_fd l) (send_fd l) (send_addr l) (base l) (ev l) (thread_id l) (disk_thread_id l).
Definition set_root (p : list Z) (l : log) : log :=
  Log (ip l) (port l) p (sock_fd l) (send_fd l) (send_addr l) (base l) (ev l) (thread_id l) (disk_thread_id l).
Definition set_sock (fd : Z) (l : log) : log :=
  Log (ip l) (port l) (root_path l) fd (send_fd l) (send_addr l) (base l) (ev l) (thread_id l) (disk_thread_id l).
Definition set_send (fd : Z) (l : log) : log :=
  Log (ip l) (port l) (root_path l) (sock_fd l) fd (send_addr l) (base l) (ev l) (thread_id l) (disk_thread_id l).
Definition set_addr (a : Z * Z) (l : log) : log :=
  Log (ip l) (port l) (root_path l) (sock_fd l) (send_fd l) a (base l) (ev l) (thread_id l) (disk_thread_id l).
Definition set_base (l : log) : log :=
  Log (ip l) (port l) (root_path l) (sock_fd l) (send_fd l) (send_addr l) true (ev l) (thread_id l) (disk_thread_id l).
Definition set_ev (l : log) : log :=
  Log (ip l) (port l) (root_path l) (sock_fd l) (send_fd l) (send_addr l) (base l) true (thread_id l) (disk_thread_id l).
Definition set_thread (l : log) : log :=
  Log (ip l) (port l) (root_path l) (sock_fd l) (send_fd l) (send_addr l) (base l) (ev l) true (disk_thread_id l).
Definition set_disk (i : nat) (l : log) : log :=
  Log (ip l) (port l) (root_path l) (sock_fd l) (send_fd l) (send_addr l) (base l) (ev l) (thread_id l)
      (<[i := true]> (disk_thread_id l)).

(** Up to the socket of the server; the dictionary is freed on every path. *)
Definition read_conf (c : option conf) : code :=
  match c with
  | None => fun st => (false, st)
  | Some c =>
      match c_ip c with
      | None => fun st => (false, st)
      | Some name =>
          on_log (set_ip (ntohl (inet_addr name))) >>>
          (if c_port c <? 0 then fun st => (false, st)
           else
             on_log (set_port (u16 (c_port c))) >>>
             match c_root c with
             | None => fun st => (false, st)
             | Some root =>
                 on_log (set_root (take 255 root)) >>>
                 fun '(l, s) =>
                   let found := Usock.usock_port (port l) ≫= getaddrinfo name in
                   let '(fd, w) := Usock.usock found (Z.lor (Z.lor Usock.USOCK_IPV4ONLY Usock.USOCK_UDP) Usock.USOCK_SERVER)
                                     name (socks s) in
                   (negb (fd <? 0), (set_sock fd l, with_socks w s))
             end)
      end
  end.

(** [socket(AF_INET, SOCK_DGRAM, 0)]. *)
Definition udp_socket (w : Usock.world) : Z * Z * Usock.world :=
  let '(a, w) := Usock.next_attempt w in
  let fd := Usock.a_sock a in
  (fd, Usock.a_bind a,
   if fd <? 0 then w
   else Usock.with_net (<[fd := Usock.Sock Usock.AF_INET Usock.SOCK_DGRAM false false None false None]> (Usock.net w)) w).
Definition htons (p : Z) : Z := 256 * (p mod 256) + p / 256 mod 256.
(** An address of the Internet as bytes in memory, with port 0. *)
Definition sockaddr_in (u_ip : Z) : list Z := le32 (htonl u_ip).

Definition send_socket : code := fun '(l, s) =>
  let '(fd, r, w) := udp_socket (socks s) in
  let l := set_send fd l in
  if fd <? 0 then (false, (l, with_socks w s))
  else
    let l := set_addr (htonl (ip l), htons (port l)) l in
    if r <? 0 then (false, (l, with_socks w s))
    else (true, (l, with_socks (Usock.set_sock fd (Usock.bind_to (sockaddr_in (ip l))) w) s)).

Definition init_sync (x : sync) : code := zero_or_exit (fun '(l, s) => (l, with_ready (x :: ready s) s)).
Definition new_base : code := zero_or_exit (fun '(l, s) => (set_base l, with_bases (bases s + 1) s)).
Definition new_event : code := zero_or_exit (fun '(l, s) => (set_ev l, with_events (events s + 1) s)).
Definition check : code := zero_or_exit id.
Definition publish : code := fun '(l, s) => (true, (l, with_self (Some l) s)).
(** [pthread_create]: [self] points to the structure, which now has the number of the thread. *)
Definition start (t : thread) (f : log -> log) : code :=
  zero_or_exit (fun '(l, s) => (f l, with_self (Some (f l)) (with_threads (t :: threads s) s))).
Fixpoint start_disks (n i : nat) : code :=
  match n with
  | O => skip
  | S n => check >>> start (Disk i) (set_disk i) >>> start_disks n (S i)
  end.

Definition oplog_init_body (c : option conf) : code :=
  read_conf c >>> send_socket >>>
  init_sync SendAttr >>> init_sync SendLock >>> init_sync RecvAttr >>> init_sync RecvLock >>>
  init_sync RecvCondAttr >>> init_sync RecvCond >>>
  new_base >>> new_event >>> check >>> check >>> publish >>>
  start Routine set_thread >>> start_disks LOG_DISK_THREAD_NUM 0.

Definition close_if (fd : Z) (s : sys) : sys :=
  if fd =? 0 then s else with_socks (Usock.close fd (socks s)) s.
Definition join (t : thread) (s : sys) : sys := with_threads (filter (.≠ t) (threads s)) s.
Fixpoint join_disks (i : nat) (ids : list bool) (s : sys) : sys :=
  match ids with
  | [] => s
  | id :: r => join_disks (S i) r (if id : bool then join (Disk i) s else s)
  end.
(** [disk_run]: the variable of that name, which a thread of the disk sets when it begins. *)
Definition oplog_exit (disk_run : bool) (oplog : option log) (s : sys) : sys :=
  match oplog with
  | None => s
  | Some l =>
      let s := if thread_id l then join Routine s else s in
      let s := if base l then
                 with_bases (bases s - 1) (if ev l then with_events (events s - 1) s else s) else s in
      let s := if disk_run then join_disks 0 (disk_thread_id l) s else s in
      let s := close_if (sock_fd l) (close_if (send_fd l) s) in
      with_self None (with_blocks (blocks s - 1) (with_ready [] s))
  end.

(** [disk_run] is what [oplog_exit] finds there, should it be called. *)
Definition oplog_init (disk_run : bool) (c : option conf) (s : sys) : option log * sys :=
  let '(r, s) := ask s in
  if negb (r =? 0) then (None, oplog_exit disk_run None s)
  else
    let '(ok, (l, s)) := oplog_init_body c (no_log, with_blocks (blocks s + 1) s) in
    if ok : bool then (Some l, s) else (None, oplog_exit disk_run (Some l) s).

(** ** The log without a server *)

(** [log_send_ex]: the socket, the address and the buffer; and [oplog_ex_init]. *)
Record send_ex := SendEx { x_fd : Z; x_addr : Z * Z; x_buf : list Z; x_init : bool }.

Definition oplog_init_ex (c : option conf) (x : send_ex) (s : sys) : Z * send_ex * sys :=
  match c with
  | None => (-1, x, s)
  | Some c =>
      match c_ip c with
      | None => (-1, x, s)
      | Some name =>
          if c_port c <? 0 then (-1, x, s)
          else
            let p := u16 (c_port c) in
            let u_ip := ntohl (inet_addr name) in
            let '(fd, r, w) := udp_socket (socks s) in
            let s := with_socks w s in
            if fd <? 0 then (-1, SendEx fd (x_addr x) (x_buf x) (x_init x), s)
            else
              let x := SendEx fd (htonl u_ip, htons p) (x_buf x) (x_init x) in
              if r <? 0 then (-1, x, with_socks (Usock.close fd (socks s)) s)
              else
                let s := with_socks (Usock.set_sock fd (Usock.bind_to (sockaddr_in u_ip)) (socks s)) s in
                let '(r1, s) := ask s in
                if negb (r1 =? 0) then (-1, x, with_socks (Usock.close fd (socks s)) s)
                else
                  let '(r2, s) := ask s in
                  if negb (r2 =? 0) then (-1, x, with_socks (Usock.close fd (socks s)) s)
                  else (0, x, s)
      end
  end.

(** The descriptor, the bytes and the address of the datagram that is sent, if one is. *)
Definition oplog_print_ex (c : option conf) (log_type : Z) (file function : list Z) (line level : Z) (text : list Z)
    (x : send_ex) (s : sys) : option (option (Z * list Z * (Z * Z)) * send_ex * sys) :=
  let '(r, x, s) := if x_init x then (0, x, s) else oplog_init_ex c x s in
  if r <? 0 then Some (None, x, s)
  else
    '(b, dgram) ← OpLog.oplog_print (x_buf x) log_type file function line level text;
    Some (Some (x_fd x, dgram, x_addr x), SendEx (x_fd x) (x_addr x) b true, s).
End Start.
End OpLogStart.
