(* ===== verification/OpLogStartSpec.v ===== *)
(** * base/oplog.c: what starting the log acquires, and that stopping gives it back *)

From S2P Require Import Prelude Bytes CString Utils Pdu OpLog Usock OpLogStart.
From stdpp Require Import base tactics numbers list gmap strings.
From Stdlib Require Import ZArith Lia.
Open Scope Z_scope.
Import OpLogStart.

Definition udp_server : Z := Z.lor (Z.lor Usock.USOCK_IPV4ONLY Usock.USOCK_UDP) Usock.USOCK_SERVER.

(** ** The descriptors the system hands out *)

(** A descriptor handed out is not in use: not open before, and not that of a socket an earlier
    attempt has left open. The first ones are those of the standard streams. *)
Definition system_fresh (w : Usock.world) : Prop :=
  Forall (fun a => Usock.net w !! Usock.a_sock a = None /\ Usock.a_sock a <> 0) (Usock.attempts w) /\
  (forall i j a b, (i < j)%nat -> Usock.attempts w !! i = Some a -> Usock.attempts w !! j = Some b ->
     works udp_server a = true -> Usock.a_sock b <> Usock.a_sock a) /\
  Usock.net w !! (-1) = None.

Lemma notimeout_attempts type result : forall w,
  (forall a, a ∈ Usock.attempts w -> Usock.net w !! Usock.a_sock a = None) ->
  let '(fd, _, w') := Usock.usock_inet_notimeout type result w in
  exists k, Usock.attempts w' = drop k (Usock.attempts w) /\
    (0 <= fd -> exists i a, k = S i /\ Usock.attempts w !! i = Some a /\ works type a = true /\ fd = Usock.a_sock a).
Proof.
  induction result as [|rp result IH]; intros w Hf; cbn [Usock.usock_inet_notimeout].
  { exists 0%nat. split; [by rewrite drop_0|lia]. }
  destruct (Usock.attempts w) as [|a r] eqn:Ea.
  - rewrite usock_connect_none by done. simpl. specialize (IH w ltac:(by rewrite Ea)).
    destruct (Usock.usock_inet_notimeout type result w) as [[fd addr] w']. destruct IH as (k & Hk & H).
    exists k. rewrite Ea in Hk, H. done.
  - assert (Usock.net w !! Usock.a_sock a = None) as Ha by (apply Hf; by left).
    pose proof (usock_connect_spec type rp w a r Ea (fun _ => Ha)) as Hc.
    destruct (Usock.usock_connect _ _ _ _ _ w) as [fd w1]. destruct Hc as (Er & _ & _ & Hc).
    destruct (works type a) eqn:Hw.
    + destruct Hc as (-> & s & En & Hs). assert (0 <= Usock.a_sock a) by (unfold works in Hw; btest; done).
      rewrite (proj2 (Z.leb_le 0 (Usock.a_sock a))) by done. exists 1%nat. split; [by rewrite Er|].
      intros _. by exists 0%nat, a.
    + destruct Hc as [-> En]. simpl. specialize (IH w1). rewrite Er, En in IH.
      specialize (IH ltac:(intros b Hb; apply Hf; by right)).
      destruct (Usock.usock_inet_notimeout type result w1) as [[fd addr] w']. destruct IH as (k & Hk & H).
      exists (S k). split; [done|]. intros (i & b & -> & Hi & Hb)%H. by exists (S i), b.
Qed.

(** The server's socket: none, or one more; and the next descriptors are new beside it. *)
Lemma usock_server found name w :
  system_fresh w ->
  let '(fd, w') := Usock.usock found udp_server name w in
  (fd = -1 /\ Usock.net w' = Usock.net w) \/
  (0 < fd /\ Usock.net w !! fd = None /\
   exists rp s, Usock.net w' = <[fd := s]> (Usock.net w) /\ opened_for udp_server rp s /\
     (exists result, found = Some result /\ rp ∈ result) /\
     forall a r, Usock.attempts w' = a :: r -> Usock.net w' !! Usock.a_sock a = None /\ Usock.a_sock a <> 0).
Proof.
  intros (Hf & Hd & Hn). unfold Usock.usock. change (Usock.flag udp_server Usock.USOCK_UNIX) with false. cbn match.
  unfold Usock.usock_inet. destruct found as [result|]; [|by left].
  assert (Forall (fun a => Usock.net w !! Usock.a_sock a = None) (Usock.attempts w)) as Hf1.
  { eapply Forall_impl; [exact Hf|]. by intros a [? _]. }
  pose proof (inet_notimeout_spec udp_server result w Hf1) as Hc.
  pose proof (notimeout_attempts udp_server result w) as Ha.
  destruct (Usock.usock_inet_notimeout udp_server result w) as [[fd addr] w'].
  specialize (Ha (proj1 (Forall_forall _ _) Hf1)). destruct Ha as (k & Hk & Ha).
  destruct Hc as [(-> & _ & En & _)|(i & rp & a & s & Hi & Hw & -> & _ & En & Hs)]; [left; by simpl|].
  destruct Hw as (Hia & Hwa & _).
  assert (0 <= Usock.a_sock a) as H0 by (unfold works in Hwa; btest; done).
  assert (Usock.net w !! Usock.a_sock a = None /\ Usock.a_sock a <> 0) as [Hna Hnz].
  { exact (proj1 (Forall_lookup _ _) Hf _ _ Hia). }
  rewrite (proj2 (Z.ltb_ge (Usock.a_sock a) 0)) by done. right. split_and!; [lia|done|].
  exists rp, s. split_and!; [done|done|exists result; split; [done|by eapply list_elem_of_lookup_2]|].
  intros b r Eb. destruct (Ha H0) as (j & c & -> & Hj & Hwc & Ec).
  assert (Usock.attempts w !! S j = Some b) as Hb.
  { rewrite <- (Nat.add_0_r (S j)), <- lookup_drop, <- Hk, Eb. done. }
  destruct (proj1 (Forall_lookup _ _) Hf _ _ Hb) as [Hnb ?]. split; [|done].
  rewrite En, Ec, lookup_insert_ne; [done|]. apply not_eq_sym, (Hd j (S j) c b); [lia|done..].
Qed.

(** ** Everything acquired is recorded in the structure *)

Definition drop_fd (fd : Z) (m : gmap Z Usock.sock) : gmap Z Usock.sock := if fd =? 0 then m else delete fd m.
Definition one (b : bool) : Z := if b then 1 else 0.
Definition known (l : log) (t : thread) : Prop :=
  match t with Routine => thread_id l = true | Disk i => disk_thread_id l !! i = Some true end.
(** Beside what [s0] holds there is only what the structure [l] leads to. *)
Record owned (s0 : sys) (l : log) (s : sys) : Prop := Owned {
  o_net : drop_fd (sock_fd l) (drop_fd (send_fd l) (Usock.net (socks s))) = Usock.net (socks s0);
  o_blocks : blocks s = blocks s0 + 1;
  o_bases : bases s = bases s0 + one (base l);
  o_events : events s = events s0 + one (ev l);
  o_ev : ev l = true -> base l = true;
  o_disks : length (disk_thread_id l) = 2%nat;
  o_threads : Forall (known l) (threads s)
}.

(** A piece of code keeps that, whether it goes to [exit] or not; begun where [P] holds it leaves
    [Q] where it does not go to [exit]. *)
Definition triple (s0 : sys) (P : log -> sys -> Prop) (c : code) (Q : log -> sys -> Prop) : Prop :=
  forall l s, owned s0 l s -> P l s -> let '(ok, (l, s)) := c (l, s) in owned s0 l s /\ (ok = true -> Q l s).

Lemma triple_seq s0 P Q R a b : triple s0 P a Q -> triple s0 Q b R -> triple s0 P (seq a b) R.
Proof.
  intros Ha Hb l s Ho HP. unfold seq. specialize (Ha l s Ho HP). destruct (a (l, s)) as [ok [l1 s1]].
  destruct Ha as [Ho1 HQ]. destruct ok; [by apply Hb; [|apply HQ]|by split].
Qed.
Lemma owned_answers s0 l s x : owned s0 l s -> owned s0 l (with_answers x s).
Proof. by intros []. Qed.
Lemma triple_zero s0 (P Q : log -> sys -> Prop) f :
  (forall l s x, P l s -> P l (with_answers x s)) ->
  (forall l s, owned s0 l s -> P l s -> let '(l, s) := f (l, s) in owned s0 l s /\ Q l s) ->
  triple s0 P (zero_or_exit f) Q.
Proof.
  intros Hx H l s Ho HP. unfold zero_or_exit, ask.
  specialize (H l _ (owned_answers _ _ _ (tail (answers s)) Ho) (Hx l s (tail (answers s)) HP)).
  destruct (_ =? 0); [|split; [by apply owned_answers|done]]. destruct (f _). destruct H. by split.
Qed.
Lemma known_thread l t : known l t -> known (set_thread l) t.
Proof. by destruct t. Qed.
Lemma known_disk i l t : known l t -> known (set_disk i l) t.
Proof.
  destruct t as [|j]; simpl; [done|]. intros H. destruct (decide (j = i)) as [->|Hne]; [|by rewrite list_lookup_insert_ne].
  rewrite list_lookup_insert_eq; [done|]. by eapply lookup_lt_Some.
Qed.

(** *** The two sockets *)

Section Run.
Context (inet_addr : list Z -> Z) (getaddrinfo : list Z -> list Z -> option (list Usock.addrinfo)) (c : option conf).
Context (s0 : sys) (Hfresh : system_fresh (socks s0)).

(** The structure before anything is in it. *)
Definition empty (l : log) (s : sys) : Prop :=
  sock_fd l = 0 /\ send_fd l = 0 /\ base l = false /\ ev l = false /\ threads s = [] /\ socks s = socks s0.
(** The configuration as it is stored. *)
Definition configured (l : log) : Prop :=
  exists cf name root, c = Some cf /\ c_ip cf = Some name /\ c_root cf = Some root /\ 0 <= c_port cf /\
    ip l = ntohl (inet_addr name) /\ port l = u16 (c_port cf) /\ root_path l = take 255 root.
(** The server's socket is bound to an address of the configured name and port. *)
Definition server_socket (l : log) (rs : Usock.sock) : Prop :=
  exists cf name result rp, c = Some cf /\ c_ip cf = Some name /\
    Usock.usock_port (port l) ≫= getaddrinfo name = Some result /\ rp ∈ result /\ opened_for udp_server rp rs.
Definition listens (l : log) (s : sys) : Prop :=
  configured l /\ send_fd l = 0 /\ base l = false /\ ev l = false /\ threads s = [] /\
  0 < sock_fd l /\ Usock.net (socks s0) !! sock_fd l = None /\
  (exists rs, Usock.net (socks s) = <[sock_fd l := rs]> (Usock.net (socks s0)) /\ server_socket l rs) /\
  forall a r, Usock.attempts (socks s) = a :: r -> Usock.net (socks s) !! Usock.a_sock a = None /\ Usock.a_sock a <> 0.

Lemma read_conf_triple : triple s0 empty (read_conf inet_addr getaddrinfo c) listens.
Proof.
  intros l s Ho (E1 & E2 & E3 & E4 & E5 & E6). unfold read_conf.
  destruct c as [cf|] eqn:Ec; [|by split]. destruct (c_ip cf) as [name|] eqn:Ei; [|by split].
  unfold seq, on_log. destruct (c_port cf <? 0) eqn:Ep; [split; [by destruct Ho|done]|].
  destruct (c_root cf) as [root|] eqn:Er; [|split; [by destruct Ho|done]].
  set (l1 := set_root _ _). change (port l1) with (u16 (c_port cf)).
  pose proof (usock_server (Usock.usock_port (u16 (c_port cf)) ≫= getaddrinfo name) name (socks s)) as Hu.
  rewrite E6 in *. specialize (Hu Hfresh). fold udp_server. destruct (Usock.usock _ udp_server name (socks s0)) as [fd w].
  destruct Ho as [On Ob Oba Oe Oeb Od Ot].
  destruct Hu as [[-> En]|(Hp & Hn & rp & rs & En & Hs & (result & Hres & Hrp) & Ha)].
  - split; [|done]. split; try done. simpl. rewrite E2, En. unfold drop_fd. simpl. apply delete_id. by destruct Hfresh as (_ & _ & ?).
  - rewrite (proj2 (Z.ltb_ge fd 0)) by lia. split.
    + split; try done. simpl. rewrite E2, En. unfold drop_fd. simpl. rewrite (proj2 (Z.eqb_neq fd 0)) by lia. by apply delete_insert_id.
    + intros _. split_and!; try done; [by exists cf, name, root; split_and!; try done; btest|].
      exists rs. split; [done|]. by exists cf, name, result, rp.
Qed.

(** The socket the log sends with, and both sockets beside those open before. *)
Definition send_sock (u_ip : Z) : Usock.sock :=
  Usock.Sock Usock.AF_INET Usock.SOCK_DGRAM false false (Some (sockaddr_in u_ip)) false None.
Definition wired (l : log) (s : sys) : Prop :=
  configured l /\ 0 < sock_fd l /\ 0 < send_fd l /\ send_addr l = (htonl (ip l), htons (port l)) /\
  Usock.net (socks s0) !! sock_fd l = None /\ Usock.net (socks s0) !! send_fd l = None /\
  exists rs, server_socket l rs /\
    Usock.net (socks s) = <[send_fd l := send_sock (ip l)]> (<[sock_fd l := rs]> (Usock.net (socks s0))).
Definition phase (b e : bool) (ts : list thread) (l : log) (s : sys) : Prop :=
  wired l s /\ base l = b /\ ev l = e /\ threads s = ts.

Lemma send_socket_triple : triple s0 listens send_socket (phase false false []).
Proof.
  intros l s [On Ob Oba Oe Oeb Od Ot] (Hc & E2 & E3 & E4 & E5 & Hp & Hn & (rs & En & Hs) & Ha).
  unfold drop_fd in On. rewrite E2, (proj2 (Z.eqb_neq (sock_fd l) 0)) in On by lia. simpl in On.
  unfold send_socket, udp_socket, Usock.next_attempt.
  destruct (Usock.attempts (socks s)) as [|a r] eqn:Ea; simpl.
  - split; [|done]. split; try done. simpl. unfold drop_fd. simpl. rewrite (proj2 (Z.eqb_neq (sock_fd l) 0)) by lia.
    rewrite (delete_id _ (-1)); [done|]. rewrite En, lookup_insert_ne by lia. by destruct Hfresh as (_ & _ & ?).
  - destruct (Ha a r eq_refl) as [Hna Hnz].
    assert (forall x, drop_fd (sock_fd l) (drop_fd (Usock.a_sock a) (<[Usock.a_sock a := x]> (Usock.net (socks s)))) = Usock.net (socks s0)) as Hd.
    { intros x. unfold drop_fd. rewrite (proj2 (Z.eqb_neq (Usock.a_sock a) 0)) by done. rewrite (proj2 (Z.eqb_neq (sock_fd l) 0)) by lia.
      by rewrite delete_insert_id. }
    destruct (Usock.a_sock a <? 0) eqn:E0; simpl.
    { split; [|done]. split; try done. simpl. unfold drop_fd. rewrite (proj2 (Z.eqb_neq (Usock.a_sock a) 0)) by done.
      rewrite (proj2 (Z.eqb_neq (sock_fd l) 0)) by lia. by rewrite (delete_id _ (Usock.a_sock a)). }
    assert (Usock.a_sock a <> sock_fd l) as Hne by (intros He; rewrite En, He, lookup_insert_eq in Hna; done).
    rewrite En, lookup_insert_ne in Hna by done.
    destruct (Usock.a_bind a <? 0); simpl.
    { split; [|done]. split; try done. apply Hd. }
    split.
    + split; try done. simpl. rewrite alter_insert_eq. apply Hd.
    + intros _. split; [|done]. split_and!; try done; [simpl; btest; lia|]. exists rs. split; [done|]. simpl.
      rewrite alter_insert_eq, En. done.
Qed.

(** *** The rest *)

Lemma phase_answers b e ts l s x : phase b e ts l s -> phase b e ts l (with_answers x s).
Proof. done. Qed.
Lemma phase_zero b e ts Q f :
  (forall l s, owned s0 l s -> phase b e ts l s -> let '(l, s) := f (l, s) in owned s0 l s /\ Q l s) ->
  triple s0 (phase b e ts) (zero_or_exit f) Q.
Proof. intros H. by apply triple_zero. Qed.
Lemma sync_triple x b e ts : triple s0 (phase b e ts) (init_sync x) (phase b e ts).
Proof. apply phase_zero. by intros l s [] Hp. Qed.
Lemma check_triple b e ts : triple s0 (phase b e ts) check (phase b e ts).
Proof. by apply phase_zero. Qed.
Lemma base_triple ts : triple s0 (phase false false ts) new_base (phase true false ts).
Proof.
  apply phase_zero. intros l s [] (Hw & Hb & He & Ht). split; [|done]. split; try done; simpl. rewrite Hb in *. simpl in *. lia.
Qed.
Lemma event_triple ts : triple s0 (phase true false ts) new_event (phase true true ts).
Proof. apply phase_zero. intros l s [] (Hw & Hb & He & Ht). split; [|done]. split; try done; simpl. rewrite He in *. simpl in *. lia. Qed.

(** The structure is known to the rest of the program, with its threads. *)
Definition running (ts : list thread) (l : log) (s : sys) : Prop := phase true true ts l s /\ self s = Some l.
Lemma publish_triple ts : triple s0 (phase true true ts) publish (running ts).
Proof. by intros l s [] Hp. Qed.
Lemma start_triple t f ts :
  (forall l s, owned s0 l s -> owned s0 (f l) s) -> (forall l s, owned s0 l s -> known (f l) t) ->
  (forall l s, phase true true ts l s -> phase true true ts (f l) s) ->
  triple s0 (running ts) (start t f) (running (t :: ts)).
Proof.
  intros Hf Ht Hp. apply triple_zero; [done|]. intros l s Ho [Hph _]. specialize (Ht l s Ho). apply Hf in Ho as [].
  destruct (Hp l s Hph) as (Hw & Hb & He & Hts). split; [split; try done; by constructor|]. split; [|done].
  split_and!; try done. simpl. by rewrite Hts.
Qed.
Lemma check_running ts : triple s0 (running ts) check (running ts).
Proof. by apply triple_zero. Qed.
Lemma disk_triple i ts : (i < 2)%nat -> triple s0 (running ts) (start (Disk i) (set_disk i)) (running (Disk i :: ts)).
Proof.
  intros Hi. apply start_triple; [| |done].
  - intros l s []. split; try done; simpl; [by rewrite length_insert|]. eapply Forall_impl; [done|]. intros. by apply known_disk.
  - intros l s []. simpl. apply list_lookup_insert_eq. lia.
Qed.
Lemma routine_triple ts : triple s0 (running ts) (start Routine set_thread) (running (Routine :: ts)).
Proof.
  apply start_triple; [|done|done]. intros l s []. split; try done. eapply Forall_impl; [done|]. intros. by apply known_thread.
Qed.
Lemma skip_triple P : triple s0 P skip P.
Proof. by intros l s. Qed.

Lemma body_triple :
  triple s0 empty (oplog_init_body inet_addr getaddrinfo c) (running [Disk 1; Disk 0; Routine]).
Proof.
  eapply triple_seq; [apply read_conf_triple|]. eapply triple_seq; [apply send_socket_triple|].
  do 6 (eapply triple_seq; [apply sync_triple|]).
  eapply triple_seq; [apply base_triple|]. eapply triple_seq; [apply event_triple|].
  do 2 (eapply triple_seq; [apply check_triple|]). eapply triple_seq; [apply publish_triple|].
  eapply triple_seq; [apply routine_triple|]. cbn [start_disks LOG_DISK_THREAD_NUM].
  do 2 (eapply triple_seq; [apply check_running|]; eapply triple_seq; [apply disk_triple; lia|]). apply skip_triple.
Qed.
End Run.

(** ** Stopping *)

Lemma join_disks_spec : forall ids k s,
  exists ts, join_disks k ids s = with_threads ts s /\
    forall t, t ∈ ts <-> t ∈ threads s /\ ~ exists j, t = Disk (k + j) /\ ids !! j = Some true.
Proof.
  induction ids as [|id ids IH]; intros k s; simpl.
  { exists (threads s). split; [by destruct s|]. intros t. split; [|by intros []]. intros H. split; [done|]. by intros (j & _ & ?). }
  destruct (IH (S k) (if id then join (Disk k) s else s)) as (ts & -> & H). exists ts. split; [by destruct id|].
  intros t. rewrite H. destruct id; simpl.
  - rewrite list_elem_of_filter. split.
    + intros [[Hk Ht] Hn]. split; [done|]. intros ([|j] & -> & Hj); [by rewrite Nat.add_0_r in Hk|]. apply Hn. exists j. split; [f_equal; lia|done].
    + intros [Ht Hn]. split; [split; [|done]|].
      * intros ->. apply Hn. exists 0%nat. by rewrite Nat.add_0_r.
      * intros (j & -> & Hj). apply Hn. exists (S j). split; [f_equal; lia|done].
  - split; intros [Ht Hn]; (split; [done|]).
    + intros ([|j] & -> & Hj); [done|]. apply Hn. exists j. split; [f_equal; lia|done].
    + intros (j & -> & Hj). apply Hn. exists (S j). split; [f_equal; lia|done].
Qed.

(** Nothing of the log is left. *)
Record released (s0 s : sys) : Prop := Released {
  r_net : Usock.net (socks s) = Usock.net (socks s0);
  r_blocks : blocks s = blocks s0; r_bases : bases s = bases s0; r_events : events s = events s0;
  r_threads : threads s = []; r_self : self s = None
}.
Lemma close_if_net fd s : Usock.net (socks (close_if fd s)) = drop_fd fd (Usock.net (socks s)).
Proof. unfold close_if, drop_fd. by destruct (fd =? 0). Qed.
Lemma close_if_rest fd s :
  blocks (close_if fd s) = blocks s /\ bases (close_if fd s) = bases s /\ events (close_if fd s) = events s /\
  threads (close_if fd s) = threads s.
Proof. unfold close_if. by destruct (fd =? 0). Qed.

Lemma exit_releases s0 l s : owned s0 l s -> released s0 (oplog_exit true (Some l) s).
Proof.
  intros [On Ob Oba Oe Oeb Od Ot]. unfold oplog_exit.
  set (s1 := if thread_id l then join Routine s else s).
  assert (socks s1 = socks s /\ blocks s1 = blocks s /\ bases s1 = bases s /\ events s1 = events s /\
          Forall (fun t => known l t /\ t <> Routine) (threads s1)) as (Es & Eb & Eba & Ee & Ht).
  { unfold s1. destruct (thread_id l) eqn:Hid; simpl; split_and!; try done; apply Forall_forall; intros t.
    - rewrite list_elem_of_filter. intros [? H]. split; [|done]. by eapply (proj1 (Forall_forall _ _)) in Ot.
    - intros H. eapply (proj1 (Forall_forall _ _)) in Ot; [|done]. split; [done|]. intros ->. simpl in Ot. congruence. }
  clearbody s1. set (s2 := if base l then _ else s1).
  assert (socks s2 = socks s /\ blocks s2 = blocks s /\ bases s2 = bases s0 /\ events s2 = events s0 /\ threads s2 = threads s1)
    as (Es2 & Eb2 & Eba2 & Ee2 & Et2).
  { unfold s2. destruct (base l) eqn:Hb, (ev l) eqn:Hv; simpl in *; try (by specialize (Oeb eq_refl)); split_and!; try done; lia. }
  clearbody s2. destruct (join_disks_spec (disk_thread_id l) 0 s2) as (ts & -> & Hts).
  assert (ts = []) as ->.
  { apply elem_of_nil_inv. intros t (Hin & Hno)%Hts. rewrite Et2 in Hin.
    destruct (proj1 (Forall_forall _ _) Ht t Hin) as [Hk Hr]. destruct t as [|i]; [done|]. apply Hno. by exists i. }
  set (s3 := with_threads [] s2).
  destruct (close_if_rest (send_fd l) s3) as (B1 & C1 & D1 & F1).
  destruct (close_if_rest (sock_fd l) (close_if (send_fd l) s3)) as (B2 & C2 & D2 & F2).
  split; cbn [socks blocks bases events threads self with_self with_blocks with_ready];
    rewrite ?close_if_net, ?B2, ?C2, ?D2, ?F2, ?B1, ?C1, ?D1, ?F1; unfold s3; cbn; try done; try lia.
  by rewrite Es2.
Qed.

(** C26. The log from its start to its end. Whatever the configuration is and whatever the system
    answers, [oplog_init] either gives up, and then no socket, block, event base, event or thread
    is left and [self] is not set; or it starts the log of the configuration: the server's socket
    is bound to an address of the configured name and port, the one to send with to the configured
    address, [self] points to the structure, and the three threads run. [oplog_exit] then gives
    everything back. The threads of the disk have begun when [oplog_exit] looks for them. *)
Theorem oplog_start_stop inet_addr getaddrinfo c s :
  system_fresh (socks s) -> threads s = [] -> self s = None ->
  match oplog_init inet_addr getaddrinfo true c s with
  | (None, s') => released s s'
  | (Some l, s') =>
      running inet_addr getaddrinfo c s [Disk 1; Disk 0; Routine] l s' /\
      (blocks s' = blocks s + 1 /\ bases s' = bases s + 1 /\ events s' = events s + 1) /\
      released s (oplog_exit true (Some l) s')
  end.
Proof.
  intros Hf Ht Hs. unfold oplog_init, ask.
  set (s1 := with_answers (tail (answers s)) s). destruct (negb _); [by split|].
  pose proof (body_triple inet_addr getaddrinfo c s Hf no_log (with_blocks (blocks s1 + 1) s1)) as H.
  destruct (oplog_init_body inet_addr getaddrinfo c _) as [ok [l s2]].
  destruct H as [Ho HQ]; [split; try done; simpl; try lia; by rewrite Ht|by split_and!|].
  destruct ok; [|by apply exit_releases]. specialize (HQ eq_refl). split; [done|]. split; [|by apply exit_releases].
  destruct HQ as [(_ & Hb & He & _) _]. destruct Ho as [_ Ob Oba Oe _ _ _]. rewrite Hb in Oba. rewrite He in Oe. simpl in *. by split_and!.
Qed.

(** A configuration, and a system that grants everything. *)
Definition a_conf : option conf := Some (Conf (Some (str "127.0.0.1")) 9999 (Some (str "/var/log"))).
Definition generous : sys :=
  Sys (Usock.World ∅ [Usock.Attempt 5 0 0 0 0; Usock.Attempt 6 0 0 0 0] [] []) (replicate 20 0) 0 0 0 [] [] None.
Definition localhost (_ _ : list Z) : option (list Usock.addrinfo) := Some [Usock.AddrInfo Usock.AF_INET [127; 0; 0; 1]].
Lemma oplog_start_stop_witness :
  exists l s', oplog_init (fun _ => 16777343) localhost true a_conf generous = (Some l, s') /\
    threads s' = [Disk 1; Disk 0; Routine] /\ self s' = Some l /\ released generous (oplog_exit true (Some l) s').
Proof.
  pose proof (oplog_start_stop (fun _ => 16777343) localhost a_conf generous) as H.
  destruct (oplog_init (fun _ => 16777343) localhost true a_conf generous) as [[l|] s'] eqn:E.
  - destruct H as ([(_ & _ & _ & Ht) Hs] & _ & Hr); [|reflexivity|reflexivity|by exists l, s'].
    split_and!; [by repeat constructor| |reflexivity].
    intros [|[|i]] [|[|j]] a b Hij Ha Hb _; simpl in *; simplify_eq; try lia; done.
  - exfalso. assert (is_Some (fst (oplog_init (fun _ => 16777343) localhost true a_conf generous))) as Hi by (by eexists).
    rewrite E in Hi. by destruct Hi.
Defined.

(** Where the first thread of the disk has not begun yet when the second is refused, [disk_run] is
    not set: the structure is freed and the thread goes on with it. *)
Lemma early_exit_leaves_thread :
  let s := Sys (socks generous) (replicate 15 0 ++ [-1]) 0 0 0 [] [] None in
  let r := oplog_init (fun _ => 16777343) localhost false a_conf s in
  fst r = None /\ blocks (snd r) = 0 /\ threads (snd r) = [Disk 0].
Proof. intros s r. subst s r. split; [|split]; vm_compute; reflexivity. Qed.

(** ** The log without a server *)

(** The socket is made once, with the first record; a record that finds none possible is not sent,
    leaves no socket behind, and the next one tries again. The bytes sent are those of
    [oplog_print]. *)
Theorem oplog_print_ex_spec inet_addr c log_type file function line level text x s :
  (forall a r, Usock.attempts (socks s) = a :: r -> Usock.net (socks s) !! Usock.a_sock a = None) ->
  match oplog_print_ex inet_addr c log_type file function line level text x s with
  | Some (None, x', s') =>
      x_init x = false /\ x_init x' = false /\ Usock.net (socks s') = Usock.net (socks s)
  | Some (Some (fd, dgram, addr), x', s') =>
      x_init x' = true /\ fd = x_fd x' /\ addr = x_addr x' /\
      OpLog.oplog_print (x_buf x) log_type file function line level text = Some (x_buf x', dgram) /\
      if x_init x then s' = s /\ fd = x_fd x /\ addr = x_addr x
      else exists u_ip, Usock.net (socks s') = <[fd := send_sock u_ip]> (Usock.net (socks s)) /\ fst addr = htonl u_ip
  | None => OpLog.oplog_print (x_buf x) log_type file function line level text = None
  end.
Proof.
  intros Ha. unfold oplog_print_ex. destruct (x_init x) eqn:Ei.
  { change (0 <? 0) with false. cbn iota. destruct (OpLog.oplog_print _ _ _ _ _ _ _) as [[b d]|]; simpl; by split_and?. }
  assert (match oplog_init_ex inet_addr c x s with
          | (r, x', s') => x_init x' = false /\ x_buf x' = x_buf x /\
              if r <? 0 then Usock.net (socks s') = Usock.net (socks s)
              else exists u_ip, Usock.net (socks s') = <[x_fd x' := send_sock u_ip]> (Usock.net (socks s)) /\ fst (x_addr x') = htonl u_ip
          end) as H.
  { unfold oplog_init_ex. destruct c as [cf|]; [|done]. destruct (c_ip cf) as [name|]; [|done].
    destruct (c_port cf <? 0); [done|]. unfold udp_socket, Usock.next_attempt.
    destruct (Usock.attempts (socks s)) as [|a r]; simpl; [done|]. specialize (Ha a r eq_refl).
    destruct (Usock.a_sock a <? 0) eqn:E0; simpl; [done|].
    assert (forall x, delete (Usock.a_sock a) (<[Usock.a_sock a := x]> (Usock.net (socks s))) = Usock.net (socks s)) as Hd.
    { intros y. by apply delete_insert_id. }
    destruct (Usock.a_bind a <? 0); simpl; [by rewrite Hd|].
    do 2 (destruct (negb _); simpl; rewrite ?alter_insert_eq; [by rewrite Hd|]).
    split_and!; [done..|]. by eexists. }
  destruct (oplog_init_ex inet_addr c x s) as [[r x1] s1]. destruct H as (Hi & Hb & H).
  destruct (r <? 0); [done|]. rewrite Hb. destruct (OpLog.oplog_print _ _ _ _ _ _ _) as [[b d]|]; simpl; by split_and?.
Qed.
