(* ===== verification/Pbus.v ===== *)
(** * The bus tool (src/src/tools/pbus/pbus.c) and the calls of the manager it reaches

    [pbus] sends one of the calls of the table [pbus_map] to the server and prints the answer.
    The server's side is the manager's half of the registration of opmgr.c. A result [None] is a
    read outside of the response buffer. *)

From S2P Require Import Prelude Bytes CString Utils OpRpc Pdu OpMem OpMemReport VtyTerm OpMgr.
From stdpp Require Import base tactics numbers list strings.
From Stdlib Require Import ZArith Lia SpecFloat.
Open Scope Z_scope.

Module Pbus.
Import Utils Pdu OpMemReport VtyTerm OpMgr.

(** ** The server's side *)

Section Register.
Context {T : Type}.
Notation world := (option (OpMgr.world (T := T))).

(** A handler of the manager as the server of [OpRpc] calls it: with its two buffers. *)
Definition tipc_handler (h : OpRpc.local_cb world) : OpRpc.rpc_cb world :=
  fun w req req_size response res_size =>
    let '(ret, resp, w) := h w (Some req) req_size (Some response) res_size in (ret, default response resp, w).

(** The half of [_mgr_rpc_register] for other processes. *)
Definition _mgr_tipc_register (self : option (OpRpc.op_tipc world)) : option (OpRpc.op_tipc world) :=
  let self := snd (OpRpc.op_tipc_register tipc_opserver_cup_usage (tipc_handler bus_get_cpu_usage) self) in
  let self := snd (OpRpc.op_tipc_register tipc_opserver_show_mem_poll (tipc_handler bus_get_mem_pool_infrmation) self) in
  snd (OpRpc.op_tipc_register tipc_opserver_show_mem_poll_father_node
         (tipc_handler bus_get_mem_pool_father_node_infrmation) self).
End Register.

(** ** The tool *)

Definition usage_row (buf : list Z) (i : Z) : option (list Z) :=
  name ← slice buf (4 + sizeof_usage * i) (zlen buf - (4 + sizeof_usage * i)) ≫= read_cstr;
  user ← float_at buf i 64; nice ← float_at buf i 68; system ← float_at buf i 72;
  iowait ← float_at buf i 80; steal ← float_at buf i 92; cpu_use ← float_at buf i 100;
  Some (padr 6 name ++ str "    " ++ padr 6 (fmt_2f user) ++ str "      " ++ padr 6 (fmt_2f nice) ++ str "      "
        ++ padr 7 (fmt_2f system) ++ str "      " ++ padr 7 (fmt_2f iowait) ++ str "      "
        ++ padr 6 (fmt_2f steal) ++ str "      " ++ padr 6 (fmt_2f cpu_use) ++ [10]).
Definition row_head : list Z :=
  str "name      %user       %nice       %system      %iowait      %steal      %usage" ++ [10].
(** The loop from row [i] on, [n] rows. *)
Fixpoint usage_rows (n : nat) (i : Z) (buf : list Z) : option (list Z) :=
  match n with
  | O => Some []
  | S n => row ← usage_row buf i; rows ← usage_rows n (i + 1) buf; Some (row ++ rows)
  end.
Definition format_cpu_usage (response : list Z) : option (list Z) :=
  n ← of_le32 <$> slice response 0 4;
  rows ← usage_rows (Z.to_nat (s32 n + 1)) 0 response;
  Some (row_head ++ rows).
Definition format_mem_pool_usage (response : list Z) : option (list Z) :=
  text ← read_cstr response; Some (text ++ [10]).

Inductive pbus_format_res := FormatCpu | FormatMem.
Definition run_format (f : pbus_format_res) (response : list Z) : option (list Z) :=
  match f with FormatCpu => format_cpu_usage response | FormatMem => format_mem_pool_usage response end.

(** [struct _pbus_struct]; an entry without a name has the other fields null. Every entry sends
    with [pbus_send_busd]. *)
Record pbus_struct := Entry { e_module : Z; e_help : list Z; e_use_req : bool; e_format : option pbus_format_res }.
Definition rpc_tipc_module_opdpdk : Z := 1002.
Definition pbus_map : list (option pbus_struct) :=
  let opserver help := Entry rpc_tipc_module_opserver (str help) false in
  let opdpdk help := Entry rpc_tipc_module_opdpdk (str help) false in
  [None;
   Some (opserver "get_cpu_usage" (Some FormatCpu));
   Some (opserver "memory_pool_info_opserver" (Some FormatMem));
   Some (opserver "send_quotes" None);
   Some (opserver "check_stock" None);
   Some (opserver "memory_pool_info_father_node_opserver" (Some FormatMem));
   Some (opdpdk "memory_pool_info_opdpdk" (Some FormatMem));
   Some (opdpdk "memory_pool_info_father_node_opdpdk" (Some FormatMem))]%string.

Definition pbus_send_busd (env : OpRpc.send_env) (module type : Z) (req : option (list Z)) (size : Z)
    (response : list Z) (res_size : Z) : Z * list Z * option (list Z) :=
  OpRpc.op_tipc_send_ex_out env module type req size (Some response) res_size.

Definition help_line (prog : list Z) (e : option pbus_struct) : list Z :=
  match e with
  | None => []
  | Some e => take 1023 (prog ++ str " " ++ e_help e ++ (if e_use_req e then str " [req string]" else []) ++ [10])
  end.
Definition pbus_help (prog : list Z) : list Z := str "usage:" ++ [10] ++ concat (help_line prog <$> pbus_map).

(** The loop of [pbus_handle] from the entry [i] on. What is printed, the bytes sent, and
    [g_response]. *)
Fixpoint handle_loop (env : OpRpc.send_env) (help : list Z) (req : option (list Z)) (size : Z) (g : list Z)
    (i : Z) (l : list (option pbus_struct)) : option (list Z * list Z * list Z) :=
  match l with
  | [] => Some ([], [], g)
  | None :: r => handle_loop env help req size g (i + 1) r
  | Some e :: r =>
      if negb (bool_decide (e_help e = help)) then handle_loop env help req size g (i + 1) r
      else
        let '(ret, sent, response) :=
          if e_use_req e then pbus_send_busd env (e_module e) i req size g OpRpc.RPC_RESPONSE_SIZE
          else pbus_send_busd env (e_module e) i None 0 g OpRpc.RPC_RESPONSE_SIZE in
        let g := default g response in
        if ret <? 0 then Some (str "pbus called failed" ++ [10], sent, g)
        else
          match e_format e with
          | None => Some ([], sent, g)
          | Some f => out ← run_format f g; Some (out, sent, g)
          end
  end.
Definition pbus_handle (env : OpRpc.send_env) (help : list Z) (req : option (list Z)) (size : Z) (g : list Z)
    : option (list Z * list Z * list Z) := handle_loop env help req size g 0 pbus_map.

(** [argv]: the program and its arguments; [h]: [getopt_long] finds the option for help. *)
Definition main (env : OpRpc.send_env) (h : bool) (prog : list Z) (args : list (list Z))
    : option (list Z * list Z * list Z) :=
  let g := replicate (Z.to_nat OpRpc.RPC_RESPONSE_SIZE) 0 in
  if h then Some (pbus_help prog, [], g)
  else
    match args with
    | [] => Some (pbus_help prog, [], g)
    | [name] => pbus_handle env name None 0 g
    | name :: req :: _ => pbus_handle env name (Some req) (zlen req) g
    end.
End Pbus.
