(* ===== verification/PbusSpec.v ===== *)
(** * The bus tool: a question from the command line to the manager and back *)

From S2P Require Import Prelude Bytes CString Utils OpRpc OpRpcSpec Pdu OpMem OpMemReport VtyTerm OpMgr OpMgrSpec Pbus.
From stdpp Require Import base tactics numbers list strings.
From Stdlib Require Import ZArith Lia SpecFloat.
Import Utils Pdu OpMemReport VtyTerm OpMgr Pbus.
Open Scope Z_scope.
Open Scope opsv_scope.

(** ** The usage as it is printed *)

Definition usage_floats (u : cpu_info_usage) : list Z :=
  float_bits <$> [user u; nice u; system u; idle u; iowait u; irq u; softirq u; steal u; guest u; cpu_use u].
(** The name ends inside its array, and the numbers are floats. *)
Definition usage_ok (u : cpu_info_usage) : Prop :=
  0 ∈ cpu_name u /\ Forall (fun b => 0 <= b < W32) (usage_floats u).
Definition usage_text (u : cpu_info_usage) : list Z :=
  padr 6 (cstr (cpu_name u)) ++ str "    " ++ padr 6 (fmt_2f (float_bits (user u))) ++ str "      "
  ++ padr 6 (fmt_2f (float_bits (nice u))) ++ str "      " ++ padr 7 (fmt_2f (float_bits (system u))) ++ str "      "
  ++ padr 7 (fmt_2f (float_bits (iowait u))) ++ str "      " ++ padr 6 (fmt_2f (float_bits (steal u))) ++ str "      "
  ++ padr 6 (fmt_2f (float_bits (cpu_use u))) ++ [10].

Lemma slice_middle a m b i n : i = zlen a -> n = zlen m -> slice (a ++ m ++ b) i n = Some m.
Proof.
  intros -> ->. unfold slice, zlen. rewrite !length_app.
  rewrite (proj2 (Z.leb_le 0 _)), (proj2 (Z.leb_le 0 (Z.of_nat (length m)))), (proj2 (Z.leb_le _ _)) by lia. cbn [andb].
  by rewrite !Nat2Z.id, drop_app_length, take_app_length.
Qed.
Lemma cstr_cut s rest : cstr (s ++ 0 :: rest) = cstr s.
Proof.
  unfold cstr. induction s as [|c s IH]; simpl; [done|]. destruct (c =? 0); simpl; [done|].
  destruct (span _ (s ++ _)), (span _ s). simpl in *. by rewrite IH.
Qed.
Lemma cstr_prefix s t : 0 ∈ s -> cstr (s ++ t) = cstr s.
Proof. intros (a & b & ->)%list_elem_of_split. by rewrite <- app_assoc, <- app_comm_cons, !cstr_cut. Qed.

(** The entry [i] of the usage inside the bytes of the structure. *)
Lemma usage_at info i u rest :
  info_ok info -> usage info !! i = Some u ->
  exists a b, cpu_info_bytes info ++ rest = a ++ usage_bytes u ++ b /\ zlen a = 4 + sizeof_usage * Z.of_nat i.
Proof.
  intros (_ & Hl & Hn) Hu. pose proof (take_drop_middle _ _ _ Hu) as E.
  exists (le32 (u32 (cpu_num info)) ++ concat (usage_bytes <$> take i (usage info))),
         (concat (usage_bytes <$> drop (S i) (usage info)) ++ rest).
  split.
  - unfold cpu_info_bytes. rewrite <- E at 1. rewrite fmap_app, concat_app. simpl. by rewrite <- !app_assoc.
  - apply lookup_lt_Some in Hu. unfold zlen, sizeof_usage. rewrite length_app, (OpMgrSpec.concat_length 104).
    + rewrite length_fmap, length_take. change (length (le32 (u32 (cpu_num info)))) with 4%nat. lia.
    + apply Forall_fmap, Forall_take. eapply Forall_impl; [exact Hn|]. intros x Hx. by apply usage_bytes_length.
Qed.
Lemma float_at_field buf a b c d x i off :
  buf = a ++ (c ++ le32 x ++ d) ++ b -> zlen a = 4 + sizeof_usage * i -> zlen c = off -> 0 <= x < W32 ->
  float_at buf i off = Some x.
Proof.
  intros -> Ha Hc Hx. unfold float_at. rewrite <- (app_assoc c), <- (app_assoc _ d b), (app_assoc a).
  rewrite slice_middle; [change (Some (of_le32 (le32 x)) = Some x); by rewrite of_le32_le32|unfold zlen in *; rewrite length_app; lia|done].
Qed.
(** The place of a field: the bytes before it and behind it. *)
Local Ltac field_at :=
  first [done | by rewrite <- !app_assoc
        |unfold zlen; rewrite ?length_app; repeat change (length (le32 _)) with 4%nat; lia].
Lemma usage_row_text info i u rest :
  info_ok info -> usage info !! i = Some u -> usage_ok u ->
  usage_row (cpu_info_bytes info ++ rest) (Z.of_nat i) = Some (usage_text u).
Proof.
  intros Hi Hu [H0 Hf]. destruct (usage_at info i u rest Hi Hu) as (a & b & Hb & Ha).
  destruct Hi as (_ & _ & Hn). assert (length (cpu_name u) = 64%nat) as Hl by exact (proj1 (Forall_lookup _ _) Hn _ _ Hu).
  unfold usage_floats in Hf. cbn [fmap list_fmap] in Hf. rewrite !Forall_cons in Hf.
  destruct Hf as (F1 & F2 & F3 & F4 & F5 & F6 & F7 & F8 & F9 & F10 & _).
  unfold usage_row. rewrite Hb. unfold usage_bytes. cbn [fmap list_fmap concat].
  set (nm := cpu_name u) in *. set (x1 := float_bits (user u)) in *. set (x2 := float_bits (nice u)) in *.
  set (x3 := float_bits (system u)) in *. set (x4 := float_bits (idle u)) in *. set (x5 := float_bits (iowait u)) in *.
  set (x6 := float_bits (irq u)) in *. set (x7 := float_bits (softirq u)) in *. set (x8 := float_bits (steal u)) in *.
  set (x9 := float_bits (guest u)) in *. set (x10 := float_bits (cpu_use u)) in *.
  rewrite (float_at_field _ a b nm _ x1 _ 64 eq_refl Ha) by field_at.
  rewrite (float_at_field _ a b (nm ++ le32 x1) (le32 x3 ++ le32 x4 ++ le32 x5 ++ le32 x6 ++ le32 x7 ++ le32 x8 ++ le32 x9 ++ le32 x10 ++ []) x2 _ 68)
    by field_at.
  rewrite (float_at_field _ a b (nm ++ le32 x1 ++ le32 x2) (le32 x4 ++ le32 x5 ++ le32 x6 ++ le32 x7 ++ le32 x8 ++ le32 x9 ++ le32 x10 ++ []) x3 _ 72)
    by field_at.
  rewrite (float_at_field _ a b (nm ++ le32 x1 ++ le32 x2 ++ le32 x3 ++ le32 x4) (le32 x6 ++ le32 x7 ++ le32 x8 ++ le32 x9 ++ le32 x10 ++ []) x5 _ 80)
    by field_at.
  rewrite (float_at_field _ a b (nm ++ le32 x1 ++ le32 x2 ++ le32 x3 ++ le32 x4 ++ le32 x5 ++ le32 x6 ++ le32 x7) (le32 x9 ++ le32 x10 ++ []) x8 _ 92)
    by field_at.
  rewrite (float_at_field _ a b (nm ++ le32 x1 ++ le32 x2 ++ le32 x3 ++ le32 x4 ++ le32 x5 ++ le32 x6 ++ le32 x7 ++ le32 x8 ++ le32 x9) [] x10 _ 100)
    by field_at.
  set (fs := le32 x1 ++ _).
  assert (slice (a ++ (nm ++ fs) ++ b) (4 + sizeof_usage * Z.of_nat i)
            (zlen (a ++ (nm ++ fs) ++ b) - (4 + sizeof_usage * Z.of_nat i)) = Some ((nm ++ fs) ++ b)) as ->.
  { rewrite <- (app_nil_r ((nm ++ fs) ++ b)) at 1. apply slice_middle; [done|]. unfold zlen in *. rewrite !length_app in *. lia. }
  cbn [mbind option_bind]. unfold read_cstr. rewrite bool_decide_eq_true_2 by (rewrite !elem_of_app; by do 2 left).
  rewrite <- app_assoc, cstr_prefix by done. reflexivity.
Qed.

Lemma usage_rows_text info rest : forall n i us,
  info_ok info -> drop i (usage info) = us -> Forall usage_ok us -> (n <= length us)%nat ->
  usage_rows n (Z.of_nat i) (cpu_info_bytes info ++ rest) = Some (concat (usage_text <$> take n us)).
Proof.
  induction n as [|n IH]; intros i us Hi Hd Hok Hn; cbn [usage_rows]; [done|].
  destruct us as [|u us]; [simpl in Hn; lia|]. apply Forall_cons in Hok as [Hu Hok].
  assert (usage info !! i = Some u) as Hl by (rewrite <- (Nat.add_0_r i), <- lookup_drop, Hd; done).
  rewrite (usage_row_text info i u rest Hi Hl Hu), bind_some. replace (Z.of_nat i + 1) with (Z.of_nat (S i)) by lia.
  rewrite (IH (S i) us); [done|done| |done|simpl in Hn; lia].
  rewrite <- Nat.add_1_r, <- drop_drop, Hd. done.
Qed.
(** The text [format_cpu_usage] prints from the bytes of the structure: a line for the whole
    machine and one for each processor. *)
Lemma format_cpu_text info rest :
  info_ok info -> Forall usage_ok (usage info) ->
  format_cpu_usage (cpu_info_bytes info ++ rest)
  = Some (row_head ++ concat (usage_text <$> take (Z.to_nat (cpu_num info + 1)) (usage info))).
Proof.
  intros Hi Hok. pose proof Hi as (Hn & Hl & _). unfold MAX_CPU_CORE in Hn. unfold format_cpu_usage.
  assert (slice (cpu_info_bytes info ++ rest) 0 4 = Some (le32 (u32 (cpu_num info)))) as ->.
  { unfold cpu_info_bytes. rewrite <- app_assoc. by apply (slice_middle []). }
  change (of_le32 <$> Some (le32 (u32 (cpu_num info)))) with (Some (of_le32 (le32 (u32 (cpu_num info))))).
  rewrite bind_some, u32_id, of_le32_le32, s32_id by lia.
  rewrite (usage_rows_text info rest _ 0 (usage info) Hi); [done|done|done|lia].
Qed.

(** ** The report of the pool *)

Lemma padl_length w s n : (length s <= n)%nat -> (length (padl w s) <= w + n)%nat.
Proof. intros H. unfold padl. rewrite length_app, length_replicate. lia. Qed.
Lemma fmt_u_length n : (length (padl 10 (fmt_u n)) <= 30)%nat.
Proof. apply (padl_length 10 _ 20), dec_digits_length. Qed.
Lemma fmt_d_length n : (length (padl 10 (fmt_d n)) <= 31)%nat.
Proof. apply (padl_length 10 _ 21). unfold fmt_d, fmt_u. pose proof (dec_digits_length 20 n). pose proof (dec_digits_length 20 (- n)).
  case_match; cbn [length]; lia.
Qed.
Lemma ele_line_length name e : (length name <= 10)%nat -> (length (ele_line name e) <= 300)%nat.
Proof.
  intros Hn. unfold ele_line. pose proof (padl_length 10 name 10 Hn).
  pose proof fmt_u_length as Hu. pose proof fmt_d_length as Hd. rewrite !length_app.
  repeat match goal with |- context [length (padl 10 (fmt_u ?n))] => let x := fresh "x" in pose proof (Hu n); set (x := length (padl 10 (fmt_u n))) in *; clearbody x end.
  repeat match goal with |- context [length (padl 10 (fmt_d ?n))] => let x := fresh "x" in pose proof (Hd n); set (x := length (padl 10 (fmt_d n))) in *; clearbody x end.
  simpl length. lia.
Qed.
Lemma total_line_length sep name n : (length (str sep) <= 3)%nat -> (length (str name) <= 30)%nat -> (length (total_line sep name n) <= 130)%nat.
Proof.
  intros Hs Hn. unfold total_line. pose proof (padl_length 30 (str name) 30 Hn). pose proof (fmt_u_length n).
  rewrite !length_app. simpl length. lia.
Qed.
Lemma report_length {T} (m : OpMem.op_mem_info T) : zlen (pool_head ++ concat (report_lines m)) < 8192.
Proof.
  assert (Forall (fun l => length l <= 300)%nat (ele_lines m)) as He.
  { unfold ele_lines. apply Forall_take, Forall_drop.
    assert (Forall (fun s => length s <= 10)%nat ele_names) as Hn by (repeat (constructor; [simpl; lia|]); constructor).
    revert Hn. generalize ele_names (OpMem.op_mem_ele m). induction l as [|s l IH]; intros [|e es] Hs; simpl; try constructor;
      apply Forall_cons in Hs as [H1 H2]; [by apply ele_line_length|by apply IH]. }
  assert (length (ele_lines m) <= 14)%nat as Hl by (unfold ele_lines; rewrite length_take; apply Nat.le_min_l).
  assert (forall ls : list (list Z), Forall (fun l => length l <= 300)%nat ls -> (length (concat ls) <= 300 * length ls)%nat) as Hc.
  { clear. induction 1; simpl; [lia|]. rewrite length_app. lia. }
  unfold report_lines. rewrite concat_app. unfold zlen. rewrite !length_app. specialize (Hc _ He).
  match goal with |- context [concat [?a; ?b; ?c; system_head; ?d; ?e]] =>
    assert (length (concat [a; b; c; system_head; d; e]) <= 5 * 130 + 50)%nat as Ht end.
  { cbn [concat]. rewrite !length_app.
    pose proof (fun s n => total_line_length ": " s n ltac:(simpl; lia)) as H1.
    pose proof (fun s n => total_line_length " : " s n ltac:(simpl; lia)) as H2.
    repeat match goal with |- context [length (total_line ": " ?s ?n)] => let x := fresh "x" in pose proof (H1 s n ltac:(simpl; lia)); set (x := length (total_line ": " s n)) in *; clearbody x end.
    repeat match goal with |- context [length (total_line " : " ?s ?n)] => let x := fresh "x" in pose proof (H2 s n ltac:(simpl; lia)); set (x := length (total_line " : " s n)) in *; clearbody x end.
    change (length system_head) with 45%nat. cbn [length]. lia. }
  change (length pool_head) with 43%nat. lia.
Qed.

(** ** Over the wire *)

Section Question.
Context {B : Type} `{!EvBuffer B, !EvBufferLaws B} {T : Type}.
Implicit Types (w : OpMgr.world (T := T)) (c : OpRpc.tipc_client B) (env : OpRpc.send_env).

(** The server once it has started and the manager has registered its calls. *)
Definition server_started (tipc : OpRpc.op_tipc (option (OpMgr.world (T := T)))) : Prop :=
  _mgr_tipc_register (Some (OpRpc.OpTipc (replicate (Z.to_nat OpRpc.RPC_MAX_ELEMENT) None) rpc_tipc_module_opserver)) = Some tipc.
(** The tool reaches the server and waits for its answer. *)
Definition reaches env : Prop :=
  0 <= OpRpc.sock env /\ 0 <= OpRpc.connected env /\ 0 < OpRpc.wait_ready env /\ OpRpc.alloc_ok env = true.

Lemma cpu_handler w req n resp :
  info_ok (w_cpu w) -> length resp = Z.to_nat OpRpc.RPC_RESPONSE_SIZE ->
  tipc_handler bus_get_cpu_usage (Some w) req n resp OpRpc.RPC_RESPONSE_SIZE
  = (sizeof_cpu_info, cpu_info_bytes (w_cpu w) ++ replicate (Z.to_nat (8192 - 6764)) 0, Some w).
Proof.
  intros Hi Hr. unfold OpRpc.RPC_RESPONSE_SIZE in Hr. unfold tipc_handler, bus_get_cpu_usage.
  change (u32 OpRpc.RPC_RESPONSE_SIZE) with 8192. pose proof (info_bytes_length _ Hi) as Hl.
  set (bs := cpu_info_bytes (w_cpu w)) in *. unfold memlcpy, memset0. change (8192 =? 0) with false. cbv iota.
  destruct (poke_ok resp (replicate (Z.to_nat 8192) 0)) as [-> _]; [rewrite length_replicate; lia|].
  change (if sizeof_cpu_info <? 8192 then sizeof_cpu_info else 8192) with sizeof_cpu_info. rewrite Hl, Z.ltb_irrefl.
  unfold zlen, sizeof_cpu_info in *. rewrite (take_ge bs) by lia.
  match goal with |- context [poke ?d _] => destruct (poke_ok d bs) as [-> _] end;
    [rewrite length_app, length_drop, !length_replicate; lia|].
  cbn [mbind option_bind default]. f_equal. f_equal. f_equal.
  rewrite (drop_ge resp) by (rewrite length_replicate; lia). rewrite app_nil_r, drop_replicate. unfold id. do 2 f_equal. lia.
Qed.
Lemma mem_handler w m req n resp :
  w_pool w = Some m -> length resp = Z.to_nat OpRpc.RPC_RESPONSE_SIZE ->
  let report := pool_head ++ concat (report_lines m) in
  exists rest, tipc_handler bus_get_mem_pool_infrmation (Some w) req n resp OpRpc.RPC_RESPONSE_SIZE
  = (zlen report, report ++ 0 :: rest, Some w).
Proof.
  intros Hp Hr report. unfold OpRpc.RPC_RESPONSE_SIZE in *. unfold tipc_handler, bus_get_mem_pool_infrmation. rewrite Hp.
  pose proof (report_length m) as Hlen. fold report in Hlen.
  destruct (op_mem_information_fits m resp 8192) as (buf & k & -> & (_ & _ & rest & Hb) & Hk);
    [unfold zlen; rewrite Hr; lia|lia|]. fold report in Hb, Hk. rewrite (Hk Hlen). exists rest.
  cbn [default]. f_equal. f_equal. rewrite Hb, take_ge; [done|]. unfold zlen in Hlen. lia.
Qed.

(** The text a question prints. *)
Inductive asks w : string -> Z -> list Z -> Prop :=
  | asks_cpu : asks w "get_cpu_usage" tipc_opserver_cup_usage
      (row_head ++ concat (usage_text <$> take (Z.to_nat (cpu_num (w_cpu w) + 1)) (usage (w_cpu w))))
  | asks_mem m : w_pool w = Some m -> asks w "memory_pool_info_opserver" tipc_opserver_show_mem_poll
      (cstr (pool_head ++ concat (report_lines m)) ++ [10]).

Notation zeros := (replicate (Z.to_nat OpRpc.RPC_RESPONSE_SIZE) 0).
(** The entry of the question is found, and its answer formatted. *)
Lemma main_prints env prog name type f ret resp text :
  (name, type, f) = ("get_cpu_usage"%string, tipc_opserver_cup_usage, FormatCpu) \/
  (name, type, f) = ("memory_pool_info_opserver"%string, tipc_opserver_show_mem_poll, FormatMem) ->
  OpRpc.op_tipc_send_ex env rpc_tipc_module_opserver type None 0 (Some zeros) OpRpc.RPC_RESPONSE_SIZE
  = (ret, OpRpc.request_head rpc_tipc_module_opserver type None 0, Some resp) -> 0 <= ret ->
  run_format f resp = Some text ->
  main env false prog [str name] = Some (text, OpRpc.request_head rpc_tipc_module_opserver type None 0, resp).
Proof.
  intros He Hs Hr Hf.
  assert (main env false prog [str name]
          = let '(r, sent, response) := pbus_send_busd env rpc_tipc_module_opserver type None 0 zeros OpRpc.RPC_RESPONSE_SIZE in
            let g := default zeros response in
            if r <? 0 then Some (str "pbus called failed" ++ [10], sent, g)
            else out ← run_format f g; Some (out, sent, g)) as -> by (destruct He as [[= -> -> ->]|[= -> -> ->]]; reflexivity).
  unfold pbus_send_busd. change OpRpc.op_tipc_send_ex_out with OpRpc.op_tipc_send_ex. rewrite Hs. change (default zeros (Some resp)) with resp.
  rewrite (proj2 (Z.ltb_ge ret 0)) by done. by rewrite Hf.
Qed.

(** C17. A question from the command line and its answer. The server has started and the manager has
    registered its calls; [pbus get_cpu_usage] or [pbus memory_pool_info_opserver] is run. The
    bytes the tool sends make the server run the handler of the question, and with the server's
    reply the tool prints, for the first question, the heading and one line for the machine and
    each of its processors, with the name and the six shares the manager holds; for the second, the
    report of the pool as it is, in full. The connection of the server is idle again. *)
Theorem pbus_question w tipc c env prog name type text :
  server_started tipc -> OpRpcSpec.client_ok c -> OpRpcSpec.idle c -> reaches env ->
  info_ok (w_cpu w) -> Forall usage_ok (usage (w_cpu w)) -> asks w name type text ->
  let sent := OpRpc.request_head rpc_tipc_module_opserver type None 0 in
  exists c' reply,
    OpRpc.deliver tipc (Some w) c sent = Some (c', reply, Some w) /\ OpRpcSpec.idle c' /\
    (OpRpc.reads env = [take 16 reply; drop 16 reply] ->
     exists g, main env false prog [str name] = Some (text, sent, g)).
Proof.
  intros Ht Hc Hid (E1 & E2 & E3 & E4) Hi Hu Ha sent. pose proof Hc as (_ & Hrc & _).
  assert (OpRpc.tipc_module tipc = rpc_tipc_module_opserver /\
          OpRpc.cb tipc !! Z.to_nat tipc_opserver_cup_usage = Some (Some (tipc_handler bus_get_cpu_usage)) /\
          OpRpc.cb tipc !! Z.to_nat tipc_opserver_show_mem_poll = Some (Some (tipc_handler bus_get_mem_pool_infrmation)))
    as (Hm & H1 & H2) by (injection Ht as <-; by split_and!).
  assert (forall type f ret resp, 0 <= type < OpRpc.RPC_MAX_ELEMENT -> OpRpc.cb tipc !! Z.to_nat type = Some (Some f) ->
    f (Some w) (OpRpc.req_content c) 0 (OpRpc.response_content c) OpRpc.RPC_RESPONSE_SIZE = (ret, resp, Some w) ->
    0 <= ret <= OpRpc.RPC_RESPONSE_SIZE -> (Z.to_nat ret <= length resp)%nat ->
    exists c' reply, OpRpc.deliver tipc (Some w) c (OpRpc.request_head rpc_tipc_module_opserver type None 0) = Some (c', reply, Some w)
      /\ OpRpcSpec.idle c' /\
      (OpRpc.reads env = [take 16 reply; drop 16 reply] ->
       OpRpc.op_tipc_send_ex env rpc_tipc_module_opserver type None 0 (Some zeros) OpRpc.RPC_RESPONSE_SIZE
       = (ret, OpRpc.request_head rpc_tipc_module_opserver type None 0,
          Some (take (Z.to_nat ret) resp ++ drop (Z.to_nat ret) zeros)))) as Hcall.
  { intros ty f ret resp Hty Hf Hrun Hret Hlen.
    destruct (OpRpcSpec.call_and_reply tipc (Some w) (Some w) c env ty None 0 f ret resp zeros OpRpc.RPC_RESPONSE_SIZE)
      as (c' & reply & Hd & Hid' & Hs); try done; [by rewrite Hm|].
    rewrite Hm, app_nil_r in Hd. exists c', reply. split_and!; [done|done|]. intros Hr. specialize (Hs Hr).
    rewrite Hm, app_nil_r, Z.min_r in Hs by lia. done. }
  destruct Ha as [|m Hp].
  - destruct (Hcall tipc_opserver_cup_usage _ sizeof_cpu_info _ ltac:(done) H1 (cpu_handler w _ _ _ Hi Hrc)) as (c' & reply & Hd & Hid' & Hs).
    { unfold sizeof_cpu_info, OpRpc.RPC_RESPONSE_SIZE. lia. }
    { pose proof (info_bytes_length _ Hi) as Hl. rewrite length_app. unfold zlen in Hl. lia. }
    exists c', reply. split_and!; [done|done|]. intros Hr. specialize (Hs Hr).
    pose proof (info_bytes_length _ Hi) as Hl. unfold zlen in Hl. rewrite take_app_length' in Hs by lia.
    eexists. eapply (main_prints env prog _ _ FormatCpu); [by left|exact Hs|done|]. by apply format_cpu_text.
  - destruct (mem_handler w m (OpRpc.req_content c) 0 (OpRpc.response_content c) Hp Hrc) as [rest Hh].
    pose proof (report_length m) as Hl.
    destruct (Hcall tipc_opserver_show_mem_poll _ _ _ ltac:(done) H2 Hh) as (c' & reply & Hd & Hid' & Hs).
    { unfold OpRpc.RPC_RESPONSE_SIZE, zlen in *. lia. }
    { rewrite length_app. unfold zlen. lia. }
    exists c', reply. split_and!; [done|done|]. intros Hr. specialize (Hs Hr).
    set (report := pool_head ++ concat (report_lines m)) in *. unfold zlen in *. rewrite Nat2Z.id, take_app_length in Hs.
    eexists. eapply (main_prints env prog _ _ FormatMem); [by right|exact Hs|lia|].
    cbn [run_format]. unfold format_mem_pool_usage, read_cstr. rewrite drop_replicate.
    destruct (Z.to_nat OpRpc.RPC_RESPONSE_SIZE - length report)%nat as [|k] eqn:Ek; [unfold OpRpc.RPC_RESPONSE_SIZE in Ek; lia|].
    cbn [replicate]. rewrite bool_decide_eq_true_2 by (apply elem_of_app; right; by left). rewrite cstr_cut. done.
Qed.
End Question.

(** A machine with two processors. *)
Definition cpu_entry (name : string) : cpu_info_usage :=
  Usage (str name ++ replicate (64 - length (str name)) 0) (round32 25 0) (round32 0 0) (round32 5 0) (round32 60 0)
        (round32 1 (-1)) (round32 0 0) (round32 0 0) (round32 0 0) (round32 0 0) (round32 40 0).
Lemma cpu_entry_ok name : (length (str name) < 64)%nat -> usage_ok (cpu_entry name).
Proof.
  intros H. split.
  - simpl. apply elem_of_app. right. destruct (64 - length (str name))%nat eqn:E; [lia|]. by left.
  - repeat (apply Forall_cons; split; [vm_compute; by split|]). by apply Forall_nil.
Qed.
Definition two_cpus : OpMgr.world (T := unit) :=
  OpMgr.World (CpuInfo 2 ([cpu_entry "cpu"; cpu_entry "cpu0"; cpu_entry "cpu1"] ++ replicate 62 (cpu_entry ""))) None.
Definition started : OpRpc.op_tipc (option (OpMgr.world (T := unit))) :=
  default (OpRpc.OpTipc [] 0)
    (_mgr_tipc_register (Some (OpRpc.OpTipc (replicate (Z.to_nat OpRpc.RPC_MAX_ELEMENT) None) rpc_tipc_module_opserver))).
Definition the_reply : list Z :=
  match OpRpc.deliver started (Some two_cpus) (OpRpc.new_client 7 []) (OpRpc.request_head rpc_tipc_module_opserver tipc_opserver_cup_usage None 0) with
  | Some (_, reply, _) => reply
  | None => []
  end.
Lemma pbus_question_witness :
  exists sent g, main (OpRpc.SendEnv 5 0 1 [take 16 the_reply; drop 16 the_reply] true) false (str "pbus") [str "get_cpu_usage"]
    = Some (row_head ++ concat (usage_text <$> (cpu_entry <$> ["cpu"; "cpu0"; "cpu1"]%string)), sent, g).
Proof.
  destruct (pbus_question two_cpus started (OpRpc.new_client 7 [])
    (OpRpc.SendEnv 5 0 1 [take 16 the_reply; drop 16 the_reply] true) (str "pbus") "get_cpu_usage" tipc_opserver_cup_usage
    (row_head ++ concat (usage_text <$> take (Z.to_nat (cpu_num (w_cpu two_cpus) + 1)) (usage (w_cpu two_cpus)))))
    as (c' & reply & Hd & _ & Hm).
  - reflexivity.
  - apply OpRpcSpec.new_client_ok.
  - split_and!; reflexivity.
  - repeat split; vm_compute; congruence.
  - split; [simpl; unfold MAX_CPU_CORE; lia|]. split; [reflexivity|]. by repeat constructor.
  - apply Forall_app. split; [|by apply Forall_replicate, cpu_entry_ok; simpl; lia].
    repeat (apply Forall_cons; split; [apply cpu_entry_ok; simpl; lia|]). by apply Forall_nil.
  - apply asks_cpu.
  - assert (the_reply = reply) as <- by (unfold the_reply; by rewrite Hd).
    destruct (Hm eq_refl) as [g Hg]. by eexists _, g.
Defined.
