(* ===== verification/OpMail.v ===== *)
(** * Mail (src/src/module/outer/opmail.c)

    The authorisation code is read from the database when the module starts; a mail is a command
    line that is built in the structure of the module and given to [system]. The database and
    [calloc] are those of [OpSql]. *)

From S2P Require Import Prelude CString Utils OpSql Op4g SpiderSpec.
From stdpp Require Import base tactics numbers list gmap strings.
From Stdlib Require Import ZArith Lia.
Open Scope Z_scope.

Module OpMail.
Import OpSql Op4g.

(** [struct opmail_info]: its block, and the strings in its arrays. *)
Record opmail_info := Mail { b_addr : Z; smtp_auth_code : list Z; message : list Z; content : list Z }.

Definition auth_sql : list Z := clip OPSQL_LEN (str "select map_value from key_value where map_key='smtp_key';").

Section Mail.
Context {D : Type} `{!Odbc D}.

(** [attr], [lock]: the answers of the two pthread calls. The result, [self] and the database;
    the outer [None] is that of [opsql_alloc]. *)
Definition opmail_init (attr lock : Z) (self : option opmail_info) (d : D) : option (option opmail_info * option opmail_info * D) :=
  let '(m, d) := sys_calloc d in
  match m with
  | None => Some (None, self, d)
  | Some p =>
      '(handle, d) ← opsql_alloc d;
      if handle =? 0 then Some (None, self, d)
      else
        let '(count, d) := opsql_query handle auth_sql d in
        if count <=? 0 then Some (None, self, d)
        else
          let '(_, d) := opsql_bind_col handle 1 OPSQL_CHAR 256 d in
          let '(ret, row, d) := opsql_fetch_scroll handle count d in
          if ret <? 0 then Some (None, self, d)
          else if negb (attr =? 0) then Some (None, self, d)
          else if negb (lock =? 0) then Some (None, self, d)
          else
            let mail := Mail p (clip 256 (stored_char 256 [] (row !! 1))) [] [] in
            Some (Some mail, Some mail, opsql_free handle d)
  end.

Definition mail_command (to theme content auth : list Z) : list Z :=
  str "sendEmail -o message-charset=utf-8 -xu isirtel@163.com -t " ++ to ++ str " -u " ++ [34] ++ theme ++ [34]
  ++ str " -m " ++ [34] ++ content ++ [34] ++ str " -s smtp.163.com -f isirtel@163.com -xp " ++ auth.

(** The module after the call and the command given to [system]. *)
Definition opmail_send_message (to : option (list Z)) (theme text : list Z) (self : option opmail_info)
    : option opmail_info * option (list Z) :=
  match to, self with
  | Some to, Some m =>
      let cmd := clip 65536 (mail_command to theme text (smtp_auth_code m)) in
      (Some (Mail (b_addr m) (smtp_auth_code m) cmd (content m)), Some cmd)
  | _, _ => (self, None)
  end.
(** [text]: the format with its arguments. *)
Definition opmail_send_message_ex (to : option (list Z)) (theme text : list Z) (self : option opmail_info)
    : option opmail_info * option (list Z) :=
  match to, self with
  | Some to, Some m =>
      let text := clip 60000 text in
      let cmd := clip 65536 (mail_command to theme text (smtp_auth_code m)) in
      (Some (Mail (b_addr m) (smtp_auth_code m) cmd text), Some cmd)
  | _, _ => (self, None)
  end.
End Mail.
End OpMail.

Import Utils OpSql Op4g OpMail.

(** ** Properties *)

Section Start.
Context {D : Type} `{!Odbc D} `{!OdbcLaws D}.

(** A start that succeeds leaves no statement open and sets [self] to the module with the code of
    the database; one that fails leaves [self] and at most the one statement it had allocated,
    which is not freed. *)
Theorem opmail_init_spec attr lock self d :
  exists r self' d', opmail_init attr lock self d = Some (r, self', d') /\
    match r with
    | Some m => self' = Some m /\ stmts d' = stmts d /\ (length (smtp_auth_code m) < 256)%nat
    | None => self' = self /\ (stmts d' = stmts d \/ exists h, h ∉ stmts d /\ stmts d' = {[h]} ∪ stmts d)
    end.
Proof.
  unfold opmail_init. destruct (sys_calloc d) as [m d0] eqn:E0. pose proof (calloc_ok _ _ _ E0) as [S0 _].
  destruct m as [p|]; [|eexists _, _, _; split; [done|]; split; [done|]; by left].
  destruct (opsql_alloc_spec d0) as (h & d1 & -> & H). cbn [mbind option_bind].
  destruct H as [[-> E]|(Hh & Hn & E & _)]; [eexists _, _, _; split; [done|]; split; [done|]; left; simpl; congruence|].
  rewrite (proj2 (Z.eqb_neq h 0)) by done. rewrite S0 in *.
  destruct (opsql_query h auth_sql d1) as [n d2] eqn:E2. pose proof (opsql_query_stmts h auth_sql d1) as S2. rewrite E2 in S2. simpl in S2.
  destruct (n <=? 0); [eexists _, _, _; split; [done|]; split; [done|]; right; exists h; split; congruence|].
  destruct (opsql_bind_col h 1 OPSQL_CHAR 256 d2) as [x d3] eqn:E3. pose proof (opsql_bind_stmts h 1 OPSQL_CHAR 256 d2) as S3. rewrite E3 in S3. simpl in S3.
  destruct (opsql_fetch_scroll h n d3) as [[ret row] d4] eqn:E4. pose proof (opsql_fetch_scroll_stmts h n d3) as S4. rewrite E4 in S4. simpl in S4.
  assert (stmts d4 = {[h]} ∪ stmts d) as S5 by congruence.
  repeat (case_match; [eexists _, _, _; split; [done|]; split; [done|]; right; exists h; by split|]).
  eexists _, _, _. split; [done|]. split_and!; [done|by apply opsql_free_stmts|].
  simpl. unfold clip at 1. rewrite length_take. lia.
Qed.
End Start.

(** A mail: with the receiver, the subject, the text and the code short enough the whole command
    is run; nothing is run before the module has started. *)
Theorem opmail_sends to theme text self :
  opmail_send_message (Some to) theme text None = (None, None) /\
  match self with
  | Some m =>
      zlen to + zlen theme + zlen text < 65000 -> (length (smtp_auth_code m) < 256)%nat ->
      snd (opmail_send_message (Some to) theme text self) = Some (mail_command to theme text (smtp_auth_code m))
  | None => True
  end.
Proof.
  split; [done|]. destruct self as [m|]; [|done]. intros Hl Ha. simpl. f_equal. unfold clip, zlen in *. apply take_ge.
  unfold mail_command. rewrite !length_app. cbn [length str fmap list_fmap String.list_ascii_of_string]. lia.
Qed.
(** The text is put between quotes as it is: a text with a quote ends them, and what follows is a
    command of its own. *)
Lemma mail_text_is_shell m :
  (length (smtp_auth_code m) < 256)%nat ->
  exists a b, snd (opmail_send_message (Some (str "a@b")) (str "x") ([34] ++ str "; reboot; " ++ [34]) (Some m))
    = Some (a ++ [34; 34] ++ str "; reboot; " ++ [34; 34] ++ b).
Proof.
  intros Ha. rewrite (proj2 (opmail_sends (str "a@b") (str "x") ([34] ++ str "; reboot; " ++ [34]) (Some m)) ltac:(unfold zlen; simpl; lia) Ha).
  exists (str "sendEmail -o message-charset=utf-8 -xu isirtel@163.com -t " ++ str "a@b" ++ str " -u " ++ [34] ++ str "x" ++ [34] ++ str " -m "),
         (str " -s smtp.163.com -f isirtel@163.com -xp " ++ smtp_auth_code m).
  unfold mail_command. by rewrite <- !app_assoc.
Qed.
