(* ===== verification/OpServer.v ===== *)
(** * The server (src/src/opserver.c)

    The start of the components in their order, the two periodic tasks of the main loop, and the
    environment. The start functions of the components are known by their names; what they and the
    system answer are arguments. A result [None] is an access through a null pointer. *)

From S2P Require Import Prelude KeyTable CString OpSql OpMem OpMemReport.
From stdpp Require Import base tactics numbers list strings sets.
From Stdlib Require Import ZArith Lia.
Open Scope Z_scope.

Module OpServer.
Import OpSql.

(** ** Children *)

(** [opserver_process_watchd]: [process_list] by process number; [exists_]: the answer of [access]
    for [/proc/<pid>/exe]. The list after the call, the children waited for and whose entries are
    freed, and whether the timer is set again. *)
Fixpoint watch_loop (exists_ : Z -> bool) (l : list Z) : list Z * list Z :=
  match l with
  | [] => ([], [])
  | pid :: r =>
      let '(keep, gone) := watch_loop exists_ r in
      if exists_ pid then (pid :: keep, gone) else (keep, pid :: gone)
  end.
Definition opserver_process_watchd (exists_ : Z -> bool) (server : option (list Z)) : option (list Z * list Z * bool) :=
  match server with
  | None => None
  | Some [] => Some ([], [], true)
  | Some l => let '(keep, gone) := watch_loop exists_ l in Some (keep, gone, true)
  end.

(** [opserver_opmem_watchd]: the pool after the call, and the seconds until the next one. *)
Definition opserver_opmem_watchd {T} `{!KeyTable T OpMem.ptr} (m : OpMem.op_mem_info T) : OpMem.op_mem_info T * Z :=
  (OpMem.op_mem_release_check m, 60).

(** ** The environment *)

(** [getenv] prints as [(null)] where there is none. *)
Definition env_text (old : option (list Z)) (add : list Z) : list Z :=
  clip 2048 (default (str "(null)") old ++ str ":" ++ add).
(** [conf]: the loaded dictionary with [env:path] and [env:lib]. The result and the two variables. *)
Definition opserver_env_set (conf : option (option (list Z) * option (list Z))) (path lib : option (list Z))
    : Z * option (list Z) * option (list Z) :=
  match conf with
  | None | Some (None, _) => (-1, path, lib)
  | Some (Some p, l) =>
      let path := Some (env_text path p) in
      match l with
      | None => (-1, path, lib)
      | Some l => (0, path, Some (env_text lib l))
      end
  end.

(** ** The start *)

(** What is done in order; [Setuid] with the user, [Loop] the main loop. *)
Inductive action :=
  | Base | Env | Mem | Log | Mosquitto | Tipc | Local | File | ProcessTimer | MemTimer
  | Setuid (uid : Z) | Cli | Sql | Mgr | Mail | Op4g | TimerService | Spider | Loop.
#[export] Instance action_eq_dec : EqDecision action.
Proof. solve_decision. Defined.

(** [opserver_init]: [t1], [t2]: the answers of [evtimer_new]. *)
Definition opserver_init (t1 t2 : bool) : list action :=
  [Mosquitto; Tipc; Local; File] ++
  if negb t1 then [] else ProcessTimer :: if negb t2 then [] else [MemTimer].

(** [server_init]: [uid] from the configuration, if it can be read; [setuid]'s answer. The second
    part: the process goes on. The results of the components are only logged. *)
Definition server_init (conf : option Z) (setuid : Z) : list action * bool :=
  match conf with
  | None => ([], true)
  | Some uid =>
      if uid <=? 0 then ([], false)
      else if setuid <? 0 then ([], false)
      else ([Setuid uid; Cli; Sql; Mgr; Mail; Op4g; TimerService; Spider], true)
  end.

(** [opserver_exit] returns at once for a structure and follows a null pointer otherwise. *)
Definition opserver_exit (op : bool) : option unit := if op then Some () else None.

Record start_env := StartEnv {
  s_calloc : bool; s_base : bool; s_conf : option (option (list Z) * option (list Z));
  s_path : option (list Z); s_lib : option (list Z); s_timer1 : bool; s_timer2 : bool;
  s_uid : option Z; s_setuid : Z; s_loop : Z
}.
(** [loop]: what [event_base_loop] returns. *)
Definition run_server (loop : Z) : Z := if loop <? 0 then -1 else 0.
(** The exit status of [main] and what was done; the loop runs until it fails or is ended. *)
Definition main (e : start_env) : option (Z * list action) :=
  if negb (s_calloc e) then _ ← opserver_exit false; Some (-1, [])
  else if negb (s_base e) then _ ← opserver_exit true; Some (-1, [])
  else
    let '(r, _, _) := opserver_env_set (s_conf e) (s_path e) (s_lib e) in
    if r <? 0 then _ ← opserver_exit true; Some (-1, [Base])
    else
      let begun := [Base; Env; Mem; Log] ++ opserver_init (s_timer1 e) (s_timer2 e) in
      let '(acts, go) := server_init (s_uid e) (s_setuid e) in
      if negb go then Some (0, begun ++ acts)
      else
        let all := begun ++ acts ++ [Loop] in
        if run_server (s_loop e) <? 0 then _ ← opserver_exit true; Some (-1, all) else Some (0, all).
End OpServer.

Import OpSql OpServer.

(** ** Properties *)

(** The children that are gone are waited for once, in order, and the others kept; the timer runs
    on. *)
Theorem process_watchd_spec exists_ l :
  opserver_process_watchd exists_ (Some l)
  = Some (filter (fun p => exists_ p = true) l, filter (fun p => exists_ p = false) l, true).
Proof.
  assert (watch_loop exists_ l = (filter (fun p => exists_ p = true) l, filter (fun p => exists_ p = false) l)) as H.
  { induction l as [|p l IH]; simpl; [done|]. rewrite IH, !filter_cons. destruct (exists_ p); simpl; repeat case_decide; done. }
  destruct l as [|p l]; [done|]. unfold opserver_process_watchd. by rewrite H.
Qed.

(** What a component needs of others when it starts, or when its calls are used. *)
Definition needs (a : action) : list action :=
  match a with
  | Log => [Mem] | Tipc => [Mem; Log] | Local => [Mem] | File => [Mem; Log] | MemTimer => [Mem] | Cli => [Log] | Sql => [Log]
  | Mgr => [Log; Cli; Tipc; Local; Mem] | Mail => [Log; Sql] | Op4g => [Log; Tipc; Local; Sql] | TimerService => [Log]
  | Spider => [Log; Sql; Op4g; Tipc; Local; Mem] | Loop => [Base] | _ => []
  end.
Fixpoint in_order (done_ : list action) (l : list action) : bool :=
  match l with
  | [] => true
  | a :: r => forallb (fun b => bool_decide (b ∈ done_)) (needs a) && in_order (a :: done_) r
  end.
(** The user is changed before any component is started that serves others. *)
Definition served_as_user (l : list action) : bool :=
  match list_find (fun a => match a with Setuid _ => true | _ => false end = true) l with
  | Some (i, _) => forallb (fun a => bool_decide (a ∉ [Cli; Sql; Mgr; Mail; Op4g; TimerService; Spider])) (take i l)
  | None => forallb (fun a => bool_decide (a ∉ [Cli; Sql; Mgr; Mail; Op4g; TimerService; Spider])) l
  end.

(** However far the start comes, every component is started after those it needs, once, and the
    components that serve others only after the user was changed. *)
Theorem main_in_order e status acts :
  main e = Some (status, acts) -> in_order [] acts = true /\ served_as_user acts = true /\ NoDup acts.
Proof.
  unfold main, run_server. destruct (s_calloc e); simpl; [|done]. destruct (s_base e); simpl; [|by intros [= <- <-]; split_and!; [..|constructor]].
  destruct (opserver_env_set _ _ _) as [[r p] lb]. destruct (r <? 0); simpl.
  { intros [= <- <-]. split_and!; [done..|]. by apply NoDup_singleton. }
  unfold server_init. destruct (s_uid e) as [uid|]; simpl.
  - destruct (uid <=? 0), (s_setuid e <? 0), (s_loop e <? 0), (s_timer1 e), (s_timer2 e); simpl; intros [= <- <-];
      (split_and!; [reflexivity|reflexivity|]); repeat (apply NoDup_cons; split; [set_solver|]); apply NoDup_nil_2.
  - destruct (s_loop e <? 0), (s_timer1 e), (s_timer2 e); simpl; intros [= <- <-];
      (split_and!; [reflexivity|reflexivity|]); repeat (apply NoDup_cons; split; [set_solver|]); apply NoDup_nil_2.
Qed.
(** Without memory the end of [main] follows a null pointer; with it nothing is released. *)
Lemma main_without_memory b c p l t1 t2 u s lo : main (StartEnv false b c p l t1 t2 u s lo) = None.
Proof. done. Qed.
(** A variable that is not set is taken for the text [(null)]. *)
Lemma lib_path_null p l : opserver_env_set (Some (Some p, Some l)) (Some []) None
  = (0, Some (env_text (Some []) p), Some (clip 2048 (str "(null):" ++ l))).
Proof. done. Qed.
