(* ===== verification/UtilsSys.v ===== *)
(** * opbox/utils.c: addresses, the process, the serial port, output

    The helpers of opbox/utils.c that call the system: the conversion of addresses, becoming a
    daemon, directories, signals, printing bytes, opening the serial port of the modem and the
    conversion to UTF-8. What the system answers is an argument; what is done to the process, the
    terminal or the standard output is the result. *)

From S2P Require Import Prelude Bytes CString Utils Pdu.
From stdpp Require Import base tactics numbers list gmap strings.
From Stdlib Require Import ZArith Lia.
Open Scope Z_scope.

Module UtilsSys.
Import Utils Pdu.

(** ** Addresses *)

(** [strtoul(s, &endp, 0)] on a string that starts with a digit: the value (not saturated) and
    what follows the number. *)
Definition isxdigit (c : Z) : bool :=
  isdigit c || ((65 <=? c) && (c <=? 70)) || ((97 <=? c) && (c <=? 102)).
Definition isodigit (c : Z) : bool := (48 <=? c) && (c <=? 55).
Definition digit_of (c : Z) : Z := if c <=? 57 then c - 48 else if c <=? 70 then c - 55 else c - 87.
Definition number (b : Z) (ds : list Z) : Z := foldl (fun v c => v * b + digit_of c) 0 ds.
Definition strtoul0 (s : list Z) : Z * list Z :=
  match s with
  | 48 :: x :: r =>
      if ((x =? 120) || (x =? 88)) && isxdigit (char_at r)
      then let '(ds, rest) := span isxdigit r in (number 16 ds, rest)
      else let '(ds, rest) := span isodigit s in (number 8 ds, rest)
  | 48 :: _ => let '(ds, rest) := span isodigit s in (number 8 ds, rest)
  | _ => let '(ds, rest) := span isdigit s in (number 10 ds, rest)
  end.

(** [inet_aton]: the parts before the last one are bytes, the last one fills the rest of the
    address. [pp]: the bytes stored so far. At most four parts: [n] counts the parts left. *)
Fixpoint inet_aton_loop (n : nat) (cp pp : list Z) : option Z :=
  match n with
  | O => None
  | S n =>
      if negb (isdigit (char_at cp)) then None
      else
        let '(val, cp) := strtoul0 cp in
        if 4294967295 <? val then None
        else if char_at cp =? 46 then
          if (2 <? zlen pp) || (255 <? val) then None
          else inet_aton_loop n (tail cp) (pp ++ [val])
        else if negb (char_at cp =? 0) && negb (isspace (char_at cp)) then None
        else if 2 ^ (32 - 8 * zlen pp) - 1 <? val then None
        else Some (Z.lor (of_le32 (pp ++ replicate (4 - length pp) 0)) (htonl val))
  end.
Definition inet_aton (s : list Z) : option Z := inet_aton_loop 4 s [].

Definition ipv4touint (str_ip : list Z) : Z :=
  match inet_aton str_ip with Some s_addr => ntohl s_addr | None => 0 end.

(** [inet_ntoa]: the four bytes in memory order. *)
Definition inet_ntoa (s_addr : Z) : list Z :=
  match le32 s_addr with
  | [a; b; c; d] =>
      dec_digits 3 a ++ 46 :: dec_digits 3 b ++ 46 :: dec_digits 3 c ++ 46 :: dec_digits 3 d
  | _ => []
  end.
(** The array [paddr] is static: 64 bytes, cleared and then filled; its content after the call. *)
Definition uinttoipv4 (ip : Z) : option (list Z) :=
  '(d, _) ← snprintf (replicate 64 0) 64 (inet_ntoa (htonl ip)); Some d.

(** ** Becoming a daemon *)

Inductive file := DevNull | Other (n : Z).
(** A process that goes on: whether it called [setsid], the generation (the number of calls of
    [fork] it is a child of), and its descriptors. *)
Record proc := Proc { session : bool; generation : nat; fds : gmap Z file }.
Inductive outcome := Exit (code : Z) | Return (p : proc).

Definition dup2 (fd to : Z) (p : proc) : proc :=
  match fds p !! fd with
  | Some f => Proc (session p) (generation p) (<[to := f]> (fds p))
  | None => p
  end.
(** [fork1], [fork2]: what [fork] returns in the process that is looked at; [fd]: what [open]
    returns. *)
Definition forked (r : Z) (p : proc) : proc := if r =? 0 then Proc (session p) (S (generation p)) (fds p) else p.
Definition op_daemon (fork1 fork2 fd : Z) (p : proc) : outcome :=
  let p := forked fork1 p in
  if 0 <? fork1 then Exit 0
  else if fork1 <? 0 then Return p
  else
    let p := forked fork2 (Proc true (generation p) (fds p)) in
    if 0 <? fork2 then Exit 0
    else if fork2 <? 0 then Return p
    else if fd <? 0 then Return p
    else
      let p := Proc (session p) (generation p) (<[fd := DevNull]> (fds p)) in
      Return (dup2 fd 2 (dup2 fd 1 (dup2 fd 0 p))).

(** ** Directories *)

(** [opendir]: it succeeds; the result and the directory made, with its mode. *)
Definition is_dir_exist (opendir : bool) (mkdir create : Z) : Z * option Z :=
  if negb opendir then
    if negb (create =? 0) then (if mkdir <? 0 then 0 else 1, Some 493) else (0, None)
  else (1, None).

(** ** Signals *)

Definition SIGSEGV : Z := 11.
Inductive disposition := SIG_DFL | SIG_IGN | Dump_trace.
(** The dispositions that were set, and the lines on the standard output. *)
Record sigs := Sigs { table : gmap Z disposition; out : list (list Z) }.
Definition signal (sig : Z) (d : disposition) (s : sigs) : sigs := Sigs (<[sig := d]> (table s)) (out s).
Definition signal_segvdump (s : sigs) : sigs := signal SIGSEGV Dump_trace s.
Definition signal_ignore (sig : Z) (s : sigs) : sigs := signal sig SIG_IGN s.

(** [%02d] of an [int] that is not negative and below 100 prints two digits. *)
Definition fmt_02 (n : Z) : list Z := if n <? 10 then 48 :: dec_digits 10 n else dec_digits 10 n.
Definition BACKTRACE_SIZE : nat := 20.
Definition segv_line : list Z := str "------------------------SEGV!!!------------------------------".
Definition end_line : list Z := str "------------------------END------------------------------".
Fixpoint trace_lines (j : Z) (strings : list (list Z)) : list (list Z) :=
  match strings with
  | [] => []
  | s :: r => (str "[" ++ fmt_02 j ++ str "] " ++ s) :: trace_lines (j + 1) r
  end.
(** [frames]: the names of the frames; [syms]: [backtrace_symbols] has memory. *)
Definition dump_trace (syms : bool) (frames : list (list Z)) (s : sigs) : sigs :=
  let strings := take BACKTRACE_SIZE frames in
  if syms then Sigs (table s) (out s ++ segv_line :: trace_lines 0 strings ++ [end_line])
  else Sigs (table s) (out s ++ [segv_line]).

(** An instruction that faults [n] times at most while it is executed again and again; [None]: the
    process is killed. A handler that returns goes back to the instruction. *)
Fixpoint faulting (n : nat) (syms : bool) (frames : list (list Z)) (s : sigs) : option sigs :=
  match n with
  | O => Some s
  | S n =>
      match table s !! SIGSEGV with
      | Some Dump_trace => faulting n syms frames (dump_trace syms frames s)
      | _ => None
      end
  end.

(** ** Printing bytes *)

Definition lowerdigit (d : Z) : Z := if d <? 10 then 48 + d else 87 + d.
Definition fmt_02x (b : Z) : list Z := [lowerdigit (b / 16); lowerdigit (b mod 16)].
(** A loop that prints the bytes up to [size]; [None]: it reads past the end of [dest]. *)
Definition print_bytes (fmt : Z -> list Z) (dest : option (list Z)) (size : Z) : option (list Z) :=
  match dest with
  | None => Some []
  | Some d =>
      if size <=? 0 then Some []
      else if zlen d <? size then None
      else Some (concat (fmt <$> take (Z.to_nat size) d) ++ [10])
  end.
Definition print_hex : option (list Z) -> Z -> option (list Z) := print_bytes fmt_02x.
Definition print_HEX : option (list Z) -> Z -> option (list Z) := print_bytes fmt_02X.
Definition print_dec : option (list Z) -> Z -> option (list Z) := print_bytes (fun b => fmt_02 b ++ [32]).

(** ** The serial port *)

(** The flags of termios.h. *)
Definition BRKINT : Z := 2.
Definition INLCR : Z := 64.
Definition ICRNL : Z := 256.
Definition IUCLC : Z := 512.
Definition IXON : Z := 1024.
Definition IXANY : Z := 2048.
Definition IXOFF : Z := 4096.
Definition IMAXBEL : Z := 8192.
Definition IBAUD0 : Z := 2147483648.
Definition ONLCR : Z := 4.
Definition CSIZE : Z := 48.
Definition CS8 : Z := 48.
Definition CSTOPB : Z := 64.
Definition PARENB : Z := 256.
Definition CBAUD : Z := 4111.
Definition B9600 : Z := 13.
Definition ISIG : Z := 1.
Definition ICANON : Z := 2.
Definition ECHO : Z := 8.
Definition ECHONL : Z := 64.
Definition O_RDWR : Z := 2.
Definition O_NOCTTY : Z := 256.
Definition O_NONBLOCK : Z := 2048.

Record termios := Termios {
  c_iflag : Z; c_oflag : Z; c_cflag : Z; c_lflag : Z; c_ispeed : Z; c_ospeed : Z; vmin : Z; vtime : Z
}.
(** [x &= ~(a | ...)] on a [tcflag_t]. *)
Definition clear (flags x : Z) : Z := Z.land x (u32 (Z.lnot flags)).
(** [cfsetospeed] and [cfsetspeed] for a speed other than [B0]: the speed is also kept in the
    control flags. *)
Definition cfsetospeed (speed : Z) (t : termios) : termios :=
  Termios (c_iflag t) (c_oflag t) (Z.lor (clear CBAUD (c_cflag t)) speed) (c_lflag t) (c_ispeed t) speed (vmin t) (vtime t).
Definition cfsetspeed (speed : Z) (t : termios) : termios :=
  cfsetospeed speed
    (Termios (clear IBAUD0 (c_iflag t)) (c_oflag t) (Z.lor (clear CBAUD (c_cflag t)) speed) (c_lflag t) speed (c_ospeed t)
       (vmin t) (vtime t)).

Definition uart_settings (t : termios) : termios :=
  let lflag := clear (Z.lor (Z.lor ICANON ECHO) ECHONL) (c_lflag t) in
  let lflag := clear ISIG lflag in
  let lflag := clear (Z.lor IXON ICRNL) lflag in
  let oflag := clear ONLCR (c_oflag t) in
  let iflag := clear (foldr Z.lor 0 [IXOFF; IXON; IXANY; BRKINT; INLCR; ICRNL; IUCLC; IMAXBEL]) (c_iflag t) in
  let t := Termios iflag oflag (c_cflag t) lflag (c_ispeed t) (c_ospeed t) (vmin t) (vtime t) in
  let t := cfsetospeed B9600 (cfsetspeed B9600 t) in
  let cflag := Z.lor (clear CSIZE (clear CSTOPB (clear PARENB (c_cflag t)))) CS8 in
  Termios (c_iflag t) (c_oflag t) cflag (c_lflag t) (c_ispeed t) (c_ospeed t) 1 0.

Inductive uart_call :=
  | Open (dev : list Z) (flags : Z) | Fcntl (fd flags : Z) | Tcsetattr (fd : Z) (t : termios) | Tcflush (fd : Z).
(** [fd]: what [open] returns; [term]: the structure after [tcgetattr], whose result is not looked
    at. The result and the calls. *)
Definition uart_open (fd : Z) (term : termios) (dev : option (list Z)) : Z * list uart_call :=
  match dev with
  | None => (-1, [])
  | Some dev =>
      let o := Open dev (Z.lor (Z.lor O_RDWR O_NOCTTY) O_NONBLOCK) in
      if fd <? 0 then (fd, [o])
      else (fd, [o; Fcntl fd O_RDWR; Tcsetattr fd (uart_settings term); Tcflush fd])
  end.

(** ** Text *)

(** [iconv_open("UTF-8", "UCS-2BE")] succeeds; [iconv]: the bytes written and the result, for an
    input and an output space; on the descriptor -1 it fails. *)
Definition unicode_to_utf8 (iconv_open : bool) (iconv : list Z -> Z -> list Z * Z) (inbuf : list Z) (outlen : Z)
    : list Z * Z :=
  if iconv_open then iconv inbuf outlen else ([], -1).

End UtilsSys.

Import Utils Pdu UtilsSys.

(** ** Properties *)

(** *** Addresses *)

(** A statement on every byte, by evaluation. *)
Lemma every_byte (P : Z -> Prop) {dP : forall b, Decision (P b)} :
  forallb (fun b => bool_decide (P b)) (seqZ 0 256) = true -> forall b, is_byte b -> P b.
Proof.
  intros H b Hb. rewrite forallb_forall in H. specialize (H b).
  apply (bool_decide_eq_true_1 _), H, list_elem_of_In, elem_of_seqZ. unfold is_byte in Hb. lia.
Qed.

Lemma dec3_reads b :
  is_byte b -> Forall (fun c => isdigit c = true) (dec_digits 3 b) /\ dec_digits 3 b <> [] /\ no_nul (dec_digits 3 b)
    /\ (length (dec_digits 3 b) <= 3)%nat /\ number 10 (dec_digits 3 b) = b
    /\ (char_at (dec_digits 3 b) = 48 -> dec_digits 3 b = [48]).
Proof.
  intros Hb.
  assert (Forall (fun c => isdigit c = true) (dec_digits 3 b) /\ dec_digits 3 b <> []
    /\ (length (dec_digits 3 b) <= 3)%nat /\ number 10 (dec_digits 3 b) = b
    /\ (char_at (dec_digits 3 b) <> 48 \/ dec_digits 3 b = [48])) as (H1 & H2 & H3 & H4 & H5).
  { revert b Hb. refine (every_byte _ _). by vm_compute. }
  split_and!; try done; [|by destruct H5].
  intros c Hc ->. rewrite Forall_forall in H1. by specialize (H1 _ Hc).
Qed.

(** A part of an address that was printed in decimal is read back, whatever follows it but a
    digit (and, after a zero, the [x] of a hexadecimal number). *)
Lemma strtoul0_dec3 b rest :
  is_byte b -> isdigit (char_at rest) = false -> char_at rest <> 120 -> char_at rest <> 88 ->
  strtoul0 (dec_digits 3 b ++ rest) = (b, rest).
Proof.
  intros Hb Hr Hx HX. destruct (dec3_reads b Hb) as (Hd & Hne & _ & _ & Hv & Hz).
  assert (forall f ds, (forall c, c ∈ ds -> f c = true) -> f (char_at rest) = false \/ rest = [] ->
    span f (ds ++ rest) = (ds, rest)) as Hspan.
  { intros f ds Hds [Hf| ->]; [|rewrite app_nil_r; by apply span_all].
    destruct rest as [|c r]; [rewrite app_nil_r; by apply span_all|by apply span_stop]. }
  assert (span isdigit (dec_digits 3 b ++ rest) = (dec_digits 3 b, rest)) as Hspd.
  { apply Hspan; [by apply Forall_forall|by left]. }
  destruct (dec_digits 3 b) as [|c ds] eqn:E; [done|].
  destruct (Z.eq_dec c 48) as [-> | Hc].
  - destruct ds as [|? ?]; [|by specialize (Hz eq_refl)]. simpl in Hv. subst b. clear Hspd.
    assert (span isodigit ([48] ++ rest) = ([48], rest)) as Hspo.
    { apply Hspan; [by intros c ->%list_elem_of_singleton|]. left. unfold isdigit, isodigit in *.
      destruct (48 <=? char_at rest) eqn:?; [|done]. simpl in *. btest. apply Z.leb_gt. lia. }
    simpl app in *. unfold strtoul0. destruct rest as [|x r]; [done|]. simpl in Hx, HX.
    rewrite (proj2 (Z.eqb_neq x 120)), (proj2 (Z.eqb_neq x 88)) by done. simpl orb. simpl andb. cbv iota.
    by rewrite Hspo.
  - assert (forall s, s = (c :: ds) ++ rest -> strtoul0 s = let '(ds, rest) := span isdigit s in (number 10 ds, rest)) as ->.
    { intros s ->. simpl. unfold strtoul0. destruct c as [|q|q]; try done.
      repeat (destruct q as [q|q|]; try done). }
    + rewrite Hspd. by rewrite Hv.
    + done.
Qed.

Lemma lor_disjoint a n b : 0 <= n -> 0 <= a < 2 ^ n -> Z.lor a (b * 2 ^ n) = a + b * 2 ^ n.
Proof.
  intros Hn Ha. rewrite <- Z.shiftl_mul_pow2 by done.
  assert (Z.land a (Z.shiftl b n) = 0) as H0; [|by rewrite <- Z.lxor_lor, Z.add_nocarry_lxor].
  destruct (Z.eq_dec a 0) as [->|]; [by rewrite Z.land_0_l|].
  apply Z.bits_inj'. intros i Hi. rewrite Z.land_spec, Z.shiftl_spec, Z.bits_0 by done.
  destruct (Z.lt_ge_cases i n); [by rewrite (Z.testbit_neg_r b (i - n)), andb_false_r by lia|].
  rewrite (Z.bits_above_log2 a i); [done|lia|].
  apply Z.lt_le_trans with n; [apply Z.log2_lt_pow2|]; lia.
Qed.

(** The last part and the parts before it. *)
Lemma aton_part n b rest pp :
  is_byte b -> (length pp <= 2)%nat ->
  inet_aton_loop (S n) (dec_digits 3 b ++ 46 :: rest) pp = inet_aton_loop n rest (pp ++ [b]).
Proof.
  intros Hb Hp. pose proof (strtoul0_dec3 b (46 :: rest) Hb ltac:(done) ltac:(simpl; lia) ltac:(simpl; lia)) as Hs.
  destruct (dec3_reads b Hb) as (Hd & Hne & _). cbn [inet_aton_loop]. rewrite Hs.
  assert (isdigit (char_at (dec_digits 3 b ++ 46 :: rest)) = true) as ->.
  { destruct (dec_digits 3 b); [done|]. by apply Forall_cons in Hd as [? _]. }
  unfold is_byte in Hb. cbn [char_at tail negb]. change (46 =? 46) with true. cbv iota.
  rewrite (proj2 (Z.ltb_ge 4294967295 b)), (proj2 (Z.ltb_ge 255 b)), (proj2 (Z.ltb_ge 2 (zlen pp))) by (unfold zlen; lia). done.
Qed.

Lemma aton_last n b pp :
  is_byte b -> length pp = 3%nat -> Forall is_byte pp ->
  inet_aton_loop (S n) (dec_digits 3 b) pp = Some (of_le32 (pp ++ [b])).
Proof.
  intros Hb Hp Hpp. pose proof (strtoul0_dec3 b [] Hb ltac:(done) ltac:(simpl; lia) ltac:(simpl; lia)) as Hs.
  destruct (dec3_reads b Hb) as (Hd & Hne & _). rewrite app_nil_r in Hs. cbn [inet_aton_loop]. rewrite Hs.
  assert (isdigit (char_at (dec_digits 3 b)) = true) as ->.
  { destruct (dec_digits 3 b); [done|]. by apply Forall_cons in Hd as [? _]. }
  unfold is_byte in Hb. unfold zlen. rewrite Hp. cbn [char_at negb].
  change (2 ^ (32 - 8 * Z.of_nat 3) - 1) with 255. rewrite (proj2 (Z.ltb_ge 4294967295 b)), (proj2 (Z.ltb_ge 255 b)) by lia.
  change (0 =? 46) with false. change (0 =? 0) with true. cbn [negb andb]. cbv iota. f_equal.
  destruct pp as [|x [|y [|z [|]]]]; try done. repeat (apply Forall_cons in Hpp as [? Hpp]). unfold is_byte in *. simpl.
  assert (htonl b = b * 2 ^ 24) as ->.
  { unfold htonl, le32. cbn [rev app of_le32]. rewrite !(Z.div_small b), (Z.mod_small b) by lia. change (0 mod 256) with 0. lia. }
  rewrite lor_disjoint by lia. lia.
Qed.

Lemma aton_ntoa x : 0 <= x < W32 -> inet_aton (inet_ntoa x) = Some x.
Proof.
  intros Hx. unfold inet_ntoa, inet_aton. pose proof (le32_bytes x) as Hb. rewrite <- (of_le32_le32 x) at 2 by done.
  destruct (le32 x) as [|a [|b [|c [|d [|]]]]] eqn:E; try (unfold le32 in E; done).
  rewrite !Forall_cons in Hb. destruct Hb as (? & ? & ? & ? & _).
  rewrite !aton_part by (simpl; done || lia). apply aton_last; [done..|]. simpl. by rewrite !Forall_cons, Forall_nil.
Qed.

Lemma ntoa_text x : no_nul (inet_ntoa x) /\ (length (inet_ntoa x) <= 15)%nat.
Proof.
  unfold inet_ntoa. pose proof (le32_bytes x) as Hb.
  destruct (le32 x) as [|a [|b [|c [|d [|]]]]] eqn:E; try (unfold le32 in E; done).
  rewrite !Forall_cons in Hb. destruct Hb as (? & ? & ? & ? & _).
  repeat match goal with H : is_byte ?b |- _ => destruct (dec3_reads b H) as (_ & _ & ? & ? & _); clear H end.
  split; [|repeat (rewrite length_app; cbn [length]); lia].
  assert (forall s t, no_nul s -> no_nul t -> no_nul (s ++ 46 :: t)) as Hj.
  { intros s t Hs Ht y [Hy|[->|Hy]%elem_of_cons]%elem_of_app; [by apply Hs|done|by apply Ht]. }
  by repeat apply Hj.
Qed.

(** What [uinttoipv4] prints is an address of [isipv4], fits in its array with its terminator, and
    is read back by [ipv4touint] as the same number, for every 32-bit number. *)
Theorem ipv4_roundtrip ip :
  0 <= ip < W32 ->
  exists buf, uinttoipv4 ip = Some buf /\ length buf = 64%nat /\ (length (cstr buf) <= 15)%nat /\ ipv4touint (cstr buf) = ip.
Proof.
  intros Hip. unfold uinttoipv4, snprintf, snprintf_at. set (s := inet_ntoa (htonl ip)).
  destruct (ntoa_text (htonl ip)) as [Hn Hl]. fold s in Hn, Hl.
  change ((0 <=? 0) && (0 <=? zlen (replicate 64 0))) with true. cbv iota. change (u64 64 =? 0) with false. cbv iota.
  change (Z.to_nat (u64 64 - 1)) with 63%nat. rewrite (take_ge s) by lia.
  change (drop (Z.to_nat 0) (replicate 64 0)) with (replicate 64 0). change (take (Z.to_nat 0) (replicate 64 0)) with (@nil Z).
  destruct (poke_ok (replicate 64 0) (s ++ [0])) as [-> Hlen].
  { rewrite length_app, length_replicate. simpl. lia. }
  eexists. rewrite !bind_some. split; [done|]. rewrite app_nil_l. split; [by rewrite Hlen|].
  rewrite <- app_assoc. cbn [app]. rewrite cstr_app by done. split; [done|].
  unfold ipv4touint, s. rewrite aton_ntoa by apply htonl_range. by apply ntohl_htonl.
Qed.

Lemma ipv4_roundtrip_witness :
  exists buf, uinttoipv4 3232235777 = Some buf /\ length buf = 64%nat /\ (length (cstr buf) <= 15)%nat
    /\ ipv4touint (cstr buf) = 3232235777.
Proof. apply ipv4_roundtrip. lia. Defined.

(** What [isipv4] accepts is not always the address that [ipv4touint] reads: a section with a
    leading zero is octal there, and an empty one makes it return 0. *)
Lemma isipv4_not_aton :
  isipv4 (Some (str "10.0.0.010")) = 0 /\ ipv4touint (str "10.0.0.010") = 167772168
  /\ isipv4 (Some (str "10...1")) = 0 /\ ipv4touint (str "10...1") = 0
  /\ isipv4 (Some (str "10.0.0.1")) = 0 /\ ipv4touint (str "10.0.0.1") = 167772161.
Proof. by vm_compute. Qed.

(** *** The process *)

(** Of the processes that leave [op_daemon], the one that is the child of a child runs in a
    session that it does not lead, and its standard descriptors are the null device; a failed
    call leaves the descriptors as they were. *)
Lemma op_daemon_spec fork1 fork2 fd p :
  match op_daemon fork1 fork2 fd p with
  | Exit c => c = 0 /\ (0 < fork1 \/ fork1 = 0 /\ 0 < fork2)
  | Return p' =>
      if (fork1 =? 0) && (fork2 =? 0) && (0 <=? fd)
      then session p' = true /\ generation p' = S (S (generation p))
           /\ (forall i, 0 <= i <= 2 -> fds p' !! i = Some DevNull)
           /\ (forall i, ~ 0 <= i <= 2 -> i <> fd -> fds p' !! i = fds p !! i)
      else fds p' = fds p
  end.
Proof.
  unfold op_daemon, forked. destruct (Z.eqb_spec fork1 0) as [->|H1]; simpl.
  2: { repeat bcase; simpl; try done; try lia. }
  destruct (Z.eqb_spec fork2 0) as [->|H2]; simpl.
  2: { repeat bcase; simpl; try done; try lia. }
  bcase; [rewrite (proj2 (Z.leb_gt 0 fd)) by lia; done|]. rewrite (proj2 (Z.leb_le 0 fd)) by lia.
  unfold dup2. simpl. rewrite lookup_insert_eq. simpl.
  assert (forall k (m : gmap Z file), m !! fd = Some DevNull -> <[k := DevNull]> m !! fd = Some DevNull) as Hk.
  { intros k m Hm. destruct (decide (k = fd)) as [->|]; [by rewrite lookup_insert_eq|by rewrite lookup_insert_ne]. }
  rewrite (Hk 0) by (by rewrite lookup_insert_eq). simpl. rewrite (Hk 1) by (apply Hk; by rewrite lookup_insert_eq). simpl.
  split_and!; [done|done|..].
  - intros i Hi. assert (i = 0 \/ i = 1 \/ i = 2) as [->|[->| ->]] by lia; by simplify_map_eq.
  - intros i Hi Hf. by rewrite !lookup_insert_ne by lia.
Qed.

(** *** Signals *)

Lemma dump_trace_table syms frames s : table (dump_trace syms frames s) = table s.
Proof. unfold dump_trace. by destruct syms. Qed.
Lemma dump_trace_out syms frames s : (length (out s) < length (out (dump_trace syms frames s)))%nat.
Proof. unfold dump_trace. destruct syms; simpl; rewrite length_app; simpl; lia. Qed.

(** The handler of [signal_segvdump] returns to the instruction that faulted: the process is never
    killed, and prints a trace every time. *)
Theorem segv_repeats n syms frames s :
  exists s', faulting n syms frames (signal_segvdump s) = Some s' /\ (length (out s) + n <= length (out s'))%nat.
Proof.
  assert (table (signal_segvdump s) !! SIGSEGV = Some Dump_trace) as H by (simpl; by rewrite lookup_insert_eq).
  change (out s) with (out (signal_segvdump s)). generalize dependent (signal_segvdump s). clear s.
  induction n as [|n IH]; intros s H; [exists s; simpl; split; [done|lia]|].
  simpl. rewrite H. destruct (IH (dump_trace syms frames s)) as (s' & Hs & Hl); [by rewrite dump_trace_table|].
  exists s'. split; [done|]. pose proof (dump_trace_out syms frames s). lia.
Qed.

(** *** Printing *)

(** Reading two digits per byte. *)
Fixpoint unhex (s : list Z) : list Z :=
  match s with
  | a :: b :: r => digit_of a * 16 + digit_of b :: unhex r
  | _ => []
  end.

Lemma hex_pair b :
  is_byte b -> (exists x y, fmt_02x b = [x; y] /\ digit_of x * 16 + digit_of y = b)
    /\ (exists x y, fmt_02X b = [x; y] /\ digit_of x * 16 + digit_of y = b).
Proof.
  intros Hb. assert (exists x y, fmt_02X b = [x; y] /\ digit_of x * 16 + digit_of y = b) as HX.
  { assert (unhex (fmt_02X b) = [b] /\ length (fmt_02X b) = 2%nat) as [H1 H2].
    { revert b Hb. refine (every_byte _ _). by vm_compute. }
    destruct (fmt_02X b) as [|x [|y [|]]]; try done. exists x, y. split; [done|]. by injection H1. }
  split; [|done]. unfold fmt_02x. eexists _, _. split; [done|]. revert b Hb HX. intros b Hb _. revert b Hb.
  refine (every_byte _ _). by vm_compute.
Qed.

(** Both hexadecimal printers write a text that determines the bytes, and end the line. *)
Theorem print_hex_roundtrip d size :
  Forall is_byte d -> 0 < size <= zlen d ->
  exists t T, print_hex (Some d) size = Some (t ++ [10]) /\ print_HEX (Some d) size = Some (T ++ [10])
    /\ unhex t = take (Z.to_nat size) d /\ unhex T = take (Z.to_nat size) d.
Proof.
  intros Hd Hs. unfold print_hex, print_HEX, print_bytes. repeat (bcase; [lia|]).
  eexists _, _. split; [done|]. split; [done|]. apply (Forall_take _ (Z.to_nat size)) in Hd.
  revert Hd. generalize (take (Z.to_nat size) d). clear. induction 1 as [|b l Hb Hl [IH1 IH2]]; [done|].
  destruct (hex_pair b Hb) as [(x & y & E & Hv) (X & Y & E' & Hv')].
  rewrite !fmap_cons. cbn [concat]. rewrite E, E'. cbn [app unhex]. by rewrite IH1, IH2, Hv, Hv'.
Qed.

Lemma print_hex_roundtrip_witness :
  exists t T, print_hex (Some [0; 171; 255; 7]) 3 = Some (t ++ [10]) /\ print_HEX (Some [0; 171; 255; 7]) 3 = Some (T ++ [10])
    /\ unhex t = [0; 171; 255] /\ unhex T = [0; 171; 255].
Proof.
  apply (print_hex_roundtrip [0; 171; 255; 7] 3); [|vm_compute; split; congruence].
  rewrite !Forall_cons, Forall_nil. unfold is_byte. lia.
Defined.

(** *** The serial port *)

Section Flags.
Implicit Types (x f g : Z).

Lemma clear_ldiff f x : 0 <= x < W32 -> clear f x = Z.ldiff x f.
Proof.
  intros Hx. unfold clear, u32. change W32 with (2 ^ 32). rewrite <- Z.land_ones by lia.
  apply Z.bits_inj'. intros i Hi. rewrite Z.ldiff_spec, !Z.land_spec, Z.lnot_spec by done.
  destruct (Z.lt_ge_cases i 32); [by rewrite Z.ones_spec_low, andb_true_r by lia|].
  rewrite <- (Z.mod_small x (2 ^ 32)) by done. by rewrite Z.mod_pow2_bits_high by lia.
Qed.
Lemma ldiff_range f x : 0 <= x < W32 -> 0 <= Z.ldiff x f < W32.
Proof.
  intros Hx. rewrite <- clear_ldiff by done. unfold clear. split; [apply Z.land_nonneg; lia|].
  change W32 with (2 ^ 32) in *. rewrite <- (Z.mod_small x (2 ^ 32)) by done. rewrite <- Z.land_ones by lia.
  rewrite <- Z.land_assoc, (Z.land_comm (Z.ones 32)), Z.land_assoc, Z.land_ones by lia. by apply Z.mod_pos_bound.
Qed.
Lemma clear_range f x : 0 <= x < W32 -> 0 <= clear f x < W32.
Proof. intros Hx. rewrite clear_ldiff by done. by apply ldiff_range. Qed.
(** Clearing twice, and looking at flags of which some were cleared. *)
Lemma ldiff_twice x f g : Z.ldiff (Z.ldiff x f) g = Z.ldiff x (Z.lor f g).
Proof. by rewrite Z.ldiff_ldiff_l. Qed.
Lemma land_ldiff x f g : Z.land (Z.ldiff x f) g = Z.land x (Z.ldiff g f).
Proof.
  apply Z.bits_inj'. intros i Hi. rewrite !Z.land_spec, !Z.ldiff_spec.
  destruct (Z.testbit x i), (Z.testbit f i), (Z.testbit g i); done.
Qed.
Lemma lor_range x f : 0 <= x < W32 -> 0 <= f < W32 -> 0 <= Z.lor x f < W32.
Proof.
  intros Hx Hf. split; [apply Z.lor_nonneg; lia|]. change W32 with (2 ^ 32) in *.
  destruct (Z.eq_dec (Z.lor x f) 0) as [->|]; [done|].
  apply Z.log2_lt_pow2; [pose proof (proj2 (Z.lor_nonneg x f) ltac:(lia)); lia|]. rewrite Z.log2_lor by lia.
  assert (forall y, 0 <= y < 2 ^ 32 -> Z.log2 y < 32) as H; [|apply Z.max_lub_lt; by apply H].
  intros y Hy. destruct (Z.eq_dec y 0) as [->|]; [done|]. apply Z.log2_lt_pow2; lia.
Qed.
(** The control flags after the changes of the speed and of the format. *)
Lemma uart_cflag c :
  0 <= c < W32 ->
  clear CSIZE (clear CSTOPB (clear PARENB
    (Z.lor (clear CBAUD (Z.lor (clear CBAUD (Z.lor (clear CBAUD c) B9600)) B9600)) B9600)))
  = Z.lor (Z.ldiff c (CSIZE + PARENB + CSTOPB + CBAUD)) B9600.
Proof.
  intros Hc.
  assert (forall y, 0 <= y < W32 -> Z.lor (clear CBAUD y) B9600 = Z.lor (Z.ldiff y CBAUD) B9600
    /\ 0 <= Z.lor (Z.ldiff y CBAUD) B9600 < W32) as Hb.
  { intros y Hy. rewrite clear_ldiff by done. split; [done|]. apply lor_range; [by apply ldiff_range|done]. }
  destruct (Hb c Hc) as [-> H1], (Hb _ H1) as [-> H2], (Hb _ H2) as [-> H3].
  rewrite !clear_ldiff by eauto using clear_range, ldiff_range. rewrite !ldiff_twice.
  apply Z.bits_inj'. intros i Hi. repeat (rewrite Z.lor_spec || rewrite Z.ldiff_spec).
  destruct (Z.lt_ge_cases i 13) as [Hlt|Hge].
  - assert (i ∈ seqZ 0 13) as Hin by (apply elem_of_seqZ; lia). clear -Hin. cbv in Hin.
    repeat (apply elem_of_cons in Hin as [->|Hin]; [by destruct (Z.testbit c _)|]). by apply elem_of_nil in Hin.
  - assert (forall k, 0 <= k < 2 ^ 13 -> Z.testbit k i = false) as Hk.
    { intros k Hk. rewrite <- (Z.mod_small k (2 ^ 13)) by done. by apply Z.mod_pow2_bits_high. }
    rewrite (Hk CBAUD), (Hk B9600), (Hk PARENB), (Hk CSTOPB), (Hk CSIZE), (Hk (CSIZE + PARENB + CSTOPB + CBAUD)) by done.
    by destruct (Z.testbit c i).
Qed.
End Flags.

Definition word_flags (t : termios) : Prop :=
  0 <= c_iflag t < W32 /\ 0 <= c_oflag t < W32 /\ 0 <= c_cflag t < W32 /\ 0 <= c_lflag t < W32.

(** What [uart_open] sets up: no line editing, echo or signals, no translation or flow control, 8
    data bits without parity and one stop bit at 9600 baud, reads of at least one byte; every flag
    it does not name stays, but two of the local flags ([TOSTOP], 256, and [ECHOPRT], 1024) are
    cleared too, because [IXON] and [ICRNL] are taken out of the wrong word. *)
Theorem uart_settings_raw t :
  word_flags t ->
  let t' := uart_settings t in
  c_lflag t' = Z.ldiff (c_lflag t) (ICANON + ECHO + ECHONL + ISIG + 256 + 1024)
  /\ c_oflag t' = Z.ldiff (c_oflag t) ONLCR
  /\ c_iflag t' = Z.ldiff (c_iflag t) (IXOFF + IXON + IXANY + BRKINT + INLCR + ICRNL + IUCLC + IMAXBEL + IBAUD0)
  /\ Z.land (c_cflag t') CSIZE = CS8 /\ Z.land (c_cflag t') PARENB = 0 /\ Z.land (c_cflag t') CSTOPB = 0
  /\ Z.land (c_cflag t') CBAUD = B9600 /\ c_ispeed t' = B9600 /\ c_ospeed t' = B9600
  /\ (forall f, Z.land f (CSIZE + PARENB + CSTOPB + CBAUD) = 0 -> Z.land (c_cflag t') f = Z.land (c_cflag t) f)
  /\ vmin t' = 1 /\ vtime t' = 0.
Proof.
  intros (Hi & Ho & Hc & Hl). unfold uart_settings, cfsetspeed, cfsetospeed.
  cbn [c_iflag c_oflag c_cflag c_lflag c_ispeed c_ospeed vmin vtime]. rewrite uart_cflag by done.
  rewrite !clear_ldiff by eauto using clear_range, ldiff_range. rewrite !ldiff_twice.
  split_and!; try done; try (rewrite !Z.land_lor_distr_l, land_ldiff;
    match goal with |- context [Z.ldiff ?g ?f] => change (Z.ldiff g f) with 0 end; by rewrite Z.land_0_r).
  intros f Hf. set (m := CSIZE + PARENB + CSTOPB + CBAUD) in *.
  apply Z.bits_inj'. intros i Hi'. apply (f_equal (fun x => Z.testbit x i)) in Hf. rewrite Z.land_spec, Z.bits_0 in Hf.
  assert (Z.land B9600 m = B9600 /\ Z.land CS8 m = CS8) as [H1 H2] by done.
  apply (f_equal (fun x => Z.testbit x i)) in H1, H2. rewrite Z.land_spec in H1, H2.
  repeat (rewrite Z.land_spec || rewrite Z.lor_spec || rewrite Z.ldiff_spec).
  destruct (Z.testbit m i), (Z.testbit f i), (Z.testbit B9600 i), (Z.testbit CS8 i), (Z.testbit (c_cflag t) i); done.
Qed.
