(* ===== verification/Starting.v ===== *)
(** * Start functions that are overtaken by what they start

    The start functions of the modules make one call after the other and give up at the first
    refusal. Some start a thread on the way, whose work from then on interleaves with the calls
    that are left. This file has the sequence of calls, its interleaving with events, and the
    argument by which the modules show when the two get in each other's way. *)

From S2P Require Import Prelude.
From stdpp Require Import base tactics numbers list.
From Stdlib Require Import Lia.

Module Starting.

Section Calls.
Context {C : Type}.

(** One call on the structure that is set up: whether the function goes on. The outer [None] is a
    null pointer that is followed. *)
Definition call : Type := C -> option (bool * C).
Definition check (r : Z) : call := fun c => Some (Z.eqb r 0, c).

(** The whole function with nothing in between: it succeeds, and the structure. *)
Fixpoint run_calls (l : list call) (c : C) : option (bool * C) :=
  match l with
  | [] => Some (true, c)
  | f :: l => '(ok, c) ← f c; if ok : bool then run_calls l c else Some (false, c)
  end.

Lemma run_calls_ok (f : call) l c c' : f c = Some (true, c') -> run_calls (f :: l) c = run_calls l c'.
Proof. intros H. cbn [run_calls]. by rewrite H. Qed.
Lemma run_calls_stop (f : call) l c c' : f c = Some (false, c') -> run_calls (f :: l) c = Some (false, c').
Proof. intros H. cbn [run_calls]. by rewrite H. Qed.

(** Under way: the calls to come, the result once there is one, and the structure. *)
Record start := Start { todo : list call; result : option bool; st : C }.

Inductive event (E : Type) := Main | Other (e : E).
#[global] Arguments Main {E}.
#[global] Arguments Other {E} _.

(** [fail]: what is done at the label for failures; [handle]: what the thread does. *)
Context {E : Type} (fail : C -> C) (handle : E -> C -> option C).
Definition step (e : event E) (s : start) : option start :=
  match e with
  | Main =>
      match result s, todo s with
      | Some _, _ => Some s
      | None, [] => Some (Start [] (Some true) (st s))
      | None, f :: l =>
          '(ok, c) ← f (st s);
          Some (if ok : bool then Start l None c else Start l (Some false) (fail c))
      end
  | Other e => c ← handle e (st s); Some (Start (todo s) (result s) c)
  end.
Fixpoint run (l : list (event E)) (s : start) : option start :=
  match l with [] => Some s | e :: l => s ← step e s; run l s end.

(** The steps of the function in a sequence. *)
Fixpoint mains (l : list (event E)) : nat :=
  match l with [] => 0 | Main :: l => S (mains l) | Other _ :: l => mains l end.

(** ** The argument *)

(** [legal]: the events that are considered; [inv n]: what holds after [n] steps of the function;
    [fatal n e]: the event is not survived then; [gain]: what it adds to a count otherwise. *)
Context (legal : E -> Prop) (inv : nat -> start -> Prop) (fatal : nat -> E -> bool) (size : C -> nat) (gain : nat -> E -> nat).
Hypothesis main_ok : forall n s, inv n s -> exists s', step Main s = Some s' /\ inv (S n) s' /\ size (st s') = size (st s).
Hypothesis event_ok : forall n s e, legal e -> inv n s ->
  if fatal n e then step (Other e) s = None
  else exists s', step (Other e) s = Some s' /\ inv n s' /\ (size (st s') = size (st s) + gain n e)%nat.

Fixpoint gains (n : nat) (l : list (event E)) : nat :=
  match l with
  | [] => 0
  | Main :: l => gains (S n) l
  | Other e :: l => gain n e + gains n l
  end.

Definition all_legal (l : list (event E)) : Prop := forall e, Other e ∈ l -> legal e.

Lemma run_window l : forall n s,
  all_legal l -> inv n s ->
  match run l s with
  | None => exists l1 e l2, l = l1 ++ Other e :: l2 /\ fatal (n + mains l1) e = true
  | Some s' => (forall l1 e l2, l = l1 ++ Other e :: l2 -> fatal (n + mains l1) e = false)
      /\ inv (n + mains l) s' /\ (size (st s') = size (st s) + gains n l)%nat
  end.
Proof using main_ok event_ok.
  induction l as [|e l IH]; intros n s Hl Hi.
  { simpl. rewrite Nat.add_0_r. split; [intros [|? l1] ? ?; done|]. split; [done|lia]. }
  assert (all_legal l) as Hl' by (intros x Hx; apply Hl; by right).
  cbn [run]. destruct e as [|e].
  - destruct (main_ok n s Hi) as (s1 & Hs1 & Hi1 & El). rewrite Hs1, bind_some.
    specialize (IH (S n) s1 Hl' Hi1). cbn [mains gains]. destruct (run l s1).
    + destruct IH as (H1 & H2 & H3). rewrite El in H3. replace (n + S (mains l))%nat with (S n + mains l)%nat by lia.
      split; [|done]. intros [|e1 l1] e l2; [done|]. intros [= <- ->]. cbn [mains].
      replace (n + S (mains l1))%nat with (S n + mains l1)%nat by lia. by apply (H1 l1 e l2).
    + destruct IH as (l1 & e & l2 & -> & Hf). exists (Main :: l1), e, l2. split; [done|]. cbn [mains].
      by replace (n + S (mains l1))%nat with (S n + mains l1)%nat by lia.
  - pose proof (event_ok n s e (Hl e ltac:(by left)) Hi) as Hstep. destruct (fatal n e) eqn:Ef.
    { rewrite Hstep. exists [], e, l. simpl. by rewrite Nat.add_0_r. }
    destruct Hstep as (s1 & Hs1 & Hi1 & El). rewrite Hs1, bind_some. specialize (IH n s1 Hl' Hi1). cbn [mains gains].
    destruct (run l s1).
    + destruct IH as (H1 & H2 & H3). rewrite El in H3. split; [|split; [done|lia]].
      intros [|e1 l1] e' l2; [intros [= <- _]; simpl; by rewrite Nat.add_0_r|]. intros [= <- ->]. by apply (H1 l1 e' l2).
    + destruct IH as (l1 & e' & l2 & -> & Hf). by exists (Other e :: l1), e', l2.
Qed.
End Calls.
Arguments call : clear implicits.
Arguments start : clear implicits.

Lemma one_event {E} n (c : E) l1 e l2 : replicate n Main ++ [Other c] = l1 ++ Other e :: l2 -> mains l1 = n.
Proof.
  revert l1. induction n as [|n IH]; intros [|x l1]; simpl; try done.
  - by intros [= _ ?%app_cons_not_nil].
  - intros [= <- Hl]. simpl. by rewrite (IH l1).
Qed.

(** ** What is set up after a number of calls *)

(** [ms]: the part each call sets up, if it sets one up. *)
Section Parts.
Context {P : Type} `{EqDecision P} (ms : list (option P)).
Definition parts_after (n : nat) : list P := reverse (omap id (take n ms)).

Lemma parts_after_S n o : ms !! n = Some o -> parts_after (S n) = match o with Some p => p :: parts_after n | None => parts_after n end.
Proof. intros H. unfold parts_after. rewrite (take_S_r _ _ _ H), omap_app, reverse_app. by destruct o. Qed.
Lemma parts_after_all n : (length ms <= n)%nat -> parts_after n = parts_after (length ms).
Proof. intros H. unfold parts_after. by rewrite !take_ge by lia. Qed.

Lemma part_at p k n :
  ms !! k = Some (Some p) -> Some p ∉ take k ms -> bool_decide (p ∈ parts_after n) = (k <? n)%nat.
Proof.
  intros Hk Hno. unfold parts_after.
  assert (p ∈ reverse (omap id (take n ms)) <-> Some p ∈ take n ms) as Hin.
  { rewrite elem_of_reverse, list_elem_of_omap. split; [intros (o & Ho & Hp); unfold id in Hp; by subst o|by exists (Some p)]. }
  destruct (Nat.ltb_spec k n) as [Hlt|Hge].
  - apply bool_decide_eq_true, Hin, elem_of_take. eauto.
  - apply bool_decide_eq_false. intros Hp%Hin. apply Hno.
    apply elem_of_take in Hp as (i & Hi & Hi'). apply elem_of_take. exists i. split; [done|lia].
Qed.
End Parts.

End Starting.
