(* ===== verification/OpCliStart.v ===== *)
(** * base/opcli.c: the start of the console

    [opcli_init] as the sequence of its calls, each of which can be refused, and its interleaving
    with the thread it starts on the way: from then on a client that connects is handled by
    [opcli_job] on a structure that is not complete. A result [None] is a null pointer that is
    followed or a signal to a thread that was never made. *)

From S2P Require Import Prelude KeyTable CString Utils Vector VtyTerm VtyCmd VtyExec Vty OpCli Usock Starting.
From stdpp Require Import base tactics numbers list gmap strings.
From Stdlib Require Import ZArith Lia.
Open Scope Z_scope.

Module OpCliStart.
Import Utils OpCli Starting.

(** The fields of [struct _opcli_struct] that are null or zero until a call sets them up. *)
Inductive part :=
  | Self | NodeLock | Base | Ev | Listening | AcceptThread | JobList | JobLock | JobBase | JobThread.
#[export] Instance part_eq_dec : EqDecision part.
Proof. solve_decision. Defined.

Section Start.
Context {M T : Type} `{!KeyTable T (node_key (M := M))}.
Notation console := (_opcli_struct (M := M) (T := T)).

Record cli := Cli {
  ip : list Z; port : Z; nodes : console; sock_fd : Z; socks : Usock.world;
  parts : list part; clients : list _cli_client
}.
Definition has (p : part) (c : cli) : bool := bool_decide (p ∈ parts c).
Definition add (p : part) (c : cli) : cli :=
  Cli (ip c) (port c) (nodes c) (sock_fd c) (socks c) (p :: parts c) (clients c).
Definition with_clients (l : list _cli_client) (c : cli) : cli :=
  Cli (ip c) (port c) (nodes c) (sock_fd c) (socks c) (parts c) l.

(** The configuration: [opcli:ip] and [opcli:port] (-1 where there is none). *)
Record conf := Conf { c_ip : option (list Z); c_port : Z }.

(** What the calls answer, in the order of the calls; 0 is success for the pthread functions, and
    [true] for the others. *)
Record answers := Answers {
  a_calloc : bool; a_conf : option conf; a_nodeattr : Z; a_nodelock : Z; a_mem : bool; a_tables : list (option T);
  a_base : bool; a_ev : bool; a_add : Z; a_attr : Z; a_thread : Z; a_jobattr : Z; a_joblock : Z; a_jobbase : bool;
  a_jobthreadattr : Z; a_jobthread : Z
}.

Notation call := (Starting.call cli).
Definition set (ok : bool) (p : part) : call := fun c => Some (if ok then (true, add p c) else (false, c)).

Definition read_conf (a : answers) : call := fun c =>
  match a_conf a with
  | None => Some (false, c)
  | Some k =>
      match c_ip k with
      | None => Some (false, c)
      | Some name =>
          let c := Cli (take 15 name) (port c) (nodes c) (sock_fd c) (socks c) (parts c) (clients c) in
          if c_port k <? 0 then Some (false, c)
          else Some (true, Cli (ip c) (u16 (c_port k)) (nodes c) (sock_fd c) (socks c) (parts c) (clients c))
      end
  end.
(** [vty_init] cannot fail; it makes the vector of nodes that [opcli_new] has. *)
Definition init_nodes (a : answers) : call := fun c =>
  '(r, n) ← opcli_node_init (a_mem a) (a_tables a) (nodes c);
  Some (negb (r <? 0), Cli (ip c) (port c) n (sock_fd c) (socks c) (parts c) (clients c)).
(** [getaddrinfo]: the addresses for the name and the port. *)
Variable getaddrinfo : list Z -> list Z -> option (list Usock.addrinfo).
Definition open_socket : call := fun c =>
  let found := Usock.usock_port (port c) ≫= getaddrinfo (ip c) in
  let '(fd, w) := Usock.usock found (Z.lor (Z.lor Usock.USOCK_IPV4ONLY Usock.USOCK_TCP) Usock.USOCK_SERVER) (ip c) (socks c) in
  Some (negb (fd <? 0), Cli (ip c) (port c) (nodes c) fd w (parts c) (clients c)).
(** [INIT_LIST_HEAD]. *)
Definition init_list : call := fun c => Some (true, with_clients [] (add JobList c)).

Definition opcli_init_calls (a : answers) : list call :=
  [set (a_calloc a) Self; read_conf a;
   check (a_nodeattr a); set (a_nodelock a =? 0) NodeLock; init_nodes a;
   open_socket; set (a_base a) Base; set (a_ev a) Ev; set (0 <=? a_add a) Listening;
   check (a_attr a); set (a_thread a =? 0) AcceptThread;
   init_list; check (a_jobattr a); set (a_joblock a =? 0) JobLock; set (a_jobbase a) JobBase;
   check (a_jobthreadattr a); set (a_jobthread a =? 0) JobThread].

(** The structure before the call, in a process with these sockets. *)
Definition cli_new (w : Usock.world) : cli := Cli [] 0 opcli_new 0 w [] [].

(** The pointer the function returns is not null, and the structure. *)
Definition opcli_init (a : answers) (w : Usock.world) : option (bool * cli) :=
  run_calls (opcli_init_calls a) (cli_new w).

(** ** Clients during the start *)

(** [opcli_job], with memory for the session, on a structure that may be incomplete: [list_add]
    follows the [next] of the head of the list, and [pthread_kill] the number of the thread. *)
Definition opcli_job_on (env : job_env) (c : cli) : option cli :=
  if accept_ env <? 0 then Some c
  else if negb (calloc_client env) then Some c
  else if negb (event_new_ env) then Some c
  else if negb (has JobList c) then None
  else if event_add_ env <? 0 then Some c
  else if negb (has JobThread c) then None
  else l ← opcli_job env (cmdvec (nodes c)) (clients c); Some (with_clients l c).

(** A client waits until the thread runs and the socket is watched. *)
Definition connection (env : job_env) (c : cli) : option cli :=
  if has AcceptThread c && has Listening c then opcli_job_on env c else Some c.
(** The label [exit] only returns. *)
Definition run_start : list (event job_env) -> start cli -> option (start cli) := run id connection.
Definition start_of (a : answers) (w : Usock.world) : start cli := Start (opcli_init_calls a) None (cli_new w).

Definition opcli_exit (cli : option cli) : unit := ().
End Start.
End OpCliStart.
