(* ===== verification/OpCliStartSpec.v ===== *)
(** * The start of the console: the window in which a client brings the server down

    With every call of [opcli_init] answered well, a sequence of its calls and of connections in
    any order is followed by an invariant that says what is set up after [n] calls. It fails
    exactly where a client is accepted between the start of the thread that accepts and the last
    call. *)

From S2P Require Import Prelude KeyTable CString Utils Vector VtyTerm VtyCmd VtyExec VtyFormat Vty VtySpec OpCli OpCliSpec Usock Starting OpCliStart.
From stdpp Require Import base tactics numbers list gmap strings.
From Stdlib Require Import ZArith Lia.
Import Utils OpCli Starting OpCliStart.
Open Scope Z_scope.

Section Window.
Context {M T : Type} `{!KeyTable T (node_key (M := M)), !KeyTableLaws T (node_key (M := M))}.
Context (getaddrinfo : list Z -> list Z -> option (list Usock.addrinfo)).
Implicit Types (a : answers (T := T)) (s : start (cli (M := M) (T := T))) (l : list (event job_env)) (w : Usock.world).
Notation calls := (opcli_init_calls getaddrinfo).

(** Every call is answered well. *)
Definition willing a w : Prop :=
  a_calloc a = true
  /\ (exists name p, a_conf a = Some (Conf (Some name) p) /\ 0 <= p
      /\ 0 <= fst (Usock.usock (Usock.usock_port (u16 p) ≫= getaddrinfo (take 15 name))
                     (Z.lor (Z.lor Usock.USOCK_IPV4ONLY Usock.USOCK_TCP) Usock.USOCK_SERVER) (take 15 name) w))
  /\ a_nodeattr a = 0 /\ a_nodelock a = 0 /\ a_mem a = true
  /\ length (a_tables a) = 4%nat /\ Forall (fun o => exists t, o = Some t /\ kt_wf t /\ kt_items t = []) (a_tables a)
  /\ a_base a = true /\ a_ev a = true /\ 0 <= a_add a /\ a_attr a = 0 /\ a_thread a = 0 /\ a_jobattr a = 0
  /\ a_joblock a = 0 /\ a_jobbase a = true /\ a_jobthreadattr a = 0 /\ a_jobthread a = 0.

(** The connection is taken as far as the list of clients. *)
Definition arrives (env : job_env) : bool := (0 <=? accept_ env) && calloc_client env && event_new_ env.
Notation step := (step id connection).

(** What the calls set up, in order. *)
Definition milestones : list (option part) :=
  [Some Self; None; None; Some NodeLock; None; None; Some Base; Some Ev; Some Listening; None; Some AcceptThread;
   Some JobList; None; Some JobLock; Some JobBase; None; Some JobThread].
Notation parts_after := (Starting.parts_after milestones).

(** After [n] steps of the function. *)
Record inv a w (n : nat) s : Prop := Inv {
  inv_todo : todo s = drop n (calls a);
  inv_result : result s = if (n <=? 17)%nat then None else Some true;
  inv_parts : parts (st s) = parts_after n;
  inv_nodes : if (n <=? 4)%nat then nodes (st s) = opcli_new else nodes_ok 4 (nodes (st s));
  inv_sock : (n <= 5)%nat -> socks (st s) = w;
  inv_conf : (2 <= n)%nat -> exists name p, a_conf a = Some (Conf (Some name) p) /\ ip (st s) = take 15 name /\ port (st s) = u16 p;
  inv_none : (n <= 16)%nat -> clients (st s) = [];
  inv_clients : Forall (client_ok (nodes (st s))) (clients (st s))
}.

Lemma cli_inv_start a w : inv a w 0 (start_of getaddrinfo a w).
Proof. split; try done; lia. Qed.

Lemma inv_has a w n s p : inv a w n s -> has p (st s) = bool_decide (p ∈ parts_after n).
Proof. intros H. unfold has. by rewrite (inv_parts _ _ _ _ H). Qed.

(** A call that only sets up a part, or nothing. *)
Lemma main_call a w n s f c :
  inv a w n s -> (n < 17)%nat -> calls a !! n = Some f -> f (st s) = Some (true, c) ->
  parts c = parts_after (S n) ->
  (if (S n <=? 4)%nat then nodes c = opcli_new else nodes_ok 4 (nodes c)) ->
  ((S n <= 5)%nat -> socks c = w) ->
  ((2 <= S n)%nat -> exists name p, a_conf a = Some (Conf (Some name) p) /\ ip c = take 15 name /\ port c = u16 p) ->
  clients c = [] ->
  exists s', step Main s = Some s' /\ inv a w (S n) s' /\ clients (st s') = clients (st s).
Proof.
  intros [Ht Hr Hp Hn Hs Hc H0 Hcl] Hlt Hf Hcall Hp' Hn' Hs' Hc' Hcl'.
  assert (todo s = f :: drop (S n) (calls a)) as Ht' by (rewrite Ht; exact (drop_S _ _ _ Hf)). clear Ht. rename Ht' into Ht.
  destruct s as [td rs c0]. simpl in *. subst td.
  rewrite (proj2 (Nat.leb_le n 17)) in Hr by lia. subst rs. unfold Starting.step. cbn [todo result st]. rewrite Hcall, bind_some.
  eexists. split; [done|]. split; [|cbn [st]; rewrite Hcl', H0 by lia; done].
  split; cbn [todo result st]; try done; [|by rewrite Hcl'].
  by rewrite (proj2 (Nat.leb_le (S n) 17)) by lia.
Qed.

(** A call that does not touch the configuration, the nodes and the socket. *)
Lemma main_plain a w n s f o c :
  inv a w n s -> n <> 1%nat -> n <> 4%nat -> n <> 5%nat -> calls a !! n = Some f -> milestones !! n = Some o ->
  f (st s) = Some (true, c) -> c = match o with Some p => add p (st s) | None => st s end ->
  exists s', step Main s = Some s' /\ inv a w (S n) s' /\ clients (st s') = clients (st s).
Proof.
  intros Hi H1 H4 H5 Hf Hm Hcall Hc. pose proof (lookup_lt_Some _ _ _ Hm) as Hlt. simpl in Hlt.
  pose proof Hi as [Ht Hr Hp Hn Hs Hconf H0 Hcl].
  assert (nodes c = nodes (st s) /\ socks c = socks (st s) /\ ip c = ip (st s) /\ port c = port (st s)
    /\ clients c = clients (st s)) as (En & Es & Ei & Epo & Ec) by (by subst c; destruct o).
  eapply main_call; [exact Hi|lia|exact Hf|exact Hcall|..].
  - rewrite (parts_after_S _ _ _ Hm), <- Hp. subst c. by destruct o.
  - rewrite En. replace (S n <=? 4)%nat with (n <=? 4)%nat; [done|].
    destruct (Nat.leb_spec n 4), (Nat.leb_spec (S n) 4); done || lia.
  - intros. rewrite Es. apply Hs. lia.
  - intros. rewrite Ei, Epo. apply Hconf. lia.
  - rewrite Ec. apply H0. lia.
Qed.

Lemma main_conf a w s : willing a w -> inv a w 1 s -> exists s', step Main s = Some s' /\ inv a w 2 s' /\ clients (st s') = clients (st s).
Proof.
  intros Hw Hi. pose proof Hi as [Ht Hr Hp Hn Hs Hc H0 Hcl].
  destruct Hw as (_ & (name & p & Hconf & Hport & _) & _).
  eapply main_call; [exact Hi|lia|reflexivity|..].
  - unfold read_conf. rewrite Hconf. simpl. by rewrite (proj2 (Z.ltb_ge p 0)) by lia.
  - exact Hp.
  - exact Hn.
  - intros _. apply Hs. lia.
  - intros _. by exists name, p.
  - apply H0. lia.
Qed.

Lemma main_nodes a w s : willing a w -> inv a w 4 s -> exists s', step Main s = Some s' /\ inv a w 5 s' /\ clients (st s') = clients (st s).
Proof.
  intros Hw Hi. pose proof Hi as [Ht Hr Hp Hn Hs Hc H0 Hcl]. simpl in Hn.
  destruct Hw as (_ & _ & _ & _ & Hm & Hl & Hta & _). destruct (opcli_init_spec (a_tables a) Hl Hta) as (self & Hinit & Hok & _).
  eapply main_call; [exact Hi|lia|reflexivity|..].
  - unfold init_nodes. rewrite Hn, Hm, Hinit, bind_some. reflexivity.
  - exact Hp.
  - exact Hok.
  - intros _. apply Hs. lia.
  - intros _. apply Hc. lia.
  - apply H0. lia.
Qed.

Lemma main_sock a w s : willing a w -> inv a w 5 s -> exists s', step Main s = Some s' /\ inv a w 6 s' /\ clients (st s') = clients (st s).
Proof.
  intros Hw Hi. pose proof Hi as [Ht Hr Hp Hn Hs Hc H0 Hcl]. simpl in Hn.
  destruct Hw as (_ & (name & p & Hconf & _ & Hsock) & _). destruct (Hc ltac:(lia)) as (name' & p' & Hconf' & Hip & Hpo).
  rewrite Hconf in Hconf'. injection Hconf' as <- <-.
  destruct (open_socket getaddrinfo (st s)) as [[ok c]|] eqn:E; unfold open_socket in E;
    rewrite Hip, Hpo, Hs in E by lia; destruct (Usock.usock _ _ _ _) as [fd w'] eqn:Eu; [|done].
  simpl in Hsock. injection E as <- <-.
  eapply main_call; [exact Hi|lia|reflexivity|..].
  - unfold open_socket. rewrite Hip, Hpo, Hs, Eu by lia. by rewrite (proj2 (Z.ltb_ge fd 0)) by lia.
  - exact Hp.
  - exact Hn.
  - intros. lia.
  - intros _. exists name, p. by rewrite <- Hip, <- Hpo.
  - apply H0. lia.
Qed.

Lemma main_step a w n s :
  willing a w -> inv a w n s -> exists s', step Main s = Some s' /\ inv a w (S n) s' /\ clients (st s') = clients (st s).
Proof.
  intros Hw Hi. destruct (decide (n < 17)%nat) as [Hlt|Hge].
  - destruct (decide (n = 1%nat)) as [->|]; [by apply main_conf|].
    destruct (decide (n = 4%nat)) as [->|]; [by apply main_nodes|].
    destruct (decide (n = 5%nat)) as [->|]; [by apply main_sock|].
    destruct Hw as (H1 & _ & H2 & H3 & _ & _ & _ & H7 & H8 & H9 & H10 & H11 & H12 & H13 & H14 & H15 & H16).
    apply Z.leb_le in H9. pose proof (inv_none _ _ _ _ Hi ltac:(lia)) as H0.
    assert (n ∈ seq 0 17) as Hin by (apply elem_of_seq; lia). simpl in Hin. clear Hlt.
    repeat (apply elem_of_cons in Hin as [->|Hin];
      [first [exfalso; lia
        | eapply main_plain; [exact Hi|lia|lia|lia|reflexivity|reflexivity|
            unfold set, check, init_list, with_clients; rewrite ?H1, ?H2, ?H3, ?H7, ?H8, ?H9, ?H10, ?H11, ?H12, ?H13, ?H14, ?H15, ?H16;
            reflexivity|try reflexivity]]|]).
    + unfold with_clients, add. simpl. by rewrite H0.
    + by apply elem_of_nil in Hin.
  - pose proof Hi as [Ht Hr Hp Hn Hs Hc H0 Hcl]. assert (todo s = []) as Ht'.
    { rewrite Ht. apply drop_ge. simpl. lia. }
    unfold Starting.step. rewrite Ht'.
    assert (parts_after (S n) = parts_after n) as Hpa by (by rewrite (parts_after_all _ (S n)), (parts_after_all _ n) by (simpl; lia)).
    assert ((S n <=? 4)%nat = false /\ (n <=? 4)%nat = false) as [E1 E2] by (split; apply Nat.leb_gt; lia).
    destruct (result s) as [r|] eqn:Er; (eexists; split; [done|]); (split; [|done]).
    all: split; rewrite ?Hpa, ?E1; cbn [todo result st]; try done; rewrite ?E2 in Hn; try done; try lia.
    + rewrite Ht'. symmetry. apply drop_ge. simpl. lia.
    + rewrite Er. revert Hr. destruct (Nat.leb_spec n 17); [done|]. intros Hr. by rewrite (proj2 (Nat.leb_gt (S n) 17)) by lia.
    + intros _. apply Hc. lia.
    + symmetry. apply drop_ge. simpl. lia.
    + by rewrite (proj2 (Nat.leb_gt (S n) 17)) by lia.
    + intros _. apply Hc. lia.
Qed.

(** *** A connection *)

(** The connection falls in the window after [n] calls. *)
Definition fatal (n : nat) (env : job_env) : bool :=
  arrives env && ((n =? 11)%nat || ((12 <=? n)%nat && (n <=? 16)%nat && (0 <=? event_add_ env))).
(** The connection gives a client after [n] calls. *)
Definition welcome (n : nat) (env : job_env) : bool := arrives env && (0 <=? event_add_ env) && (17 <=? n)%nat.

Lemma connection_step a w n s env :
  inv a w n s ->
  if fatal n env then step (Other env) s = None
  else exists s', step (Other env) s = Some s' /\ inv a w n s'
       /\ length (clients (st s')) = (length (clients (st s)) + if welcome n env then 1 else 0)%nat.
Proof.
  intros Hi. pose proof Hi as [Ht Hr Hp Hn Hs Hc H0 Hcl]. unfold Starting.step, connection, opcli_job_on.
  rewrite !(inv_has a w n s _ Hi), (part_at _ _ 10), (part_at _ _ 8), (part_at _ _ 11), (part_at _ _ 16) by (done || by apply (bool_decide_unpack _)).
  assert (exists s', Some s = Some s' /\ inv a w n s'
    /\ length (clients (st s')) = (length (clients (st s)) + 0)%nat) as Hsame by (exists s; split_and!; [done|done|lia]).
  assert (forall s0, Start (todo s0) (result s0) (st s0) = s0) as Heta by (by intros []).
  unfold fatal, welcome, arrives. destruct (Nat.ltb_spec 10 n) as [Hge|Hlt]; cbn [andb orb negb].
  2: { rewrite (proj2 (Nat.eqb_neq n 11)), (proj2 (Nat.leb_gt 12 n)), (proj2 (Nat.leb_gt 17 n)) by lia. cbn [andb orb negb].
       rewrite !andb_false_r. by rewrite bind_some, Heta. }
  rewrite (proj2 (Nat.ltb_lt 8 n)) by lia.
  destruct (Z.ltb_spec (accept_ env) 0); [rewrite (proj2 (Z.leb_gt 0 _)) by lia; cbn [andb orb negb]; by rewrite bind_some, Heta|].
  rewrite (proj2 (Z.leb_le 0 (accept_ env))) by lia. cbn [andb orb negb].
  destruct (calloc_client env) eqn:Ecc; cbn [andb orb negb]; [|by rewrite bind_some, Heta].
  destruct (event_new_ env) eqn:Een; cbn [andb orb negb]; [|by rewrite bind_some, Heta].
  destruct (Nat.eqb_spec n 11) as [->|Hne]; [done|]. cbn [andb orb negb].
  rewrite (proj2 (Nat.ltb_lt 11 n)), (proj2 (Nat.leb_le 12 n)) by lia. cbn [andb orb negb].
  destruct (Z.ltb_spec (event_add_ env) 0).
  { rewrite (proj2 (Z.leb_gt 0 (event_add_ env))) by lia. rewrite andb_false_r. cbn [andb orb negb]. by rewrite bind_some, Heta. }
  rewrite (proj2 (Z.leb_le 0 (event_add_ env))) by lia. rewrite andb_true_r. cbn [andb orb negb].
  destruct (Nat.leb_spec n 16) as [Hle|Hgt]; [by rewrite (proj2 (Nat.ltb_ge 16 n)) by lia|].
  rewrite (proj2 (Nat.ltb_lt 16 n)), (proj2 (Nat.leb_le 17 n)) by lia. cbn [andb orb negb].
  rewrite (proj2 (Nat.leb_gt n 4)) in Hn by lia.
  destruct (job_ok (nodes (st s)) env (clients (st s)) Hn Hcl) as (cs & Hjob & Hcs). rewrite Hjob, !bind_some.
  eexists. split; [done|]. split.
  - split; cbn [todo result st]; try done; [|lia]. by rewrite (proj2 (Nat.leb_gt n 4)) by lia.
  - cbn [st with_clients clients]. revert Hjob. unfold opcli_job, opcli_job_accept. rewrite Ecc, Een. rewrite (proj2 (Z.ltb_ge (accept_ env) 0)), (proj2 (Z.ltb_ge (event_add_ env) 0)) by lia.
    cbn [andb orb negb]. rewrite bind_some. cbn beta iota. unfold opcli_job_greet.
    destruct (pthread_kill_ env =? 0); cbn [andb orb negb]; [|by intros [= <-]; simpl; lia].
    rewrite bind_some. cbn [lookup list_lookup]. rewrite bind_some.
    destruct (VtyExec.cmd_prompt _ _); [|done]. rewrite bind_some. destruct (VtyTerm.format _ _); [|done]. rewrite bind_some.
    destruct (opcli_out _ _ _); [|done]. rewrite bind_some. intros [= <-]. simpl. lia.
Qed.

(** *** Sequences *)

Definition served l : nat := gains (fun n env => if welcome n env then 1 else 0)%nat 0 l.
Lemma start_window a w l :
  willing a w ->
  match run_start l (start_of getaddrinfo a w) with
  | None => exists l1 env l2, l = l1 ++ Other env :: l2 /\ fatal (mains l1) env = true
  | Some s => (forall l1 env l2, l = l1 ++ Other env :: l2 -> fatal (mains l1) env = false)
      /\ inv a w (mains l) s /\ length (clients (st s)) = served l
  end.
Proof.
  intros Hw. refine (run_window id connection (fun _ => True) (inv a w) fatal (fun c => length (clients c)) _ _ _ l 0 _ _ (cli_inv_start a w)); [|..|done].
  - intros n s Hi. destruct (main_step a w n s Hw Hi) as (s' & H1 & H2 & H3). exists s'. by rewrite H3.
  - intros n s env _ Hi. exact (connection_step a w n s env Hi).
Qed.

(** Only the calls: the function returns the structure, complete. *)
Lemma opcli_init_starts a w :
  willing a w -> exists c, opcli_init getaddrinfo a w = Some (true, c)
    /\ parts c = parts_after 17 /\ nodes_ok 4 (nodes c) /\ clients c = [].
Proof.
  intros Hw.
  assert (forall k n s, inv a w n s -> (n + k = 17)%nat -> exists c,
    run_calls (drop n (calls a)) (st s) = Some (true, c) /\ parts c = parts_after 17 /\ nodes_ok 4 (nodes c)
    /\ clients c = clients (st s)) as H.
  { induction k as [|k IH]; intros n s Hi Hk; pose proof Hi as [Ht Hr Hp Hn _ _ H0 _].
    - assert (n = 17%nat) as -> by lia. simpl. exists (st s). by split_and!.
    - destruct (lookup_lt_is_Some_2 (calls a) n) as [f Hf]; [simpl; lia|].
      rewrite (drop_S _ _ _ Hf) in Ht |- *. destruct (main_step a w n s Hw Hi) as (s1 & Hs1 & Hi1 & Hc1).
      unfold Starting.step in Hs1. rewrite Hr, Ht in Hs1. rewrite (proj2 (Nat.leb_le n 17)) in Hs1 by lia.
      cbn [run_calls]. destruct (f (st s)) as [[ok c]|] eqn:Ef; rewrite ?Ef in Hs1; [|done]. simpl in Hs1. rewrite bind_some. injection Hs1 as <-.
      pose proof (inv_result _ _ _ _ Hi1) as Hr1. rewrite (proj2 (Nat.leb_le (S n) 17)) in Hr1 by lia. simpl in Hr1.
      destruct ok; [|done]. cbn [st] in Hc1. rewrite <- Hc1.
      apply (IH (S n) _ Hi1). lia. }
  destruct (H 17%nat 0%nat _ (cli_inv_start a w) eq_refl) as (c & H1 & H2 & H3 & H4). by exists c.
Qed.

End Window.

(** C11. With every call of [opcli_init] answered well, whatever the order of its calls and of
    connections: the server goes down exactly when a client is taken as far as the list of clients
    between the start of the accepting thread (the eleventh call) and [INIT_LIST_HEAD], or after
    that and before the second thread exists with its event accepted. Otherwise, once the function
    is through, it has returned a complete console, and there is one client for each connection
    that came after the last call and was not refused. *)
Theorem opcli_start_window {M T : Type} `{!KeyTable T (node_key (M := M)), !KeyTableLaws T (node_key (M := M))}
    getaddrinfo (a : answers (T := T)) w (l : list (event job_env)) :
  willing getaddrinfo a w ->
  match run_start (M := M) l (start_of getaddrinfo a w) with
  | None => exists l1 env l2, l = l1 ++ Other env :: l2 /\ arrives env = true
      /\ (mains l1 = 11%nat \/ (12 <= mains l1 <= 16)%nat /\ 0 <= event_add_ env)
  | Some s => (forall l1 env l2, l = l1 ++ Other env :: l2 -> arrives env = true ->
        mains l1 <> 11%nat /\ ((12 <= mains l1 <= 16)%nat -> event_add_ env < 0))
      /\ ((18 <= mains l)%nat -> result s = Some true /\ parts (st s) = Starting.parts_after milestones 17 /\ server_ok (Server (nodes (st s)) (clients (st s))))
      /\ length (clients (st s)) = served l
  end.
Proof.
  intros Hw. pose proof (start_window getaddrinfo a w l Hw) as H.
  destruct (run_start l _) as [s|].
  - destruct H as (H1 & [_ Hr Hp Hn _ _ _ Hcl] & H3). split; [|split; [|done]].
    + intros l1 env l2 Hl Ha. specialize (H1 l1 env l2 Hl). unfold fatal in H1. rewrite Ha in H1. cbn [andb Nat.add] in H1.
      apply orb_false_iff in H1 as [H1 H2]. apply Nat.eqb_neq in H1. split; [lia|]. intros Hm.
      rewrite (proj2 (Nat.leb_le 12 _)), (proj2 (Nat.leb_le _ 16)) in H2 by lia. simpl in H2. by apply Z.leb_gt in H2.
    + intros Hm. rewrite Hr, Hp, (proj2 (Nat.leb_gt _ 17)) by lia. rewrite (proj2 (Nat.leb_gt _ 4)) in Hn by lia.
      split; [done|]. split; [|by split]. by rewrite parts_after_all by (simpl; lia).
  - destruct H as (l1 & env & l2 & Hl & Hf). exists l1, env, l2. split; [done|]. unfold fatal in Hf. cbn [Nat.add] in Hf.
    apply andb_true_iff in Hf as [Ha Hf]. split; [done|]. apply orb_true_iff in Hf as [Hf|Hf]; [left; by apply Nat.eqb_eq|].
    right. apply andb_true_iff in Hf as [[H1 H2]%andb_true_iff H3]. apply Nat.leb_le in H1, H2. apply Z.leb_le in H3. lia.
Qed.

(** ** A start with good answers *)

#[local] Existing Instance demo_table.
#[local] Existing Instance demo_laws.
Definition demo_addrinfo (_ _ : list Z) : option (list Usock.addrinfo) := Some [Usock.AddrInfo Usock.AF_INET [4]].
Definition demo_world : Usock.world := Usock.World ∅ [Usock.Attempt 3 0 0 0 0] [] [].
Definition demo_answers : answers :=
  Answers true (Some (Conf (Some (str "127.0.0.1")) 2222)) 0 0 true demo_tables true true 0 0 0 0 0 true 0 0.
Definition demo_client : job_env := JobEnv 5 true true [true; true; true; true] 0 0 true.
Lemma demo_willing : willing demo_addrinfo demo_answers demo_world.
Proof.
  split; [done|]. split.
  { exists (str "127.0.0.1"), 2222. split; [done|]. split; [lia|]. by vm_compute. }
  split_and!; try done. exact demo_tables_ok.
Qed.

(** A client after the last call is served. *)
Lemma opcli_start_window_witness :
  willing demo_addrinfo demo_answers demo_world
  /\ match run_start (M := unit) (replicate 18 Main ++ [Other demo_client]) (start_of demo_addrinfo demo_answers demo_world) with
     | None => False
     | Some s => result s = Some true /\ length (clients (st s)) = 1%nat
     end.
Proof.
  split; [exact demo_willing|].
  pose proof (opcli_start_window (M := unit) demo_addrinfo demo_answers demo_world (replicate 18 Main ++ [Other demo_client]) demo_willing) as H.
  destruct (run_start _ _) as [s|].
  - destruct H as (_ & H2 & H3). split; [apply H2; simpl; lia|exact H3].
  - destruct H as (l1 & env & l2 & Hl & _ & Hm).
    rewrite (one_event 18 _ _ _ _ Hl) in Hm. lia.
Defined.

(** One after the eleventh call ends the server. *)
Lemma early_client_fatal :
  run_start (M := unit) (replicate 11 Main ++ [Other demo_client]) (start_of demo_addrinfo demo_answers demo_world) = None.
Proof.
  pose proof (start_window (M := unit) demo_addrinfo demo_answers demo_world (replicate 11 Main ++ [Other demo_client]) demo_willing) as H.
  destruct (run_start _ _) as [s|]; [|done]. destruct H as (H & _). by specialize (H (replicate 11 Main) demo_client [] eq_refl).
Qed.
