(* ===== verification/Op4gStart.v ===== *)
(** * module/op4g/op4g.c: the start of the 4G module

    [op4g_init] as the sequence of its calls, [u9300_init] included, and the thread it starts on
    the way, which hands what the modem sends to the handler of the module. The receive buffer and
    the module are those of [U9300]; the sequence and its interleaving are those of [Starting]. *)

From S2P Require Import Prelude Bytes CString Utils UtilsSys LinkList U9300 Starting.
From stdpp Require Import base tactics numbers list gmap strings.
From Stdlib Require Import ZArith Lia.
Open Scope Z_scope.

Module Op4gStart.
Import Utils U9300 Starting.

(** ** The modules *)

Record _4g_module_support := Support { vendor_id : Z; product_id : Z }.
Definition module_support : list _4g_module_support := [Support 0x1c9e 0x9b3c].
(** The index of the module, with the two identifiers; the device is not asked for them. *)
Fixpoint support_loop (l : list _4g_module_support) (i vid pid : Z) : option (Z * Z * Z) :=
  match l with
  | [] => None
  | m :: r => if negb (vendor_id m =? vid) || negb (product_id m =? pid) then support_loop r (i + 1) vid pid else Some (i, vid, pid)
  end.
Definition op4g_get_vid_pid : option (Z * Z * Z) := support_loop module_support 0 0x1c9e 0x9b3c.

(** ** The structure *)

Inductive part := Self | Module | Base | Ev | Watched | Lock | Reader | Rpc.
#[export] Instance part_eq_dec : EqDecision part.
Proof. solve_decision. Defined.

(** [unit9300]: the variable [self] of u9300.c. *)
Record four := Four {
  dev_name : list Z; center : list Z; fd : Z; parts : list part; buf : op4g; unit9300 : option u9300
}.
Definition has (p : part) (c : four) : bool := bool_decide (p ∈ parts c).
Definition with_parts (l : list part) (c : four) : four := Four (dev_name c) (center c) (fd c) l (buf c) (unit9300 c).
Definition with_names (d m : list Z) (c : four) : four := Four d m (fd c) (parts c) (buf c) (unit9300 c).
Definition with_fd (n : Z) (c : four) : four := Four (dev_name c) (center c) n (parts c) (buf c) (unit9300 c).
Definition with_io (g : op4g) (u : option u9300) (c : four) : four := Four (dev_name c) (center c) (fd c) (parts c) g u.
Notation call := (Starting.call four).
Definition set (ok : bool) (p : part) : call := fun c => Some (if ok then (true, with_parts (p :: parts c) c) else (false, c)).

(** The configuration: [op4G:dev] and [op4G:message_centor]. *)
Record conf := Conf { c_dev : option (list Z); c_center : option (list Z) }.
Record answers := Answers {
  a_calloc : bool; a_conf : option conf; a_fd : Z; a_term : UtilsSys.termios;
  a_base : bool; a_ev : bool; a_add : Z; a_mattr : Z; a_lock : Z; a_attr : Z; a_thread : Z;
  a_unit : bool; a_umattr : Z; a_ulock : Z; a_ucattr : Z; a_ucond : Z; a_timer1 : bool; a_timer2 : bool; a_write : bool
}.

Definition read_conf (a : answers) : call := fun c =>
  match a_conf a with
  | None => Some (false, c)
  | Some k =>
      match c_dev k with
      | None => Some (false, c)
      | Some dev =>
          let c := with_names (take 63 dev) (center c) c in
          match c_center k with
          | None => Some (false, c)
          | Some m => Some (true, with_names (dev_name c) (take 63 m) c)
          end
      end
  end.
Definition open_device (a : answers) : call := fun c =>
  let '(n, _) := UtilsSys.uart_open (a_fd a) (a_term a) (Some (dev_name c)) in
  Some (negb (n <? 0), with_fd n c).
Definition find_module : call := set (bool_decide (is_Some op4g_get_vid_pid)) Module.

(** [u9300_init] up to the assignment of [self]: the structure is all zeroes, its list too. *)
Definition zero_heap : LinkList.heap :=
  let zero := list_to_map ((fun p => (p, LinkList.NULL)) <$> init_nodes) in LinkList.Heap zero zero.
Definition bare_unit : u9300 :=
  {| hp := zero_heap; table := u9300_cmd; current := None; short_message := replicate 1024 0; short_message_size := 0;
     center_message := replicate 64 0; timer_at_cmd := false; timer_no_response := false; signals := 0; out := [] |}.
Definition unit_calloc (a : answers) : call := fun c =>
  Some (if a_unit a then (true, with_io (buf c) (Some bare_unit) c) else (false, c)).
(** The rest of it: the handler does nothing as long as there is no command under way, so that it
    is one call. The second test of a timer looks at the first timer again, and a null timer is
    followed when it is set or deleted. *)
Definition unit_init (a : answers) : call := fun c =>
  if negb ((a_umattr a =? 0) && (a_ulock a =? 0) && (a_ucattr a =? 0) && (a_ucond a =? 0)) then Some (false, c)
  else if negb (a_timer1 a) then Some (false, c)
  else if negb (a_timer2 a) then None
  else u ← u9300_init u9300_cmd (center c) (a_write a); Some (true, with_io (buf c) (Some u) c).

Definition op4g_init_calls (a : answers) : list call :=
  [set (a_calloc a) Self; read_conf a; open_device a; find_module;
   set (a_base a) Base; set (a_ev a) Ev; set (0 <=? a_add a) Watched;
   check (a_mattr a); set (a_lock a =? 0) Lock; check (a_attr a); set (a_thread a =? 0) Reader;
   set true Rpc; unit_calloc a; unit_init a].

(** [self = NULL] of op4g.c; nothing is stopped or freed. *)
Definition op4g_exit (c : four) : four := with_parts (filter (.≠ Self) (parts c)) c.

Definition four_new : four := Four [] [] 0 [] {| bf := replicate 2048 0; index := 0; closed := false |} None.
Definition op4g_init (a : answers) : option (bool * four) :=
  '(ok, c) ← run_calls (op4g_init_calls a) four_new; Some (ok, if ok : bool then c else op4g_exit c).

(** ** The modem *)

(** Bytes that arrive ([read] gives as many as are asked for), or the end of the device; [ok]: the
    answer of [write] to a command that is sent on. *)
Record bytes := Bytes { data : list Z; ok : bool }.
Definition op4g_job_on (b : bytes) (c : four) : option four :=
  if negb (has Self c) then None
  else
    let g := buf c in
    let idx := if _4G_READ_BUF_SIZE - 1 <=? index g then 0 else index g in
    let got := take (Z.to_nat (_4G_READ_BUF_SIZE - idx - 1)) (data b) in
    match got, unit9300 c with
    | [], _ => Some (with_io {| bf := bf g; index := idx; closed := true |} (unit9300 c) c)
    | _, None => None
    | _, Some u => '(g, u) ← op4g_job g u (Some got) (ok b); Some (with_io g (Some u) c)
    end.
(** Nothing is read before the thread runs on the event, and after the device has gone. *)
Definition modem (b : bytes) (c : four) : option four :=
  if has Reader c && has Watched c && negb (closed (buf c)) then op4g_job_on b c else Some c.

Definition run_start : list (event bytes) -> start four -> option (start four) := run op4g_exit modem.
Definition start_of (a : answers) : start four := Start (op4g_init_calls a) None four_new.

(** u9300.c: [u9300_interface], for the one event there is; [send] is [u9300_send_message]. *)
Definition _4G_EVENT_SEND_MESSAGE : Z := 0.
Definition u9300_interface {A} (send : list Z -> list Z -> A -> Z * A) (event_type : Z) (phone message : list Z) (s : A) : Z * A :=
  if event_type =? _4G_EVENT_SEND_MESSAGE then send phone message s else (0, s).

End Op4gStart.
