(* ===== verification/Op4gStartSpec.v ===== *)
(** * The start of the 4G module: when the modem may speak

    With every call of [op4g_init] answered well, bytes of the modem bring the server down exactly
    between the start of the reading thread and the assignment of the module's structure; after
    that nothing that arrives does. A start that fails after the thread was started leaves it
    running on a structure that is gone. *)

From S2P Require Import Prelude Bytes CString Utils UtilsSys LinkList U9300 PduSpec U9300Spec Starting Op4gStart.
From stdpp Require Import base tactics numbers list gmap strings.
From Stdlib Require Import ZArith Lia.
Import Utils U9300 Starting Op4gStart.
Open Scope Z_scope.

Definition willing (a : answers) : Prop :=
  a_calloc a = true
  /\ (exists d m, a_conf a = Some (Conf (Some d) (Some m)) /\ no_nul m)
  /\ 0 <= a_fd a /\ a_base a = true /\ a_ev a = true /\ 0 <= a_add a /\ a_mattr a = 0 /\ a_lock a = 0 /\ a_attr a = 0
  /\ a_thread a = 0 /\ a_unit a = true /\ a_umattr a = 0 /\ a_ulock a = 0 /\ a_ucattr a = 0 /\ a_ucond a = 0
  /\ a_timer1 a = true /\ a_timer2 a = true.

Definition milestones : list (option part) :=
  [Some Self; None; None; Some Module; Some Base; Some Ev; Some Watched; None; Some Lock; None; Some Reader; Some Rpc; None; None].
Notation parts_after := (Starting.parts_after milestones).

(** The module after [n] calls: none, one whose list is still zero, one with a queue. *)
Definition unit_ok (n : nat) (o : option u9300) : Prop :=
  if (n <=? 12)%nat then o = None
  else exists u, o = Some u /\
    if (n <=? 13)%nat then current u = None /\ hp u = zero_heap else exists q, U9300Spec.wf u q /\ U9300Spec.order q.

Record inv (a : answers) (n : nat) (s : start four) : Prop := Inv {
  inv_todo : todo s = drop n (op4g_init_calls a);
  inv_result : result s = if (n <=? 14)%nat then None else Some true;
  inv_parts : parts (st s) = parts_after n;
  inv_center : (2 <= n)%nat -> no_nul (center (st s));
  inv_buf : zlen (bf (buf (st s))) = 2048 /\ 0 <= index (buf (st s)) <= 2047 /\ closed (buf (st s)) = false;
  inv_unit : unit_ok n (unit9300 (st s))
}.
Notation step := (step op4g_exit modem).

Lemma four_inv_start a : inv a 0 (start_of a).
Proof. split; try done; lia. Qed.

Lemma four_main_call a n s f c :
  inv a n s -> (n < 14)%nat -> op4g_init_calls a !! n = Some f -> f (st s) = Some (true, c) ->
  parts c = parts_after (S n) -> ((2 <= S n)%nat -> no_nul (center c)) -> buf c = buf (st s) ->
  unit_ok (S n) (unit9300 c) -> exists s', step Main s = Some s' /\ inv a (S n) s'.
Proof.
  intros [Ht Hr Hp Hc Hb Hu] Hlt Hf Hcall Hp' Hc' Hb' Hu'.
  assert (todo s = f :: drop (S n) (op4g_init_calls a)) as Ht' by (rewrite Ht; exact (drop_S _ _ _ Hf)). clear Ht.
  destruct s as [td rs c0]. simpl in *. subst td. rewrite (proj2 (Nat.leb_le n 14)) in Hr by lia. subst rs.
  unfold Starting.step. cbn [todo result st]. rewrite Hcall, bind_some.
  eexists. split; [done|]. split; cbn [todo result st]; try done; [|by rewrite Hb'].
  by rewrite (proj2 (Nat.leb_le (S n) 14)) by lia.
Qed.

(** A call that only sets up a part, or nothing. *)
Lemma four_main_plain a n s f o c :
  inv a n s -> n <> 1%nat -> (n <= 11)%nat -> op4g_init_calls a !! n = Some f -> milestones !! n = Some o ->
  f (st s) = Some (true, c) -> parts c = match o with Some p => p :: parts (st s) | None => parts (st s) end ->
  center c = center (st s) -> buf c = buf (st s) -> unit9300 c = unit9300 (st s) ->
  exists s', step Main s = Some s' /\ inv a (S n) s'.
Proof.
  intros Hi H1 H11 Hf Hm Hcall Hp' Hc' Hb' Hu'. pose proof Hi as [Ht Hr Hp Hc Hb Hu].
  eapply four_main_call; [exact Hi|lia|exact Hf|exact Hcall|..].
  - by rewrite (parts_after_S _ _ _ Hm), <- Hp.
  - intros. rewrite Hc'. apply Hc. lia.
  - done.
  - rewrite Hu'. unfold unit_ok in *. rewrite (proj2 (Nat.leb_le n 12)) in Hu by lia. by rewrite (proj2 (Nat.leb_le (S n) 12)) by lia.
Qed.

Lemma four_main_step a n s : willing a -> inv a n s -> exists s', step Main s = Some s' /\ inv a (S n) s'.
Proof.
  intros Hw Hi. pose proof Hi as [Ht Hr Hp Hc Hb Hu].
  destruct Hw as (H1 & (d & m & Hconf & Hm) & H2 & H3 & H4 & H5 & H6 & H7 & H8 & H9 & H10 & H11 & H12 & H13 & H14 & H15 & H16).
  destruct (decide (n < 14)%nat) as [Hlt|Hge].
  - destruct (decide (n = 1%nat)) as [->|].
    { eapply four_main_call; [exact Hi|lia|reflexivity|..]; [unfold read_conf; rewrite Hconf; reflexivity|exact Hp| |done|exact Hu].
      intros _ x Hx. simpl in Hx. apply Hm. by apply elem_of_take in Hx as (i & Hx & _); eapply list_elem_of_lookup_2. }
    destruct (decide (n = 12%nat)) as [->|].
    { eapply four_main_call; [exact Hi|lia|reflexivity|..]; [unfold unit_calloc; rewrite H10; reflexivity|exact Hp|intros _; apply Hc; lia|done|].
      exists bare_unit. by split. }
    destruct (decide (n = 13%nat)) as [->|].
    { destruct (u9300_init_ok (center (st s)) (a_write a)) as (u & Hinit & Hwf & _); [apply Hc; lia|].
      eapply four_main_call; [exact Hi|lia|reflexivity|..];
        [unfold unit_init; rewrite H11, H12, H13, H14, H15, H16, Hinit; reflexivity|exact Hp|intros _; apply Hc; lia|done|].
      exists u. split; [done|]. simpl. eexists. split; [exact Hwf|]. apply order_without. by apply (bool_decide_unpack _). }
    apply Z.leb_le in H5. assert (n ∈ seq 0 14) as Hin by (apply elem_of_seq; lia). simpl in Hin. clear Hlt.
    repeat (apply elem_of_cons in Hin as [->|Hin];
      [first [exfalso; lia
        | eapply four_main_plain; [exact Hi|lia|lia|reflexivity|reflexivity|
            unfold set, check, find_module, open_device, UtilsSys.uart_open;
            rewrite ?H1, ?(proj2 (Z.ltb_ge _ 0) H2), ?H3, ?H4, ?H5, ?H6, ?H7, ?H8, ?H9; simpl; rewrite ?(proj2 (Z.ltb_ge _ 0) H2);
            reflexivity|reflexivity|reflexivity|reflexivity|reflexivity]]|]).
    by apply elem_of_nil in Hin.
  - assert (todo s = []) as Ht'.
    { rewrite Ht. apply drop_ge. simpl. lia. }
    unfold Starting.step. rewrite Ht'.
    assert (parts_after (S n) = parts_after n) as Hpa by (by rewrite (parts_after_all _ (S n)), (parts_after_all _ n) by (simpl; lia)).
    assert (unit_ok (S n) (unit9300 (st s))) as Hu'.
    { unfold unit_ok in *. rewrite (proj2 (Nat.leb_gt (S n) 12)), (proj2 (Nat.leb_gt (S n) 13)) by lia.
      by rewrite (proj2 (Nat.leb_gt n 12)), (proj2 (Nat.leb_gt n 13)) in Hu by lia. }
    assert (no_nul (center (st s))) as Hce by (apply Hc; lia).
    destruct (result s) as [r|] eqn:Er; (eexists; split; [done|]); split; rewrite ?Hpa; cbn [todo result st]; try done.
    + rewrite Ht'. symmetry. apply drop_ge. simpl. lia.
    + rewrite Er. revert Hr. destruct (Nat.leb_spec n 14); [done|]. intros Hr. by rewrite (proj2 (Nat.leb_gt (S n) 14)) by lia.
    + symmetry. apply drop_ge. simpl. lia.
    + by rewrite (proj2 (Nat.leb_gt (S n) 14)) by lia.
Qed.

(** ** Bytes of the modem *)

Lemma four_inv_has a n s p : inv a n s -> has p (st s) = bool_decide (p ∈ parts_after n).
Proof. intros H. unfold has. by rewrite (inv_parts _ _ _ H). Qed.

(** The module without a command under way does nothing. *)
Lemma idle_handle u resp ok :
  current u = None -> is_Some (LinkList.list_empty (hp u) HEAD) -> u9300_uart_handle u resp ok = Some (handle_none u).
Proof. intros Hc [e He]. unfold u9300_uart_handle. by rewrite He, bind_some, Hc. Qed.

(** The bytes fall in the window after [n] calls. *)
Definition fatal (n : nat) (b : bytes) : bool := (11 <=? n)%nat && (n <=? 12)%nat.
Definition speaks (b : bytes) : Prop := data b <> [].

(** The module takes what it is handed. *)
Lemma unit_takes n o resp ok :
  (13 <= n)%nat -> unit_ok n o ->
  exists u u' ev, o = Some u /\ u9300_uart_handle u resp ok = Some (u', ev) /\ unit_ok n (Some u').
Proof.
  intros Hn Hu. unfold unit_ok in *. rewrite (proj2 (Nat.leb_gt n 12)) in * by lia. destruct Hu as (u & -> & Hu). exists u.
  destruct (n <=? 13)%nat.
  - destruct Hu as [Hc Hh]. exists (fst (handle_none u)), (snd (handle_none u)). split; [done|].
    split; [|by exists (fst (handle_none u))]. rewrite idle_handle; [by destruct (handle_none u)|done|].
    rewrite Hh. exists false. by vm_compute.
  - destruct Hu as (q & Hwf & Ho). destruct (u9300_uart_handle_ok u q resp ok Hwf Ho) as (u' & ev & q' & Hh & Hwf' & Ho' & _).
    exists u', ev. split; [done|]. split; [done|]. exists u'. split; [done|]. by exists q'.
Qed.

Lemma modem_step a n s b :
  speaks b -> inv a n s ->
  if fatal n b then step (Other b) s = None
  else exists s', step (Other b) s = Some s' /\ inv a n s' /\ (0 = 0 + 0)%nat.
Proof.
  intros Hb Hi. pose proof Hi as [Ht Hr Hp Hc (Hb1 & Hb2 & Hb3) Hu]. unfold Starting.step, modem, op4g_job_on.
  rewrite !(four_inv_has a n s _ Hi), (part_at _ _ 10), (part_at _ _ 6), (part_at _ _ 0) by (done || by apply (bool_decide_unpack _)).
  rewrite Hb3. unfold fatal. destruct (Nat.ltb_spec 10 n) as [Hge|Hlt]; cbn [andb negb].
  2: { rewrite (proj2 (Nat.leb_gt 11 n)) by lia. cbn [andb]. rewrite bind_some. exists s. split; [by destruct s|done]. }
  rewrite (proj2 (Nat.ltb_lt 6 n)), (proj2 (Nat.ltb_lt 0 n)), (proj2 (Nat.leb_le 11 n)) by lia. cbn [andb negb].
  fold (read_offset (buf (st s))). pose proof (read_offset_range _ Hb2) as Hof. unfold _4G_READ_BUF_SIZE.
  set (got := take _ (data b)).
  assert (0 < zlen got <= 2047 - read_offset (buf (st s))) as Hgot.
  { unfold got, zlen. rewrite length_take. destruct (data b) as [|x d] eqn:E; [by unfold speaks in Hb|]. simpl length. lia. }
  assert (got <> []) as Hne by (intros E; rewrite E in Hgot; unfold zlen in Hgot; simpl in Hgot; lia).
  destruct (Nat.leb_spec n 12) as [Hle|Hgt]; cbn [andb].
  - unfold unit_ok in Hu. rewrite (proj2 (Nat.leb_le n 12)) in Hu by lia. rewrite Hu. by destruct got.
  - destruct (unit_takes n (unit9300 (st s)) (take (Z.to_nat (read_offset (buf (st s)))) (bf (buf (st s))) ++ got) (ok b)
      ltac:(lia) Hu) as (u & u' & ev & Eu & Hh & Hu').
    destruct (op4g_job_hands_over (buf (st s)) u got (ok b) u' ev Hb1 Hb2 Hgot Hh) as (g' & Hj & Hcl & Hg1 & Hg2 & _).
    rewrite Eu. destruct got as [|x d]; [done|]. rewrite Hj, !bind_some. eexists. split; [done|]. split; [|done].
    split; cbn [todo result st]; done.
Qed.

(** C13. With every call of [op4g_init] answered well, whatever the order of its calls and of the bytes
    of the modem: the server goes down exactly when bytes arrive between the start of the reading
    thread (the eleventh call) and the thirteenth call, which makes the structure of the module.
    Otherwise, once the function is through, it has returned a complete structure whose module is
    in its invariant. *)
Theorem op4g_start_window a (l : list (event bytes)) :
  willing a -> (forall b, Other b ∈ l -> data b <> []) ->
  match run_start l (start_of a) with
  | None => exists l1 b l2, l = l1 ++ Other b :: l2 /\ (11 <= mains l1 <= 12)%nat
  | Some s => (forall l1 b l2, l = l1 ++ Other b :: l2 -> ~ (11 <= mains l1 <= 12)%nat)
      /\ ((15 <= mains l)%nat -> result s = Some true /\ parts (st s) = Starting.parts_after milestones 14
            /\ exists u q, unit9300 (st s) = Some u /\ U9300Spec.wf u q /\ U9300Spec.order q)
  end.
Proof.
  intros Hw Hl.
  pose proof (run_window op4g_exit modem speaks (inv a) fatal (fun _ => 0%nat) (fun _ _ => 0%nat)
    ltac:(intros n s Hi; destruct (four_main_step a n s Hw Hi) as (s' & H1 & H2); by exists s') (modem_step a) l 0 _ Hl (four_inv_start a)) as H.
  unfold run_start. destruct (run op4g_exit modem l (start_of a)) as [s|].
  - destruct H as (H1 & [_ Hr Hp _ _ Hu] & _). split.
    + intros l1 b l2 Hs Hm. specialize (H1 l1 b l2 Hs). unfold fatal in H1. cbn [Nat.add] in H1.
      by rewrite (proj2 (Nat.leb_le 11 _)), (proj2 (Nat.leb_le _ 12)) in H1 by lia.
    + intros Hm. cbn [Nat.add] in *. rewrite Hr, Hp, (proj2 (Nat.leb_gt _ 14)) by lia. split; [done|].
      split; [by rewrite parts_after_all by (simpl; lia)|].
      unfold unit_ok in Hu. rewrite (proj2 (Nat.leb_gt _ 12)), (proj2 (Nat.leb_gt _ 13)) in Hu by lia.
      destruct Hu as (u & Eu & q & Hwf & Ho). by exists u, q.
  - destruct H as (l1 & b & l2 & Hs & Hf). exists l1, b, l2. split; [done|]. unfold fatal in Hf. cbn [Nat.add] in Hf.
    apply andb_true_iff in Hf as [H1%Nat.leb_le H2%Nat.leb_le]. lia.
Qed.

Definition demo_answers : answers :=
  Answers true (Some (Conf (Some (str "/dev/ttyUSB2")) (Some (str "+8613800100500")))) 5
    (UtilsSys.Termios 0 0 0 0 0 0 0 0) true true 0 0 0 0 0 true 0 0 0 0 true true true.
Lemma four_demo_willing : willing demo_answers.
Proof.
  split; [done|]. split; [|by split_and!]. exists (str "/dev/ttyUSB2"), (str "+8613800100500"). split; [done|].
  apply no_nul_dec. reflexivity.
Qed.

Lemma op4g_start_window_witness :
  willing demo_answers
  /\ match run_start (replicate 15 Main ++ [Other (Bytes (str "RING") true)]) (start_of demo_answers) with
     | None => False
     | Some s => result s = Some true
     end.
Proof.
  split; [exact four_demo_willing|].
  pose proof (op4g_start_window demo_answers (replicate 15 Main ++ [Other (Bytes (str "RING") true)]) four_demo_willing) as H.
  destruct (run_start _ _) as [s|].
  - destruct H as (_ & H2); [|by apply H2; simpl; lia].
    intros b Hb. simpl in Hb. repeat (apply elem_of_cons in Hb as [Hb|Hb]; [by try injection Hb as ->|]). by apply elem_of_nil in Hb.
  - destruct H as (l1 & b & l2 & Hl & Hm); [|by rewrite (one_event 15 _ _ _ _ Hl) in Hm; lia].
    intros b Hb. simpl in Hb. repeat (apply elem_of_cons in Hb as [Hb|Hb]; [by try injection Hb as ->|]). by apply elem_of_nil in Hb.
Defined.

(** A start that fails after the thread was made: the structure is gone for the reading thread,
    which is still there, and the next bytes of the modem bring the server down. *)
Theorem failed_start_fatal a c b :
  op4g_init a = Some (false, c) -> has Reader c = true -> has Watched c = true -> closed (buf c) = false ->
  modem b c = None.
Proof.
  unfold op4g_init. destruct (run_calls _ _) as [[ok c0]|]; [|done]. rewrite bind_some. intros [= -> <-] Hr Hwt Hc.
  unfold modem. rewrite Hr, Hwt, Hc. simpl. unfold op4g_job_on.
  assert (has Self (op4g_exit c0) = false) as ->; [|done].
  apply bool_decide_eq_false. simpl. by intros [? _]%list_elem_of_filter.
Qed.
Definition demo_refused : answers :=
  Answers true (Some (Conf (Some (str "/dev/ttyUSB2")) (Some (str "+8613800100500")))) 5
    (UtilsSys.Termios 0 0 0 0 0 0 0 0) true true 0 0 0 0 0 false 0 0 0 0 true true true.
Lemma failed_start_fatal_witness :
  exists c, op4g_init demo_refused = Some (false, c) /\ modem (Bytes (str "RING") true) c = None.
Proof.
  destruct (op4g_init demo_refused) as [[[] c]|] eqn:E; [vm_compute in E; discriminate|exists c|vm_compute in E; discriminate].
  split; [done|]. apply (failed_start_fatal demo_refused c _ E); vm_compute in E; by injection E as <-.
Defined.
