(* ===== verification/OpMgrStart.v ===== *)
(** * module/opmgr/opmgr.c and module/spider/spider.c: the start of the manager and of the spider

    [opmgr_init] with the client of the broker, what that client does when the broker answers, and
    [spider_init]. Both register their local calls on the way; what is registered stays when a
    later call fails. *)

From S2P Require Import Prelude KeyTable Bytes CString Utils OpCli OpLog OpRpc OpMem OpSql Op4g Spider OpMgr Starting.
From stdpp Require Import base tactics numbers list gmap strings.
From Stdlib Require Import ZArith Lia.
Open Scope Z_scope.

Module OpMgrStart.
Import Utils OpCli OpMgr Starting.

(** ** The client of the broker *)

(** The calls of the mosquitto library. *)
Inductive mqtt_call :=
  | New | SetConnect | SetSubscribe | SetMessage | Connect (host : list Z) (port keepalive : Z) | Destroy
  | Loop | Disconnect | Subscribe (topic : list Z) (qos : Z).
Definition MOSQ_ERR_SUCCESS : Z := 0.

(** [rc]: what [mosquitto_subscribe] returns. *)
Definition opmgr_on_connect (reason_code rc : Z) : list mqtt_call :=
  (if reason_code =? 0 then [] else [Disconnect])
  ++ [Subscribe (str "opmgr/temperature") 1]
  ++ (if rc =? MOSQ_ERR_SUCCESS then [] else [Disconnect]).

Fixpoint granted_loop (granted_qos : list Z) (have_subscription : bool) : bool :=
  match granted_qos with
  | [] => have_subscription
  | q :: r => granted_loop r (if q <=? 2 then true else have_subscription)
  end.
Definition opmgr_on_subscribe (granted_qos : list Z) : list mqtt_call :=
  if granted_loop granted_qos false then [] else [Disconnect].

(** The line that is logged. *)
Definition opmgr_on_message (topic : list Z) (qos : Z) (payload : list Z) : list Z :=
  str "mqtt :" ++ topic ++ str " " ++ OpLog.fmt_d qos ++ str " " ++ payload ++ [10].

(** [mgr->mqtt]: null, in use, or pointing to what was destroyed. *)
Inductive pointer := Null | Live | Freed.
(** [create]: [mosquitto_new] has memory; [rc]: the answer of [mosquitto_connect]; [attr],
    [thread]: those of the two pthread functions. The pointer, the calls, and whether the thread
    runs. *)
Definition mqtt_cb_init (create : bool) (rc attr thread : Z) : pointer * list mqtt_call * bool :=
  if negb create then (Null, [New], false)
  else
    let made := [New; SetConnect; SetSubscribe; SetMessage; Connect (str "127.0.0.1") 55558 60] in
    if negb (rc =? MOSQ_ERR_SUCCESS) then (Freed, made ++ [Destroy], false)
    else if negb (attr =? 0) then (Live, made, false)
    else if negb (thread =? 0) then (Live, made, false)
    else (Live, made ++ [Loop], true).

(** ** opmgr_init *)

Inductive part := Memory | Base | Self | Timer | Armed | Thread.
#[export] Instance part_eq_dec : EqDecision part.
Proof. solve_decision. Defined.

Section Manager.
Context {P T : Type} `{!KeyTable P OpMem.ptr} `{!KeyTable T (node_key (M := opmgr_cb))}.
Notation local_rpc := (OpRpc.op_local_rpc (option (world (T := P)))).

(** The structure, and the services it registers with. *)
Record mgr := Mgr {
  parts : list part; cpu : cpu_info; mqtt : pointer; mqtt_calls : list mqtt_call; mqtt_thread : bool;
  local : option local_rpc; console : _opcli_struct (M := opmgr_cb) (T := T)
}.
Notation call := (Starting.call mgr).
Definition set (ok : bool) (p : part) : call := fun c =>
  Some (if ok then (true, Mgr (p :: parts c) (cpu c) (mqtt c) (mqtt_calls c) (mqtt_thread c) (local c) (console c)) else (false, c)).

Record answers := Answers {
  a_calloc : bool; a_base : bool; a_procs : Z; a_stat1 : option (list Z); a_stat2 : option (list Z);
  a_raw1 : list proc_cpu_info; a_raw2 : list proc_cpu_info;
  a_event : bool; a_add : Z; a_attr : Z; a_thread : Z;
  a_mqtt : bool; a_connect : Z; a_mqtt_attr : Z; a_mqtt_thread : Z
}.

Definition first_usage (a : answers) : call := fun c =>
  i ← cpu_usage_init (a_procs a) (a_stat1 a) (a_stat2 a) (a_raw1 a) (a_raw2 a) (cpu c);
  Some (true, Mgr (parts c) i (mqtt c) (mqtt_calls c) (mqtt_thread c) (local c) (console c)).
Definition register : call := fun c =>
  Some (true, Mgr (parts c) (cpu c) (mqtt c) (mqtt_calls c) (mqtt_thread c) (_mgr_rpc_register (local c)) (console c)).
Definition commands : call := fun c =>
  k ← opmgr_cmd_init (console c);
  Some (true, Mgr (parts c) (cpu c) (mqtt c) (mqtt_calls c) (mqtt_thread c) (local c) k).
Definition broker (a : answers) : call := fun c =>
  let '(p, l, t) := mqtt_cb_init (a_mqtt a) (a_connect a) (a_mqtt_attr a) (a_mqtt_thread a) in
  Some (true, Mgr (parts c) (cpu c) p l t (local c) (console c)).

Definition opmgr_init_calls (a : answers) : list call :=
  [set (a_calloc a) Memory; set (a_base a) Base; set true Self; first_usage a; register; commands;
   set (a_event a) Timer; set (0 <=? a_add a) Armed; check (a_attr a); set (a_thread a =? 0) Thread; broker a].
Definition opmgr_init (a : answers) (local : option local_rpc) (console : _opcli_struct) (zero : cpu_info) : option (bool * mgr) :=
  run_calls (opmgr_init_calls a) (Mgr [] zero Null [] false local console).
End Manager.

(** ** spider_init *)

Section Spider.
Context {D : Type} `{!OpSql.Odbc D} {P : Type} `{!KeyTable P OpMem.ptr}.
Notation pool := (option (OpMem.op_mem_info P)).
Notation spider_rpc := (OpRpc.op_local_rpc (option (list Spider.monitor * (D * Op4g.radio)))).
Definition sizeof_spider : Z := 136.

(** What the call works on: the list of the structure, the pool, the database, the table of calls;
    [s_self]: the variable [self] is set; [s_thread]: the thread runs. *)
Record spider := SpiderState {
  s_self : bool; s_list : list Spider.monitor; s_pool : pool; s_db : D; s_local : option spider_rpc; s_thread : bool
}.
Record spider_answers := SpiderAnswers {
  b_alloc : list (option Z); b_base : bool; b_mattr : Z; b_lock : Z; b_load : list (list (option Z)); b_attr : Z; b_thread : Z
}.
(** Whether the function returns the structure; what it acquired is kept when it does not. The
    outer [None] is that of [spider_stock_load]. *)
Definition spider_init (b : spider_answers) (s : spider) : option (bool * spider) :=
  match OpMem.op_calloc (b_alloc b) 1 sizeof_spider (s_pool s) with
  | (None, p) => Some (false, SpiderState (s_self s) (s_list s) p (s_db s) (s_local s) (s_thread s))
  | (Some _, p) =>
      let s := SpiderState true (s_list s) p (s_db s) (s_local s) (s_thread s) in
      if negb (b_base b) then Some (false, s)
      else if negb (b_mattr b =? 0) then Some (false, s)
      else if negb (b_lock b =? 0) then Some (false, s)
      else
        '(l, p, d) ← Spider.spider_stock_load [] (b_load b) (s_pool s) (s_db s);
        let s := SpiderState true l p d (Spider.spider_bus_register (s_local s)) (s_thread s) in
        if negb (b_attr b =? 0) then Some (false, s)
        else if negb (b_thread b =? 0) then Some (false, s)
        else Some (true, SpiderState true (s_list s) (s_pool s) (s_db s) (s_local s) true)
  end.
Definition spider_exit (_ : option spider) : unit := ().
End Spider.
End OpMgrStart.

Import Utils OpCli OpMgr Starting OpMgrStart.

(** ** Properties *)

(** *** The client of the broker *)

Lemma granted_loop_or l b : granted_loop l b = b || existsb (fun q => q <=? 2) l.
Proof.
  revert b. induction l as [|q l IH]; intros b; simpl; [by rewrite orb_false_r|]. rewrite IH.
  destruct (q <=? 2), b; simpl; by rewrite ?orb_true_r.
Qed.

(** The client stays connected exactly when the broker took the connection, the request to
    subscribe was sent, and at least one subscription was granted (128 is a refusal). *)
Theorem mqtt_session_kept reason rc granted :
  Disconnect ∉ opmgr_on_connect reason rc ++ opmgr_on_subscribe granted
  <-> reason = 0 /\ rc = MOSQ_ERR_SUCCESS /\ exists q, q ∈ granted /\ q <= 2.
Proof.
  assert (existsb (fun q => q <=? 2) granted = true <-> exists q, q ∈ granted /\ q <= 2) as Hg.
  { rewrite existsb_exists. split; intros (q & Hq & Hle); exists q.
    - by rewrite list_elem_of_In, <- Z.leb_le.
    - by rewrite <- list_elem_of_In, Z.leb_le. }
  rewrite <- Hg. unfold opmgr_on_connect, opmgr_on_subscribe. rewrite granted_loop_or. simpl orb.
  unfold MOSQ_ERR_SUCCESS.
  destruct (Z.eqb_spec reason 0), (Z.eqb_spec rc 0), (existsb _ granted); set_solver.
Qed.

(** The thread of the client runs exactly when every call succeeded, and only then is its memory
    neither unused nor freed; a refused connection leaves a pointer to freed memory. The
    callbacks are set before the connection is asked for. *)
Theorem mqtt_cb_init_exact create rc attr thread p l t :
  mqtt_cb_init create rc attr thread = (p, l, t) ->
  (t = true <-> create = true /\ rc = 0 /\ attr = 0 /\ thread = 0)
  /\ (p = Freed <-> create = true /\ rc <> 0) /\ (p = Null <-> create = false)
  /\ (t = true <-> Loop ∈ l) /\ (p = Freed <-> Destroy ∈ l)
  /\ (create = true -> exists l', l = [New; SetConnect; SetSubscribe; SetMessage] ++ Connect (str "127.0.0.1") 55558 60 :: l').
Proof.
  unfold mqtt_cb_init, MOSQ_ERR_SUCCESS.
  destruct create, (Z.eqb_spec rc 0), (Z.eqb_spec attr 0), (Z.eqb_spec thread 0); simpl; intros [= <- <- <-];
    repeat match goal with |- _ /\ _ => split | |- _ <-> _ => split | |- _ -> _ => intros ? end;
    destruct_and?; try done; try (by eexists); set_solver.
Qed.

(** *** The manager *)

Section Manager.
Context {P T : Type} `{!KeyTable P OpMem.ptr} `{!KeyTable T (node_key (M := opmgr_cb))}.

Ltac refused := eexists _, _; split_and!; try done; (split; [done|]; intros; destruct_and?; done || lia).

(** Once memory and the event base are there, the calls and the commands of the manager are
    registered whatever the later calls answer: the function fails exactly when its timer or its
    thread cannot be made, with everything registered, and its result does not depend on the
    broker. *)
Theorem opmgr_init_registers (a : answers) (local : option (OpRpc.op_local_rpc (option (world (T := P))))) (k k' : _opcli_struct (T := T)) zero i :
  a_calloc a = true -> a_base a = true ->
  cpu_usage_init (a_procs a) (a_stat1 a) (a_stat2 a) (a_raw1 a) (a_raw2 a) zero = Some i ->
  opmgr_cmd_init k = Some k' ->
  exists ok m, opmgr_init a local k zero = Some (ok, m)
    /\ OpMgrStart.local m = _mgr_rpc_register local /\ console m = k' /\ cpu m = i
    /\ (ok = true <-> a_event a = true /\ 0 <= a_add a /\ a_attr a = 0 /\ a_thread a = 0)
    /\ (mqtt_thread m = true <-> ok = true /\ a_mqtt a = true /\ a_connect a = 0 /\ a_mqtt_attr a = 0 /\ a_mqtt_thread a = 0).
Proof.
  intros H1 H2 H3 H4. unfold opmgr_init, opmgr_init_calls.
  erewrite run_calls_ok; [|unfold set; rewrite H1; reflexivity].
  erewrite run_calls_ok; [|unfold set; rewrite H2; reflexivity].
  erewrite run_calls_ok; [|reflexivity].
  erewrite run_calls_ok; [|unfold first_usage; cbn [cpu]; rewrite H3; reflexivity].
  erewrite run_calls_ok; [|reflexivity].
  erewrite run_calls_ok; [|unfold commands; cbn [console]; rewrite H4; reflexivity].
  cbn [parts cpu mqtt mqtt_calls mqtt_thread OpMgrStart.local console].
  generalize (_mgr_rpc_register local). intros r. clear H1 H2 H3 H4.
  destruct (a_event a) eqn:E1; [erewrite run_calls_ok; [|reflexivity]|(erewrite run_calls_stop; [|reflexivity]); refused].
  destruct (Z.leb_spec 0 (a_add a)) as [E2|E2];
    [erewrite run_calls_ok; [|reflexivity]
    |(erewrite run_calls_stop; [|reflexivity]); refused].
  destruct (Z.eqb_spec (a_attr a) 0) as [E3|E3];
    [erewrite run_calls_ok; [|unfold check; rewrite E3; reflexivity]
    |(erewrite run_calls_stop; [|unfold check; rewrite (proj2 (Z.eqb_neq _ _)) by done; reflexivity]); refused].
  destruct (Z.eqb_spec (a_thread a) 0) as [E4|E4];
    [erewrite run_calls_ok; [|reflexivity]|(erewrite run_calls_stop; [|reflexivity]); refused].
  destruct (mqtt_cb_init (a_mqtt a) (a_connect a) (a_mqtt_attr a) (a_mqtt_thread a)) as [[p l] t] eqn:E.
  erewrite run_calls_ok; [|unfold broker; rewrite E; reflexivity]. cbn [run_calls]. eexists _, _. split; [reflexivity|].
  cbn [parts cpu mqtt mqtt_calls mqtt_thread OpMgrStart.local console]. split_and!; try done.
  destruct (mqtt_cb_init_exact _ _ _ _ _ _ _ E) as (Ht & _). rewrite Ht. tauto.
Qed.
End Manager.

(** *** The spider *)

Section SpiderStart.
Context {D : Type} `{!OpSql.Odbc D} {P : Type} `{!KeyTable P OpMem.ptr}.

(** The call that checks the stocks is registered exactly when the lock is there; a thread that
    cannot be made leaves it registered, with the stocks that were loaded. Without the lock the
    database is not touched. *)
Theorem spider_init_registers (b : spider_answers) (s s' : spider (D := D) (P := P)) ok :
  spider_init b s = Some (ok, s') ->
  (s_db s' = s_db s /\ s_local s' = s_local s /\ s_list s' = s_list s /\ ok = false)
  \/ (b_base b = true /\ b_mattr b = 0 /\ b_lock b = 0 /\ s_self s' = true
      /\ s_local s' = Spider.spider_bus_register (s_local s)
      /\ (exists p p', Spider.spider_stock_load [] (b_load b) p (s_db s) = Some (s_list s', p', s_db s'))
      /\ (ok = true <-> b_attr b = 0 /\ b_thread b = 0)).
Proof.
  unfold spider_init. destruct (OpMem.op_calloc _ _ _ _) as [[q|] p]; [|intros [= <- <-]; by left].
  cbn [s_self s_list s_pool s_db s_local s_thread]. destruct (b_base b); cbn [negb]; [|intros [= <- <-]; by left].
  destruct (Z.eqb_spec (b_mattr b) 0); cbn [negb]; [|intros [= <- <-]; by left].
  destruct (Z.eqb_spec (b_lock b) 0); cbn [negb]; [|intros [= <- <-]; by left].
  destruct (Spider.spider_stock_load [] (b_load b) p (s_db s)) as [[[l p'] d]|] eqn:E; [|done]. rewrite bind_some. intros Hr. right.
  destruct (Z.eqb_spec (b_attr b) 0), (Z.eqb_spec (b_thread b) 0); simpl in Hr; injection Hr as <- <-; simpl;
    (split_and!; [done..|by exists p, p'|tauto || (split; [done|]; by intros [? ?])]).
Qed.
End SpiderStart.
