(* ===== verification/Launch.v ===== *)
(** * The programs beside the server

    The starters of the broker (module/mqtt/mqtt.c) and of the web server
    (module/webserver/webserver.c), which build the command line of the vendored program from the
    configuration, and the tool file_compile (tools/file_compile/main.c). *)

From S2P Require Import Prelude CString Utils UtilsSys OpSql.
From stdpp Require Import base tactics numbers list gmap strings.
From Stdlib Require Import ZArith Lia.
Open Scope Z_scope.

Module Launch.
Import Utils OpSql.

(** What a starter does to the memory it got, and the arguments the program is called with. *)
Inductive action := LoadDict | FreeDict | AllocArgv | AllocArg (i : nat) | FreeArgv | Run (argv : list (list Z)).

(** The loop that allocates the arguments from [i] on; [mem]: the answers of [calloc]. The answers
    left are not used; [false]: one was refused. *)
Fixpoint alloc_args (mem : list bool) (n i : nat) : list action * bool :=
  match n with
  | O => ([], true)
  | S n =>
      match mem with
      | true :: mem => let '(l, ok) := alloc_args mem n (S i) in (AllocArg i :: l, ok)
      | _ => ([], false)
      end
  end.
(** [op_strlcpy] into an argument of 128 bytes. *)
Definition arg (s : list Z) : list Z := take 127 s.

(** ** The web server *)

Definition WEBSERVER_ARGV_NUM : nat := 7.
(** The configuration: [webserver:path], [webserver:prefix], [webserver:error_log]. *)
Record web_conf := WebConf { w_path : option (list Z); w_prefix : option (list Z); w_log : option (list Z) }.
Definition nginx_main_start (conf : option web_conf) (mem : list bool) : list action :=
  match conf with
  | None => []
  | Some c =>
      match w_path c, w_prefix c, w_log c with
      | Some path, Some prefix, Some log =>
          let web_conf_file := clip 246 (path ++ str "/" ++ str "webserver.conf") in
          let web_prefix := take 63 prefix in
          let error_log := take 63 log in
          let l := [LoadDict; FreeDict] in
          match mem with
          | true :: mem =>
              let '(args, ok) := alloc_args mem WEBSERVER_ARGV_NUM 0 in
              let l := l ++ AllocArgv :: args in
              if ok : bool then
                l ++ [Run [arg (str "webserver"); arg (str "-c"); arg web_conf_file; arg (str "-p"); arg web_prefix;
                           arg (str "-e"); arg error_log]]
              else l ++ [FreeDict; FreeArgv]
          | _ => l ++ [FreeDict]
          end
      | _, _, _ => [LoadDict; FreeDict]
      end
  end.

(** ** The broker *)

Definition MQTT_ARGV_NUM : nat := 3.
(** [main] after [op_daemon]: [conf]: [mqtt:path]. The result and what was done. *)
Definition mqtt_start (conf : option (option (list Z))) (mem : list bool) : Z * list action :=
  match conf with
  | None => (-1, [])
  | Some None => (-1, [LoadDict])
  | Some (Some path) =>
      let mqtt_conf_file := clip 246 (path ++ str "/" ++ str "mqtt.conf") in
      let l := [LoadDict; FreeDict] in
      match mem with
      | true :: mem =>
          let '(args, ok) := alloc_args mem MQTT_ARGV_NUM 0 in
          let l := l ++ AllocArgv :: args in
          if ok : bool then (0, l ++ [Run [arg (str "mqtt"); arg (str "-c"); arg mqtt_conf_file]]) else (-1, l)
      | _ => (-1, l)
      end
  end.
(** The whole program in one process: it ends in [op_daemon], or goes on. *)
Definition mqtt_main (fork1 fork2 fd : Z) (p : UtilsSys.proc) (conf : option (option (list Z))) (mem : list bool)
    : option UtilsSys.proc * Z * list action :=
  match UtilsSys.op_daemon fork1 fork2 fd p with
  | UtilsSys.Exit c => (None, c, [])
  | UtilsSys.Return p => let '(r, l) := mqtt_start conf mem in (Some p, r, l)
  end.

(** ** file_compile *)

Definition file_compile_help (prog : list Z) : list Z :=
  str "usage:" ++ [10] ++ prog ++ str " <magic dir> <magic file output>" ++ [10].
(** [opts]: what [getopt_long] returns, call by call, up to the first number that is not positive;
    [access]: the answer for the directory. The text printed. *)
Fixpoint file_compile_main (opts : list Z) (argv : list (list Z)) (access : Z) : list Z :=
  let rest :=
    if negb (zlen argv =? 3) then file_compile_help (default [] (argv !! 0%nat))
    else if access <? 0 then str "dir <" ++ default [] (argv !! 1%nat) ++ str "> is not exist" ++ [10] else [] in
  match opts with
  | [] => rest
  | c :: opts =>
      if c <=? 0 then rest
      else if c =? 104 then file_compile_help (default [] (argv !! 0%nat))
      else file_compile_main opts argv access
  end.

End Launch.
Import Utils OpSql Launch.

(** ** Properties *)

Definition frees_dict (a : action) : bool := match a with FreeDict => true | _ => false end.
Definition frees (l : list action) : nat := length (List.filter frees_dict l).
Definition runs (l : list action) : list (list (list Z)) := omap (fun a => match a with Run v => Some v | _ => None end) l.

Lemma alloc_args_spec mem : forall n i,
  let '(l, ok) := alloc_args mem n i in
  frees l = 0%nat /\ runs l = [] /\ (ok = true <-> (n <= length mem)%nat /\ Forall (eq true) (take n mem)).
Proof.
  assert (forall k, true = true <-> (0 <= k)%nat /\ Forall (eq true) []) as H0 by (split; [split; [lia|constructor]|done]).
  induction mem as [|b mem IH]; intros [|n] i; simpl; (split; [done|split; [done|]]) || idtac; try done.
  - split; [done|]. intros [? _]. lia.
  - destruct b; [|split; [done|]; split; [done|]; split; [done|]; by intros [_ [? _]%Forall_cons]].
    specialize (IH n (S i)). destruct (alloc_args mem n (S i)) as [l ok]. destruct IH as (H1 & H2 & H3).
    unfold frees in *. simpl. split_and!; [done|done|]. rewrite H3, Forall_cons. split; [intros []; split_and!; done || lia|].
    intros (? & _ & ?). split; [lia|done].
Qed.

(** The web server is started exactly when the three settings are there and memory is never
    refused; it gets the configuration file under the configured path, cut to 127 characters. *)
Theorem nginx_started conf mem :
  runs (nginx_main_start conf mem) =
    match conf with
    | Some (WebConf (Some path) (Some prefix) (Some log)) =>
        if bool_decide ((8 <= length mem)%nat /\ Forall (eq true) (take 8 mem))
        then [[str "webserver"; str "-c"; take 127 (path ++ str "/webserver.conf"); str "-p"; take 63 prefix; str "-e"; take 63 log]]
        else []
    | _ => []
    end.
Proof.
  destruct conf as [[[path|] [prefix|] [log|]]|]; try done. unfold nginx_main_start. cbn [w_path w_prefix w_log].
  destruct mem as [|[] mem].
  - by rewrite bool_decide_false by (intros [? _]; simpl in *; lia).
  - pose proof (alloc_args_spec mem 7 0) as H. unfold WEBSERVER_ARGV_NUM. destruct (alloc_args mem 7 0) as [l ok].
    destruct H as (_ & H2 & H3). destruct ok.
    + destruct (proj1 H3 eq_refl) as [Hl Hf]. rewrite bool_decide_true by (split; [simpl; lia|by constructor]).
      unfold runs in *. rewrite !omap_app. cbn [omap list_omap]. rewrite H2. cbn [app]. unfold arg, clip.
      rewrite !take_take. reflexivity.
    + rewrite bool_decide_false.
      * unfold runs in *. rewrite !omap_app. cbn [omap list_omap]. by rewrite H2.
      * intros [Hl Hf]. simpl in Hf. apply Forall_cons in Hf as [_ Hf]. simpl in Hl.
        assert (false = true) by (apply H3; split; [lia|done]). done.
  - rewrite bool_decide_false; [done|]. intros [_ Hf]. simpl in Hf. by apply Forall_cons in Hf as [? _].
Qed.

(** The dictionary is freed twice when memory for the arguments is refused. *)
Theorem nginx_double_free conf mem :
  (1 < frees (nginx_main_start conf mem))%nat <->
  (exists path prefix log, conf = Some (WebConf (Some path) (Some prefix) (Some log)))
  /\ ~ ((8 <= length mem)%nat /\ Forall (eq true) (take 8 mem)).
Proof.
  destruct conf as [[[path|] [prefix|] [log|]]|];
    try (split; [unfold frees; simpl; lia|by intros [(? & ? & ? & [=]) _]]).
  unfold nginx_main_start. cbn [w_path w_prefix w_log].
  destruct mem as [|[] mem].
  - split; [|unfold frees; simpl; lia]. intros _. split; [by eexists _, _, _|]. intros [? _]. simpl in *. lia.
  - pose proof (alloc_args_spec mem 7 0) as H. unfold WEBSERVER_ARGV_NUM. destruct (alloc_args mem 7 0) as [l ok].
    destruct H as (H1 & _ & H3). unfold frees in *. destruct ok.
    + rewrite !List.filter_app, !length_app. simpl. rewrite H1. split; [lia|]. intros [_ []].
      destruct (proj1 H3 eq_refl) as [Hl Hf]. split; [simpl; lia|by constructor].
    + rewrite !List.filter_app, !length_app. simpl. rewrite H1. split; [|lia]. intros _. split; [by eexists _, _, _|].
      intros [Hl Hf]. simpl in Hf. apply Forall_cons in Hf as [_ Hf]. simpl in Hl.
      assert (false = true) by (apply H3; split; [lia|done]). done.
  - split; [|unfold frees; simpl; lia]. intros _. split; [by eexists _, _, _|]. intros [_ Hf]. simpl in Hf. by apply Forall_cons in Hf as [? _].
Qed.

(** The broker is started exactly when its path is there and memory is not refused, and the program
    returns 0 exactly then. *)
Theorem mqtt_started conf mem :
  let '(r, l) := mqtt_start conf mem in
  (r = 0 <-> runs l <> []) /\
  runs l = match conf with
           | Some (Some path) =>
               if bool_decide ((4 <= length mem)%nat /\ Forall (eq true) (take 4 mem))
               then [[str "mqtt"; str "-c"; take 127 (path ++ str "/mqtt.conf")]] else []
           | _ => []
           end.
Proof.
  destruct conf as [[path|]|]; try done. unfold mqtt_start.
  destruct mem as [|[] mem].
  - rewrite bool_decide_false by (intros [? _]; simpl in *; lia). done.
  - pose proof (alloc_args_spec mem 3 0) as H. unfold MQTT_ARGV_NUM. destruct (alloc_args mem 3 0) as [l ok].
    destruct H as (_ & H2 & H3). destruct ok.
    + destruct (proj1 H3 eq_refl) as [Hl Hf]. rewrite bool_decide_true by (split; [simpl; lia|by constructor]).
      unfold runs in *. rewrite !omap_app. cbn [omap list_omap]. rewrite H2. cbn [app]. unfold arg, clip.
      rewrite !take_take. done.
    + rewrite bool_decide_false.
      * unfold runs in *. rewrite !omap_app. cbn [omap list_omap]. by rewrite H2.
      * intros [Hl Hf]. simpl in Hf. apply Forall_cons in Hf as [_ Hf]. simpl in Hl.
        assert (false = true) by (apply H3; split; [lia|done]). done.
  - rewrite bool_decide_false; [done|]. intros [_ Hf]. simpl in Hf. by apply Forall_cons in Hf as [? _].
Qed.
