(* ===== verification/LinkIter.v ===== *)
(** * opbox/list.h: the loops over a list

    The iteration macros with a body that may change the list. The safe loops read the successor
    before the body runs, so that the body may take its node off the list; the others read it
    afterwards. [container_of] is the difference of two addresses. *)

From S2P Require Import Prelude LinkList.
From stdpp Require Import base tactics numbers list gmap.
From Stdlib Require Import ZArith Lia.
Open Scope Z_scope.

Module LinkIter.
Import LinkList.

(** [container_of] for a member at offset [off]. *)
Definition container_of (off ptr : Z) : Z := ptr - off.
Definition list_entry : Z -> Z -> Z := container_of.
Definition field (off p : Z) : Z := p + off.

Section Loops.
(** The body on an element: the heap after it. *)
Variable body : Z -> heap -> option heap.

(** The rest of a loop from [p] in the direction of [dir]; the elements the body ran on. *)
Fixpoint loop (dir : heap -> gmap Z Z) (fuel : nat) (h : heap) (p head : Z) : option (heap * list Z) :=
  if p =? head then Some (h, [])
  else match fuel with
  | O => None
  | S f => h ← body p h; p' ← dir h !! p; '(h, r) ← loop dir f h p' head; Some (h, p :: r)
  end.
Definition for_each (fuel : nat) (h : heap) (head : Z) : option (heap * list Z) :=
  p ← nx h !! head; loop nx fuel h p head.
Definition list_for_each_prev (fuel : nat) (h : heap) (head : Z) : option (heap * list Z) :=
  p ← pv h !! head; loop pv fuel h p head.

Fixpoint loop_safe (dir : heap -> gmap Z Z) (fuel : nat) (h : heap) (p n head : Z) : option (heap * list Z) :=
  if p =? head then Some (h, [])
  else match fuel with
  | O => None
  | S f => h ← body p h; n' ← dir h !! n; '(h, r) ← loop_safe dir f h n n' head; Some (h, p :: r)
  end.
Definition list_for_each_safe (fuel : nat) (h : heap) (head : Z) : option (heap * list Z) :=
  p ← nx h !! head; n ← nx h !! p; loop_safe nx fuel h p n head.
Definition list_for_each_prev_safe (fuel : nat) (h : heap) (head : Z) : option (heap * list Z) :=
  p ← pv h !! head; n ← pv h !! p; loop_safe pv fuel h p n head.

(** The loops over the structures: [p] is the address of a structure whose node is its field at
    offset [off]. *)
Variable off : Z.
Fixpoint entry_loop (dir : heap -> gmap Z Z) (fuel : nat) (h : heap) (p head : Z) : option (heap * list Z) :=
  if field off p =? head then Some (h, [])
  else match fuel with
  | O => None
  | S f => h ← body p h; q ← dir h !! field off p; '(h, r) ← entry_loop dir f h (list_entry off q) head; Some (h, p :: r)
  end.
Definition list_for_each_entry (fuel : nat) (h : heap) (head : Z) : option (heap * list Z) :=
  p ← nx h !! head; entry_loop nx fuel h (list_entry off p) head.
Definition list_for_each_entry_reverse (fuel : nat) (h : heap) (head : Z) : option (heap * list Z) :=
  p ← pv h !! head; entry_loop pv fuel h (list_entry off p) head.
Fixpoint entry_loop_safe (fuel : nat) (h : heap) (p n head : Z) : option (heap * list Z) :=
  if field off p =? head then Some (h, [])
  else match fuel with
  | O => None
  | S f => h ← body p h; q ← nx h !! field off n; '(h, r) ← entry_loop_safe f h n (list_entry off q) head; Some (h, p :: r)
  end.
Definition list_for_each_entry_safe (fuel : nat) (h : heap) (head : Z) : option (heap * list Z) :=
  p ← nx h !! head; n ← nx h !! field off (list_entry off p);
  entry_loop_safe fuel h (list_entry off p) (list_entry off n) head.
End Loops.

End LinkIter.
Import LinkList LinkIter.

(** ** Properties *)

Lemma field_entry off p : field off (list_entry off p) = p.
Proof. unfold field, list_entry, container_of. lia. Qed.

(** The body keeps the node it is given or takes it off, by [keep]; the others stay as they are. *)
Definition body_spec (body : Z -> heap -> option heap) (head : Z) (keep : Z -> bool) : Prop :=
  forall h l1 p l2, is_list h head (l1 ++ p :: l2) ->
    exists h', body p h = Some h' /\ is_list h' head (l1 ++ (if keep p then [p] else []) ++ l2).

(** The successor of a node in a ring. *)
Lemma next_in_ring h head l1 p l2 :
  is_list h head (l1 ++ p :: l2) -> nx h !! p = Some (default head (List.hd_error l2)).
Proof.
  intros [_ Hs]. rewrite <- app_assoc in Hs. change (head :: l1 ++ (p :: l2) ++ [head]) with ((head :: l1) ++ p :: l2 ++ [head]) in Hs.
  apply seg_app in Hs as [_ Hs]. destruct l2 as [|x l2]; simpl in *; tauto.
Qed.
Lemma head_in_ring h head l : is_list h head l -> nx h !! head = Some (default head (List.hd_error l)).
Proof. intros [_ Hs]. destruct l; simpl in *; tauto. Qed.

Section Safe.
Context (body : Z -> heap -> option heap) (head : Z) (keep : Z -> bool).
Hypothesis Hbody : body_spec body head keep.

Lemma loop_safe_spec l2 : forall l1 h p fuel,
  is_list h head (l1 ++ p :: l2) -> (length l2 < fuel)%nat ->
  exists h', loop_safe body nx fuel h p (default head (List.hd_error l2)) head = Some (h', p :: l2)
    /\ is_list h' head (l1 ++ List.filter keep (p :: l2)).
Proof using Hbody.
  induction l2 as [|x l2 IH]; intros l1 h p fuel Hl Hf; (destruct fuel as [|fuel]; [simpl in Hf; lia|]).
  all: assert (p <> head) as Hp by (destruct Hl as [Hnd _]; intros ->; apply NoDup_cons in Hnd as [Hnd _]; apply Hnd; set_solver).
  all: destruct (Hbody h l1 p _ Hl) as (h1 & Hb & Hl1); cbn [loop_safe]; rewrite (proj2 (Z.eqb_neq p head)) by done; rewrite Hb, bind_some.
  - rewrite app_nil_r in Hl1. cbn [List.hd_error default from_option id]. rewrite (head_in_ring _ _ _ Hl1), bind_some.
    exists h1. split; [|by simpl; destruct (keep p)]. by destruct fuel; cbn [loop_safe]; rewrite Z.eqb_refl.
  - cbn [List.hd_error default from_option id].
    destruct (IH (l1 ++ if keep p then [p] else []) h1 x fuel) as (h2 & Hrun & Hl2); [by rewrite <- app_assoc|simpl in Hf; lia|].
    assert (is_list h1 head ((l1 ++ if keep p then [p] else []) ++ x :: l2)) as Hx by (by rewrite <- app_assoc).
    rewrite (next_in_ring _ _ _ _ _ Hx), bind_some, Hrun, bind_some. exists h2. split; [done|].
    rewrite <- app_assoc in Hl2. cbn [List.filter]. by destruct (keep p).
Qed.

(** A safe loop visits the elements in order, once each, and leaves those its body keeps. *)
Lemma list_for_each_safe_spec h l fuel :
  is_list h head l -> (length l <= fuel)%nat ->
  exists h', list_for_each_safe body fuel h head = Some (h', l) /\ is_list h' head (List.filter keep l).
Proof using Hbody.
  intros Hl Hf. unfold list_for_each_safe. rewrite (head_in_ring _ _ _ Hl), bind_some. destruct l as [|p l].
  - simpl. rewrite (head_in_ring _ _ _ Hl), bind_some. exists h. split; [|done]. by destruct fuel; simpl; rewrite Z.eqb_refl.
  - cbn [List.hd_error default from_option id]. rewrite (next_in_ring h head [] p l Hl), bind_some.
    apply (loop_safe_spec l [] h p fuel Hl). simpl in Hf. lia.
Qed.
End Safe.

(** The loop over structures is the loop over their nodes. *)
Lemma entry_loop_safe_nodes body off head : forall fuel h p n,
  entry_loop_safe body off fuel h (list_entry off p) (list_entry off n) head
  = match loop_safe (fun q => body (list_entry off q)) nx fuel h p n head with
    | Some (h, r) => Some (h, list_entry off <$> r)
    | None => None
    end.
Proof.
  induction fuel as [|fuel IH]; intros h p n; cbn [entry_loop_safe loop_safe]; rewrite field_entry; destruct (p =? head); try done.
  destruct (body (list_entry off p) h) as [h1|]; [|done]. rewrite !bind_some, field_entry.
  destruct (nx h1 !! n) as [n'|]; [|done]. rewrite !bind_some, IH. by destruct (loop_safe _ _ _ _ _ _ _) as [[? ?]|].
Qed.

(** The body that takes off the structures for which [drop] holds. *)
Definition delete_if (off : Z) (drop : Z -> bool) (p : Z) (h : heap) : option heap :=
  if drop p then list_del h (field off p) else Some h.

(** [list_for_each_entry_safe] with a body that deletes: every structure is visited once, in order,
    and those that are not dropped are left, in order. The loop ends: the fuel is the length. *)
Theorem for_each_entry_safe_deletes off drop h head l :
  is_list h head l ->
  exists h', list_for_each_entry_safe (delete_if off drop) off (length l) h head = Some (h', list_entry off <$> l)
    /\ is_list h' head (List.filter (fun q => negb (drop (list_entry off q))) l).
Proof.
  intros Hl.
  assert (body_spec (fun q => delete_if off drop (list_entry off q)) head (fun q => negb (drop (list_entry off q)))) as Hb.
  { intros h0 l1 p l2 H0. unfold delete_if. rewrite field_entry. destruct (drop (list_entry off p)); simpl; [|by exists h0].
    destruct (del_fields_spec h0 head l1 p l2 NULL NULL H0) as (h1 & Hrun & Hl1 & _). exists h1. by split. }
  destruct (list_for_each_safe_spec _ _ _ Hb h l (length l) Hl ltac:(lia)) as (h' & Hrun & Hl'). exists h'. split; [|done].
  unfold list_for_each_entry_safe. unfold list_for_each_safe in Hrun.
  destruct (nx h !! head) as [p|]; [|done]. rewrite bind_some in Hrun |- *. rewrite field_entry.
  destruct (nx h !! p) as [n|]; [|done]. rewrite bind_some in Hrun |- *.
  rewrite entry_loop_safe_nodes, Hrun. done.
Qed.

(** [list_for_each], which reads the successor after the body, follows the null pointer that
    [list_del] leaves in the node. *)
Lemma for_each_del_fails h head p l fuel :
  is_list h head (p :: l) -> (nx h !! NULL = None) -> head <> NULL -> (0 < fuel)%nat ->
  for_each (fun q h => list_del h q) fuel h head = None.
Proof.
  intros Hl Hn Hh Hf. unfold for_each. rewrite (head_in_ring _ _ _ Hl), bind_some. cbn [List.hd_error default from_option id].
  destruct fuel as [|fuel]; [lia|]. cbn [loop].
  assert (p <> head) as Hp by (destruct Hl as [Hnd _]; intros ->; apply NoDup_cons in Hnd as [Hnd _]; apply Hnd; set_solver).
  rewrite (proj2 (Z.eqb_neq p head)) by done.
  destruct (del_fields_spec h head [] p l NULL NULL Hl) as (h1 & Hrun & Hl1 & [_ Ht] & Hnx & _).
  unfold list_del. rewrite Hrun, bind_some, Hnx, bind_some.
  destruct fuel; cbn [loop]; rewrite (proj2 (Z.eqb_neq NULL head)) by done; [done|].
  assert (list_del h1 NULL = None) as Hd; [|unfold list_del in Hd; by rewrite Hd].
  unfold list_del, _list_del. destruct (nx h1 !! NULL) as [v|] eqn:E; [|done]. rewrite bind_some.
  destruct (pv h1 !! NULL) as [w|] eqn:E'; [|done]. exfalso.
  destruct (proj1 (Ht NULL)) as [[? He] _]; [by split; eexists|]. congruence.
Qed.

(** Backwards. *)
Lemma prev_in_ring h head l1 p l2 :
  is_list h head (l1 ++ p :: l2) -> pv h !! p = Some (default head (last l1)).
Proof.
  intros [_ Hs]. destruct l1 as [|x l1' _] using rev_ind; [by destruct Hs as (_ & ? & _)|].
  rewrite last_snoc. rewrite <- !app_assoc in Hs. cbn [app] in Hs.
  change (head :: l1' ++ x :: p :: l2 ++ [head]) with ((head :: l1') ++ x :: p :: l2 ++ [head]) in Hs.
  apply seg_app in Hs as [_ Hs]. simpl in *. tauto.
Qed.
Lemma last_in_ring h head l : is_list h head l -> pv h !! head = Some (default head (last l)).
Proof.
  intros [_ Hs]. destruct l as [|x l' _] using rev_ind; [by destruct Hs as (_ & ? & _)|].
  rewrite last_snoc. rewrite <- app_assoc in Hs. change (head :: l' ++ [x] ++ [head]) with ((head :: l') ++ x :: [head]) in Hs.
  apply seg_app in Hs as [_ Hs]. simpl in *. tauto.
Qed.

(** [list_for_each_prev] with a body that reads visits the elements from the last to the first. *)
Lemma list_for_each_prev_spec h head l fuel :
  is_list h head l -> (length l <= fuel)%nat ->
  list_for_each_prev (fun _ h => Some h) fuel h head = Some (h, reverse l).
Proof.
  intros Hl Hf. unfold list_for_each_prev. rewrite (last_in_ring _ _ _ Hl), bind_some.
  assert (forall l1 l2 fuel, l = l1 ++ l2 -> (length l1 <= fuel)%nat ->
    loop (fun _ h => Some h) pv fuel h (default head (last l1)) head = Some (h, reverse l1)) as H.
  { clear fuel Hf. intros l1. induction l1 as [|x l1 IH] using rev_ind; intros l2 fuel Hs Hf.
    - by destruct fuel; simpl; rewrite Z.eqb_refl.
    - rewrite last_snoc. cbn [default from_option id]. rewrite length_app in Hf. simpl in Hf.
      destruct fuel as [|fuel]; [lia|]. cbn [loop]. rewrite <- app_assoc in Hs. simpl in Hs.
      assert (x <> head) as Hx.
      { destruct Hl as [Hnd _]. intros ->. apply NoDup_cons in Hnd as [Hnd _]. apply Hnd. rewrite Hs. set_solver. }
      rewrite (proj2 (Z.eqb_neq x head)), bind_some by done. rewrite Hs in Hl.
      rewrite (prev_in_ring _ _ _ _ _ Hl), bind_some, (IH (x :: l2) fuel Hs) by lia. by rewrite bind_some, reverse_snoc. }
  apply (H l []); [by rewrite app_nil_r|done].
Qed.
